(* ===== verification/_CoqProject ===== *)
-Q . S2P
Prelude.v
Bitmap.v
Avl.v
Flash.v
Machine.v
Sim.v
BlockManager.v
BlockMaps.v
BlockRestart.v
Amu.v
AmuFacts.v
AmuSpec.v
AmuWrite.v
AmuDispatch.v
AmuFlush.v
AmuAttach.v
AmuTheorems.v
DataCache.v
DataCacheFacts.v
DataCacheSpec.v
DataCacheWrite.v
DataCacheStore.v
DataCacheRead.v
DataCacheFetch.v
DataCacheFlush.v
DataCacheTheorems.v
DataCacheFrame.v
Ftl.v
FtlSegment.v
FtlRefine.v
FtlFlush.v
FtlNamespaces.v
FtlRestart.v
FtlTheorems.v
Prp.v
PrpFacts.v
Nvme.v
NvmeTheorems.v
NvmeQueue.v
NvmeQueueTheorems.v
Alloc.v
AllocFacts.v
AllocTheorems.v
Fil.v
FilFacts.v
FilSched.v
FilQueue.v
FilDispatch.v
FilRound.v
FilMoves.v
FilDone.v
FilServe.v
FilFinish.v
FilPoll.v
FilTick.v
FilLoop.v
FilTheorems.v
