(* ===== verification/Prelude.v ===== *)
(** * The storage firmware of soda

    A model, in Rocq, of the firmware in src/myssd_sdk of this repository: the
    flash translation layer of an open-channel style SSD, its NVMe front end and
    the flash firmware of its real-time core, for the embedded build (not __UM__).  The C functions are translated one by
    one to functions of a state monad with failure ([ST], below), composed the
    way the C code composes them; the theorems are about those functions.

    ** Parts, files and code

    - Prelude.v: return codes, machine-width integers, the monad [ST] and its
      weakest preconditions [wp] (total: no failed assertion, NULL dereference or
      deadlock, and a result), partial ones [wlp], loops, lenses between nested
      states, generic list lemmas and tactics.
    - Bitmap.v (include/bitmap.h, src/bitmap.c): bit access, bit search with its
      two code paths, and, or, equality.
    - Avl.v (include/avl.h): AVL trees and their iterators.
    - Flash.v (include/flash.h, flash_config.h, src/ftl/amu.c): the geometry, the
      codec of physical page numbers, the striping schemes.
    - Machine.v (src/main.c, amu.c): what the storage path sees of the platform:
      [submit_flash_transaction], [ecc_calculate], [ecc_correct] and
      [amu_submit_transaction] are translated; the flash and ECC controllers
      behind the ring queues, FatFs, the allocator and the DMA engine are the
      typeclass [Platform].  Its laws are the classes [PlatformOk] (what a device
      does when it answers) and [EccLive], [ReadLive], [WriteLive], [AllocLive],
      [FsLive], [DmaLive], ... (a device that always answers), so a theorem names
      the devices it needs.  Sim.v is a platform that satisfies all of them; the
      witnesses run on it.
    - BlockManager.v, BlockMaps.v, BlockRestart.v (src/ftl/block_manager.c): block
      states, write frontiers, free lists, page allocation, bad blocks, and the
      two files that survive a restart.
    - Amu*.v (src/ftl/amu.c): address mapping domains, the cache of translation
      pages with pinning and LRU eviction, read-modify-write, dispatch of
      transaction lists with roll-back, the directory file.  AmuFacts.v to
      AmuAttach.v hold the invariants ([inv], [wf_amu], ...), AmuTheorems.v the
      properties.
    - DataCache*.v (src/ftl/data_cache.c, src/iov_iter.c): the write cache: lookup
      tree, LRU list, eviction with write-back, buffered writes, reads overlaid
      with cached sectors, range flush and the flusher hand-shake.
    - Ftl*.v (src/ftl/ftl.c): segmentation of requests, request dispatch, flush,
      sync, shutdown, start-up, the manifest and the namespace operations.
    - Prp.v, PrpFacts.v (src/hostif/nvme.c): transfers along PRP lists.  The PCIe
      requester is the class [Pcie] with laws [PcieOk] and [PcieLive];
      [prp_host] makes it the host of the data cache.
    - Nvme.v (src/hostif/nvme.c, nvme_identify.c): command decoding, every admin
      and I/O handler, the tasks of the in-storage processor.
    - NvmeQueue.v, NvmeQueueTheorems.v (nvme.c, main.c, worker.c): how commands and
      tasks reach the worker threads, as a function from lists of events to
      states.
    - Alloc.v, AllocFacts.v, AllocTheorems.v (src/alloc.c): the physical memory
      allocator; the storage path does not call the model of it, it sees
      allocations as calls that can fail ([Platform]).
    - Fil*.v (r5poll/main.c, fil/tsu.c, fil/fil.c, fil/nfc.c, timer.c): the flash
      firmware of the real-time core, which runs the tasks that
      [submit_flash_transaction] puts on a ring.  Fil.v has every operation from
      the ring to the controller: [tsu_process_task] queues a task, the
      [dispatch_*] functions choose what a chip does next, [fil_dispatch] and the
      [start_*] and [complete_*] functions take a command through its transfers,
      [check_completion] polls, [main_loop] is one turn of the loop.  The class
      [Nfc] is what registers and timer contain at each reading, and what is
      written to a controller is appended to a log.  [NfcOk] is what the driver
      relies on: a clock below 2^63, a die that is ready when its data is fetched,
      a controller that is idle again within [patience] polls.
      FilFacts.v gives each die a phase (idle, command in transfer, running, data
      waiting, data in transfer) and states the invariant of the whole state for a
      map of phases; FilSched.v to FilFinish.v show that each operation is a move
      of that map, FilPoll.v to FilLoop.v do the polling and one turn of the loop,
      FilTheorems.v has the properties of all reachable states.  The tasks that
      arrive are [acceptable]: not in use, of a known type, and for a die that
      exists when the channel and the chip do (fil_unknown_die_stops shows what
      happens otherwise).

    Each component is a [Record] for its state and one definition per function.
    A caller's state contains the states it calls into and runs them through
    [lift].  Clients depend on interfaces: the block manager and everything above
    on [Platform], the data cache on [Host], the NVMe layer on [Pcie] and
    [Storpu].

    ** What the theorems show

    - The NVMe layer and the translation layer refine an abstract block device
      ([bdev]: a finite map of sectors and a host): nvme_io_refines and
      ftl_refines_block_device, built on amu_writes_correct, amu_reads_correct,
      dc_write_correct and dc_read_correct.  One kind of request is left out of
      the refinement: [write_buffers] never assigns its result for a write-zeroes
      request of which every page is cached, so [r0], a parameter of the model
      that stands for the indeterminate value, is returned; unless it is 0 the
      clean-up then erases the entries.  [results_assigned] (FtlRefine.v) is the
      condition, a boolean function of the run, dc_write_zeroes_indeterminate the
      defect.
    - Data survives: ftl_flush_durable, ftl_power_cycle, amu_reattach_roundtrip
      and the round trips of the files.
    - Pages are handed out once (bm_pages_never_reused), namespaces do not
      interfere (amu_isolation), PRP transfers touch the described bytes only.
    - Blocks of memory in use never overlap, an allocation is refused only when no
      hole fits, and a release undoes the allocation (alloc_safe,
      alloc_mem_complete, alloc_free_roundtrip).
    - A completion is what is written to the completion FIFO; the upper half of its
      result is an option, since it is written only when it is not zero.
    - Work reaches a worker exactly once, wake-ups are not lost, and a full slot
      is executed in the next turn of its worker.
    - The flash firmware answers every task exactly once, gives the controllers
      exactly the commands that the tasks ask for, one transfer at a time on each
      bus and within the multi-LUN rules, never leaves a bus idle while a chip
      without commands has work, and finishes everything in five turns per task
      when the controllers answer (fil_answers_once, fil_commands_once,
      fil_bus_exclusive, fil_no_stall, fil_all_answered).
    - Trees, bit searches, codecs and striping meet their specifications.
    - Errors: what each operation answers and leaves behind when it refuses; and
      theorems that exhibit the defects found, each on a concrete or arbitrary
      state ("defect" in its comment).

    ** Fuel and bounds

    Loops over lists are structural.  Loops with fuel take it from the state and
    a lemma shows it is enough: the bit search one unit per chunk, PRP
    traversal one per byte, segmentation one per sector, the flush of a range one
    per cached page, polling one per queued element.  In the flash firmware the
    end of a transfer dispatches the next command, which can end at once: the
    recursion takes a request from a queue each time, so the number of queued
    requests is its fuel; the polling of the dies has [patience] rounds for each
    of them.  [wp] statements fail on exhausted fuel, so they include termination.
    Theorems about the storage path assume as many free pages, and as much room in
    the cache of translation pages, as the operations need ([room], [amu_room],
    [ftl_sim]'s counter), so that no translation page is evicted
    (amu_recycled_page_stale shows what eviction does); tree heights are bounded by
    avl_insertions_fit.

    ** Not modelled, and why

    - Interleavings inside a request: the translation layer runs one request to
      its end, mutexes are taken uncontended, and a flusher runs when the request
      waits for it.  Concurrency is modelled where it is the subject: the worker
      threads.
    - Theorems on the cache, on refinement and on the power cycle concern one
      attached namespace; the allocator, the mapping unit and the manifest are
      treated with all of them.
    - Console output, statistics other than the recorded samples, the vendored
      histogram library, and BCH codes.
    - Device drivers that only program registers (src/zdma.c channels, nvme_pcie.c,
      uart, timer, interrupts), boot, paging and exception entry.
    - Of the real-time core (r5poll): how the flash controller's registers are
      programmed, the reset and timing training of the flash chips, the profiler,
      the watchdog, interrupts and the report of statistics.  A multi-plane build
      ([ENABLE_MULTIPLANE] is off in flash_config.h).  Its rings are lists; the
      two cores are joined in the model only by what a task is and when it is
      answered.
    - The StorPU runtime, the coroutines and the slab allocator, the ECC core, the
      user-mode port, the host tools and PostgreSQL. *)

From Stdlib Require Export ZArith Lia.
From stdpp Require Export prelude gmap strings sorting.

#[export] Set Default Proof Using "Type".
Global Open Scope Z_scope.

(** * Return codes

    The C functions return 0 for success and a positive errno otherwise; a few
    return a negative errno.  The magnitudes are libc's, so codes are symbolic. *)
Inductive errno :=
  | EPERM | ENOENT | ESRCH | EIO | EAGAIN | ENOMEM | EBUSY | EEXIST | EINVAL | ENFILE | ENOSPC
  | EBADMSG | ENOTSUP | ENOSYS | EFAULT | EDEADLK | ETIMEDOUT.
#[export] Instance errno_eq_dec : EqDecision errno.
Proof. solve_decision. Defined.

(** [R0] is [r == 0]. *)
Inductive rc := R0 | Err (e : errno).
#[export] Instance rc_eq_dec : EqDecision rc.
Proof. solve_decision. Defined.

Definition is_ok (r : rc) : bool := match r with R0 => true | Err _ => false end.

(** * Machine integers *)
Definition u16 (x : Z) : Z := x mod 2 ^ 16.
Definition u32 (x : Z) : Z := x mod 2 ^ 32.
Definition u64 (x : Z) : Z := x mod 2 ^ 64.

Lemma u32_small x : 0 ≤ x < 2 ^ 32 → u32 x = x.
Proof. apply Z.mod_small. Qed.
Lemma u64_small x : 0 ≤ x < 2 ^ 64 → u64 x = x.
Proof. apply Z.mod_small. Qed.
Lemma u32_bound x : 0 ≤ u32 x < 2 ^ 32.
Proof. apply Z.mod_pos_bound; lia. Qed.
Lemma u64_bound x : 0 ≤ u64 x < 2 ^ 64.
Proof. apply Z.mod_pos_bound; lia. Qed.

(** The [roundup] macro of const.h: note that it adds [align] before it
    subtracts the remainder, and is the identity on multiples. *)
Definition roundup (x align : Z) : Z :=
  if x mod align =? 0 then x else x + align - x mod align.
Definition rounddown (x align : Z) : Z := x - x mod align.

Lemma roundup_spec x a : 0 < a → (a | roundup x a) ∧ x ≤ roundup x a < x + a.
Proof.
  intros Ha. unfold roundup. pose proof (Z.mod_pos_bound x a Ha).
  destruct (Z.eqb_spec (x mod a) 0) as [E|E].
  - split; [by apply Z.mod_divide; [lia|] | lia].
  - split; [|lia]. exists (x / a + 1).
    rewrite (Z.div_mod x a) at 1 by lia. lia.
Qed.

(** * The state monad with failure

    [None] is a run that does not continue: a failed [Xil_Assert], a [panic], a
    NULL dereference or a self-deadlock.  Return codes are ordinary results. *)
Definition ST (S A : Type) : Type := S → option (A * S).

#[export] Instance ST_ret S : MRet (ST S) := λ A a s, Some (a, s).
#[export] Instance ST_bind S : MBind (ST S) := λ A B f m s,
  match m s with Some (a, s') => f a s' | None => None end.

Section monad.
Context {S : Type}.

Definition get : ST S S := λ s, Some (s, s).
Definition gets {A} (f : S → A) : ST S A := λ s, Some (f s, s).
Definition put (s : S) : ST S unit := λ _, Some (tt, s).
Definition modify (f : S → S) : ST S unit := λ s, Some (tt, f s).
Definition stuck {A} : ST S A := λ _, None.
(** [Xil_AssertVoid] / [Xil_AssertNonvoid]. *)
Definition assert (b : bool) : ST S unit := if b then mret tt else stuck.
(** Dereference of a possibly NULL pointer, or an array access. *)
Definition deref {A} (o : option A) : ST S A :=
  match o with Some a => mret a | None => stuck end.

(** [for (x in l) body], and the same with an early [goto] on a non-zero
    return code. *)
Fixpoint for_each {A} (l : list A) (f : A → ST S unit) : ST S unit :=
  match l with
  | [] => mret tt
  | x :: l' => f x ≫= λ _, for_each l' f
  end.
Fixpoint for_each_rc {A} (l : list A) (f : A → ST S rc) : ST S rc :=
  match l with
  | [] => mret R0
  | x :: l' => f x ≫= λ r, match r with R0 => for_each_rc l' f | Err _ => mret r end
  end.

(** The same with local variables [st] that survive the iterations. *)
Fixpoint fold_rc {A L} (l : list A) (f : A → L → ST S (rc * L)) (st : L) : ST S (rc * L) :=
  match l with
  | [] => mret (R0, st)
  | x :: l' => f x st ≫= λ '(r, st'),
      match r with R0 => fold_rc l' f st' | Err _ => mret (r, st') end
  end.
End monad.

(** [do_if b m]: [if (b) m;] without an else branch. *)
Definition do_if {S} (b : bool) (m : ST S unit) : ST S unit :=
  if b then m else mret tt.

(** * Weakest preconditions

    [wp m Q s]: started in [s], [m] does not get stuck and ends in a result and
    a state satisfying [Q].  Every [wp] statement is therefore also a
    termination and absence-of-assertion-failure statement. *)
Definition wp {S A} (m : ST S A) (Q : A → S → Prop) (s : S) : Prop :=
  match m s with Some (a, s') => Q a s' | None => False end.

Section wp.
Context {S : Type}.
Implicit Types s : S.

Lemma wp_ret {A} (a : A) (Q : A → S → Prop) s : wp (mret a) Q s ↔ Q a s.
Proof. done. Qed.
Lemma wp_bind {A B} (m : ST S A) (f : A → ST S B) Q s :
  wp (m ≫= f) Q s ↔ wp m (λ a, wp (f a) Q) s.
Proof. unfold wp, mbind, ST_bind. by destruct (m s) as [[a s']|]. Qed.
Lemma wp_get (Q : S → S → Prop) s : wp get Q s ↔ Q s s.
Proof. done. Qed.
Lemma wp_gets {A} (f : S → A) (Q : A → S → Prop) s : wp (gets f) Q s ↔ Q (f s) s.
Proof. done. Qed.
Lemma wp_put s0 (Q : () → S → Prop) s : wp (put s0) Q s ↔ Q tt s0.
Proof. done. Qed.
Lemma wp_modify (f : S → S) (Q : () → S → Prop) s : wp (modify f) Q s ↔ Q tt (f s).
Proof. done. Qed.
Lemma wp_assert b (Q : () → S → Prop) s : wp (assert b) Q s ↔ b = true ∧ Q tt s.
Proof. destruct b; unfold wp, assert; cbn; intuition congruence. Qed.
Lemma wp_deref {A} (o : option A) (Q : A → S → Prop) s :
  wp (deref o) Q s ↔ ∃ a, o = Some a ∧ Q a s.
Proof.
  destruct o as [a|]; unfold wp, deref; cbn; split; [by eauto|by intros (? & [= ->] & ?)|done|].
  by intros (? & ? & _).
Qed.
Lemma wp_do_if b (m : ST S ()) Q s :
  wp (do_if b m) Q s ↔ if b then wp m Q s else Q tt s.
Proof. by destruct b. Qed.
Lemma wp_mono {A} (m : ST S A) (Q1 Q2 : A → S → Prop) s :
  wp m Q1 s → (∀ a s', Q1 a s' → Q2 a s') → wp m Q2 s.
Proof. unfold wp. destruct (m s) as [[a s']|]; cbn; try done; auto. Qed.
Lemma wp_run {A} (m : ST S A) Q s : wp m Q s ↔ ∃ a s', m s = Some (a, s') ∧ Q a s'.
Proof.
  unfold wp. destruct (m s) as [[a s']|]; split; [by eauto|by intros (? & ? & [= -> ->] & ?)|done|].
  by intros (? & ? & ? & _).
Qed.
Lemma wp_and {A} (m : ST S A) (Q1 Q2 : A → S → Prop) s :
  wp m Q1 s → wp m Q2 s → wp m (λ a s', Q1 a s' ∧ Q2 a s') s.
Proof. unfold wp. destruct (m s) as [[a s']|]; cbn; try done; auto. Qed.

(** Loop rule: [I] is indexed by the part of the list already processed. *)
Lemma wp_for_each {A} (I : list A → S → Prop) (l : list A) f s :
  I [] s →
  (∀ pre x post s', l = pre ++ x :: post → I pre s' →
     wp (f x) (λ _, I (pre ++ [x])) s') →
  wp (for_each l f) (λ _, I l) s.
Proof.
  intros H0 Hstep.
  cut (∀ post pre s', l = pre ++ post → I pre s' →
         wp (for_each post f) (λ _, I l) s').
  { intros H. by apply (H l []). }
  induction post as [|x post IH]; intros pre s' El HI; simpl.
  - rewrite app_nil_r in El. apply wp_ret. by rewrite El.
  - apply wp_bind. eapply wp_mono; [by apply Hstep with (post := post)|].
    intros [] s'' HI'. apply (IH (pre ++ [x])); [by rewrite <-app_assoc|done].
Qed.

(** The same for loops with an error exit, when no iteration fails. *)
Lemma wp_for_each_rc {A} (I : list A → S → Prop) (l : list A) f s :
  I [] s →
  (∀ pre x post s', l = pre ++ x :: post → I pre s' →
     wp (f x) (λ r s'', r = R0 ∧ I (pre ++ [x]) s'') s') →
  wp (for_each_rc l f) (λ r s', r = R0 ∧ I l s') s.
Proof.
  intros H0 Hstep.
  cut (∀ post pre s', l = pre ++ post → I pre s' →
         wp (for_each_rc post f) (λ r s'', r = R0 ∧ I l s'') s').
  { intros H. by apply (H l []). }
  induction post as [|x post IH]; intros pre s' El HI; simpl.
  - rewrite app_nil_r in El. apply wp_ret. by rewrite El.
  - apply wp_bind. eapply wp_mono; [by apply Hstep with (post := post)|].
    simpl. intros r s'' [-> HI']. apply (IH (pre ++ [x])); [by rewrite <-app_assoc|done].
Qed.

(** The same for loops with local variables; [E] describes an error exit. *)
Lemma wp_fold_rc {A L} (I : list A → L → S → Prop) (E : L → S → Prop) (l : list A) f st s :
  I [] st s →
  (∀ pre x post st' s', l = pre ++ x :: post → I pre st' s' →
     wp (f x st') (λ '(r, st'') s'', match r with R0 => I (pre ++ [x]) st'' s'' | Err _ => E st'' s'' end) s') →
  wp (fold_rc l f st) (λ '(r, st') s', match r with R0 => I l st' s' | Err _ => E st' s' end) s.
Proof.
  intros H0 Hstep.
  cut (∀ post pre st s', l = pre ++ post → I pre st s' →
         wp (fold_rc post f st) (λ '(r, st') s', match r with R0 => I l st' s' | Err _ => E st' s' end) s').
  { intros H. by apply (H l []). }
  induction post as [|x post IH]; intros pre st' s' El HI; simpl.
  - rewrite app_nil_r in El. apply wp_ret. by rewrite El.
  - apply wp_bind. eapply wp_mono; [by apply Hstep with (post := post)|].
    intros [[|e] st''] s'' HI'; [|by apply wp_ret].
    apply (IH (pre ++ [x])); [by rewrite <-app_assoc|done].
Qed.
End wp.

(** * Nested states

    A component's state contains the states of the components it calls; [lift]
    runs a callee's operation on its part of the caller's state. *)
Class Lens (S T : Type) := {
  lget : S → T;
  lset : T → S → S;
  lget_lset : ∀ t s, lget (lset t s) = t;
}.

Definition lift {S T A} `{Lens S T} (m : ST T A) : ST S A := λ s,
  match m (lget s) with Some (a, t) => Some (a, lset t s) | None => None end.

Lemma wp_lift {S T A} `{Lens S T} (m : ST T A) (Q : A → S → Prop) s :
  wp (lift m) Q s ↔ wp m (λ a t, Q a (lset t s)) (lget s).
Proof. unfold wp, lift. by destruct (m (lget s)) as [[a t]|]. Qed.

(** * Partial correctness

    [wlp m Q s]: if [m] runs to completion from [s], the result and the final
    state satisfy [Q].  Used for invariants, which are to hold whatever path an
    operation takes; results and termination are stated with [wp]. *)
Definition wlp {S A} (m : ST S A) (Q : A → S → Prop) (s : S) : Prop :=
  ∀ a s', m s = Some (a, s') → Q a s'.

Section wlp.
Context {S : Type}.
Implicit Types s : S.

Lemma wlp_ret {A} (a : A) (Q : A → S → Prop) s : Q a s → wlp (mret a) Q s.
Proof. by intros HQ a' s' [= <- <-]. Qed.
Lemma wlp_bind {A B} (m : ST S A) (f : A → ST S B) Q s :
  wlp m (λ a, wlp (f a) Q) s → wlp (m ≫= f) Q s.
Proof.
  intros Hm b s'. unfold mbind, ST_bind. destruct (m s) as [[a s1]|] eqn:E; [|done].
  by apply Hm.
Qed.
Lemma wlp_gets {A} (f : S → A) (Q : A → S → Prop) s : Q (f s) s → wlp (gets f) Q s.
Proof. by intros HQ a' s' [= <- <-]. Qed.
Lemma wlp_modify (f : S → S) (Q : () → S → Prop) s : Q tt (f s) → wlp (modify f) Q s.
Proof. by intros HQ a' s' [= <- <-]. Qed.
Lemma wlp_assert b (Q : () → S → Prop) s : (b = true → Q tt s) → wlp (assert b) Q s.
Proof. destruct b; intros HQ a' s' [=]; subst; auto. Qed.
Lemma wlp_deref {A} (o : option A) (Q : A → S → Prop) s :
  (∀ a, o = Some a → Q a s) → wlp (deref o) Q s.
Proof. destruct o; intros HQ a' s' [=]; subst; auto. Qed.
Lemma wlp_do_if b (m : ST S ()) Q s : (b = true → wlp m Q s) → Q tt s → wlp (do_if b m) Q s.
Proof. destruct b; [auto|]. intros _ HQ. by apply wlp_ret. Qed.
Lemma wlp_mono {A} (m : ST S A) (Q1 Q2 : A → S → Prop) s :
  wlp m Q1 s → (∀ a s', Q1 a s' → Q2 a s') → wlp m Q2 s.
Proof. intros Hm HQ a s' E. by apply HQ, Hm. Qed.
Lemma wp_wlp {A} (m : ST S A) (Q : A → S → Prop) s : wp m Q s → wlp m Q s.
Proof. intros Hm a s' E. unfold wp in Hm. by rewrite E in Hm. Qed.
Lemma wlp_for_each {A} (I : list A → S → Prop) (l : list A) f s :
  I [] s →
  (∀ pre x post s', l = pre ++ x :: post → I pre s' → wlp (f x) (λ _, I (pre ++ [x])) s') →
  wlp (for_each l f) (λ _, I l) s.
Proof.
  intros H0 Hstep.
  cut (∀ post pre s', l = pre ++ post → I pre s' → wlp (for_each post f) (λ _, I l) s').
  { intros H. by apply (H l []). }
  induction post as [|x post IH]; intros pre s' El HI; simpl.
  - rewrite app_nil_r in El. apply wlp_ret. by rewrite El.
  - apply wlp_bind. eapply wlp_mono; [by apply Hstep with (post := post)|].
    intros [] s'' HI'. apply (IH (pre ++ [x])); [by rewrite <-app_assoc|done].
Qed.
Lemma wlp_fold_rc {A L} (I : list A → S → Prop) (E : S → Prop) (l : list A) (f : A → L → ST S (rc * L)) st s :
  I [] s →
  (∀ pre x post st' s', l = pre ++ x :: post → I pre s' →
     wlp (f x st') (λ r s'', match r.1 with R0 => I (pre ++ [x]) s'' | Err _ => E s'' end) s') →
  wlp (fold_rc l f st) (λ r s', match r.1 with R0 => I l s' | Err _ => E s' end) s.
Proof.
  intros H0 Hstep.
  cut (∀ post pre st s', l = pre ++ post → I pre s' →
         wlp (fold_rc post f st) (λ r s', match r.1 with R0 => I l s' | Err _ => E s' end) s').
  { intros H. by apply (H l []). }
  induction post as [|x post IH]; intros pre st' s' El HI; simpl.
  - rewrite app_nil_r in El. apply wlp_ret. by rewrite El.
  - apply wlp_bind. eapply wlp_mono; [by apply Hstep with (post := post)|].
    intros [[|e] st''] s'' HI'; [|by apply wlp_ret].
    apply (IH (pre ++ [x])); [by rewrite <-app_assoc|done].
Qed.
End wlp.

Lemma wlp_lift {S T A} `{Lens S T} (m : ST T A) (Q : A → S → Prop) s :
  (∀ a t, Q a (lset t s)) → wlp (lift m) Q s.
Proof.
  intros HQ a s'. unfold lift. destruct (m (lget s)) as [[a' t]|]; [|done].
  by intros [= <- <-].
Qed.

(** Go through an operation whose steps do not touch what [Q] is about. *)
Ltac wlp_step :=
  lazymatch goal with
  | |- wlp (_ ≫= _) _ _ => apply wlp_bind
  | |- wlp (mret _) _ _ => apply wlp_ret
  | |- wlp (gets _) _ _ => apply wlp_gets
  | |- wlp (modify _) _ _ => apply wlp_modify
  | |- wlp (assert _) _ _ => apply wlp_assert; intros ?
  | |- wlp (deref _) _ _ => apply wlp_deref; intros ? ?
  | |- wlp (lift _) _ _ => apply wlp_lift; intros ? ?
  end; cbn beta iota.
Ltac wlp_steps := repeat wlp_step.

(** One symbolic step of a [wp] goal. *)
Ltac wp_step :=
  lazymatch goal with
  | |- wp (_ ≫= _) _ _ => apply wp_bind
  | |- wp (mret _) _ _ => apply wp_ret
  | |- wp get _ _ => apply wp_get
  | |- wp (gets _) _ _ => apply wp_gets
  | |- wp (put _) _ _ => apply wp_put
  | |- wp (modify _) _ _ => apply wp_modify
  | |- wp (assert _) _ _ => apply wp_assert; split
  | |- wp (do_if _ _) _ _ => apply wp_do_if
  | |- wp (lift _) _ _ => apply wp_lift
  end; cbn beta.
Ltac wp_steps := repeat wp_step.

(** * Lists *)
Section lists.
Context {A : Type}.

(** [list_del] followed by nothing else: the circular list without [x]
    ([list_del] of a node that is on no list is a no-op, see list.h). *)
Definition list_del `{EqDecision A} (x : A) (l : list A) : list A :=
  filter (λ y, y ≠ x) l.
(** [list_add] puts a node first, [list_add_tail] last. *)
Definition list_add (x : A) (l : list A) : list A := x :: l.
Definition list_add_tail (x : A) (l : list A) : list A := l ++ [x].

Lemma elem_of_list_del `{EqDecision A} (x y : A) l :
  y ∈ list_del x l ↔ y ≠ x ∧ y ∈ l.
Proof. unfold list_del. by rewrite list_elem_of_filter. Qed.
Lemma list_del_not_in `{EqDecision A} (x : A) l : x ∉ l → list_del x l = l.
Proof.
  unfold list_del. induction l as [|y l IH]; [done|]. intros Hx.
  rewrite filter_cons. case_decide; [|set_solver]. f_equal. apply IH. set_solver.
Qed.
Lemma list_del_head `{EqDecision A} (x : A) l : x ∉ l → list_del x (x :: l) = l.
Proof.
  intros Hx. unfold list_del. rewrite filter_cons. case_decide; [done|].
  by apply list_del_not_in.
Qed.
Lemma list_del_last `{EqDecision A} (x : A) l : x ∉ l → list_del x (l ++ [x]) = l.
Proof.
  intros Hx. unfold list_del. rewrite filter_app, filter_cons_False, app_nil_r by naive_solver.
  by apply list_del_not_in.
Qed.
Lemma NoDup_list_del `{EqDecision A} (x : A) l : NoDup l → NoDup (list_del x l).
Proof. apply NoDup_filter. Qed.
Lemma length_list_del `{EqDecision A} (x : A) l :
  NoDup l → x ∈ l → S (length (list_del x l)) = length l.
Proof.
  induction l as [|y l IH]; [set_solver|].
  intros [Hy Hl]%NoDup_cons Hx. destruct (decide (y = x)) as [->|Hne].
  - rewrite list_del_head by done. done.
  - unfold list_del. rewrite filter_cons_True by done. simpl. f_equal.
    apply IH; [done|]. apply elem_of_cons in Hx as [->|Hx]; done.
Qed.

Lemma filter_ext_in (P Q : A → Prop) `{∀ x, Decision (P x), ∀ x, Decision (Q x)} (l : list A) :
  (∀ x, x ∈ l → P x ↔ Q x) → filter P l = filter Q l.
Proof.
  induction l as [|x l IH]; intros HPQ; [done|]. rewrite !filter_cons.
  rewrite IH by (intros y Hy; apply HPQ; by right).
  destruct (decide (P x)) as [HP|HP], (decide (Q x)) as [HQ|HQ]; try done;
    exfalso; specialize (HPQ x ltac:(by left)); tauto.
Qed.

Lemma length_concat_const (n : nat) (ls : list (list A)) :
  Forall (λ l, length l = n) ls → length (concat ls) = (n * length ls)%nat.
Proof.
  induction 1 as [|l ls Hl _ IH]; cbn [concat length]; [lia|].
  rewrite length_app, Hl, IH. lia.
Qed.
Lemma elem_of_option_list (o : option A) (x : A) : x ∈ option_list o ↔ o = Some x.
Proof.
  destruct o as [y|]; simpl; [|set_solver].
  rewrite list_elem_of_singleton. split; [by intros ->|by intros [= ->]].
Qed.
End lists.

Create HintDb soda.
#[export] Hint Resolve NoDup_list_del u32_bound u64_bound : soda.

(** [lia] with division and remainder by constants. *)
Ltac dlia := Z.to_euclidean_division_equations; lia.
