(* ===== verification/Bitmap.v ===== *)
(** Bitmaps over 64-bit chunks: include/bitmap.h and src/bitmap.c.

    A [bitchunk_t *] is a list of chunks, each a Z in [0, 2^64).  [GET_BIT] and
    friends are the macros; [_find_next_bit] is the generic search loop and
    [find_next_bit_small]/[find_next_zero_bit_small] the branches of the inline
    wrappers that the compiler selects for a constant size of at most 64. *)
From S2P Require Import Prelude.

(** * Definitions *)
Definition BITCHUNK_BITS : Z := 64.
Definition BITCHUNKS (bits : Z) : Z := (bits + BITCHUNK_BITS - 1) / BITCHUNK_BITS.
(** [~0UL] *)
Definition ULONG_MAX : Z := Z.ones 64.

(** [map[bit / BITCHUNK_BITS]] *)
Definition chunk (map : list Z) (k : Z) : Z := default 0 (map !! Z.to_nat k).
Definition MAP_CHUNK (map : list Z) (bit : Z) : Z := chunk map (bit / BITCHUNK_BITS).
Definition CHUNK_OFFSET (bit : Z) : Z := bit mod BITCHUNK_BITS.
Definition GET_BIT (map : list Z) (bit : Z) : bool :=
  negb (Z.land (MAP_CHUNK map bit) (Z.shiftl 1 (CHUNK_OFFSET bit)) =? 0).
Definition SET_BIT (map : list Z) (bit : Z) : list Z :=
  <[Z.to_nat (bit / BITCHUNK_BITS) :=
      Z.lor (MAP_CHUNK map bit) (Z.shiftl 1 (CHUNK_OFFSET bit))]> map.
Definition UNSET_BIT (map : list Z) (bit : Z) : list Z :=
  <[Z.to_nat (bit / BITCHUNK_BITS) :=
      Z.ldiff (MAP_CHUNK map bit) (Z.shiftl 1 (CHUNK_OFFSET bit))]> map.

Definition BITMAP_FIRST_WORD_MASK (start : Z) : Z :=
  u64 (Z.shiftl ULONG_MAX (Z.land start (BITCHUNK_BITS - 1))).
Definition BITMAP_LAST_WORD_MASK (nbits : Z) : Z :=
  Z.shiftr ULONG_MAX (Z.land (- nbits) (BITCHUNK_BITS - 1)).
Definition GENMASK (h l : Z) : Z :=
  Z.land (ULONG_MAX - Z.shiftl 1 l + 1) (Z.shiftr ULONG_MAX (BITCHUNK_BITS - 1 - h)).

(** [bitmap_zero]: [BITCHUNKS(nbits)] chunks are cleared. *)
Definition bitmap_zero (nbits : Z) : list Z := replicate (Z.to_nat (BITCHUNKS nbits)) 0.

(** [__builtin_ctzl]; undefined at 0, where the code never calls it. *)
Fixpoint pos_ctz (p : positive) : Z :=
  match p with xO p' => 1 + pos_ctz p' | _ => 0 end.
Definition ctzl (x : Z) : Z := match x with Zpos p => pos_ctz p | _ => 0 end.

(** bitmap.c *)
Definition bitmap_equal (bitmap1 bitmap2 : list Z) (bits : Z) : bool :=
  let lim := bits / BITCHUNK_BITS in
  forallb (λ k, chunk bitmap1 k =? chunk bitmap2 k) (seqZ 0 lim) &&
  (if bits mod BITCHUNK_BITS =? 0 then true
   else Z.land (Z.lxor (chunk bitmap1 lim) (chunk bitmap2 lim))
               (BITMAP_LAST_WORD_MASK bits) =? 0).

(** Returns the chunks written to [dst] and [result != 0]. *)
Definition bitmap_and (bitmap1 bitmap2 : list Z) (bits : Z) : list Z * bool :=
  let lim := bits / BITCHUNK_BITS in
  let full := (λ k, Z.land (chunk bitmap1 k) (chunk bitmap2 k)) <$> seqZ 0 lim in
  let last := if bits mod BITCHUNK_BITS =? 0 then []
              else [Z.land (Z.land (chunk bitmap1 lim) (chunk bitmap2 lim))
                           (BITMAP_LAST_WORD_MASK bits)] in
  let dst := full ++ last in
  (dst, negb (foldl Z.lor 0 dst =? 0)).

Definition bitmap_or (bitmap1 bitmap2 : list Z) (bits : Z) : list Z :=
  (λ k, Z.lor (chunk bitmap1 k) (chunk bitmap2 k)) <$> seqZ 0 (BITCHUNKS bits).

(** [tmp = addr1[k]; if (addr2) tmp &= addr2[k]; tmp ^= invert;] *)
Definition find_word (addr1 : list Z) (addr2 : option (list Z)) (invert k : Z) : Z :=
  let tmp := chunk addr1 k in
  let tmp := match addr2 with Some a => Z.land tmp (chunk a k) | None => tmp end in
  Z.lxor tmp invert.

(** The [while (!tmp)] loop; one unit of fuel per chunk. *)
Fixpoint find_next_loop (fuel : nat) (addr1 : list Z) (addr2 : option (list Z))
    (nbits start invert tmp : Z) : Z :=
  match fuel with
  | O => nbits
  | S fuel =>
      if tmp =? 0 then
        let start := start + BITCHUNK_BITS in
        if nbits <=? start then nbits
        else find_next_loop fuel addr1 addr2 nbits start invert
               (find_word addr1 addr2 invert (start / BITCHUNK_BITS))
      else Z.min (start + ctzl tmp) nbits
  end.

Definition _find_next_bit (addr1 : list Z) (addr2 : option (list Z))
    (nbits start invert : Z) : Z :=
  if nbits <=? start then nbits
  else
    let tmp := find_word addr1 addr2 invert (start / BITCHUNK_BITS) in
    let tmp := Z.land tmp (BITMAP_FIRST_WORD_MASK start) in
    find_next_loop (S (Z.to_nat (BITCHUNKS nbits))) addr1 addr2 nbits
      (rounddown start BITCHUNK_BITS) invert tmp.

Definition find_next_bit_small (addr : list Z) (size offset : Z) : Z :=
  if size <=? offset then size
  else let val := Z.land (chunk addr 0) (GENMASK (size - 1) offset) in
       if val =? 0 then size else ctzl val.
Definition find_next_bit (addr : list Z) (size offset : Z) : Z :=
  if (0 <? size) && (size <=? BITCHUNK_BITS) then find_next_bit_small addr size offset
  else _find_next_bit addr None size offset 0.
Definition find_next_zero_bit_small (addr : list Z) (size offset : Z) : Z :=
  if size <=? offset then size
  else let val := Z.lor (chunk addr 0) (Z.lxor ULONG_MAX (GENMASK (size - 1) offset)) in
       if val =? ULONG_MAX then size else ctzl (Z.lxor ULONG_MAX val).
Definition find_next_zero_bit (addr : list Z) (size offset : Z) : Z :=
  if (0 <? size) && (size <=? BITCHUNK_BITS) then find_next_zero_bit_small addr size offset
  else _find_next_bit addr None size offset ULONG_MAX.
Definition find_first_bit (addr : list Z) (size : Z) : Z := find_next_bit addr size 0.
Definition find_next_and_bit (addr1 addr2 : list Z) (size offset : Z) : Z :=
  if (0 <? size) && (size <=? BITCHUNK_BITS) then
    if size <=? offset then size
    else let val := Z.land (Z.land (chunk addr1 0) (chunk addr2 0)) (GENMASK (size - 1) offset) in
         if val =? 0 then size else ctzl val
  else _find_next_bit addr1 (Some addr2) size offset 0.

(** * Specification vocabulary *)

(** Bit [i] of a bitmap. *)
Definition bit (map : list Z) (i : Z) : bool :=
  Z.testbit (chunk map (i / 64)) (i mod 64).
(** Every chunk is an unsigned long. *)
Definition bm_wf (map : list Z) : Prop := Forall (λ c, 0 ≤ c < 2 ^ 64) map.
(** [r] is the first index in [start, n) satisfying [P], or [n]. *)
Definition first_from (P : Z → bool) (start n r : Z) : Prop :=
  (r = n ∨ (start ≤ r < n ∧ P r = true)) ∧ (∀ i, start ≤ i < r → P i = false).

(** * Bit-level lemmas *)
Lemma land_pow2_testbit c j : 0 ≤ j → negb (Z.land c (Z.shiftl 1 j) =? 0) = Z.testbit c j.
Proof.
  intros Hj. rewrite Z.shiftl_1_l. destruct (Z.testbit c j) eqn:E.
  - apply negb_true_iff, Z.eqb_neq. intros H.
    assert (Z.testbit (Z.land c (2 ^ j)) j = false) as H' by by rewrite H, Z.bits_0.
    by rewrite Z.land_spec, E, Z.pow2_bits_true in H' by lia.
  - apply negb_false_iff, Z.eqb_eq, Z.bits_inj'. intros n Hn.
    rewrite Z.land_spec, Z.bits_0. destruct (decide (n = j)) as [->|Hne]; [by rewrite E|].
    rewrite Z.pow2_bits_false by lia. by rewrite andb_false_r.
Qed.

Lemma GET_BIT_bit map i : GET_BIT map i = bit map i.
Proof.
  unfold GET_BIT, bit, MAP_CHUNK, CHUNK_OFFSET, BITCHUNK_BITS.
  apply land_pow2_testbit. pose proof (Z.mod_pos_bound i 64); lia.
Qed.

Lemma chunk_insert map k c k' :
  0 ≤ k → 0 ≤ k' → k < Z.of_nat (length map) →
  chunk (<[Z.to_nat k := c]> map) k' = if decide (k' = k) then c else chunk map k'.
Proof.
  intros Hk Hk' Hl. unfold chunk. case_decide as E; subst.
  - by rewrite list_lookup_insert_eq by lia.
  - by rewrite list_lookup_insert_ne by lia.
Qed.

Lemma div_mod_64_inj i j : i / 64 = j / 64 → i mod 64 = j mod 64 → i = j.
Proof. dlia. Qed.

Section set_bits.
Context (map : list Z) (i : Z) (Hi : 0 ≤ i) (Hlen : i / 64 < Z.of_nat (length map)).

Lemma bit_SET_BIT j : 0 ≤ j → bit (SET_BIT map i) j = bool_decide (j = i) || bit map j.
Proof using All.
  intros Hj. unfold bit, SET_BIT, MAP_CHUNK, CHUNK_OFFSET, BITCHUNK_BITS.
  rewrite chunk_insert by (auto using Z.div_pos with lia).
  case_decide as E.
  - rewrite Z.lor_spec, Z.shiftl_1_l, Z.pow2_bits_eqb by dlia.
    rewrite E, orb_comm. f_equal. case_bool_decide; [subst; apply Z.eqb_refl|].
    apply Z.eqb_neq. dlia.
  - rewrite bool_decide_eq_false_2 by congruence. done.
Qed.

Lemma bit_UNSET_BIT j : 0 ≤ j → bit (UNSET_BIT map i) j = negb (bool_decide (j = i)) && bit map j.
Proof using All.
  intros Hj. unfold bit, UNSET_BIT, MAP_CHUNK, CHUNK_OFFSET, BITCHUNK_BITS.
  rewrite chunk_insert by (auto using Z.div_pos with lia).
  case_decide as E.
  - rewrite Z.ldiff_spec, Z.shiftl_1_l, Z.pow2_bits_eqb by dlia.
    rewrite E, andb_comm. f_equal. f_equal. case_bool_decide; [subst; apply Z.eqb_refl|].
    apply Z.eqb_neq. dlia.
  - rewrite bool_decide_eq_false_2 by congruence. done.
Qed.
End set_bits.

Lemma chunk_bound map k : bm_wf map → 0 ≤ chunk map k < 2 ^ 64.
Proof.
  intros H. unfold chunk. destruct (map !! Z.to_nat k) as [c|] eqn:E; simpl; [|lia].
  by apply (Forall_lookup_1 _ _ _ _ H) in E.
Qed.

Lemma Z_bound_bits n x : 0 ≤ n → (∀ i, n ≤ i → Z.testbit x i = false) → 0 ≤ x → x < 2 ^ n.
Proof.
  intros Hn Hb Hx. destruct (decide (x = 0)) as [->|Hne]; [lia|].
  apply Z.log2_lt_pow2; [lia|]. destruct (decide (Z.log2 x < n)); [done|].
  specialize (Hb (Z.log2 x)). rewrite Z.bit_log2 in Hb by lia. by discriminate Hb; lia.
Qed.

Lemma testbit_high x n i : 0 ≤ x < 2 ^ n → n ≤ i → Z.testbit x i = false.
Proof.
  intros [H0 Hx] Hi. destruct (decide (x = 0)) as [->|]; [apply Z.bits_0|].
  apply Z.bits_above_log2; [lia|]. assert (Z.log2 x < n) by (apply Z.log2_lt_pow2; lia). lia.
Qed.

Lemma bm_wf_SET map i : 0 ≤ i → bm_wf map → bm_wf (SET_BIT map i).
Proof.
  intros Hi H. apply Forall_insert; [done|].
  pose proof (chunk_bound map (i / BITCHUNK_BITS) H). unfold MAP_CHUNK, CHUNK_OFFSET, BITCHUNK_BITS in *.
  pose proof (Z.mod_pos_bound i 64). rewrite Z.shiftl_1_l.
  assert (0 ≤ Z.lor (chunk map (i / 64)) (2 ^ (i mod 64))) by (apply Z.lor_nonneg; lia).
  split; [done|]. apply Z_bound_bits; [lia| |done].
  intros k Hk. rewrite Z.lor_spec, (testbit_high _ 64), Z.pow2_bits_false by lia. done.
Qed.

Lemma bm_wf_UNSET map i : bm_wf map → bm_wf (UNSET_BIT map i).
Proof.
  intros H. apply Forall_insert; [done|]. pose proof (chunk_bound map (i / BITCHUNK_BITS) H).
  unfold MAP_CHUNK in *. set (c := chunk _ _) in *. set (x := Z.shiftl 1 _).
  assert (0 ≤ Z.ldiff c x) by (apply Z.ldiff_nonneg; lia).
  split; [done|]. apply Z_bound_bits; [lia| |done].
  intros k Hk. rewrite Z.ldiff_spec, (testbit_high c 64) by lia. done.
Qed.
Lemma bm_wf_zero n : bm_wf (bitmap_zero n).
Proof. apply Forall_replicate. lia. Qed.

Lemma bit_zero n i : bit (bitmap_zero n) i = false.
Proof.
  unfold bit, chunk, bitmap_zero.
  destruct (replicate _ _ !! _) as [c|] eqn:E; [|apply Z.bits_0].
  apply lookup_replicate in E as [-> _]. apply Z.bits_0.
Qed.

(** [ctzl] finds the least set bit. *)
Lemma ctzl_spec x : 0 < x →
  0 ≤ ctzl x ∧ Z.testbit x (ctzl x) = true ∧ (∀ i, 0 ≤ i < ctzl x → Z.testbit x i = false).
Proof.
  destruct x as [|p|p]; [lia| |lia]. intros _. simpl.
  induction p as [p IH|p IH|]; simpl.
  - split; [lia|]. split; [done|]. lia.
  - destruct IH as (H0 & H1 & H2). split; [lia|]. split.
    + rewrite (Pos2Z.inj_xO p).
      by rewrite Z.add_1_l, Z.testbit_even_succ by lia.
    + intros i Hi. rewrite (Pos2Z.inj_xO p).
      destruct (decide (i = 0)) as [->|]; [apply Z.testbit_even_0|].
      replace i with (Z.succ (i - 1)) by lia. rewrite Z.testbit_even_succ by lia. apply H2. lia.
  - split; [lia|]. split; [done|]. lia.
Qed.

Lemma ctzl_unique x r : 0 < x → 0 ≤ r → Z.testbit x r = true →
  (∀ i, 0 ≤ i < r → Z.testbit x i = false) → ctzl x = r.
Proof.
  intros Hx Hr H1 H2. destruct (ctzl_spec x Hx) as (K0 & K1 & K2).
  destruct (Z.lt_trichotomy (ctzl x) r) as [H|[H|H]]; [|done|].
  - by rewrite H2 in K1 by lia.
  - by rewrite K2 in H1 by lia.
Qed.

Lemma testbit_FIRST_MASK start i : 0 ≤ i →
  Z.testbit (BITMAP_FIRST_WORD_MASK start) i = (start mod 64 <=? i) && (i <? 64).
Proof.
  intros Hi. unfold BITMAP_FIRST_WORD_MASK, u64, BITCHUNK_BITS, ULONG_MAX.
  change (64 - 1) with (Z.ones 6). rewrite Z.land_ones by lia. change (2 ^ 6) with 64.
  rewrite <-Z.land_ones, Z.land_spec, Z.shiftl_spec by lia.
  pose proof (Z.mod_pos_bound start 64). rewrite (Z.testbit_ones_nonneg 64 i) by lia.
  destruct (Z.leb_spec (start mod 64) i) as [Hle|Hlt]; simpl.
  - rewrite Z.testbit_ones_nonneg by lia.
    destruct (Z.ltb_spec i 64); [|by rewrite andb_false_r].
    by replace (i - start mod 64 <? 64) with true by lia.
  - by rewrite Z.testbit_neg_r by lia.
Qed.

Lemma testbit_LAST_MASK nbits i : 0 ≤ i →
  Z.testbit (BITMAP_LAST_WORD_MASK nbits) i = (i <? 64 - (- nbits) mod 64).
Proof.
  intros Hi. unfold BITMAP_LAST_WORD_MASK, BITCHUNK_BITS, ULONG_MAX.
  change (64 - 1) with (Z.ones 6). rewrite Z.land_ones by lia. change (2 ^ 6) with 64.
  pose proof (Z.mod_pos_bound (- nbits) 64).
  rewrite Z.shiftr_spec, Z.testbit_ones_nonneg by lia. lia.
Qed.

Lemma testbit_GENMASK h l i : 0 ≤ l < 64 → 0 ≤ h < 64 → 0 ≤ i →
  Z.testbit (GENMASK h l) i = (l <=? i) && (i <=? h).
Proof.
  intros Hl Hh Hi. unfold GENMASK, BITCHUNK_BITS, ULONG_MAX.
  replace (Z.ones 64 - Z.shiftl 1 l + 1) with (Z.shiftl (Z.ones (64 - l)) l).
  2:{ rewrite Z.shiftl_1_l, Z.shiftl_mul_pow2, !Z.ones_equiv by lia.
      rewrite Z.mul_pred_l, <-Z.pow_add_r by lia. replace (64 - l + l) with 64 by lia. lia. }
  rewrite Z.land_spec, Z.shiftl_spec, Z.shiftr_spec, (Z.testbit_ones_nonneg 64) by lia.
  destruct (Z.leb_spec l i).
  - rewrite Z.testbit_ones_nonneg by lia. simpl. lia.
  - rewrite Z.testbit_neg_r by lia. done.
Qed.

(** * Searching *)
Definition find_pred (addr1 : list Z) (addr2 : option (list Z)) (inv : bool) (i : Z) : bool :=
  xorb (bit addr1 i && match addr2 with Some a => bit a i | None => true end) inv.
Definition invert_word (inv : bool) : Z := if inv then ULONG_MAX else 0.

Section find.
Context (addr1 : list Z) (addr2 : option (list Z)) (inv : bool).
Context (H1 : bm_wf addr1) (H2 : ∀ a, addr2 = Some a → bm_wf a).
Abbreviation P := (find_pred addr1 addr2 inv).
Abbreviation word := (find_word addr1 addr2 (invert_word inv)).

Lemma testbit_find_word q j : 0 ≤ j < 64 → Z.testbit (word q) j = P (64 * q + j).
Proof using Type.
  clear H1 H2. intros Hj. unfold find_word, find_pred, bit.
  replace ((64 * q + j) / 64) with q by dlia. replace ((64 * q + j) mod 64) with j by dlia.
  rewrite Z.lxor_spec. f_equal.
  - destruct addr2; [by rewrite Z.land_spec|by rewrite andb_true_r].
  - destruct inv; simpl; [|by rewrite Z.bits_0].
    unfold ULONG_MAX. rewrite Z.testbit_ones_nonneg by lia. lia.
Qed.

Lemma find_word_bound q : 0 ≤ word q < 2 ^ 64.
Proof using H1 H2.
  assert (∀ i, 64 ≤ i → Z.testbit (word q) i = false) as Hhi.
  { intros i Hi. unfold find_word. rewrite Z.lxor_spec.
    pose proof (chunk_bound addr1 q H1). destruct addr2 as [a|]; rewrite ?Z.land_spec,
      (testbit_high (chunk addr1 q) 64) by lia; simpl;
      destruct inv; simpl; rewrite ?Z.bits_0; try done;
      unfold ULONG_MAX; rewrite Z.testbit_ones_nonneg by lia; lia. }
  assert (0 ≤ word q) as Hp.
  { unfold find_word. pose proof (chunk_bound addr1 q H1).
    destruct addr2 as [a|]; destruct inv; simpl;
      rewrite ?Z.lxor_0_r, ?Z.land_nonneg, ?Z.lxor_nonneg, ?Z.land_nonneg; try lia.
    all: unfold ULONG_MAX; rewrite Z.ones_equiv; lia. }
  split; [done|]. by apply Z_bound_bits.
Qed.

Lemma find_next_loop_spec nbits s0 fuel q tmp :
  0 ≤ q → s0 < 64 * (q + 1) → 64 * q < nbits →
  0 ≤ tmp → (∀ i, 64 ≤ i → Z.testbit tmp i = false) →
  (∀ j, 0 ≤ j < 64 → Z.testbit tmp j = (s0 <=? 64 * q + j) && P (64 * q + j)) →
  (∀ i, s0 ≤ i < 64 * q → P i = false) →
  BITCHUNKS nbits - q ≤ Z.of_nat fuel →
  s0 < nbits →
  first_from P s0 nbits (find_next_loop fuel addr1 addr2 nbits (64 * q) (invert_word inv) tmp).
Proof using H1 H2.
  revert q tmp. induction fuel as [|fuel IH]; intros q tmp Hq Hs Hqn Ht Hhi Hbits Hpre Hf Hsn.
  { unfold BITCHUNKS, BITCHUNK_BITS in Hf. dlia. }
  simpl. destruct (Z.eqb_spec tmp 0) as [->|Hne].
  - unfold BITCHUNK_BITS.
    assert (∀ i, s0 ≤ i < 64 * (q + 1) → P i = false) as Hpre'.
    { intros i Hi. destruct (decide (i < 64 * q)); [apply Hpre; lia|].
      specialize (Hbits (i - 64 * q)). rewrite Z.bits_0 in Hbits.
      replace (64 * q + (i - 64 * q)) with i in Hbits by lia.
      replace (s0 <=? i) with true in Hbits by lia. symmetry. apply Hbits. lia. }
    destruct (Z.leb_spec nbits (64 * q + 64)).
    + split; [by left|]. intros i Hi. apply Hpre'. lia.
    + replace (64 * q + 64) with (64 * (q + 1)) by lia.
      replace (64 * (q + 1) / 64) with (q + 1) by dlia.
      pose proof (find_word_bound (q + 1)).
      apply IH; try lia; [|intros j Hj|done].
      * intros i Hi. by apply (testbit_high _ 64).
      * rewrite testbit_find_word by done.
        by replace (s0 <=? 64 * (q + 1) + j) with true by lia.
  - destruct (ctzl_spec tmp) as (K0 & K1 & K2); [lia|].
    assert (ctzl tmp < 64) as K3.
    { destruct (decide (ctzl tmp < 64)); [done|]. rewrite Hhi in K1 by lia. done. }
    rewrite Hbits in K1 by lia. apply andb_true_iff in K1 as [K1 K4].
    assert (∀ i, s0 ≤ i < 64 * q + ctzl tmp → P i = false) as Hall.
    { intros i Hi. destruct (decide (i < 64 * q)); [apply Hpre; lia|].
      specialize (K2 (i - 64 * q)). rewrite Hbits in K2 by lia.
      replace (64 * q + (i - 64 * q)) with i in K2 by lia.
      replace (s0 <=? i) with true in K2 by lia. apply K2. lia. }
    destruct (Z.min_spec (64 * q + ctzl tmp) nbits) as [[? ->]|[? ->]].
    + split; [right; split; [lia|done]|done].
    + split; [by left|]. intros i Hi. apply Hall. lia.
Qed.

(** The generic search returns the first matching index at or after [start]. *)
Lemma _find_next_bit_spec nbits start :
  0 ≤ start → start < nbits →
  first_from P start nbits (_find_next_bit addr1 addr2 nbits start (invert_word inv)).
Proof using H1 H2.
  intros H0 Hlt. unfold _find_next_bit. replace (nbits <=? start) with false by lia.
  unfold rounddown, BITCHUNK_BITS.
  replace (start - start mod 64) with (64 * (start / 64)) by dlia.
  pose proof (find_word_bound (start / 64)) as Hw.
  assert (0 ≤ BITMAP_FIRST_WORD_MASK start) as Hm by (apply u64_bound).
  apply find_next_loop_spec; try (unfold BITCHUNKS, BITCHUNK_BITS; dlia).
  - apply Z.land_nonneg. left. lia.
  - intros i Hi. rewrite Z.land_spec, (testbit_high _ 64) by lia. done.
  - intros j Hj. rewrite Z.land_spec, testbit_find_word, testbit_FIRST_MASK by lia.
    rewrite andb_comm. f_equal. dlia.
Qed.
End find.

Lemma first_from_unique P start n r1 r2 :
  first_from P start n r1 → first_from P start n r2 → r1 = r2.
Proof.
  assert (∀ a b, first_from P start n a → first_from P start n b → ¬ a < b) as H.
  { intros a b [[->|[Ha Pa]] _] [[->|[??]] Hb] Hlt; try lia; rewrite Hb in Pa by lia; done. }
  intros A B. pose proof (H r1 r2 A B). pose proof (H r2 r1 B A). lia.
Qed.

(** * Properties of the wrappers *)
Section wrappers.
Context (addr : list Z) (Hwf : bm_wf addr).

Lemma find_next_bit_small_spec size offset :
  0 < size ≤ 64 → 0 ≤ offset < size →
  first_from (bit addr) offset size (find_next_bit_small addr size offset).
Proof using Hwf.
  intros Hs Ho. unfold find_next_bit_small. replace (size <=? offset) with false by lia.
  set (v := Z.land _ _).
  assert (∀ j, 0 ≤ j < 64 → Z.testbit v j = bit addr j && (offset <=? j) && (j <? size)) as Hv.
  { intros j Hj. unfold v, bit. rewrite Z.land_spec, testbit_GENMASK by lia.
    replace (j / 64) with 0 by dlia. replace (j mod 64) with j by dlia.
    rewrite <-andb_assoc. f_equal. f_equal. lia. }
  assert (0 ≤ v) as Hv0 by (apply Z.land_nonneg; left; apply (chunk_bound addr 0 Hwf)).
  destruct (Z.eqb_spec v 0) as [E|E].
  - split; [by left|]. intros i Hi. specialize (Hv i). rewrite E, Z.bits_0 in Hv.
    replace (offset <=? i) with true in Hv by lia. replace (i <? size) with true in Hv by lia.
    rewrite !andb_true_r in Hv. symmetry. apply Hv. lia.
  - destruct (ctzl_spec v) as (K0 & K1 & K2); [lia|].
    assert (ctzl v < 64) as K3.
    { destruct (decide (ctzl v < 64)); [done|]. unfold v in K1 at 1.
      rewrite Z.land_spec, (testbit_high (chunk addr 0) 64) in K1; [done| |lia].
      apply (chunk_bound addr 0 Hwf). }
    rewrite Hv in K1 by lia. apply andb_true_iff in K1 as [[K1 K4]%andb_true_iff K5].
    split; [right; split; [lia|done]|].
    intros i Hi. specialize (K2 i). rewrite Hv in K2 by lia.
    replace (offset <=? i) with true in K2 by lia. replace (i <? size) with true in K2 by lia.
    rewrite !andb_true_r in K2. apply K2. lia.
Qed.

Lemma first_from_ext P Q start n r :
  (∀ i, P i = Q i) → first_from P start n r → first_from Q start n r.
Proof using Type.
  clear Hwf. intros E [[->|[? ?]] K]; split; rewrite <-?E; auto; intros; rewrite <-E; auto.
Qed.

Lemma find_next_bit_first size offset :
  0 < size → 0 ≤ offset < size →
  first_from (bit addr) offset size (find_next_bit addr size offset).
Proof using Hwf.
  intros Hs Ho. unfold find_next_bit, BITCHUNK_BITS.
  destruct (Z.leb_spec size 64).
  - replace (0 <? size) with true by lia. by apply find_next_bit_small_spec; lia.
  - rewrite andb_false_r. eapply first_from_ext; [|apply (_find_next_bit_spec addr None false); try done; lia].
    intros i. unfold find_pred. by rewrite andb_true_r, xorb_false_r.
Qed.
End wrappers.

Lemma find_next_and_bit_small_first addr1 addr2 size : bm_wf addr1 → bm_wf addr2 → 0 < size ≤ 64 →
  first_from (λ i, bit addr1 i && bit addr2 i) 0 size (find_next_and_bit addr1 addr2 size 0).
Proof.
  intros H1 H2 Hs. unfold find_next_and_bit, BITCHUNK_BITS. replace ((0 <? size) && (size <=? 64)) with true by lia.
  set (c := Z.land (chunk addr1 0) (chunk addr2 0)).
  change (first_from (λ i, bit addr1 i && bit addr2 i) 0 size (find_next_bit_small [c] size 0)).
  assert (0 ≤ c < 2 ^ 64) as Hc.
  { pose proof (chunk_bound addr1 0 H1). pose proof (chunk_bound addr2 0 H2). split; [apply Z.land_nonneg; lia|].
    apply Z_bound_bits; [lia| |apply Z.land_nonneg; lia]. intros j Hj. unfold c. by rewrite Z.land_spec, (testbit_high (chunk addr1 0) 64) by lia. }
  assert (∀ i, 0 ≤ i < size → bit [c] i = bit addr1 i && bit addr2 i) as Hb.
  { intros i Hi. unfold bit. replace (i / 64) with 0 by dlia. change (chunk [c] 0) with c. unfold c. by rewrite Z.land_spec. }
  destruct (find_next_bit_small_spec [c] ltac:(by repeat constructor; lia) size 0 Hs ltac:(lia)) as [Ha Hn]. split.
  - destruct Ha as [->|[Hr Hp]]; [by left|]. right. split; [done|]. by rewrite <-Hb.
  - intros i Hi. rewrite <-Hb; [by apply Hn|]. destruct Ha as [E|[Hr _]]; [rewrite E in Hi|]; lia.
Qed.

Section zero.
Context (addr : list Z) (Hwf : bm_wf addr) (Hlen : addr ≠ []).

Lemma lxor_ones_bit v j : 0 ≤ j < 64 → Z.testbit (Z.lxor ULONG_MAX v) j = negb (Z.testbit v j).
Proof using Type.
  intros Hj. rewrite Z.lxor_spec. unfold ULONG_MAX. rewrite Z.testbit_ones_nonneg by lia.
  by replace (j <? 64) with true by lia.
Qed.

Lemma find_next_zero_bit_small_spec size offset :
  0 < size ≤ 64 → 0 ≤ offset < size →
  first_from (λ i, negb (bit addr i)) offset size (find_next_zero_bit_small addr size offset).
Proof using Hwf.
  intros Hs Ho. unfold find_next_zero_bit_small. replace (size <=? offset) with false by lia.
  set (v := Z.lor _ _). pose proof (chunk_bound addr 0 Hwf) as Hc.
  assert (∀ j, 64 ≤ j → Z.testbit (Z.lxor ULONG_MAX (GENMASK (size - 1) offset)) j = false) as Hm.
  { intros j Hj. rewrite Z.lxor_spec, testbit_GENMASK by lia. unfold ULONG_MAX.
    rewrite Z.testbit_ones_nonneg by lia. replace (j <? 64) with false by lia.
    replace (j <=? size - 1) with false by lia. by rewrite andb_false_r. }
  assert (∀ j, 64 ≤ j → Z.testbit (Z.lxor ULONG_MAX v) j = false) as Hhi.
  { intros j Hj. rewrite Z.lxor_spec. unfold v. rewrite Z.lor_spec, Hm, (testbit_high (chunk addr 0) 64) by lia.
    unfold ULONG_MAX. rewrite Z.testbit_ones_nonneg by lia.
    by replace (j <? 64) with false by lia. }
  assert (∀ j, 0 ≤ j < 64 → Z.testbit (Z.lxor ULONG_MAX v) j
            = negb (bit addr j) && (offset <=? j) && (j <? size)) as Hv.
  { intros j Hj. rewrite lxor_ones_bit by lia. unfold v, bit.
    rewrite Z.lor_spec, lxor_ones_bit, testbit_GENMASK by lia.
    replace (j / 64) with 0 by dlia. replace (j mod 64) with j by dlia.
    rewrite negb_orb, negb_involutive, <-andb_assoc. f_equal. f_equal. lia. }
  clearbody v. destruct (Z.eqb_spec v ULONG_MAX) as [->|E].
  - split; [by left|]. intros i Hi. specialize (Hv i). rewrite Z.lxor_nilpotent, Z.bits_0 in Hv.
    replace (offset <=? i) with true in Hv by lia. replace (i <? size) with true in Hv by lia.
    rewrite !andb_true_r in Hv. symmetry. apply Hv. lia.
  - set (w := Z.lxor ULONG_MAX v) in *.
    assert (w ≠ 0) as Hw0 by (intros K%Z.lxor_eq; congruence).
    assert (0 ≤ w) as Hw.
    { destruct (decide (0 ≤ w)) as [|Hn]; [done|]. exfalso.
      pose proof (Z.bits_above_log2_neg w (Z.max 64 (Z.log2 (Z.pred (- w)) + 1))) as Hb.
      rewrite Hhi in Hb by lia. by discriminate Hb; lia. }
    destruct (ctzl_spec w) as (K0 & K1 & K2); [lia|].
    assert (ctzl w < 64) as K3.
    { destruct (decide (ctzl w < 64)); [done|]. by rewrite Hhi in K1 by lia. }
    rewrite Hv in K1 by lia. apply andb_true_iff in K1 as [[K1 K4]%andb_true_iff K5].
    split; [right; split; [lia|done]|].
    intros i Hi. specialize (K2 i). rewrite Hv in K2 by lia.
    replace (offset <=? i) with true in K2 by lia. replace (i <? size) with true in K2 by lia.
    rewrite !andb_true_r in K2. apply K2. lia.
Qed.

Lemma find_next_zero_bit_first size offset :
  0 < size → 0 ≤ offset < size →
  first_from (λ i, negb (bit addr i)) offset size (find_next_zero_bit addr size offset).
Proof using Hwf.
  intros Hs Ho. unfold find_next_zero_bit, BITCHUNK_BITS.
  destruct (Z.leb_spec size 64).
  - replace (0 <? size) with true by lia. by apply find_next_zero_bit_small_spec; lia.
  - rewrite andb_false_r. eapply first_from_ext; [|apply (_find_next_bit_spec addr None true); try done; lia].
    intros i. unfold find_pred. by rewrite andb_true_r, xorb_true_r.
Qed.
End zero.

(** [bitmap_equal], [__bitmap_and] and [__bitmap_or] work on the first [bits] bits. *)
Lemma testbit_last_mask_lim bits j : 0 ≤ bits → bits mod 64 ≠ 0 → 0 ≤ j →
  Z.testbit (BITMAP_LAST_WORD_MASK bits) j = (64 * (bits / 64) + j <? bits).
Proof.
  intros Hb Hm Hj. rewrite testbit_LAST_MASK by done.
  rewrite Z.mod_opp_l_nz by done. dlia.
Qed.

Lemma bit_chunk map q j : 0 ≤ j < 64 → bit map (64 * q + j) = Z.testbit (chunk map q) j.
Proof.
  intros Hj. unfold bit. replace ((64 * q + j) / 64) with q by dlia.
  by replace ((64 * q + j) mod 64) with j by dlia.
Qed.

Lemma chunk_eq_bits a b q : bm_wf a → bm_wf b →
  chunk a q = chunk b q ↔ (∀ j, 0 ≤ j < 64 → bit a (64 * q + j) = bit b (64 * q + j)).
Proof.
  intros Ha Hb. split.
  - intros E j Hj. by rewrite !bit_chunk, E.
  - intros E. apply Z.bits_inj'. intros j Hj. destruct (decide (j < 64)).
    + rewrite <-!bit_chunk by lia. apply E. lia.
    + pose proof (chunk_bound a q Ha). pose proof (chunk_bound b q Hb).
      by rewrite !(testbit_high _ 64) by lia.
Qed.

Lemma land_mask_zero x bits : 0 ≤ x → (∀ j, 64 ≤ j → Z.testbit x j = false) →
  0 ≤ bits → bits mod 64 ≠ 0 →
  Z.land x (BITMAP_LAST_WORD_MASK bits) = 0 ↔
  (∀ j, 0 ≤ j < 64 → 64 * (bits / 64) + j < bits → Z.testbit x j = false).
Proof.
  intros Hx Hhi Hb Hm. split.
  - intros E j Hj Hlt. assert (Z.testbit (Z.land x (BITMAP_LAST_WORD_MASK bits)) j = false) as H.
    { by rewrite E, Z.bits_0. }
    rewrite Z.land_spec, testbit_last_mask_lim in H by lia.
    replace (_ <? bits) with true in H by lia. by rewrite andb_true_r in H.
  - intros H. apply Z.bits_inj'. intros j Hj. rewrite Z.land_spec, Z.bits_0.
    rewrite testbit_last_mask_lim by lia.
    destruct (Z.ltb_spec (64 * (bits / 64) + j) bits); [|by rewrite andb_false_r].
    rewrite andb_true_r. destruct (decide (j < 64)); [apply H; lia|apply Hhi; lia].
Qed.

Lemma forallb_seqZ f n : forallb f (seqZ 0 n) = true ↔ (∀ k, 0 ≤ k < n → f k = true).
Proof.
  rewrite forallb_forall. split; intros H k Hk.
  - apply H, list_elem_of_In, elem_of_seqZ. lia.
  - apply H. apply list_elem_of_In, elem_of_seqZ in Hk. lia.
Qed.

Lemma bitmap_equal_bits a b bits : bm_wf a → bm_wf b → 0 ≤ bits →
  bitmap_equal a b bits = true ↔ (∀ i, 0 ≤ i < bits → bit a i = bit b i).
Proof.
  intros Ha Hb H0. unfold bitmap_equal, BITCHUNK_BITS. rewrite andb_true_iff, forallb_seqZ.
  assert ((∀ k, 0 ≤ k < bits / 64 → (chunk a k =? chunk b k) = true) ↔
          (∀ i, 0 ≤ i < 64 * (bits / 64) → bit a i = bit b i)) as ->.
  { split; intros H i Hi.
    - pose proof (Z.div_mod i 64). specialize (H (i / 64)). rewrite Z.eqb_eq in H.
      rewrite (Z.div_mod i 64) by lia. apply chunk_eq_bits; [done..|apply H; dlia|dlia].
    - apply Z.eqb_eq, chunk_eq_bits; [done..|]. intros j Hj. apply H. lia. }
  pose proof (chunk_bound a (bits / 64) Ha). pose proof (chunk_bound b (bits / 64) Hb).
  destruct (Z.eqb_spec (bits mod 64) 0) as [E|E].
  - replace (64 * (bits / 64)) with bits by dlia. split; [by intros [? _]|by intros ?].
  - rewrite Z.eqb_eq, land_mask_zero; [|by apply Z.lxor_nonneg; lia| |done|done].
    2:{ intros j Hj. by rewrite Z.lxor_spec, !(testbit_high _ 64) by lia. }
    split.
    + intros [Hlo Hhi] i Hi. destruct (decide (i < 64 * (bits / 64))); [apply Hlo; lia|].
      specialize (Hhi (i - 64 * (bits / 64))). rewrite Z.lxor_spec, <-!bit_chunk in Hhi by dlia.
      replace (64 * (bits / 64) + (i - 64 * (bits / 64))) with i in Hhi by lia.
      apply xorb_eq. apply Hhi; dlia.
    + intros K. split; [intros i Hi; apply K; dlia|]. intros j Hj Hlt.
      rewrite Z.lxor_spec, <-!bit_chunk, K by dlia. apply xorb_nilpotent.
Qed.

Lemma lookup_fmap_seqZ {A} (f : Z → A) n k : 0 ≤ k →
  (f <$> seqZ 0 n) !! Z.to_nat k = if decide (k < n) then Some (f k) else None.
Proof.
  intros Hk. rewrite list_lookup_fmap. case_decide.
  - rewrite lookup_seqZ_lt by lia. simpl. do 2 f_equal. lia.
  - by rewrite lookup_seqZ_ge by lia.
Qed.

Lemma bitmap_and_bits a b bits : 0 ≤ bits →
  ∀ i, 0 ≤ i < bits → bit (bitmap_and a b bits).1 i = bit a i && bit b i.
Proof.
  intros H0 i Hi. unfold bitmap_and, BITCHUNK_BITS. simpl. unfold bit at 1, chunk.
  destruct (decide (i / 64 < bits / 64)) as [Hlt|Hge].
  - rewrite lookup_app_l, lookup_fmap_seqZ by (rewrite ?length_fmap, ?length_seqZ; dlia).
    rewrite decide_True by done. simpl. unfold bit. by rewrite Z.land_spec.
  - assert (i / 64 = bits / 64) as E by dlia.
    rewrite lookup_app_r by (rewrite length_fmap, length_seqZ; dlia).
    rewrite length_fmap, length_seqZ. replace (_ - _)%nat with O by dlia.
    destruct (Z.eqb_spec (bits mod 64) 0); [dlia|]. simpl.
    rewrite !Z.land_spec, testbit_last_mask_lim by dlia.
    replace (_ <? bits) with true by dlia. unfold bit. by rewrite E, andb_true_r.
Qed.

Lemma foldl_lor_0 l x : foldl Z.lor x l = 0 ↔ x = 0 ∧ Forall (λ c, c = 0) l.
Proof.
  revert x. induction l as [|c l IH]; intros x; simpl; [by intuition|].
  rewrite IH, Z.lor_eq_0_iff, Forall_cons. tauto.
Qed.

Lemma bitmap_and_nonzero a b bits : bm_wf a → bm_wf b → 0 ≤ bits →
  (bitmap_and a b bits).2 = false ↔ (∀ i, 0 ≤ i < bits → bit a i && bit b i = false).
Proof.
  intros Ha Hb H0. transitivity (∀ q, 0 ≤ q → chunk (bitmap_and a b bits).1 q = 0).
  { change (bitmap_and a b bits).2 with (negb (foldl Z.lor 0 (bitmap_and a b bits).1 =? 0)).
    generalize (bitmap_and a b bits).1 as dst. intros dst. rewrite negb_false_iff, Z.eqb_eq, foldl_lor_0.
    split.
    - intros [_ H] q Hq. unfold chunk. destruct (_ !! _) as [c|] eqn:E; [|done].
      by apply (Forall_lookup_1 _ _ _ _ H E).
    - intros H. split; [done|]. apply Forall_lookup. intros i c E.
      specialize (H (Z.of_nat i)). unfold chunk in H. rewrite Nat2Z.id, E in H. apply H. lia. }
  split.
  - intros H i Hi. rewrite <-(bitmap_and_bits a b bits) by done. unfold bit.
    rewrite H by dlia. apply Z.bits_0.
  - intros H q Hq. apply Z.bits_inj'. intros j Hj. rewrite Z.bits_0.
    unfold chunk. destruct (_ !! _) as [c|] eqn:E; [|apply Z.bits_0]. simpl.
    unfold bitmap_and, BITCHUNK_BITS in E. simpl in E.
    pose proof (λ k, chunk_bound a k Ha) as Ba.
    apply lookup_app_Some in E as [E|[_ E]].
    + rewrite lookup_fmap_seqZ in E by done. case_decide as Hlt; [|done]. injection E as <-.
      rewrite Z.land_spec. destruct (decide (j < 64)).
      * rewrite <-!bit_chunk by lia. apply H. dlia.
      * rewrite (testbit_high (chunk a q) 64); [done|apply Ba|lia].
    + destruct (Z.eqb_spec (bits mod 64) 0); [done|].
      apply list_lookup_singleton_Some in E as [_ <-].
      rewrite !Z.land_spec, testbit_last_mask_lim by done.
      destruct (Z.ltb_spec (64 * (bits / 64) + j) bits); [|by rewrite andb_false_r].
      rewrite andb_true_r, <-!bit_chunk by dlia. apply H. dlia.
Qed.

Lemma bitmap_or_bits a b bits : 0 ≤ bits →
  ∀ i, 0 ≤ i < bits → bit (bitmap_or a b bits) i = bit a i || bit b i.
Proof.
  intros H0 i Hi. unfold bitmap_or, BITCHUNKS, BITCHUNK_BITS. unfold bit at 1, chunk.
  rewrite lookup_fmap_seqZ by dlia. rewrite decide_True by dlia. simpl.
  unfold bit. by rewrite Z.lor_spec.
Qed.

#[export] Hint Resolve bm_wf_SET bm_wf_zero : soda.

(** * Properties *)

(** The generic search loop is correct: on well-formed chunks it returns the
    first index in [start, nbits) whose bit, after the optional conjunction
    with a second map and the optional inversion, is set, and [nbits] when
    there is none. *)
Theorem find_next_bit_correct addr1 addr2 inv nbits start :
  bm_wf addr1 → (∀ a, addr2 = Some a → bm_wf a) → 0 ≤ start < nbits →
  first_from (find_pred addr1 addr2 inv) start nbits
    (_find_next_bit addr1 addr2 nbits start (invert_word inv)).
Proof. intros ?? []. by apply _find_next_bit_spec. Qed.

Lemma find_next_bit_correct_witness :
  first_from (find_pred [5; 2 ^ 63] (Some [4; 2 ^ 63]) false) 3 128
    (_find_next_bit [5; 2 ^ 63] (Some [4; 2 ^ 63]) 128 3 0) ∧
  _find_next_bit [5; 2 ^ 63] (Some [4; 2 ^ 63]) 128 3 0 = 127.
Proof.
  split; [|reflexivity]. apply (find_next_bit_correct _ _ false); [|intros a [= <-]|lia];
    repeat constructor; lia.
Defined.

(** C40: The branch the inline wrappers take for a constant size of at most 64 bits
    and the generic loop compute the same index, for set and for clear bits. *)
Theorem find_next_paths_agree addr size offset :
  bm_wf addr → 0 < size ≤ 64 → 0 ≤ offset →
  find_next_bit_small addr size offset = _find_next_bit addr None size offset 0 ∧
  find_next_zero_bit_small addr size offset = _find_next_bit addr None size offset ULONG_MAX.
Proof.
  intros Hwf Hs Ho. destruct (Z.leb_spec size offset) as [H|H].
  { unfold find_next_bit_small, find_next_zero_bit_small, _find_next_bit.
    by replace (size <=? offset) with true by lia. }
  split.
  - eapply first_from_unique; [by apply find_next_bit_small_spec; [|lia..]|].
    eapply first_from_ext; [|by apply (_find_next_bit_spec addr None false)].
    intros i. unfold find_pred. by rewrite andb_true_r, xorb_false_r.
  - eapply first_from_unique; [by apply find_next_zero_bit_small_spec; [|lia..]|].
    eapply first_from_ext; [|by apply (_find_next_bit_spec addr None true)].
    intros i. unfold find_pred. by rewrite andb_true_r, xorb_true_r.
Qed.

Lemma find_next_paths_agree_witness :
  find_next_zero_bit_small [7] 32 0 = _find_next_bit [7] None 32 0 ULONG_MAX.
Proof. apply find_next_paths_agree; [repeat constructor; lia|lia|lia]. Defined.

(** [bitmap_equal], [__bitmap_and] and [__bitmap_or] compute equality,
    intersection and union of the first [bits] bits; [__bitmap_and] also
    reports whether the intersection is non-empty. *)
Theorem bitmap_ops_correct a b bits :
  bm_wf a → bm_wf b → 0 ≤ bits →
  (bitmap_equal a b bits = true ↔ ∀ i, 0 ≤ i < bits → bit a i = bit b i) ∧
  (∀ i, 0 ≤ i < bits → bit (bitmap_and a b bits).1 i = bit a i && bit b i) ∧
  ((bitmap_and a b bits).2 = false ↔ ∀ i, 0 ≤ i < bits → bit a i && bit b i = false) ∧
  (∀ i, 0 ≤ i < bits → bit (bitmap_or a b bits) i = bit a i || bit b i).
Proof.
  intros. split_and!; [by apply bitmap_equal_bits|by apply bitmap_and_bits|
    by apply bitmap_and_nonzero|by apply bitmap_or_bits].
Qed.

Lemma bitmap_ops_correct_witness :
  bitmap_equal [2 ^ 63; 5] [2 ^ 63; 13] 67 = true ∧ bitmap_equal [2 ^ 63; 5] [2 ^ 63; 13] 68 = false ∧
  (∀ i, 0 ≤ i < 67 → bit (bitmap_or [2 ^ 63; 5] [1; 13] 67) i = bit [2 ^ 63; 5] i || bit [1; 13] i).
Proof.
  split; [reflexivity|]. split; [reflexivity|].
  apply bitmap_ops_correct; [repeat constructor; lia|repeat constructor; lia|lia].
Defined.
