(* ===== verification/Avl.v ===== *)
(** Intrusive AVL trees: include/avl.h.

    A node is the object that embeds it ([avl_entry]), so the trees carry
    elements [A] and compare them through [key], the comparison keys read from
    the objects at the time of the call.  The recursive C functions return the
    new subroot and are translated as they stand; [Leaf] is NULL. *)
From S2P Require Import Prelude.

(** * Key comparison: the [kn_comp] / [nn_comp] callbacks *)
Class OrdKey (K : Type) := kcmp : K → K → Z.
Class OrdKeyOk (K : Type) `{OrdKey K} := {
  kcmp_range : ∀ a b : K, kcmp a b = -1 ∨ kcmp a b = 0 ∨ kcmp a b = 1;
  kcmp_eq : ∀ a b : K, kcmp a b = 0 ↔ a = b;
  kcmp_anti : ∀ a b : K, kcmp a b = -1 ↔ kcmp b a = 1;
  kcmp_trans : ∀ a b c : K, kcmp a b = -1 → kcmp b c = -1 → kcmp a c = -1;
}.

(** * Trees *)
Inductive tree (A : Type) :=
  | Leaf
  | Node (left : tree A) (x : A) (height : Z) (right : tree A).
Arguments Leaf {A}.
Arguments Node {A} _ _ _ _.

Section ops.
Context {A K : Type} (key : A → K) `{OrdKey K}.

Definition avl_tree_height (t : tree A) : Z :=
  match t with Leaf => 0 | Node _ _ h _ => h end.
(** [avl_set_height] on a subroot with these children. *)
Definition avl_set_height (l : tree A) (x : A) (r : tree A) : tree A :=
  let left_height := avl_tree_height l in
  let right_height := avl_tree_height r in
  Node l x ((if right_height <? left_height then left_height else right_height) + 1) r.
Definition avl_balance_factor (t : tree A) : Z :=
  match t with
  | Leaf => 0
  | Node l _ _ r => avl_tree_height r - avl_tree_height l
  end.

(** The rotations dereference the child they lift; the missing-child case is
    unreachable ([avl_fixup] only rotates towards the lower side, see
    [fixup_right]/[fixup_left] below). *)
Definition avl_left_rotate (t : tree A) : tree A :=
  match t with
  | Node a x _ (Node b y _ c) => avl_set_height (avl_set_height a x b) y c
  | _ => t
  end.
Definition avl_right_rotate (t : tree A) : tree A :=
  match t with
  | Node (Node a y _ b) x _ c => avl_set_height a y (avl_set_height b x c)
  | _ => t
  end.
Definition avl_left_right_rotate (t : tree A) : tree A :=
  match t with
  | Node l x h r => avl_right_rotate (Node (avl_left_rotate l) x h r)
  | Leaf => t
  end.
Definition avl_right_left_rotate (t : tree A) : tree A :=
  match t with
  | Node l x h r => avl_left_rotate (Node l x h (avl_right_rotate r))
  | Leaf => t
  end.

Definition avl_fixup (bf : Z) (subroot : tree A) : tree A :=
  match subroot with
  | Leaf => subroot
  | Node l _ _ r =>
      if bf =? 2 then
        match r with
        | Node rl _ _ rr =>
            if avl_tree_height rl <=? avl_tree_height rr
            then avl_left_rotate subroot else avl_right_left_rotate subroot
        | Leaf => subroot
        end
      else if bf =? -2 then
        match l with
        | Node ll _ _ lr =>
            if avl_tree_height lr <=? avl_tree_height ll
            then avl_right_rotate subroot else avl_left_right_rotate subroot
        | Leaf => subroot
        end
      else subroot
  end.

(** [avl_set_height(subroot); bf = ...; if (bf == 2 || bf == -2) avl_fixup] *)
Definition avl_rebalance (l : tree A) (x : A) (r : tree A) : tree A :=
  let subroot := avl_set_height l x r in
  let bf := avl_balance_factor subroot in
  if (bf =? 2) || (bf =? -2) then avl_fixup bf subroot else subroot.

Fixpoint avl_insert (node : A) (subroot : tree A) : tree A :=
  match subroot with
  | Leaf => Node Leaf node 1 Leaf
  | Node l x _ r =>
      if kcmp (key node) (key x) =? -1
      then avl_rebalance (avl_insert node l) x r
      else avl_rebalance l x (avl_insert node r)
  end.

(** Returns the remaining tree and the detached minimum. *)
Fixpoint avl_erase_min (subroot : tree A) : tree A * option A :=
  match subroot with
  | Leaf => (Leaf, None)
  | Node l x _ r =>
      match l with
      | Node _ _ _ _ =>
          let '(l', it) := avl_erase_min l in (avl_set_height l' x r, it)
      | Leaf =>
          (match r with Node rl rx _ rr => avl_set_height rl rx rr | Leaf => Leaf end, Some x)
      end
  end.

(** The common tail of [avl_erase_recur]. *)
Definition avl_erase_tail (subroot : tree A) : tree A :=
  match subroot with Leaf => Leaf | Node l x _ r => avl_rebalance l x r end.

Fixpoint avl_erase (node : A) (subroot : tree A) : tree A :=
  match subroot with
  | Leaf => Leaf
  | Node l x h r =>
      let comp := kcmp (key node) (key x) in
      if comp =? -1 then avl_erase_tail (Node (avl_erase node l) x h r)
      else if comp =? 1 then avl_erase_tail (Node l x h (avl_erase node r))
      else
        match l, r with
        | Leaf, _ => avl_erase_tail r
        | _, Leaf => avl_erase_tail l
        | _, _ =>
            match avl_erase_min r with
            | (r', Some tmp) => avl_erase_tail (Node l tmp h r')
            | (r', None) => avl_erase_tail (Node l x h r')
            end
        end
  end.

(** The search loop every user of the tree writes
    ([xpc_find], [cache_find], [idr_find]). *)
Fixpoint avl_find (k : K) (t : tree A) : option A :=
  match t with
  | Leaf => None
  | Node l x _ r =>
      let cmp := kcmp k (key x) in
      if cmp =? 0 then Some x else if cmp <? 0 then avl_find k l else avl_find k r
  end.

(** ** Iterators *)
Definition AVL_MAX_DEPTH : nat := 32.
Definition AVL_LESS : Z := 1.
Definition AVL_EQUAL : Z := 2.
Definition AVL_GREATER : Z := 4.
Definition AVL_GREATER_EQUAL : Z := Z.lor AVL_GREATER AVL_EQUAL.

(** [it_depth = None] is the C depth ~0.  [it_path] has [AVL_MAX_DEPTH] slots. *)
Record avl_iter := AvlIter {
  it_root : tree A;
  it_depth : option nat;
  it_branch : Z;
  it_path : list (tree A);
}.

Definition set_it_depth (d : option nat) (it : avl_iter) : avl_iter :=
  AvlIter (it_root it) d (it_branch it) (it_path it).
(** [iter->branch (|= or &= ~) (1 << depth); iter->path[depth] = cur] *)
Definition it_push (right : bool) (depth : nat) (cur : tree A) (it : avl_iter) : avl_iter :=
  AvlIter (it_root it) (it_depth it)
    (if right then Z.setbit (it_branch it) (Z.of_nat depth)
     else Z.clearbit (it_branch it) (Z.of_nat depth))
    (<[depth := cur]> (it_path it)).

Fixpoint avl_start_loop (k : K) (eq : bool) (target : Z) (cur : tree A)
    (depth : nat) (it : avl_iter) : avl_iter :=
  match cur with
  | Leaf => it
  | Node l x _ r =>
      let cmp := kcmp k (key x) in
      if (cmp =? 0) && eq then set_it_depth (Some depth) it
      else
        let cmp := if cmp =? 0 then - target else cmp in
        let it := if negb (target =? 0) && (target =? cmp)
                  then set_it_depth (Some depth) it else it in
        if cmp <? 0 then
          match l with
          | Leaf => it
          | _ => avl_start_loop k eq target l (S depth) (it_push false depth l it)
          end
        else
          match r with
          | Leaf => it
          | _ => avl_start_loop k eq target r (S depth) (it_push true depth r it)
          end
  end.

Definition avl_start_iter (root : tree A) (k : K) (flags : Z) : avl_iter :=
  let target := if negb (Z.land flags AVL_LESS =? 0) then 1
                else if negb (Z.land flags AVL_GREATER =? 0) then -1 else 0 in
  avl_start_loop k (negb (Z.land flags AVL_EQUAL =? 0)) target root 0
    (AvlIter root None 0 (replicate AVL_MAX_DEPTH Leaf)).

(** The node at a depth of the current path. *)
Definition it_node_at (it : avl_iter) (depth : nat) : tree A :=
  match depth with O => it_root it | S d => default Leaf (it_path it !! d) end.

Definition avl_get_iter (it : avl_iter) : option A :=
  match it_depth it with
  | None => None
  | Some d => match it_node_at it d with Node _ x _ _ => Some x | Leaf => None end
  end.

(** [do { if (depth == 0) { depth = ~0; break; } depth--; } while (branch & (1 << depth));] *)
Fixpoint avl_climb (branch : Z) (depth : nat) : option nat :=
  match depth with
  | O => None
  | S d => if Z.testbit branch (Z.of_nat d) then avl_climb branch d else Some d
  end.
(** [while (1) { cur = cur->left; if (!cur) break; ... path[depth++] = cur; }] *)
Fixpoint avl_descend (cur : tree A) (depth : nat) (it : avl_iter) : avl_iter :=
  match cur with
  | Node (Node _ _ _ _ as l) _ _ _ => avl_descend l (S depth) (it_push false depth l it)
  | _ => set_it_depth (Some depth) it
  end.

Definition avl_inc_iter (it : avl_iter) : avl_iter :=
  match it_depth it with
  | None => it
  | Some d =>
      match it_node_at it d with
      | Node _ _ _ (Node _ _ _ _ as r) => avl_descend r (S d) (it_push true d r it)
      | _ => set_it_depth (avl_climb (it_branch it) d) it
      end
  end.

(** The mirror image: predecessor. *)
Fixpoint avl_climb_dec (branch : Z) (depth : nat) : option nat :=
  match depth with
  | O => None
  | S d => if Z.testbit branch (Z.of_nat d) then Some d else avl_climb_dec branch d
  end.
Fixpoint avl_descend_dec (cur : tree A) (depth : nat) (it : avl_iter) : avl_iter :=
  match cur with
  | Node _ _ _ (Node _ _ _ _ as r) => avl_descend_dec r (S depth) (it_push true depth r it)
  | _ => set_it_depth (Some depth) it
  end.
Definition avl_dec_iter (it : avl_iter) : avl_iter :=
  match it_depth it with
  | None => it
  | Some d =>
      match it_node_at it d with
      | Node (Node _ _ _ _ as l) _ _ _ => avl_descend_dec l (S d) (it_push false d l it)
      | _ => set_it_depth (avl_climb_dec (it_branch it) d) it
      end
  end.
End ops.
Arguments avl_iter : clear implicits.

(** * Specification vocabulary *)
Fixpoint inorder {A} (t : tree A) : list A :=
  match t with Leaf => [] | Node l x _ r => inorder l ++ x :: inorder r end.
(** True height, as opposed to the stored one. *)
Fixpoint height {A} (t : tree A) : Z :=
  match t with Leaf => 0 | Node l _ _ r => Z.max (height l) (height r) + 1 end.
(** Every stored height is the true one. *)
Fixpoint heights_ok {A} (t : tree A) : Prop :=
  match t with
  | Leaf => True
  | Node l _ h r => h = Z.max (height l) (height r) + 1 ∧ heights_ok l ∧ heights_ok r
  end.
Fixpoint balanced {A} (t : tree A) : Prop :=
  match t with
  | Leaf => True
  | Node l _ _ r => Z.abs (height r - height l) ≤ 1 ∧ balanced l ∧ balanced r
  end.

Section key_order.
Context {K : Type} `{OrdKeyOk K}.

Definition klt (a b : K) : Prop := kcmp a b = -1.

Lemma kcmp_refl a : kcmp a a = 0.
Proof using All. by apply kcmp_eq. Qed.
Lemma klt_irrefl a : ¬ klt a a.
Proof using All. unfold klt. by rewrite kcmp_refl. Qed.
Lemma klt_trans a b c : klt a b → klt b c → klt a c.
Proof using All. apply kcmp_trans. Qed.
Lemma kcmp_gt a b : kcmp a b = 1 ↔ klt b a.
Proof using All. symmetry. apply kcmp_anti. Qed.
Lemma kcmp_cases a b :
  (kcmp a b = -1 ∧ klt a b) ∨ (kcmp a b = 0 ∧ a = b) ∨ (kcmp a b = 1 ∧ klt b a).
Proof using All.
  destruct (kcmp_range a b) as [E|[E|E]]; [by left|right; left|right; right]; split; try done.
  - by apply kcmp_eq.
  - by apply kcmp_gt.
Qed.

End key_order.

Section ordered.
Context {A K : Type} `{OrdKeyOk K} (key : A → K).
Implicit Types (t l r : tree A) (x y : A).

(** Strictly increasing keys: the search-tree invariant, and no duplicates. *)
Definition keys_sorted (xs : list A) : Prop := StronglySorted (λ x y, klt (key x) (key y)) xs.

(** Sorted insertion and removal on the in-order list. *)
Fixpoint linsert x (xs : list A) : list A :=
  match xs with
  | [] => [x]
  | y :: ys => if kcmp (key x) (key y) =? -1 then x :: xs else y :: linsert x ys
  end.
Definition lerase x (xs : list A) : list A := filter (λ y, kcmp (key x) (key y) ≠ 0) xs.

Lemma keys_sorted_app xs x ys :
  keys_sorted (xs ++ x :: ys) ↔
  keys_sorted xs ∧ keys_sorted ys ∧
  Forall (λ y, klt (key y) (key x)) xs ∧ Forall (λ y, klt (key x) (key y)) ys.
Proof using All.
  unfold keys_sorted. induction xs as [|z xs IH]; simpl.
  - split; [intros [??]%StronglySorted_inv; split_and!; try done; constructor|].
    intros (_ & ? & _ & ?). by constructor.
  - split.
    + intros [Hs Hf]%StronglySorted_inv. apply IH in Hs as (? & ? & ? & ?).
      apply Forall_app in Hf as [Hf1 Hf2]. apply Forall_cons in Hf2 as [? ?].
      split_and!; [by constructor|done|by constructor|done].
    + intros (Hs & ? & Hf & Hg). apply StronglySorted_inv in Hs as [??].
      apply Forall_cons in Hf as [Hzx ?]. constructor; [by apply IH|].
      apply Forall_app; split; [done|]. constructor; [done|].
      eapply Forall_impl; [exact Hg|]. intros y Hy. by eapply klt_trans.
Qed.

Lemma inorder_sorted_node l x h r :
  keys_sorted (inorder (Node l x h r)) ↔
  keys_sorted (inorder l) ∧ keys_sorted (inorder r) ∧
  Forall (λ y, klt (key y) (key x)) (inorder l) ∧ Forall (λ y, klt (key x) (key y)) (inorder r).
Proof using All. apply keys_sorted_app. Qed.

(** ** Rotations keep the in-order list *)
Lemma inorder_set_height l x r : inorder (avl_set_height l x r) = inorder l ++ x :: inorder r.
Proof using Type. done. Qed.
Lemma inorder_left_rotate t : inorder (avl_left_rotate t) = inorder t.
Proof using Type. destruct t as [|a x h [|b y h' c]]; simpl; by rewrite <-?app_assoc. Qed.
Lemma inorder_right_rotate t : inorder (avl_right_rotate t) = inorder t.
Proof using Type. destruct t as [|[|a y h' b] x h c]; simpl; by rewrite <-?app_assoc. Qed.
Lemma inorder_left_right_rotate t : inorder (avl_left_right_rotate t) = inorder t.
Proof using Type.
  destruct t as [|l x h r]; [done|]. unfold avl_left_right_rotate.
  rewrite inorder_right_rotate. simpl. by rewrite inorder_left_rotate.
Qed.
Lemma inorder_right_left_rotate t : inorder (avl_right_left_rotate t) = inorder t.
Proof using Type.
  destruct t as [|l x h r]; [done|]. unfold avl_right_left_rotate.
  rewrite inorder_left_rotate. simpl. by rewrite inorder_right_rotate.
Qed.
Lemma inorder_fixup bf t : inorder (avl_fixup bf t) = inorder t.
Proof using Type.
  unfold avl_fixup. destruct t as [|l x h r]; [done|].
  repeat case_match; rewrite ?inorder_left_rotate, ?inorder_right_rotate,
    ?inorder_left_right_rotate, ?inorder_right_left_rotate; done.
Qed.
Lemma inorder_rebalance l x r : inorder (avl_rebalance l x r) = inorder l ++ x :: inorder r.
Proof using Type. unfold avl_rebalance. case_match; by rewrite ?inorder_fixup. Qed.

Lemma linsert_app_l x xs y ys :
  klt (key x) (key y) → linsert x (xs ++ y :: ys) = linsert x xs ++ y :: ys.
Proof using Type.
  intros Hlt. induction xs as [|z xs IH]; simpl.
  - unfold klt in Hlt. by rewrite Hlt.
  - destruct (_ =? _); [done|]. by rewrite IH.
Qed.
Lemma linsert_app_r x xs y ys :
  ¬ klt (key x) (key y) → Forall (λ z, klt (key z) (key y)) xs →
  linsert x (xs ++ y :: ys) = xs ++ y :: linsert x ys.
Proof using All.
  intros Hlt Hf. induction xs as [|z xs IH]; simpl.
  - destruct (Z.eqb_spec (kcmp (key x) (key y)) (-1)); done.
  - apply Forall_cons in Hf as [Hz Hf].
    destruct (Z.eqb_spec (kcmp (key x) (key z)) (-1)) as [E|E]; [|by rewrite IH].
    destruct Hlt. by eapply klt_trans.
Qed.

Lemma inorder_insert x t :
  keys_sorted (inorder t) → inorder (avl_insert key x t) = linsert x (inorder t).
Proof using All.
  induction t as [|l IHl y h r IHr]; [done|].
  rewrite inorder_sorted_node. intros (Hl & Hr & Hfl & Hfr). simpl.
  destruct (Z.eqb_spec (kcmp (key x) (key y)) (-1)); rewrite inorder_rebalance.
  - by rewrite IHl, linsert_app_l.
  - by rewrite IHr, linsert_app_r.
Qed.

(** ** Erasure *)
Lemma inorder_erase_min t :
  inorder t = match (avl_erase_min t).2 with
              | Some x => x :: inorder (avl_erase_min t).1
              | None => [] end.
Proof using Type.
  induction t as [|l IHl y h r IHr]; [done|]. simpl.
  destruct l as [|ll lx lh lr].
  - destruct r; done.
  - destruct (avl_erase_min (Node ll lx lh lr)) as [l' [m|]] eqn:E; simpl in *.
    + by rewrite IHl.
    + by destruct (inorder ll).
Qed.

Lemma inorder_erase_tail t : inorder (avl_erase_tail t) = inorder t.
Proof using Type. destruct t; [done|]. apply inorder_rebalance. Qed.

Lemma lerase_app x xs ys : lerase x (xs ++ ys) = lerase x xs ++ lerase x ys.
Proof using Type. apply filter_app. Qed.
Lemma lerase_id x xs : Forall (λ y, kcmp (key x) (key y) ≠ 0) xs → lerase x xs = xs.
Proof using Type.
  induction 1; [done|]. unfold lerase. rewrite filter_cons_True by done. by f_equal.
Qed.
Lemma lerase_lt x y xs : (klt (key x) (key y) ∨ key x = key y) →
  Forall (λ z, klt (key y) (key z)) xs → lerase x xs = xs.
Proof using All.
  intros Hxy Hf. apply lerase_id. eapply Forall_impl; [exact Hf|]. simpl. intros z Hz Hc.
  apply kcmp_eq in Hc. rewrite Hc in Hxy.
  destruct Hxy as [Hxy|Hxy]; [|rewrite Hxy in Hz; by eapply klt_irrefl].
  by eapply klt_irrefl, klt_trans.
Qed.
Lemma lerase_gt x y xs : (klt (key y) (key x) ∨ key x = key y) →
  Forall (λ z, klt (key z) (key y)) xs → lerase x xs = xs.
Proof using All.
  intros Hxy Hf. apply lerase_id. eapply Forall_impl; [exact Hf|]. simpl. intros z Hz Hc.
  apply kcmp_eq in Hc. rewrite Hc in Hxy.
  destruct Hxy as [Hxy|Hxy]; [|rewrite Hxy in Hz; by eapply klt_irrefl].
  by eapply klt_irrefl, klt_trans.
Qed.

Lemma inorder_erase x t :
  keys_sorted (inorder t) → inorder (avl_erase key x t) = lerase x (inorder t).
Proof using All.
  induction t as [|l IHl y h r IHr]; [done|].
  rewrite inorder_sorted_node. intros (Hl & Hr & Hfl & Hfr).
  cbn [avl_erase inorder]. rewrite lerase_app. unfold lerase at 2. rewrite filter_cons. fold (lerase x (inorder r)).
  destruct (kcmp_cases (key x) (key y)) as [[E Hlt]|[[E Heq]|[E Hgt]]]; rewrite E; cbn [Z.eqb Pos.eqb].
  - rewrite inorder_erase_tail, decide_True by done. cbn [inorder].
    by rewrite IHl, (lerase_lt x y (inorder r)) by auto.
  - rewrite decide_False by naive_solver.
    rewrite (lerase_lt x y (inorder r)), (lerase_gt x y (inorder l)) by auto.
    destruct l as [|ll lx lh lr]; [by rewrite inorder_erase_tail|].
    destruct r as [|rl rx rh rr]; [by rewrite inorder_erase_tail, app_nil_r|].
    pose proof (inorder_erase_min (Node rl rx rh rr)) as Hm.
    destruct (avl_erase_min (Node rl rx rh rr)) as [r' [m|]]; simpl in Hm.
    + rewrite inorder_erase_tail. cbn [inorder]. by rewrite Hm.
    + by destruct (inorder rl).
  - rewrite inorder_erase_tail, decide_True by done. cbn [inorder].
    by rewrite IHr, (lerase_gt x y (inorder l)) by auto.
Qed.
End ordered.

(** * Heights and balance *)
Section balance.
Context {A : Type}.
Implicit Types t l r : tree A.
Implicit Types x y : A.

Lemma height_nonneg t : 0 ≤ height t.
Proof. induction t; simpl; lia. Qed.
Lemma tree_height_ok t : heights_ok t → avl_tree_height t = height t.
Proof. destruct t; simpl; [done|]. by intros (? & _ & _). Qed.
Lemma set_height_ok l x r : heights_ok l → heights_ok r →
  heights_ok (avl_set_height l x r) ∧ height (avl_set_height l x r) = Z.max (height l) (height r) + 1.
Proof.
  intros Hl Hr. unfold avl_set_height. rewrite !tree_height_ok by done. cbn [height heights_ok].
  split; [|done]. split_and!; [|done..]. destruct (Z.ltb_spec (height r) (height l)); lia.
Qed.
Lemma set_height_bf l x r : heights_ok l → heights_ok r →
  avl_balance_factor (avl_set_height l x r) = height r - height l.
Proof. intros. unfold avl_set_height, avl_balance_factor. by rewrite !tree_height_ok. Qed.

(** Rotations always find the child they lift. *)
Lemma fixup_right l r : heights_ok l → heights_ok r → height r - height l = 2 →
  ∃ rl y hr rr, r = Node rl y hr rr ∧
    (height rr < height rl → ∃ rll z hz rlr, rl = Node rll z hz rlr).
Proof.
  intros Hl Hr Hd. pose proof (height_nonneg l). destruct r as [|rl y hr rr]; [simpl in Hd; lia|].
  exists rl, y, hr, rr. split; [done|]. intros Hlt. pose proof (height_nonneg rr).
  destruct rl as [|rll z hz rlr]; [simpl in Hlt; lia|]. by eauto.
Qed.
Lemma fixup_left l r : heights_ok l → heights_ok r → height r - height l = -2 →
  ∃ ll y hl lr, l = Node ll y hl lr ∧
    (height ll < height lr → ∃ lrl z hz lrr, lr = Node lrl z hz lrr).
Proof.
  intros Hl Hr Hd. pose proof (height_nonneg r). destruct l as [|ll y hl lr]; [simpl in Hd; lia|].
  exists ll, y, hl, lr. split; [done|]. intros Hlt. pose proof (height_nonneg ll).
  destruct lr as [|lrl z hz lrr]; [simpl in Hlt; lia|]. by eauto.
Qed.

Lemma left_rotate_heights l x h r : heights_ok l → heights_ok r → r ≠ Leaf →
  heights_ok (avl_left_rotate (Node l x h r)).
Proof.
  intros Hl Hr Hne. destruct r as [|b y h' c]; [done|]. destruct Hr as (_ & Hb & Hc).
  by apply set_height_ok; [apply set_height_ok|].
Qed.
Lemma right_rotate_heights l x h r : heights_ok l → heights_ok r → l ≠ Leaf →
  heights_ok (avl_right_rotate (Node l x h r)).
Proof.
  intros Hl Hr Hne. destruct l as [|b y h' c]; [done|]. destruct Hl as (_ & Hb & Hc).
  by apply set_height_ok; [|apply set_height_ok].
Qed.
Lemma left_rotate_node l x h r : avl_left_rotate (Node l x h r) ≠ Leaf.
Proof. by destruct r. Qed.
Lemma right_rotate_node l x h r : avl_right_rotate (Node l x h r) ≠ Leaf.
Proof. by destruct l. Qed.
Lemma heights_ok_left_rotate t : heights_ok t → heights_ok (avl_left_rotate t).
Proof.
  destruct t as [|l x h r]; [done|]. intros Ht. destruct r as [|b y h' c]; [done|].
  destruct Ht as (? & ? & ?). by apply left_rotate_heights.
Qed.
Lemma heights_ok_right_rotate t : heights_ok t → heights_ok (avl_right_rotate t).
Proof.
  destruct t as [|l x h r]; [done|]. intros Ht. destruct l as [|b y h' c]; [done|].
  destruct Ht as (? & ? & ?). by apply right_rotate_heights.
Qed.

Lemma heights_ok_fixup bf t : heights_ok t → heights_ok (avl_fixup bf t).
Proof.
  intros Ht. destruct t as [|l x h r]; [done|]. pose proof Ht as (_ & Hl & Hr). unfold avl_fixup.
  destruct (bf =? 2); [destruct r as [|rl y hr rr]|destruct (bf =? -2); [destruct l as [|ll y hl lr]|]]; try done.
  - destruct (_ <=? _); [by apply heights_ok_left_rotate|].
    apply left_rotate_heights; auto using heights_ok_right_rotate, right_rotate_node.
  - destruct (_ <=? _); [by apply heights_ok_right_rotate|].
    apply right_rotate_heights; auto using heights_ok_left_rotate, left_rotate_node.
Qed.

Lemma rebalance_heights l x r : heights_ok l → heights_ok r → heights_ok (avl_rebalance l x r).
Proof.
  intros Hl Hr. unfold avl_rebalance. destruct (_ || _); [apply heights_ok_fixup|]; by apply set_height_ok.
Qed.

(** Heights of the pieces the rotations rebuild. *)
Ltac heights :=
  repeat match goal with
  | H : heights_ok (Node _ _ _ _) |- _ => cbn [heights_ok] in H; destruct H as (? & ? & ?)
  | H : balanced (Node _ _ _ _) |- _ => cbn [balanced] in H; destruct H as (? & ? & ?)
  | H : _ ∧ _ |- _ => destruct H
  end;
  cbn [avl_left_rotate avl_right_rotate avl_left_right_rotate avl_right_left_rotate avl_set_height
       height balanced] in *;
  split_and?; auto; lia.

Lemma fixup_2 l x rl y hr rr : heights_ok rl → heights_ok rr →
  avl_fixup 2 (avl_set_height l x (Node rl y hr rr)) =
  (if height rl <=? height rr then avl_left_rotate else avl_right_left_rotate)
    (avl_set_height l x (Node rl y hr rr)).
Proof. intros. simpl. rewrite !tree_height_ok by done. by destruct (_ <=? _). Qed.
Lemma fixup_m2 ll y hl lr x r : heights_ok ll → heights_ok lr →
  avl_fixup (-2) (avl_set_height (Node ll y hl lr) x r) =
  (if height lr <=? height ll then avl_right_rotate else avl_left_right_rotate)
    (avl_set_height (Node ll y hl lr) x r).
Proof. intros. simpl. rewrite !tree_height_ok by done. by destruct (_ <=? _). Qed.

Lemma rebalance_balanced l x r :
  heights_ok l → heights_ok r → balanced l → balanced r → Z.abs (height r - height l) ≤ 2 →
  balanced (avl_rebalance l x r) ∧
  Z.max (height l) (height r) ≤ height (avl_rebalance l x r) ≤ Z.max (height l) (height r) + 1 ∧
  (Z.abs (height r - height l) ≤ 1 →
     height (avl_rebalance l x r) = Z.max (height l) (height r) + 1).
Proof.
  intros Hl Hr Bl Br Hd. unfold avl_rebalance. rewrite set_height_bf by done.
  destruct (Z.eqb_spec (height r - height l) 2) as [E|E]; simpl orb; cbv iota.
  - destruct (fixup_right l r Hl Hr E) as (rl & y & hr & rr & -> & Hrl). pose proof Hr as (_ & Hrl' & Hrr).
    rewrite E, fixup_2 by done. destruct (Z.leb_spec (height rl) (height rr)) as [Hle|Hlt].
    + heights.
    + destruct (Hrl Hlt) as (rll & z & hz & rlr & ->). heights.
  - destruct (Z.eqb_spec (height r - height l) (-2)) as [E'|E']; [|heights].
    destruct (fixup_left l r Hl Hr E') as (ll & y & hl & lr & -> & Hlr). pose proof Hl as (_ & Hll & Hlr').
    rewrite E', fixup_m2 by done. destruct (Z.leb_spec (height lr) (height ll)) as [Hle|Hlt].
    + heights.
    + destruct (Hlr Hlt) as (lrl & z & hz & lrr & ->). heights.
Qed.
End balance.

Section insert_balance.
Context {A K : Type} `{OrdKey K} (key : A → K).
Implicit Types t l r : tree A.

Lemma insert_heights x t : heights_ok t → heights_ok (avl_insert key x t).
Proof.
  induction t as [|l IHl y h r IHr]; [simpl; lia|]. intros (_ & Hl & Hr). simpl.
  destruct (_ =? _); apply rebalance_heights; auto.
Qed.

Lemma insert_balance x t : heights_ok t → balanced t →
  balanced (avl_insert key x t) ∧ height t ≤ height (avl_insert key x t) ≤ height t + 1.
Proof.
  induction t as [|l IHl y h r IHr]; [simpl; lia|].
  intros (_ & Hl & Hr) (Hd & Bl & Br). simpl.
  specialize (IHl Hl Bl). specialize (IHr Hr Br).
  pose proof (insert_heights x l Hl). pose proof (insert_heights x r Hr).
  destruct (_ =? _).
  - destruct (rebalance_balanced (avl_insert key x l) y r) as (? & ? & ?); [done..|naive_solver|done|lia|].
    split; [done|]. lia.
  - destruct (rebalance_balanced l y (avl_insert key x r)) as (? & ? & ?); [done..|naive_solver|lia|].
    split; [done|]. lia.
Qed.

Lemma erase_min_heights t : heights_ok t → heights_ok (avl_erase_min t).1.
Proof.
  induction t as [|l IHl y h r IHr]; [done|]. intros (_ & Hl & Hr). simpl.
  destruct l as [|ll lx lh lr].
  - destruct r as [|rl rx rh rr]; [done|]. destruct Hr as (_ & ? & ?). by apply set_height_ok.
  - destruct (avl_erase_min (Node ll lx lh lr)) as [l' m] eqn:E. by apply set_height_ok; [apply IHl|].
Qed.
Lemma erase_tail_heights t : heights_ok t → heights_ok (avl_erase_tail t).
Proof. destruct t; [done|]. intros (_ & ? & ?). by apply rebalance_heights. Qed.
Lemma erase_heights x t : heights_ok t → heights_ok (avl_erase key x t).
Proof.
  induction t as [|l IHl y h r IHr]; [done|]. intros (_ & Hl & Hr). cbn [avl_erase].
  destruct (_ =? -1); [apply rebalance_heights; auto|].
  destruct (_ =? 1); [apply rebalance_heights; auto|].
  destruct l as [|ll lx lh lr]; [by apply erase_tail_heights|].
  destruct r as [|rl rx rh rr]; [by apply erase_tail_heights|].
  pose proof (erase_min_heights (Node rl rx rh rr) Hr) as Hm.
  destruct (avl_erase_min (Node rl rx rh rr)) as [r' [m|]]; by apply rebalance_heights.
Qed.
End insert_balance.

(** A balanced tree of height [h] has at least [2^(h/2) - 1] nodes. *)
Lemma balanced_size {A} (t : tree A) :
  balanced t → 2 ^ height t ≤ (Z.of_nat (length (inorder t)) + 1) ^ 2.
Proof.
  induction t as [|l IHl x h r IHr]; [simpl; lia|].
  intros (Hd & Bl & Br). specialize (IHl Bl). specialize (IHr Br).
  simpl. rewrite length_app. cbn [length]. rewrite Nat2Z.inj_add, Nat2Z.inj_succ.
  pose proof (height_nonneg l). pose proof (height_nonneg r).
  set (a := Z.of_nat (length (inorder l)) + 1) in *. set (b := Z.of_nat (length (inorder r)) + 1) in *.
  replace (Z.of_nat (length (inorder l)) + Z.succ (Z.of_nat (length (inorder r))) + 1) with (a + b) by lia.
  assert (1 ≤ a ∧ 1 ≤ b) as [Ha Hb] by lia. clearbody a b.
  rewrite Z.pow_add_r by lia.
  assert (height l = height r ∨ height l = height r + 1 ∨ height r = height l + 1) as [E|[E|E]] by lia;
    rewrite E in *.
  - rewrite Z.max_id. assert (0 < 2 ^ height r) by (apply Z.pow_pos_nonneg; lia). nia.
  - rewrite Z.max_l by lia. rewrite Z.pow_add_r in * by lia.
    assert (0 < 2 ^ height r) by (apply Z.pow_pos_nonneg; lia). nia.
  - rewrite Z.max_r by lia. rewrite Z.pow_add_r in * by lia.
    assert (0 < 2 ^ height l) by (apply Z.pow_pos_nonneg; lia). nia.
Qed.

Section search.
Context {A K : Type} `{OrdKeyOk K} (key : A → K).
Implicit Types t l r : tree A.

Lemma avl_find_spec k t x : keys_sorted key (inorder t) →
  avl_find key k t = Some x ↔ x ∈ inorder t ∧ key x = k.
Proof using All.
  induction t as [|l IHl y h r IHr]; [set_solver|].
  rewrite inorder_sorted_node by apply _. intros (Hl & Hr & Hfl & Hfr). simpl.
  rewrite elem_of_app, elem_of_cons.
  assert (∀ z, z ∈ inorder l → klt (key z) (key y)) as Fl by by apply Forall_forall.
  assert (∀ z, z ∈ inorder r → klt (key y) (key z)) as Fr by by apply Forall_forall.
  destruct (kcmp_cases k (key y)) as [[E Hlt]|[[E Heq]|[E Hgt]]]; rewrite E; cbn [Z.eqb Z.ltb Z.compare].
  - rewrite IHl by done. split; [naive_solver|]. intros [[?|[->|Hx]] <-]; [done| |].
    + by apply klt_irrefl in Hlt.
    + destruct (klt_irrefl (key x)). eapply klt_trans; [exact Hlt|by apply Fr].
  - split; [intros [= <-]; naive_solver|]. intros [[Hx|[->|Hx]] Ek]; [|done|].
    + apply Fl in Hx. rewrite Ek, Heq in Hx. by apply klt_irrefl in Hx.
    + apply Fr in Hx. rewrite Ek, Heq in Hx. by apply klt_irrefl in Hx.
  - rewrite IHr by done. split; [naive_solver|]. intros [[Hx|[->|?]] <-]; [| |done].
    + destruct (klt_irrefl (key x)). eapply klt_trans; [by apply Fl|exact Hgt].
    + by apply klt_irrefl in Hgt.
Qed.

Lemma avl_find_None k t : keys_sorted key (inorder t) →
  avl_find key k t = None ↔ (∀ x, x ∈ inorder t → key x ≠ k).
Proof using All.
  intros Hs. split.
  - intros E x Hx Hk. assert (avl_find key k t = Some x) by by apply avl_find_spec. congruence.
  - intros Hn. destruct (avl_find key k t) as [x|] eqn:E; [|done].
    apply avl_find_spec in E as [??]; [|done]. by destruct (Hn x).
Qed.
End search.

(** * Iterators *)
Section iter.
Context {A K : Type} `{OrdKeyOk K} (key : A → K).
Implicit Types (t l r cur : tree A) (it : avl_iter A).

(** Elements of the tree after the subtree at a depth of the path. *)
Fixpoint it_after it (d : nat) : list A :=
  match d with
  | O => []
  | S d' =>
      if Z.testbit (it_branch it) (Z.of_nat d') then it_after it d'
      else match it_node_at it d' with
           | Node _ x _ r => x :: inorder r ++ it_after it d'
           | Leaf => [] end
  end.
(** The current element and all later ones. *)
Definition it_elems it : list A :=
  match it_depth it with
  | None => []
  | Some d => match it_node_at it d with
              | Node _ x _ r => x :: inorder r ++ it_after it d
              | Leaf => [] end
  end.
(** The path follows child links and fits the 32 slots of the array. *)
Definition it_path_ok it (d : nat) : Prop :=
  length (it_path it) = AVL_MAX_DEPTH ∧ 0 ≤ it_branch it ∧
  Z.of_nat d + height (it_node_at it d) ≤ Z.of_nat AVL_MAX_DEPTH ∧
  it_node_at it d ≠ Leaf ∧
  ∀ i, (i < d)%nat →
    ∃ l x h r, it_node_at it i = Node l x h r ∧
      Z.of_nat i + height (it_node_at it i) ≤ Z.of_nat AVL_MAX_DEPTH.
Definition it_ok it : Prop := match it_depth it with None => True | Some d => it_path_ok it d end.

Lemma node_at_push b d cur it i : (d < length (it_path it))%nat →
  it_node_at (it_push b d cur it) i = if decide (i = S d) then cur else it_node_at it i.
Proof using Type.
  intros Hd. destruct i as [|i]; simpl; [done|]. case_decide as E.
  - injection E as ->. by rewrite list_lookup_insert_eq.
  - by rewrite list_lookup_insert_ne by lia.
Qed.
Lemma branch_push b d cur it i : 0 ≤ it_branch it →
  Z.testbit (it_branch (it_push b d cur it)) (Z.of_nat i) =
  if decide (i = d) then b else Z.testbit (it_branch it) (Z.of_nat i).
Proof using Type.
  intros Hb. simpl. case_decide as E.
  - subst. destruct b; [by apply Z.setbit_eq; lia|by apply Z.clearbit_eq].
  - destruct b; [apply Z.setbit_neq; lia|apply Z.clearbit_neq; lia].
Qed.
Lemma push_branch_nonneg b d cur it : 0 ≤ it_branch it → 0 ≤ it_branch (it_push b d cur it).
Proof using Type.
  intros Hb. destruct b; simpl.
  - unfold Z.setbit. apply Z.lor_nonneg. split; [done|]. rewrite Z.shiftl_1_l. lia.
  - unfold Z.clearbit. apply Z.ldiff_nonneg. by left.
Qed.
Lemma after_push b d cur it i : (d < length (it_path it))%nat → 0 ≤ it_branch it → (i ≤ d)%nat →
  it_after (it_push b d cur it) i = it_after it i.
Proof using Type.
  intros Hd Hb. induction i as [|i IH]; [done|]. intros Hi.
  cbn [it_after]. rewrite branch_push, node_at_push, !decide_False by (done || lia).
  rewrite IH by lia. done.
Qed.
Lemma after_set_depth o it i : it_after (set_it_depth o it) i = it_after it i.
Proof using Type. induction i as [|i IH]; simpl; [done|]. rewrite IH. by destruct i. Qed.
Lemma node_at_set_depth o it i : it_node_at (set_it_depth o it) i = it_node_at it i.
Proof using Type. by destruct i. Qed.

Lemma push_path_ok b d cur it : it_path_ok it d → cur ≠ Leaf →
  height cur < height (it_node_at it d) → it_path_ok (it_push b d cur it) (S d).
Proof using Type.
  intros (Hlen & Hb & Hh & Hne & Hpre) Hcur Hlt.
  assert (1 ≤ height cur) as Hc1.
  { destruct cur as [|cl cx ch cr]; [done|]. simpl. pose proof (height_nonneg cl).
    pose proof (height_nonneg cr). lia. }
  assert (d < length (it_path it))%nat by (unfold AVL_MAX_DEPTH in *; lia).
  split_and!.
  - simpl. by rewrite length_insert.
  - by apply push_branch_nonneg.
  - rewrite node_at_push, decide_True by done. lia.
  - rewrite node_at_push, decide_True by done. done.
  - intros i Hi. rewrite node_at_push, decide_False by (done || lia).
    destruct (decide (i = d)) as [->|].
    + destruct (it_node_at it d) as [|l x h r] eqn:E; [done|]. eauto 6.
    + apply Hpre. lia.
Qed.

Lemma after_S b d cur it l x h r : it_path_ok it d → it_node_at it d = Node l x h r →
  it_after (it_push b d cur it) (S d) =
  if b then it_after it d else x :: inorder r ++ it_after it d.
Proof using Type.
  intros (Hlen & Hb & Hh & Hne & Hpre) E.
  assert (d < length (it_path it))%nat.
  { rewrite E in Hh. simpl in Hh. pose proof (height_nonneg l). pose proof (height_nonneg r).
    unfold AVL_MAX_DEPTH in *. lia. }
  cbn [it_after]. rewrite branch_push, node_at_push, after_push by (done || lia).
  rewrite decide_True, decide_False, E by lia. by destruct b.
Qed.

(** ** [avl_inc_iter] is the in-order successor *)
Lemma climb_elems it d : it_path_ok it d →
  it_elems (set_it_depth (avl_climb (it_branch it) d) it) = it_after it d ∧
  it_ok (set_it_depth (avl_climb (it_branch it) d) it).
Proof using Type.
  intros (Hlen & Hb & _ & _ & Hpre).
  assert (∀ n, (n ≤ d)%nat →
    it_elems (set_it_depth (avl_climb (it_branch it) n) it) = it_after it n ∧
    it_ok (set_it_depth (avl_climb (it_branch it) n) it)) as Hg; [|by apply Hg].
  induction n as [|n IH]; intros Hn; [done|]. cbn [avl_climb it_after].
  destruct (Z.testbit (it_branch it) (Z.of_nat n)); [apply IH; lia|].
  destruct (Hpre n) as (l & x & h & r & E & Hh); [lia|].
  unfold it_elems, it_ok, it_path_ok. simpl it_depth. cbv iota beta.
  rewrite after_set_depth, !node_at_set_depth, E. split; [done|].
  rewrite <-E. split_and!; try done; [by rewrite E|].
  intros i Hi. rewrite node_at_set_depth. apply Hpre. lia.
Qed.

Lemma descend_elems cur d it : it_path_ok it d → it_node_at it d = cur →
  it_elems (avl_descend cur d it) = inorder cur ++ it_after it d ∧
  it_ok (avl_descend cur d it).
Proof using Type.
  revert d it. induction cur as [|l IHl x h r _]; intros d it Hok E.
  { by destruct Hok as (_ & _ & _ & Hne & _). }
  destruct l as [|ll lx lh lr].
  - simpl. unfold it_elems, it_ok. simpl it_depth. cbv iota beta.
    rewrite node_at_set_depth, after_set_depth, E. split; [done|].
    destruct Hok as (? & ? & ? & ? & Hpre). split_and!; rewrite ?node_at_set_depth; try done.
  - set (l := Node ll lx lh lr) in *.
    change (avl_descend (Node l x h r) d it) with (avl_descend l (S d) (it_push false d l it)).
    assert (height l < height (it_node_at it d)) as Hlt by (rewrite E; cbn [height]; lia).
    pose proof (push_path_ok false d l it Hok ltac:(done) Hlt) as Hok'.
    destruct (IHl (S d) (it_push false d l it) Hok') as [-> ?].
    { rewrite node_at_push; [by rewrite decide_True|].
      destruct Hok as (Hlen & _ & Hh & _). rewrite E in Hh. unfold AVL_MAX_DEPTH in *.
      cbn [height] in Hh. pose proof (height_nonneg r). pose proof (height_nonneg l). lia. }
    split; [|done]. rewrite (after_S false d l it l x h r) by done.
    cbn [inorder]. by rewrite <-app_assoc.
Qed.

Lemma inc_iter_elems it : it_ok it →
  it_elems (avl_inc_iter it) = tail (it_elems it) ∧ it_ok (avl_inc_iter it).
Proof using Type.
  intros Hok. unfold avl_inc_iter. unfold it_elems at 2. unfold it_ok in Hok.
  destruct (it_depth it) as [d|] eqn:Ed; [|by unfold it_elems, it_ok; rewrite Ed].
  pose proof Hok as (Hlen & Hb & Hh & Hne & Hpre).
  destruct (it_node_at it d) as [|l x h r] eqn:E; [done|].
  destruct r as [|rl rx rh rr]; [simpl; by apply climb_elems|].
  set (r := Node rl rx rh rr) in *. cbn [tail].
  assert (height r < height (it_node_at it d)) as Hlt by (rewrite E; cbn [height]; lia).
  pose proof (push_path_ok true d r it Hok ltac:(done) Hlt) as Hok'.
  destruct (descend_elems r (S d) (it_push true d r it)) as [-> ?]; [done| |].
  { rewrite node_at_push; [by rewrite decide_True|]. unfold AVL_MAX_DEPTH in *.
    cbn [height] in Hh. pose proof (height_nonneg r). pose proof (height_nonneg l). lia. }
  split; [|done]. by rewrite (after_S true d r it l x h r).
Qed.

(** ** [avl_start_iter] with [AVL_GREATER_EQUAL] finds the first key [>= k] *)
Definition kge (k : K) (x : A) : Prop := kcmp k (key x) ≤ 0.
#[local] Instance kge_dec k x : Decision (kge k x).
Proof using Type. unfold kge. apply _. Defined.

(** The candidate found so far, when the search stands at depth [d]. *)
Definition it_cand it (d : nat) : Prop :=
  it_elems it = it_after it d ∧ it_ok it ∧
  match it_depth it with None => True | Some e => (e ≤ d)%nat end.

Lemma cand_push b d cur it : it_path_ok it d → cur ≠ Leaf →
  height cur < height (it_node_at it d) → (d < length (it_path it))%nat →
  it_ok it → match it_depth it with None => True | Some e => (e ≤ d)%nat end →
  it_elems (it_push b d cur it) = it_elems it ∧ it_ok (it_push b d cur it).
Proof using Type.
  intros Hok Hcur Hlt Hd Hit Hle. unfold it_elems, it_ok in *. simpl it_depth.
  destruct (it_depth it) as [e|]; [|done].
  destruct Hit as (H1 & H2 & H3 & H4 & H5).
  rewrite node_at_push, decide_False, after_push by (done || lia). split; [done|].
  split_and!.
  - simpl. by rewrite length_insert.
  - by apply push_branch_nonneg.
  - by rewrite node_at_push, decide_False by (done || lia).
  - by rewrite node_at_push, decide_False by (done || lia).
  - intros i Hi. rewrite node_at_push, decide_False by (done || lia). by apply H5.
Qed.

Lemma path_ok_set_depth o it d : it_path_ok (set_it_depth o it) d ↔ it_path_ok it d.
Proof using Type.
  unfold it_path_ok. rewrite node_at_set_depth. simpl.
  split; intros (? & ? & ? & ? & Hp); split_and!; try done; intros i Hi;
    specialize (Hp i Hi); rewrite node_at_set_depth in *; exact Hp.
Qed.

Lemma filter_kge_all k xs : Forall (λ y, klt k (key y)) xs → filter (kge k) xs = xs.
Proof using Type.
  induction 1 as [|y xs Hy _ IH]; [done|]. rewrite filter_cons_True; [by f_equal|].
  unfold kge. unfold klt in Hy. lia.
Qed.
Lemma filter_kge_none k xs : Forall (λ y, klt (key y) k) xs → filter (kge k) xs = [].
Proof using All.
  induction 1 as [|y xs Hy _ IH]; [done|]. rewrite filter_cons_False; [done|].
  unfold kge. apply kcmp_gt in Hy. lia.
Qed.
Lemma Forall_klt_trans_r k k' xs : klt k k' → Forall (λ y, klt k' (key y)) xs →
  Forall (λ y, klt k (key y)) xs.
Proof using All. intros ? Hf. eapply Forall_impl; [exact Hf|]. intros y Hy. by apply (klt_trans k k'). Qed.
Lemma Forall_klt_trans_l k k' xs : klt k' k → Forall (λ y, klt (key y) k') xs →
  Forall (λ y, klt (key y) k) xs.
Proof using All. intros ? Hf. eapply Forall_impl; [exact Hf|]. intros y Hy. by apply (klt_trans (key y) k'). Qed.

Lemma start_loop_elems k cur d it : keys_sorted key (inorder cur) →
  it_path_ok it d → it_node_at it d = cur → it_cand it d →
  it_elems (avl_start_loop key k true (-1) cur d it) = filter (kge k) (inorder cur) ++ it_after it d ∧
  it_ok (avl_start_loop key k true (-1) cur d it).
Proof using All.
  revert d it. induction cur as [|l IHl x h r IHr]; intros d it Hs Hok E Hc.
  { by destruct Hok as (_ & _ & _ & Hne & _). }
  apply inorder_sorted_node in Hs as (Hsl & Hsr & Hfl & Hfr).
  assert (d < length (it_path it))%nat as Hd.
  { destruct Hok as (Hlen & _ & Hh & _). rewrite E in Hh. unfold AVL_MAX_DEPTH in *.
    cbn [height] in Hh. pose proof (height_nonneg r). pose proof (height_nonneg l). lia. }
  cbn [avl_start_loop inorder]. rewrite filter_app, filter_cons.
  set (it' := set_it_depth (Some d) it).
  assert (it_elems it' = x :: inorder r ++ it_after it d ∧ it_ok it') as [He' Ho'].
  { unfold it_elems, it_ok, it'. simpl it_depth. cbv iota. rewrite path_ok_set_depth.
    by rewrite (node_at_set_depth (Some d)), after_set_depth, E. }
  destruct (kcmp_cases k (key x)) as [[Ec Hlt]|[[Ec Heq]|[Ec Hgt]]]; rewrite Ec;
    cbn [Z.eqb Pos.eqb Z.ltb Z.compare andb negb Z.opp].
  - rewrite decide_True by (unfold kge; lia).
    rewrite (filter_kge_all k (inorder r)) by by eapply Forall_klt_trans_r.
    fold it'. destruct l as [|ll lx lh lr]; [by rewrite He'|].
    set (l := Node ll lx lh lr) in *.
    assert (it_node_at it' d = Node l x h r) as Hn by by (unfold it'; rewrite node_at_set_depth).
    assert (it_after it' d = it_after it d) as Ha by apply after_set_depth.
    assert (height l < height (it_node_at it' d)) as Hh by (rewrite Hn; cbn [height]; lia).
    assert (it_path_ok it' d) as Hok' by by apply path_ok_set_depth.
    destruct (cand_push false d l it') as [He2 Ho2]; [done..|simpl; lia|].
    destruct (IHl (S d) (it_push false d l it')) as [-> ?]; try done.
    + by apply push_path_ok.
    + by rewrite node_at_push, decide_True by done.
    + split_and!; [|done|simpl; lia]. by rewrite He2, He', (after_S false d l it' l x h r), Ha.
    + split; [|done].
      by rewrite (after_S false d l it' l x h r), Ha, <-app_assoc by done.
  - subst k. rewrite decide_True by (unfold kge; lia).
    rewrite (filter_kge_all _ (inorder r)), (filter_kge_none _ (inorder l)) by done.
    by rewrite He'.
  - rewrite decide_False by (unfold kge; lia).
    rewrite (filter_kge_none _ (inorder l)) by by eapply Forall_klt_trans_l.
    destruct r as [|rl rx rh rr]; [destruct Hc as (-> & ? & _); done|].
    set (r := Node rl rx rh rr) in *. destruct Hc as (Hc1 & Hc2 & Hc3).
    assert (height r < height (it_node_at it d)) as Hh by (rewrite E; cbn [height]; lia).
    destruct (cand_push true d r it) as [He2 Ho2]; [done..|].
    destruct (IHr (S d) (it_push true d r it)) as [-> ?]; try done.
    + by apply push_path_ok.
    + by rewrite node_at_push, decide_True by done.
    + split_and!; [|done|simpl; case_match; [lia|done]].
      by rewrite He2, Hc1, (after_S true d r it l x h r).
    + split; [|done]. by rewrite (after_S true d r it l x h r).
Qed.

Lemma start_iter_elems k t : keys_sorted key (inorder t) → height t ≤ Z.of_nat AVL_MAX_DEPTH →
  it_elems (avl_start_iter key t k AVL_GREATER_EQUAL) = filter (kge k) (inorder t) ∧
  it_ok (avl_start_iter key t k AVL_GREATER_EQUAL).
Proof using All.
  intros Hs Hh.
  change (avl_start_iter key t k AVL_GREATER_EQUAL) with
    (avl_start_loop key k true (-1) t 0 (AvlIter t None 0 (replicate AVL_MAX_DEPTH Leaf))).
  destruct t as [|l x h r]; [done|].
  rewrite <-(app_nil_r (filter _ _)).
  by apply (start_loop_elems k (Node l x h r) 0 (AvlIter _ None 0 (replicate AVL_MAX_DEPTH Leaf)));
    [done|split_and!; try done; simpl; lia| |].
Qed.

Lemma get_iter_elems it : it_ok it → avl_get_iter it = head (it_elems it).
Proof using Type.
  unfold avl_get_iter, it_elems. destruct (it_depth it) as [d|]; [|done].
  by destruct (it_node_at it d).
Qed.

Lemma iter_exhausted it : it_ok it → it_elems it = [] → avl_get_iter it = None.
Proof using Type. intros Hok E. by rewrite get_iter_elems, E by done. Qed.
End iter.

Section linsert_facts.
Context {A K : Type} `{OrdKeyOk K} (key : A → K).

Lemma linsert_perm x xs : linsert key x xs ≡ₚ x :: xs.
Proof using Type.
  induction xs as [|y ys IH]; [done|]. simpl. case_match; [done|].
  rewrite IH. apply Permutation_swap.
Qed.
Lemma linsert_sorted x xs : keys_sorted key xs → (∀ y, y ∈ xs → key y ≠ key x) →
  keys_sorted key (linsert key x xs).
Proof using All.
  unfold keys_sorted. induction xs as [|y ys IH]; intros Hs Hn; simpl; [by repeat constructor|].
  apply StronglySorted_inv in Hs as [Hs Hf].
  destruct (kcmp_cases (key x) (key y)) as [[-> Hlt]|[[_ E]|[-> Hgt]]]; cbn [Z.eqb Pos.eqb].
  - constructor; [by constructor|]. constructor; [done|]. by apply (Forall_klt_trans_r key _ (key y)).
  - by destruct (Hn y); [set_solver|].
  - constructor; [apply IH; [done|]; intros z ?; apply Hn; set_solver|].
    apply Forall_forall. intros z. rewrite linsert_perm, elem_of_cons. intros [->|Hz]; [done|].
    by eapply Forall_forall in Hf.
Qed.
Lemma lerase_sorted x xs : keys_sorted key xs → keys_sorted key (lerase key x xs).
Proof using Type.
  unfold keys_sorted, lerase. induction 1 as [|y ys Hs IH Hf]; [constructor|].
  rewrite filter_cons. case_decide; [|done]. constructor; [done|].
  apply Forall_forall. intros z [_ Hz]%list_elem_of_filter. by eapply Forall_forall in Hf.
Qed.

Lemma keys_sorted_inj xs x y : keys_sorted key xs → x ∈ xs → y ∈ xs → key x = key y → x = y.
Proof using All.
  induction 1 as [|z zs Hs IH Hf]; [set_solver|]. rewrite !elem_of_cons.
  intros [->|Hx] [->|Hy] E; [done| | |by apply IH].
  - eapply Forall_forall in Hf; [|exact Hy]. rewrite E in Hf. by apply klt_irrefl in Hf.
  - eapply Forall_forall in Hf; [|exact Hx]. rewrite E in Hf. by apply klt_irrefl in Hf.
Qed.

(** A tree as the components keep it. *)
Definition avl_ok (t : tree A) : Prop := keys_sorted key (inorder t) ∧ heights_ok t.

Lemma avl_ok_insert x t : avl_ok t → (∀ y, y ∈ inorder t → key y ≠ key x) →
  avl_ok (avl_insert key x t) ∧ inorder (avl_insert key x t) ≡ₚ x :: inorder t.
Proof using All.
  intros [Hs Hh] Hn. split; [split|].
  - rewrite inorder_insert by done. by apply linsert_sorted.
  - by apply insert_heights.
  - rewrite inorder_insert by done. apply linsert_perm.
Qed.
Lemma avl_ok_erase x t : avl_ok t →
  avl_ok (avl_erase key x t) ∧
  (∀ y, y ∈ inorder (avl_erase key x t) ↔ y ∈ inorder t ∧ key y ≠ key x).
Proof using All.
  intros [Hs Hh]. split; [split|].
  - rewrite inorder_erase by done. by apply lerase_sorted.
  - by apply erase_heights.
  - intros y. rewrite inorder_erase by done. unfold lerase. rewrite list_elem_of_filter.
    rewrite kcmp_eq. naive_solver.
Qed.
Lemma avl_ok_leaf : avl_ok Leaf.
Proof using Type. split; [constructor|done]. Qed.

(** Trees that have only been inserted into stay balanced, so the 32-entry
    path of an iterator suffices for fewer than 65535 elements. *)
Lemma balanced_depth (t : tree A) : balanced t → Z.of_nat (length (inorder t)) < 65535 → height t ≤ 31.
Proof using Type.
  intros Hb Hn. pose proof (balanced_size t Hb) as Hs.
  destruct (Z.le_gt_cases (height t) 31) as [?|Hgt]; [done|].
  assert (2 ^ 32 ≤ 2 ^ height t) as Hp by (apply Z.pow_le_mono_r; lia).
  assert ((Z.of_nat (length (inorder t)) + 1) ^ 2 ≤ 65535 ^ 2) as Hq by (apply Z.pow_le_mono_l; lia).
  change (2 ^ 32) with 4294967296 in Hp. change (65535 ^ 2) with 4294836225 in Hq. lia.
Qed.

Lemma insert_all_ok (xs : list A) (t : tree A) :
  avl_ok t → balanced t → NoDup (key <$> xs ++ inorder t) →
  let t' := foldl (λ t x, avl_insert key x t) t xs in
  avl_ok t' ∧ balanced t' ∧ inorder t' ≡ₚ xs ++ inorder t.
Proof using All.
  revert t. induction xs as [|x xs IH]; intros t Ht Hb Hnd; simpl; [done|].
  apply NoDup_cons in Hnd as [Hx Hnd].
  destruct (avl_ok_insert x t Ht) as [Ht' Hp].
  { intros y Hy E. apply Hx. rewrite <-E. apply list_elem_of_fmap_2. set_solver. }
  destruct (insert_balance key x t) as [Hb' _]; [by apply Ht|done|].
  destruct (IH _ Ht' Hb') as (? & ? & Hp2).
  - rewrite Hp. rewrite <-Permutation_middle. simpl. by constructor.
  - split_and!; [done..|]. rewrite Hp2, Hp. by rewrite <-Permutation_middle.
Qed.
End linsert_facts.

(** * Theorems *)
Definition zkey (k : Z) : Z := k.
(** Comparison of unsigned integer keys, as the callbacks write it. *)
#[export] Instance Z_ordkey : OrdKey Z := λ a b,
  if a =? b then 0 else if a <? b then -1 else 1.
#[export] Instance Z_ordkey_ok : OrdKeyOk Z.
Proof. split; unfold kcmp, Z_ordkey; intros; repeat case_match; lia. Qed.

Section theorems.
Context {A K : Type} `{OrdKeyOk K} (key : A → K).

(** C34: inserting an object whose key is not in an AVL tree gives a balanced
    search tree with correct stored heights, whose in-order list is the old one
    with the object at its sorted place. *)
Theorem avl_insert_correct x t :
  avl_ok key t → balanced t → avl_find key (key x) t = None →
  avl_ok key (avl_insert key x t) ∧ balanced (avl_insert key x t) ∧
  inorder (avl_insert key x t) = linsert key x (inorder t) ∧
  avl_find key (key x) (avl_insert key x t) = Some x ∧
  (∀ k, k ≠ key x → avl_find key k (avl_insert key x t) = avl_find key k t).
Proof using All.
  intros Hok Hb Hn. pose proof Hok as [Hs Hh].
  rewrite avl_find_None in Hn by done.
  destruct (avl_ok_insert key x t Hok Hn) as [Hok' Hp].
  split_and!; [done|by apply insert_balance|by apply inorder_insert| |].
  - apply avl_find_spec; [by apply Hok'|]. rewrite Hp. set_solver.
  - intros k Hk. apply option_eq. intros y.
    rewrite !avl_find_spec by (done || apply Hok'). rewrite Hp, elem_of_cons. naive_solver.
Qed.

(** C35: erasing by a key removes exactly the object with that key, keeps the
    search order and the stored heights, and leaves every other lookup alone. *)
Theorem avl_erase_correct x t : avl_ok key t →
  avl_ok key (avl_erase key x t) ∧
  inorder (avl_erase key x t) = lerase key x (inorder t) ∧
  avl_find key (key x) (avl_erase key x t) = None ∧
  (∀ k, k ≠ key x → avl_find key k (avl_erase key x t) = avl_find key k t).
Proof using All.
  intros Hok. pose proof Hok as [Hs Hh].
  destruct (avl_ok_erase key x t Hok) as [Hok' Hin].
  split_and!; [done|by apply inorder_erase| |].
  - apply avl_find_None; [by apply Hok'|]. intros y. rewrite Hin. naive_solver.
  - intros k Hk. apply option_eq. intros y.
    rewrite !avl_find_spec by (done || apply Hok'). rewrite Hin. naive_solver.
Qed.

(** C36: an iterator started at the first key at least [k] and advanced [n]
    times stands at the [n]-th element, in key order, of those with key at
    least [k]; after the last one it is exhausted.  The height bound is the
    length of the iterator's path array. *)
Theorem avl_iter_correct k t n :
  avl_ok key t → height t ≤ Z.of_nat AVL_MAX_DEPTH →
  avl_get_iter (Nat.iter n avl_inc_iter (avl_start_iter key t k AVL_GREATER_EQUAL)) =
  filter (λ x, kcmp k (key x) ≤ 0) (inorder t) !! n.
Proof using All.
  intros [Hs _] Hh. destruct (start_iter_elems key k t Hs Hh) as [He Ho].
  set (it := avl_start_iter _ _ _ _) in *.
  assert (it_elems (Nat.iter n avl_inc_iter it) = drop n (it_elems it) ∧
          it_ok (Nat.iter n avl_inc_iter it)) as [Hd Ho'].
  { induction n as [|n [IH1 IH2]]; [by rewrite drop_0|].
    change (Nat.iter (S n) avl_inc_iter it) with (avl_inc_iter (Nat.iter n avl_inc_iter it)).
    destruct (inc_iter_elems _ IH2) as [-> ?]. split; [|done].
    rewrite IH1. rewrite <-(Nat.add_1_r n), <-drop_drop. by destruct (drop n _). }
  rewrite get_iter_elems, Hd, He by done. rewrite head_lookup, lookup_drop, Nat.add_0_r. by f_equal.
Qed.

(** C37: a tree built by insertions of fewer than 65535 distinct keys is never
    deeper than 31, so a path of [AVL_MAX_DEPTH] entries never overflows, and
    it holds exactly the inserted objects in key order. *)
Theorem avl_insertions_fit (xs : list A) :
  NoDup (key <$> xs) → Z.of_nat (length xs) < 65535 →
  let t : tree A := foldl (λ t x, avl_insert key x t) Leaf xs in
  height t < Z.of_nat AVL_MAX_DEPTH ∧ keys_sorted key (inorder t) ∧ inorder t ≡ₚ xs.
Proof using All.
  intros Hnd Hlen t. destruct (insert_all_ok key xs Leaf) as ([? ?] & Hb & Hp);
    [apply avl_ok_leaf|done|by rewrite app_nil_r|].
  rewrite app_nil_r in Hp. split_and!; [|done|done].
  assert (height t ≤ 31); [|unfold AVL_MAX_DEPTH; lia].
  apply balanced_depth; [done|]. subst t. by rewrite Hp.
Qed.
End theorems.

(** The tree built by inserting 4 2 6 1 3 5 8 9. *)
Definition demo_tree : tree Z :=
  foldl (λ t x, avl_insert zkey x t) Leaf [4; 2; 6; 1; 3; 5; 8; 9].

Lemma demo_tree_ok : avl_ok zkey demo_tree ∧ balanced demo_tree.
Proof.
  destruct (insert_all_ok zkey [4; 2; 6; 1; 3; 5; 8; 9] Leaf) as (? & ? & _);
    [apply avl_ok_leaf|done|by apply (bool_decide_unpack _); vm_compute|by split].
Qed.

Theorem avl_insert_correct_witness :
  avl_find zkey 7 demo_tree = None ∧ inorder (avl_insert zkey 7 demo_tree) = linsert zkey 7 (inorder demo_tree).
Proof.
  split; [by vm_compute|].
  apply (avl_insert_correct zkey 7 demo_tree); [apply demo_tree_ok|apply demo_tree_ok|by vm_compute].
Defined.
Theorem avl_erase_correct_witness : inorder (avl_erase zkey 6 demo_tree) = [1; 2; 3; 4; 5; 8; 9].
Proof.
  rewrite (proj1 (proj2 (avl_erase_correct zkey 6 demo_tree (proj1 demo_tree_ok)))).
  by vm_compute.
Defined.
Theorem avl_iter_correct_witness :
  avl_get_iter (Nat.iter 2 avl_inc_iter (avl_start_iter zkey demo_tree 3 AVL_GREATER_EQUAL)) = Some 5.
Proof.
  rewrite (avl_iter_correct zkey 3 demo_tree 2 (proj1 demo_tree_ok)); [by vm_compute|].
  by apply Z.leb_le; vm_compute.
Defined.
Theorem avl_insertions_fit_witness : height (foldl (λ t x, avl_insert zkey x t) Leaf [3; 1; 2]) < 32.
Proof.
  apply (avl_insertions_fit zkey [3; 1; 2]);
    [by apply (bool_decide_unpack _); vm_compute|simpl; lia].
Defined.

(** A balanced tree whose root has a balanced, a two-child and a one-child descendant. *)
Definition erase_demo : tree Z := Node (Node (Node Leaf 1 1 Leaf) 2 2 (Node Leaf 3 1 Leaf)) 4 4
  (Node (Node Leaf 5 1 Leaf) 6 3 (Node Leaf 8 2 (Node Leaf 9 1 Leaf))).
(** C40: [avl_erase] does not keep the balance: when a two-child node is replaced,
    [avl_erase_min] updates heights on the way up but never rotates. *)
Lemma avl_erase_unbalances :
  balanced erase_demo ∧ avl_ok zkey erase_demo ∧ ¬ balanced (avl_erase zkey 4 erase_demo).
Proof.
  split_and!.
  - vm_compute. intuition congruence.
  - split; [repeat constructor|vm_compute; intuition congruence].
  - vm_compute. intros (? & ? & H & ?). by apply H.
Qed.
