(* ===== verification/Flash.v ===== *)
(** Flash geometry and addressing: include/flash.h, include/flash_config.h and
    the address arithmetic of ftl/amu.c (physical page numbers, striping of
    logical pages over the planes). *)
From S2P Require Import Prelude Bitmap.

(** * Geometry (the embedded configuration, not [__UM__]) *)
Definition NR_CHANNELS : Z := 8.
Definition CHIPS_PER_CHANNEL : Z := 2.
Definition CHIPS_ENABLED_PER_CHANNEL : Z := CHIPS_PER_CHANNEL.
Definition DIES_PER_CHIP : Z := 2.
Definition PLANES_PER_DIE : Z := 2.
Definition BLOCKS_PER_PLANE : Z := 1048.
Definition PAGES_PER_BLOCK : Z := 512.
Definition CHANNEL_ENABLE_MASK : Z := 255.
Definition FLASH_PG_SHIFT : Z := 14.
Definition FLASH_PG_SIZE : Z := 2 ^ 14.
Definition FLASH_PG_OOB_SIZE : Z := 1872.
Definition SECTOR_SHIFT : Z := 12.
Definition SECTOR_SIZE : Z := 2 ^ 12.
Definition SECTORS_PER_FLASH_PG : Z := 4.
Definition FLASH_PG_BUFFER_SIZE : Z := roundup (FLASH_PG_SIZE + FLASH_PG_OOB_SIZE) 4096.
Definition NO_PPA : Z := 2 ^ 32 - 1.
Definition LSB_BITMAP : list Z :=
  [0xCCCCCCCCCCCCCDBF; 0xCCCCCCCCCCCCCCCC; 0xCCCCCCCCCCCCCCCC; 0xCCCCCCCCCCCCCCCC;
   0xCCCCCCCCCCCCCCCC; 0xCCCCCCCCCCCCCCCC; 0xCCCCCCCCCCCCCCCC; 0x6CCCCCCCCCCCCCCC].

Definition PAGES_PER_PLANE : Z := PAGES_PER_BLOCK * BLOCKS_PER_PLANE.
Definition PAGES_PER_DIE : Z := PAGES_PER_PLANE * PLANES_PER_DIE.
Definition PAGES_PER_CHIP : Z := PAGES_PER_DIE * DIES_PER_CHIP.
Definition PAGES_PER_CHANNEL : Z := PAGES_PER_CHIP * CHIPS_ENABLED_PER_CHANNEL.

(** * Addresses *)
Record flash_address := Addr {
  channel : Z; chip : Z; die : Z; plane : Z; block : Z; page : Z;
}.
#[export] Instance flash_address_eq_dec : EqDecision flash_address.
Proof. solve_decision. Defined.
#[export] Instance flash_address_countable : Countable flash_address.
Proof.
  refine (inj_countable'
    (λ a, (channel a, chip a, die a, plane a, block a, page a))
    (λ '(c, w, d, p, b, g), Addr c w d p b g) _); by intros [].
Defined.

Definition set_block (b : Z) (a : flash_address) : flash_address :=
  Addr (channel a) (chip a) (die a) (plane a) b (page a).
Definition set_page (g : Z) (a : flash_address) : flash_address :=
  Addr (channel a) (chip a) (die a) (plane a) (block a) g.

Definition ppa_to_address (ppa : Z) : flash_address :=
  let c := ppa / PAGES_PER_CHANNEL in let ppa := ppa mod PAGES_PER_CHANNEL in
  let w := ppa / PAGES_PER_CHIP in let ppa := ppa mod PAGES_PER_CHIP in
  let d := ppa / PAGES_PER_DIE in let ppa := ppa mod PAGES_PER_DIE in
  let p := ppa / PAGES_PER_PLANE in let ppa := ppa mod PAGES_PER_PLANE in
  let b := ppa / PAGES_PER_BLOCK in let ppa := ppa mod PAGES_PER_BLOCK in
  Addr c w d p b ppa.

(** [unsigned int] arithmetic, hence the wrap-around. *)
Definition address_to_ppa (a : flash_address) : Z :=
  u32 (PAGES_PER_CHIP * (CHIPS_ENABLED_PER_CHANNEL * channel a + chip a) +
       PAGES_PER_DIE * die a + PAGES_PER_PLANE * plane a +
       PAGES_PER_BLOCK * block a + page a).

(** The checks of [get_plane] and [get_block_data], and a page of a block. *)
Definition plane_ok (a : flash_address) : Prop :=
  0 ≤ channel a < NR_CHANNELS ∧ 0 ≤ chip a < CHIPS_PER_CHANNEL ∧
  0 ≤ die a < DIES_PER_CHIP ∧ 0 ≤ plane a < PLANES_PER_DIE.
Definition addr_ok (a : flash_address) : Prop :=
  plane_ok a ∧ 0 ≤ block a < BLOCKS_PER_PLANE ∧ 0 ≤ page a < PAGES_PER_BLOCK.
Definition TOTAL_PAGES : Z := PAGES_PER_CHANNEL * NR_CHANNELS.

(** * Transactions *)
Inductive txn_type := TXN_READ | TXN_WRITE | TXN_ERASE | TXN_DUMP.
Inductive txn_source := TS_USER_IO | TS_MAPPING | TS_GC.
#[export] Instance txn_type_eq_dec : EqDecision txn_type.
Proof. solve_decision. Defined.
#[export] Instance txn_source_eq_dec : EqDecision txn_source.
Proof. solve_decision. Defined.

(** * Striping *)
Inductive plane_allocate_scheme :=
  | PAS_CWDP | PAS_CWPD | PAS_CDWP | PAS_CDPW | PAS_CPWD | PAS_CPDW
  | PAS_WCDP | PAS_WCPD | PAS_WDCP | PAS_WDPC | PAS_WPCD | PAS_WPDC
  | PAS_DCWP | PAS_DCPW | PAS_DWCP | PAS_DWPC | PAS_DPCW | PAS_DPWC
  | PAS_PCWD | PAS_PCDW | PAS_PWCD | PAS_PWDC | PAS_PDCW | PAS_PDWC.

(** The coordinate an [ASSIGN_PHYS_ADDR] step sets. *)
Inductive coord := Cchannel | Cchip | Cdie | Cplane.

(** The channels whose bit is set in [CHANNEL_ENABLE_MASK]. *)
Definition enable_channels : list Z :=
  filter (λ i, Z.testbit CHANNEL_ENABLE_MASK i = true) (seqZ 0 NR_CHANNELS).
Definition num_enable_channels : Z := Z.of_nat (length enable_channels).

Definition coord_count (c : coord) : Z :=
  match c with
  | Cchannel => num_enable_channels
  | Cchip => CHIPS_ENABLED_PER_CHANNEL
  | Cdie => DIES_PER_CHIP
  | Cplane => PLANES_PER_DIE
  end.
Definition set_coord (c : coord) (v : Z) (a : flash_address) : flash_address :=
  match c with
  | Cchannel => Addr v (chip a) (die a) (plane a) (block a) (page a)
  | Cchip => Addr (channel a) v (die a) (plane a) (block a) (page a)
  | Cdie => Addr (channel a) (chip a) v (plane a) (block a) (page a)
  | Cplane => Addr (channel a) (chip a) (die a) v (block a) (page a)
  end.

Definition ASSIGN_PHYS_ADDR (c : coord) (s : Z * flash_address) : Z * flash_address :=
  let '(lpa, addr) := s in (lpa / coord_count c, set_coord c (lpa mod coord_count c) addr).
Definition ASSIGN_PLANE (first second third fourth : coord) (lpa : Z) (addr : flash_address) :
    flash_address :=
  (ASSIGN_PHYS_ADDR fourth (ASSIGN_PHYS_ADDR third
     (ASSIGN_PHYS_ADDR second (ASSIGN_PHYS_ADDR first (lpa, addr))))).2.

(** [None] is a failed assertion. *)
Definition assign_plane (pa_scheme : plane_allocate_scheme) (lpa : Z) (addr : flash_address) :
    option flash_address :=
  let assign first second third fourth := ASSIGN_PLANE first second third fourth lpa addr in
  let addr :=
    match pa_scheme with
    | PAS_CWDP => assign Cchannel Cchip Cdie Cplane
    | PAS_CWPD => assign Cchannel Cchip Cplane Cdie
    | PAS_CDWP => assign Cchannel Cdie Cchip Cplane
    | PAS_CDPW => assign Cchannel Cdie Cplane Cchip
    | PAS_CPWD => assign Cchannel Cplane Cchip Cdie
    | PAS_CPDW => assign Cchannel Cplane Cdie Cchip
    | PAS_WCDP => assign Cchip Cchannel Cdie Cplane
    | PAS_WCPD => assign Cchip Cchannel Cplane Cdie
    | PAS_WDCP => assign Cchip Cdie Cchannel Cplane
    | PAS_WDPC => assign Cchip Cdie Cplane Cchannel
    | PAS_WPCD => assign Cchip Cplane Cchannel Cdie
    | PAS_WPDC => assign Cchip Cplane Cdie Cchannel
    | PAS_DCWP => assign Cdie Cchannel Cchip Cplane
    | PAS_DCPW => assign Cdie Cchannel Cplane Cchip
    | PAS_DWCP => assign Cdie Cchip Cchannel Cplane
    | PAS_DWPC => assign Cdie Cchip Cplane Cchannel
    | PAS_DPCW => assign Cdie Cplane Cchannel Cchip
    | PAS_DPWC => assign Cdie Cplane Cchip Cchannel
    | PAS_PCWD => assign Cplane Cchannel Cchip Cdie
    | PAS_PCDW => assign Cplane Cchannel Cdie Cchip
    | PAS_PWCD => assign Cplane Cchip Cchannel Cdie
    | PAS_PWDC => assign Cplane Cchip Cdie Cchannel
    | PAS_PDCW => assign Cplane Cdie Cchannel Cchip
    | PAS_PDWC => assign Cplane Cdie Cchip Cchannel
    end in
  if negb (channel addr <? num_enable_channels) then None else
  ch ← enable_channels !! Z.to_nat (channel addr);
  let addr := set_coord Cchannel ch addr in
  if (channel addr <? NR_CHANNELS) && (chip addr <? CHIPS_PER_CHANNEL)
     && (die addr <? DIES_PER_CHIP) && (plane addr <? PLANES_PER_DIE)
  then Some addr else None.

(** * Sector bitmaps of a page *)
(** [(1UL << SECTORS_PER_FLASH_PG) - 1] *)
Definition full_page_bitmap : Z := Z.shiftl 1 SECTORS_PER_FLASH_PG - 1.

(** * The codec is a bijection between valid addresses and page numbers *)
Ltac geometry :=
  unfold TOTAL_PAGES, PAGES_PER_CHANNEL, PAGES_PER_CHIP, PAGES_PER_DIE, PAGES_PER_PLANE,
    CHIPS_ENABLED_PER_CHANNEL, NR_CHANNELS, CHIPS_PER_CHANNEL, DIES_PER_CHIP, PLANES_PER_DIE,
    BLOCKS_PER_PLANE, PAGES_PER_BLOCK in *.

Lemma address_to_ppa_bound a : addr_ok a → 0 ≤ address_to_ppa a < TOTAL_PAGES.
Proof.
  unfold addr_ok, plane_ok, address_to_ppa. geometry. intros. rewrite u32_small; lia.
Qed.
Lemma ppa_address_ppa a : addr_ok a → ppa_to_address (address_to_ppa a) = a.
Proof.
  destruct a as [c w d p b g]. unfold addr_ok, plane_ok, address_to_ppa, ppa_to_address.
  simpl. geometry. intros. rewrite u32_small by lia. f_equal; dlia.
Qed.
Lemma ppa_to_address_ok ppa : 0 ≤ ppa < TOTAL_PAGES → addr_ok (ppa_to_address ppa).
Proof.
  unfold addr_ok, plane_ok, ppa_to_address; simpl; geometry. intros. split_and!; dlia.
Qed.
Lemma address_ppa_address ppa : 0 ≤ ppa < TOTAL_PAGES → address_to_ppa (ppa_to_address ppa) = ppa.
Proof.
  intros H. pose proof (ppa_to_address_ok ppa H) as Hok. revert H Hok.
  unfold addr_ok, plane_ok, address_to_ppa, ppa_to_address; simpl; geometry. intros.
  rewrite u32_small by lia. dlia.
Qed.
Lemma address_to_ppa_inj a b : addr_ok a → addr_ok b → address_to_ppa a = address_to_ppa b → a = b.
Proof. intros Ha Hb E. rewrite <-(ppa_address_ppa a Ha), E. by apply ppa_address_ppa. Qed.
Lemma address_to_ppa_NO_PPA a : addr_ok a → address_to_ppa a ≠ NO_PPA.
Proof. intros Ha%address_to_ppa_bound. unfold NO_PPA. revert Ha. geometry. lia. Qed.

(** * Striping *)
Lemma enable_channels_eq : enable_channels = seqZ 0 NR_CHANNELS.
Proof. by vm_compute. Qed.
Lemma num_enable_channels_eq : num_enable_channels = 8.
Proof. by vm_compute. Qed.

(** Which plane a page lands on depends only on the page number modulo 64. *)
Definition stripe (s : plane_allocate_scheme) (lpa : Z) (addr : flash_address) : flash_address :=
  match s with
  | PAS_CWDP => Addr (lpa mod 8) (lpa / 8 mod 2) (lpa / 8 / 2 mod 2) (lpa / 8 / 2 / 2 mod 2)
  | PAS_CWPD => Addr (lpa mod 8) (lpa / 8 mod 2) (lpa / 8 / 2 / 2 mod 2) (lpa / 8 / 2 mod 2)
  | PAS_CDWP => Addr (lpa mod 8) (lpa / 8 / 2 mod 2) (lpa / 8 mod 2) (lpa / 8 / 2 / 2 mod 2)
  | PAS_CDPW => Addr (lpa mod 8) (lpa / 8 / 2 / 2 mod 2) (lpa / 8 mod 2) (lpa / 8 / 2 mod 2)
  | PAS_CPWD => Addr (lpa mod 8) (lpa / 8 / 2 mod 2) (lpa / 8 / 2 / 2 mod 2) (lpa / 8 mod 2)
  | PAS_CPDW => Addr (lpa mod 8) (lpa / 8 / 2 / 2 mod 2) (lpa / 8 / 2 mod 2) (lpa / 8 mod 2)
  | PAS_WCDP => Addr (lpa / 2 mod 8) (lpa mod 2) (lpa / 2 / 8 mod 2) (lpa / 2 / 8 / 2 mod 2)
  | PAS_WCPD => Addr (lpa / 2 mod 8) (lpa mod 2) (lpa / 2 / 8 / 2 mod 2) (lpa / 2 / 8 mod 2)
  | PAS_WDCP => Addr (lpa / 2 / 2 mod 8) (lpa mod 2) (lpa / 2 mod 2) (lpa / 2 / 2 / 8 mod 2)
  | PAS_WDPC => Addr (lpa / 2 / 2 / 2 mod 8) (lpa mod 2) (lpa / 2 mod 2) (lpa / 2 / 2 mod 2)
  | PAS_WPCD => Addr (lpa / 2 / 2 mod 8) (lpa mod 2) (lpa / 2 / 2 / 8 mod 2) (lpa / 2 mod 2)
  | PAS_WPDC => Addr (lpa / 2 / 2 / 2 mod 8) (lpa mod 2) (lpa / 2 / 2 mod 2) (lpa / 2 mod 2)
  | PAS_DCWP => Addr (lpa / 2 mod 8) (lpa / 2 / 8 mod 2) (lpa mod 2) (lpa / 2 / 8 / 2 mod 2)
  | PAS_DCPW => Addr (lpa / 2 mod 8) (lpa / 2 / 8 / 2 mod 2) (lpa mod 2) (lpa / 2 / 8 mod 2)
  | PAS_DWCP => Addr (lpa / 2 / 2 mod 8) (lpa / 2 mod 2) (lpa mod 2) (lpa / 2 / 2 / 8 mod 2)
  | PAS_DWPC => Addr (lpa / 2 / 2 / 2 mod 8) (lpa / 2 mod 2) (lpa mod 2) (lpa / 2 / 2 mod 2)
  | PAS_DPCW => Addr (lpa / 2 / 2 mod 8) (lpa / 2 / 2 / 8 mod 2) (lpa mod 2) (lpa / 2 mod 2)
  | PAS_DPWC => Addr (lpa / 2 / 2 / 2 mod 8) (lpa / 2 / 2 mod 2) (lpa mod 2) (lpa / 2 mod 2)
  | PAS_PCWD => Addr (lpa / 2 mod 8) (lpa / 2 / 8 mod 2) (lpa / 2 / 8 / 2 mod 2) (lpa mod 2)
  | PAS_PCDW => Addr (lpa / 2 mod 8) (lpa / 2 / 8 / 2 mod 2) (lpa / 2 / 8 mod 2) (lpa mod 2)
  | PAS_PWCD => Addr (lpa / 2 / 2 mod 8) (lpa / 2 mod 2) (lpa / 2 / 2 / 8 mod 2) (lpa mod 2)
  | PAS_PWDC => Addr (lpa / 2 / 2 / 2 mod 8) (lpa / 2 mod 2) (lpa / 2 / 2 mod 2) (lpa mod 2)
  | PAS_PDCW => Addr (lpa / 2 / 2 mod 8) (lpa / 2 / 2 / 8 mod 2) (lpa / 2 mod 2) (lpa mod 2)
  | PAS_PDWC => Addr (lpa / 2 / 2 / 2 mod 8) (lpa / 2 / 2 mod 2) (lpa / 2 mod 2) (lpa mod 2)
  end (block addr) (page addr).

Lemma assign_plane_stripe s lpa addr : assign_plane s lpa addr = Some (stripe s lpa addr).
Proof.
  unfold assign_plane.
  assert (∀ a, 0 ≤ channel a < 8 → 0 ≤ chip a < 2 → 0 ≤ die a < 2 → 0 ≤ plane a < 2 →
    (if negb (channel a <? num_enable_channels) then None else
     ch ← enable_channels !! Z.to_nat (channel a);
     let addr := set_coord Cchannel ch a in
     if (channel addr <? NR_CHANNELS) && (chip addr <? CHIPS_PER_CHANNEL)
        && (die addr <? DIES_PER_CHIP) && (plane addr <? PLANES_PER_DIE)
     then Some addr else None) = Some a) as Htail.
  { intros [c w d p b g] ????. simpl in *. rewrite num_enable_channels_eq, enable_channels_eq.
    rewrite lookup_seqZ_lt by (geometry; lia). simpl. rewrite Z2Nat.id by lia.
    geometry. by rewrite !(proj2 (Z.ltb_lt _ _)) by lia. }
  destruct s; rewrite Htail;
    unfold ASSIGN_PLANE, ASSIGN_PHYS_ADDR, coord_count, set_coord, stripe;
    rewrite ?num_enable_channels_eq; unfold CHIPS_ENABLED_PER_CHANNEL, CHIPS_PER_CHANNEL,
      DIES_PER_CHIP, PLANES_PER_DIE; simpl; try done; apply Z.mod_pos_bound; lia.
Qed.

Lemma stripe_ok s lpa addr : plane_ok (stripe s lpa addr).
Proof.
  unfold plane_ok. geometry. destruct s; simpl; split_and!; apply Z.mod_pos_bound; lia.
Qed.

Lemma stripe_block_page s lpa addr : block (stripe s lpa addr) = block addr ∧ page (stripe s lpa addr) = page addr.
Proof. by destruct s. Qed.

Lemma stripe_inj s lpa1 lpa2 addr :
  stripe s lpa1 addr = stripe s lpa2 addr ↔ lpa1 mod 64 = lpa2 mod 64.
Proof.
  split.
  - destruct s; intros [= E1 E2 E3 E4]; dlia.
  - intros E. assert (∃ k, lpa1 = lpa2 + 64 * k) as [k ->].
    { exists (lpa1 / 64 - lpa2 / 64). dlia. }
    clear E. destruct s; unfold stripe; f_equal; dlia.
Qed.

(** * Theorems *)

(** C32: the physical page number of a valid address is below the device's page
    count (so no allocated page is ever taken for [NO_PPA]) and decodes to that
    address; conversely every number below the count decodes to a valid address
    that encodes back to it.  The 32-bit sum never wraps. *)
Theorem ppa_codec :
  (∀ a, addr_ok a → 0 ≤ address_to_ppa a < TOTAL_PAGES ∧ address_to_ppa a ≠ NO_PPA ∧
        ppa_to_address (address_to_ppa a) = a) ∧
  (∀ ppa, 0 ≤ ppa < TOTAL_PAGES → addr_ok (ppa_to_address ppa) ∧
          address_to_ppa (ppa_to_address ppa) = ppa).
Proof.
  split.
  - intros a Ha. split_and!; [apply (address_to_ppa_bound a Ha)..| |by apply ppa_address_ppa].
    by apply address_to_ppa_NO_PPA.
  - intros ppa Hp. split; [by apply ppa_to_address_ok|by apply address_ppa_address].
Qed.

(** C39: under each of the 24 allocation schemes every logical page is assigned a
    plane that exists (no assertion fails), block and page are left alone, and
    two logical pages share a plane exactly when they are congruent modulo the
    64 planes: consecutive pages are striped over all planes. *)
Theorem assign_plane_stripes s addr :
  ∃ f, (∀ lpa, assign_plane s lpa addr = Some (f lpa)) ∧
  (∀ lpa, plane_ok (f lpa) ∧ block (f lpa) = block addr ∧ page (f lpa) = page addr) ∧
  (∀ lpa1 lpa2, f lpa1 = f lpa2 ↔
     lpa1 mod (NR_CHANNELS * CHIPS_PER_CHANNEL * DIES_PER_CHIP * PLANES_PER_DIE) =
     lpa2 mod (NR_CHANNELS * CHIPS_PER_CHANNEL * DIES_PER_CHIP * PLANES_PER_DIE)).
Proof.
  exists (λ lpa, stripe s lpa addr). split_and!.
  - intros lpa. apply assign_plane_stripe.
  - intros lpa. split; [apply stripe_ok|apply stripe_block_page].
  - intros. apply stripe_inj.
Qed.
