(* ===== verification/Machine.v ===== *)
(** The platform under the FTL and the calls that reach it: the flash interface
    layer and the ECC engine behind their task queues, the FatFs volume, the page
    allocator, and from main.c/amu.c [submit_flash_transaction],
    [submit_ecc_task] and [amu_submit_transaction].

    The devices are a typeclass: operations of an abstract device state, whose
    laws (a separate class) are what their documentation promises.  Memory is a
    store of page buffers so that two owners of one buffer see each other's
    writes. *)
From S2P Require Import Prelude Flash.

(** * Buffers

    A sector is the list of its 1024 32-bit words; a page buffer has the four
    sectors of a flash page followed by the spare area that receives ECC codes. *)
Definition sector := list Z.
Record buf := Buf { b_data : list sector; b_oob : list Z }.

(** * Tasks exchanged with the other processors (include/fil.h, include/ecc.h) *)
Record fil_task := FilTask {
  ft_type : txn_type; ft_source : txn_source; ft_addr : flash_address;
  ft_offset : Z; ft_length : Z; ft_code_length : Z;
}.
Record fil_reply := FilReply {
  fr_timeout : bool;        (* worker_wait_timeout returned ETIMEDOUT *)
  fr_status : Z;            (* FTS_OK = 0, FTS_ERROR = 1 *)
  fr_buf : option buf;      (* the data buffer afterwards, when there is one *)
  fr_err_bitmap : Z;
  fr_xfer_us : Z; fr_exec_us : Z;
}.
Definition FTS_ERROR : Z := 1.

Inductive ecc_type := ECT_CALC | ECT_CORRECT.
Inductive ecc_status := ETS_OK | ETS_DEC_ERROR | ETS_NOSPC | ETS_NOTSUPPORTED | ETS_IO_ERROR.
Record ecc_task := EccTask {
  et_type : ecc_type; et_length : Z; et_code_length : Z; et_err_bitmap : Z;
}.
Record ecc_reply := EccReply {
  er_timeout : bool; er_status : ecc_status; er_code_length : Z; er_buf : buf;
}.

(** FatFs: open modes, and the two results of [f_stat] that callers tell apart. *)
Inductive fmode := FA_READ | FA_CREATE_WRITE.
Inductive fstat := FR_OK | FR_NO_FILE | FR_ERR.
#[export] Instance fstat_eq_dec : EqDecision fstat.
Proof. solve_decision. Defined.

Class Platform := {
  dev : Type;
  dev_fil : fil_task → option buf → dev → fil_reply * dev;
  dev_ecc : ecc_task → buf → dev → ecc_reply * dev;
  (** A DMA transfer of sectors: the error flag of the channel and what the
      destinations hold afterwards. *)
  dev_dma : list sector → dev → bool * list sector * dev;
  (** The page stored at an address: [None] while it is erased. *)
  nand : dev → flash_address → option (list sector);

  (** The allocator: whether the [n]-th request succeeds, and what a fresh
      buffer contains. *)
  alloc_ok : Z → bool;
  junk : Z → buf;
  (** The words of a fresh region that is not a page buffer. *)
  junk_words : Z → Z → list Z;

  fs : Type;
  FIL : Type;
  (** File contents are sequences of machine words. *)
  contents : fs → string → option (list Z);
  fil_at : FIL → string → Z → Prop;
  f_open : string → fmode → fs → option FIL * fs;
  f_lseek : FIL → Z → fs → bool * FIL * fs;
  f_write : FIL → list Z → fs → bool * Z * FIL * fs;
  f_read : FIL → Z → fs → bool * list Z * FIL * fs;
  f_close : FIL → fs → bool * fs;
  f_stat : string → fs → fstat;
  f_unlink : string → fs → fs;
}.

(** Sector [i] lies in the byte range of a task. *)
Definition in_range (offset length i : Z) : Prop :=
  offset ≤ i * SECTOR_SIZE ∧ (i + 1) * SECTOR_SIZE ≤ offset + length.

Class PlatformOk `{Platform} : Prop := {
  (** Operations on one page leave all others alone; reads leave all alone. *)
  fil_frame : ∀ t b d r d' a,
    dev_fil t b d = (r, d') → ft_type t ≠ TXN_ERASE →
    (ft_type t = TXN_WRITE → a ≠ ft_addr t) → nand d' a = nand d a;
  (** A successful read without flagged ECC blocks delivers the stored sectors. *)
  fil_read : ∀ t b d r d' p,
    dev_fil t (Some b) d = (r, d') → ft_type t = TXN_READ → 0 < ft_code_length t →
    length (b_data b) = 4%nat → nand d (ft_addr t) = Some p → fr_timeout r = false → fr_status r ≠ FTS_ERROR →
    fr_err_bitmap r = 0 →
    ∃ b', fr_buf r = Some b' ∧ length (b_data b') = 4%nat ∧
      ∀ i, 0 ≤ i < 4 → in_range (ft_offset t) (ft_length t) i →
        b_data b' !! Z.to_nat i = p !! Z.to_nat i;
  (** Flagged blocks are repaired by a successful correction. *)
  fil_read_ecc : ∀ t b d r d' p e b' re d'',
    dev_fil t (Some b) d = (r, d') → ft_type t = TXN_READ → 0 < ft_code_length t →
    length (b_data b) = 4%nat → nand d (ft_addr t) = Some p → fr_timeout r = false → fr_status r ≠ FTS_ERROR →
    fr_buf r = Some b' → et_type e = ECT_CORRECT → et_err_bitmap e = fr_err_bitmap r →
    dev_ecc e b' d' = (re, d'') → er_timeout re = false → er_status re = ETS_OK →
    length (b_data (er_buf re)) = 4%nat ∧
    ∀ i, 0 ≤ i < 4 → in_range (ft_offset t) (ft_length t) i →
      b_data (er_buf re) !! Z.to_nat i = p !! Z.to_nat i;
  ecc_frame : ∀ e b d r d', dev_ecc e b d = (r, d') → nand d' = nand d;
  (** A task that carries a buffer gives it back. *)
  fil_buf : ∀ t b d r d', dev_fil t b d = (r, d') → is_Some (fr_buf r) ↔ is_Some b;
  fil_buf_len : ∀ t b d r d' b',
    dev_fil t (Some b) d = (r, d') → fr_buf r = Some b' →
    length (b_data b) = 4%nat → length (b_data b') = 4%nat;
  ecc_buf_len : ∀ e b d r d', dev_ecc e b d = (r, d') →
    length (b_data b) = 4%nat → length (b_data (er_buf r)) = 4%nat;
  (** A successful program of an erased page stores the sectors of its range and
      does not touch the buffer. *)
  fil_write : ∀ t b d r d',
    dev_fil t (Some b) d = (r, d') → ft_type t = TXN_WRITE → length (b_data b) = 4%nat →
    nand d (ft_addr t) = None → fr_timeout r = false → fr_status r ≠ FTS_ERROR →
    fr_buf r = Some b ∧
    ∃ p, nand d' (ft_addr t) = Some p ∧ length p = 4%nat ∧
      ∀ i, 0 ≤ i < 4 → in_range (ft_offset t) (ft_length t) i →
        p !! Z.to_nat i = b_data b !! Z.to_nat i;
  (** An erase only concerns its block, and clears it when it succeeds. *)
  fil_erase : ∀ t b d r d' a,
    dev_fil t b d = (r, d') → ft_type t = TXN_ERASE →
    if decide (set_page 0 a = set_page 0 (ft_addr t))
    then fr_timeout r = false → fr_status r ≠ FTS_ERROR → nand d' a = None
    else nand d' a = nand d a;
  junk_len : ∀ n, length (b_data (junk n)) = 4%nat;
  junk_words_len : ∀ n k, length (junk_words n k) = Z.to_nat k;
  dma_frame : ∀ l d e l' d', dev_dma l d = (e, l', d') → nand d' = nand d;
  dma_len : ∀ l d e l' d', dev_dma l d = (e, l', d') → length l' = length l;
  dma_copy : ∀ l d l' d', dev_dma l d = (false, l', d') → l' = l;

  f_open_read_ok : ∀ n s f s', f_open n FA_READ s = (Some f, s') →
    fil_at f n 0 ∧ is_Some (contents s n) ∧ contents s' = contents s;
  f_open_create_ok : ∀ n s f s', f_open n FA_CREATE_WRITE s = (Some f, s') →
    fil_at f n 0 ∧ contents s' n = Some [] ∧ (∀ m, m ≠ n → contents s' m = contents s m);
  f_lseek_ok : ∀ f n pos ofs s f' s', fil_at f n pos → f_lseek f ofs s = (true, f', s') →
    fil_at f' n ofs ∧ contents s' = contents s;
  f_write_ok : ∀ f n pos c ws s f' s', fil_at f n pos → contents s n = Some c →
    pos = Z.of_nat (length c) → f_write f ws s = (true, Z.of_nat (length ws), f', s') →
    fil_at f' n (pos + Z.of_nat (length ws)) ∧ contents s' n = Some (c ++ ws) ∧
    (∀ m, m ≠ n → contents s' m = contents s m);
  f_read_ok : ∀ f n pos c k s ws f' s', fil_at f n pos → 0 ≤ pos → contents s n = Some c →
    f_read f k s = (true, ws, f', s') →
    ws = take (Z.to_nat k) (drop (Z.to_nat pos) c) ∧
    fil_at f' n (pos + Z.of_nat (length ws)) ∧ contents s' = contents s;
  f_close_ok : ∀ f s s', f_close f s = (true, s') → contents s' = contents s;
  f_stat_ok : ∀ n s, f_stat n s = FR_OK → is_Some (contents s n);
  f_stat_none : ∀ n s, f_stat n s = FR_NO_FILE → contents s n = None;
  f_unlink_other : ∀ n m s, m ≠ n → contents (f_unlink n s) m = contents s m;
}.

(** The ECC engine answers within the 3 s that [submit_ecc_task] waits. *)
Class EccLive `{Platform} : Prop :=
  ecc_live : ∀ e b d r d', dev_ecc e b d = (r, d') → er_timeout r = false.

(** Memory does not run out. *)
Class AllocLive `{Platform} : Prop := alloc_live : ∀ n, alloc_ok n = true.
(** Programmed pages stay readable: reads complete and their bit errors are
    within what the code corrects. *)
Class ReadLive `{Platform} : Prop := {
  read_live : ∀ t b d r d', dev_fil t (Some b) d = (r, d') → ft_type t = TXN_READ →
    is_Some (nand d (ft_addr t)) → fr_timeout r = false ∧ fr_status r ≠ FTS_ERROR;
  correct_live : ∀ e b d r d', dev_ecc e b d = (r, d') → et_type e = ECT_CORRECT → er_status r = ETS_OK;
}.

(** Erased pages can be programmed. *)
Class WriteLive `{Platform} : Prop := write_live : ∀ t b d r d',
  dev_fil t (Some b) d = (r, d') → ft_type t = TXN_WRITE → nand d (ft_addr t) = None →
  fr_timeout r = false ∧ fr_status r ≠ FTS_ERROR.
(** The DMA engine does not fail. *)
Class DmaLive `{Platform} : Prop := dma_live : ∀ l d e l' d', dev_dma l d = (e, l', d') → e = false.
(** The volume does not fail. *)
Class FsLive `{Platform} : Prop := {
  create_live : ∀ n s, is_Some (f_open n FA_CREATE_WRITE s).1;
  open_live : ∀ n s, is_Some (contents s n) → is_Some (f_open n FA_READ s).1 ∧ f_stat n s = FR_OK;
  lseek_live : ∀ f s, (f_lseek f 0 s).1.1 = true;
  fwrite_live : ∀ f ws s, (f_write f ws s).1.1 = (true, Z.of_nat (length ws));
  fread_live : ∀ f k s, (f_read f k s).1.1.1 = true;
  fclose_live : ∀ f s, (f_close f s).1 = true;
}.

(** * Per-request statistics (types.h) *)
Record user_request_stats := ReqStats {
  total_flash_read_txns : Z; total_flash_write_txns : Z;
  total_flash_read_bytes : Z; total_flash_write_bytes : Z;
  ecc_error_blocks : Z;
  flash_read_transfer_us : Z; flash_write_transfer_us : Z;
  flash_read_command_us : Z; flash_write_command_us : Z;
}.
Definition zero_stats : user_request_stats := ReqStats 0 0 0 0 0 0 0 0 0.

(** * Transactions (flash.h)

    Pointers are identifiers, 0 is NULL.  [t_req] says whether [txn->req] is set;
    the request it points to is the one being processed, whose statistics are in
    the machine state. *)
Record flash_transaction := Txn {
  t_req : bool;
  t_type : txn_type;
  t_source : txn_source;
  t_nsid : Z;
  t_lpa : Z;
  t_ppa : Z;
  t_addr : flash_address;
  t_bitmap : Z;
  t_ppa_ready : bool;
  t_opaque : Z;
  t_data : Z;
  t_offset : Z;
  t_length : Z;
  t_code_length : Z;
  t_err_bitmap : Z;
  t_xfer_us : Z;
  t_exec_us : Z;
}.
Definition zero_addr : flash_address := Addr 0 0 0 0 0 0.
(** [memset] of the whole transaction to 0. *)
Definition flash_transaction_init : flash_transaction :=
  Txn false TXN_READ TS_USER_IO 0 0 0 zero_addr 0 false 0 0 0 0 0 0 0 0.

Definition set_t_addr (a : flash_address) (t : flash_transaction) : flash_transaction :=
  Txn (t_req t) (t_type t) (t_source t) (t_nsid t) (t_lpa t) (t_ppa t) a (t_bitmap t)
    (t_ppa_ready t) (t_opaque t) (t_data t) (t_offset t) (t_length t) (t_code_length t)
    (t_err_bitmap t) (t_xfer_us t) (t_exec_us t).
Definition set_t_ppa (p : Z) (t : flash_transaction) : flash_transaction :=
  Txn (t_req t) (t_type t) (t_source t) (t_nsid t) (t_lpa t) p (t_addr t) (t_bitmap t)
    (t_ppa_ready t) (t_opaque t) (t_data t) (t_offset t) (t_length t) (t_code_length t)
    (t_err_bitmap t) (t_xfer_us t) (t_exec_us t).
Definition set_t_range (bitmap offset length : Z) (t : flash_transaction) : flash_transaction :=
  Txn (t_req t) (t_type t) (t_source t) (t_nsid t) (t_lpa t) (t_ppa t) (t_addr t) bitmap
    (t_ppa_ready t) (t_opaque t) (t_data t) offset length (t_code_length t)
    (t_err_bitmap t) (t_xfer_us t) (t_exec_us t).
Definition set_t_ready (b : bool) (t : flash_transaction) : flash_transaction :=
  Txn (t_req t) (t_type t) (t_source t) (t_nsid t) (t_lpa t) (t_ppa t) (t_addr t) (t_bitmap t)
    b (t_opaque t) (t_data t) (t_offset t) (t_length t) (t_code_length t)
    (t_err_bitmap t) (t_xfer_us t) (t_exec_us t).
Definition set_t_data (data opaque : Z) (t : flash_transaction) : flash_transaction :=
  Txn (t_req t) (t_type t) (t_source t) (t_nsid t) (t_lpa t) (t_ppa t) (t_addr t) (t_bitmap t)
    (t_ppa_ready t) opaque data (t_offset t) (t_length t) (t_code_length t)
    (t_err_bitmap t) (t_xfer_us t) (t_exec_us t).
Definition set_t_code_length (n : Z) (t : flash_transaction) : flash_transaction :=
  Txn (t_req t) (t_type t) (t_source t) (t_nsid t) (t_lpa t) (t_ppa t) (t_addr t) (t_bitmap t)
    (t_ppa_ready t) (t_opaque t) (t_data t) (t_offset t) (t_length t) n
    (t_err_bitmap t) (t_xfer_us t) (t_exec_us t).
Definition set_t_result (err xfer exec : Z) (t : flash_transaction) : flash_transaction :=
  Txn (t_req t) (t_type t) (t_source t) (t_nsid t) (t_lpa t) (t_ppa t) (t_addr t) (t_bitmap t)
    (t_ppa_ready t) (t_opaque t) (t_data t) (t_offset t) (t_length t) (t_code_length t)
    err xfer exec.

(** * The machine state *)
Record mach `{Platform} := Mach {
  m_dev : dev;
  m_mem : gmap Z buf;
  m_next : Z;             (* next buffer identifier; also counts allocations *)
  m_fs : fs;
  m_stats : user_request_stats;
}.

Section machine.
Context `{Platform}.

Definition set_dev (d : dev) (m : mach) : mach :=
  Mach _ d (m_mem m) (m_next m) (m_fs m) (m_stats m).
Definition set_mem (mm : gmap Z buf) (m : mach) : mach :=
  Mach _ (m_dev m) mm (m_next m) (m_fs m) (m_stats m).
Definition set_fs (f : fs) (m : mach) : mach :=
  Mach _ (m_dev m) (m_mem m) (m_next m) f (m_stats m).
Definition set_stats (s : user_request_stats) (m : mach) : mach :=
  Mach _ (m_dev m) (m_mem m) (m_next m) (m_fs m) s.

(** Page allocation: a fresh buffer, or NULL. *)
Definition alloc_vmpages : ST mach Z := λ m,
  let id := m_next m in
  if alloc_ok id then
    Some (id, Mach _ (m_dev m) (<[id := junk id]> (m_mem m)) (id + 1) (m_fs m) (m_stats m))
  else Some (0, Mach _ (m_dev m) (m_mem m) (id + 1) (m_fs m) (m_stats m)).
(** [SLABALLOC] of an object that is not a page buffer: only whether it
    succeeds, and a fresh identifier. *)
Definition slaballoc : ST mach Z := λ m,
  let id := m_next m in
  Some (if alloc_ok id then id else 0,
        Mach _ (m_dev m) (m_mem m) (id + 1) (m_fs m) (m_stats m)).
(** Allocation of a region of [k] words that one structure owns: the structure
    holds its contents. *)
Definition alloc_words (k : Z) : ST mach (Z * list Z) := λ m,
  let id := m_next m in
  Some (if alloc_ok id then (id, junk_words id k) else (0, []),
        Mach _ (m_dev m) (m_mem m) (id + 1) (m_fs m) (m_stats m)).
(** Releasing a buffer that is not allocated is an error. *)
Definition free_mem (id : Z) : ST mach unit :=
  m ← get; deref (m_mem m !! id) ≫= λ _, modify (λ m, set_mem (delete id (m_mem m)) m).
Definition load (id : Z) : ST mach buf := gets m_mem ≫= λ mm, deref (mm !! id).
Definition store (id : Z) (b : buf) : ST mach unit :=
  load id ≫= λ _, modify (λ m, set_mem (<[id := b]> (m_mem m)) m).

(** Hand a task to the flash interface layer; the device owns the buffer
    until it completes. *)
Definition run_fil_task (task : fil_task) (data : Z) : ST mach fil_reply :=
  m ← get;
  b ← (if data =? 0 then mret None else load data ≫= λ b, mret (Some b));
  let '(r, d) := dev_fil task b (m_dev m) in
  modify (set_dev d) ≫= λ _,
  match fr_buf r with
  | Some b' => store data b' ≫= λ _, mret r
  | None => mret r
  end.

Definition dump_fil : ST mach unit :=
  run_fil_task (FilTask TXN_DUMP TS_USER_IO zero_addr 0 0 0) 0 ≫= λ _, mret tt.

(** main.c: [submit_flash_transaction] *)
Definition submit_flash_transaction (txn : flash_transaction) : ST mach (rc * flash_transaction) :=
  assert (bool_decide (t_type txn = TXN_ERASE) || (0 <? t_length txn)) ≫= λ _,
  rep ← run_fil_task (FilTask (t_type txn) (t_source txn) (t_addr txn) (t_offset txn)
                        (t_length txn) (t_code_length txn)) (t_data txn);
  if fr_timeout rep then dump_fil ≫= λ _, mret (Err ETIMEDOUT, txn)
  else mret (if fr_status rep =? FTS_ERROR then Err EIO else R0,
             set_t_result (fr_err_bitmap rep) (fr_xfer_us rep) (fr_exec_us rep) txn).

(** The signed result of [submit_ecc_task]: a length, a positive errno (the
    timeout of [worker_wait_timeout]) or a negated errno. *)
Inductive sret := SLen (n : Z) | SPos (e : errno) | SNeg (e : errno).

(** main.c: [submit_ecc_task] *)
Definition submit_ecc_task (task : ecc_task) (data : Z) : ST mach sret :=
  m ← get;
  b ← load data;
  let '(r, d) := dev_ecc task b (m_dev m) in
  modify (set_dev d) ≫= λ _, store data (er_buf r) ≫= λ _,
  mret (if er_timeout r then SPos ETIMEDOUT
        else match er_status r with
             | ETS_OK => SLen (er_code_length r)
             | ETS_NOSPC => SNeg ENOMEM
             | ETS_DEC_ERROR => SNeg EBADMSG
             | ETS_NOTSUPPORTED => SNeg ENOSYS
             | ETS_IO_ERROR => SNeg EIO
             end).
Definition ecc_calculate (data data_length code_length : Z) : ST mach sret :=
  submit_ecc_task (EccTask ECT_CALC data_length code_length 0) data.
Definition ecc_correct (data data_length code_length err_bitmap : Z) : ST mach sret :=
  submit_ecc_task (EccTask ECT_CORRECT data_length code_length err_bitmap) data.

(** zdma.c: [zdma_iter_copy_to] of a page buffer, from sector [from] on, to an
    iterator of sector-sized segments, [None] being a NULL [iov_base]: one descriptor per
    segment with a base (four at most, so a single batch), and the negated
    errno of a channel error.  The buffers are larger than
    [ZDMA_SIZE_THRESHOLD], so the memcpy path is not taken. *)
Definition store_sector (dst : Z * nat) (sec : sector) : ST mach unit :=
  b ← load dst.1;
  assert (Nat.ltb dst.2 (length (b_data b))) ≫= λ _,
  store dst.1 (Buf (<[dst.2 := sec]> (b_data b)) (b_oob b)).
Definition zdma_iter_copy_to (iov : list (option (Z * nat))) (buf : Z) (from : nat) : ST mach rc :=
  b ← load buf;
  let descs := omap (λ p, (λ dst, (dst, p.1)) <$> p.2) (zip (drop from (b_data b)) iov) in
  match descs with
  | [] => mret R0
  | _ =>
      m ← get;
      let '(error, out, d) := dev_dma (snd <$> descs) (m_dev m) in
      modify (set_dev d) ≫= λ _,
      for_each (zip (fst <$> descs) out) (λ p, store_sector p.1 p.2) ≫= λ _,
      mret (if error : bool then Err EIO else R0)
  end.

(** FatFs calls on the machine's volume. *)
Definition fat_open (n : string) (mode : fmode) : ST mach (option FIL) := λ m,
  let '(f, s) := f_open n mode (m_fs m) in Some (f, set_fs s m).
Definition fat_lseek (f : FIL) (ofs : Z) : ST mach (bool * FIL) := λ m,
  let '(ok, f, s) := f_lseek f ofs (m_fs m) in Some ((ok, f), set_fs s m).
Definition fat_write (f : FIL) (ws : list Z) : ST mach (bool * Z * FIL) := λ m,
  let '(ok, bw, f, s) := f_write f ws (m_fs m) in Some ((ok, bw, f), set_fs s m).
Definition fat_read (f : FIL) (n : Z) : ST mach (bool * list Z * FIL) := λ m,
  let '(ok, ws, f, s) := f_read f n (m_fs m) in Some ((ok, ws, f), set_fs s m).
Definition fat_close (f : FIL) : ST mach bool := λ m,
  let '(ok, s) := f_close f (m_fs m) in Some (ok, set_fs s m).
(** The recurring checks: a call failed or transferred less than asked for. *)
Definition fat_write_all (f : FIL) (ws : list Z) : ST mach (rc * FIL) :=
  '(ok, bw, f) ← fat_write f ws;
  mret (if negb ok || negb (bw =? Z.of_nat (length ws)) then Err EIO else R0, f).
Definition fat_read_all (f : FIL) (n : Z) : ST mach (rc * list Z * FIL) :=
  '(ok, ws, f) ← fat_read f n;
  mret (if negb ok || negb (Z.of_nat (length ws) =? n) then Err EIO else R0, ws, f).
Definition fat_close_rc (f : FIL) : ST mach rc :=
  ok ← fat_close f; mret (if (ok : bool) then R0 else Err EIO).
(** [f_open] followed by [f_lseek] to 0. *)
Definition fat_open_start (n : string) (mode : fmode) : ST mach (option FIL) :=
  fo ← fat_open n mode;
  match fo with
  | None => mret None
  | Some f => '(ok, f) ← fat_lseek f 0; mret (if (ok : bool) then Some f else None)
  end.
Definition fat_stat (n : string) : ST mach fstat := gets (λ m, f_stat n (m_fs m)).
Definition fat_unlink (n : string) : ST mach unit :=
  modify (λ m, set_fs (f_unlink n (m_fs m)) m).

Definition popcount (x : Z) : Z :=
  Z.of_nat (length (filter (λ i, Z.testbit x i = true) (seqZ 0 64))).

(** The statistics update of [amu_submit_transaction]. *)
Definition account (txn : flash_transaction) (s : user_request_stats) : user_request_stats :=
  match t_type txn with
  | TXN_READ =>
      ReqStats (u32 (total_flash_read_txns s + 1)) (total_flash_write_txns s)
        (u32 (total_flash_read_bytes s + (t_length txn + t_code_length txn)))
        (total_flash_write_bytes s) (ecc_error_blocks s)
        (u32 (flash_read_transfer_us s + t_xfer_us txn)) (flash_write_transfer_us s)
        (u32 (flash_read_command_us s + t_exec_us txn)) (flash_write_command_us s)
  | TXN_WRITE =>
      ReqStats (total_flash_read_txns s) (u32 (total_flash_write_txns s + 1))
        (total_flash_read_bytes s) (u32 (total_flash_write_bytes s + t_length txn))
        (ecc_error_blocks s)
        (flash_read_transfer_us s) (u32 (flash_write_transfer_us s + t_xfer_us txn))
        (flash_read_command_us s) (u32 (flash_write_command_us s + t_exec_us txn))
  | _ => s
  end.
Definition account_ecc (n : Z) (s : user_request_stats) : user_request_stats :=
  ReqStats (total_flash_read_txns s) (total_flash_write_txns s)
    (total_flash_read_bytes s) (total_flash_write_bytes s) (u32 (ecc_error_blocks s + n))
    (flash_read_transfer_us s) (flash_write_transfer_us s)
    (flash_read_command_us s) (flash_write_command_us s).

(** amu.c: [amu_submit_transaction] *)
Definition amu_submit_transaction (txn : flash_transaction) : ST mach (rc * flash_transaction) :=
  let is_read := bool_decide (t_type txn = TXN_READ) in
  let txn := if is_read && negb (t_data txn =? 0)
             then set_t_code_length FLASH_PG_OOB_SIZE txn else txn in
  '(r, txn) ← submit_flash_transaction txn;
  match r with
  | Err _ => mret (r, txn)
  | R0 =>
      do_if (t_req txn) (modify (λ m, set_stats (account txn (m_stats m)) m)) ≫= λ _,
      if is_read && negb (t_err_bitmap txn =? 0) then
        do_if (t_req txn)
          (modify (λ m, set_stats (account_ecc (popcount (t_err_bitmap txn)) (m_stats m)) m)) ≫= λ _,
        r ← ecc_correct (t_data txn) FLASH_PG_SIZE FLASH_PG_OOB_SIZE (t_err_bitmap txn);
        match r with
        | SNeg e => mret (Err e, txn)
        | SLen _ | SPos _ => mret (R0, txn)
        end
      else mret (R0, txn)
  end.
End machine.

(** * What a page operation does to the machine *)
Section machine_facts.
Context {PL : Platform} {PO : @PlatformOk PL}.

(** The buffer [b] and the page [p] agree on the sectors of a byte range. *)
Definition agree (offset length : Z) (b p : list sector) : Prop :=
  ∀ i, 0 ≤ i < 4 → in_range offset length i → b !! Z.to_nat i = p !! Z.to_nat i.

(** A transaction after submission: only its result fields have changed. *)
Definition same_txn (t t' : flash_transaction) : Prop :=
  ∃ c e x y, t' = set_t_result e x y (set_t_code_length c t).

Lemma same_txn_refl t : same_txn t t.
Proof using Type. exists (t_code_length t), (t_err_bitmap t), (t_xfer_us t), (t_exec_us t). by destruct t. Qed.
Lemma same_txn_code c t : same_txn t (set_t_code_length c t).
Proof using Type. exists c, (t_err_bitmap t), (t_xfer_us t), (t_exec_us t). by destruct t. Qed.
Lemma same_txn_result e x y t t' : same_txn t t' → same_txn t (set_t_result e x y t').
Proof using Type. intros (c & ? & ? & ? & ->). by exists c, e, x, y. Qed.
Hint Resolve same_txn_refl same_txn_code same_txn_result : soda.

Lemma wp_free_mem id (Q : () → mach → Prop) m :
  is_Some (m_mem m !! id) → Q tt (set_mem (delete id (m_mem m)) m) → wp (free_mem id) Q m.
Proof using Type.
  intros [b Hb] HQ. unfold free_mem. wp_steps. apply wp_deref. eauto.
Qed.
Lemma wp_load id b (Q : buf → mach → Prop) m :
  m_mem m !! id = Some b → Q b m → wp (load id) Q m.
Proof using Type. intros Hb HQ. unfold load. wp_steps. apply wp_deref. eauto. Qed.
Lemma wp_store id b b' (Q : () → mach → Prop) m :
  m_mem m !! id = Some b → Q tt (set_mem (<[id := b']> (m_mem m)) m) → wp (store id b') Q m.
Proof using Type.
  intros Hb HQ. unfold store. wp_steps. eapply wp_load; [done|]. by wp_steps.
Qed.

Lemma wp_run_fil t data b (Q : fil_reply → mach → Prop) m :
  data ≠ 0 → m_mem m !! data = Some b →
  (∀ r d b', dev_fil t (Some b) (m_dev m) = (r, d) → fr_buf r = Some b' →
     Q r (set_mem (<[data := b']> (m_mem m)) (set_dev d m))) →
  wp (run_fil_task t data) Q m.
Proof using All.
  intros Hd Hb HQ. unfold run_fil_task. wp_steps.
  rewrite (proj2 (Z.eqb_neq _ _) Hd). wp_steps. eapply wp_load; [done|]. wp_steps.
  destruct (dev_fil t (Some b) (m_dev m)) as [r d] eqn:E. wp_steps.
  destruct (fil_buf _ _ _ _ _ E) as [_ Hs]. destruct (Hs ltac:(by eexists)) as [b' Eb].
  rewrite Eb. wp_steps. eapply wp_store; [done|]. wp_steps. by eapply HQ.
Qed.
Lemma wp_dump (Q : () → mach → Prop) m :
  (∀ d, (∀ a, nand d a = nand (m_dev m) a) → Q tt (set_dev d m)) → wp dump_fil Q m.
Proof using All.
  intros HQ. unfold dump_fil, run_fil_task. wp_steps. simpl. wp_steps.
  destruct (dev_fil _ None (m_dev m)) as [r d] eqn:E. wp_steps.
  destruct (fr_buf r) as [b'|] eqn:Eb.
  - destruct (fil_buf _ _ _ _ _ E) as [Hs _]. by destruct (Hs ltac:(rewrite Eb; by eexists)).
  - wp_steps. apply HQ. intros a. by eapply fil_frame.
Qed.

Lemma wp_stats c f (Q : () → mach → Prop) m :
  (∀ s, Q tt (set_stats s m)) → wp (do_if c (modify (λ m, set_stats (f (m_stats m)) m))) Q m.
Proof using Type.
  intros HQ. wp_steps. destruct c; wp_steps; [done|]. specialize (HQ (m_stats m)). by destruct m.
Qed.

Lemma wp_submit_flash txn b (Q : rc * flash_transaction → mach → Prop) m :
  0 < t_length txn → t_data txn ≠ 0 → m_mem m !! t_data txn = Some b →
  (∀ rep d d2 b',
     dev_fil (FilTask (t_type txn) (t_source txn) (t_addr txn) (t_offset txn)
                (t_length txn) (t_code_length txn)) (Some b) (m_dev m) = (rep, d) →
     fr_buf rep = Some b' → (∀ a, nand d2 a = nand d a) → (fr_timeout rep = false → d2 = d) →
     Q (if fr_timeout rep then (Err ETIMEDOUT, txn)
        else (if fr_status rep =? FTS_ERROR then Err EIO else R0,
              set_t_result (fr_err_bitmap rep) (fr_xfer_us rep) (fr_exec_us rep) txn))
       (set_dev d2 (set_mem (<[t_data txn := b']> (m_mem m)) m))) →
  wp (submit_flash_transaction txn) Q m.
Proof using All.
  intros Hl Hd Hb HQ. unfold submit_flash_transaction. wp_steps.
  { rewrite (proj2 (Z.ltb_lt _ _) Hl). apply orb_true_r. }
  eapply wp_run_fil; [done..|]. intros r d b' E Eb. destruct (fr_timeout r) eqn:Et.
  - wp_steps. apply wp_dump. intros d2 Hd2. wp_steps.
    specialize (HQ r d d2 b' E Eb Hd2 ltac:(congruence)). by rewrite Et in HQ.
  - wp_steps. specialize (HQ r d d b' E Eb ltac:(done) ltac:(done)). by rewrite Et in HQ.
Qed.

(** The outcome of [amu_submit_transaction] on a read or write of a buffer with
    content [b] before and [b'] after: the other pages, the files, the other
    buffers and the allocation state are untouched, and on success the transfer
    happened. *)
Record page_op (txn : flash_transaction) (b b' : buf) (m : mach)
    (r : rc) (txn' : flash_transaction) (m' : mach) : Prop := PageOp {
  po_txn : same_txn txn txn';
  po_fs : m_fs m' = m_fs m;
  po_next : m_next m' = m_next m;
  po_mem : m_mem m' = <[t_data txn := b']> (m_mem m);
  po_len : length (b_data b') = 4%nat;
  po_other : ∀ a, (t_type txn = TXN_WRITE → a ≠ t_addr txn) →
    nand (m_dev m') a = nand (m_dev m) a;
  po_read : t_type txn = TXN_READ → r = R0 → ∀ p, nand (m_dev m) (t_addr txn) = Some p →
    agree (t_offset txn) (t_length txn) (b_data b') p;
  po_write : t_type txn = TXN_WRITE → r = R0 → nand (m_dev m) (t_addr txn) = None →
    b' = b ∧ ∃ p, nand (m_dev m') (t_addr txn) = Some p ∧ length p = 4%nat ∧
      agree (t_offset txn) (t_length txn) p (b_data b);
}.

(** ** Files *)
(** A call that fails, fails on a volume that does not work. *)
Lemma wp_fat_create n (Q : option FIL → mach → Prop) m :
  (∀ f, ¬ FsLive → Q None (set_fs f m)) →
  (∀ h f, fil_at h n 0 → contents f n = Some [] → (∀ n', n' ≠ n → contents f n' = contents (m_fs m) n') →
     Q (Some h) (set_fs f m)) →
  wp (fat_open n FA_CREATE_WRITE) Q m.
Proof using All.
  intros H0 H1. unfold wp, fat_open. destruct (f_open n FA_CREATE_WRITE (m_fs m)) as [[h|] f] eqn:E.
  - apply f_open_create_ok in E as (Hh & Hc & Ho). by apply H1.
  - apply H0. intros [Hl _ _ _ _ _]. destruct (Hl n (m_fs m)) as [? Hs]. by rewrite E in Hs.
Qed.
Lemma wp_open_create n (Q : option FIL → mach → Prop) m :
  (∀ f, ¬ FsLive → Q None (set_fs f m)) →
  (∀ h f, fil_at h n 0 → contents f n = Some [] → (∀ n', n' ≠ n → contents f n' = contents (m_fs m) n') →
     Q (Some h) (set_fs f m)) →
  wp (fat_open_start n FA_CREATE_WRITE) Q m.
Proof using All.
  intros H0 H1. unfold fat_open_start. wp_steps. apply wp_fat_create; [intros f Hl; wp_steps; by apply H0|].
  intros h f Hh Hc Ho. wp_steps. unfold wp at 1, fat_lseek. simpl.
  destruct (f_lseek h 0 f) as [[[] h'] f'] eqn:E2; simpl.
  2:{ wp_steps. apply H0. intros [_ _ Hl _ _ _]. specialize (Hl h f). by rewrite E2 in Hl. }
  destruct (f_lseek_ok _ _ _ _ _ _ _ Hh E2) as [? Ec]. wp_steps. apply H1; [done|by rewrite Ec|].
  intros n' Hn. rewrite Ec. by apply Ho.
Qed.
Lemma wp_open_read n (Q : option FIL → mach → Prop) m :
  (∀ f, ¬ (FsLive ∧ is_Some (contents (m_fs m) n)) → Q None (set_fs f m)) →
  (∀ h f c, contents (m_fs m) n = Some c → contents f = contents (m_fs m) → fil_at h n 0 →
     Q (Some h) (set_fs f m)) →
  wp (fat_open_start n FA_READ) Q m.
Proof using All.
  intros H0 H1. unfold fat_open_start. wp_steps. unfold wp at 1, fat_open.
  destruct (f_open n FA_READ (m_fs m)) as [[h|] f] eqn:E.
  2:{ wp_steps. apply H0. intros [[_ Hl _ _ _ _] Hc]. destruct (Hl n (m_fs m) Hc) as [[? Hs] _]. by rewrite E in Hs. }
  apply f_open_read_ok in E as (Hh & [c Hc] & Heq). wp_steps. unfold wp at 1, fat_lseek. simpl.
  destruct (f_lseek h 0 f) as [[[] h'] f'] eqn:E2; simpl.
  2:{ wp_steps. apply H0. intros [[_ _ Hl _ _ _] _]. specialize (Hl h f). by rewrite E2 in Hl. }
  destruct (f_lseek_ok _ _ _ _ _ _ _ Hh E2) as [? Ec]. wp_steps. eapply H1; [done| |done]. congruence.
Qed.
Lemma wp_write_all h n c ws (Q : rc * FIL → mach → Prop) m :
  fil_at h n (Z.of_nat (length c)) → contents (m_fs m) n = Some c →
  (∀ h' f, ¬ FsLive → Q (Err EIO, h') (set_fs f m)) →
  (∀ h' f, fil_at h' n (Z.of_nat (length (c ++ ws))) → contents f n = Some (c ++ ws) →
     (∀ n', n' ≠ n → contents f n' = contents (m_fs m) n') → Q (R0, h') (set_fs f m)) →
  wp (fat_write_all h ws) Q m.
Proof using All.
  intros Hh Hc H0 H1. unfold fat_write_all. wp_steps. unfold wp at 1, fat_write.
  destruct (f_write h ws (m_fs m)) as [[[ok bw] h'] f] eqn:E. wp_steps.
  assert (¬ FsLive ∨ ok = true ∧ bw = Z.of_nat (length ws)) as Hf.
  { destruct (decide (ok = true ∧ bw = Z.of_nat (length ws))) as [|Hn]; [by right|]. left. intros [_ _ _ Hl _ _].
    specialize (Hl h ws (m_fs m)). rewrite E in Hl. simpl in Hl. simplify_eq. by apply Hn. }
  destruct ok; simpl; [|apply H0; by destruct Hf as [|[]]].
  destruct (Z.eqb_spec bw (Z.of_nat (length ws))) as [->|]; simpl; [|apply H0; by destruct Hf as [|[]]].
  destruct (f_write_ok _ _ _ _ _ _ _ _ Hh Hc eq_refl E) as (? & ? & ?). apply H1; [|done..].
  by rewrite length_app, Nat2Z.inj_add.
Qed.
Lemma wp_read_all h n pos c k (Q : rc * list Z * FIL → mach → Prop) m :
  fil_at h n pos → 0 ≤ pos → contents (m_fs m) n = Some c →
  (∀ ws h' f, ¬ (FsLive ∧ 0 ≤ k ∧ pos + k ≤ Z.of_nat (length c)) → Q (Err EIO, ws, h') (set_fs f m)) →
  (∀ ws h' f, ws = take (Z.to_nat k) (drop (Z.to_nat pos) c) → Z.of_nat (length ws) = k →
     fil_at h' n (pos + k) → contents f = contents (m_fs m) → Q (R0, ws, h') (set_fs f m)) →
  wp (fat_read_all h k) Q m.
Proof using All.
  intros Hh Hpos Hc H0 H1. unfold fat_read_all. wp_steps. unfold wp at 1, fat_read.
  destruct (f_read h k (m_fs m)) as [[[ok ws] h'] f] eqn:E. wp_steps.
  destruct ok; simpl.
  2:{ apply H0. intros [[_ _ _ _ Hl _] _]. specialize (Hl h k (m_fs m)). by rewrite E in Hl. }
  destruct (f_read_ok _ _ _ _ _ _ _ _ _ Hh Hpos Hc E) as (Ews & Hh' & ?).
  destruct (Z.eqb_spec (Z.of_nat (length ws)) k) as [Ek|Hne]; simpl.
  - apply H1; try done. by rewrite <-Ek.
  - apply H0. intros (_ & Hk & Hle). apply Hne. rewrite Ews, length_take, length_drop. lia.
Qed.
Lemma wp_close h (Q : rc → mach → Prop) m :
  (∀ f, ¬ FsLive → Q (Err EIO) (set_fs f m)) →
  (∀ f, contents f = contents (m_fs m) → Q R0 (set_fs f m)) → wp (fat_close_rc h) Q m.
Proof using All.
  intros H0 H1. unfold fat_close_rc. wp_steps. unfold wp at 1, fat_close.
  destruct (f_close h (m_fs m)) as [[] f] eqn:E; wp_steps.
  - by apply H1, (f_close_ok _ _ _ E).
  - apply H0. intros [_ _ _ _ _ Hl]. specialize (Hl h (m_fs m)). by rewrite E in Hl.
Qed.
Lemma wp_alloc (Q : Z → mach → Prop) m :
  alloc_ok (m_next m) = true →
  Q (m_next m) (Mach _ (m_dev m) (<[m_next m := junk (m_next m)]> (m_mem m)) (m_next m + 1) (m_fs m) (m_stats m)) →
  wp alloc_vmpages Q m.
Proof using Type. intros Ha HQ. unfold wp, alloc_vmpages. by rewrite Ha. Qed.

Context {EL : EccLive}.

Ltac page_op_tac b' Hother :=
  exists b'; split;
  [ by auto with soda | done | done | done | done
  | intros; apply Hother; auto | intros; congruence || auto | intros; congruence || auto ].

Lemma wp_amu_submit_write txn b m :
  t_type txn = TXN_WRITE → 0 < t_length txn → t_data txn ≠ 0 →
  m_mem m !! t_data txn = Some b → length (b_data b) = 4%nat →
  wp (amu_submit_transaction txn) (λ '(r, txn') m', ∃ b', page_op txn b b' m r txn' m') m.
Proof using All.
  intros Ht Hl Hd Hb Hlen. unfold amu_submit_transaction. rewrite bool_decide_eq_false_2 by congruence.
  simpl. wp_steps. eapply wp_submit_flash; [done..|]. intros rep d d2 b' E Eb Hd2 Heq.
  assert (length (b_data b') = 4%nat) as Hlen' by by eapply fil_buf_len.
  assert (∀ a, a ≠ t_addr txn → nand d2 a = nand (m_dev m) a) as Hother.
  { intros a Ha. rewrite Hd2. eapply fil_frame; [exact E|simpl; congruence|done]. }
  destruct (fr_timeout rep) eqn:Et; [wp_steps; page_op_tac b' Hother|].
  rewrite (Heq eq_refl) in *.
  destruct (Z.eqb_spec (fr_status rep) FTS_ERROR) as [Es|Es]; [wp_steps; page_op_tac b' Hother|].
  assert (nand (m_dev m) (t_addr txn) = None → b' = b ∧ ∃ p, nand d (t_addr txn) = Some p ∧
    length p = 4%nat ∧ agree (t_offset txn) (t_length txn) p (b_data b)) as Hw.
  { intros Hn. destruct (fil_write _ _ _ _ _ E) as [Hbb (p & ? & ? & ?)]; try done.
    split; [congruence|eauto]. }
  cbn beta iota. apply wp_bind, wp_stats. intros s. wp_steps. page_op_tac b' Hother.
Qed.

Lemma wp_amu_submit_read txn b m :
  t_type txn = TXN_READ → 0 < t_length txn → t_data txn ≠ 0 →
  m_mem m !! t_data txn = Some b → length (b_data b) = 4%nat →
  wp (amu_submit_transaction txn) (λ '(r, txn') m', ∃ b', page_op txn b b' m r txn' m') m.
Proof using All.
  intros Ht Hl Hd Hb Hlen. unfold amu_submit_transaction. rewrite bool_decide_eq_true_2 by done.
  rewrite (proj2 (Z.eqb_neq _ _) Hd). simpl. wp_steps.
  eapply wp_submit_flash; [done..|]. simpl. intros rep d d2 b' E Eb Hd2 Heq.
  assert (length (b_data b') = 4%nat) as Hlen' by by eapply fil_buf_len.
  assert (∀ a, nand d2 a = nand (m_dev m) a) as Hother.
  { intros a. rewrite Hd2. eapply fil_frame; [exact E|simpl; congruence|simpl; congruence]. }
  destruct (fr_timeout rep) eqn:Et; [wp_steps; page_op_tac b' Hother|].
  rewrite (Heq eq_refl) in *.
  destruct (Z.eqb_spec (fr_status rep) FTS_ERROR) as [Es|Es]; [wp_steps; page_op_tac b' Hother|].
  cbn beta iota. apply wp_bind, wp_stats. intros s. simpl.
  destruct (Z.eqb_spec (fr_err_bitmap rep) 0) as [E0|E0]; simpl.
  { assert (∀ p, nand (m_dev m) (t_addr txn) = Some p →
      agree (t_offset txn) (t_length txn) (b_data b') p) as Hr.
    { intros p Hp. destruct (fil_read _ _ _ _ _ p E Ht) as (b1 & Eb1 & _ & Hag); try done.
      by simplify_eq. }
    wp_steps. page_op_tac b' Hother. }
  apply wp_bind, wp_stats. intros s2. unfold ecc_correct, submit_ecc_task. wp_steps.
  eapply wp_load; [by simpl; rewrite lookup_insert_eq|]. wp_steps. simpl.
  destruct (dev_ecc _ b' d) as [re d3] eqn:Ee. wp_steps.
  eapply wp_store; [by simpl; rewrite lookup_insert_eq|]. wp_steps. simpl.
  rewrite insert_insert_eq. set (b2 := er_buf re).
  assert (length (b_data b2) = 4%nat) by by eapply ecc_buf_len.
  assert (∀ a, nand d3 a = nand (m_dev m) a) as Hother3.
  { intros a. by rewrite <-Hother, (ecc_frame _ _ _ _ _ Ee). }
  rewrite (EL _ _ _ _ _ Ee).
  assert (∀ p, er_status re = ETS_OK → nand (m_dev m) (t_addr txn) = Some p →
      agree (t_offset txn) (t_length txn) (b_data b2) p) as Hr.
  { intros p Hs Hp. subst b2.
    unshelve epose proof (fil_read_ecc _ _ _ _ _ p _ _ _ _ E Ht _ Hlen Hp Et Es Eb _ _ Ee
      (EL _ _ _ _ _ Ee) Hs) as [_ Hag]; done. }
  destruct (er_status re) eqn:Es2; wp_steps; page_op_tac b2 Hother3.
Qed.

Lemma wp_amu_submit_write_live {WL : WriteLive} txn b m :
  t_type txn = TXN_WRITE → 0 < t_length txn → t_data txn ≠ 0 →
  m_mem m !! t_data txn = Some b → nand (m_dev m) (t_addr txn) = None →
  wp (amu_submit_transaction txn) (λ '(r, _) _, r = R0) m.
Proof using All.
  intros Ht Hl Hd Hb Hn. unfold amu_submit_transaction. rewrite bool_decide_eq_false_2 by congruence.
  simpl. wp_steps. eapply wp_submit_flash; [done..|]. intros rep d d2 b' E Eb Hd2 Heq.
  destruct (write_live _ _ _ _ _ E Ht Hn) as [Et Es]. rewrite Et, (proj2 (Z.eqb_neq _ _) Es).
  cbn beta iota. apply wp_bind, wp_stats. intros s. by wp_steps.
Qed.
Lemma wp_amu_submit_read_live {RL : ReadLive} txn b m :
  t_type txn = TXN_READ → 0 < t_length txn → t_data txn ≠ 0 →
  m_mem m !! t_data txn = Some b → is_Some (nand (m_dev m) (t_addr txn)) →
  wp (amu_submit_transaction txn) (λ '(r, _) _, r = R0) m.
Proof using All.
  intros Ht Hl Hd Hb Hn. unfold amu_submit_transaction. rewrite bool_decide_eq_true_2 by done.
  rewrite (proj2 (Z.eqb_neq _ _) Hd). simpl. wp_steps.
  eapply wp_submit_flash; [done..|]. simpl. intros rep d d2 b' E Eb Hd2 Heq.
  destruct (read_live _ _ _ _ _ E Ht Hn) as [Et Es]. rewrite Et, (proj2 (Z.eqb_neq _ _) Es).
  cbn beta iota. apply wp_bind, wp_stats. intros s. simpl.
  destruct (Z.eqb_spec (fr_err_bitmap rep) 0) as [E0|E0]; simpl; [by wp_steps|].
  apply wp_bind, wp_stats. intros s2. unfold ecc_correct, submit_ecc_task. wp_steps.
  eapply wp_load; [by simpl; rewrite lookup_insert_eq|]. wp_steps. simpl.
  destruct (dev_ecc _ b' _) as [re d3] eqn:Ee. wp_steps.
  eapply wp_store; [by simpl; rewrite lookup_insert_eq|]. wp_steps.
  rewrite (EL _ _ _ _ _ Ee), (correct_live _ _ _ _ _ Ee eq_refl). by wp_steps.
Qed.
End machine_facts.
