(* ===== verification/Sim.v ===== *)
(** A concrete platform that satisfies the laws of Machine.v: a NAND array as a
    finite map, an ECC engine that has nothing to correct, a file system as a
    finite map from names to contents.  It shows that the laws are consistent
    and is what the examples of the other files run on. *)
From S2P Require Import Prelude Flash Machine.

(** Sectors [i] with [offset <= i * 4096 < offset + length] come from [src]. *)
Definition overlay (offset length : Z) (src dst : list sector) : list sector :=
  imap (λ i d, if (offset <=? Z.of_nat i * SECTOR_SIZE) &&
                  ((Z.of_nat i + 1) * SECTOR_SIZE <=? offset + length)
               then default d (src !! i) else d) dst.
Definition erased_page : list sector := replicate 4 [NO_PPA].
Abbreviation sim_nand := (gmap flash_address (list sector)).

Definition sim_fil (t : fil_task) (b : option buf) (d : sim_nand) : fil_reply * sim_nand :=
  match ft_type t with
  | TXN_READ =>
      (FilReply false 0
         ((λ b, Buf (overlay (ft_offset t) (ft_length t)
                       (default erased_page (d !! ft_addr t)) (b_data b)) (b_oob b)) <$> b)
         0 50 100, d)
  | TXN_WRITE =>
      (FilReply false 0 b 0 50 300,
       match b with
       | Some b => <[ft_addr t := overlay (ft_offset t) (ft_length t) (b_data b) erased_page]> d
       | None => d
       end)
  | TXN_ERASE =>
      (FilReply false 0 b 0 0 1200,
       filter (λ kv, set_page 0 kv.1 ≠ set_page 0 (ft_addr t)) d)
  | TXN_DUMP => (FilReply false 0 b 0 0 0, d)
  end.

Abbreviation sim_fs := (gmap string (list Z)).

#[export] Instance sim : Platform := {|
  dev := sim_nand;
  dev_fil := sim_fil;
  dev_dma l d := (false, l, d);
  dev_ecc t b d := (EccReply false ETS_OK (et_code_length t) b, d);
  nand d a :=
    match (d : sim_nand) !! a with
    | Some p => if decide (length p = 4%nat) then Some p else None
    | None => None
    end;
  alloc_ok _ := true;
  junk _ := Buf erased_page [];
  junk_words _ k := replicate (Z.to_nat k) 0;
  fs := sim_fs;
  FIL := string * Z;
  contents s n := (s : sim_fs) !! n;
  fil_at f n p := f = (n, p);
  f_open n mode s :=
    match mode with
    | FA_READ => (match (s : sim_fs) !! n with Some _ => Some (n, 0) | None => None end, s)
    | FA_CREATE_WRITE => (Some (n, 0), <[n := []]> s)
    end;
  f_lseek f ofs s := (true, (f.1, ofs), s);
  f_write f ws s :=
    let c := default [] ((s : sim_fs) !! f.1) in
    (true, Z.of_nat (length ws), (f.1, f.2 + Z.of_nat (length ws)),
     <[f.1 := take (Z.to_nat f.2) c ++ ws ++ drop (Z.to_nat f.2 + length ws) c]> s);
  f_read f k s :=
    let ws := take (Z.to_nat k) (drop (Z.to_nat f.2) (default [] ((s : sim_fs) !! f.1))) in
    (true, ws, (f.1, f.2 + Z.of_nat (length ws)), s);
  f_close f s := (true, s);
  f_stat n s := match (s : sim_fs) !! n with Some _ => FR_OK | None => FR_NO_FILE end;
  f_unlink n s := delete n s;
|}.

Lemma overlay_length o l src dst : length (overlay o l src dst) = length dst.
Proof. unfold overlay. by rewrite length_imap. Qed.
Lemma overlay_lookup o l src dst i :
  length src = length dst → in_range o l (Z.of_nat i) → overlay o l src dst !! i = src !! i.
Proof.
  intros Hlen [H1 H2]. unfold overlay. rewrite list_lookup_imap.
  destruct (dst !! i) as [d|] eqn:E; simpl.
  - apply lookup_lt_Some in E. rewrite <-Hlen in E. apply lookup_lt_is_Some in E as [x ->].
    rewrite (proj2 (Z.leb_le _ _) H1), (proj2 (Z.leb_le _ _) H2). done.
  - apply lookup_ge_None in E. symmetry. apply lookup_ge_None. lia.
Qed.


Lemma erased_length : length erased_page = 4%nat.
Proof. done. Qed.

Lemma sim_nand_Some (d : sim_nand) a p : nand d a = Some p ↔ d !! a = Some p ∧ length p = 4%nat.
Proof. simpl. destruct (d !! a) as [q|]; [case_decide|]; split; try (by intros []); intros ?; destruct_and?; by simplify_eq. Qed.

#[export] Instance sim_ok : PlatformOk.
Proof.
  split.
  - intros t b d r d' a E He Hw. destruct t as [ty ? ad ? ? ?]; simpl in *. unfold sim_fil in E.
    destruct ty; simplify_eq/=; try done. destruct b; simplify_eq; [|done].
    rewrite lookup_insert_ne by naive_solver. done.
  - intros t b d r d' p E Ht _ Hlen [Hp Hl]%sim_nand_Some _ _ _.
    simpl in E. unfold sim_fil in E. rewrite Ht in E. simplify_eq/=. rewrite Hp. simpl.
    eexists; split_and!; [done|simpl; by rewrite ?overlay_length|]. intros i Hi Hr.
    simpl. apply overlay_lookup; [by rewrite Hl|]. by rewrite Z2Nat.id by lia.
  - intros t b d r d' p e b' re d'' E Ht _ Hlen [Hp Hl]%sim_nand_Some _ _ Eb _ _ Ee _ _.
    simpl in *. unfold sim_fil in E. rewrite Ht in E. simplify_eq/=. rewrite Hp.
    split; [by rewrite overlay_length|]. intros i Hi Hr.
    simpl. apply overlay_lookup; [by rewrite Hl|]. by rewrite Z2Nat.id by lia.
  - intros e b d r d' E. by simplify_eq/=.
  - intros t b d r d' E. simpl in E. unfold sim_fil in E.
    destruct (ft_type t), b; simplify_eq/=; by rewrite ?is_Some_alt.
  - intros t b d r d' b' E Eb Hl. simpl in E. unfold sim_fil in E.
    destruct (ft_type t); simplify_eq/=; try done; by rewrite ?overlay_length.
  - intros e b d r d' E Hl. by simplify_eq/=.
  - intros t b d r d' E Ht Hlen _ _ _. simpl in E. unfold sim_fil in E. rewrite Ht in E.
    simplify_eq/=. split; [done|]. rewrite lookup_insert_eq, decide_True by by rewrite overlay_length.
    eexists; split_and!; [done|simpl; by rewrite ?overlay_length|]. intros i Hi Hr.
    apply overlay_lookup; [by rewrite Hlen|]. by rewrite Z2Nat.id by lia.
  - intros t b d r d' a E Ht. simpl in E. unfold sim_fil in E. rewrite Ht in E. simplify_eq/=.
    case_decide as Ha.
    + intros _ _. rewrite map_lookup_filter. destruct (d !! a); simpl; [|done].
      by rewrite option_guard_False by naive_solver.
    + rewrite map_lookup_filter. destruct (d !! a); simpl; [|done]. by rewrite option_guard_True.
  - done.
  - intros n k. apply length_replicate.
  - intros l d e l' d' E. by simplify_eq/=.
  - intros l d e l' d' E. by simplify_eq/=.
  - intros l d l' d' E. by simplify_eq/=.
  - intros n s f s' E. simpl in *. destruct (s !! n) eqn:En; simplify_eq. eauto.
  - intros n s f s' E. simplify_eq/=. rewrite lookup_insert_eq. split_and!; [done..|].
    intros m Hm. by rewrite lookup_insert_ne.
  - intros f n pos ofs s f' s' Hf E. by simplify_eq/=.
  - intros f n pos c ws s f' s' Hf Hc Hpos E. simpl in *. subst f pos. simpl in *.
    rewrite Hc in E. simpl in E. simplify_eq. split_and!; [done| |].
    + rewrite lookup_insert_eq, Nat2Z.id, take_ge, drop_ge by lia. by rewrite app_nil_r.
    + intros m Hm. by rewrite lookup_insert_ne.
  - intros f n pos c k s ws f' s' Hf Hpos Hc E. simpl in *. subst f. simpl in *.
    rewrite Hc in E. simpl in E. by simplify_eq.
  - intros f s s' E. by simplify_eq/=.
  - intros n s E. simpl in *. destruct (s !! n); [eauto|done].
  - intros n s E. simpl in *. by destruct (s !! n).
  - intros n m s Hm. simpl. by rewrite lookup_delete_ne.
Qed.

#[export] Instance sim_ecc_live : EccLive.
Proof. intros e b d r d' E. by simplify_eq/=. Qed.

#[export] Instance sim_alloc_live : AllocLive.
Proof. by intros n. Qed.
#[export] Instance sim_read_live : ReadLive.
Proof.
  split.
  - intros t b d r d' E Ht _. simpl in E. unfold sim_fil in E. rewrite Ht in E. by simplify_eq/=.
  - intros e b d r d' E _. by simplify_eq/=.
Qed.

#[export] Instance sim_write_live : WriteLive.
Proof. intros t b d r d' E Ht _. simpl in E. unfold sim_fil in E. rewrite Ht in E. by simplify_eq/=. Qed.
#[export] Instance sim_dma_live : DmaLive.
Proof. intros l d e l' d' E. by simplify_eq/=. Qed.
#[export] Instance sim_fs_live : FsLive.
Proof.
  split; simpl; try done; try by eexists.
  intros n s [c E]. rewrite E. split; [by eexists|done].
Qed.

(** A machine with nothing in it. *)
Definition sim_mach : mach := Mach _ (∅ : sim_nand) ∅ 1 (∅ : sim_fs) zero_stats.
