(* ===== verification/BlockManager.v ===== *)
(** The block manager (ftl/block_manager.c): per-plane free lists and write
    frontiers, page allocation, bad blocks, and the two files that keep the free
    and bad block maps across restarts. *)
From S2P Require Import Prelude Bitmap Flash Machine.

(** * State *)
Definition BF_BAD : Z := 1.
Definition BF_MAPPING : Z := 2.
Definition PLANE_INFO_FILE : string := "planes.bin".
Definition BAD_BLOCKS_FILE : string := "badblks.bin".

(** Membership of [block_data.list] is represented by the plane's free list. *)
Record block_data := Block {
  block_id : Z;
  nr_invalid_pages : Z;
  page_write_index : Z;
  block_nsid : Z;
  flags : Z;
  invalid_page_bitmap : list Z;
}.

(** Blocks are referred to by index; [None] is a NULL write frontier. *)
Record plane_allocator := Plane {
  blocks : list block_data;
  free_list : list Z;
  free_list_size : Z;
  data_wf : option Z;
  gc_wf : option Z;
  mapping_wf : option Z;
}.

Definition plane_id : Type := Z * Z * Z * Z.
Record bm `{Platform} := Bm { bm_mach : mach; bm_planes : gmap plane_id plane_allocator }.

Definition lsb_bitmap : list Z := LSB_BITMAP.
(** LSB pages first, then MSB pages: what [bm_init] fills in. *)
Definition page_idx_map : list Z :=
  filter (λ i, GET_BIT lsb_bitmap i = true) (seqZ 0 PAGES_PER_BLOCK) ++
  filter (λ i, ¬ GET_BIT lsb_bitmap i = true) (seqZ 0 PAGES_PER_BLOCK).

(** ** Field updates *)
Definition set_write_index (i : Z) (b : block_data) : block_data :=
  Block (block_id b) (nr_invalid_pages b) i (block_nsid b) (flags b) (invalid_page_bitmap b).
Definition set_flags (f : Z) (b : block_data) : block_data :=
  Block (block_id b) (nr_invalid_pages b) (page_write_index b) (block_nsid b) f (invalid_page_bitmap b).
Definition set_blocks (bs : list block_data) (p : plane_allocator) : plane_allocator :=
  Plane bs (free_list p) (free_list_size p) (data_wf p) (gc_wf p) (mapping_wf p).
Definition set_free (l : list Z) (n : Z) (p : plane_allocator) : plane_allocator :=
  Plane (blocks p) l n (data_wf p) (gc_wf p) (mapping_wf p).

(** The kinds of write frontier a caller selects with [for_gc], [for_mapping]. *)
Definition plane_wf (for_gc for_mapping : bool) (p : plane_allocator) : option Z :=
  if for_mapping then mapping_wf p else if for_gc then gc_wf p else data_wf p.
Definition set_plane_wf (for_gc for_mapping : bool) (w : option Z) (p : plane_allocator) : plane_allocator :=
  if for_mapping then Plane (blocks p) (free_list p) (free_list_size p) (data_wf p) (gc_wf p) w
  else if for_gc then Plane (blocks p) (free_list p) (free_list_size p) (data_wf p) w (mapping_wf p)
  else Plane (blocks p) (free_list p) (free_list_size p) w (gc_wf p) (mapping_wf p).

(** * Operations *)
Section bm_ops.
Context `{Platform}.

#[export] Instance bm_lens : Lens bm mach.
Proof. refine {| lget := bm_mach; lset m s := Bm _ m (bm_planes s) |}. done. Defined.

Definition addr_plane (a : flash_address) : plane_id := (channel a, chip a, die a, plane a).
(** The order of the four nested loops. *)
Definition plane_ids : list plane_id :=
  c ← seqZ 0 NR_CHANNELS; w ← seqZ 0 CHIPS_PER_CHANNEL; d ← seqZ 0 DIES_PER_CHIP;
  p ← seqZ 0 PLANES_PER_DIE; [(c, w, d, p)].

Definition plane_at (id : plane_id) : ST bm plane_allocator :=
  gets bm_planes ≫= λ ps, deref (ps !! id).
Definition set_plane (id : plane_id) (p : plane_allocator) : ST bm unit :=
  modify (λ s, Bm _ (bm_mach s) (<[id := p]> (bm_planes s))).

Definition get_plane (addr : flash_address) : ST bm plane_allocator :=
  assert (channel addr <? NR_CHANNELS) ≫= λ _,
  assert (chip addr <? CHIPS_PER_CHANNEL) ≫= λ _,
  assert (die addr <? DIES_PER_CHIP) ≫= λ _,
  assert (plane addr <? PLANES_PER_DIE) ≫= λ _,
  plane_at (addr_plane addr).
Definition get_block_data (p : plane_allocator) (id : Z) : ST bm block_data :=
  assert (id <? BLOCKS_PER_PLANE) ≫= λ _, deref (blocks p !! Z.to_nat id).
Definition update_block (id : Z) (b : block_data) (p : plane_allocator) : plane_allocator :=
  set_blocks (<[Z.to_nat id := b]> (blocks p)) p.

Definition get_free_block (p : plane_allocator) (nsid : Z) (for_mapping : bool) :
    option Z * plane_allocator :=
  match free_list p with
  | [] => (None, p)
  | id :: rest =>
      let p := set_free rest (u32 (free_list_size p - 1)) p in
      match blocks p !! Z.to_nat id with
      | Some b =>
          (Some id, update_block id
             (Block (block_id b) (nr_invalid_pages b) (page_write_index b) nsid
                (if for_mapping then Z.lor (flags b) BF_MAPPING else flags b)
                (invalid_page_bitmap b)) p)
      | None => (Some id, p)
      end
  end.

(** [init_plane] on the zeroed plane that [alloc_planes] prepares. *)
Definition init_plane : plane_allocator :=
  Plane ((λ i, Block i 0 0 0 0 (bitmap_zero PAGES_PER_BLOCK)) <$> seqZ 0 BLOCKS_PER_PLANE)
    [] 0 None None None.

Definition init_plane_wf (p : plane_allocator) : plane_allocator :=
  let '(w, p) := get_free_block p 1 false in let p := set_plane_wf false false w p in
  let '(w, p) := get_free_block p 1 false in let p := set_plane_wf true false w p in
  let '(w, p) := get_free_block p 1 true in set_plane_wf false true w p.

(** One contiguous allocation holds the pointer tables, planes and blocks. *)
Definition alloc_planes : ST bm unit :=
  id ← lift slaballoc;
  assert (negb (id =? 0)) ≫= λ _,
  for_each plane_ids (λ i, set_plane i init_plane).

Definition reset_blocks (p : plane_allocator) : plane_allocator :=
  foldl (λ p i, set_free (list_add i (free_list p)) (u32 (free_list_size p + 1)) p) p
    (seqZ 0 BLOCKS_PER_PLANE).
Definition reset_planes : ST bm unit :=
  for_each plane_ids (λ i, p ← plane_at i; set_plane i (reset_blocks p)).

(** ** Free block map *)
(** The loop over the free list, which stops after [free_num] blocks. *)
Fixpoint free_map_loop (l : list Z) (free_num : Z) (map : list Z) : list Z :=
  match l with
  | [] => map
  | id :: l' =>
      let map := SET_BIT map id in
      let free_num := free_num - 1 in
      if free_num =? 0 then map else free_map_loop l' free_num map
  end.
Definition wf_bit (p : plane_allocator) (w : option Z) (map : list Z) : list Z :=
  match w with
  | Some id =>
      match blocks p !! Z.to_nat id with
      | Some b => if page_write_index b =? 0 then SET_BIT map (block_id b) else map
      | None => map
      end
  | None => map
  end.
Definition plane_free_map (p : plane_allocator) : list Z :=
  let map := free_map_loop (free_list p) (free_list_size p) (bitmap_zero BLOCKS_PER_PLANE) in
  wf_bit p (gc_wf p) (wf_bit p (mapping_wf p) (wf_bit p (data_wf p) map)).
Definition plane_bad_map (p : plane_allocator) : list Z :=
  foldl (λ map i, match blocks p !! Z.to_nat i with
                  | Some b => if negb (Z.land (flags b) BF_BAD =? 0) then SET_BIT map i else map
                  | None => map
                  end) (bitmap_zero BLOCKS_PER_PLANE) (seqZ 0 BLOCKS_PER_PLANE).

(** ** Page-buffered map files

    Files of 64-bit words; a page of the file is 4096 bytes.  The page buffer
    starts with whatever the allocator returned. *)
Definition PG_WORDS : nat := 512.
Definition MAP_WORDS : nat := Z.to_nat (BITCHUNKS BLOCKS_PER_PLANE).
Definition planes_per_page : nat := PG_WORDS / MAP_WORDS.
Definition page_words (b : buf) : list Z :=
  take PG_WORDS (concat (b_data b) ++ replicate PG_WORDS 0).
(** [memcpy(wptr, block_map, sizeof(block_map))] at map slot [n]. *)
Definition put_map (page : list Z) (n : nat) (map : list Z) : list Z :=
  take (n * MAP_WORDS) page ++ map ++ drop (n * MAP_WORDS + MAP_WORDS) page.
Definition get_map (page : list Z) (n : nat) : list Z := take MAP_WORDS (drop (n * MAP_WORDS) page).

Definition save_plane_map (map_of : plane_allocator → list Z) (i : plane_id)
    (st : FIL * list Z * nat) : ST bm (rc * (FIL * list Z * nat)) :=
  let '(fil, page, count) := st in
  p ← plane_at i;
  let block_map := map_of p in
  if Nat.eqb count planes_per_page then
    '(r, fil) ← lift (fat_write_all fil page);
    match r with
    | Err _ => mret (r, (fil, page, count))
    | R0 => mret (R0, (fil, put_map page 0 block_map, 1%nat))
    end
  else mret (R0, (fil, put_map page count block_map, S count)).
(** The end of the file: the last partial page, then [f_close]. *)
Definition save_finish (r : rc) (fil : FIL) (page : list Z) (count : nat) : ST mach rc :=
  match r with
  | Err _ => mret r
  | R0 =>
      if Nat.eqb count 0 then fat_close_rc fil
      else
        '(r, fil) ← fat_write_all fil page;
        match r with Err _ => mret r | R0 => fat_close_rc fil end
  end.
Definition save_maps (file : string) (map_of : plane_allocator → list Z) : ST bm rc :=
  fo ← lift (fat_open_start file FA_CREATE_WRITE);
  match fo with
  | None => mret (Err EIO)
  | Some fil =>
      id ← lift alloc_vmpages;
      b ← lift (load id);
      '(r, (fil, page, count)) ← fold_rc plane_ids (save_plane_map map_of) (fil, page_words b, 0%nat);
      r ← lift (save_finish r fil page count);
      lift (free_mem id) ≫= λ _, mret r
  end.
Definition save_plane_info : ST bm rc := save_maps PLANE_INFO_FILE plane_free_map.
Definition save_bad_blocks : ST bm rc := save_maps BAD_BLOCKS_FILE plane_bad_map.

(** The two restore functions differ in what they do with a set bit. *)
(** The loop over the bits of one map. *)
Definition apply_map (set_block : Z → plane_allocator → plane_allocator) (block_map : list Z)
    (p : plane_allocator) : plane_allocator :=
  foldl (λ p idx, if GET_BIT block_map idx then set_block idx p else p) p
    (seqZ 0 BLOCKS_PER_PLANE).
Definition restore_plane_map (set_block : Z → plane_allocator → plane_allocator) (i : plane_id)
    (st : FIL * list Z * nat) : ST bm (rc * (FIL * list Z * nat)) :=
  let '(fil, page, count) := st in
  p ← plane_at i;
  let restore page (n : nat) :=
    let block_map := get_map page n in
    set_plane i (apply_map set_block block_map p) in
  if Nat.eqb count planes_per_page then
    '(r, page', fil) ← lift (fat_read_all fil (Z.of_nat PG_WORDS));
    match r with
    | Err _ => mret (r, (fil, page, count))
    | R0 => restore page' 0%nat ≫= λ _, mret (R0, (fil, page', 1%nat))
    end
  else restore page count ≫= λ _, mret (R0, (fil, page, S count)).
Definition restore_body (set_block : Z → plane_allocator → plane_allocator) (fil : FIL) : ST bm rc :=
  '(r, page, fil) ← lift (fat_read_all fil (Z.of_nat PG_WORDS));
  match r with
  | Err _ => mret r
  | R0 =>
      '(r, (fil, page, count)) ← fold_rc plane_ids (restore_plane_map set_block) (fil, page, 0%nat);
      match r with Err _ => mret r | R0 => lift (fat_close_rc fil) end
  end.
Definition restore_maps (file : string) (set_block : Z → plane_allocator → plane_allocator) : ST bm rc :=
  fo ← lift (fat_open_start file FA_READ);
  match fo with
  | None => mret (Err EIO)
  | Some fil =>
      id ← lift alloc_vmpages;
      _ ← lift (load id);
      r ← restore_body set_block fil;
      lift (free_mem id) ≫= λ _, mret r
  end.
Definition restore_free (idx : Z) (p : plane_allocator) : plane_allocator :=
  set_free (list_add_tail idx (free_list p)) (u32 (free_list_size p + 1)) p.
Definition mark_bad (idx : Z) (p : plane_allocator) : plane_allocator :=
  match blocks p !! Z.to_nat idx with
  | Some b => update_block idx (set_flags (Z.lor (flags b) BF_BAD) b) p
  | None => p
  end.
(** Marks the block and takes it off the free list; the size is not adjusted. *)
Definition retire_block (idx : Z) (p : plane_allocator) : plane_allocator :=
  let p := mark_bad idx p in set_free (list_del idx (free_list p)) (free_list_size p) p.
Definition restore_plane_info : ST bm rc := restore_maps PLANE_INFO_FILE restore_free.
Definition restore_bad_blocks : ST bm rc := restore_maps BAD_BLOCKS_FILE retire_block.

Definition assign_wf : ST bm unit :=
  for_each plane_ids (λ i, p ← plane_at i; set_plane i (init_plane_wf p)).

(** ** Page allocation *)
Definition bm_alloc_page (nsid : Z) (addr : flash_address) (for_gc for_mapping : bool) :
    ST bm flash_address :=
  p ← get_plane addr;
  id ← deref (plane_wf for_gc for_mapping p);
  b ← deref (blocks p !! Z.to_nat id);
  g ← deref (page_idx_map !! Z.to_nat (page_write_index b));
  let addr := set_page g (set_block (block_id b) addr) in
  let b := set_write_index (u16 (page_write_index b + 1)) b in
  let p := update_block id b p in
  let p :=
    if page_write_index b =? PAGES_PER_BLOCK / 2
    then let '(w, p) := get_free_block p nsid for_mapping in set_plane_wf for_gc for_mapping w p
    else p in
  set_plane (addr_plane addr) p ≫= λ _, mret addr.

Definition bm_invalidate_page (addr : flash_address) : ST bm unit :=
  p ← get_plane addr;
  b ← get_block_data p (block addr);
  set_plane (addr_plane addr)
    (update_block (block addr)
       (Block (block_id b) (u32 (nr_invalid_pages b + 1)) (page_write_index b) (block_nsid b)
          (flags b) (SET_BIT (invalid_page_bitmap b) (page addr))) p).

Definition bm_mark_bad (addr : flash_address) : ST bm unit :=
  p ← get_plane addr;
  _ ← get_block_data p (block addr);
  set_plane (addr_plane addr) (mark_bad (block addr) p).

(** ** Scanning and wiping *)
(** [wbuf[i] = i & 0xff], as little-endian words. *)
Definition scan_pattern : list sector :=
  (λ s : Z, (λ k, let b j := Z.land (4 * (1024 * s + k) + j) 255 in
              b 0 + Z.shiftl (b 1) 8 + Z.shiftl (b 2) 16 + Z.shiftl (b 3) 24) <$> seqZ 0 1024)
    <$> seqZ 0 4.
(** [rbuf[0]] *)
Definition first_byte (b : buf) : Z :=
  match b_data b with (w :: _) :: _ => Z.land w 255 | _ => 0 end.

(** Is one block bad?  The transaction is reused for all blocks. *)
Definition scan_block (full : bool) (rbuf wbuf : Z) (txn : flash_transaction) :
    ST mach (bool * flash_transaction) :=
  let set_type ty data t :=
    Txn (t_req t) ty (t_source t) (t_nsid t) (t_lpa t) (t_ppa t) (t_addr t) (t_bitmap t)
      (t_ppa_ready t) (t_opaque t) data (t_offset t) (t_length t) (t_code_length t)
      (t_err_bitmap t) (t_xfer_us t) (t_exec_us t) in
  if full then
    '(r, txn) ← amu_submit_transaction (set_type TXN_WRITE wbuf txn);
    if negb (is_ok r) then mret (true, txn)
    else
      '(r, txn) ← amu_submit_transaction (set_type TXN_READ rbuf txn);
      mret (negb (is_ok r), txn)
  else
    '(r, txn) ← submit_flash_transaction txn;
    b ← load rbuf;
    mret (negb (is_ok r) || (first_byte b =? 0), txn).

Definition scan_plane_block (full : bool) (rbuf wbuf : Z) (i : plane_id) (b : Z)
    (txn : flash_transaction) : ST bm (rc * flash_transaction) :=
  let '(c, w, d, p) := i in
  pl ← plane_at i;
  blk ← get_block_data pl b;
  if negb (Z.land (flags blk) BF_BAD =? 0) then mret (R0, txn)
  else
    let txn := set_t_addr (Addr c w d p b 0) txn in
    '(bad, txn) ← lift (scan_block full rbuf wbuf txn);
    do_if bad (set_plane i (retire_block b pl)) ≫= λ _, mret (R0, txn).

Definition scan_bad_blocks (full : bool) : ST bm unit :=
  rbuf ← lift alloc_vmpages;
  wbuf ← (if full then
            wbuf ← lift alloc_vmpages;
            lift (b ← load wbuf; store wbuf (Buf scan_pattern (b_oob b))) ≫= λ _, mret wbuf
          else mret 0);
  let txn :=
    if full
    then Txn false TXN_READ TS_USER_IO 0 0 0 zero_addr 0 false 0 0 0 FLASH_PG_SIZE 0 0 0 0
    else Txn false TXN_READ TS_USER_IO 0 0 0 zero_addr 0 false 0 rbuf FLASH_PG_SIZE 1 0 0 0 0 in
  '(_, _) ← fold_rc plane_ids (λ i txn,
     fold_rc (seqZ 0 BLOCKS_PER_PLANE) (scan_plane_block full rbuf wbuf i) txn) txn;
  lift (free_mem rbuf) ≫= λ _, do_if full (lift (free_mem wbuf)).

Definition wipe_blocks : ST bm unit :=
  for_each plane_ids (λ '(c, w, d, p),
    for_each (seqZ 0 BLOCKS_PER_PLANE) (λ b,
      lift (submit_flash_transaction
        (Txn false TXN_ERASE TS_USER_IO 0 0 0 (Addr c w d p b 0) 0 false 0 0 0 0 0 0 0 0))
      ≫= λ _, mret tt)).

(** ** Start and stop *)
Definition bm_init (wipe full_scan : bool) : ST bm unit :=
  alloc_planes ≫= λ _,
  do_if wipe wipe_blocks ≫= λ _,
  st ← lift (fat_stat PLANE_INFO_FILE);
  (if negb (bool_decide (st = FR_OK)) || wipe
   then reset_planes ≫= λ _, save_plane_info ≫= λ _, mret tt
   else r ← restore_plane_info; assert (is_ok r)) ≫= λ _,
  st ← lift (fat_stat BAD_BLOCKS_FILE);
  (if negb (bool_decide (st = FR_OK))
   then scan_bad_blocks false ≫= λ _, save_bad_blocks ≫= λ _, mret tt
   else r ← restore_bad_blocks; assert (is_ok r)) ≫= λ _,
  do_if full_scan
    (wipe_blocks ≫= λ _, scan_bad_blocks true ≫= λ _, save_bad_blocks ≫= λ _, wipe_blocks) ≫= λ _,
  assign_wf.

Definition bm_shutdown : ST bm unit := save_plane_info ≫= λ _, mret tt.

(** Console commands; [argv] holds the parsed numbers, [argv[0]] the name. *)
Definition bm_command_mark_bad (argv : list Z) : ST bm unit :=
  c ← deref (argv !! 1%nat); w ← deref (argv !! 2%nat); d ← deref (argv !! 3%nat);
  p ← deref (argv !! 4%nat); b ← deref (argv !! 5%nat);
  bm_mark_bad (Addr c w d p b 0).
Definition bm_command_save_bad : ST bm unit := save_bad_blocks ≫= λ _, mret tt.
End bm_ops.

(** * Invariant and freshness *)
Definition wf_list (p : plane_allocator) : list Z :=
  option_list (data_wf p) ++ option_list (gc_wf p) ++ option_list (mapping_wf p).
(** The blocks pages are still handed out from. *)
Definition pool (p : plane_allocator) : list Z := wf_list p ++ free_list p.
Definition wf_slots : Z := PAGES_PER_BLOCK / 2.

(** The counter never under-counts the list (retiring a block shortens only the
    list). *)
Definition size_ok (p : plane_allocator) : Prop :=
  Z.of_nat (length (free_list p)) ≤ free_list_size p < 2 ^ 32.

Record plane_inv (p : plane_allocator) : Prop := {
  pi_len : length (blocks p) = Z.to_nat BLOCKS_PER_PLANE;
  pi_id : ∀ i b, blocks p !! i = Some b → block_id b = Z.of_nat i;
  pi_nodup : NoDup (pool p);
  pi_range : ∀ i, i ∈ pool p → 0 ≤ i < BLOCKS_PER_PLANE;
  pi_free : ∀ i b, i ∈ free_list p → blocks p !! Z.to_nat i = Some b → page_write_index b = 0;
  pi_wf : ∀ i b, i ∈ wf_list p → blocks p !! Z.to_nat i = Some b →
    0 ≤ page_write_index b < wf_slots;
  pi_size : size_ok p;
}.

(** Page [g] of block [b] can still be handed out. *)
Definition fresh (p : plane_allocator) (b g : Z) : Prop :=
  b ∈ pool p ∧ ∃ blk j, blocks p !! Z.to_nat b = Some blk ∧
    page_write_index blk ≤ j < wf_slots ∧ page_idx_map !! Z.to_nat j = Some g.

Lemma page_idx_map_nodup : NoDup page_idx_map.
Proof. apply (bool_decide_unpack _). by vm_compute. Qed.
Lemma page_idx_map_range : Forall (λ g, 0 ≤ g < PAGES_PER_BLOCK) page_idx_map.
Proof. apply (bool_decide_unpack _). by vm_compute. Qed.
Lemma page_idx_map_length : length page_idx_map = 512%nat.
Proof. by vm_compute. Qed.
(** Only LSB pages are used before a block is replaced. *)
Lemma page_idx_map_lsb : Forall (λ g, GET_BIT lsb_bitmap g = true) (take (Z.to_nat wf_slots) page_idx_map).
Proof. apply (bool_decide_unpack _). by vm_compute. Qed.

Section bm_facts.
Implicit Types p : plane_allocator.

Definition other_wfs (for_gc for_mapping : bool) p : list Z :=
  if for_mapping then option_list (data_wf p) ++ option_list (gc_wf p)
  else if for_gc then option_list (data_wf p) ++ option_list (mapping_wf p)
  else option_list (gc_wf p) ++ option_list (mapping_wf p).

Lemma wf_list_split gc mp p : wf_list p ≡ₚ option_list (plane_wf gc mp p) ++ other_wfs gc mp p.
Proof. unfold wf_list, other_wfs, plane_wf. destruct mp, gc; simpl; solve_Permutation. Qed.
Lemma wf_list_set gc mp w p :
  wf_list (set_plane_wf gc mp w p) ≡ₚ option_list w ++ other_wfs gc mp p.
Proof. unfold wf_list, other_wfs, set_plane_wf. destruct mp, gc; simpl; solve_Permutation. Qed.
Lemma set_plane_wf_fields gc mp w p :
  blocks (set_plane_wf gc mp w p) = blocks p ∧ free_list (set_plane_wf gc mp w p) = free_list p ∧
  free_list_size (set_plane_wf gc mp w p) = free_list_size p.
Proof. unfold set_plane_wf. by destruct mp, gc. Qed.

Lemma block_lookup p i : plane_inv p → 0 ≤ i < BLOCKS_PER_PLANE → is_Some (blocks p !! Z.to_nat i).
Proof. intros Hp Hi. apply lookup_lt_is_Some. rewrite (pi_len _ Hp). lia. Qed.

(** [p'] is [p] after one more page of block [id] was handed out. *)
Record advanced (id : Z) p p' : Prop := {
  adv_same : ∀ i, 0 ≤ i → i ≠ id → page_write_index <$> blocks p' !! Z.to_nat i = page_write_index <$> blocks p !! Z.to_nat i;
  adv_id : ∃ b b', blocks p !! Z.to_nat id = Some b ∧ blocks p' !! Z.to_nat id = Some b' ∧
    page_write_index b' = page_write_index b + 1 ∧ 0 ≤ page_write_index b < wf_slots;
  adv_pool : ∀ i, i ∈ pool p' ↔ i ∈ pool p ∧
    (i = id → page_write_index <$> blocks p' !! Z.to_nat i ≠ Some wf_slots);
  adv_in : id ∈ pool p;
}.

Lemma fresh_advanced id p p' b g0 : plane_inv p → advanced id p p' →
  blocks p !! Z.to_nat id = Some b → page_idx_map !! Z.to_nat (page_write_index b) = Some g0 →
  fresh p id g0 ∧ (∀ i g, fresh p' i g ↔ fresh p i g ∧ (i, g) ≠ (id, g0)).
Proof.
  intros Hp [Hsame (b1 & b' & Hb1 & Hb' & Hidx & Hrange) Hpool Hin] Hb Hg0. rewrite Hb in Hb1. injection Hb1 as <-.
  split. { split; [done|]. exists b, (page_write_index b). split_and!; [done|lia|lia|done]. }
  assert (∀ j, 0 ≤ j → page_idx_map !! Z.to_nat j = Some g0 → j = page_write_index b) as Hinj.
  { intros j Hj E. pose proof (NoDup_lookup _ _ _ _ page_idx_map_nodup E Hg0). lia. }
  intros i g. unfold fresh. rewrite Hpool. destruct (decide (i = id)) as [->|Hne].
  - rewrite Hb, Hb'. simpl. rewrite Hidx. split.
    + intros [[Hi _] (blk & j & [= <-] & Hj & Hg)]. split.
      * split; [done|]. exists b, j. split_and!; [done|lia|lia|done].
      * intros [= ->]. apply Hinj in Hg; lia.
    + intros [[Hi (blk & j & [= <-] & Hj & Hg)] Hne].
      assert (j ≠ page_write_index b) by congruence.
      split; [split; [done|intros _ [=]; lia]|]. exists b', j. split_and!; [done|lia|lia|done].
  - assert (i ∈ pool p → page_write_index <$> blocks p' !! Z.to_nat i =
      page_write_index <$> blocks p !! Z.to_nat i) as Hsame'.
    { intros Hi. apply Hsame; [by apply (pi_range _ Hp)|done]. }
    clear Hsame; rename Hsame' into Hsame. split.
    + intros [[Hi _] (blk & j & Hblk & Hj & Hg)]. split; [|congruence]. split; [done|].
      specialize (Hsame Hi). rewrite Hblk in Hsame. destruct (blocks p !! Z.to_nat i) as [blk'|]; simplify_eq/=.
      exists blk', j. split_and!; [done|lia|lia|done].
    + intros [[Hi (blk & j & Hblk & Hj & Hg)] _]. split; [by split|].
      specialize (Hsame Hi). rewrite Hblk in Hsame. destruct (blocks p' !! Z.to_nat i) as [blk'|]; simplify_eq/=.
      exists blk', j. split_and!; [done|lia|lia|done].
Qed.

Lemma blocks_update i id b p : 0 ≤ id → 0 ≤ i → is_Some (blocks p !! Z.to_nat id) →
  blocks (update_block id b p) !! Z.to_nat i = if decide (i = id) then Some b else blocks p !! Z.to_nat i.
Proof.
  intros ?? [b0 Hb0]. simpl. case_decide as E; subst.
  - apply list_lookup_insert_eq. by eapply lookup_lt_Some.
  - apply list_lookup_insert_ne. lia.
Qed.

(** Replacing a block by one with the same identity keeps the invariant as
    long as the new index fits where the block is. *)
Lemma plane_inv_update id b b' p : plane_inv p → 0 ≤ id → blocks p !! Z.to_nat id = Some b →
  block_id b' = block_id b →
  (id ∈ free_list p → page_write_index b' = 0) →
  (id ∈ wf_list p → 0 ≤ page_write_index b' < wf_slots) →
  plane_inv (update_block id b' p).
Proof.
  intros Hp Hid Hb Hbid Hf Hw. split.
  - simpl. rewrite length_insert. apply Hp.
  - intros i b0. simpl. rewrite list_lookup_insert_Some. intros [(<- & <- & _)|[_ ?]].
    + rewrite Hbid. by apply (pi_id _ Hp).
    + by apply (pi_id _ Hp).
  - apply Hp.
  - apply Hp.
  - intros i b0 Hi. rewrite blocks_update by (done || eauto ||
      (destruct (pi_range _ Hp i) as [? _]; [by apply elem_of_app; right|lia])).
    case_decide; [naive_solver|]. by apply (pi_free _ Hp).
  - intros i b0 Hi. rewrite blocks_update by (done || eauto ||
      (destruct (pi_range _ Hp i) as [? _]; [by apply elem_of_app; left|lia])).
    case_decide; [naive_solver|]. by apply (pi_wf _ Hp).
  - apply Hp.
Qed.

(** [get_free_block] moves the head of the free list out and tags it. *)
Lemma get_free_block_spec p nsid mp w p2 :
  get_free_block p nsid mp = (w, p2) →
  free_list p = option_list w ++ free_list p2 ∧ wf_list p2 = wf_list p ∧
  (∀ gc mp, other_wfs gc mp p2 = other_wfs gc mp p) ∧
  length (blocks p2) = length (blocks p) ∧ (size_ok p → size_ok p2) ∧
  (∀ i, (λ b, (block_id b, page_write_index b)) <$> blocks p2 !! i =
        (λ b, (block_id b, page_write_index b)) <$> blocks p !! i).
Proof.
  unfold get_free_block. destruct (free_list p) as [|f rest] eqn:Ef; [by intros [= <- <-]; rewrite Ef|].
  simpl. destruct (blocks p !! Z.to_nat f) as [b|] eqn:Eb; intros [= <- <-]; simpl.
  - split_and!; [done|done|done|by rewrite length_insert| |].
    { unfold size_ok. rewrite Ef. simpl. intros. rewrite u32_small by lia. lia. }
    intros i.
    destruct (decide (i = Z.to_nat f)) as [->|].
    + rewrite list_lookup_insert_eq by (by eapply lookup_lt_Some). by rewrite Eb.
    + by rewrite list_lookup_insert_ne.
  - split_and!; try done. unfold size_ok. rewrite Ef. simpl. intros. rewrite u32_small by lia. lia.
Qed.
Lemma block_meta_fmap (o1 o2 : option block_data) :
  (λ b, (block_id b, page_write_index b)) <$> o1 = (λ b, (block_id b, page_write_index b)) <$> o2 →
  page_write_index <$> o1 = page_write_index <$> o2.
Proof. destruct o1, o2; simpl; congruence. Qed.
Lemma block_meta_Some (o : option block_data) b :
  (λ b, (block_id b, page_write_index b)) <$> Some b =
  (λ b, (block_id b, page_write_index b)) <$> o →
  ∃ b', o = Some b' ∧ block_id b' = block_id b ∧ page_write_index b' = page_write_index b.
Proof. destruct o as [b'|]; simpl; intros [=]; exists b'; done. Qed.

(** Moving the head of the free list into a write frontier whose block is
    exhausted (or absent). *)
Lemma plane_inv_refill gc mp nsid p w p2 : 
  plane_inv (set_plane_wf gc mp None p) → get_free_block p nsid mp = (w, p2) →
  plane_inv (set_plane_wf gc mp w p2) ∧
  pool (set_plane_wf gc mp w p2) ≡ₚ pool (set_plane_wf gc mp None p).
Proof.
  intros Hp Hg. destruct (get_free_block_spec _ _ _ _ _ Hg) as (Hfree & Hwf & Hoth & Hlen & Hsize & Hmeta).
  destruct (set_plane_wf_fields gc mp w p2) as (Hb1 & Hf1 & Hs1).
  destruct (set_plane_wf_fields gc mp None p) as (Hb0 & Hf0 & Hs0).
  assert (pool (set_plane_wf gc mp w p2) ≡ₚ pool (set_plane_wf gc mp None p)) as Hpool.
  { unfold pool. rewrite !wf_list_set, Hf1, Hf0, Hfree, Hoth. simpl. solve_Permutation. }
  split; [|done]. destruct Hp as [P1 P2 P3 P4 P5 P6 P7]. unfold size_ok in P7. rewrite Hb0, Hf0, Hs0 in *. split.
  - by rewrite Hb1, Hlen.
  - intros i b. rewrite Hb1. intros Hb. specialize (Hmeta i). rewrite Hb in Hmeta.
    apply block_meta_Some in Hmeta as (b' & Hb' & E & _). rewrite <-E. by apply P2.
  - by rewrite Hpool.
  - intros i. rewrite Hpool. apply P4.
  - intros i b. rewrite Hf1, Hb1. intros Hi Hb. specialize (Hmeta (Z.to_nat i)). rewrite Hb in Hmeta.
    apply block_meta_Some in Hmeta as (b' & Hb' & _ & <-). apply (P5 i); [|done].
    rewrite Hfree. set_solver.
  - intros i b. rewrite wf_list_set, elem_of_app, Hb1. intros Hi Hb.
    specialize (Hmeta (Z.to_nat i)). rewrite Hb in Hmeta.
    apply block_meta_Some in Hmeta as (b' & Hb' & _ & <-). destruct Hi as [Hi|Hi].
    + rewrite (P5 i b'); [done| |done]. rewrite Hfree. set_solver.
    + apply (P6 i); [|done]. rewrite wf_list_set, Hoth in *. set_solver.
  - unfold size_ok. rewrite Hf1, Hs1. by apply Hsize.
Qed.

(** Dropping an exhausted write frontier. *)
Lemma plane_inv_drop gc mp id p : plane_inv p → plane_wf gc mp p = Some id →
  plane_inv (set_plane_wf gc mp None p) ∧
  (∀ i, i ∈ pool (set_plane_wf gc mp None p) ↔ i ∈ pool p ∧ i ≠ id).
Proof.
  intros Hp Hw. destruct (set_plane_wf_fields gc mp None p) as (Hb & Hf & Hsz).
  pose proof (wf_list_split gc mp p) as Hs. rewrite Hw in Hs. simpl in Hs.
  pose proof (wf_list_set gc mp None p) as Hn. simpl in Hn.
  assert (pool p ≡ₚ id :: pool (set_plane_wf gc mp None p)) as Hpool.
  { unfold pool. by rewrite Hs, Hn, Hf. }
  pose proof (pi_nodup _ Hp) as Hnd. rewrite Hpool in Hnd. apply NoDup_cons in Hnd as [Hnotin Hnd].
  split.
  - split; rewrite ?Hb, ?Hf; try apply Hp; [done| | |].
    + intros i Hi. apply (pi_range _ Hp). rewrite Hpool. by right.
    + intros i b Hi. apply (pi_wf _ Hp). rewrite Hs. right. by rewrite <-Hn.
    + unfold size_ok. rewrite Hf, Hsz. apply Hp.
  - intros i. rewrite Hpool, elem_of_cons. split; [|naive_solver].
    intros Hi. split; [by right|]. congruence.
Qed.

(** The whole step on the plane. *)
Definition alloc_step (nsid : Z) (gc mp : bool) (id : Z) (b : block_data) p : plane_allocator :=
  let b := set_write_index (u16 (page_write_index b + 1)) b in
  let p := update_block id b p in
  if page_write_index b =? PAGES_PER_BLOCK / 2
  then let '(w, p) := get_free_block p nsid mp in set_plane_wf gc mp w p else p.

Lemma alloc_step_spec nsid gc mp id b p :
  plane_inv p → plane_wf gc mp p = Some id → blocks p !! Z.to_nat id = Some b →
  plane_inv (alloc_step nsid gc mp id b p) ∧ advanced id p (alloc_step nsid gc mp id b p).
Proof.
  intros Hp Hw Hb. unfold alloc_step.
  assert (id ∈ wf_list p) as Hin. { rewrite (wf_list_split gc mp), Hw. set_solver. }
  assert (0 ≤ id < BLOCKS_PER_PLANE) as Hid by (apply (pi_range _ Hp); set_solver).
  pose proof (pi_wf _ Hp id b Hin Hb) as Hidx. unfold wf_slots in Hidx.
  change (PAGES_PER_BLOCK / 2) with 256 in *.
  assert (u16 (page_write_index b + 1) = page_write_index b + 1) as Hu by (apply Z.mod_small; lia).
  rewrite Hu. simpl page_write_index. set (b' := set_write_index _ b).
  assert (id ∉ free_list p) as Hnf.
  { pose proof (pi_nodup _ Hp) as Hnd. unfold pool in Hnd. apply NoDup_app in Hnd. naive_solver. }
  assert (∀ i, 0 ≤ i → blocks (update_block id b' p) !! Z.to_nat i =
    if decide (i = id) then Some b' else blocks p !! Z.to_nat i) as Hblk.
  { intros i Hi. apply blocks_update; [lia|done|by eexists]. }
  destruct (Z.eqb_spec (page_write_index b + 1) 256) as [E|E].
  - destruct (get_free_block (update_block id b' p) nsid mp) as [w p2] eqn:Eg.
    destruct (plane_inv_drop gc mp id p Hp Hw) as [Hd Hdp].
    assert (set_plane_wf gc mp None (update_block id b' p) =
            update_block id b' (set_plane_wf gc mp None p)) as Ecomm by by destruct mp, gc.
    assert (plane_inv (update_block id b' (set_plane_wf gc mp None p))) as Hd'.
    { assert (id ∉ pool (set_plane_wf gc mp None p)) as Hni by (rewrite Hdp; naive_solver).
      unfold pool in Hni. apply (plane_inv_update _ b); try done; [lia|by destruct mp, gc| |]; set_solver. }
    rewrite <-Ecomm in Hd'. destruct (plane_inv_refill _ _ _ _ _ _ Hd' Eg) as [Hinv Hpool].
    destruct (get_free_block_spec _ _ _ _ _ Eg) as (_ & _ & _ & _ & _ & Hmeta).
    destruct (set_plane_wf_fields gc mp w p2) as [Hb1 _].
    assert (∀ i, 0 ≤ i → page_write_index <$> blocks (set_plane_wf gc mp w p2) !! Z.to_nat i =
      if decide (i = id) then Some 256 else page_write_index <$> blocks p !! Z.to_nat i) as Hix.
    { intros i Hi. rewrite Hb1, (block_meta_fmap _ _ (Hmeta (Z.to_nat i))), Hblk by done.
      case_decide; [|done]. simpl. by rewrite E. }
    split; [done|]. split.
    + intros i Hi Hne. by rewrite Hix, decide_False.
    + specialize (Hix id ltac:(lia)). rewrite decide_True in Hix by done.
      apply fmap_Some in Hix as (b2 & Hb2 & ?). exists b, b2. change wf_slots with 256. split_and!; (done || lia).
    + intros i. rewrite Hpool, Ecomm. change (pool (update_block id b' ?p)) with (pool p).
      rewrite Hdp. split.
      * intros [? ?]. split; [done|]. naive_solver.
      * intros [Hi Hne]. split; [done|]. intros ->. apply Hne; [done|]. by rewrite Hix, decide_True by lia.
    + set_solver.
  - split.
    { apply (plane_inv_update _ b); [done|lia|done|done|by intros|change wf_slots with 256; simpl; lia]. }
    split.
    + intros i Hi Hne. by rewrite Hblk, decide_False.
    + exists b, b'. rewrite Hblk, decide_True by lia. change wf_slots with 256. split_and!; try done; simpl; lia.
    + intros i. change (pool (update_block id b' p)) with (pool p). split; [|by intros []].
      intros Hi. split; [done|]. intros ->. rewrite Hblk, decide_True by lia. simpl. change wf_slots with 256.
      intros [=]. lia.
    + set_solver.
Qed.
End bm_facts.

Lemma and_iff_compat_l' (A B C : Prop) : (A → (B ↔ C)) → (A ∧ B ↔ A ∧ C).
Proof. tauto. Qed.

Section bm_state.
Context `{Platform}.
Implicit Types (s : bm) (a : flash_address).

Definition bm_inv s : Prop :=
  ∀ a, plane_ok a → ∃ p, bm_planes s !! addr_plane a = Some p ∧ plane_inv p.
Definition page_fresh s a : Prop :=
  plane_ok a ∧ 0 ≤ block a < BLOCKS_PER_PLANE ∧
  ∃ p, bm_planes s !! addr_plane a = Some p ∧ fresh p (block a) (page a).
(** Every plane has its write frontiers and at least [n] free blocks. *)
Definition bm_ready (n : nat) s : Prop :=
  ∀ a p, plane_ok a → bm_planes s !! addr_plane a = Some p →
    (∀ gc mp, is_Some (plane_wf gc mp p)) ∧ (n ≤ length (free_list p))%nat.

Lemma addr_plane_inj_eq a b : addr_plane a = addr_plane b → block a = block b → page a = page b → a = b.
Proof. destruct a, b; unfold addr_plane; simpl; congruence. Qed.
Lemma plane_ok_eq a b : addr_plane a = addr_plane b → plane_ok a → plane_ok b.
Proof. destruct a, b; unfold addr_plane, plane_ok; simpl. naive_solver. Qed.

Lemma wp_get_plane a p (Q : plane_allocator → bm → Prop) s :
  plane_ok a → bm_planes s !! addr_plane a = Some p → Q p s → wp (get_plane a) Q s.
Proof.
  intros (Hc & Hw & Hd & Hpl) Hp HQ. unfold get_plane, plane_at.
  repeat (wp_step; [apply Z.ltb_lt; geometry; lia|] || wp_step). apply wp_deref. eauto.
Qed.

Lemma bm_inv_insert s id p :
  bm_inv s → plane_inv p → bm_inv (Bm _ (bm_mach s) (<[id := p]> (bm_planes s))).
Proof.
  intros Hs Hp a Ha. simpl. destruct (decide (id = addr_plane a)) as [->|Hne].
  - rewrite lookup_insert_eq. eauto.
  - rewrite lookup_insert_ne by done. by apply Hs.
Qed.

Lemma alloc_step_wf nsid gc mp id b p gc' mp' :
  plane_inv p → plane_wf gc mp p = Some id → blocks p !! Z.to_nat id = Some b →
  is_Some (plane_wf gc' mp' p) → free_list p ≠ [] →
  is_Some (plane_wf gc' mp' (alloc_step nsid gc mp id b p)) ∧
  (length (free_list p) ≤ S (length (free_list (alloc_step nsid gc mp id b p))))%nat.
Proof.
  intros Hp Hw Hb Hw' Hf. unfold alloc_step. destruct (_ =? _); [|split; [by destruct mp', gc'|simpl; lia]].
  destruct (free_list p) as [|f rest] eqn:Ef; [done|].
  unfold get_free_block. simpl. rewrite Ef.
  assert (∃ bf, <[Z.to_nat id := set_write_index (u16 (page_write_index b + 1)) b]> (blocks p) !! Z.to_nat f = Some bf)
    as [bf ->].
  { apply lookup_lt_is_Some. rewrite length_insert, (pi_len _ Hp).
    destruct (pi_range _ Hp f); [|lia]. unfold pool. rewrite Ef. set_solver. }
  destruct mp, gc, mp', gc'; simpl in *; split; try done; lia.
Qed.

Lemma wp_bm_alloc nsid addr gc mp p id s :
  plane_ok addr → bm_inv s → bm_planes s !! addr_plane addr = Some p → plane_wf gc mp p = Some id →
  wp (bm_alloc_page nsid addr gc mp) (λ a s',
    bm_inv s' ∧ bm_mach s' = bm_mach s ∧
    addr_plane a = addr_plane addr ∧ addr_ok a ∧ GET_BIT lsb_bitmap (page a) = true ∧
    page_fresh s a ∧ (∀ a', page_fresh s' a' ↔ page_fresh s a' ∧ a' ≠ a) ∧
    (∀ n, bm_ready (S n) s → bm_ready n s')) s.
Proof.
  intros Ha Hs Hp Hw. destruct (Hs addr Ha) as (p' & Hp' & Hinv). rewrite Hp in Hp'. injection Hp' as <-.
  unfold bm_alloc_page. wp_steps. eapply wp_get_plane; [done..|]. wp_steps.
  apply wp_deref. exists id. split; [done|]. wp_steps.
  assert (id ∈ wf_list p) as Hin. { rewrite (wf_list_split gc mp), Hw. set_solver. }
  assert (0 ≤ id < BLOCKS_PER_PLANE) as Hid by (apply (pi_range _ Hinv); set_solver).
  destruct (block_lookup p id Hinv Hid) as [b Hb]. apply wp_deref. exists b. split; [done|]. wp_steps.
  pose proof (pi_wf _ Hinv id b Hin Hb) as Hidx. change wf_slots with 256 in Hidx.
  assert (is_Some (page_idx_map !! Z.to_nat (page_write_index b))) as [g Hg].
  { apply lookup_lt_is_Some. rewrite page_idx_map_length. lia. }
  apply wp_deref. exists g. split; [done|].
  assert (block_id b = id) as Hbid by (rewrite (pi_id _ Hinv _ _ Hb), Z2Nat.id; lia).
  fold (alloc_step nsid gc mp id b p).
  destruct (alloc_step_spec nsid gc mp id b p Hinv Hw Hb) as [Hinv' Hadv].
  destruct (fresh_advanced _ _ _ _ _ Hinv Hadv Hb Hg) as [Hfr Hfr'].
  rewrite Hbid. set (a := set_page g (set_block id addr)).
  assert (addr_plane a = addr_plane addr) as Hap by done. rewrite Hap.
  assert (0 ≤ g < PAGES_PER_BLOCK) as Hgr.
  { pose proof page_idx_map_range as Hf. rewrite Forall_lookup in Hf. by eapply Hf. }
  unfold set_plane. wp_steps. split_and!.
  - by apply bm_inv_insert.
  - done.
  - done.
  - split_and!; try apply Ha; simpl; lia.
  - pose proof page_idx_map_lsb as Hf. rewrite Forall_lookup in Hf. apply (Hf (Z.to_nat (page_write_index b))).
    rewrite lookup_take_lt; [done|]. change wf_slots with 256. lia.
  - split_and!; [done|simpl; lia..|]. exists p. done.
  - intros a'. unfold page_fresh. simpl bm_planes. destruct (decide (addr_plane a' = addr_plane addr)) as [E|E].
    + rewrite E, lookup_insert_eq, Hp. split.
      * intros (? & ? & q & [= <-] & Hq). apply Hfr' in Hq as [? Hne]. split; [by eauto 10|].
        intros ->. by apply Hne.
      * intros ((? & ? & q & Hqq & Hq) & Hne). injection Hqq as <-. split; [done|]. split; [done|]. eexists; split; [done|].
        apply Hfr'. split; [done|]. intros [= E1 E2]. apply Hne. by apply addr_plane_inj_eq.
    + rewrite lookup_insert_ne by done. split; [|by intros []].
      intros ?. split; [done|]. by intros ->.
  - intros n Hr a' q Ha'. simpl. destruct (decide (addr_plane a' = addr_plane addr)) as [E|E].
    + rewrite E, lookup_insert_eq. intros [= <-].
      destruct (Hr addr p Ha Hp) as [Hwf Hlen].
      assert (free_list p ≠ []) as Hne by (destruct (free_list p); simpl in *; [lia|done]).
      split; [intros gc' mp'; by apply alloc_step_wf|].
      destruct (alloc_step_wf nsid gc mp id b p gc mp Hinv Hw Hb (Hwf _ _) Hne) as [_ ?]. lia.
    + rewrite lookup_insert_ne by done. intros Hq. destruct (Hr a' q Ha' Hq). split; [done|lia].
Qed.

(** A sequence of page allocations. *)
Record alloc_req := AllocReq { ar_nsid : Z; ar_addr : flash_address; ar_gc : bool; ar_mapping : bool }.
Fixpoint alloc_pages (l : list alloc_req) : ST bm (list flash_address) :=
  match l with
  | [] => mret []
  | r :: l' =>
      a ← bm_alloc_page (ar_nsid r) (ar_addr r) (ar_gc r) (ar_mapping r);
      rest ← alloc_pages l'; mret (a :: rest)
  end.

Lemma wp_alloc_pages l s :
  bm_inv s → bm_ready (length l) s → Forall (λ r, plane_ok (ar_addr r)) l →
  wp (alloc_pages l) (λ pages s',
    bm_inv s' ∧ NoDup pages ∧ length pages = length l ∧
    (∀ a, a ∈ pages → addr_ok a ∧ page_fresh s a ∧ GET_BIT lsb_bitmap (page a) = true) ∧
    (∀ a, page_fresh s' a ↔ page_fresh s a ∧ a ∉ pages)) s.
Proof.
  revert s. induction l as [|r l IH]; intros s Hs Hr Hok; simpl.
  { wp_steps. split_and!; try done; [constructor|set_solver|]. intros a. set_solver. }
  apply Forall_cons in Hok as [Hr0 Hok]. destruct (Hs _ Hr0) as (p & Hp & Hinv).
  destruct (Hr _ p Hr0 Hp) as [Hwf _]. destruct (Hwf (ar_gc r) (ar_mapping r)) as [id Hid].
  wp_steps. eapply wp_mono; [by eapply wp_bm_alloc|]. cbv beta.
  intros a s1 (Hs1 & _ & _ & Haok & Hlsb & Hfr & Hfr1 & Hready). wp_steps.
  eapply wp_mono; [by apply IH; [|apply Hready|]|]. cbv beta.
  intros pages s2 (Hs2 & Hnd & Hlen & Hall & Hfr2). wp_steps. split_and!.
  - done.
  - constructor; [|done]. intros Hin. apply Hall in Hin as (_ & Hin & _). by apply Hfr1 in Hin as [].
  - simpl. by rewrite Hlen.
  - intros a' [->|Hin]%elem_of_cons; [done|]. apply Hall in Hin as (? & Hin & ?).
    apply Hfr1 in Hin as []. done.
  - intros a'. rewrite Hfr2, Hfr1, elem_of_cons. clear. tauto.
Qed.

Lemma wp_bm_invalidate a s : addr_ok a → bm_inv s →
  wp (bm_invalidate_page a) (λ _ s', bm_inv s' ∧ bm_mach s' = bm_mach s ∧
    (∀ a', page_fresh s' a' ↔ page_fresh s a') ∧ (∀ n, bm_ready n s → bm_ready n s')) s.
Proof.
  intros (Ha & Hb & Hg) Hs. destruct (Hs a Ha) as (p & Hp & Hinv).
  unfold bm_invalidate_page. wp_steps. eapply wp_get_plane; [done..|]. wp_steps.
  unfold get_block_data. wp_steps; [apply Z.ltb_lt; lia|].
  destruct (block_lookup p (block a) Hinv Hb) as [b Eb]. apply wp_deref. exists b. split; [done|].
  unfold set_plane. wp_steps. set (b' := Block _ _ _ _ _ _).
  assert (plane_inv (update_block (block a) b' p)) as Hinv'.
  { apply (plane_inv_update _ b); try done; [lia| |].
    - intros Hi. exact (pi_free _ Hinv (block a) b Hi Eb).
    - intros Hi. exact (pi_wf _ Hinv (block a) b Hi Eb). }
  assert (∀ b0 g, fresh (update_block (block a) b' p) b0 g ↔ fresh p b0 g) as Hfr.
  { intros b0 g. unfold fresh. change (pool (update_block (block a) b' p)) with (pool p).
    apply and_iff_compat_l'. intros Hb0. apply (pi_range _ Hinv) in Hb0.
    rewrite blocks_update by (done || lia || eauto). case_decide as E; [|done]. subst b0.
    rewrite Eb. split; intros (? & j & [= <-] & ?); by eexists _, j. }
  split_and!.
  - by apply bm_inv_insert.
  - done.
  - intros a'. unfold page_fresh. simpl bm_planes. destruct (decide (addr_plane a' = addr_plane a)) as [E|E].
    + rewrite E, lookup_insert_eq, Hp. split; intros (? & ? & q & Hq & Hf); injection Hq as <-;
        (split; [done|]; split; [done|]; eexists; split; [done|]; by apply Hfr).
    + by rewrite lookup_insert_ne.
  - intros n Hr a' q Ha'. simpl. destruct (decide (addr_plane a' = addr_plane a)) as [E|E].
    + rewrite E, lookup_insert_eq. intros [= <-]. apply (Hr a p Ha Hp).
    + rewrite lookup_insert_ne by done. by apply Hr.
Qed.

(** When no free block is left at the moment a frontier fills, the frontier
    becomes NULL ([alloc_step]), and the next allocation of that kind
    dereferences it. *)
Lemma bm_alloc_null_frontier nsid a gc mp p s :
  bm_planes s !! addr_plane a = Some p → plane_wf gc mp p = None →
  bm_alloc_page nsid a gc mp s = None.
Proof.
  intros Hp Hw. unfold bm_alloc_page, mbind, ST_bind.
  destruct (get_plane a s) as [[q s1]|] eqn:E; [|done].
  assert (q = p) as ->.
  { revert E. unfold get_plane, plane_at, mbind, ST_bind, assert, gets.
    repeat (destruct (_ <? _); [|done]). simpl. rewrite Hp. by intros [= <- _]. }
  by rewrite Hw.
Qed.
End bm_state.
