(* ===== verification/BlockMaps.v ===== *)
(** The block manager across restarts: the round trip of the two map files, and
    the invariant that [bm_init] establishes. *)
From S2P Require Import Prelude Bitmap Flash Machine Sim BlockManager.

(** * Map files *)

(** Word [off k + i] of a map file is word [i] of the [k]-th map. *)
Definition map_off (k : nat) : nat := PG_WORDS * (k / planes_per_page) + MAP_WORDS * (k mod planes_per_page).
Definition holds_maps (c : list Z) (maps : list (list Z)) : Prop :=
  ∀ k m, maps !! k = Some m →
    length m = MAP_WORDS ∧ ∀ i w, m !! i = Some w → c !! (map_off k + i)%nat = Some w.

(** Reduce the state projections only. *)
Ltac bm_cbn := cbn [lget lset bm_lens bm_mach bm_planes set_fs m_next m_mem m_dev m_fs m_stats] in *.
#[local] Arguments plane_ids : simpl never.
#[local] Arguments seqZ : simpl never.
#[local] Arguments page_words : simpl never.

Lemma MAP_WORDS_eq : MAP_WORDS = 17%nat.
Proof. by vm_compute. Qed.
Lemma planes_per_page_eq : planes_per_page = 30%nat.
Proof. by vm_compute. Qed.
Lemma PG_WORDS_eq : PG_WORDS = 512%nat.
Proof. done. Qed.

(** Position of map [k] when the page being filled is number [q] and it is the
    [count]-th map of that page. *)
Lemma map_off_eq q count : (count < 30)%nat → map_off (30 * q + count) = (512 * q + 17 * count)%nat.
Proof.
  intros Hc. unfold map_off. rewrite MAP_WORDS_eq, planes_per_page_eq, PG_WORDS_eq.
  assert ((30 * q + count) / 30 = q)%nat as -> by (symmetry; apply (Nat.div_unique _ _ _ count); lia).
  assert ((30 * q + count) mod 30 = count)%nat as -> by (symmetry; apply (Nat.mod_unique _ _ q); lia).
  done.
Qed.
Lemma map_off_bound k q count : (k < 30 * q + count)%nat → (count ≤ 30)%nat →
  (map_off k + 17 ≤ 512 * q + 17 * count)%nat.
Proof.
  intros Hk Hc. assert (k = 30 * (k / 30) + k mod 30)%nat as E by (apply Nat.div_mod; lia).
  pose proof (Nat.mod_upper_bound k 30 ltac:(lia)). rewrite E, map_off_eq by done. lia.
Qed.

Section put_get.
Implicit Types page map : list Z.

Lemma put_map_lookup page n map j : length map = 17%nat → (n * 17 + 17 ≤ length page)%nat →
  put_map page n map !! j =
    if decide (n * 17 ≤ j < n * 17 + 17)%nat then map !! (j - n * 17)%nat else page !! j.
Proof.
  intros Hm Hp. unfold put_map. rewrite MAP_WORDS_eq.
  destruct (decide (j < n * 17)%nat).
  { rewrite lookup_app_l by (rewrite length_take; lia). rewrite lookup_take_lt by lia.
    by rewrite decide_False by lia. }
  rewrite lookup_app_r by (rewrite length_take; lia). rewrite length_take, Nat.min_l by lia.
  case_decide.
  - by rewrite lookup_app_l by lia.
  - rewrite lookup_app_r, Hm, lookup_drop by lia. f_equal. lia.
Qed.
Lemma put_map_length page n map : length map = 17%nat → (n * 17 + 17 ≤ length page)%nat →
  length (put_map page n map) = length page.
Proof.
  intros Hm Hp. unfold put_map. rewrite MAP_WORDS_eq, !length_app, length_take, length_drop. lia.
Qed.
Lemma get_map_eq c q count map page :
  page = take 512 (drop (512 * q) c) → (count < 30)%nat → length map = 17%nat →
  (∀ i w, map !! i = Some w → c !! (map_off (30 * q + count) + i)%nat = Some w) →
  get_map page count = map.
Proof.
  intros -> Hc Hm Hw. unfold get_map. rewrite MAP_WORDS_eq. apply list_eq. intros i.
  destruct (decide (i < 17)%nat).
  - rewrite lookup_take_lt, lookup_drop, lookup_take_lt, lookup_drop by lia.
    destruct (map !! i) as [w|] eqn:E.
    + rewrite <-(Hw i w E). f_equal. rewrite map_off_eq by done. lia.
    + apply lookup_ge_None in E. lia.
  - rewrite lookup_take_ge by lia. symmetry. apply lookup_ge_None. lia.
Qed.
End put_get.

Lemma plane_ids_nodup : NoDup plane_ids.
Proof. apply (bool_decide_unpack _). by vm_compute. Qed.
Lemma elem_of_plane_ids a : plane_ok a → addr_plane a ∈ plane_ids.
Proof.
  intros (?&?&?&?). unfold plane_ids, addr_plane.
  apply list_elem_of_bind. exists (channel a). split; [|by apply elem_of_seqZ; lia].
  apply list_elem_of_bind. exists (chip a). split; [|by apply elem_of_seqZ; lia].
  apply list_elem_of_bind. exists (die a). split; [|by apply elem_of_seqZ; lia].
  apply list_elem_of_bind. exists (plane a). split; [|by apply elem_of_seqZ; lia]. by left.
Qed.

Section map_files.
Context {PL : Platform}.
Implicit Types s : bm.

(** All planes exist. *)
Definition planes_exist s : Prop := ∀ id, id ∈ plane_ids → is_Some (bm_planes s !! id).
(** The maps of a list of planes. *)
Definition maps_of (map_of : plane_allocator → list Z) s (ids : list plane_id) : list (list Z) :=
  omap (λ id, map_of <$> bm_planes s !! id) ids.

(** Only the volume has changed. *)
Definition only_fs s0 s : Prop := ∃ f, s = Bm _ (set_fs f (bm_mach s0)) (bm_planes s0).
Definition other_files (file : string) (f0 f : fs) : Prop := ∀ n, n ≠ file → contents f n = contents f0 n.
(** A buffer was allocated and has been released. *)
Definition scratch (m : mach) : mach :=
  Mach _ (m_dev m) (delete (m_next m) (<[m_next m := junk (m_next m)]> (m_mem m))) (m_next m + 1) (m_fs m) (m_stats m).

(** Saving: after the planes [pre], [c] is in the file and [page] in the buffer. *)
Definition save_inv file map_of s0 (pre : list plane_id) (st : FIL * list Z * nat) s : Prop :=
  let '(fil, page, count) := st in
  only_fs s0 s ∧ other_files file (m_fs (bm_mach s0)) (m_fs (bm_mach s)) ∧
  ∃ c q, contents (m_fs (bm_mach s)) file = Some c ∧ fil_at fil file (Z.of_nat (length c)) ∧
    length c = (512 * q)%nat ∧ length page = 512%nat ∧ length pre = (30 * q + count)%nat ∧
    (count ≤ 30)%nat ∧ (count = 0%nat → pre = []) ∧ holds_maps (c ++ page) (maps_of map_of s0 pre).

Lemma maps_of_app map_of s pre post : maps_of map_of s (pre ++ post) = maps_of map_of s pre ++ maps_of map_of s post.
Proof. apply omap_app. Qed.
Lemma maps_of_length map_of s ids : (∀ id, id ∈ ids → is_Some (bm_planes s !! id)) →
  length (maps_of map_of s ids) = length ids.
Proof.
  induction ids as [|id ids IH]; intros Hex; [done|]. simpl.
  destruct (Hex id ltac:(by left)) as [p ->]. simpl. f_equal. apply IH. set_solver.
Qed.
Lemma maps_of_lookup map_of s ids k id p : (∀ id, id ∈ ids → is_Some (bm_planes s !! id)) →
  ids !! k = Some id → bm_planes s !! id = Some p → maps_of map_of s ids !! k = Some (map_of p).
Proof.
  revert k. induction ids as [|x ids IH]; intros k Hex; [done|]. simpl.
  destruct (Hex x ltac:(by left)) as [px Hpx]. rewrite Hpx. simpl.
  destruct k as [|k]; simpl.
  - intros [= ->] E. by simplify_eq.
  - intros. apply IH; [set_solver|done..].
Qed.

Lemma holds_maps_ext c x maps : holds_maps c maps → holds_maps (c ++ x) maps.
Proof.
  intros Hh k m Hk. destruct (Hh k m Hk) as [Hl Hw]. split; [done|]. intros i w Hi.
  apply lookup_app_l_Some. by apply Hw.
Qed.
Lemma holds_maps_snoc c page maps q count m :
  length c = (512 * q)%nat → length page = 512%nat → length maps = (30 * q + count)%nat →
  (count < 30)%nat → length m = 17%nat →
  holds_maps (c ++ page) maps → holds_maps (c ++ put_map page count m) (maps ++ [m]).
Proof.
  intros Hc Hp Hl Hcount Hm Hh k m' Hk.
  apply lookup_app_Some in Hk as [Hk|[Hge Hk]].
  - pose proof (lookup_lt_Some _ _ _ Hk) as Hlt. rewrite Hl in Hlt.
    destruct (Hh k m' Hk) as [Hlm Hw]. split; [done|]. intros i w Hi. specialize (Hw i w Hi).
    pose proof (map_off_bound k q count Hlt ltac:(lia)) as Hb.
    apply lookup_lt_Some in Hi. rewrite Hlm, MAP_WORDS_eq in Hi.
    rewrite lookup_app in Hw |- *. destruct (c !! (map_off k + i)%nat) eqn:E; [done|].
    apply lookup_ge_None in E. rewrite put_map_lookup by lia. by rewrite decide_False by lia.
  - assert (k = 30 * q + count)%nat as ->.
    { apply lookup_lt_Some in Hk. simpl in Hk. lia. }
    rewrite Hl, Nat.sub_diag in Hk. simpl in Hk. injection Hk as <-.
    rewrite MAP_WORDS_eq. split; [done|]. intros i w Hi. pose proof (lookup_lt_Some _ _ _ Hi) as Hlt.
    rewrite map_off_eq by done. rewrite lookup_app_r by lia. rewrite put_map_lookup by lia.
    rewrite decide_True by lia. rewrite <-Hi. f_equal. lia.
Qed.
End map_files.

Section save_maps.
Context {PL : Platform} {PO : @PlatformOk PL}.
Implicit Types s : bm.

Lemma save_plane_map_step file map_of s0 ids pre x post st s :
  (∀ id p, id ∈ ids → bm_planes s0 !! id = Some p → length (map_of p) = 17%nat) →
  (∀ id, id ∈ ids → is_Some (bm_planes s0 !! id)) →
  ids = pre ++ x :: post → save_inv file map_of s0 pre st s →
  wp (save_plane_map map_of x st) (λ '(r, st') s', match r with
      R0 => save_inv file map_of s0 (pre ++ [x]) st' s' | Err _ => only_fs s0 s' ∧ ¬ FsLive end) s.
Proof using All.
  intros Hlen Hex Hids. destruct st as [[fil page] count].
  intros ([f0 ->] & Hoth & c & q & Hc & Hfil & Hlc & Hlp & Hpre & Hcount & H0 & Hmaps).
  destruct (Hex x ltac:(set_solver)) as [p Hp]. pose proof (Hlen x p ltac:(set_solver) Hp) as Hl17.
  assert (length (maps_of map_of s0 pre) = (30 * q + count)%nat) as Hlm.
  { rewrite maps_of_length by (intros id Hid; apply Hex; set_solver). done. }
  assert (maps_of map_of s0 (pre ++ [x]) = maps_of map_of s0 pre ++ [map_of p]) as Emaps.
  { rewrite maps_of_app. f_equal. unfold maps_of. simpl. by rewrite Hp. }
  unfold save_plane_map, plane_at. wp_steps. apply wp_deref. exists p. split; [done|].
  rewrite planes_per_page_eq. destruct (Nat.eqb_spec count 30) as [->|Hne].
  - wp_steps. eapply wp_write_all; [done|done| |].
    + intros h' f Hl. wp_steps. split; [by exists f|done].
    + intros h' f Hh' Hf Hf'. wp_steps. split; [by exists f|].
      split; [intros n Hn; bm_cbn; rewrite Hf' by done; by apply Hoth|]. exists (c ++ page), (S q).
      rewrite put_map_length by (rewrite ?Hl17, ?Hlp; lia).
      split_and!; try done; [rewrite length_app; lia|rewrite length_app; simpl; lia|lia|].
      rewrite Emaps. apply (holds_maps_snoc _ _ _ (S q) 0); [rewrite length_app; lia|done|lia|lia|done|].
      by apply holds_maps_ext.
  - wp_steps. split; [by exists f0|]. split; [exact Hoth|]. exists c, q. rewrite put_map_length by (rewrite ?Hl17, ?Hlp; lia).
    split_and!; try done; [rewrite length_app; simpl; lia|lia|].
    rewrite Emaps. apply (holds_maps_snoc _ _ _ q count); [done|done|done|lia|done|done].
Qed.

(** What a successful save leaves in the file. *)
Definition saved (c : list Z) (maps : list (list Z)) : Prop :=
  holds_maps c maps ∧ ∃ q, length c = (512 * q)%nat ∧ (length maps ≤ 30 * q)%nat.

Lemma page_words_length b : length (page_words b) = 512%nat.
Proof using Type.
  unfold page_words. rewrite length_take, length_app, length_replicate, PG_WORDS_eq. lia.
Qed.
Lemma plane_ids_length : length plane_ids = 64%nat.
Proof using Type. by vm_compute. Qed.

Lemma wp_save_maps file map_of s :
  planes_exist s → (∀ id p, bm_planes s !! id = Some p → length (map_of p) = 17%nat) →
  (∀ n, alloc_ok n = true) →
  wp (save_maps file map_of) (λ r s', bm_planes s' = bm_planes s ∧ (FsLive → r = R0) ∧
    (r = R0 → ∃ f c, bm_mach s' = set_fs f (scratch (bm_mach s)) ∧ contents f file = Some c ∧
       saved c (maps_of map_of s plane_ids) ∧ other_files file (m_fs (bm_mach s)) f)) s.
Proof using All.
  intros Hex Hlen Halloc. unfold save_maps. wp_steps. apply wp_open_create.
  { intros f Hl. wp_steps. split; [reflexivity|]. split; [by intros ?%Hl|discriminate]. }
  intros h f Hh Hf Hfo. wp_steps. apply wp_alloc; [done|].
  bm_cbn. wp_steps.
  bm_cbn.
  eapply wp_load; [apply lookup_insert_eq|]. wp_steps. set (s0 := Bm _ _ _).
  eapply wp_mono.
  { eapply (wp_fold_rc (save_inv file map_of s0) (λ _ s', only_fs s0 s' ∧ ¬ FsLive)).
    - split; [by exists f|]. split; [done|]. exists [], 0%nat. split; [exact Hf|]. split; [exact Hh|].
      split; [done|]. split; [apply page_words_length|]. split; [done|]. split; [lia|].
      split; [done|]. intros k m. discriminate.
    - intros pre x post st' s' Hids HI. eapply save_plane_map_step; [|apply Hex|done|done].
      intros id p _. apply Hlen. }
  intros [r [[fil page] count]] s1 HI. wp_steps.
  assert (∀ r' f, (FsLive → r' = R0) →
    (r' = R0 → ∃ c, contents f file = Some c ∧ saved c (maps_of map_of s plane_ids) ∧ other_files file (m_fs (bm_mach s)) f) →
    wp (lift (free_mem (m_next (bm_mach s))) ≫= λ _, mret r') (λ r s', bm_planes s' = bm_planes s ∧ (FsLive → r = R0) ∧
    (r = R0 → ∃ f c, bm_mach s' = set_fs f (scratch (bm_mach s)) ∧ contents f file = Some c ∧
       saved c (maps_of map_of s plane_ids) ∧ other_files file (m_fs (bm_mach s)) f))
    (Bm _ (set_fs f (bm_mach s0)) (bm_planes s0))) as Hend.
  { intros r' f' H1 H2. wp_steps. apply wp_free_mem; [subst s0; bm_cbn; rewrite lookup_insert_eq; eauto|]. wp_steps.
    split; [reflexivity|]. split; [exact H1|]. intros Hr. destruct (H2 Hr) as (c & ?). by exists f', c. }
  assert (other_files file (m_fs (bm_mach s)) (m_fs (bm_mach s0))) as Hoth0 by exact Hfo.
  destruct r as [|e].
  2: { destruct HI as [[f' ->] Hl]. unfold save_finish. wp_step. apply Hend; [by intros ?%Hl|discriminate]. }
  destruct HI as ([f' ->] & Hoth & c & q & Hc & Hfil & Hlc & Hlp & Hpre & Hcount & H0 & Hmaps).
  rewrite plane_ids_length in Hpre. unfold save_finish.
  destruct (Nat.eqb_spec count 0) as [->|Hne]; [by specialize (H0 eq_refl)|].
  wp_step. eapply wp_write_all; [exact Hfil|exact Hc| |].
  - intros h' f1 Hl. wp_step. apply Hend; [by intros ?%Hl|discriminate].
  - intros h' f1 Hh' Hf1 Ho1. cbv beta iota. apply wp_close.
    + intros f2 Hl. apply Hend; [by intros ?%Hl|discriminate].
    + intros f2 Hf2. apply Hend; [done|]. intros _. bm_cbn. rewrite Hf2. eexists. split; [exact Hf1|].
      split; [|intros n Hn; rewrite Hf2, Ho1 by done; etrans; [by apply Hoth|by apply Hoth0]].
      split; [exact Hmaps|]. exists (S q). rewrite length_app. split; [lia|].
      rewrite maps_of_length by exact Hex. rewrite plane_ids_length. lia.
Qed.
End save_maps.

Section restore_maps.
Context {PL : Platform} {PO : @PlatformOk PL}.
Implicit Types s : bm.
Variable set_block : Z → plane_allocator → plane_allocator.

(** The first [n] planes have been restored from [maps], the others not. *)
Definition restored (maps : list (list Z)) (ps0 ps : gmap plane_id plane_allocator) (n : nat) : Prop :=
  ∀ k id p, plane_ids !! k = Some id → ps0 !! id = Some p →
    ps !! id = if decide (k < n)%nat then (λ m, apply_map set_block m p) <$> maps !! k else Some p.

Definition restore_inv file c maps s0 (pre : list plane_id) (st : FIL * list Z * nat) s : Prop :=
  let '(fil, page, count) := st in
  ∃ f ps q, s = Bm _ (set_fs f (bm_mach s0)) ps ∧ contents f = contents (m_fs (bm_mach s0)) ∧ contents f file = Some c ∧
    fil_at fil file (Z.of_nat (512 * S q)) ∧ page = take 512 (drop (512 * q) c) ∧
    length pre = (30 * q + count)%nat ∧ (count ≤ 30)%nat ∧
    restored maps (bm_planes s0) ps (length pre).

Lemma restored_step maps ps0 ps n id p m :
  restored maps ps0 ps n → plane_ids !! n = Some id → maps !! n = Some m → ps0 !! id = Some p →
  restored maps ps0 (<[id := apply_map set_block m p]> ps) (S n).
Proof using Type.
  intros Hr Hid Hm Hp k id' p' Hk Hp'. destruct (decide (k = n)) as [->|Hne].
  - simplify_eq. rewrite lookup_insert_eq, decide_True by lia. by rewrite Hm.
  - assert (id ≠ id').
    { intros ->. apply Hne. by eapply NoDup_lookup; [apply plane_ids_nodup|..]. }
    rewrite lookup_insert_ne by done. rewrite (Hr k id' p') by done.
    repeat case_decide; done || lia.
Qed.

Lemma restore_plane_map_step file c maps s0 pre x post st s :
  planes_exist s0 → saved c maps → length maps = length plane_ids →
  plane_ids = pre ++ x :: post → restore_inv file c maps s0 pre st s →
  wp (restore_plane_map set_block x st) (λ '(r, st') s', match r with
      R0 => restore_inv file c maps s0 (pre ++ [x]) st' s'
    | Err _ => (∃ f ps, s' = Bm _ (set_fs f (bm_mach s0)) ps) ∧ ¬ FsLive end) s.
Proof using All.
  intros Hex [Hh (qn & Hlc & Hqn)] Hlm Hids. destruct st as [[fil page] count].
  intros (f & ps & q & -> & Hcs & Hc & Hfil & Hpage & Hpre & Hcount & Hr).
  assert (plane_ids !! length pre = Some x) as Hx by by rewrite Hids, list_lookup_middle.
  destruct (Hex x) as [p Hp]; [by eapply list_elem_of_lookup_2|].
  assert (is_Some (maps !! length pre)) as [m Hm].
  { apply lookup_lt_is_Some. rewrite Hlm. by eapply lookup_lt_Some. }
  destruct (Hh _ _ Hm) as [Hlen17 Hw]. rewrite MAP_WORDS_eq in Hlen17.
  assert (ps !! x = Some p) as Hpx by by rewrite (Hr _ _ _ Hx Hp), decide_False by lia.
  pose proof (restored_step _ _ _ _ _ _ _ Hr Hx Hm Hp) as Hr'.
  unfold restore_plane_map, plane_at, set_plane. wp_steps. apply wp_deref. exists p. split; [done|].
  rewrite planes_per_page_eq. destruct (Nat.eqb_spec count 30) as [->|Hne].
  - wp_steps. eapply (wp_read_all _ file _ c); [exact Hfil|lia|exact Hc| |].
    + intros ws h f' Hl. wp_steps. split; [by exists f', ps|]. intros HF. apply Hl. split; [done|]. split; [lia|].
      apply lookup_lt_Some in Hm. rewrite PG_WORDS_eq, Hlc. lia.
    + intros ws h f' Hws Hlws Hh' Hf'. cbv beta iota. wp_steps.
      rewrite PG_WORDS_eq, !Nat2Z.id in Hws. rewrite PG_WORDS_eq in Hh'.
      rewrite (get_map_eq c (S q) 0 m ws Hws ltac:(lia) Hlen17).
      2: { intros i w Hi. specialize (Hw i w Hi). rewrite Hpre in Hw.
        by replace (30 * S q + 0)%nat with (30 * q + 30)%nat by lia. }
      bm_cbn. exists f', (<[x := apply_map set_block m p]> ps), (S q).
      split; [reflexivity|]. split; [by rewrite Hf'|]. split; [by rewrite Hf'|].
      split; [by replace (512 * S (S q))%nat with (512 * S q + 512)%nat by lia; rewrite Nat2Z.inj_add|].
      split; [exact Hws|]. rewrite length_app. simpl. split; [lia|]. split; [lia|].
      by rewrite Nat.add_comm.
  - wp_steps. rewrite (get_map_eq c q count m page Hpage ltac:(lia) Hlen17).
    2: { intros i w Hi. specialize (Hw i w Hi). by rewrite Hpre in Hw. }
    bm_cbn. exists f, (<[x := apply_map set_block m p]> ps), q.
    split; [reflexivity|]. split; [exact Hcs|]. split; [exact Hc|]. split; [exact Hfil|]. split; [exact Hpage|].
    rewrite length_app. simpl. split; [lia|]. split; [lia|]. by rewrite Nat.add_comm.
Qed.

Lemma wp_restore_maps file c maps s :
  planes_exist s → saved c maps → length maps = length plane_ids →
  contents (m_fs (bm_mach s)) file = Some c → (∀ n, alloc_ok n = true) →
  wp (restore_maps file set_block) (λ r s', (FsLive → r = R0) ∧ (r = R0 →
    restored maps (bm_planes s) (bm_planes s') (length plane_ids) ∧
    ∃ f, bm_mach s' = set_fs f (scratch (bm_mach s)) ∧ contents f = contents (m_fs (bm_mach s)))) s.
Proof using All.
  intros Hex Hsaved Hlm Hc Halloc. unfold restore_maps. wp_steps.
  apply wp_open_read.
  { intros f Hl. wp_steps. split; [|discriminate]. intros HF. destruct Hl. split; [done|by exists c]. }
  intros h f c' Hc' Hf Hh. bm_cbn. rewrite Hc in Hc'. injection Hc' as <-.
  wp_steps. apply wp_alloc; [done|]. bm_cbn. wp_steps. bm_cbn.
  eapply wp_load; [apply lookup_insert_eq|]. wp_steps. set (s0 := Bm _ _ _).
  assert (∀ r' f' ps, (FsLive → r' = R0) →
    (r' = R0 → restored maps (bm_planes s) ps (length plane_ids) ∧ contents f' = contents (m_fs (bm_mach s))) →
    wp (lift (free_mem (m_next (bm_mach s))) ≫= λ _, mret r') (λ r s', (FsLive → r = R0) ∧ (r = R0 →
      restored maps (bm_planes s) (bm_planes s') (length plane_ids) ∧
      ∃ f, bm_mach s' = set_fs f (scratch (bm_mach s)) ∧ contents f = contents (m_fs (bm_mach s))))
    (Bm _ (set_fs f' (bm_mach s0)) ps)) as Hend.
  { intros r' f' ps H1 H2. wp_steps. apply wp_free_mem; [subst s0; bm_cbn; rewrite lookup_insert_eq; eauto|].
    wp_steps. split; [exact H1|]. intros Hr. destruct (H2 Hr). split; [done|]. by exists f'. }
  assert (512 ≤ length c)%nat as Hlen.
  { destruct Hsaved as [_ (q & -> & Hq)]. rewrite Hlm, plane_ids_length in Hq. lia. }
  unfold restore_body. apply wp_bind, wp_lift.
  eapply (wp_read_all _ file 0 c); [exact Hh|lia|subst s0; bm_cbn; by rewrite Hf| |].
  { intros ws h' f' Hl. cbv beta iota. wp_step. apply Hend; [|discriminate].
    intros HF. destruct Hl. split; [done|]. rewrite PG_WORDS_eq. lia. }
  intros ws h' f' Hws Hlws Hh' Hf'. cbv beta iota. apply wp_bind. eapply wp_mono.
  { eapply (wp_fold_rc (restore_inv file c maps s0) (λ _ s', (∃ f ps, s' = Bm _ (set_fs f (bm_mach s0)) ps) ∧ ¬ FsLive)).
    - exists f', (bm_planes s0), 0%nat. rewrite PG_WORDS_eq in *. subst ws.
      split; [reflexivity|]. split; [exact Hf'|]. split; [subst s0; bm_cbn; by rewrite Hf', Hf|]. split; [exact Hh'|].
      split; [by rewrite Nat2Z.id|]. split; [reflexivity|]. split; [lia|].
      intros k id p _ Hp. by rewrite decide_False by (simpl; lia).
    - intros pre x post st' s' Hids HI. by eapply restore_plane_map_step. }
  intros [r [[fil page] count]] s1 HI. cbv beta iota. destruct r as [|e].
  2: { destruct HI as [(f2 & ps & ->) Hl]. wp_step. apply Hend; [by intros ?%Hl|discriminate]. }
  destruct HI as (f2 & ps & q & -> & Hcs & _ & _ & _ & _ & _ & Hr). apply wp_lift, wp_close.
  - intros f3 Hl. apply Hend; [by intros ?%Hl|discriminate].
  - intros f3 Hf3. apply Hend; [done|]. intros _. split; [done|]. etrans; [exact Hf3|]. etrans; [exact Hcs|]. exact Hf.
Qed.
End restore_maps.

(** * What the maps say *)

(** Block [i] may be given out again after a restart: it is free, or an assigned
    write frontier of which no page has been used. *)
Definition reusable (p : plane_allocator) (i : Z) : bool :=
  bool_decide (i ∈ pool p) &&
  match blocks p !! Z.to_nat i with Some b => page_write_index b =? 0 | None => false end.

Section plane_maps.
Implicit Types (p : plane_allocator) (map : list Z) (l : list Z).

Lemma length_SET_BIT map i : length (SET_BIT map i) = length map.
Proof. unfold SET_BIT. by rewrite length_insert. Qed.
Lemma bit_SET_17 map i j : length map = 17%nat → 0 ≤ i < BLOCKS_PER_PLANE → 0 ≤ j →
  bit (SET_BIT map i) j = bool_decide (j = i) || bit map j.
Proof.
  intros Hl Hi Hj. apply bit_SET_BIT; [lia| |done]. rewrite Hl. unfold BLOCKS_PER_PLANE in Hi. dlia.
Qed.

Lemma free_map_loop_length l n map : length (free_map_loop l n map) = length map.
Proof.
  revert n map. induction l as [|x l IH]; intros n map; simpl; [done|].
  destruct (_ =? 0); [apply length_SET_BIT|]. by rewrite IH, length_SET_BIT.
Qed.
Lemma free_map_loop_bit l n map i : length map = 17%nat →
  (∀ x, x ∈ l → 0 ≤ x < BLOCKS_PER_PLANE) → Z.of_nat (length l) ≤ n → 0 ≤ i →
  bit (free_map_loop l n map) i = bool_decide (i ∈ l) || bit map i.
Proof.
  intros Hl Hr Hn Hi. revert n map Hl Hn. induction l as [|x l IH]; intros n map Hl Hn; [done|].
  assert (bool_decide (i ∈ x :: l) = bool_decide (i = x) || bool_decide (i ∈ l)) as ->.
  { rewrite <-bool_decide_or. apply bool_decide_ext. apply elem_of_cons. }
  simpl. destruct (Z.eqb_spec (n - 1) 0) as [E|E].
  - assert (l = []) as -> by (destruct l; simpl in *; [done|lia]).
    rewrite bit_SET_17 by (done || (apply Hr; by left)).
    rewrite (bool_decide_eq_false_2 (i ∈ [])) by set_solver. by rewrite orb_false_r.
  - simpl in Hn. rewrite IH; [|set_solver|by rewrite length_SET_BIT|lia].
    rewrite bit_SET_17 by (done || (apply Hr; by left)).
    destruct (bool_decide (i = x)), (bool_decide (i ∈ l)); done.
Qed.

Lemma wf_bit_length p w map : length (wf_bit p w map) = length map.
Proof. unfold wf_bit. repeat case_match; by rewrite ?length_SET_BIT. Qed.
Lemma wf_bit_bit p w map i : plane_inv p → length map = 17%nat → 0 ≤ i →
  (∀ x, w = Some x → x ∈ pool p) →
  bit (wf_bit p w map) i =
    (bool_decide (w = Some i) && match blocks p !! Z.to_nat i with Some b => page_write_index b =? 0 | None => false end)
    || bit map i.
Proof.
  intros Hp Hl Hi Hw. unfold wf_bit. destruct w as [x|]; [|done].
  pose proof (pi_range _ Hp x (Hw x eq_refl)) as Hx.
  destruct (block_lookup p x Hp Hx) as [b Hb]. rewrite Hb.
  destruct (decide (x = i)) as [->|Hne].
  - rewrite Hb, bool_decide_eq_true_2 by done. simpl.
    destruct (page_write_index b =? 0); [|done].
    rewrite (pi_id _ Hp _ _ Hb), Z2Nat.id, bit_SET_17, bool_decide_eq_true_2 by (done || lia). done.
  - rewrite bool_decide_eq_false_2 by congruence. simpl.
    destruct (page_write_index b =? 0); [|done].
    rewrite (pi_id _ Hp _ _ Hb), Z2Nat.id, bit_SET_17, bool_decide_eq_false_2 by (done || lia). done.
Qed.

Lemma plane_free_map_length p : length (plane_free_map p) = 17%nat.
Proof.
  unfold plane_free_map. rewrite !wf_bit_length, free_map_loop_length.
  unfold bitmap_zero. by rewrite length_replicate.
Qed.

Lemma plane_free_map_bit p i : plane_inv p → 0 ≤ i →
  GET_BIT (plane_free_map p) i = reusable p i.
Proof.
  intros Hp Hi. pose proof (pi_size _ Hp) as [Hs _]. rewrite GET_BIT_bit. unfold plane_free_map.
  assert (length (bitmap_zero BLOCKS_PER_PLANE) = 17%nat) as Hz by by vm_compute.
  assert (∀ w, w ∈ [data_wf p; gc_wf p; mapping_wf p] → ∀ x, w = Some x → x ∈ pool p) as Hin.
  { intros w Hw x ->. unfold pool, wf_list. rewrite !elem_of_app, !elem_of_option_list. set_solver. }
  assert (∀ x, x ∈ free_list p → 0 ≤ x < BLOCKS_PER_PLANE) as Hfr.
  { intros x Hx. apply (pi_range _ Hp), elem_of_app. by right. }
  pose proof (free_map_loop_bit (free_list p) (free_list_size p) _ i Hz Hfr Hs Hi) as Hb0.
  rewrite bit_zero, orb_false_r in Hb0.
  set (m0 := free_map_loop _ _ _) in *.
  assert (length m0 = 17%nat) as Hl0 by (unfold m0; by rewrite free_map_loop_length).
  rewrite !wf_bit_bit by (rewrite ?wf_bit_length; done || (apply Hin; set_solver)).
  rewrite Hb0.
  unfold reusable, pool, wf_list.
  destruct (blocks p !! Z.to_nat i) as [b|] eqn:Eb.
  - destruct (Z.eqb_spec (page_write_index b) 0) as [E|E].
    + rewrite !andb_true_r, <-!bool_decide_or. apply bool_decide_ext.
      rewrite !elem_of_app, !elem_of_option_list. tauto.
    + rewrite !andb_false_r. simpl. apply bool_decide_eq_false. intros Hf.
      by apply E, (pi_free _ Hp i).
  - rewrite !andb_false_r. simpl. apply bool_decide_eq_false. intros Hf.
    destruct (block_lookup p i Hp) as [? ?]; [apply (pi_range _ Hp), elem_of_app; by right|congruence].
Qed.

Lemma foldl_restore_free m l p : 0 ≤ free_list_size p → free_list_size p + Z.of_nat (length l) < 2 ^ 32 →
  let fr := filter (λ i, GET_BIT m i = true) l in
  foldl (λ p idx, if GET_BIT m idx then restore_free idx p else p) p l =
  set_free (free_list p ++ fr) (free_list_size p + Z.of_nat (length fr)) p.
Proof.
  revert p. induction l as [|x l IH]; intros p H0 Hs; simpl in *.
  { rewrite app_nil_r, Z.add_0_r. by destruct p. }
  rewrite filter_cons. destruct (GET_BIT m x) eqn:E.
  - rewrite decide_True by done. unfold restore_free at 2. rewrite u32_small by lia.
    rewrite IH by (simpl; lia). simpl. unfold set_free, list_add_tail; simpl. f_equal; [by rewrite <-app_assoc|lia].
  - rewrite decide_False by done. rewrite IH by lia. done.
Qed.
Lemma apply_map_restore_free m p : free_list p = [] → free_list_size p = 0 →
  apply_map restore_free m p =
  set_free (filter (λ i, GET_BIT m i = true) (seqZ 0 BLOCKS_PER_PLANE))
    (Z.of_nat (length (filter (λ i, GET_BIT m i = true) (seqZ 0 BLOCKS_PER_PLANE)))) p.
Proof.
  intros Hf Hs. unfold apply_map. rewrite foldl_restore_free.
  - by rewrite Hf, Hs.
  - by rewrite Hs.
  - by rewrite Hs, length_seqZ.
Qed.
End plane_maps.

(** * Initialisation *)

(** A plane during [bm_init]: no write frontier yet, nothing written. *)
Record plane0 (p : plane_allocator) : Prop := {
  p0_wf : data_wf p = None ∧ gc_wf p = None ∧ mapping_wf p = None;
  p0_len : length (blocks p) = Z.to_nat BLOCKS_PER_PLANE;
  p0_blk : ∀ i b, blocks p !! i = Some b → block_id b = Z.of_nat i ∧ page_write_index b = 0;
  p0_nodup : NoDup (free_list p);
  p0_range : ∀ i, i ∈ free_list p → 0 ≤ i < BLOCKS_PER_PLANE;
  p0_size : size_ok p;
  p0_good : ∀ i b, i ∈ free_list p → blocks p !! Z.to_nat i = Some b → Z.land (flags b) BF_BAD = 0;
}.
(** No block that pages may come from is marked bad. *)
Definition pool_good (p : plane_allocator) : Prop :=
  ∀ i b, i ∈ pool p → blocks p !! Z.to_nat i = Some b → Z.land (flags b) BF_BAD = 0.
(** A plane as [alloc_planes] leaves it. *)
Definition empty_plane (p : plane_allocator) : Prop :=
  plane0 p ∧ free_list p = [] ∧ free_list_size p = 0 ∧ ∀ i b, blocks p !! i = Some b → flags b = 0.

Section init.
Context {PL : Platform}.
Implicit Types (s : bm) (p : plane_allocator).

Lemma plane0_init : plane0 init_plane.
Proof.
  split; [done|done| |constructor|by intros i Hi%not_elem_of_nil|done|by intros i b Hi%not_elem_of_nil].
  intros i b. unfold init_plane. cbn [blocks]. rewrite list_lookup_fmap, fmap_Some. intros (k & Hk & ->). simpl.
  apply lookup_seqZ in Hk. split; [lia|done].
Qed.
Lemma empty_plane_init : empty_plane init_plane.
Proof.
  split; [apply plane0_init|]. split; [done|]. split; [done|]. intros i b.
  unfold init_plane. cbn [blocks]. rewrite list_lookup_fmap, fmap_Some. by intros (k & Hk & ->).
Qed.

Lemma reset_blocks_eq p : free_list p = [] → free_list_size p = 0 →
  reset_blocks p = set_free (reverse (seqZ 0 BLOCKS_PER_PLANE)) BLOCKS_PER_PLANE p.
Proof.
  intros Hf Hs. unfold reset_blocks.
  assert (∀ l q, 0 ≤ free_list_size q → free_list_size q + Z.of_nat (length l) < 2 ^ 32 →
    foldl (λ p i, set_free (list_add i (free_list p)) (u32 (free_list_size p + 1)) p) q l =
    set_free (reverse l ++ free_list q) (free_list_size q + Z.of_nat (length l)) q) as Hgen.
  { induction l as [|x l IH]; intros q H0 Hq; simpl in *.
    - rewrite Z.add_0_r. by destruct q.
    - rewrite u32_small by lia. rewrite IH by (simpl; lia). simpl. unfold set_free; simpl.
      rewrite reverse_cons, <-app_assoc. simpl. f_equal. lia. }
  rewrite Hgen; rewrite ?Hs, ?length_seqZ; [|done|done]. rewrite Hf, app_nil_r. done.
Qed.
Lemma plane0_reset p : empty_plane p → plane0 (reset_blocks p).
Proof.
  intros ([H1 H2 H3 H4 H5 H6 H7] & Hf & Hs & Hg). rewrite reset_blocks_eq by done. split; simpl; try done.
  { rewrite reverse_Permutation. apply NoDup_seqZ. }
  - intros i. rewrite elem_of_reverse, elem_of_seqZ. lia.
  - intros i b _ Hb. by rewrite (Hg _ _ Hb).
Qed.
Lemma plane0_restore m p : empty_plane p → plane0 (apply_map restore_free m p).
Proof.
  intros ([H1 H2 H3 H4 H5 H6 H7] & Hf & Hs & Hg). rewrite apply_map_restore_free by done. split; simpl; try done.
  - apply NoDup_filter, NoDup_seqZ.
  - intros i. rewrite list_elem_of_filter, elem_of_seqZ. lia.
  - unfold size_ok. simpl. split; [done|].
    pose proof (length_filter (λ i, GET_BIT m i = true) (seqZ 0 BLOCKS_PER_PLANE)) as Hl.
    rewrite length_seqZ in Hl. unfold BLOCKS_PER_PLANE in *. lia.
  - intros i b _ Hb. by rewrite (Hg _ _ Hb).
Qed.

Lemma plane0_retire i p : 0 ≤ i → plane0 p → plane0 (retire_block i p).
Proof.
  intros Hi Hp. unfold retire_block.
  assert (free_list (mark_bad i p) = free_list p ∧ free_list_size (mark_bad i p) = free_list_size p ∧
    wf_list (mark_bad i p) = wf_list p ∧ (data_wf (mark_bad i p) = None ∧ gc_wf (mark_bad i p) = None ∧
    mapping_wf (mark_bad i p) = None) ∧ length (blocks (mark_bad i p)) = length (blocks p)) as (E1 & E2 & E3 & E4 & E5).
  { unfold mark_bad. destruct (p0_wf _ Hp) as (? & ? & ?).
    destruct (_ !! _); split_and!; simpl; try done. by rewrite length_insert. }
  assert (∀ j b, blocks (mark_bad i p) !! j = Some b → ∃ b0, blocks p !! j = Some b0 ∧
    block_id b = block_id b0 ∧ page_write_index b = page_write_index b0 ∧
    (j ≠ Z.to_nat i → flags b = flags b0)) as Hb.
  { intros j b. unfold mark_bad. destruct (blocks p !! Z.to_nat i) as [b1|] eqn:Eb; [|by eauto 10]. simpl.
    rewrite list_lookup_insert_Some. intros [(<- & <- & _)|[? ?]]; [|by eauto 10]. exists b1. done. }
  destruct Hp as [H1 H2 H3 H4 H5 H6 H7]. split; simpl.
  - done.
  - congruence.
  - intros j b (b0 & Hb0 & -> & -> & _)%Hb. by apply H3.
  - rewrite E1. by apply NoDup_list_del.
  - intros j. rewrite E1, elem_of_list_del. naive_solver.
  - unfold size_ok in *. simpl. rewrite E1, E2. split; [|lia].
    pose proof (length_filter (λ y, y ≠ i) (free_list p)). unfold list_del. lia.
  - intros j b. rewrite E1, elem_of_list_del. intros [Hne Hj] (b0 & Hb0 & _ & _ & Hfl)%Hb.
    rewrite Hfl; [by apply (H7 j)|]. apply H5 in Hj. lia.
Qed.
Lemma plane0_retire_map m p : plane0 p → plane0 (apply_map retire_block m p).
Proof.
  unfold apply_map.
  assert (∀ x, x ∈ seqZ 0 BLOCKS_PER_PLANE → 0 ≤ x) as Hl by (intros x Hx%elem_of_seqZ; lia).
  revert p Hl. generalize (seqZ 0 BLOCKS_PER_PLANE) as l.
  induction l as [|x l IH]; intros p Hl Hp; simpl; [done|].
  apply IH; [intros y Hy; apply Hl; by right|]. destruct (GET_BIT m x); [|done].
  apply plane0_retire; [apply Hl; by left|done].
Qed.

Lemma plane0_inv p : plane0 p → plane_inv p.
Proof.
  intros [(E1 & E2 & E3) H2 H3 H4 H5 H6 H7]. assert (wf_list p = []) as Hw by (unfold wf_list; by rewrite E1, E2, E3).
  split; unfold pool; rewrite ?Hw; try done; [naive_solver| |set_solver].
  intros i b _ Hb. by apply H3 in Hb as [].
Qed.
(** Assigning a write frontier where there is none. *)
Lemma plane_inv_get_wf gc mp nsid p w p2 : plane_inv p → plane_wf gc mp p = None →
  get_free_block p nsid mp = (w, p2) → plane_inv (set_plane_wf gc mp w p2).
Proof.
  intros Hp Hw Hg. assert (set_plane_wf gc mp None p = p) as E by (destruct p, gc, mp; simpl in *; by subst).
  eapply (plane_inv_refill gc mp nsid p); [by rewrite E|done].
Qed.
Lemma get_free_block_wf gc mp p nsid m w p2 : get_free_block p nsid m = (w, p2) →
  plane_wf gc mp p2 = plane_wf gc mp p ∧
  (w = None → free_list p = []) ∧ free_list p = option_list w ++ free_list p2.
Proof.
  intros Hg. pose proof (get_free_block_spec _ _ _ _ _ Hg) as (Hf & _). revert Hg. unfold get_free_block.
  destruct (free_list p) as [|f rest]; [by intros [= <- <-]|].
  destruct (_ !! _); intros [= <- <-]; split_and!; try done; by destruct gc, mp.
Qed.
Lemma init_plane_wf_inv p : plane0 p → plane_inv (init_plane_wf p) ∧
  (∀ n, (3 + n ≤ length (free_list p))%nat →
     (∀ gc mp, is_Some (plane_wf gc mp (init_plane_wf p))) ∧ (n ≤ length (free_list (init_plane_wf p)))%nat).
Proof.
  intros Hp0. pose proof (plane0_inv p Hp0) as Hp. destruct (p0_wf _ Hp0) as (E1 & E2 & E3).
  unfold init_plane_wf.
  destruct (get_free_block p 1 false) as [w1 p1] eqn:G1.
  destruct (get_free_block_wf true false _ _ _ _ _ G1) as (W1 & N1 & F1).
  destruct (get_free_block_wf false true _ _ _ _ _ G1) as (W1' & _).
  pose proof (plane_inv_get_wf false false _ _ _ _ Hp E1 G1) as I1.
  destruct (get_free_block (set_plane_wf false false w1 p1) 1 false) as [w2 p2] eqn:G2.
  destruct (get_free_block_wf false true _ _ _ _ _ G2) as (W2 & N2 & F2).
  destruct (get_free_block_wf false false _ _ _ _ _ G2) as (W2' & _).
  simpl in W1, W1', W2, W2', F2, N2.
  pose proof (plane_inv_get_wf true false _ _ _ _ I1 ltac:(simpl; congruence) G2) as I2.
  destruct (get_free_block (set_plane_wf true false w2 p2) 1 true) as [w3 p3] eqn:G3.
  destruct (get_free_block_wf false false _ _ _ _ _ G3) as (W3 & N3 & F3).
  destruct (get_free_block_wf true false _ _ _ _ _ G3) as (W3' & _).
  simpl in W3, W3', F3, N3.
  pose proof (plane_inv_get_wf false true _ _ _ _ I2 ltac:(simpl; congruence) G3) as I3.
  split; [done|]. intros n Hn.
  pose proof (f_equal length F1) as L1. pose proof (f_equal length F2) as L2.
  pose proof (f_equal length F3) as L3. rewrite length_app in L1, L2, L3.
  assert (∀ w : option Z, (length (option_list w) ≤ 1)%nat) as Hw by (intros []; simpl; lia).
  pose proof (Hw w1). pose proof (Hw w2). pose proof (Hw w3). clear Hw.
  assert (is_Some w1) as [x1 ->].
  { destruct w1; [by eexists|]. rewrite N1 in Hn by done. simpl in Hn. lia. }
  assert (is_Some w2) as [x2 ->].
  { destruct w2; [by eexists|]. rewrite N2 in L1 by done. simpl in L1. lia. }
  assert (is_Some w3) as [x3 ->].
  { destruct w3; [by eexists|]. rewrite N3 in L2 by done. simpl in L1, L2. lia. }
  simpl in *. split; [|lia]. intros [] []; simpl; rewrite ?W3, ?W3'; by eexists.
Qed.
End init.

Section pool_good.
Implicit Types p : plane_allocator.

Lemma get_free_block_good gc mp p nsid w p2 : plane_inv p → plane_wf gc mp p = None →
  pool_good p → get_free_block p nsid mp = (w, p2) → pool_good (set_plane_wf gc mp w p2).
Proof.
  intros Hp Hw Hgood Hg.
  assert (set_plane_wf gc mp None p = p) as E by (destruct p, gc, mp; simpl in *; by subst).
  destruct (plane_inv_refill gc mp nsid p w p2) as [_ Hpool]; [by rewrite E|done|]. rewrite E in Hpool.
  destruct (set_plane_wf_fields gc mp w p2) as (Hb & _).
  intros i b. rewrite Hpool, Hb. intros Hi. pose proof (Hgood i) as Hgi.
  pose proof (pi_range _ Hp i Hi) as Hri. revert Hg. unfold get_free_block.
  destruct (free_list p) as [|f rest] eqn:Ef; [by intros [= <- <-]; apply Hgi|].
  assert (0 ≤ f < BLOCKS_PER_PLANE) as Hf.
  { apply (pi_range _ Hp). unfold pool. rewrite Ef. set_solver. }
  simpl. destruct (blocks p !! Z.to_nat f) as [bf|] eqn:Eb; intros [= <- <-]; simpl; [|by apply Hgi].
  rewrite list_lookup_insert_Some. intros [(Heq & <- & _)|[_ ?]]; [|by apply Hgi].
  assert (i = f) as -> by lia. specialize (Hgi bf Hi Eb). simpl.
  destruct mp; [|done]. by rewrite Z.land_lor_distr_l, Hgi.
Qed.

Lemma init_plane_wf_good p : plane0 p → pool_good (init_plane_wf p).
Proof.
  intros Hp0. pose proof (plane0_inv p Hp0) as Hp. destruct (p0_wf _ Hp0) as (E1 & E2 & E3).
  assert (pool_good p) as Hg.
  { intros i b. unfold pool, wf_list. rewrite E1, E2, E3. apply (p0_good _ Hp0). }
  unfold init_plane_wf.
  destruct (get_free_block p 1 false) as [w1 p1] eqn:G1.
  pose proof (plane_inv_get_wf false false _ _ _ _ Hp E1 G1) as I1.
  pose proof (get_free_block_good false false _ _ _ _ Hp E1 Hg G1) as H1.
  destruct (get_free_block_wf true false _ _ _ _ _ G1) as (W1 & _).
  destruct (get_free_block_wf false true _ _ _ _ _ G1) as (W1' & _).
  destruct (get_free_block (set_plane_wf false false w1 p1) 1 false) as [w2 p2] eqn:G2.
  simpl in W1, W1'.
  pose proof (plane_inv_get_wf true false _ _ _ _ I1 ltac:(simpl; congruence) G2) as I2.
  pose proof (get_free_block_good true false _ _ _ _ I1 ltac:(simpl; congruence) H1 G2) as H2.
  destruct (get_free_block_wf false true _ _ _ _ _ G2) as (W2 & _). simpl in W2.
  destruct (get_free_block (set_plane_wf true false w2 p2) 1 true) as [w3 p3] eqn:G3.
  by apply (get_free_block_good false true _ _ _ _ I2 ltac:(simpl; congruence) H2 G3).
Qed.
End pool_good.

Section bm_init_inv.
Context {PL : Platform}.
Implicit Types (s : bm) (p : plane_allocator).

(** Every plane exists and satisfies [P]. *)
Definition planes_all (P : plane_allocator → Prop) s : Prop :=
  ∀ id, id ∈ plane_ids → ∃ p, bm_planes s !! id = Some p ∧ P p.
(** The same after the planes [pre] went from [P] to [P']. *)
Definition planes_upto (P P' : plane_allocator → Prop) (pre : list plane_id) s : Prop :=
  ∀ id, id ∈ plane_ids → ∃ p, bm_planes s !! id = Some p ∧ if decide (id ∈ pre) then P' p else P p.

Lemma planes_upto_nil P P' s : planes_all P s → planes_upto P P' [] s.
Proof. intros Hs id Hid. destruct (Hs id Hid) as (p & ? & ?). exists p. split; [done|].
  rewrite decide_False by set_solver. done. Qed.
Lemma planes_upto_all P P' s : planes_upto P P' plane_ids s → planes_all P' s.
Proof. intros Hs id Hid. destruct (Hs id Hid) as (p & ? & HP). exists p. by rewrite decide_True in HP. Qed.
Lemma planes_upto_step P P' pre x post p s : plane_ids = pre ++ x :: post → P' p →
  planes_upto P P' pre s → planes_upto P P' (pre ++ [x]) (Bm _ (bm_mach s) (<[x := p]> (bm_planes s))).
Proof.
  intros Hids HP Hs id Hid. simpl. destruct (decide (id = x)) as [->|Hne].
  - exists p. rewrite lookup_insert_eq, decide_True by set_solver. done.
  - destruct (Hs id Hid) as (q & Hq & HPq). exists q. rewrite lookup_insert_ne by done. split; [done|].
    destruct (decide (id ∈ pre)); [rewrite decide_True by set_solver|rewrite decide_False by set_solver]; done.
Qed.
(** The plane a loop is about to process. *)
Lemma planes_upto_next P P' pre x post s : plane_ids = pre ++ x :: post → planes_upto P P' pre s →
  ∃ p, bm_planes s !! x = Some p ∧ P p.
Proof.
  intros Hids Hs. pose proof plane_ids_nodup as Hnd. rewrite Hids in Hnd.
  apply NoDup_app in Hnd as (_ & Hnd & _).
  destruct (Hs x) as (p & Hp & HP); [rewrite Hids; set_solver|]. exists p. split; [done|].
  rewrite decide_False in HP; [done|]. intros Hx. apply (Hnd x Hx). by left.
Qed.

Lemma wlp_plane_at id (Q : plane_allocator → bm → Prop) s :
  (∀ p, bm_planes s !! id = Some p → Q p s) → wlp (plane_at id) Q s.
Proof. intros HQ. unfold plane_at. wlp_steps. by apply HQ. Qed.
Lemma planes_all_lift P m s : planes_all P s → planes_all P (lset (m : mach) s).
Proof. done. Qed.

(** A loop that updates each plane once. *)
Lemma wlp_update_planes P P' f s : (∀ p, P p → P' (f p)) → planes_all P s →
  wlp (for_each plane_ids (λ i, p ← plane_at i; set_plane i (f p))) (λ _, planes_all P') s.
Proof.
  intros Hf Hs. eapply wlp_mono; [|intros u s'; apply (planes_upto_all P P')].
  apply (wlp_for_each (planes_upto P P')); [by apply planes_upto_nil|].
  intros pre x post s' Hids Hup. destruct (planes_upto_next _ _ _ _ _ _ Hids Hup) as (p & Hp & HP).
  wlp_steps. apply wlp_plane_at. intros q Hq. rewrite Hp in Hq. injection Hq as <-.
  unfold set_plane. wlp_steps. by eapply planes_upto_step; [|apply Hf|].
Qed.

Lemma wlp_save_plane_map P map_of x st s : planes_all P s →
  wlp (save_plane_map map_of x st) (λ _, planes_all P) s.
Proof.
  intros Hs. destruct st as [[fil page] count]. unfold save_plane_map. wlp_steps. apply wlp_plane_at.
  intros p Hp. destruct (Nat.eqb count planes_per_page); wlp_steps; [|done].
  destruct a as [[|] ?]; by wlp_steps.
Qed.
Lemma wlp_save_maps P file map_of s : planes_all P s → wlp (save_maps file map_of) (λ _, planes_all P) s.
Proof.
  intros Hs. unfold save_maps. wlp_steps. destruct a as [fil|]; wlp_steps; [|done].
  eapply wlp_mono.
  - eapply (wlp_fold_rc (λ _ s', planes_all P s') (λ s', planes_all P s')); [done|].
    intros pre x post st' s' _ Hs'. eapply wlp_mono; [by apply wlp_save_plane_map|].
    intros [[|] ?] s'' ?; done.
  - intros [r [[fil' page] count]] s' Hs'. assert (planes_all P s') by by destruct r.
    wlp_steps. done.
Qed.

Lemma wlp_restore_maps P P' file set_block s : (∀ m p, P p → P' (apply_map set_block m p)) →
  planes_all P s → wlp (restore_maps file set_block) (λ r s', r = R0 → planes_all P' s') s.
Proof.
  intros Hf Hs. unfold restore_maps. wlp_steps. destruct a as [fil|]; wlp_steps; [|done].
  unfold restore_body. wlp_steps. destruct a1 as [[[|] page] fil']; wlp_steps; [|done].
  eapply wlp_mono.
  - eapply (wlp_fold_rc (planes_upto P P') (λ _, True)).
    { apply planes_upto_nil. by repeat apply planes_all_lift. }
    intros pre x post [[fil2 page2] count] s' Hids Hup.
    destruct (planes_upto_next _ _ _ _ _ _ Hids Hup) as (p & Hp & HP).
    unfold restore_plane_map, set_plane. wlp_steps. apply wlp_plane_at.
    intros q Hq. rewrite Hp in Hq. injection Hq as <-.
    destruct (Nat.eqb count planes_per_page); wlp_steps.
    + destruct a1 as [[[|] page3] fil3]; wlp_steps; [|done].
      by eapply (planes_upto_step P P' pre x post); [|apply Hf|].
    + by eapply (planes_upto_step P P' pre x post); [|apply Hf|].
  - intros [[|e] [[fil2 page2] count]] s' HI; wlp_steps; [|done].
    intros ->. apply planes_upto_all in HI. by repeat apply planes_all_lift.
Qed.

Lemma wlp_scan P full s : (∀ i p, 0 ≤ i → P p → P (retire_block i p)) → planes_all P s →
  wlp (scan_bad_blocks full) (λ _, planes_all P) s.
Proof.
  intros Hret Hs. unfold scan_bad_blocks. apply wlp_bind, wlp_lift. intros rbuf t.
  assert (∀ wbuf s', planes_all P s' → wlp (
    (let txn := if full
    then Txn false TXN_READ TS_USER_IO 0 0 0 zero_addr 0 false 0 0 0 FLASH_PG_SIZE 0 0 0 0
    else Txn false TXN_READ TS_USER_IO 0 0 0 zero_addr 0 false 0 rbuf FLASH_PG_SIZE 1 0 0 0 0 in
    '(_, _) ← fold_rc plane_ids (λ i txn,
       fold_rc (seqZ 0 BLOCKS_PER_PLANE) (scan_plane_block full rbuf wbuf i) txn) txn;
    lift (free_mem rbuf) ≫= λ _, do_if full (lift (free_mem wbuf))) : ST bm unit)
    (λ _, planes_all P) s') as Hgo.
  { intros wbuf s' Hs'. cbv zeta. apply wlp_bind. eapply wlp_mono.
    - eapply (wlp_fold_rc (λ _, planes_all P) (planes_all P)); [done|].
      intros pre x post st s1 Hids Hs1.
      eapply (wlp_fold_rc (λ _, planes_all P) (planes_all P)); [done|].
      intros pre' b post' st' s2 Hb Hs2. destruct x as [[[c w] d] pl].
      unfold scan_plane_block, get_block_data, set_plane. wlp_steps. apply wlp_plane_at. intros p Hp.
      wlp_steps. destruct (negb _); wlp_steps; [done|].
      destruct a0 as [bad txn]. wlp_steps. apply wlp_do_if; [|by wlp_steps]. intros _. wlp_steps.
      intros id Hid. simpl. destruct (decide (id = (c, w, d, pl))) as [->|Hne].
      + rewrite lookup_insert_eq. eexists. split; [done|].
        apply Hret; [assert (b ∈ seqZ 0 BLOCKS_PER_PLANE) as Hbs by (rewrite Hb; set_solver);
          apply elem_of_seqZ in Hbs; lia|].
        destruct (Hs2 _ Hid) as (q & Hq & HPq). rewrite Hp in Hq. by injection Hq as ->.
      + rewrite lookup_insert_ne by done. by apply Hs2.
    - intros [r txn] s1 Hs1. assert (planes_all P s1) by (simpl in Hs1; by destruct r).
      wlp_steps. apply wlp_do_if; [intros _|done]. by wlp_steps. }
  apply wlp_bind. destruct full.
  - apply wlp_bind, wlp_lift. intros wbuf t1. apply wlp_bind, wlp_lift. intros [] t2.
    apply wlp_ret. by apply Hgo.
  - apply wlp_ret. by apply Hgo.
Qed.

Lemma wlp_wipe P s : planes_all P s → wlp wipe_blocks (λ _, planes_all P) s.
Proof.
  intros Hs. unfold wipe_blocks. apply (wlp_for_each (λ _, planes_all P)); [done|].
  intros pre [[[c w] d] p] post s1 _ Hs1. apply (wlp_for_each (λ _, planes_all P)); [done|].
  intros pre' b post' s2 _ Hs2. by wlp_steps.
Qed.

Lemma planes_all_mono (P Q : plane_allocator → Prop) s :
  (∀ p, P p → Q p) → planes_all P s → planes_all Q s.
Proof. intros HPQ Hs id Hid. destruct (Hs id Hid) as (p & ? & ?). eauto. Qed.

Lemma wlp_alloc_planes s : wlp alloc_planes (λ _, planes_all empty_plane) s.
Proof.
  unfold alloc_planes. wlp_steps. 
  eapply wlp_mono.
  - apply (wlp_for_each (λ pre s, ∀ id, id ∈ pre → ∃ p, bm_planes s !! id = Some p ∧ empty_plane p)); [set_solver|].
    intros pre x post s' _ Hs'. unfold set_plane. wlp_steps. intros id Hid. simpl.
    destruct (decide (id = x)) as [->|Hne].
    + rewrite lookup_insert_eq. eexists. split; [done|]. apply empty_plane_init.
    + rewrite lookup_insert_ne by done. apply Hs'. set_solver.
  - by intros [] s' Hs'.
Qed.

Lemma wlp_bm_init wipe full s :
  wlp (bm_init wipe full) (λ _ s', planes_all (λ p, plane_inv p ∧ pool_good p) s') s.
Proof.
  unfold bm_init. apply wlp_bind. eapply wlp_mono; [apply wlp_alloc_planes|]. intros [] s1 H1.
  apply wlp_bind. apply (wlp_mono _ (λ _, planes_all empty_plane)).
  { apply wlp_do_if; [|done]. intros _. by apply wlp_wipe. }
  intros [] s2 H2. wlp_steps. apply (wlp_mono _ (λ _, planes_all plane0)).
  { destruct (_ || _).
    - apply wlp_bind. eapply wlp_mono; [apply (wlp_update_planes empty_plane plane0)|]; [|done|].
      { apply plane0_reset. }
      intros u3 s3 H3. apply wlp_bind. eapply wlp_mono; [by apply (wlp_save_maps plane0)|].
      intros r s4 H4. by wlp_steps.
    - apply wlp_bind. eapply wlp_mono; [apply (wlp_restore_maps empty_plane plane0)|]; [|done|].
      { apply plane0_restore. }
      intros r s3 H3. wlp_steps. apply H3. by destruct r. }
  intros u3 s3 H3. wlp_steps. apply (wlp_mono _ (λ _, planes_all plane0)).
  { destruct (negb _).
    - apply wlp_bind. eapply wlp_mono; [by apply (wlp_scan plane0); [apply plane0_retire|]|].
      intros u4 s4 H4. apply wlp_bind. eapply wlp_mono; [by apply (wlp_save_maps plane0)|].
      intros r s5 H5. by wlp_steps.
    - apply wlp_bind. eapply wlp_mono; [apply (wlp_restore_maps plane0 plane0)|]; [|done|].
      { apply plane0_retire_map. }
      intros r s4 H4. wlp_steps. apply H4. by destruct r. }
  intros u4 s4 H4. apply wlp_bind, (wlp_mono _ (λ _, planes_all plane0)).
  { apply wlp_do_if; [|done]. intros _. apply wlp_bind. eapply wlp_mono; [by apply (wlp_wipe plane0)|].
    intros u5 s5 H5. apply wlp_bind. eapply wlp_mono; [by apply (wlp_scan plane0); [apply plane0_retire|]|].
    intros u6 s6 H6. apply wlp_bind. eapply wlp_mono; [by apply (wlp_save_maps plane0)|].
    intros u7 s7 H7. by apply wlp_wipe. }
  intros u5 s5 H5. unfold assign_wf. apply (wlp_update_planes plane0); [|done].
  intros p Hp. split; [by apply init_plane_wf_inv|by apply init_plane_wf_good].
Qed.
End bm_init_inv.

(** * Bad block maps *)
Definition is_bad (p : plane_allocator) (i : Z) : bool :=
  match blocks p !! Z.to_nat i with Some b => negb (Z.land (flags b) BF_BAD =? 0) | None => false end.

Section bad_maps.
Implicit Types p : plane_allocator.

Lemma plane_bad_map_spec p i : 0 ≤ i < BLOCKS_PER_PLANE →
  length (plane_bad_map p) = 17%nat ∧ GET_BIT (plane_bad_map p) i = is_bad p i.
Proof.
  intros Hi. rewrite GET_BIT_bit. unfold plane_bad_map.
  set (f := λ map i, match blocks p !! Z.to_nat i with
    | Some b => if negb (Z.land (flags b) BF_BAD =? 0) then SET_BIT map i else map | None => map end).
  assert (∀ l m, length m = 17%nat → (∀ x, x ∈ l → 0 ≤ x < BLOCKS_PER_PLANE) →
    length (foldl f m l) = 17%nat ∧
    bit (foldl f m l) i = bit m i || (bool_decide (i ∈ l) && is_bad p i)) as Hgen.
  { induction l as [|x l IH]; intros m Hm Hl; simpl.
    - by rewrite orb_false_r.
    - assert (length (f m x) = 17%nat) as Hf.
      { unfold f. repeat case_match; by rewrite ?length_SET_BIT. }
      destruct (IH (f m x) Hf) as [IH1 IH2]; [set_solver|]. split; [done|]. rewrite IH2.
      assert (bit (f m x) i = bit m i || (bool_decide (i = x) && is_bad p x)) as ->.
      { unfold f, is_bad. destruct (blocks p !! Z.to_nat x) as [b|]; [|by rewrite andb_false_r, orb_false_r].
        destruct (negb _); [|by rewrite andb_false_r, orb_false_r].
        rewrite bit_SET_17 by (done || lia || (apply Hl; by left)). by rewrite andb_true_r, orb_comm. }
      assert (bool_decide (i ∈ x :: l) = bool_decide (i = x) || bool_decide (i ∈ l)) as ->.
      { rewrite <-bool_decide_or. apply bool_decide_ext. apply elem_of_cons. }
      destruct (decide (i = x)) as [->|Hne].
      + rewrite bool_decide_eq_true_2 by done. destruct (bit m x), (bool_decide (x ∈ l)), (is_bad p x); done.
      + rewrite (bool_decide_eq_false_2 (i = x)) by done.
        destruct (bit m i), (bool_decide (i ∈ l)), (is_bad p i); done. }
  destruct (Hgen (seqZ 0 BLOCKS_PER_PLANE) (bitmap_zero BLOCKS_PER_PLANE)) as [H1 H2].
  - by vm_compute.
  - intros x Hx%elem_of_seqZ. lia.
  - split; [done|]. rewrite H2, bit_zero, bool_decide_eq_true_2; [done|]. apply elem_of_seqZ. lia.
Qed.

Lemma is_bad_mark i j p : 0 ≤ i → 0 ≤ j → is_Some (blocks p !! Z.to_nat j) →
  is_bad (mark_bad i p) j = bool_decide (j = i) || is_bad p j.
Proof.
  intros Hi Hj [bj Hbj]. unfold mark_bad. destruct (decide (j = i)) as [->|Hne].
  - rewrite bool_decide_eq_true_2 by done. rewrite Hbj. unfold is_bad. simpl.
    rewrite list_lookup_insert_eq by (by eapply lookup_lt_Some). simpl.
    apply negb_true_iff, Z.eqb_neq. rewrite Z.land_lor_distr_l.
    change (Z.land BF_BAD BF_BAD) with 1. intros E%Z.lor_eq_0_iff. by destruct E.
  - rewrite bool_decide_eq_false_2 by done. destruct (blocks p !! Z.to_nat i) eqn:E; [|done].
    unfold is_bad. simpl. by rewrite list_lookup_insert_ne by lia.
Qed.
Lemma retire_fields i p : free_list (retire_block i p) = list_del i (free_list p) ∧
  (∀ j, blocks (retire_block i p) !! j = blocks (mark_bad i p) !! j).
Proof. unfold retire_block, mark_bad. by destruct (_ !! Z.to_nat i). Qed.

Lemma apply_map_retire m p i : length (blocks p) = Z.to_nat BLOCKS_PER_PLANE → 0 ≤ i < BLOCKS_PER_PLANE →
  is_bad (apply_map retire_block m p) i = GET_BIT m i || is_bad p i ∧
  (i ∈ free_list (apply_map retire_block m p) ↔ i ∈ free_list p ∧ GET_BIT m i = false).
Proof.
  intros Hlen Hi. unfold apply_map.
  assert (∀ l p, length (blocks p) = Z.to_nat BLOCKS_PER_PLANE → (∀ x, x ∈ l → 0 ≤ x) →
    let p' := foldl (λ p idx, if GET_BIT m idx then retire_block idx p else p) p l in
    is_bad p' i = (bool_decide (i ∈ l) && GET_BIT m i) || is_bad p i ∧
    (i ∈ free_list p' ↔ i ∈ free_list p ∧ (i ∈ l → GET_BIT m i = false))) as Hgen.
  { clear p Hlen. induction l as [|x l IH]; intros p Hlen Hl; simpl; [split; [done|set_solver]|].
    set (p1 := if GET_BIT m x then retire_block x p else p).
    assert (length (blocks p1) = Z.to_nat BLOCKS_PER_PLANE) as Hlen1.
    { subst p1. destruct (GET_BIT m x); [|done]. unfold retire_block, mark_bad.
      destruct (blocks p !! Z.to_nat x); [|done]. simpl. by rewrite length_insert. }
    destruct (IH p1 Hlen1) as [IH1 IH2]; [intros y Hy; apply Hl; by right|].
    assert (is_Some (blocks p !! Z.to_nat i)) as Hsome by (apply lookup_lt_is_Some; lia).
    assert (0 ≤ x) as Hx by (apply Hl; by left).
    assert (is_bad p1 i = (bool_decide (i = x) && GET_BIT m x) || is_bad p i) as Hb1.
    { subst p1. destruct (GET_BIT m x); [|by rewrite andb_false_r].
      destruct (retire_fields x p) as [_ Hbl]. unfold is_bad at 1. rewrite Hbl.
      change (is_bad (mark_bad x p) i = bool_decide (i = x) && true || is_bad p i).
      rewrite is_bad_mark by (done || lia). by rewrite andb_true_r. }
    assert (i ∈ free_list p1 ↔ i ∈ free_list p ∧ (i = x → GET_BIT m x = false)) as Hf1.
    { subst p1. destruct (GET_BIT m x).
      - destruct (retire_fields x p) as [-> _]. rewrite elem_of_list_del. naive_solver.
      - naive_solver. }
    split.
    - rewrite IH1, Hb1. destruct (decide (i = x)) as [->|Hne].
      + rewrite (bool_decide_eq_true_2 (x = x)), (bool_decide_eq_true_2 (x ∈ x :: l)) by (done || by left).
        destruct (bool_decide _), (GET_BIT m x), (is_bad p x); done.
      + rewrite (bool_decide_eq_false_2 (i = x)) by done. simpl.
        f_equal. f_equal. apply bool_decide_ext. set_solver.
    - rewrite IH2, Hf1. rewrite elem_of_cons. split; [|naive_solver].
      intros [[? H1] H2]. split; [done|]. intros [->|?]; auto. }
  destruct (Hgen (seqZ 0 BLOCKS_PER_PLANE) p Hlen) as [H1 H2].
  - intros x Hx%elem_of_seqZ. lia.
  - assert (i ∈ seqZ 0 BLOCKS_PER_PLANE) as Hin by (apply elem_of_seqZ; lia).
    rewrite bool_decide_eq_true_2 in H1 by done. split; [done|]. rewrite H2. clear -Hin. tauto.
Qed.
End bad_maps.

(** * Theorems *)
Section theorems.
Context {PL : Platform}.
Implicit Types s : bm.

(** C30: any sequence of page allocations (for user data, garbage collection or
    mapping, on any planes) succeeds while every plane has as many free blocks as
    there are requests; the pages handed out are valid, all different, LSB pages
    that had not been handed out before, and are never fresh again. *)
Theorem bm_pages_never_reused l s :
  bm_inv s → bm_ready (length l) s → Forall (λ r, plane_ok (ar_addr r)) l →
  ∃ pages s', alloc_pages l s = Some (pages, s') ∧ NoDup pages ∧ length pages = length l ∧
    (∀ a, a ∈ pages → addr_ok a ∧ page_fresh s a ∧ GET_BIT lsb_bitmap (page a) = true) ∧
    (∀ a, page_fresh s' a ↔ page_fresh s a ∧ a ∉ pages).
Proof.
  intros Hs Hr Hl. pose proof (wp_alloc_pages l s Hs Hr Hl) as Hw.
  apply wp_run in Hw as (pages & s' & E & _ & ?). by exists pages, s'.
Qed.

(** C33: whatever path [bm_init] takes (wipe, reset, restored files, bad block
    scans), if it completes then every plane satisfies the allocator invariant
    and no block that pages will be taken from is marked bad. *)
Theorem bm_init_establishes wipe full_scan s s' :
  bm_init wipe full_scan s = Some (tt, s') →
  bm_inv s' ∧ ∀ a p i, plane_ok a → bm_planes s' !! addr_plane a = Some p →
    i ∈ pool p → is_bad p i = false.
Proof.
  intros E. pose proof (wlp_bm_init wipe full_scan s _ _ E) as Hs. split.
  - intros a Ha. destruct (Hs _ (elem_of_plane_ids a Ha)) as (p & ? & ? & _). eauto.
  - intros a p i Ha Hp Hi. destruct (Hs _ (elem_of_plane_ids a Ha)) as (q & Hq & _ & Hg).
    rewrite Hp in Hq. injection Hq as <-. unfold is_bad.
    destruct (blocks p !! Z.to_nat i) as [b|] eqn:Eb; [|done]. by rewrite (Hg i b Hi Eb).
Qed.

Context {PO : @PlatformOk PL}.

(** C31: saving the plane information never disturbs the planes, and when saving
    and a later restoring into freshly allocated planes both succeed, each
    plane's free list is exactly the blocks that were free or assigned as a write
    frontier without a page used: a partly written block is never offered again. *)
Theorem plane_info_roundtrip s :
  planes_all plane_inv s → AllocLive →
  ∃ r s1, save_plane_info s = Some (r, s1) ∧ bm_planes s1 = bm_planes s ∧
    (r = R0 → ∀ s2, m_fs (bm_mach s2) = m_fs (bm_mach s1) → planes_all empty_plane s2 →
       ∃ r2 s3, restore_plane_info s2 = Some (r2, s3) ∧
         (r2 = R0 → ∀ id p, id ∈ plane_ids → bm_planes s !! id = Some p →
            ∃ p3, bm_planes s3 !! id = Some p3 ∧
              free_list p3 = filter (λ i, reusable p i = true) (seqZ 0 BLOCKS_PER_PLANE) ∧
              free_list_size p3 = Z.of_nat (length (free_list p3)))).
Proof using All.
  intros Hs Ha. assert (planes_exist s) as Hex.
  { intros id Hid. destruct (Hs id Hid) as (p & ? & _). by eexists. }
  pose proof (wp_save_maps PLANE_INFO_FILE plane_free_map s Hex
    (λ _ p _, plane_free_map_length p) Ha) as Hw.
  apply wp_run in Hw as (r & s1 & E & Hpl & _ & Hr). exists r, s1. split; [exact E|]. split; [exact Hpl|].
  intros Er s2 Hfs Hs2. destruct (Hr Er) as (f & c & Em & Hc & Hsaved & _).
  assert (planes_exist s2) as Hex2.
  { intros id Hid. destruct (Hs2 id Hid) as (p & ? & _). by eexists. }
  pose proof (wp_restore_maps restore_free PLANE_INFO_FILE c (maps_of plane_free_map s plane_ids) s2
    Hex2 Hsaved (maps_of_length plane_free_map s plane_ids Hex) ltac:(by rewrite Hfs, Em) Ha) as Hw2.
  apply wp_run in Hw2 as (r2 & s3 & E2 & _ & Hr2). exists r2, s3. split; [exact E2|].
  intros Er2 id p Hid Hp. destruct (Hs2 id Hid) as (p2 & Hp2 & Hemp).
  apply list_elem_of_lookup in Hid as Hk. destruct Hk as [k Hk].
  pose proof (proj1 (Hr2 Er2) k id p2 Hk Hp2) as Hres.
  rewrite decide_True in Hres by by eapply lookup_lt_Some.
  rewrite (maps_of_lookup plane_free_map s plane_ids k id p Hex Hk Hp) in Hres. simpl in Hres.
  eexists. split; [exact Hres|]. destruct Hemp as (_ & Hf & Hsz & _).
  rewrite apply_map_restore_free by done. simpl. split; [|done].
  apply filter_ext_in. intros i Hi%elem_of_seqZ. destruct (Hs id Hid) as (q & Hq & Hinv).
  rewrite Hp in Hq. injection Hq as <-. by rewrite plane_free_map_bit by (done || lia).
Qed.

(** Saving the bad block list and restoring it later marks bad exactly the
    blocks that were bad (besides those already marked) and takes them, and no
    others, off the free lists. *)
Theorem bad_blocks_roundtrip s :
  planes_exist s → AllocLive →
  ∃ r s1, save_bad_blocks s = Some (r, s1) ∧ bm_planes s1 = bm_planes s ∧
    (r = R0 → ∀ s2, m_fs (bm_mach s2) = m_fs (bm_mach s1) →
       planes_all (λ p, length (blocks p) = Z.to_nat BLOCKS_PER_PLANE) s2 →
       ∃ r2 s3, restore_bad_blocks s2 = Some (r2, s3) ∧
         (r2 = R0 → ∀ id p p2 i, id ∈ plane_ids → bm_planes s !! id = Some p →
            bm_planes s2 !! id = Some p2 → 0 ≤ i < BLOCKS_PER_PLANE →
            ∃ p3, bm_planes s3 !! id = Some p3 ∧ is_bad p3 i = is_bad p i || is_bad p2 i ∧
              (i ∈ free_list p3 ↔ i ∈ free_list p2 ∧ is_bad p i = false))).
Proof using All.
  intros Hex Ha.
  assert (∀ p, length (plane_bad_map p) = 17%nat) as Hlen by (intros p; by apply (plane_bad_map_spec p 0)).
  pose proof (wp_save_maps BAD_BLOCKS_FILE plane_bad_map s Hex (λ _ p _, Hlen p) Ha) as Hw.
  apply wp_run in Hw as (r & s1 & E & Hpl & _ & Hr). exists r, s1. split; [exact E|]. split; [exact Hpl|].
  intros Er s2 Hfs Hs2. destruct (Hr Er) as (f & c & Em & Hc & Hsaved & _).
  assert (planes_exist s2) as Hex2.
  { intros id Hid. destruct (Hs2 id Hid) as (p & ? & _). by eexists. }
  pose proof (wp_restore_maps retire_block BAD_BLOCKS_FILE c (maps_of plane_bad_map s plane_ids) s2
    Hex2 Hsaved (maps_of_length plane_bad_map s plane_ids Hex) ltac:(by rewrite Hfs, Em) Ha) as Hw2.
  apply wp_run in Hw2 as (r2 & s3 & E2 & _ & Hr2). exists r2, s3. split; [exact E2|].
  intros Er2 id p p2 i Hid Hp Hp2 Hi. destruct (Hs2 id Hid) as (p2' & Hp2' & Hl2).
  rewrite Hp2 in Hp2'. injection Hp2' as <-.
  apply list_elem_of_lookup in Hid as Hk. destruct Hk as [k Hk].
  pose proof (proj1 (Hr2 Er2) k id p2 Hk Hp2) as Hres.
  rewrite decide_True in Hres by by eapply lookup_lt_Some.
  rewrite (maps_of_lookup plane_bad_map s plane_ids k id p Hex Hk Hp) in Hres. simpl in Hres.
  eexists. split; [exact Hres|].
  destruct (apply_map_retire (plane_bad_map p) p2 i Hl2 Hi) as [H1 H2].
  destruct (plane_bad_map_spec p i Hi) as [_ Hb]. rewrite Hb in H1, H2. split; [exact H1|exact H2].
Qed.

(** Invalidating a page only sets that page's bit and the block's counter:
    allocation state, other pages and other planes are as before. *)
Theorem bm_invalidate_correct a s : addr_ok a → bm_inv s →
  ∃ s', bm_invalidate_page a s = Some (tt, s') ∧ bm_inv s' ∧ bm_mach s' = bm_mach s ∧
    (∀ a', page_fresh s' a' ↔ page_fresh s a').
Proof using PL.
  intros Ha Hs. pose proof (wp_bm_invalidate a s Ha Hs) as Hw.
  apply wp_run in Hw as ([] & s' & E & ? & ? & ? & _). by exists s'.
Qed.
End theorems.

(** * Examples *)

(** All planes after a reset, with their write frontiers. *)
Definition ready_plane : plane_allocator := init_plane_wf (reset_blocks init_plane).
Definition all_planes (p : plane_allocator) : gmap plane_id plane_allocator :=
  list_to_map ((λ i, (i, p)) <$> plane_ids).
Definition ready_bm : bm := Bm _ sim_mach (all_planes ready_plane).

Lemma all_planes_lookup p id q : all_planes p !! id = Some q → q = p.
Proof.
  unfold all_planes. intros E%elem_of_list_to_map_2.
  by apply list_elem_of_fmap in E as (? & [= <- <-] & _).
Qed.
Lemma all_planes_all (P : plane_allocator → Prop) p (m : mach) : P p → planes_all P (Bm sim m (all_planes p)).
Proof.
  intros HP id Hid. exists p. split; [|done]. simpl. unfold all_planes.
  apply elem_of_list_to_map_1'; [|by apply list_elem_of_fmap; eauto].
  intros y (? & [= <- <-] & _)%list_elem_of_fmap. done.
Qed.

Lemma ready_plane_inv : plane_inv ready_plane ∧
  (∀ gc mp, is_Some (plane_wf gc mp ready_plane)) ∧ (1045 ≤ length (free_list ready_plane))%nat.
Proof.
  destruct (init_plane_wf_inv (reset_blocks init_plane)) as [Hinv Hn].
  { apply plane0_reset, empty_plane_init. }
  split; [done|]. apply Hn. rewrite reset_blocks_eq by done. cbn [free_list set_free].
  rewrite length_reverse, length_seqZ. unfold BLOCKS_PER_PLANE. lia.
Qed.
Lemma ready_bm_inv : bm_inv ready_bm.
Proof.
  intros a Ha.
  destruct (all_planes_all plane_inv ready_plane sim_mach (proj1 ready_plane_inv) _ (elem_of_plane_ids a Ha))
    as (p & ? & ?). eauto.
Qed.
Lemma ready_bm_ready n : (n ≤ 1045)%nat → bm_ready n ready_bm.
Proof.
  intros Hn a p Ha Hp%all_planes_lookup. subst p. destruct ready_plane_inv as (_ & ? & ?).
  split; [done|lia].
Qed.

Theorem bm_pages_never_reused_witness :
  ∃ pages s', alloc_pages [AllocReq 1 zero_addr false false; AllocReq 1 zero_addr false true;
                           AllocReq 1 zero_addr false false] ready_bm = Some (pages, s') ∧ NoDup pages.
Proof.
  destruct (bm_pages_never_reused [AllocReq 1 zero_addr false false; AllocReq 1 zero_addr false true;
              AllocReq 1 zero_addr false false] ready_bm) as (pages & s' & H1 & H2 & _).
  - apply ready_bm_inv.
  - apply ready_bm_ready. simpl. lia.
  - repeat constructor; simpl; unfold NR_CHANNELS, CHIPS_PER_CHANNEL, DIES_PER_CHIP, PLANES_PER_DIE; lia.
  - exists pages, s'. split; [exact H1|exact H2].
Defined.

(** The volume after an earlier run: block 0..63 of every plane free, no bad block. *)
Definition old_volume : gmap string (list Z) :=
  <[PLANE_INFO_FILE := concat (replicate 90 (2 ^ 64 - 1 :: replicate 16 0)) ++ replicate 6 0]>
  (<[BAD_BLOCKS_FILE := replicate 1536 0]> ∅).
Definition old_bm : bm := Bm sim (set_fs (old_volume : fs) sim_mach) ∅.

Theorem bm_init_establishes_witness : ∃ s', bm_init false false old_bm = Some (tt, s') ∧ bm_inv s'.
Proof.
  destruct (bm_init false false old_bm) as [[[] s']|] eqn:E.
  - exists s'. split; [reflexivity|]. exact (proj1 (bm_init_establishes false false old_bm s' E)).
  - exfalso. assert (match bm_init false false old_bm with Some _ => true | None => false end = true) as E2
      by (vm_compute; reflexivity). rewrite E in E2. discriminate E2.
Defined.

Theorem plane_info_roundtrip_witness : ∃ r s1, save_plane_info ready_bm = Some (r, s1).
Proof.
  destruct (plane_info_roundtrip ready_bm) as (r & s1 & E & _).
  - apply (all_planes_all plane_inv). apply ready_plane_inv.
  - done.
  - exists r, s1. exact E.
Defined.
Theorem bad_blocks_roundtrip_witness : ∃ r s1, save_bad_blocks ready_bm = Some (r, s1).
Proof.
  destruct (bad_blocks_roundtrip ready_bm) as (r & s1 & E & _).
  - intros id Hid. destruct (all_planes_all (λ _, True) ready_plane sim_mach I id Hid) as (p & ? & _). by eexists.
  - done.
  - exists r, s1. exact E.
Defined.
Theorem bm_invalidate_correct_witness : ∃ s', bm_invalidate_page zero_addr ready_bm = Some (tt, s') ∧ bm_inv s'.
Proof.
  destruct (bm_invalidate_correct zero_addr ready_bm) as (s' & E & Hs & _).
  - repeat split; simpl; unfold NR_CHANNELS, CHIPS_PER_CHANNEL, DIES_PER_CHIP, PLANES_PER_DIE,
      BLOCKS_PER_PLANE, PAGES_PER_BLOCK; lia.
  - apply ready_bm_inv.
  - exists s'. split; [exact E|exact Hs].
Defined.


(** A plane whose blocks are all taken and whose data frontier has just filled. *)
Definition full_plane : plane_allocator := Plane [] [] 0 None None None.
Theorem bm_alloc_null_frontier_witness :
  bm_alloc_page 1 zero_addr false false (Bm sim sim_mach {[addr_plane zero_addr := full_plane]}) = None.
Proof.
  apply (bm_alloc_null_frontier 1 zero_addr false false full_plane).
  - apply lookup_singleton_eq.
  - reflexivity.
Defined.
