(* ===== verification/BlockRestart.v ===== *)
(** Restarting the block manager: what [bm_shutdown] leaves on the volume is
    what [bm_init] rebuilds the planes from, and no page that had been handed
    out is free again afterwards. *)
From S2P Require Import Prelude Bitmap Flash Machine BlockManager BlockMaps.

#[local] Unset Default Proof Using.
Lemma plane_ids_inv id : id ∈ plane_ids → ∃ a, plane_ok a ∧ addr_plane a = id.
Proof.
  destruct id as [[[c w] d] p]. intros Hid. exists (Addr c w d p 0 0). split; [|done].
  unfold plane_ids in Hid. apply list_elem_of_bind in Hid as (c' & Hid & Hc%elem_of_seqZ).
  apply list_elem_of_bind in Hid as (w' & Hid & Hw%elem_of_seqZ).
  apply list_elem_of_bind in Hid as (d' & Hid & Hd%elem_of_seqZ).
  apply list_elem_of_bind in Hid as (p' & Hid & Hp%elem_of_seqZ).
  apply list_elem_of_singleton in Hid. simplify_eq. unfold plane_ok. simpl. lia.
Qed.
(** Never to be computed in proofs. *)
#[local] Opaque plane_ids init_plane apply_map.
(** The frontiers come from the free list. *)
Lemma pool_get_wf gc mp nsid p w p2 : plane_wf gc mp p = None → get_free_block p nsid mp = (w, p2) →
  pool (set_plane_wf gc mp w p2) ≡ₚ pool p.
Proof.
  intros Hw Hg. destruct (get_free_block_spec _ _ _ _ _ Hg) as (Hfree & _ & Hoth & _).
  destruct (set_plane_wf_fields gc mp w p2) as (_ & Hf & _). unfold pool.
  rewrite wf_list_set, Hf, Hfree, Hoth, (wf_list_split gc mp p), Hw. simpl. solve_Permutation.
Qed.
Lemma pool_init_wf p : plane0 p → pool (init_plane_wf p) ≡ₚ free_list p.
Proof.
  intros Hp0. destruct (p0_wf _ Hp0) as (E1 & E2 & E3).
  assert (pool p = free_list p) as <- by (unfold pool, wf_list; by rewrite E1, E2, E3).
  unfold init_plane_wf.
  destruct (get_free_block p 1 false) as [w1 p1] eqn:G1.
  destruct (get_free_block_wf true false _ _ _ _ _ G1) as (W1 & _).
  destruct (get_free_block_wf false true _ _ _ _ _ G1) as (W1' & _).
  destruct (get_free_block (set_plane_wf false false w1 p1) 1 false) as [w2 p2] eqn:G2.
  destruct (get_free_block_wf false true _ _ _ _ _ G2) as (W2 & _). simpl in W1, W1', W2.
  assert (plane_wf true false (set_plane_wf false false w1 p1) = None) as N2 by (simpl; congruence).
  assert (plane_wf false true (set_plane_wf true false w2 p2) = None) as N3 by (simpl; congruence).
  destruct (get_free_block (set_plane_wf true false w2 p2) 1 true) as [w3 p3] eqn:G3.
  rewrite (pool_get_wf false true _ _ _ _ N3 G3), (pool_get_wf true false _ _ _ _ N2 G2).
  by apply (pool_get_wf false false _ _ _ _ E1 G1).
Qed.
Lemma elem_of_pool_init p b : plane0 p → b ∈ pool (init_plane_wf p) → b ∈ free_list p.
Proof. intros Hp Hb. by rewrite <-(pool_init_wf p Hp). Qed.
(** A plane before a shutdown and after the restart. *)
Definition restarted_plane (p0 : plane_allocator) (m : list Z) (p : plane_allocator) : plane_allocator :=
  init_plane_wf (apply_map retire_block m (apply_map restore_free (plane_free_map p) p0)).
Lemma restored_free p0 p b : empty_plane p0 → plane_inv p →
  b ∈ free_list (apply_map restore_free (plane_free_map p) p0) → reusable p b = true.
Proof.
  intros (_ & Hf & Hz & _) Hp. rewrite apply_map_restore_free by done.
  cbn [free_list set_free]. intros [Hb Hr%elem_of_seqZ]%list_elem_of_filter.
  rewrite plane_free_map_bit in Hb; [done|done|]. lia.
Qed.
Lemma reusable_fresh p b (blk : block_data) j g : reusable p b = true → 0 ≤ j < wf_slots →
  page_idx_map !! Z.to_nat j = Some g → fresh p b g.
Proof.
  unfold reusable. intros [Hin%bool_decide_eq_true Hidx]%andb_true_iff Hj Hg.
  split; [done|]. destruct (blocks p !! Z.to_nat b) as [blk0|] eqn:E0; [|done]. apply Z.eqb_eq in Hidx.
  exists blk0, j. split; [done|]. split; [lia|done].
Qed.
Lemma pool_index p b blk : plane_inv p → b ∈ pool p → blocks p !! Z.to_nat b = Some blk → 0 ≤ page_write_index blk.
Proof.
  intros Hp Hb Hblk. unfold pool in Hb. apply elem_of_app in Hb as [Hb|Hb].
  - destruct (pi_wf _ Hp b blk Hb Hblk). done.
  - rewrite (pi_free _ Hp b blk Hb Hblk). lia.
Qed.
Lemma fresh_restarted p0 p m b g : empty_plane p0 → plane_inv p →
  plane_inv (restarted_plane p0 m p) → fresh (restarted_plane p0 m p) b g → fresh p b g.
Proof.
  intros He Hp. unfold restarted_plane. set (p1 := apply_map restore_free (plane_free_map p) p0).
  assert (plane0 p1) as H1 by exact (plane0_restore (plane_free_map p) p0 He).
  assert (∀ b, b ∈ free_list p1 → reusable p b = true) as Hfree by (intros b'; exact (restored_free p0 p b' He Hp)).
  clearbody p1. set (p2 := apply_map retire_block m p1).
  assert (plane0 p2) as H2 by exact (plane0_retire_map m p1 H1).
  assert (∀ b, b ∈ free_list p2 → b ∈ free_list p1) as Hret.
  { intros b' Hb'. destruct (apply_map_retire m p1 b' (p0_len _ H1) (p0_range _ H2 _ Hb')) as [_ Hret]. by apply Hret in Hb' as []. }
  clearbody p2. intros Hp' [Hb (blk & j & Hblk & Hj & Hg)].
  pose proof (pool_index _ _ _ Hp' Hb Hblk) as Hi.
  apply (reusable_fresh p b blk j); [|lia|done]. apply Hfree, Hret. exact (elem_of_pool_init _ _ H2 Hb).
Qed.

Section restart.
Context {PL : Platform} {PO : @PlatformOk PL} {AL : @AllocLive PL} {FL : @FsLive PL}.
Implicit Types s : bm.

(** The volume holds the free blocks of [s], and some list of bad blocks. *)
Definition plane_file s (f : fs) : Prop :=
  ∃ c, contents f PLANE_INFO_FILE = Some c ∧ saved c (maps_of plane_free_map s plane_ids).
Definition bad_file (f : fs) : Prop :=
  ∃ c maps, contents f BAD_BLOCKS_FILE = Some c ∧ saved c maps ∧ length maps = length plane_ids.

Lemma bm_inv_planes_all s : bm_inv s → planes_all plane_inv s.
Proof.
  intros Hs id Hid. destruct (plane_ids_inv id Hid) as (a & Ha & <-). destruct (Hs a Ha) as (p & ? & ?). by exists p.
Qed.
Lemma wp_shutdown s (Q : () → bm → Prop) : bm_inv s →
  (∀ f, plane_file s f → other_files PLANE_INFO_FILE (m_fs (bm_mach s)) f →
     Q tt (Bm _ (set_fs f (scratch (bm_mach s))) (bm_planes s))) →
  wp bm_shutdown Q s.
Proof.
  intros Hs%bm_inv_planes_all HQ. unfold bm_shutdown, save_plane_info. wp_step.
  eapply wp_mono; [apply wp_save_maps|].
  - intros id Hid. destruct (Hs id Hid) as (p & ? & _). by exists p.
  - intros. apply plane_free_map_length.
  - apply AL.
  - intros r [m' ps] (Hpl & Hlive & Hr). cbn [bm_planes bm_mach] in *. subst ps. destruct (Hr (Hlive FL)) as (f & c & -> & Hc & Hsv & Ho).
    wp_step. apply HQ; [by exists c|done].
Qed.

Lemma wp_alloc_planes s (Q : () → bm → Prop) : 0 < m_next (bm_mach s) →
  (∀ ps, (∀ id, id ∈ plane_ids → ps !! id = Some init_plane) →
     Q tt (Bm _ (Mach _ (m_dev (bm_mach s)) (m_mem (bm_mach s)) (m_next (bm_mach s) + 1) (m_fs (bm_mach s)) (m_stats (bm_mach s))) ps)) →
  wp alloc_planes Q s.
Proof.
  intros Hn HQ. unfold alloc_planes. wp_step. wp_step. unfold wp at 1, slaballoc. simpl. rewrite (AL _).
  wp_step. wp_step; [by rewrite (proj2 (Z.eqb_neq _ _)) by lia|]. 
  eapply wp_mono; [apply (wp_for_each (λ pre s', bm_mach s' = Mach _ (m_dev (bm_mach s)) (m_mem (bm_mach s)) (m_next (bm_mach s) + 1) (m_fs (bm_mach s)) (m_stats (bm_mach s)) ∧
    ∀ id, id ∈ pre → bm_planes s' !! id = Some init_plane))|].
  - split; [done|]. intros ? []%elem_of_nil.
  - intros pre x post s' _ [E H]. unfold set_plane. wp_step. simpl. split; [done|].
    intros id [Hid| ->%list_elem_of_singleton]%elem_of_app.
    + destruct (decide (x = id)) as [->|]; [by rewrite lookup_insert_eq|]. rewrite lookup_insert_ne by done. by apply H.
    + by rewrite lookup_insert_eq.
  - intros [] [m' ps] [E H]. cbn [bm_planes bm_mach] in *. subst m'. by apply HQ.
Qed.
Lemma wp_assign s (Q : () → bm → Prop) : planes_exist s →
  (∀ ps, (∀ id p, id ∈ plane_ids → bm_planes s !! id = Some p → ps !! id = Some (init_plane_wf p)) →
     Q tt (Bm _ (bm_mach s) ps)) → wp assign_wf Q s.
Proof.
  intros Hex HQ. unfold assign_wf.
  eapply wp_mono; [apply (wp_for_each (λ pre s', bm_mach s' = bm_mach s ∧ ∀ id p, id ∈ plane_ids → bm_planes s !! id = Some p →
    bm_planes s' !! id = Some (if decide (id ∈ pre) then init_plane_wf p else p)))|].
  - split; [done|]. intros id p _ Hp. by rewrite decide_False by apply not_elem_of_nil.
  - intros pre x post s' Eids [E H]. destruct (Hex x) as [p Hp]; [rewrite Eids; set_solver|].
    assert (x ∉ pre) as Hx.
    { pose proof plane_ids_nodup as Hnd. rewrite Eids in Hnd. apply NoDup_app in Hnd as (_ & Hd & _). intros Hin. apply (Hd x Hin). by left. }
    assert (x ∈ plane_ids) as Hxi by (rewrite Eids; set_solver).
    specialize (H x p Hxi Hp) as Hx'. rewrite decide_False in Hx' by done.
    unfold plane_at, set_plane. wp_step. wp_step. wp_step. apply wp_deref. exists p. split; [done|]. wp_step. split; [done|].
    intros id q Hid Hq. simpl. destruct (decide (id = x)) as [->|Hne].
    + rewrite lookup_insert_eq, decide_True by set_solver. by simplify_eq.
    + rewrite lookup_insert_ne, (H id q) by done. f_equal. destruct (decide (id ∈ pre)); [rewrite decide_True by set_solver|rewrite decide_False by set_solver]; done.
  - intros [] [m' ps] [E H]. cbn [bm_planes bm_mach] in *. subst m'. apply HQ. intros id p Hid Hp. by rewrite (H id p Hid Hp), decide_True.
Qed.

(** Flash and files are as they were, memory too but for the counter. *)
Record mach_kept (m m' : mach) : Prop := {
  mk_dev : m_dev m' = m_dev m;
  mk_mem : m_mem m' = m_mem m;
  mk_next : m_next m ≤ m_next m';
  mk_files : contents (m_fs m') = contents (m_fs m);
}.
Lemma wp_bm_restart s0 s (Q : () → bm → Prop) : bm_inv s0 →
  plane_file s0 (m_fs (bm_mach s)) → bad_file (m_fs (bm_mach s)) →
  0 < m_next (bm_mach s) → (∀ id, m_next (bm_mach s) ≤ id → m_mem (bm_mach s) !! id = None) →
  (∀ s', bm_inv s' → mach_kept (bm_mach s) (bm_mach s') → (∀ a, page_fresh s' a → page_fresh s0 a) → Q tt s') →
  wp (bm_init false false) Q s.
Proof.
  intros Hs0 (c1 & Hc1 & Hsv1) (c2 & maps2 & Hc2 & Hsv2 & Hl2) Hn Hmem HQ.
  assert (wp (bm_init false false) (λ _ s', mach_kept (bm_mach s) (bm_mach s') ∧
    ∀ k id p0, plane_ids !! k = Some id → bm_planes s0 !! id = Some p0 → ∃ m, length m = 17%nat ∧
      bm_planes s' !! id = Some (restarted_plane init_plane m p0)) s) as Hw.
  2:{ apply wp_run in Hw as ([] & s' & E & Hk & Hpl). unfold wp. rewrite E.
      pose proof (wlp_bm_init false false s _ _ E) as Hinv.
      assert (bm_inv s') as Hs'. { intros a Ha. destruct (Hinv _ (elem_of_plane_ids a Ha)) as (p & ? & ? & _). eauto. }
      apply HQ; [done|done|]. intros a (Ha & Hb & p' & Hp' & Hf). split; [done|]. split; [done|].
      destruct (Hs0 a Ha) as (p0 & Hp0 & Hi0). exists p0. split; [done|].
      pose proof (elem_of_plane_ids a Ha) as [k Hki]%list_elem_of_lookup.
      destruct (Hpl k _ p0 Hki Hp0) as (m & Hm & Ep). rewrite Hp' in Ep. injection Ep as ->.
      eapply fresh_restarted; [apply empty_plane_init|done| |exact Hf]. destruct (Hs' a Ha) as (q & Hq & Hiq). by simplify_eq. }
  pose proof (bm_inv_planes_all _ Hs0) as Hall0.
  assert (planes_exist s0) as Hex0 by (intros id Hid; destruct (Hall0 id Hid) as (p & ? & _); by exists p).
  unfold bm_init. wp_step. apply wp_alloc_planes; [done|]. intros ps1 Hps1. wp_step. wp_step. wp_step. wp_step.
  set (m1 := Mach _ _ _ _ _ _). unfold fat_stat. wp_step. change (lget (Bm _ m1 ps1)) with m1.
  rewrite (proj2 (open_live PLANE_INFO_FILE (m_fs m1) ltac:(by exists c1))). rewrite bool_decide_eq_true_2 by done. cbn [negb orb].
  wp_step. wp_step. eapply wp_mono.
  { apply (wp_restore_maps restore_free PLANE_INFO_FILE c1 (maps_of plane_free_map s0 plane_ids)); [|done|by apply maps_of_length|done|apply AL].
    intros id Hid. exists init_plane. by apply Hps1. }
  intros r [m2 ps2] [Hlive Hr]. destruct (Hr (Hlive FL)) as (Hr1 & f2 & Em2 & Hf2). rewrite (Hlive FL). cbn [bm_planes bm_mach] in Hr1, Em2. subst m2.
  wp_step; [done|]. wp_step. wp_step. wp_step. change (lget (Bm _ ?m ps2)) with m. change (m_fs (set_fs f2 _)) with f2.
  rewrite (proj2 (open_live BAD_BLOCKS_FILE f2 ltac:(rewrite Hf2; by exists c2))).
  rewrite bool_decide_eq_true_2 by done. cbn [negb orb].
  assert (∀ k id p0, plane_ids !! k = Some id → bm_planes s0 !! id = Some p0 →
    ps2 !! id = Some (apply_map restore_free (plane_free_map p0) init_plane)) as Hps2.
  { intros k id p0 Hk Hp0. rewrite (Hr1 k id init_plane Hk) by (apply Hps1; by eapply list_elem_of_lookup_2).
    rewrite decide_True by by eapply lookup_lt_Some. by rewrite (maps_of_lookup plane_free_map s0 plane_ids k id p0 Hex0 Hk Hp0). }
  wp_step. wp_step. eapply wp_mono.
  { apply (wp_restore_maps retire_block BAD_BLOCKS_FILE c2 maps2); [|done|done|by rewrite <-Hc2; simpl; rewrite Hf2|apply AL].
    intros id [k Hk]%list_elem_of_lookup. destruct (Hall0 id ltac:(by eapply list_elem_of_lookup_2)) as (p0 & Hp0 & _). eexists. by eapply Hps2. }
  intros r2 [m3 ps3] [Hlive2 Hrr]. destruct (Hrr (Hlive2 FL)) as (Hr2 & f3 & Em3 & Hf3). rewrite (Hlive2 FL). cbn [bm_planes bm_mach] in Hr2, Em3. subst m3.
  wp_step; [done|]. wp_step. wp_step.
  assert (∀ k id p0, plane_ids !! k = Some id → bm_planes s0 !! id = Some p0 → ∃ m, length m = 17%nat ∧
    ps3 !! id = Some (apply_map retire_block m (apply_map restore_free (plane_free_map p0) init_plane))) as Hps3.
  { intros k id p0 Hk Hp0. pose proof (lookup_lt_Some _ _ _ Hk) as Hlt.
    destruct (lookup_lt_is_Some_2 maps2 k ltac:(lia)) as [m Hm]. exists m. split; [by apply (proj1 Hsv2) in Hm as [-> _]|].
    rewrite (Hr2 k id _ Hk (Hps2 _ _ _ Hk Hp0)), decide_True, Hm by done. done. }
  apply wp_assign.
  { intros id [k Hk]%list_elem_of_lookup. destruct (Hall0 id ltac:(by eapply list_elem_of_lookup_2)) as (p0 & Hp0 & _).
    destruct (Hps3 _ _ _ Hk Hp0) as (m & _ & E). by eexists. }
  intros ps4 Hps4. simpl. split.
  - split; simpl; [done| |lia|rewrite Hf3; exact Hf2].
    rewrite !delete_insert_eq, (delete_id (m_mem (bm_mach s)) (m_next (bm_mach s) + 1)) by (apply Hmem; lia).
    apply delete_id, Hmem. lia.
  - intros k id p0 Hk Hp0. destruct (Hps3 _ _ _ Hk Hp0) as (m & Hm & E). exists m. split; [done|].
    rewrite (Hps4 id _ ltac:(by eapply list_elem_of_lookup_2) E). done.
Qed.
End restart.
