(* ===== verification/Amu.v ===== *)
(** The address mapping unit, ftl/amu.c: per-namespace domains with a cache of
    translation pages, the translation of logical pages and the dispatch of
    flash transactions.  The addressing macros are in Flash.v,
    [amu_submit_transaction] in Machine.v. *)
From S2P Require Import Prelude Bitmap Avl Flash Machine BlockManager.
From stdpp Require Import pretty.
#[local] Open Scope Z_scope.

(** * Data *)
Record xlate_entry := Xe { xe_ppa : Z; xe_bitmap : Z }.

(** [xp_owned]: the mutex is owned by the running thread. *)
Record xlate_page := Xpg {
  xp_mvpn : Z;
  xp_entries : list xlate_entry;
  xp_dirty : bool;
  xp_owned : bool;
  xp_pin_count : Z;
}.

(** The tree and the LRU list hold the addresses of the pages, [pc_pages] the
    objects at these addresses. *)
Record xlate_pcache := Pcache {
  pc_capacity : Z;
  pc_size : Z;
  pc_root : tree Z;
  pc_lru_list : list Z;
  pc_pages : gmap Z xlate_page;
}.

(** [gtd] is the directory array, [[]] for a NULL pointer. *)
Record am_domain := Domain {
  d_kref : Z;
  d_nsid : Z;
  d_total_logical_pages : Z;
  d_pa_scheme : plane_allocate_scheme;
  d_gtd : list Z;
  d_gtd_size : Z;
  d_xlate_ents_per_page : Z;
  d_total_xlate_pages : Z;
  d_pcache : xlate_pcache;
}.

Definition NO_MPPN : Z := 2 ^ 32 - 1.
(** [sizeof(struct xlate_entry)] is 8, [sizeof(struct xlate_entry_disk)] 4. *)
Definition XLATE_PG_SIZE : Z := FLASH_PG_SIZE * 8 / 4.
Definition NAMESPACE_MAX : Z := 32.
Definition DEFAULT_PLANE_ALLOCATE_SCHEME : plane_allocate_scheme := PAS_CWDP.
Definition ARCH_PG_SIZE : Z := 4096.
Definition GTD_FILENAME (nsid : Z) : string := "gtd_ns" +:+ pretty nsid +:+ ".bin".

(** A domain being worked on, with the state of the layers below. *)
Record dom_st `{Platform} := DomSt { ds_bm : bm; ds_dom : am_domain }.
(** The whole unit: domain objects by address, and the table [active_domains]. *)
Record amu `{Platform} := Amu {
  am_bm : bm;
  am_domains : gmap Z am_domain;
  am_active : gmap Z Z;
}.

(** ** Field updates *)
Definition set_xp_mvpn (v : Z) (x : xlate_page) : xlate_page :=
  Xpg v (xp_entries x) (xp_dirty x) (xp_owned x) (xp_pin_count x).
Definition set_xp_entries (l : list xlate_entry) (x : xlate_page) : xlate_page :=
  Xpg (xp_mvpn x) l (xp_dirty x) (xp_owned x) (xp_pin_count x).
Definition set_xp_dirty (b : bool) (x : xlate_page) : xlate_page :=
  Xpg (xp_mvpn x) (xp_entries x) b (xp_owned x) (xp_pin_count x).
Definition set_xp_owned (b : bool) (x : xlate_page) : xlate_page :=
  Xpg (xp_mvpn x) (xp_entries x) (xp_dirty x) b (xp_pin_count x).
Definition set_xp_pin (n : Z) (x : xlate_page) : xlate_page :=
  Xpg (xp_mvpn x) (xp_entries x) (xp_dirty x) (xp_owned x) n.
Definition set_pc_tree (t : tree Z) (n : Z) (p : xlate_pcache) : xlate_pcache :=
  Pcache (pc_capacity p) n t (pc_lru_list p) (pc_pages p).
Definition set_pc_lru (l : list Z) (p : xlate_pcache) : xlate_pcache :=
  Pcache (pc_capacity p) (pc_size p) (pc_root p) l (pc_pages p).
Definition set_pc_pages (m : gmap Z xlate_page) (p : xlate_pcache) : xlate_pcache :=
  Pcache (pc_capacity p) (pc_size p) (pc_root p) (pc_lru_list p) m.
Definition set_d_pcache (p : xlate_pcache) (d : am_domain) : am_domain :=
  Domain (d_kref d) (d_nsid d) (d_total_logical_pages d) (d_pa_scheme d) (d_gtd d) (d_gtd_size d)
    (d_xlate_ents_per_page d) (d_total_xlate_pages d) p.
Definition set_d_gtd (l : list Z) (d : am_domain) : am_domain :=
  Domain (d_kref d) (d_nsid d) (d_total_logical_pages d) (d_pa_scheme d) l (d_gtd_size d)
    (d_xlate_ents_per_page d) (d_total_xlate_pages d) (d_pcache d).
Definition set_d_kref (n : Z) (d : am_domain) : am_domain :=
  Domain n (d_nsid d) (d_total_logical_pages d) (d_pa_scheme d) (d_gtd d) (d_gtd_size d)
    (d_xlate_ents_per_page d) (d_total_xlate_pages d) (d_pcache d).

#[export] Instance dom_lens `{Platform} : Lens dom_st bm.
Proof. refine {| lget := ds_bm; lset b s := DomSt _ b (ds_dom s) |}. done. Defined.
#[export] Instance dom_mach_lens `{Platform} : Lens dom_st mach.
Proof.
  refine {| lget s := bm_mach (ds_bm s); lset m s := DomSt _ (lset m (ds_bm s)) (ds_dom s) |}. done.
Defined.
#[export] Instance amu_lens `{Platform} : Lens amu bm.
Proof. refine {| lget := am_bm; lset b s := Amu _ b (am_domains s) (am_active s) |}. done. Defined.
#[export] Instance amu_mach_lens `{Platform} : Lens amu mach.
Proof.
  refine {| lget s := bm_mach (am_bm s); lset m s := Amu _ (lset m (am_bm s)) (am_domains s) (am_active s) |}.
  done.
Defined.

(** * Operations on one domain *)
Section domain_ops.
Context `{Platform}.

Definition dom : ST dom_st am_domain := gets ds_dom.
Definition upd_dom (f : am_domain → am_domain) : ST dom_st unit :=
  modify (λ s, DomSt _ (ds_bm s) (f (ds_dom s))).
Definition upd_pc (f : xlate_pcache → xlate_pcache) : ST dom_st unit :=
  upd_dom (λ d, set_d_pcache (f (d_pcache d)) d).
Definition page_at (id : Z) : ST dom_st xlate_page :=
  d ← dom; deref (pc_pages (d_pcache d) !! id).
Definition upd_page (id : Z) (f : xlate_page → xlate_page) : ST dom_st unit :=
  x ← page_at id; upd_pc (λ p, set_pc_pages (<[id := f x]> (pc_pages p)) p).

(** [xpc_key_node_comp] and [xpc_node_node_comp] compare [mvpn]s. *)
Definition xpc_key (pages : gmap Z xlate_page) (id : Z) : Z := default 0 (xp_mvpn <$> pages !! id).
Definition xpc_insert (id : Z) (p : xlate_pcache) : xlate_pcache :=
  set_pc_tree (avl_insert (xpc_key (pc_pages p)) id (pc_root p)) (pc_size p) p.
Definition xpc_erase (id : Z) (p : xlate_pcache) : xlate_pcache :=
  set_pc_tree (avl_erase (xpc_key (pc_pages p)) id (pc_root p)) (pc_size p) p.
Definition xpc_resize (k : Z) (p : xlate_pcache) : xlate_pcache :=
  set_pc_tree (pc_root p) (pc_size p + k) p.

Definition get_mvpn (d : am_domain) (lpa : Z) : Z := u32 (lpa / d_xlate_ents_per_page d).
Definition get_mvpn_slot (d : am_domain) (lpa : Z) : Z := u32 (lpa mod d_xlate_ents_per_page d).

Definition xpc_find (p : xlate_pcache) (mvpn : Z) : option Z :=
  avl_find (xpc_key (pc_pages p)) mvpn (pc_root p).

Definition xpc_init (capacity : Z) : xlate_pcache := Pcache capacity 0 Leaf [] ∅.

(** Each turn takes the root out; the [fuel] of [xpc_free] is the tree's size. *)
Fixpoint xpc_free_loop (fuel : nat) : ST dom_st unit :=
  d ← dom;
  match pc_root (d_pcache d) with
  | Leaf => mret tt
  | Node _ id _ _ =>
      match fuel with
      | O => stuck
      | S fuel =>
          x ← page_at id;
          assert (xp_pin_count x =? 0) ≫= λ _,
          upd_pc (xpc_erase id) ≫= λ _,
          upd_pc (λ p, set_pc_lru (list_del id (pc_lru_list p)) p) ≫= λ _,
          upd_pc (λ p, set_pc_pages (delete id (pc_pages p)) p) ≫= λ _,
          xpc_free_loop fuel
      end
  end.
Definition xpc_free : ST dom_st unit :=
  d ← dom; xpc_free_loop (length (inorder (pc_root (d_pcache d)))).

(** The entries a fresh buffer happens to hold. *)
Fixpoint raw_entries (ws : list Z) : list xlate_entry :=
  match ws with a :: b :: ws => Xe a b :: raw_entries ws | _ => [] end.

(** The test after [SLABALLOC(xpg)] looks at the wrong pointer, so a failed
    allocation goes on to the [memset]. *)
Definition xpc_add (mvpn : Z) : ST dom_st (rc * Z) :=
  d ← dom;
  let xpc := d_pcache d in
  if pc_capacity xpc <=? pc_size xpc then mret (Err ENOSPC, 0)
  else
    xpg ← lift slaballoc;
    assert (negb (xpg =? 0)) ≫= λ _,
    '(entries, ws) ← lift (alloc_words (XLATE_PG_SIZE / 4));
    if entries =? 0 then mret (Err ENOMEM, 0)
    else
      upd_pc (λ p, set_pc_pages (<[xpg := Xpg mvpn (raw_entries ws) false false 1]> (pc_pages p)) p) ≫= λ _,
      upd_pc (xpc_insert xpg) ≫= λ _,
      upd_pc (xpc_resize 1) ≫= λ _,
      mret (R0, xpg).

Definition xpc_add_lru (id : Z) : ST dom_st unit :=
  upd_pc (λ p, set_pc_lru (list_add id (pc_lru_list p)) p).
Definition xpc_remove_lru (id : Z) : ST dom_st unit :=
  upd_pc (λ p, set_pc_lru (list_del id (pc_lru_list p)) p).
Definition xpc_pin (id : Z) : ST dom_st unit :=
  x ← page_at id;
  upd_page id (set_xp_pin (u32 (xp_pin_count x + 1))) ≫= λ _,
  do_if (xp_pin_count x =? 0) (xpc_remove_lru id).
Definition xpc_unpin (id : Z) : ST dom_st unit :=
  x ← page_at id;
  assert (0 <? xp_pin_count x) ≫= λ _,
  upd_page id (set_xp_pin (xp_pin_count x - 1)) ≫= λ _,
  do_if (xp_pin_count x - 1 =? 0) (xpc_add_lru id).

(** A mutex that nobody else waits for ([coro_mutex_lock] and
    [coro_mutex_unlock] return an error, which is ignored, when the caller
    already owns it or does not own it). *)
Definition mutex_lock (id : Z) : ST dom_st unit := upd_page id (set_xp_owned true).
Definition mutex_unlock (id : Z) : ST dom_st unit := upd_page id (set_xp_owned false).

Definition xpc_update_mapping (id slot ppa bitmap : Z) : ST dom_st unit :=
  x ← page_at id;
  e ← deref (xp_entries x !! Z.to_nat slot);
  upd_page id (λ x, set_xp_dirty true (set_xp_entries
    (<[Z.to_nat slot := Xe ppa (u32 (Z.lor (xe_bitmap e) bitmap))]> (xp_entries x)) x)).

(** A page buffer seen as an array of 32-bit words, 1024 to a sector. *)
Definition buf_words (b : buf) : list Z := concat (b_data b).
Definition page_of_words (ws : list Z) : list sector :=
  (λ i, take 1024 (drop (1024 * i) ws)) <$> seq 0 4.
Definition full_page_txn (type : txn_type) (nsid mvpn ppa data : Z) (addr : flash_address) :
    flash_transaction :=
  Txn false type TS_MAPPING nsid mvpn ppa addr full_page_bitmap false 0 data 0 FLASH_PG_SIZE 0 0 0 0.

Definition xpc_read_page (id : Z) : ST dom_st rc :=
  d ← dom;
  x ← page_at id;
  mppn ← deref (d_gtd d !! Z.to_nat (xp_mvpn x));
  assert (negb (xp_dirty x)) ≫= λ _,
  buf ← lift alloc_vmpages;
  if buf =? 0 then mret (Err ENOMEM)
  else
    let txn := full_page_txn TXN_READ (d_nsid d) (xp_mvpn x) mppn buf (ppa_to_address mppn) in
    '(r, _) ← lift (amu_submit_transaction txn);
    (if is_ok r then
       b ← lift (load buf);
       let n := Z.to_nat (d_xlate_ents_per_page d) in
       assert (Nat.leb n (length (buf_words b)) && Nat.leb n (length (xp_entries x))) ≫= λ _,
       upd_page id (set_xp_entries
         (((λ w, Xe w (2 ^ SECTORS_PER_FLASH_PG - 1)) <$> take n (buf_words b)) ++
          drop n (xp_entries x)))
     else mret tt) ≫= λ _,
    lift (free_mem buf) ≫= λ _,
    mret r.

Definition alloc_page_for_mapping (txn : flash_transaction) (mvpn : Z) (for_gc : bool) :
    ST dom_st (rc * flash_transaction) :=
  d ← dom;
  mppn ← deref (d_gtd d !! Z.to_nat mvpn);
  do_if (negb (mppn =? NO_MPPN)) (lift (bm_invalidate_page (ppa_to_address mppn))) ≫= λ _,
  addr ← lift (bm_alloc_page (t_nsid txn) (t_addr txn) for_gc true);
  mret (R0, set_t_ppa (address_to_ppa addr) (set_t_addr addr txn)).

Definition xpc_flush_page (id : Z) : ST dom_st rc :=
  d ← dom;
  x ← page_at id;
  if negb (xp_dirty x) then mret R0
  else
    buf ← lift alloc_vmpages;
    if buf =? 0 then mret (Err ENOMEM)
    else
      b ← lift (load buf);
      let n := Z.to_nat (d_xlate_ents_per_page d) in
      assert (Nat.leb n (length (xp_entries x))) ≫= λ _,
      lift (store buf (Buf (page_of_words ((xe_ppa <$> take n (xp_entries x)) ++ drop n (buf_words b)))
                         (b_oob b))) ≫= λ _,
      let txn := full_page_txn TXN_WRITE (d_nsid d) (xp_mvpn x) NO_PPA buf zero_addr in
      addr ← deref (assign_plane (d_pa_scheme d) (t_lpa txn) (t_addr txn));
      '(_, txn) ← alloc_page_for_mapping (set_t_addr addr txn) (xp_mvpn x) false;
      '(r, txn) ← lift (amu_submit_transaction txn);
      match r with
      | R0 =>
          upd_page id (set_xp_dirty false) ≫= λ _,
          upd_dom (λ d, set_d_gtd (<[Z.to_nat (xp_mvpn x) := t_ppa txn]> (d_gtd d)) d)
      | Err _ => lift (bm_invalidate_page (t_addr txn))
      end ≫= λ _,
      lift (free_mem buf) ≫= λ _,
      mret r.

Definition xpc_evict : ST dom_st (rc * Z) :=
  d ← dom;
  match last (pc_lru_list (d_pcache d)) with
  | None => mret (Err ENOMEM, 0)
  | Some id =>
      x ← page_at id;
      assert (xp_pin_count x =? 0) ≫= λ _,
      xpc_remove_lru id ≫= λ _,
      upd_pc (xpc_erase id) ≫= λ _,
      upd_pc (xpc_resize (-1)) ≫= λ _,
      mret (R0, id)
  end.

Definition get_translation_page (mvpn : Z) : ST dom_st (rc * Z) :=
  d ← dom;
  match xpc_find (d_pcache d) mvpn with
  | Some xpg => xpc_pin xpg ≫= λ _, mutex_lock xpg ≫= λ _, mret (R0, xpg)
  | None =>
      '(r, xpg) ← xpc_add mvpn;
      if bool_decide (r = Err ENOSPC) then
        '(r, xpg) ← xpc_evict;
        match r with
        | Err _ => mret (r, 0)
        | R0 =>
            x ← page_at xpg;
            (if xp_dirty x then xpc_flush_page xpg ≫= λ _, mret tt else mret tt) ≫= λ _,
            upd_page xpg (set_xp_mvpn mvpn) ≫= λ _,
            upd_pc (xpc_insert xpg) ≫= λ _,
            upd_pc (xpc_resize 1) ≫= λ _,
            xpc_pin xpg ≫= λ _, mutex_lock xpg ≫= λ _, mret (R0, xpg)
        end
      else
        match r with
        | Err _ => mret (r, 0)
        | R0 =>
            x ← page_at xpg;
            assert (xp_pin_count x =? 1) ≫= λ _,
            mutex_lock xpg ≫= λ _,
            d ← dom;
            mppn ← deref (d_gtd d !! Z.to_nat mvpn);
            (if mppn =? NO_MPPN then
               let n := Z.to_nat (d_xlate_ents_per_page d) in
               assert (Nat.leb n (length (xp_entries x))) ≫= λ _,
               upd_page xpg (λ x, set_xp_dirty true (set_xp_entries
                 (replicate n (Xe NO_PPA 0) ++ drop n (xp_entries x)) x))
             else
               r ← xpc_read_page xpg;
               if is_ok r then mret tt
               else
                 mutex_unlock xpg ≫= λ _,
                 upd_pc (xpc_erase xpg) ≫= λ _,
                 xpc_unpin xpg) ≫= λ _,
            mret (R0, xpg)
        end
  end.

Definition get_ppa (lpa : Z) : ST dom_st (rc * (Z * Z)) :=
  d ← dom;
  let mvpn := get_mvpn d lpa in
  let slot := get_mvpn_slot d lpa in
  '(r, xpg) ← get_translation_page mvpn;
  match r with
  | Err _ => mret (r, (0, 0))
  | R0 =>
      x ← page_at xpg;
      e ← deref (xp_entries x !! Z.to_nat slot);
      mutex_unlock xpg ≫= λ _,
      xpc_unpin xpg ≫= λ _,
      mret (R0, (xe_ppa e, xe_bitmap e))
  end.

(** Read the sectors of the old page that the transaction does not write, and
    widen the transaction to cover them. *)
Definition update_read (txn : flash_transaction) (entry : xlate_entry) :
    ST dom_st (rc * flash_transaction) :=
  let bitmap := Z.ldiff (xe_bitmap entry) (t_bitmap txn) in
  assert (negb (xe_ppa entry =? NO_PPA)) ≫= λ _,
  assert (negb (bitmap =? 0)) ≫= λ _,
  buf ← lift alloc_vmpages;
  if buf =? 0 then mret (Err ENOMEM, txn)
  else
    let offset := Z.shiftl (ctzl bitmap) SECTOR_SHIFT in
    assert (offset <? FLASH_PG_SIZE) ≫= λ _,
    let read_txn := Txn (t_req txn) TXN_READ TS_USER_IO (t_nsid txn) (t_lpa txn) (xe_ppa entry)
        (ppa_to_address (xe_ppa entry)) bitmap false 0 buf offset (FLASH_PG_SIZE - offset) 0 0 0 0 in
    '(r, _) ← lift (amu_submit_transaction read_txn);
    '(r, txn) ←
      (match r with
       | Err _ => mret (r, txn)
       | R0 =>
           let copy_iov := (λ i, if Z.testbit bitmap (Z.of_nat i) then Some (t_data txn, i) else None)
                             <$> seq 0 (Z.to_nat SECTORS_PER_FLASH_PG) in
           r ← lift (zdma_iter_copy_to copy_iov buf 0);
           mret (r, match r with
                    | Err _ => txn
                    | R0 =>
                        let o := Z.min (t_offset txn) offset in
                        set_t_range (Z.lor (t_bitmap txn) bitmap) o (FLASH_PG_SIZE - o) txn
                    end)
       end);
    lift (free_mem buf) ≫= λ _,
    mret (r, txn).

Definition alloc_page_for_write (txn : flash_transaction) (for_gc : bool) :
    ST dom_st (rc * flash_transaction) :=
  d ← dom;
  let mvpn := get_mvpn d (t_lpa txn) in
  let slot := get_mvpn_slot d (t_lpa txn) in
  '(r, xpg) ← get_translation_page mvpn;
  match r with
  | Err _ => mret (r, txn)
  | R0 =>
      x ← page_at xpg;
      e ← deref (xp_entries x !! Z.to_nat slot);
      '(r, txn) ←
        (if xe_ppa e =? NO_PPA then mret (R0, txn)
         else
           '(r, txn) ← (if Z.land (xe_bitmap e) (t_bitmap txn) =? xe_bitmap e then mret (R0, txn)
                        else update_read txn e);
           match r with
           | Err _ => mret (r, txn)
           | R0 => lift (bm_invalidate_page (ppa_to_address (xe_ppa e))) ≫= λ _, mret (R0, txn)
           end);
      '(r, txn) ←
        (match r with
         | Err _ => mret (r, txn)
         | R0 =>
             addr ← lift (bm_alloc_page (t_nsid txn) (t_addr txn) for_gc false);
             let txn := set_t_ppa (address_to_ppa addr) (set_t_addr addr txn) in
             xpc_update_mapping xpg slot (t_ppa txn) (t_bitmap txn) ≫= λ _, mret (R0, txn)
         end);
      mutex_unlock xpg ≫= λ _,
      xpc_unpin xpg ≫= λ _,
      mret (r, txn)
  end.

(** [translate_lpa] between [domain_get] and [domain_put]. *)
Definition translate_in_domain (txn : flash_transaction) : ST dom_st (rc * flash_transaction) :=
  d ← dom;
  let place (txn : flash_transaction) :=
    addr ← deref (assign_plane (d_pa_scheme d) (t_lpa txn) (t_addr txn));
    alloc_page_for_write (set_t_addr addr txn) false in
  '(r, txn) ←
    (if bool_decide (t_type txn = TXN_READ) then
       '(r, (ppa, _)) ← get_ppa (t_lpa txn);
       match r with
       | Err _ => mret (r, txn)
       | R0 => if ppa =? NO_PPA then place txn
               else mret (R0, set_t_addr (ppa_to_address ppa) (set_t_ppa ppa txn))
       end
     else place txn);
  match r with
  | Err _ => mret (r, txn)
  | R0 => mret (R0, set_t_ready true txn)
  end.

(** ** Saving and restoring the directory *)
Definition save_gtd (filename : string) : ST dom_st rc :=
  d ← dom;
  fo ← lift (fat_open filename FA_CREATE_WRITE);
  match fo with
  | None => mret (Err EIO)
  | Some fil =>
      let n := Z.to_nat (d_total_xlate_pages d) in
      assert (Nat.leb n (length (d_gtd d))) ≫= λ _,
      '(r, fil) ← lift (fat_write_all fil (take n (d_gtd d)));
      match r with Err _ => mret r | R0 => lift (fat_close_rc fil) end
  end.
Definition restore_gtd (filename : string) : ST dom_st rc :=
  d ← dom;
  fo ← lift (fat_open filename FA_READ);
  match fo with
  | None => mret (Err EIO)
  | Some fil =>
      let n := d_total_xlate_pages d in
      assert (Nat.leb (Z.to_nat n) (length (d_gtd d))) ≫= λ _,
      '(r, ws, fil) ← lift (fat_read_all fil n);
      upd_dom (λ d, set_d_gtd (ws ++ drop (length ws) (d_gtd d)) d) ≫= λ _,
      match r with Err _ => mret r | R0 => lift (fat_close_rc fil) end
  end.

(** Note the first exit: [r] is still 0 when the directory cannot be allocated. *)
Definition domain_init (nsid capacity total_logical_pages : Z) (pa_scheme : plane_allocate_scheme)
    (reset : bool) : ST dom_st rc :=
  let xlate_ents_per_page := FLASH_PG_SIZE / 4 in
  let total_xlate_pages := (total_logical_pages + xlate_ents_per_page - 1) / xlate_ents_per_page in
  upd_dom (λ _, Domain 1 nsid total_logical_pages pa_scheme [] 0 xlate_ents_per_page total_xlate_pages
                  (xpc_init capacity)) ≫= λ _,
  let gtd_size := roundup (total_xlate_pages * 4) ARCH_PG_SIZE in
  '(gtd, ws) ← lift (alloc_words (gtd_size / 4));
  if gtd =? 0 then xpc_free ≫= λ _, mret R0
  else
    upd_dom (λ d, Domain (d_kref d) nsid total_logical_pages pa_scheme ws gtd_size xlate_ents_per_page
                    total_xlate_pages (d_pcache d)) ≫= λ _,
    st ← lift (fat_stat (GTD_FILENAME nsid));
    r ← (if negb (bool_decide (st = FR_OK)) || reset then
           let n := Z.to_nat total_xlate_pages in
           upd_dom (λ d, set_d_gtd (replicate n NO_MPPN ++ drop n (d_gtd d)) d) ≫= λ _,
           save_gtd (GTD_FILENAME nsid)
         else restore_gtd (GTD_FILENAME nsid));
    match r with
    | R0 => mret R0
    | Err _ => upd_dom (λ d, set_d_gtd [] d) ≫= λ _, xpc_free ≫= λ _, mret (Err EIO)
    end.

(** The iterator walks the tree in place; flushing changes no tree. *)
Fixpoint flush_loop (fuel : nat) (iter : avl_iter Z) : ST dom_st unit :=
  match avl_get_iter iter with
  | None => mret tt
  | Some xpg =>
      match fuel with
      | O => stuck
      | S fuel =>
          x ← page_at xpg;
          do_if (xp_dirty x)
            (xpc_pin xpg ≫= λ _, mutex_lock xpg ≫= λ _,
             xpc_flush_page xpg ≫= λ _,
             mutex_unlock xpg ≫= λ _, xpc_unpin xpg) ≫= λ _,
          flush_loop fuel (avl_inc_iter iter)
      end
  end.
Definition flush_domain : ST dom_st unit :=
  d ← dom;
  let p := d_pcache d in
  flush_loop (length (inorder (pc_root p)))
    (avl_start_iter (xpc_key (pc_pages p)) (pc_root p) 0 AVL_GREATER_EQUAL).
Definition save_domain : ST dom_st rc :=
  d ← dom; flush_domain ≫= λ _, save_gtd (GTD_FILENAME (d_nsid d)).
End domain_ops.

(** * Operations of the unit *)
Section amu_ops.
Context `{Platform}.

(** Work on the domain object at an address. *)
Definition on_domain {A} (ptr : Z) (m : ST dom_st A) : ST amu A := λ s,
  match am_domains s !! ptr with
  | None => None
  | Some d =>
      match m (DomSt _ (am_bm s) d) with
      | None => None
      | Some (a, s') => Some (a, Amu _ (ds_bm s') (<[ptr := ds_dom s']> (am_domains s)) (am_active s))
      end
  end.
Definition upd_active (f : gmap Z Z → gmap Z Z) : ST amu unit :=
  modify (λ s, Amu _ (am_bm s) (am_domains s) (f (am_active s))).
Definition upd_domains (f : gmap Z am_domain → gmap Z am_domain) : ST amu unit :=
  modify (λ s, Amu _ (am_bm s) (f (am_domains s)) (am_active s)).

Definition NSID2IDX (nsid : Z) : Z := nsid - 1.
Definition bad_nsid (nsid : Z) : bool := (nsid <=? 0) || (NAMESPACE_MAX <? nsid).

Definition domain_get_by_nsid (nsid : Z) : ST amu (option Z) :=
  assert (negb (bad_nsid nsid)) ≫= λ _,
  a ← gets am_active;
  match a !! NSID2IDX nsid with
  | None => mret None
  | Some ptr => on_domain ptr (upd_dom (λ d, set_d_kref (d_kref d + 1) d)) ≫= λ _, mret (Some ptr)
  end.
Definition domain_get (txn : flash_transaction) : ST amu (option Z) := domain_get_by_nsid (t_nsid txn).
Definition domain_free (ptr : Z) : ST amu unit :=
  on_domain ptr xpc_free ≫= λ _, upd_domains (delete ptr).
Definition domain_put (ptr : Z) : ST amu unit :=
  k ← on_domain ptr (d ← dom; upd_dom (set_d_kref (d_kref d - 1)) ≫= λ _, mret (d_kref d - 1));
  do_if (k =? 0) (domain_free ptr).

Definition translate_lpa (txn : flash_transaction) : ST amu (rc * flash_transaction) :=
  dp ← domain_get txn;
  match dp with
  | None => mret (Err EINVAL, txn)
  | Some ptr =>
      r ← on_domain ptr (translate_in_domain txn);
      domain_put ptr ≫= λ _, mret r
  end.

(** The two loops of [amu_dispatch]; transactions after an error stay as they
    are. *)
Fixpoint translate_all (l : list flash_transaction) : ST amu (rc * list flash_transaction) :=
  match l with
  | [] => mret (R0, [])
  | txn :: l =>
      '(r, txn) ← translate_lpa txn;
      match r with
      | Err _ => mret (r, txn :: l)
      | R0 => '(r, l) ← translate_all l; mret (r, txn :: l)
      end
  end.
Fixpoint submit_all (l : list flash_transaction) : ST amu (rc * list flash_transaction) :=
  match l with
  | [] => mret (R0, [])
  | txn :: l =>
      '(r, txn) ← (if t_ppa_ready txn then lift (amu_submit_transaction txn) else mret (R0, txn));
      match r with
      | Err _ => mret (r, txn :: l)
      | R0 => '(r, l) ← submit_all l; mret (r, txn :: l)
      end
  end.
Definition amu_dispatch (txn_list : list flash_transaction) : ST amu (rc * list flash_transaction) :=
  match txn_list with
  | [] => mret (R0, [])
  | _ =>
      '(r, l) ← translate_all txn_list;
      '(r, l) ← (match r with Err _ => mret (r, l) | R0 => submit_all l end);
      match r with
      | R0 => mret (R0, l)
      | Err _ =>
          for_each l (λ txn,
            do_if (bool_decide (t_type txn = TXN_WRITE) && t_ppa_ready txn)
              (lift (bm_invalidate_page (ppa_to_address (t_ppa txn))))) ≫= λ _,
          mret (r, l)
      end
  end.

Definition amu_attach_domain (nsid capacity_bytes total_logical_pages : Z) (reset : bool) : ST amu rc :=
  if bad_nsid nsid then mret (Err EINVAL)
  else
    a ← gets am_active;
    match a !! NSID2IDX nsid with
    | Some _ => mret (Err EINVAL)
    | None =>
        ptr ← lift slaballoc;
        if ptr =? 0 then mret (Err ENOMEM)
        else
          upd_domains (<[ptr := Domain 0 0 0 DEFAULT_PLANE_ALLOCATE_SCHEME [] 0 0 0 (xpc_init 0)]>) ≫= λ _,
          r ← on_domain ptr (domain_init nsid (capacity_bytes / XLATE_PG_SIZE) total_logical_pages
                               DEFAULT_PLANE_ALLOCATE_SCHEME reset);
          match r with
          | Err _ => upd_domains (delete ptr) ≫= λ _, mret r
          | R0 => upd_active (<[NSID2IDX nsid := ptr]>) ≫= λ _, mret R0
          end
    end.

Definition amu_save_domain (nsid : Z) : ST amu rc :=
  dp ← domain_get_by_nsid nsid;
  match dp with
  | None => mret (Err EINVAL)
  | Some ptr => r ← on_domain ptr save_domain; domain_put ptr ≫= λ _, mret r
  end.

Definition amu_detach_domain (nsid : Z) : ST amu rc :=
  if bad_nsid nsid then mret (Err EINVAL)
  else
    a ← gets am_active;
    match a !! NSID2IDX nsid with
    | None => mret (Err EINVAL)
    | Some ptr =>
        upd_active (delete (NSID2IDX nsid)) ≫= λ _,
        on_domain ptr save_domain ≫= λ _,
        domain_put ptr ≫= λ _,
        mret R0
    end.

Definition amu_delete_domain (nsid : Z) : ST amu rc :=
  if bad_nsid nsid then mret (Err EINVAL)
  else
    st ← lift (fat_stat (GTD_FILENAME nsid));
    match st with
    | FR_OK => lift (fat_unlink (GTD_FILENAME nsid)) ≫= λ _, mret R0
    | FR_NO_FILE => mret R0
    | FR_ERR => mret (Err EIO)
    end.
End amu_ops.
