(* ===== verification/AmuFacts.v ===== *)
(** Facts about the address mapping unit: the state of a domain at the level of
    its logical-to-physical map, the invariant that ties the map to the
    translation page cache, the directory and the flash, and the specification of
    every operation on translation pages in these terms. *)
From S2P Require Import Prelude Bitmap Avl Flash Machine BlockManager Amu.

(** * The translation page cache *)
Lemma avl_ok_ext {A} (k k' : A → Z) t :
  (∀ x, x ∈ inorder t → k x = k' x) → avl_ok k t → avl_ok k' t.
Proof.
  intros E [Hs Hh]. split; [|done]. revert Hs. unfold keys_sorted.
  induction (inorder t) as [|x xs IH]; [constructor|]. intros [Hs Hf]%StronglySorted_inv.
  constructor; [by apply IH; [set_solver|]|].
  rewrite Forall_forall in *. intros y Hy. rewrite <-!E by set_solver. by apply Hf.
Qed.

(** [pinned]: the page an operation is holding, if any; all others are unlocked
    and on the LRU list. *)
Record xpc_wf (pinned : option Z) (p : xlate_pcache) : Prop := {
  xw_tree : avl_ok (xpc_key (pc_pages p)) (pc_root p);
  xw_ids : ∀ id, id ∈ inorder (pc_root p) ↔ is_Some (pc_pages p !! id);
  xw_lru : NoDup (pc_lru_list p);
  xw_lru_ids : ∀ id, id ∈ pc_lru_list p ↔ is_Some (pc_pages p !! id) ∧ pinned ≠ Some id;
  xw_size : pc_size p = Z.of_nat (length (inorder (pc_root p)));
  xw_pin : ∀ id x, pc_pages p !! id = Some x →
    xp_pin_count x = (if decide (pinned = Some id) then 1 else 0) ∧
    xp_owned x = bool_decide (pinned = Some id);
  (** Pages are only ever added: no erasure disturbs the balance. *)
  xw_balanced : balanced (pc_root p);
}.

Lemma keys_sorted_nodup {A K} `{OrdKeyOk K} (k : A → K) xs : keys_sorted k xs → NoDup xs.
Proof.
  induction xs as [|x xs IH]; [constructor|]. intros [Hs Hf]%StronglySorted_inv. constructor; [|by apply IH].
  intros Hin. rewrite Forall_forall in Hf. apply Hf in Hin. by apply klt_irrefl in Hin.
Qed.

Lemma xpc_key_Some m id x : m !! id = Some x → xpc_key m id = xp_mvpn x.
Proof. intros E. unfold xpc_key. by rewrite E. Qed.

Lemma xpc_find_spec pin p v id : xpc_wf pin p →
  xpc_find p v = Some id ↔ ∃ x, pc_pages p !! id = Some x ∧ xp_mvpn x = v.
Proof.
  intros Hp. unfold xpc_find. rewrite avl_find_spec by apply (xw_tree _ _ Hp). rewrite (xw_ids _ _ Hp).
  split.
  - intros [[x Hx] E]. exists x. by rewrite (xpc_key_Some _ _ x) in E.
  - intros (x & Hx & E). split; [by eexists|]. by rewrite (xpc_key_Some _ _ x).
Qed.
Lemma xpc_find_None pin p v : xpc_wf pin p →
  xpc_find p v = None ↔ ∀ id x, pc_pages p !! id = Some x → xp_mvpn x ≠ v.
Proof.
  intros Hp. split.
  - intros E id x Hx Hv. assert (xpc_find p v = Some id) by (apply (xpc_find_spec pin); eauto). congruence.
  - intros Hn. destruct (xpc_find p v) as [id|] eqn:E; [|done].
    apply (xpc_find_spec pin) in E as (x & Hx & Hv); [|done]. by destruct (Hn id x).
Qed.
Lemma xpc_wf_inj pin p i j x y : xpc_wf pin p →
  pc_pages p !! i = Some x → pc_pages p !! j = Some y → xp_mvpn x = xp_mvpn y → i = j.
Proof.
  intros Hp Hx Hy E. eapply (keys_sorted_inj (xpc_key (pc_pages p))); [apply (xw_tree _ _ Hp)|..].
  - apply (xw_ids _ _ Hp). eauto.
  - apply (xw_ids _ _ Hp). eauto.
  - by rewrite (xpc_key_Some _ _ _ Hx), (xpc_key_Some _ _ _ Hy).
Qed.

(** Taking a page, putting it back, and changing one in place. *)
Definition pc_put (id : Z) (x : xlate_page) (p : xlate_pcache) : xlate_pcache :=
  set_pc_pages (<[id := x]> (pc_pages p)) p.

Lemma pc_put_tree id x y p : pc_pages p !! id = Some y → xp_mvpn x = xp_mvpn y →
  avl_ok (xpc_key (pc_pages p)) (pc_root p) → avl_ok (xpc_key (<[id := x]> (pc_pages p))) (pc_root p).
Proof.
  intros Hy E. apply avl_ok_ext. intros j _. unfold xpc_key.
  destruct (decide (j = id)) as [->|Hne]; [|by rewrite lookup_insert_ne].
  rewrite lookup_insert_eq, Hy. by simpl; rewrite E.
Qed.
Lemma put_is_Some {A} (m : gmap Z A) (id j : Z) (x : A) :
  is_Some (m !! id) → is_Some (<[id := x]> m !! j) ↔ is_Some (m !! j).
Proof.
  intros Hid. destruct (decide (j = id)) as [->|Hne]; [|by rewrite lookup_insert_ne].
  rewrite lookup_insert_eq. split; [done|by eexists].
Qed.

Lemma xpc_wf_put pin id x y p : xpc_wf pin p → pc_pages p !! id = Some y →
  xp_mvpn x = xp_mvpn y → xp_pin_count x = xp_pin_count y → xp_owned x = xp_owned y →
  xpc_wf pin (pc_put id x p).
Proof.
  intros [Ht Hi Hl Hli Hsz Hp] Hy E1 E2 E3. split; simpl; try done.
  - by eapply pc_put_tree.
  - intros j. rewrite put_is_Some by eauto. apply Hi.
  - intros j. rewrite put_is_Some by eauto. apply Hli.
  - intros j z. destruct (decide (j = id)) as [->|Hne]; [|rewrite lookup_insert_ne by done; apply Hp].
    rewrite lookup_insert_eq. intros [= <-]. rewrite E2, E3. by apply Hp.
Qed.
Lemma xpc_wf_take id x y p : xpc_wf None p → pc_pages p !! id = Some y →
  xp_mvpn x = xp_mvpn y → xp_pin_count x = 1 → xp_owned x = true →
  xpc_wf (Some id) (set_pc_lru (list_del id (pc_lru_list p)) (pc_put id x p)).
Proof.
  intros [Ht Hi Hl Hli Hsz Hp] Hy E1 E2 E3. split; simpl; try done.
  - by eapply pc_put_tree.
  - intros j. rewrite put_is_Some by eauto. apply Hi.
  - by apply NoDup_list_del.
  - intros j. rewrite put_is_Some by eauto. rewrite elem_of_list_del, Hli. naive_solver.
  - intros j z. destruct (decide (j = id)) as [->|Hne].
    + rewrite lookup_insert_eq. intros [= <-]. by rewrite decide_True, bool_decide_eq_true_2.
    + rewrite lookup_insert_ne by done. intros Hz.
      rewrite decide_False, bool_decide_eq_false_2 by congruence. apply Hp in Hz. simpl in Hz. done.
Qed.
Lemma xpc_wf_release id x y p : xpc_wf (Some id) p → pc_pages p !! id = Some y →
  xp_mvpn x = xp_mvpn y → xp_pin_count x = 0 → xp_owned x = false →
  xpc_wf None (set_pc_lru (list_add id (pc_lru_list p)) (pc_put id x p)).
Proof.
  intros [Ht Hi Hl Hli Hsz Hp] Hy E1 E2 E3. split; simpl; try done.
  - by eapply pc_put_tree.
  - intros j. rewrite put_is_Some by eauto. apply Hi.
  - constructor; [|done]. rewrite Hli. naive_solver.
  - intros j. rewrite put_is_Some by eauto. unfold list_add. rewrite elem_of_cons, Hli.
    destruct (decide (j = id)) as [->|]; [|naive_solver]. rewrite Hy. naive_solver.
  - intros j z. destruct (decide (j = id)) as [->|Hne].
    + rewrite lookup_insert_eq. intros [= <-]. done.
    + rewrite lookup_insert_ne by done. intros Hz. apply Hp in Hz.
      rewrite decide_False, bool_decide_eq_false_2 in Hz by congruence. done.
Qed.
(** A new page [x], taken and filled in as [x']. *)
Lemma xpc_wf_add id x x' p : xpc_wf None p → pc_pages p !! id = None →
  (∀ j y, pc_pages p !! j = Some y → xp_mvpn y ≠ xp_mvpn x) →
  xp_mvpn x' = xp_mvpn x → xp_pin_count x' = 1 → xp_owned x' = true →
  xpc_wf (Some id) (pc_put id x' (xpc_resize 1 (xpc_insert id (pc_put id x p)))).
Proof.
  intros [Ht Hi Hl Hli Hsz Hp Hbal] Hid Hn E1 E2 E3.
  set (k := xpc_key (<[id := x]> (pc_pages p))).
  assert (avl_ok k (pc_root p)) as Ht'.
  { eapply avl_ok_ext; [|exact Ht]. intros j Hj%Hi. unfold k, xpc_key.
    rewrite lookup_insert_ne; [done|]. intros ->. rewrite Hid in Hj. by destruct Hj. }
  destruct (avl_ok_insert k id (pc_root p)) as [Hok Hperm]; [done| |].
  { intros j Hj%Hi. destruct Hj as [y Hy]. unfold k, xpc_key. rewrite lookup_insert_eq.
    rewrite lookup_insert_ne by congruence. rewrite Hy. simpl. by eapply Hn. }
  split; simpl; fold k; rewrite ?insert_insert_eq.
  - eapply avl_ok_ext; [|exact Hok]. intros j _. unfold k, xpc_key.
    destruct (decide (j = id)) as [->|Hne]; [|by rewrite !lookup_insert_ne].
    rewrite !lookup_insert_eq. simpl. by rewrite E1.
  - intros j. rewrite Hperm, elem_of_cons, Hi. destruct (decide (j = id)) as [->|Hne].
    + rewrite lookup_insert_eq. naive_solver.
    + rewrite lookup_insert_ne by done. naive_solver.
  - done.
  - intros j. rewrite Hli. destruct (decide (j = id)) as [->|Hne].
    + rewrite Hid. split; [intros [[? [=]] _]|naive_solver].
    + rewrite lookup_insert_ne by done. naive_solver.
  - rewrite Hperm. simpl. lia.
  - intros j z. destruct (decide (j = id)) as [->|Hne].
    + rewrite lookup_insert_eq. intros [= <-]. by rewrite decide_True, bool_decide_eq_true_2.
    + rewrite lookup_insert_ne by done. intros Hz.
      rewrite decide_False, bool_decide_eq_false_2 by congruence. apply Hp in Hz. simpl in Hz. done.
  - by apply insert_balance; [apply Ht'|].
Qed.

(** * The logical-to-physical map of a domain *)
Abbreviation nand_view := (flash_address → option (list sector)).
(** Entries of a translation page. *)
Definition ENTS : Z := FLASH_PG_SIZE / 4.
#[global] Arguments ENTS : simpl never.
#[global] Arguments Z.to_nat : simpl never.
#[global] Arguments replicate : simpl never.

Definition cached (p : xlate_pcache) (v : Z) : option xlate_page :=
  xpc_find p v ≫= λ id, pc_pages p !! id.
Definition gtd_at (d : am_domain) (v : Z) : Z := default NO_MPPN (d_gtd d !! Z.to_nat v).
Definition words_at (nd : nand_view) (ppa : Z) : list Z := concat (default [] (nd (ppa_to_address ppa))).
(** What translation page [v] says, wherever its latest copy is. *)
Definition entries_at (nd : nand_view) (d : am_domain) (v : Z) : list xlate_entry :=
  match cached (d_pcache d) v with
  | Some x => xp_entries x
  | None =>
      if gtd_at d v =? NO_MPPN then replicate (Z.to_nat ENTS) (Xe NO_PPA 0)
      else (λ w, Xe w full_page_bitmap) <$> words_at nd (gtd_at d v)
  end.
Definition amap (nd : nand_view) (d : am_domain) (lpa : Z) : xlate_entry :=
  default (Xe NO_PPA 0) (entries_at nd d (lpa / ENTS) !! Z.to_nat (lpa mod ENTS)).

(** Flash pages belong to logical pages or to translation pages. *)
Inductive owner := OData (lpa : Z) | OXlate (v : Z).
#[export] Instance owner_eq_dec : EqDecision owner.
Proof. solve_decision. Defined.
Definition owner_ok (d : am_domain) (o : owner) : Prop :=
  match o with
  | OData lpa => 0 ≤ lpa < ENTS * d_total_xlate_pages d
  | OXlate v => 0 ≤ v < d_total_xlate_pages d
  end.
Definition ref (nd : nand_view) (d : am_domain) (o : owner) : Z :=
  match o with OData lpa => xe_ppa (amap nd d lpa) | OXlate v => gtd_at d v end.

(** [fr]: the pages the block manager can still hand out; [P]: pages in use by
    others. *)
Record dom_wf (nd : nand_view) (fr P : flash_address → Prop) (pin : option Z) (d : am_domain) : Prop := {
  dw_ents : d_xlate_ents_per_page d = ENTS;
  dw_total : 0 ≤ d_total_xlate_pages d ≤ 2 ^ 32;
  dw_gtd : d_total_xlate_pages d ≤ Z.of_nat (length (d_gtd d));
  dw_pc : xpc_wf pin (d_pcache d);
  dw_page : ∀ id x, pc_pages (d_pcache d) !! id = Some x →
    0 ≤ xp_mvpn x < d_total_xlate_pages d ∧ length (xp_entries x) = Z.to_nat ENTS ∧
    (xp_dirty x = false → gtd_at d (xp_mvpn x) ≠ NO_MPPN ∧
       xe_ppa <$> xp_entries x = words_at nd (gtd_at d (xp_mvpn x)));
  dw_xlate : ∀ v, 0 ≤ v < d_total_xlate_pages d → gtd_at d v ≠ NO_MPPN →
    ∃ p, nd (ppa_to_address (gtd_at d v)) = Some p ∧ length p = 4%nat ∧
      Forall (λ s, length s = 1024%nat) p;
  dw_ref : ∀ o, owner_ok d o → ref nd d o ≠ NO_PPA →
    0 ≤ ref nd d o < TOTAL_PAGES ∧ ¬ fr (ppa_to_address (ref nd d o)) ∧
    ¬ P (ppa_to_address (ref nd d o)) ∧
    ∀ o', owner_ok d o' → ref nd d o' = ref nd d o → o' = o;
  dw_bits : ∀ lpa, owner_ok d (OData lpa) → 0 ≤ xe_bitmap (amap nd d lpa) < 16;
  dw_fresh : ∀ a, fr a → nd a = None ∧ addr_ok a ∧ ¬ P a;
}.

Lemma cached_spec pin p v x : xpc_wf pin p →
  cached p v = Some x ↔ ∃ id, pc_pages p !! id = Some x ∧ xp_mvpn x = v.
Proof.
  intros Hp. unfold cached. rewrite bind_Some. split.
  - intros (id & E & Hx). exists id. split; [done|].
    apply (xpc_find_spec pin) in E as (y & Hy & <-); [|done]. congruence.
  - intros (id & Hx & Hv). exists id. split; [|done]. apply (xpc_find_spec pin); eauto.
Qed.
Lemma cached_None pin p v : xpc_wf pin p →
  cached p v = None ↔ xpc_find p v = None.
Proof.
  intros Hp. unfold cached. rewrite bind_None. split; [|by left]. intros [?|(id & E & Hx)]; [done|].
  apply (xpc_find_spec pin) in E as (x & Hx' & _); [|done]. congruence.
Qed.
Lemma entries_cached pin nd d id x : xpc_wf pin (d_pcache d) →
  pc_pages (d_pcache d) !! id = Some x → entries_at nd d (xp_mvpn x) = xp_entries x.
Proof.
  intros Hp Hx. unfold entries_at. by rewrite (proj2 (cached_spec pin _ _ x Hp)) by eauto.
Qed.

(** The parts of a domain that no operation on translation pages changes. *)
Definition same_consts (d d' : am_domain) : Prop :=
  d_kref d' = d_kref d ∧ d_nsid d' = d_nsid d ∧ d_total_logical_pages d' = d_total_logical_pages d ∧
  d_pa_scheme d' = d_pa_scheme d ∧ d_gtd_size d' = d_gtd_size d ∧
  d_xlate_ents_per_page d' = d_xlate_ents_per_page d ∧
  d_total_xlate_pages d' = d_total_xlate_pages d ∧
  pc_capacity (d_pcache d') = pc_capacity (d_pcache d) ∧
  length (d_gtd d') = length (d_gtd d).

Lemma same_consts_refl d : same_consts d d.
Proof. by repeat split. Qed.
Lemma same_consts_trans d1 d2 d3 : same_consts d1 d2 → same_consts d2 d3 → same_consts d1 d3.
Proof. unfold same_consts. intuition congruence. Qed.
Lemma owner_ok_same d d' o : same_consts d d' → owner_ok d' o ↔ owner_ok d o.
Proof. intros (_ & _ & _ & _ & _ & _ & E & _). unfold owner_ok. by rewrite E. Qed.

(** Same map, possibly with its pieces elsewhere. *)
Definition same_map (nd nd' : nand_view) (d d' : am_domain) : Prop :=
  ∀ lpa, owner_ok d (OData lpa) → amap nd' d' lpa = amap nd d lpa.

Lemma ENTS_pos : 0 < ENTS.
Proof. done. Qed.
Lemma lpa_slot d lpa : owner_ok d (OData lpa) →
  0 ≤ lpa / ENTS < d_total_xlate_pages d ∧ 0 ≤ lpa mod ENTS < ENTS.
Proof.
  pose proof ENTS_pos. intros [H1 H2]. split; [|by apply Z.mod_pos_bound].
  split; [by apply Z.div_pos|]. by apply Z.div_lt_upper_bound.
Qed.
Lemma same_map_entries nd nd' d d' :
  (∀ v, 0 ≤ v < d_total_xlate_pages d → entries_at nd' d' v = entries_at nd d v) → same_map nd nd' d d'.
Proof. intros E lpa Ho. unfold amap. rewrite E; [done|]. by apply lpa_slot. Qed.

Lemma ref_same nd nd' d d' o : same_consts d d' → same_map nd nd' d d' →
  (∀ v, 0 ≤ v < d_total_xlate_pages d → gtd_at d' v = gtd_at d v) → owner_ok d o →
  ref nd' d' o = ref nd d o.
Proof. intros Hc Hm Hg Ho. destruct o; simpl; [by rewrite Hm|by apply Hg]. Qed.

(** Flash pages outside the directory do not matter, nor do pages that are no
    longer available. *)
Lemma dom_wf_frame nd nd' (fr fr' : flash_address → Prop) P pin d : dom_wf nd fr P pin d →
  (∀ v, 0 ≤ v < d_total_xlate_pages d → gtd_at d v ≠ NO_MPPN →
     nd' (ppa_to_address (gtd_at d v)) = nd (ppa_to_address (gtd_at d v))) →
  (∀ a, fr' a → fr a ∧ nd' a = None) →
  dom_wf nd' fr' P pin d ∧ same_map nd nd' d d.
Proof.
  intros Hd Hg Hf. assert (same_map nd nd' d d) as Hm.
  { apply same_map_entries. intros v Hv. unfold entries_at, words_at.
    destruct (cached _ v); [done|]. destruct (Z.eqb_spec (gtd_at d v) NO_MPPN); [done|]. by rewrite Hg. }
  assert (∀ o, owner_ok d o → ref nd' d o = ref nd d o) as Hr.
  { intros o Ho. apply ref_same; [apply same_consts_refl|done|done|done]. }
  split; [|done]. destruct Hd as [H1 H2 H3 H4 H5 H6 H7 H8 H9]. split; try done.
  - intros id x Hx. destruct (H5 id x Hx) as (Hv & ? & Hc). split; [done|]. split; [done|].
    intros Hd'. destruct (Hc Hd') as [? ->]. split; [done|]. unfold words_at. by rewrite Hg.
  - intros v Hv Hn. rewrite Hg by done. by apply H6.
  - intros o Ho. rewrite Hr by done. intros Hn. destruct (H7 o Ho Hn) as (? & Hfr & ? & Hinj).
    split; [done|]. split; [intros [? _]%Hf; done|]. split; [done|].
    intros o' Ho'. rewrite Hr by done. by apply Hinj.
  - intros lpa Ho. rewrite Hm by done. by apply H8.
  - intros a Ha. destruct (Hf a Ha) as [Ha' ?]. split; [done|]. by apply H9.
Qed.

(** Changes inside the cache that keep what every translation page says. *)
Lemma dom_wf_step nd (fr P : flash_address → Prop) pin pin' d d' : dom_wf nd fr P pin d →
  same_consts d d' → d_gtd d' = d_gtd d → xpc_wf pin' (d_pcache d') →
  (∀ id x, pc_pages (d_pcache d') !! id = Some x →
    0 ≤ xp_mvpn x < d_total_xlate_pages d ∧ length (xp_entries x) = Z.to_nat ENTS ∧
    (xp_dirty x = false → gtd_at d (xp_mvpn x) ≠ NO_MPPN ∧
       xe_ppa <$> xp_entries x = words_at nd (gtd_at d (xp_mvpn x)))) →
  (∀ v, 0 ≤ v < d_total_xlate_pages d → entries_at nd d' v = entries_at nd d v) →
  dom_wf nd fr P pin' d' ∧ same_map nd nd d d'.
Proof.
  intros [H1 H2 H3 H4 H5 H6 H7 H8 H9] Hc Eg Hp Hpg He.
  assert (same_map nd nd d d') as Hm by by apply same_map_entries.
  assert (∀ v, gtd_at d' v = gtd_at d v) as Hg by (intros; unfold gtd_at; by rewrite Eg).
  assert (∀ o, owner_ok d o → ref nd d' o = ref nd d o) as Hr by (intros; by apply ref_same).
  split; [|done]. pose proof Hc as (_ & _ & _ & _ & _ & C6 & C7 & _).
  split; rewrite ?C6, ?C7, ?Eg; try done.
  - intros id x Hx. rewrite Hg. by apply Hpg in Hx.
  - intros v. rewrite Hg. apply H6.
  - intros o. rewrite (owner_ok_same d d') by done. intros Ho. rewrite Hr by done. intros Hn.
    destruct (H7 o Ho Hn) as (? & ? & ? & Hinj). do 3 (split; [done|]).
    intros o'. rewrite (owner_ok_same d d') by done. intros Ho'. rewrite Hr by done. by apply Hinj.
  - intros lpa. rewrite (owner_ok_same d d') by done. intros Ho. rewrite Hm by done. by apply H8.
Qed.

Definition put_page (id : Z) (x : xlate_page) (d : am_domain) : am_domain :=
  set_d_pcache (pc_put id x (d_pcache d)) d.
Definition set_lru (l : list Z) (d : am_domain) : am_domain :=
  set_d_pcache (set_pc_lru l (d_pcache d)) d.

(** Replacing a page by one that says the same. *)
Lemma entries_put nd pin pin' d d' id x y : xpc_wf pin (d_pcache d) → xpc_wf pin' (d_pcache d') →
  d_gtd d' = d_gtd d → pc_pages (d_pcache d) !! id = Some y →
  pc_pages (d_pcache d') = <[id := x]> (pc_pages (d_pcache d)) →
  xp_mvpn x = xp_mvpn y → xp_entries x = xp_entries y →
  ∀ v, entries_at nd d' v = entries_at nd d v.
Proof.
  intros Hp Hp' Eg Hy Ep Em Ee v. unfold entries_at.
  assert (gtd_at d' v = gtd_at d v) as -> by (unfold gtd_at; by rewrite Eg).
  destruct (cached (d_pcache d) v) as [z|] eqn:Ez.
  - apply (cached_spec pin) in Ez as (j & Hj & Hv); [|done].
    destruct (decide (j = id)) as [->|Hne].
    + rewrite (proj2 (cached_spec pin' _ v x Hp')); [congruence|].
      exists id. rewrite Ep, lookup_insert_eq. split; [done|congruence].
    + rewrite (proj2 (cached_spec pin' _ v z Hp')); [done|].
      exists j. by rewrite Ep, lookup_insert_ne.
  - apply (cached_None pin) in Ez; [|done]. rewrite (xpc_find_None pin) in Ez by done.
    rewrite (proj2 (cached_None pin' _ v Hp')); [done|]. apply (xpc_find_None pin'); [done|].
    intros j z. rewrite Ep. destruct (decide (j = id)) as [->|Hne].
    + rewrite lookup_insert_eq. intros [= <-]. rewrite Em. by eapply Ez.
    + rewrite lookup_insert_ne by done. apply Ez.
Qed.
Lemma dom_wf_put nd (fr P : flash_address → Prop) pin pin' d d' id x y : dom_wf nd fr P pin d →
  same_consts d d' → d_gtd d' = d_gtd d → xpc_wf pin' (d_pcache d') →
  pc_pages (d_pcache d) !! id = Some y →
  pc_pages (d_pcache d') = <[id := x]> (pc_pages (d_pcache d)) →
  xp_mvpn x = xp_mvpn y → xp_entries x = xp_entries y → xp_dirty x = xp_dirty y →
  dom_wf nd fr P pin' d' ∧ same_map nd nd d d'.
Proof.
  intros Hd Hc Eg Hp Hy Ep Em Ee Ed. eapply dom_wf_step; [done..| |].
  - rewrite Ep. intros j z. destruct (decide (j = id)) as [->|Hne].
    + rewrite lookup_insert_eq. intros [= <-]. rewrite Em, Ee, Ed. by apply (dw_page _ _ _ _ _ Hd id).
    + rewrite lookup_insert_ne by done. apply (dw_page _ _ _ _ _ Hd).
  - intros v _. apply (entries_put nd pin pin' d d' id x y); [exact (dw_pc _ _ _ _ _ Hd)|done..].
Qed.

(** A new page that says what the directory and the flash said. *)
Lemma entries_load nd d d' id x : xpc_wf None (d_pcache d) → xpc_wf (Some id) (d_pcache d') →
  d_gtd d' = d_gtd d → pc_pages (d_pcache d) !! id = None →
  pc_pages (d_pcache d') = <[id := x]> (pc_pages (d_pcache d)) →
  cached (d_pcache d) (xp_mvpn x) = None → xp_entries x = entries_at nd d (xp_mvpn x) →
  ∀ v, entries_at nd d' v = entries_at nd d v.
Proof.
  intros Hp Hp' Eg Hid Ep Hn Ee v. destruct (decide (v = xp_mvpn x)) as [->|Hv].
  { rewrite <-Ee. eapply entries_cached; [done|]. by rewrite Ep, lookup_insert_eq. }
  unfold entries_at. assert (gtd_at d' v = gtd_at d v) as -> by (unfold gtd_at; by rewrite Eg).
  destruct (cached (d_pcache d) v) as [z|] eqn:Ez.
  - apply (cached_spec None) in Ez as (j & Hj & <-); [|done].
    rewrite (proj2 (cached_spec _ _ _ z Hp')); [done|].
    exists j. rewrite Ep, lookup_insert_ne by congruence. done.
  - apply (cached_None None) in Ez; [|done]. rewrite (xpc_find_None None) in Ez by done.
    rewrite (proj2 (cached_None _ _ v Hp')); [done|]. apply (xpc_find_None (Some id)); [done|].
    intros j z. rewrite Ep. destruct (decide (j = id)) as [->|Hne].
    + rewrite lookup_insert_eq. intros [= <-]. congruence.
    + rewrite lookup_insert_ne by done. apply Ez.
Qed.
Lemma dom_wf_load nd (fr P : flash_address → Prop) d d' id x : dom_wf nd fr P None d →
  same_consts d d' → d_gtd d' = d_gtd d → xpc_wf (Some id) (d_pcache d') →
  pc_pages (d_pcache d) !! id = None →
  pc_pages (d_pcache d') = <[id := x]> (pc_pages (d_pcache d)) →
  cached (d_pcache d) (xp_mvpn x) = None → xp_entries x = entries_at nd d (xp_mvpn x) →
  0 ≤ xp_mvpn x < d_total_xlate_pages d → length (xp_entries x) = Z.to_nat ENTS →
  (xp_dirty x = false → gtd_at d (xp_mvpn x) ≠ NO_MPPN) →
  dom_wf nd fr P (Some id) d' ∧ same_map nd nd d d'.
Proof.
  intros Hd Hc Eg Hp Hid Ep Hn Ee Hv Hl Hdi. eapply dom_wf_step; [done..| |].
  - rewrite Ep. intros j z. destruct (decide (j = id)) as [->|Hne].
    + rewrite lookup_insert_eq. intros [= <-]. split; [done|]. split; [done|]. intros Hx. specialize (Hdi Hx).
      split; [done|]. rewrite Ee. unfold entries_at. rewrite Hn. rewrite (proj2 (Z.eqb_neq _ _) Hdi).
      rewrite <-list_fmap_compose. apply list_fmap_id.
    + rewrite lookup_insert_ne by done. apply (dw_page _ _ _ _ _ Hd).
  - intros v _. apply (entries_load nd d d' id x); [exact (dw_pc _ _ _ _ _ Hd)|done..].
Qed.

(** Pages read from the flash have all their entries. *)
Lemma words_at_length nd d v (fr P : flash_address → Prop) pin : dom_wf nd fr P pin d →
  0 ≤ v < d_total_xlate_pages d → gtd_at d v ≠ NO_MPPN →
  length (words_at nd (gtd_at d v)) = Z.to_nat ENTS.
Proof.
  intros Hd Hv Hn. destruct (dw_xlate _ _ _ _ _ Hd v Hv Hn) as (p & Hp & Hl & Hf).
  unfold words_at. rewrite Hp. simpl. rewrite (length_concat_const 1024) by done.
  change (@length (list Z) p) with (@length sector p). rewrite Hl.  by vm_compute.
Qed.
Lemma entries_at_length nd d v (fr P : flash_address → Prop) pin : dom_wf nd fr P pin d →
  0 ≤ v < d_total_xlate_pages d → length (entries_at nd d v) = Z.to_nat ENTS.
Proof.
  intros Hd Hv. unfold entries_at. destruct (cached _ v) as [x|] eqn:Ex.
  - apply (cached_spec pin) in Ex as (id & Hx & _); [|by apply (dw_pc _ _ _ _ _ Hd)].
    by apply (dw_page _ _ _ _ _ Hd) in Hx as (_ & ? & _).
  - destruct (Z.eqb_spec (gtd_at d v) NO_MPPN); [apply length_replicate|].
    rewrite length_fmap. by eapply words_at_length.
Qed.
(** The entry of a logical page in the page that is held. *)
Lemma amap_held nd d pin id x lpa : xpc_wf pin (d_pcache d) →
  pc_pages (d_pcache d) !! id = Some x → xp_mvpn x = lpa / ENTS →
  amap nd d lpa = default (Xe NO_PPA 0) (xp_entries x !! Z.to_nat (lpa mod ENTS)).
Proof. intros Hp Hx Hv. unfold amap. by rewrite <-Hv, (entries_cached pin _ _ id x). Qed.

(** Entering a new page for a logical page. *)
Definition set_entry (lpa : Z) (e : xlate_entry) (x : xlate_page) : xlate_page :=
  set_xp_dirty true (set_xp_entries (<[Z.to_nat (lpa mod ENTS) := e]> (xp_entries x)) x).

Lemma amap_set_entry nd d pin id x lpa e : xpc_wf pin (d_pcache d) →
  pc_pages (d_pcache d) !! id = Some x → xp_mvpn x = lpa / ENTS →
  length (xp_entries x) = Z.to_nat ENTS →
  ∀ l, amap nd (put_page id (set_entry lpa e x) d) l = if decide (l = lpa) then e else amap nd d l.
Proof.
  intros Hp Hx Hv Hl l. pose proof ENTS_pos as HE.
  assert (xpc_wf pin (d_pcache (put_page id (set_entry lpa e x) d))) as Hp' by by eapply xpc_wf_put.
  assert (0 ≤ lpa mod ENTS < ENTS) as Hm by by apply Z.mod_pos_bound.
  assert (0 ≤ l mod ENTS < ENTS) as Hm' by by apply Z.mod_pos_bound.
  assert (pc_pages (d_pcache (put_page id (set_entry lpa e x) d)) !! id = Some (set_entry lpa e x)) as Hx'
    by (simpl; apply lookup_insert_eq).
  destruct (decide (l / ENTS = lpa / ENTS)) as [Ev|Ev].
  - rewrite (amap_held nd _ pin id (set_entry lpa e x) l Hp' Hx') by (rewrite Ev; exact Hv).
    rewrite (amap_held nd d pin id x l Hp Hx) by congruence. simpl.
    case_decide as E.
    + subst l. rewrite list_lookup_insert_eq; [done|]. rewrite Hl. lia.
    + rewrite list_lookup_insert_ne; [done|]. intros E2. apply E.
      rewrite (Z.div_mod l ENTS), (Z.div_mod lpa ENTS) by lia. rewrite Ev. lia.
  - rewrite decide_False by congruence. unfold amap. f_equal. f_equal.
    unfold entries_at. change (gtd_at (put_page id (set_entry lpa e x) d)) with (gtd_at d).
    assert (∀ z, cached (d_pcache (put_page id (set_entry lpa e x) d)) (l / ENTS) = Some z ↔
                 cached (d_pcache d) (l / ENTS) = Some z) as Hc.
    { intros z. rewrite (cached_spec pin), (cached_spec pin) by done.
      split; intros (j & Hj & Hz); exists j.
      - simpl in Hj. destruct (decide (j = id)) as [->|]; [|by rewrite lookup_insert_ne in Hj].
        rewrite lookup_insert_eq in Hj. injection Hj as <-. simpl in Hz. congruence.
      - simpl. destruct (decide (j = id)) as [->|]; [|by rewrite lookup_insert_ne].
        rewrite Hx in Hj. injection Hj as <-. congruence. }
    destruct (cached (d_pcache d) (l / ENTS)) as [z|] eqn:Ez; [by rewrite (proj2 (Hc z) eq_refl)|].
    destruct (cached _ (l / ENTS)) as [z|] eqn:Ez' in |- *; [|done].
    by apply Hc in Ez'.
Qed.
Lemma dom_wf_set_entry nd (fr fr' P : flash_address → Prop) pin d id x lpa e :
  dom_wf nd fr P pin d → owner_ok d (OData lpa) →
  pc_pages (d_pcache d) !! id = Some x → xp_mvpn x = lpa / ENTS →
  0 ≤ xe_ppa e < TOTAL_PAGES → 0 ≤ xe_bitmap e < 16 →
  fr (ppa_to_address (xe_ppa e)) →
  (∀ a, fr' a ↔ fr a ∧ a ≠ ppa_to_address (xe_ppa e)) →
  dom_wf nd fr' P pin (put_page id (set_entry lpa e x) d).
Proof.
  intros Hd Ho Hx Hv He Hb Hfr Hfr'. pose proof Hd as [H1 H2 H3 H4 H5 H6 H7 H8 H9].
  destruct (H5 id x Hx) as (Hvx & Hl & _).
  pose proof (amap_set_entry nd d pin id x lpa e H4 Hx Hv Hl) as Hm.
  set (d' := put_page id (set_entry lpa e x) d) in *.
  assert (∀ o, ref nd d' o = if decide (o = OData lpa) then xe_ppa e else ref nd d o) as Hr.
  { intros [l|v]; cbn [ref]; [|by rewrite decide_False]. rewrite Hm.
    destruct (decide (l = lpa)) as [->|]; [by rewrite decide_True|]. by rewrite decide_False by congruence. }
  assert (∀ o, owner_ok d o → ref nd d o ≠ NO_PPA → ref nd d o ≠ xe_ppa e) as Hnew.
  { intros o Hoo Hn E. destruct (H7 o Hoo Hn) as (_ & Hnf & _). by rewrite E in Hnf. }
  assert (xe_ppa e ≠ NO_PPA) as Hne.
  { intros E. rewrite E in He. unfold NO_PPA in He. revert He. geometry. lia. }
  split; try done.
  - by eapply xpc_wf_put.
  - simpl. intros j z. destruct (decide (j = id)) as [->|Hj].
    + rewrite lookup_insert_eq. intros [= <-]. simpl. split; [done|]. split; [by rewrite length_insert|done].
    + rewrite lookup_insert_ne by done. apply H5.
  - intros o Hoo. rewrite Hr. case_decide as E.
    + intros _. split; [done|]. split; [rewrite Hfr'; tauto|]. split; [by apply H9|].
      intros o' Ho'. rewrite Hr. case_decide; [congruence|]. intros E2. exfalso.
      apply (Hnew o' Ho'); congruence.
    + intros Hn. destruct (H7 o Hoo Hn) as (? & Hnf & ? & Hinj). split; [done|].
      split; [rewrite Hfr'; tauto|]. split; [done|]. intros o' Ho'. rewrite Hr. case_decide; [|by apply Hinj].
      intros E2. by destruct (Hnew o Hoo Hn).
  - intros l Hl'. rewrite Hm. case_decide; [done|]. by apply H8.
  - intros a [Ha _]%Hfr'. by apply H9.
Qed.

(** A translation page that has been written out. *)
Definition flushed (id : Z) (x : xlate_page) (g : Z) (d : am_domain) : am_domain :=
  set_d_gtd (<[Z.to_nat (xp_mvpn x) := g]> (d_gtd d)) (put_page id (set_xp_dirty false x) d).

Lemma gtd_at_flushed id x g d v : 0 ≤ v → 0 ≤ xp_mvpn x < Z.of_nat (length (d_gtd d)) →
  gtd_at (flushed id x g d) v = if decide (v = xp_mvpn x) then g else gtd_at d v.
Proof.
  intros Hv Hx. unfold gtd_at. simpl. case_decide as E.
  - subst v. rewrite list_lookup_insert_eq by lia. done.
  - by rewrite list_lookup_insert_ne by lia.
Qed.
Lemma ppa_to_address_inj a b : 0 ≤ a < TOTAL_PAGES → 0 ≤ b < TOTAL_PAGES →
  ppa_to_address a = ppa_to_address b → a = b.
Proof. intros Ha Hb E. rewrite <-(address_ppa_address a), E, address_ppa_address; done. Qed.
Lemma ppa_not_NO a : 0 ≤ a < TOTAL_PAGES → a ≠ NO_PPA.
Proof. intros H ->. revert H. unfold NO_PPA. geometry. lia. Qed.

Lemma dom_wf_flushed (nd nd' : nand_view) (fr fr' P : flash_address → Prop) pin d id x g p :
  dom_wf nd fr P pin d → pc_pages (d_pcache d) !! id = Some x →
  0 ≤ g < TOTAL_PAGES → fr (ppa_to_address g) → (∀ a, fr' a ↔ fr a ∧ a ≠ ppa_to_address g) →
  nd' (ppa_to_address g) = Some p → length p = 4%nat → Forall (λ s, length s = 1024%nat) p →
  concat p = xe_ppa <$> xp_entries x →
  (∀ a, a ≠ ppa_to_address g → nd' a = nd a) →
  dom_wf nd' fr' P pin (flushed id x g d) ∧ same_map nd nd' d (flushed id x g d) ∧
  same_consts d (flushed id x g d).
Proof.
  intros Hd Hx Hg Hfr Hfr' Hp Hpl Hpf Hpc Hnd. pose proof Hd as [H1 H2 H3 H4 H5 H6 H7 H8 H9].
  destruct (H5 id x Hx) as (Hv & Hl & _).
  set (x' := set_xp_dirty false x). set (d' := flushed id x g d).
  assert (∀ v, 0 ≤ v → gtd_at d' v = if decide (v = xp_mvpn x) then g else gtd_at d v) as Hgtd
    by (intros; apply gtd_at_flushed; lia).
  assert (xpc_wf pin (d_pcache d')) as Hp' by by eapply xpc_wf_put.
  assert (same_consts d d') as Hc by (repeat split; simpl; by rewrite length_insert).
  assert (∀ v, 0 ≤ v < d_total_xlate_pages d → gtd_at d v ≠ NO_MPPN →
            ppa_to_address (gtd_at d v) ≠ ppa_to_address g) as Hdiff.
  { intros v Hvv Hn E. destruct (H7 (OXlate v) Hvv Hn) as (_ & Hnf & _). simpl in Hnf. by rewrite E in Hnf. }
  assert (∀ v, 0 ≤ v < d_total_xlate_pages d → entries_at nd' d' v = entries_at nd d v) as He.
  { intros v Hvv. rewrite <-(entries_put nd pin pin d (put_page id x' d) id x' x) by done.
    unfold entries_at. change (d_pcache d') with (d_pcache (put_page id x' d)).
    destruct (cached (d_pcache (put_page id x' d)) v) as [z|] eqn:Ez; [done|].
    assert (v ≠ xp_mvpn x) as Hne.
    { intros ->. assert (cached (d_pcache (put_page id x' d)) (xp_mvpn x) = Some x') as E; [|congruence].
      apply (cached_spec pin); [done|]. exists id. simpl. by rewrite lookup_insert_eq. }
    rewrite Hgtd, decide_False by (done || lia). change (gtd_at (put_page id x' d) v) with (gtd_at d v).
    destruct (Z.eqb_spec (gtd_at d v) NO_MPPN); [done|]. unfold words_at. rewrite Hnd by auto. done. }
  assert (same_map nd nd' d d') as Hm by by apply same_map_entries.
  assert (∀ o, owner_ok d o → ref nd' d' o = if decide (o = OXlate (xp_mvpn x)) then g else ref nd d o) as Hr.
  { intros [l|v] Ho; cbn [ref]; [by rewrite Hm, decide_False|]. rewrite Hgtd by apply Ho.
    destruct (decide (v = xp_mvpn x)) as [->|]; [by rewrite decide_True|]. by rewrite decide_False by congruence. }
  assert (∀ o, owner_ok d o → ref nd d o ≠ NO_PPA → ref nd d o ≠ g) as Hnew.
  { intros o Hoo Hn E. destruct (H7 o Hoo Hn) as (_ & Hnf & _). by rewrite E in Hnf. }
  pose proof (ppa_not_NO g Hg) as HgN.
  split; [|done]. split; try done.
  - simpl. by rewrite length_insert.
  - change (pc_pages (d_pcache d')) with (<[id := x']> (pc_pages (d_pcache d))). intros j z.
    destruct (decide (j = id)) as [->|Hj].
    + rewrite lookup_insert_eq. intros [= <-]. simpl. split; [done|]. split; [done|]. intros _.
      rewrite Hgtd, decide_True by (done || lia). split; [done|]. unfold words_at. by rewrite Hp.
    + rewrite lookup_insert_ne by done. intros Hz. destruct (H5 j z Hz) as (Hvz & ? & Hcl).
      split; [done|]. split; [done|].
      assert (xp_mvpn z ≠ xp_mvpn x) as Hne by (intros E; apply Hj; exact (xpc_wf_inj pin _ _ _ _ _ H4 Hz Hx E)).
      rewrite Hgtd, decide_False by (done || lia). intros Hdz. destruct (Hcl Hdz) as [Hn ->].
      split; [done|]. unfold words_at. by rewrite Hnd by auto.
  - intros v Hvv. rewrite Hgtd by lia. case_decide; [by eauto|]. intros Hn.
    rewrite Hnd by auto. by apply H6.
  - intros o Hoo. rewrite (owner_ok_same d d') in Hoo by done. rewrite Hr by done. case_decide as E.
    + intros _. split; [done|]. split; [rewrite Hfr'; tauto|]. split; [by apply H9|].
      intros o' Ho'. rewrite (owner_ok_same d d') in Ho' by done. rewrite Hr by done.
      case_decide; [congruence|]. intros E2. exfalso. apply (Hnew o' Ho'); congruence.
    + intros Hn. destruct (H7 o Hoo Hn) as (? & Hnf & ? & Hinj). split; [done|].
      split; [rewrite Hfr'; tauto|]. split; [done|].
      intros o' Ho'. rewrite (owner_ok_same d d') in Ho' by done. rewrite Hr by done.
      case_decide; [|by apply Hinj]. intros E2. by destruct (Hnew o Hoo Hn).
  - intros l Hl'. rewrite (owner_ok_same d d') in Hl' by done. rewrite Hm by done. by apply H8.
  - intros a [Ha Hane]%Hfr'. destruct (H9 a Ha) as (? & ? & ?). split; [|done]. by rewrite Hnd.
Qed.
