(* ===== verification/AmuSpec.v ===== *)
(** Specifications of the operations on one domain: each takes the invariant to
    the invariant and changes the logical-to-physical map and the flash exactly
    as stated. *)
From S2P Require Import Prelude Bitmap Avl Flash Machine BlockManager Amu AmuFacts.

(** Reduce field accesses and updates only: [simpl] would unfold the entry lists. *)
Ltac amu_cbn :=
  cbn [set_xp_mvpn set_xp_entries set_xp_dirty set_xp_owned set_xp_pin xp_mvpn xp_entries xp_dirty
       xp_owned xp_pin_count ds_bm ds_dom bm_mach bm_planes is_ok lget lset dom_lens dom_mach_lens bm_lens
       m_dev m_mem m_next m_fs m_stats fst snd].

(** * Machine states *)
Record mem_wf `{Platform} (m : mach) : Prop := {
  mw_next : 0 < m_next m;
  mw_mem : ∀ id b, m_mem m !! id = Some b → id < m_next m ∧ length (b_data b) = 4%nat;
}.
(** Same flash, buffers and files; identifiers may have been used up. *)
Record mach_quiet `{Platform} (m m' : mach) : Prop := {
  mq_nand : ∀ a, nand (m_dev m') a = nand (m_dev m) a;
  mq_mem : m_mem m' = m_mem m;
  mq_fs : m_fs m' = m_fs m;
  mq_next : m_next m ≤ m_next m';
}.

Section spec.
Context {PL : Platform} {PO : @PlatformOk PL} {EL : @EccLive PL} {AL : @AllocLive PL}.

Lemma mach_quiet_refl m : mach_quiet m m.
Proof using Type. split; done || lia. Qed.
Lemma mach_quiet_trans m1 m2 m3 : mach_quiet m1 m2 → mach_quiet m2 m3 → mach_quiet m1 m3.
Proof using Type. intros [N1 ? ? ?] [N2 ? ? ?]. split; [intros a; by rewrite N2|congruence|congruence|lia]. Qed.
Lemma mem_wf_quiet m m' : mach_quiet m m' → mem_wf m → mem_wf m'.
Proof using Type.
  intros [_ E _ Hn] [H1 H2]. split; [lia|]. intros id b. rewrite E. intros Hb.
  destruct (H2 id b Hb). split; [lia|done].
Qed.

(** A buffer that lives from its allocation to the [free_mem] that ends the
    operation. *)
Lemma wp_alloc_live (Q : Z → mach → Prop) m : mem_wf m →
  (0 < m_next m → m_mem m !! m_next m = None →
   Q (m_next m) (Mach _ (m_dev m) (<[m_next m := junk (m_next m)]> (m_mem m)) (m_next m + 1) (m_fs m) (m_stats m))) →
  wp alloc_vmpages Q m.
Proof using AL.
  intros [Hn Hm] HQ. apply wp_alloc; [apply AL|]. apply HQ; [done|].
  destruct (m_mem m !! m_next m) as [b|] eqn:E; [|done]. apply Hm in E. lia.
Qed.

(** * Domain states *)
Definition pages (d : am_domain) : gmap Z xlate_page := pc_pages (d_pcache d).
Definition nandv (s : dom_st) : nand_view := nand (m_dev (bm_mach (ds_bm s))).
Definition set_dom (d : am_domain) (s : dom_st) : dom_st := DomSt _ (ds_bm s) d.

Record dom_inv (P : flash_address → Prop) (pin : option Z) (s : dom_st) : Prop := {
  di_bm : bm_inv (ds_bm s);
  di_mem : mem_wf (bm_mach (ds_bm s));
  di_ids : ∀ id, is_Some (pages (ds_dom s) !! id) → 0 < id < m_next (bm_mach (ds_bm s));
  di_dom : dom_wf (nandv s) (page_fresh (ds_bm s)) P pin (ds_dom s);
}.

(** What looking up a translation page leaves alone. *)
Record quiet (s s' : dom_st) : Prop := {
  q_planes : bm_planes (ds_bm s') = bm_planes (ds_bm s);
  q_mach : mach_quiet (bm_mach (ds_bm s)) (bm_mach (ds_bm s'));
  q_consts : same_consts (ds_dom s) (ds_dom s');
  q_gtd : d_gtd (ds_dom s') = d_gtd (ds_dom s);
  q_map : same_map (nandv s) (nandv s') (ds_dom s) (ds_dom s');
}.
Lemma quiet_trans s1 s2 s3 : quiet s1 s2 → quiet s2 s3 → quiet s1 s3.
Proof using Type.
  intros [A1 B1 C1 D1 E1] [A2 B2 C2 D2 E2]. split; [congruence|by eapply mach_quiet_trans|by eapply same_consts_trans|congruence|].
  intros lpa Ho. rewrite E2, E1; [done|done|]. by rewrite (owner_ok_same _ _ _ C1).
Qed.
Lemma page_fresh_planes (b b' : bm) a : bm_planes b' = bm_planes b → page_fresh b' a ↔ page_fresh b a.
Proof using Type. intros E. unfold page_fresh. by rewrite E. Qed.
Lemma bm_inv_planes (b b' : bm) : bm_planes b' = bm_planes b → bm_inv b → bm_inv b'.
Proof using Type. intros E Hb. unfold bm_inv. by rewrite E. Qed.
Lemma bm_ready_planes n (b b' : bm) : bm_planes b' = bm_planes b → bm_ready n b → bm_ready n b'.
Proof using Type. intros E Hb. unfold bm_ready. by rewrite E. Qed.

Lemma bm_ready_le n m (b : bm) : (m ≤ n)%nat → bm_ready n b → bm_ready m b.
Proof using Type. intros Hle Hb a p Ha Hp. destruct (Hb a p Ha Hp). split; [done|lia]. Qed.

(** ** Single steps *)
Lemma wp_page_at id x (Q : xlate_page → dom_st → Prop) s :
  pages (ds_dom s) !! id = Some x → Q x s → wp (page_at id) Q s.
Proof using Type. intros Hx HQ. unfold page_at, dom. wp_steps. apply wp_deref. eauto. Qed.
Lemma wp_upd_page id f x (Q : () → dom_st → Prop) s :
  pages (ds_dom s) !! id = Some x → Q tt (set_dom (put_page id (f x) (ds_dom s)) s) →
  wp (upd_page id f) Q s.
Proof using Type.
  intros Hx HQ. unfold upd_page. wp_steps. eapply wp_page_at; [done|].
  unfold upd_pc, upd_dom. by wp_steps.
Qed.

Definition taken (id : Z) (x : xlate_page) (d : am_domain) : am_domain :=
  set_lru (list_del id (pc_lru_list (d_pcache d))) (put_page id (set_xp_owned true (set_xp_pin 1 x)) d).
Definition released (id : Z) (x : xlate_page) (d : am_domain) : am_domain :=
  set_lru (list_add id (pc_lru_list (d_pcache d))) (put_page id (set_xp_pin 0 (set_xp_owned false x)) d).

Lemma put_put id x y d : put_page id y (put_page id x d) = put_page id y d.
Proof using Type. unfold put_page, set_d_pcache, pc_put, set_pc_pages. simpl. by rewrite insert_insert_eq. Qed.
Lemma put_lru id l x d : put_page id x (set_lru l d) = set_lru l (put_page id x d).
Proof using Type. done. Qed.
Lemma pages_put id x d : pages (put_page id x d) = <[id := x]> (pages d).
Proof using Type. done. Qed.

Lemma wp_take {B} id x (k : ST dom_st B) (Q : B → dom_st → Prop) s :
  pages (ds_dom s) !! id = Some x → xp_pin_count x = 0 →
  wp k Q (set_dom (taken id x (ds_dom s)) s) →
  wp (xpc_pin id ≫= λ _, mutex_lock id ≫= λ _, k) Q s.
Proof using Type.
  intros Hx Hp HQ. unfold xpc_pin. wp_steps. eapply wp_page_at; [done|]. wp_steps.
  eapply wp_upd_page; [done|]. rewrite Hp. wp_steps. unfold xpc_remove_lru, upd_pc, upd_dom. wp_steps.
  unfold mutex_lock. apply wp_bind. eapply wp_upd_page; [by unfold pages; simpl; rewrite lookup_insert_eq|].
  revert HQ. unfold taken, set_dom, set_lru, put_page, set_d_pcache, pc_put, set_pc_pages, set_pc_lru.
  simpl. by rewrite insert_insert_eq.
Qed.
Lemma wp_release {B} id x (k : ST dom_st B) (Q : B → dom_st → Prop) s :
  pages (ds_dom s) !! id = Some x → xp_pin_count x = 1 →
  wp k Q (set_dom (released id x (ds_dom s)) s) →
  wp (mutex_unlock id ≫= λ _, xpc_unpin id ≫= λ _, k) Q s.
Proof using Type.
  intros Hx Hp HQ. unfold mutex_unlock. apply wp_bind. eapply wp_upd_page; [done|].
  unfold xpc_unpin. wp_steps. eapply wp_page_at; [by unfold pages; simpl; rewrite lookup_insert_eq|].
  wp_steps; [by simpl; rewrite Hp|].
  eapply wp_upd_page; [by unfold pages; simpl; rewrite lookup_insert_eq|].
  simpl. rewrite Hp. wp_steps. unfold xpc_add_lru, upd_pc, upd_dom. wp_steps.
  revert HQ. unfold released, set_dom, set_lru, put_page, set_d_pcache, pc_put, set_pc_pages, set_pc_lru.
  simpl. by rewrite insert_insert_eq.
Qed.

Lemma dom_inv_take P s id x : dom_inv P None s → pages (ds_dom s) !! id = Some x →
  xp_pin_count x = 0 ∧
  dom_inv P (Some id) (set_dom (taken id x (ds_dom s)) s) ∧ quiet s (set_dom (taken id x (ds_dom s)) s).
Proof using Type.
  intros [Hb Hm Hi Hd] Hx. pose proof (dw_pc _ _ _ _ _ Hd) as Hp.
  split; [by apply (xw_pin _ _ Hp) in Hx as [-> _]|].
  edestruct (dom_wf_put (nandv s) (page_fresh (ds_bm s)) P None (Some id) (ds_dom s) (taken id x (ds_dom s)) id
    (set_xp_owned true (set_xp_pin 1 x)) x) as [Hd' Hsm]; try done.
  { by apply (xpc_wf_take id _ x). }
  split; [split; try done|by split; try apply mach_quiet_refl].
  intros j. unfold pages. simpl. rewrite put_is_Some by eauto. apply Hi.
Qed.
Lemma dom_inv_release P s id x : dom_inv P (Some id) s → pages (ds_dom s) !! id = Some x →
  xp_pin_count x = 1 ∧
  dom_inv P None (set_dom (released id x (ds_dom s)) s) ∧ quiet s (set_dom (released id x (ds_dom s)) s).
Proof using Type.
  intros [Hb Hm Hi Hd] Hx. pose proof (dw_pc _ _ _ _ _ Hd) as Hp.
  split; [apply (xw_pin _ _ Hp) in Hx as [-> _]; by rewrite decide_True|].
  edestruct (dom_wf_put (nandv s) (page_fresh (ds_bm s)) P (Some id) None (ds_dom s) (released id x (ds_dom s)) id
    (set_xp_pin 0 (set_xp_owned false x)) x) as [Hd' Hsm]; try done.
  { by apply (xpc_wf_release id _ x). }
  split; [split; try done|by split; try apply mach_quiet_refl].
  intros j. unfold pages. simpl. rewrite put_is_Some by eauto. apply Hi.
Qed.

(** ** Reading a translation page *)
Definition with_mach (m : mach) (s : dom_st) : dom_st := DomSt _ (Bm _ m (bm_planes (ds_bm s))) (ds_dom s).

Lemma agree_full (b p : list sector) : length b = 4%nat → length p = 4%nat →
  agree 0 FLASH_PG_SIZE b p → b = p.
Proof using Type.
  intros Hb Hp Ha. apply list_eq. intros i. destruct (decide (i < 4)%nat) as [Hi|Hi].
  - specialize (Ha (Z.of_nat i) ltac:(lia)). rewrite Nat2Z.id in Ha. apply Ha.
    unfold in_range, SECTOR_SIZE, FLASH_PG_SIZE. lia.
  - rewrite !lookup_ge_None_2 by lia. done.
Qed.
Context {RL : @ReadLive PL}.

Lemma wp_xpc_read_page id x g p (Q : rc → dom_st → Prop) s :
  pages (ds_dom s) !! id = Some x → xp_dirty x = false →
  d_gtd (ds_dom s) !! Z.to_nat (xp_mvpn x) = Some g →
  d_xlate_ents_per_page (ds_dom s) = ENTS → length (xp_entries x) = Z.to_nat ENTS →
  mem_wf (bm_mach (ds_bm s)) →
  nandv s (ppa_to_address g) = Some p → length p = 4%nat → Forall (λ s, length s = 1024%nat) p →
  (∀ m', mach_quiet (bm_mach (ds_bm s)) m' →
     Q R0 (with_mach m' (set_dom (put_page id (set_xp_entries
             ((λ w, Xe w full_page_bitmap) <$> concat p) x) (ds_dom s)) s))) →
  wp (xpc_read_page id) Q s.
Proof using All.
  intros Hx Hd Hg He Hl Hm Hp Hpl Hpf HQ. unfold xpc_read_page, dom. wp_steps.
  eapply wp_page_at; [done|]. wp_steps. apply wp_deref. exists g. split; [done|]. rewrite Hd.
  wp_steps; [done|]. simpl. apply wp_alloc_live; [done|]. intros Hn0 Hnone.
  rewrite (proj2 (Z.eqb_neq _ _)) by lia. set (m := bm_mach (ds_bm s)) in *.
  wp_steps. simpl.
  set (txn := full_page_txn TXN_READ _ _ _ _ _).
  set (m1 := Mach _ _ _ _ _ _).
  assert (m_mem m1 !! t_data txn = Some (junk (m_next m))) as Hb by (simpl; apply lookup_insert_eq).
  eapply wp_mono; [apply wp_and; [apply (wp_amu_submit_read txn (junk (m_next m)) m1)|apply (wp_amu_submit_read_live txn (junk (m_next m)) m1)]|];
    try done; try (simpl; lia).
  { apply junk_len. }
  intros [r txn'] m2 ((b' & Hop) & ->). destruct Hop as [_ Hfs Hnx Hmem Hlen Hoth Hrd _].
  assert (b_data b' = p) as Hbp by (apply agree_full; [done|done|]; by apply Hrd).
  assert (length (concat p) = Z.to_nat ENTS) as Hcl.
  { rewrite (length_concat_const 1024) by done. change (@length (list Z) p) with (@length sector p).
    rewrite Hpl. by vm_compute. }
  cbn beta iota. simpl. wp_steps. simpl.
  eapply wp_load; [by rewrite Hmem, lookup_insert_eq|]. rewrite He. wp_steps.
  { unfold buf_words. rewrite Hbp, Hl, Hcl. apply andb_true_intro. split; apply Nat.leb_le; lia. }
  eapply wp_upd_page; [done|]. wp_steps. apply wp_free_mem; [simpl; rewrite Hmem, lookup_insert_eq; eauto|].
  wp_steps. unfold buf_words. rewrite Hbp, take_ge by lia. rewrite drop_ge by lia. rewrite app_nil_r.
  apply HQ. simpl. rewrite Hmem. simpl. rewrite insert_insert_eq.
  split; simpl; [|by rewrite delete_insert_eq, delete_id|done|rewrite Hnx; simpl; lia].
  intros a. apply Hoth. done.
Qed.

(** ** Looking up a translation page *)
Lemma length_raw_entries n ws : length ws = (2 * n)%nat → length (raw_entries ws) = n.
Proof using Type.
  revert ws. induction n as [|n IH]; intros ws Hl; destruct ws as [|a [|b ws]]; simpl in *; try lia.
  f_equal. apply IH. lia.
Qed.

Definition room (v : Z) (d : am_domain) : Prop :=
  cached (d_pcache d) v ≠ None ∨ pc_size (d_pcache d) < pc_capacity (d_pcache d).

Definition added (id : Z) (x : xlate_page) (d : am_domain) : am_domain :=
  set_d_pcache (xpc_resize 1 (xpc_insert id (pc_put id x (d_pcache d)))) d.

Lemma wp_xpc_add v (Q : rc * Z → dom_st → Prop) s :
  mem_wf (bm_mach (ds_bm s)) → pc_size (d_pcache (ds_dom s)) < pc_capacity (d_pcache (ds_dom s)) →
  (∀ id es m', mach_quiet (bm_mach (ds_bm s)) m' → 0 < m_next (bm_mach (ds_bm s)) ≤ id → id < m_next m' →
     length es = Z.to_nat ENTS →
     Q (R0, id) (with_mach m' (set_dom (added id (Xpg v es false false 1) (ds_dom s)) s))) →
  wp (xpc_add v) Q s.
Proof using All.
  intros Hm Hr HQ. unfold xpc_add, dom. wp_steps. rewrite (proj2 (Z.leb_gt _ _)) by lia.
  apply wp_bind, wp_lift. unfold wp at 1, slaballoc. rewrite AL.
  pose proof (mw_next _ Hm). simpl. wp_steps; [by rewrite (proj2 (Z.eqb_neq _ _)) by lia|].
  unfold wp at 1, alloc_words. rewrite AL. simpl. rewrite (proj2 (Z.eqb_neq _ _)) by lia.
  unfold upd_pc, upd_dom. wp_steps. refine (HQ _ _ (Mach _ _ _ _ _ _) _ _ _ _); simpl; [|lia..|].
  - split; simpl; done || lia.
  - apply length_raw_entries. rewrite junk_words_len. by vm_compute.
Qed.

(** The entries that a new page gets. *)
Lemma entries_at_miss nd d v : cached (d_pcache d) v = None →
  entries_at nd d v = if gtd_at d v =? NO_MPPN then replicate (Z.to_nat ENTS) (Xe NO_PPA 0)
                      else (λ w, Xe w full_page_bitmap) <$> words_at nd (gtd_at d v).
Proof using Type. intros E. unfold entries_at. by rewrite E. Qed.

(** State after a miss: page [id] filled in with what was on flash. *)
Definition loaded (id v : Z) (es es' : list xlate_entry) (dirty : bool) (d : am_domain) : am_domain :=
  put_page id (Xpg v es' dirty true 1) (added id (Xpg v es false false 1) d).

Lemma dom_inv_loaded P s m' id v es dirty : dom_inv P None s →
  mach_quiet (bm_mach (ds_bm s)) m' → m_next (bm_mach (ds_bm s)) ≤ id < m_next m' →
  0 ≤ v < d_total_xlate_pages (ds_dom s) → cached (d_pcache (ds_dom s)) v = None →
  (dirty = false → gtd_at (ds_dom s) v ≠ NO_MPPN) →
  let s' := with_mach m' (set_dom (loaded id v es (entries_at (nandv s) (ds_dom s) v) dirty (ds_dom s)) s) in
  dom_inv P (Some id) s' ∧ quiet s s'.
Proof using Type.
  intros [Hb Hm Hi Hd] Hq Hid Hv Hc Hdi s'. pose proof (dw_pc _ _ _ _ _ Hd) as Hp.
  assert (pages (ds_dom s) !! id = None) as Hnone.
  { destruct (pages (ds_dom s) !! id) as [y|] eqn:E; [|done]. specialize (Hi id ltac:(by eexists)). lia. }
  pose proof Hc as Hfind. rewrite (cached_None None), (xpc_find_None None) in Hfind by done.
  set (x' := Xpg v (entries_at (nandv s) (ds_dom s) v) dirty true 1).
  assert (same_consts (ds_dom s) (ds_dom s')) as Hsc by done.
  edestruct (dom_wf_load (nandv s) (page_fresh (ds_bm s)) P (ds_dom s) (ds_dom s') id x') as [Hd' Hsm]; try done.
  { apply (xpc_wf_add id (Xpg v es false false 1) x'); try done. }
  { simpl. by rewrite insert_insert_eq. }
  { simpl. by eapply entries_at_length. }
  destruct (dom_wf_frame (nandv s) (nandv s') (page_fresh (ds_bm s)) (page_fresh (ds_bm s')) P _ _ Hd') as [Hd2 Hsm2].
  { intros. apply (mq_nand _ _ Hq). }
  { intros a Ha. rewrite (page_fresh_planes (ds_bm s) (ds_bm s')) in Ha by done. split; [done|].
    unfold nandv. simpl. rewrite (mq_nand _ _ Hq). by apply (dw_fresh _ _ _ _ _ Hd). }
  split; split; try done.
  - simpl. by eapply mem_wf_quiet.
  - intros j. unfold pages. simpl. rewrite insert_insert_eq.
    destruct (decide (j = id)) as [->|Hne].
    + intros _. pose proof (mw_next _ Hm). simpl. lia.
    + rewrite lookup_insert_ne by done. intros Hj%Hi. destruct Hq. lia.
  - intros lpa Ho. rewrite Hsm2 by done. by apply Hsm.
Qed.

Lemma pages_owned P s id x : dom_inv P (Some id) s → pages (ds_dom s) !! id = Some x →
  xp_pin_count x = 1 ∧ 0 ≤ xp_mvpn x < d_total_xlate_pages (ds_dom s) ∧ length (xp_entries x) = Z.to_nat ENTS.
Proof using Type.
  intros [_ _ _ Hd] Hx. destruct (dw_page _ _ _ _ _ Hd id x Hx) as (? & ? & _).
  split; [|done]. apply (xw_pin _ _ (dw_pc _ _ _ _ _ Hd)) in Hx as [-> _]. by rewrite decide_True.
Qed.
Lemma gtd_lookup d v : 0 ≤ v < Z.of_nat (length (d_gtd d)) → d_gtd d !! Z.to_nat v = Some (gtd_at d v).
Proof using Type.
  intros Hv. unfold gtd_at. destruct (lookup_lt_is_Some_2 (d_gtd d) (Z.to_nat v)) as [g ->]; [lia|done].
Qed.

Lemma wp_get_translation_page P v (Q : rc * Z → dom_st → Prop) s :
  dom_inv P None s → 0 ≤ v < d_total_xlate_pages (ds_dom s) → room v (ds_dom s) →
  (∀ id x s', dom_inv P (Some id) s' → quiet s s' → pages (ds_dom s') !! id = Some x → xp_mvpn x = v →
     pc_size (d_pcache (ds_dom s')) ≤ pc_size (d_pcache (ds_dom s)) + 1 → Q (R0, id) s') →
  wp (get_translation_page v) Q s.
Proof using All.
  intros Hs Hv Hr HQ. pose proof Hs as [Hb Hm Hi Hd]. pose proof (dw_pc _ _ _ _ _ Hd) as Hp.
  unfold get_translation_page, dom. wp_steps. destruct (xpc_find (d_pcache (ds_dom s)) v) as [id|] eqn:Ef.
  { apply (xpc_find_spec None) in Ef as (x & Hx & Hxv); [|done].
    destruct (dom_inv_take P s id x Hs Hx) as (Hpin & Hs' & Hq).
    eapply wp_take; [done..|]. wp_steps. eapply HQ; [done..|by unfold pages; simpl; rewrite lookup_insert_eq|done|].
    simpl. lia. }
  assert (cached (d_pcache (ds_dom s)) v = None) as Hc by by apply (cached_None None).
  destruct Hr as [Hr|Hr]; [done|]. wp_steps. apply wp_xpc_add; [done..|].
  intros id es m' Hq Hid Hid' Hl. rewrite bool_decide_eq_false_2 by done.
  assert (pages (added id (Xpg v es false false 1) (ds_dom s)) !! id = Some (Xpg v es false false 1)) as Hx0
    by (unfold pages; simpl; apply lookup_insert_eq).
  wp_steps. eapply wp_page_at; [exact Hx0|]. wp_steps; [done|]. unfold mutex_lock.
  eapply wp_upd_page; [exact Hx0|]. wp_steps. apply wp_deref. exists (gtd_at (ds_dom s) v).
  pose proof (dw_gtd _ _ _ _ _ Hd) as Hgl.
  split; [apply (gtd_lookup (ds_dom s)); lia|]. wp_steps.
  assert (d_xlate_ents_per_page (ds_dom s) = ENTS) as He by apply (dw_ents _ _ _ _ _ Hd).
  pose proof (dom_inv_loaded P s m' id v es true Hs Hq ltac:(lia) Hv Hc ltac:(done)) as HL1.
  pose proof (dom_inv_loaded P s m' id v es false Hs Hq ltac:(lia) Hv Hc) as HL2.
  pose proof (entries_at_miss (nandv s) (ds_dom s) v Hc) as Hes.
  destruct (Z.eqb_spec (gtd_at (ds_dom s) v) NO_MPPN) as [Eg|Eg].
  - simpl. rewrite He. wp_steps; [by rewrite Hl, Nat.leb_refl|].
    eapply wp_upd_page; [by unfold pages; simpl; rewrite lookup_insert_eq|]. wp_steps.
    unfold set_dom, with_mach. amu_cbn. rewrite put_put.
    rewrite drop_ge, app_nil_r by lia. rewrite Hes in HL1. destruct HL1 as [HL1 HL1q].
    eapply HQ; [exact HL1|exact HL1q|by unfold pages; simpl; rewrite lookup_insert_eq|done|simpl; lia].
  - specialize (HL2 ltac:(done)). destruct (dw_xlate _ _ _ _ _ Hd v Hv Eg) as (p & Hp1 & Hp2 & Hp3).
    wp_steps. eapply wp_xpc_read_page with (g := gtd_at (ds_dom s) v) (p := p);
      [by unfold pages; simpl; rewrite lookup_insert_eq|done|apply (gtd_lookup (ds_dom s)); simpl; lia|done|done| | |done|done|].
    { simpl. by eapply mem_wf_quiet. }
    { unfold nandv. simpl. by rewrite (mq_nand _ _ Hq). }
    intros m2 Hq2. wp_steps. unfold set_dom, with_mach. amu_cbn. rewrite put_put.
    pose proof (mach_quiet_trans _ _ _ Hq Hq2) as Hq3.
    destruct (dom_inv_loaded P s m2 id v es false Hs Hq3) as [HL3 HL3q]; [destruct Hq2; simpl in *; lia|done..|].
    rewrite Hes in HL3, HL3q. unfold words_at in HL3, HL3q. rewrite Hp1 in HL3, HL3q.
    eapply HQ; [exact HL3|exact HL3q|by unfold pages; simpl; rewrite lookup_insert_eq|done|simpl; lia].
Qed.
End spec.
