(* ===== verification/AmuWrite.v ===== *)
(** Writing through a domain: the read-modify-write of partial pages, the
    allocation of the new flash page and the change of the map. *)
From S2P Require Import Prelude Bitmap Avl Flash Machine BlockManager Amu AmuFacts AmuSpec.

Section write.
Context {PL : Platform} {PO : @PlatformOk PL} {EL : @EccLive PL} {AL : @AllocLive PL} {RL : @ReadLive PL}.

(** * Copying sectors *)
Definition put_sectors (l : list ((Z * nat) * sector)) (d : list sector) : list sector :=
  foldl (λ d p, <[p.1.2 := p.2]> d) d l.
Lemma length_put_sectors l d : length (put_sectors l d) = length d.
Proof using Type. revert d. induction l as [|p l IH]; intros d; simpl; [done|]. by rewrite IH, length_insert. Qed.

Lemma wp_store_sectors data l b (Q : () → mach → Prop) m :
  m_mem m !! data = Some b → Forall (λ p, p.1.1 = data ∧ (p.1.2 < length (b_data b))%nat) l →
  Q tt (set_mem (<[data := Buf (put_sectors l (b_data b)) (b_oob b)]> (m_mem m)) m) →
  wp (for_each l (λ p, store_sector p.1 p.2)) Q m.
Proof using Type.
  revert b m. induction l as [|[[d i] sec] l IH]; intros b m Hb Hf HQ; cbn [for_each].
  - wp_steps. simpl in HQ. rewrite insert_id in HQ by by destruct b. by destruct m.
  - apply Forall_cons in Hf as [[Hd Hi] Hf]. simpl in Hd, Hi. subst d.
    unfold store_sector. wp_steps. eapply wp_load; [done|]. wp_steps; [by apply Nat.ltb_lt|].
    eapply wp_store; [done|]. eapply (IH (Buf (<[i:=sec]> (b_data b)) (b_oob b))).
    + simpl. apply lookup_insert_eq.
    + simpl. rewrite length_insert. done.
    + simpl. by rewrite insert_insert_eq.
Qed.

(** [b'] is [b] with the sectors of [bitmap] taken from [src]. *)
Definition merged (bitmap : Z) (src b b' : list sector) : Prop :=
  length b' = 4%nat ∧
  ∀ i, (i < 4)%nat → b' !! i = if Z.testbit bitmap (Z.of_nat i) then src !! i else b !! i.

(** The buffer has been completed with the sectors of the old page. *)
Definition completed (nd : flash_address → option (list sector)) (ppa bitmap : Z) (b b' : buf) : Prop :=
  ∃ src, merged bitmap src (b_data b) (b_data b') ∧
    ∀ p i, nd (ppa_to_address ppa) = Some p → (i < 4)%nat → Z.testbit bitmap (Z.of_nat i) = true →
      src !! i = p !! i.

Definition copy_iov (bitmap data : Z) : list (option (Z * nat)) :=
  (λ i, if Z.testbit bitmap (Z.of_nat i) then Some (data, i) else None) <$> seq 0 (Z.to_nat SECTORS_PER_FLASH_PG).

(** The descriptors of a copy, for any set [f] of sectors. *)
Definition copy_descs (f : nat → bool) (data : Z) (src : list sector) : list ((Z * nat) * sector) :=
  omap (λ p, (λ dst, (dst, p.1)) <$> p.2)
    (zip src ((λ i, if f i then Some (data, i) else None) <$> seq 0 (Z.to_nat SECTORS_PER_FLASH_PG))).
Lemma copy_descs_ok f data s0 s1 s2 s3 d0 d1 d2 d3 :
  let descs := copy_descs f data [s0;s1;s2;s3] in
  Forall (λ p, p.1.1 = data ∧ (p.1.2 < 4)%nat) descs ∧
  ∀ i, (i < 4)%nat → put_sectors descs [d0;d1;d2;d3] !! i =
    (if f i then [s0;s1;s2;s3] !! i else [d0;d1;d2;d3] !! i).
Proof using Type.
  unfold copy_descs. change (seq 0 (Z.to_nat SECTORS_PER_FLASH_PG)) with [0;1;2;3]%nat.
  destruct (f 0%nat) eqn:E0, (f 1%nat) eqn:E1, (f 2%nat) eqn:E2, (f 3%nat) eqn:E3;
    simpl; rewrite E0, E1, E2, E3; simpl; (split; [repeat constructor; simpl; lia|]);
    intros [|[|[|[|i]]]] Hi; rewrite ?E0, ?E1, ?E2, ?E3; done || lia.
Qed.

Lemma zip_fst_snd {A B} (l : list (A * B)) : zip l.*1 l.*2 = l.
Proof using Type. induction l as [|[a b] l IH]; [done|]. cbn. f_equal. exact IH. Qed.

(** Copying a range of sectors is copying a set. *)
Lemma copy_range (f : nat → bool) (data : Z) (s0 s1 s2 s3 : sector) (from len : nat) : (from + len ≤ 4)%nat →
  (omap (λ p, (λ dst, (dst, p.1)) <$> p.2) : list (sector * option (Z * nat)) → list ((Z * nat) * sector))
    (zip (drop from [s0;s1;s2;s3]) ((λ i, if f i then Some (data, i) else None) <$> seq from len)) =
  copy_descs (λ i, f i && (from <=? i)%nat && (i <? from + len)%nat) data [s0;s1;s2;s3].
Proof using Type.
  intros Hle. unfold copy_descs. change (seq 0 (Z.to_nat SECTORS_PER_FLASH_PG)) with [0;1;2;3]%nat.
  destruct (f 0%nat) eqn:E0, (f 1%nat) eqn:E1, (f 2%nat) eqn:E2, (f 3%nat) eqn:E3;
    destruct from as [|[|[|[|[|from]]]]]; try (exfalso; lia); destruct len as [|[|[|[|[|len]]]]]; try (exfalso; lia);
    simpl; rewrite ?E0, ?E1, ?E2, ?E3; done.
Qed.
Definition merged_range (f : nat → bool) (from len : nat) (src b b' : list sector) : Prop :=
  length b' = 4%nat ∧
  ∀ i, (i < 4)%nat → b' !! i = if f i && (from <=? i)%nat && (i <? from + len)%nat then src !! i else b !! i.

Lemma wp_zdma_range f from len data buf b src (Q : rc → mach → Prop) m :
  m_mem m !! data = Some b → m_mem m !! buf = Some src →
  length (b_data b) = 4%nat → length (b_data src) = 4%nat → (from + len ≤ 4)%nat →
  (∀ r b' d, length (b_data b') = 4%nat → (∀ a, nand d a = nand (m_dev m) a) →
     (r = R0 → merged_range f from len (b_data src) (b_data b) (b_data b')) → (DmaLive → r = R0) →
     Q r (set_mem (<[data := b']> (m_mem m)) (set_dev d m))) →
  wp (zdma_iter_copy_to ((λ i, if f i then Some (data, i) else None) <$> seq from len) buf from) Q m.
Proof using All.
  intros Hb Hs Hl Hls Hle HQ. unfold zdma_iter_copy_to. wp_steps. eapply wp_load; [done|].
  destruct src as [[|s0 [|s1 [|s2 [|s3 [|]]]]] so]; try done.
  destruct b as [[|d0 [|d1 [|d2 [|d3 [|]]]]] bo]; try done. cbn [b_data] in *.
  set (descs := omap _ _). cbv beta.
  set (g := λ i, f i && (from <=? i)%nat && (i <? from + len)%nat).
  destruct (copy_descs_ok g data s0 s1 s2 s3 d0 d1 d2 d3) as [Hf Hm0].
  assert (copy_descs g data [s0;s1;s2;s3] = descs) as Eg by (symmetry; apply (copy_range f data); done).
  rewrite Eg in Hf, Hm0. clear Eg.
  assert (merged_range f from len [s0;s1;s2;s3] [d0;d1;d2;d3] (put_sectors (zip (fst <$> descs) (snd <$> descs)) [d0;d1;d2;d3])) as Hm.
  { split; [by rewrite length_put_sectors|]. rewrite zip_fst_snd. exact Hm0. }
  clear Hm0. clearbody descs.
  destruct descs as [|de descs'] eqn:Ed.
  - wp_steps. simpl in Hm. specialize (HQ R0 (Buf [d0;d1;d2;d3] bo) (m_dev m) eq_refl ltac:(done) (λ _, Hm) (λ _, eq_refl)).
    simpl in HQ. rewrite insert_id in HQ by done. by destruct m.
  - rewrite <-Ed in *. clear Ed de descs'. wp_steps.
    destruct (dev_dma (descs.*2) (m_dev m)) as [[e out] d] eqn:E. wp_steps.
    pose proof (dma_len _ _ _ _ _ E) as Hlen. rewrite length_fmap in Hlen.
    apply (wp_store_sectors data _ (Buf [d0;d1;d2;d3] bo)); [done| |].
    { simpl. clear -Hf Hlen. revert out Hlen. induction Hf as [|p descs Hp _ IH]; intros [|o out] Hlen; simpl in *;
        try done; constructor; [done|]. apply IH. lia. }
    wp_steps. simpl b_data. simpl b_oob.
    refine (HQ _ (Buf (put_sectors (zip descs.*1 out) [d0;d1;d2;d3]) bo) d _ _ _ _); simpl.
    + by rewrite length_put_sectors.
    + intros a. by rewrite (dma_frame _ _ _ _ _ E).
    + destruct e; [done|]. intros _. by rewrite (dma_copy _ _ _ _ E).
    + intros HD. by rewrite (HD _ _ _ _ _ E).
Qed.
Lemma wp_zdma_copy bitmap data buf b src (Q : rc → mach → Prop) m :
  m_mem m !! data = Some b → m_mem m !! buf = Some src →
  length (b_data b) = 4%nat → length (b_data src) = 4%nat →
  (∀ r b' d, length (b_data b') = 4%nat → (∀ a, nand d a = nand (m_dev m) a) →
     (r = R0 → merged bitmap (b_data src) (b_data b) (b_data b')) → (DmaLive → r = R0) →
     Q r (set_mem (<[data := b']> (m_mem m)) (set_dev d m))) →
  wp (zdma_iter_copy_to (copy_iov bitmap data) buf 0) Q m.
Proof using All.
  intros Hb Hs Hl Hls HQ. apply (wp_zdma_range (λ i, Z.testbit bitmap (Z.of_nat i)) 0 4 data buf b src); try done.
  intros r b' d Hl' Hn Hm Hlive. apply HQ; [done|done| |done]. intros Hr. destruct (Hm Hr) as [_ Hi]. split; [done|].
  intros i Hi4. rewrite (Hi i Hi4). rewrite (proj2 (Nat.ltb_lt i (0 + 4))) by done. by rewrite !andb_true_r.
Qed.

(** * Read-modify-write *)
(** Only one buffer changes. *)
Record mach_buf (data : Z) (b' : buf) (m m' : mach) : Prop := {
  mb_nand : ∀ a, nand (m_dev m') a = nand (m_dev m) a;
  mb_mem : m_mem m' = <[data := b']> (m_mem m);
  mb_fs : m_fs m' = m_fs m;
  mb_next : m_next m ≤ m_next m';
}.

Lemma ctzl_sector bitmap : 0 ≤ bitmap < 16 → bitmap ≠ 0 →
  0 ≤ ctzl bitmap < 4 ∧ ∀ i, 0 ≤ i → Z.testbit bitmap i = true → ctzl bitmap ≤ i.
Proof using Type.
  intros Hb Hn. destruct (ctzl_spec bitmap ltac:(lia)) as (H0 & Hc & Hlow). split.
  - split; [done|]. destruct (Z.lt_ge_cases (ctzl bitmap) 4) as [?|Hge]; [done|].
    rewrite Z.bits_above_log2 in Hc; [done|lia|].
    apply Z.log2_lt_pow2; [lia|]. apply Z.lt_le_trans with (2 ^ 4); [lia|]. apply Z.pow_le_mono_r; lia.
  - intros i Hi Hbit. destruct (Z.le_gt_cases (ctzl bitmap) i) as [?|Hlt]; [done|].
    rewrite Hlow in Hbit by lia. done.
Qed.

Definition widened (bitmap : Z) (t : flash_transaction) : flash_transaction :=
  let o := Z.min (t_offset t) (Z.shiftl (ctzl bitmap) SECTOR_SHIFT) in
  set_t_range (Z.lor (t_bitmap t) bitmap) o (FLASH_PG_SIZE - o) t.

Lemma wp_update_read t e b (Q : rc * flash_transaction → dom_st → Prop) s :
  let m := bm_mach (ds_bm s) in
  let bitmap := Z.ldiff (xe_bitmap e) (t_bitmap t) in
  mem_wf m → xe_ppa e ≠ NO_PPA → 0 ≤ bitmap < 16 → bitmap ≠ 0 →
  t_data t ≠ 0 → m_mem m !! t_data t = Some b →
  (∀ r t' m' b', mach_buf (t_data t) b' m m' → length (b_data b') = 4%nat →
     match r with
     | Err _ => t' = t ∧ ¬ (DmaLive ∧ is_Some (nandv s (ppa_to_address (xe_ppa e))))
     | R0 => t' = widened bitmap t ∧
         completed (nandv s) (xe_ppa e) bitmap b b'
     end → Q (r, t') (with_mach m' s)) →
  wp (update_read t e) Q s.
Proof using All.
  intros m bitmap Hm Hne Hbm Hbn Hd0 Hb HQ. unfold update_read. fold bitmap.
  pose proof (mw_mem _ Hm _ _ Hb) as [Hdn Hbl].
  destruct (ctzl_sector bitmap Hbm Hbn) as [Hc Hcmin].
  assert (Z.shiftl (ctzl bitmap) SECTOR_SHIFT = ctzl bitmap * SECTOR_SIZE) as Eoff
    by (rewrite Z.shiftl_mul_pow2 by done; done).
  wp_steps; [by rewrite (proj2 (Z.eqb_neq _ _))|by rewrite (proj2 (Z.eqb_neq _ _))|].
  apply wp_alloc_live; [done|]. amu_cbn. fold m. intros Hn0 Hnone.
  rewrite (proj2 (Z.eqb_neq (m_next m) 0)) by lia.
  wp_step. wp_step; [apply Z.ltb_lt; rewrite Eoff; unfold SECTOR_SIZE, FLASH_PG_SIZE; lia|].
  set (txn := Txn _ _ _ _ _ _ _ _ _ _ _ _ _ _ _ _ _). fold m. set (m1 := Mach _ _ _ _ _ _).
  apply wp_bind, wp_lift. amu_cbn. fold m1.
  assert (0 < t_length txn) as Hlt by (simpl; rewrite Eoff; unfold SECTOR_SIZE, FLASH_PG_SIZE; lia).
  assert (m_mem m1 !! t_data txn = Some (junk (m_next m))) as Hjunk by apply lookup_insert_eq.
  eapply (wp_mono _ (λ a m2, (is_Some (nandv s (ppa_to_address (xe_ppa e))) → a.1 = R0) ∧
    ∃ b', page_op txn (junk (m_next m)) b' m1 a.1 a.2 m2)).
  { destruct (decide (is_Some (nandv s (ppa_to_address (xe_ppa e))))) as [Hsm|Hsm].
    - eapply wp_mono; [apply wp_and; [apply (wp_amu_submit_read_live txn (junk (m_next m)) m1)|
        apply (wp_amu_submit_read txn (junk (m_next m)) m1)]|]; try done; try (simpl; lia); [apply junk_len|].
      intros [r txn'] m2 [-> ?]. done.
    - eapply wp_mono; [apply (wp_amu_submit_read txn (junk (m_next m)) m1)|]; try done; try (simpl; lia); [apply junk_len|].
      intros [r txn'] m2 ?. done. }
  intros [r txn'] m2 (Hlive & bs & [_ Hfs Hnx Hmem Hlen Hoth Hrd _]). amu_cbn.
  assert (m_mem m2 = <[m_next m := bs]> (m_mem m)) as Hmem2 by (rewrite Hmem; simpl; apply insert_insert_eq).
  assert (∀ a, nand (m_dev m2) a = nand (m_dev m) a) as Hnd by (intros; by apply Hoth).
  assert (m_mem m2 !! t_data t = Some b) as Hb2 by (rewrite Hmem2, lookup_insert_ne by lia; done).
  destruct r as [|er].
  - wp_steps. amu_cbn. eapply (wp_zdma_copy bitmap (t_data t) (m_next m) b bs);
      [done|by rewrite Hmem2, lookup_insert_eq|done|done|].
    intros r b' d Hbl' Hnd' Hmg Hlv. wp_steps. amu_cbn.
    apply wp_free_mem; [simpl; rewrite lookup_insert_ne, Hmem2, lookup_insert_eq by lia; eauto|]. wp_steps. amu_cbn.
    apply (HQ r _ _ b').
    + split; amu_cbn; simpl.
      * intros a. by rewrite Hnd', Hnd.
      * rewrite Hmem2, insert_insert_ne, delete_insert_eq by lia.
        rewrite delete_id; [done|]. rewrite lookup_insert_ne by lia. done.
      * by rewrite Hfs.
      * rewrite Hnx. simpl. lia.
    + done.
    + destruct r; [|split; [done|by intros [HD%Hlv _]]]. split; [done|]. exists (b_data bs). split; [by apply Hmg|]. intros p i Hp Hi Ebit.
      assert (agree (t_offset txn) (t_length txn) (b_data bs) p) as Hag.
      { apply Hrd; [done|done|]. exact Hp. }
      specialize (Hag (Z.of_nat i) ltac:(lia)). rewrite Nat2Z.id in Hag. apply Hag.
      apply Hcmin in Ebit; [|lia]. unfold in_range. simpl. rewrite Eoff. unfold SECTOR_SIZE, FLASH_PG_SIZE in *. lia.
  - wp_steps. amu_cbn. apply wp_free_mem; [rewrite Hmem2, lookup_insert_eq; eauto|]. wp_steps. amu_cbn.
    apply (HQ _ _ _ b); [|done|split; [done|by intros [_ Hl%Hlive]]]. split; simpl; [done| |done|rewrite Hnx; simpl; lia].
    rewrite Hmem2, delete_insert_eq, delete_id, insert_id; done.
Qed.

(** ** Changing the layers below a domain *)
Lemma dom_inv_bm P pin s b' : dom_inv P pin s → bm_inv b' → bm_mach b' = bm_mach (ds_bm s) →
  (∀ a, page_fresh b' a → page_fresh (ds_bm s) a) → dom_inv P pin (DomSt _ b' (ds_dom s)).
Proof using Type.
  intros [Hb Hm Hi Hd] Hb' Em Hf. split; unfold nandv; amu_cbn; rewrite ?Em; try done.
  eapply dom_wf_frame; [exact Hd|done|]. intros a Ha. apply Hf in Ha. split; [done|].
  by apply (dw_fresh _ _ _ _ _ Hd).
Qed.
Lemma dom_inv_buf P pin s data b' m' : dom_inv P pin s → is_Some (m_mem (bm_mach (ds_bm s)) !! data) →
  length (b_data b') = 4%nat → mach_buf data b' (bm_mach (ds_bm s)) m' → dom_inv P pin (with_mach m' s).
Proof using Type.
  intros [Hb [Hm1 Hm2] Hi Hd] [b Hdata] Hl [Hn Hme Hf Hnx]. split; unfold nandv; amu_cbn.
  - by eapply bm_inv_planes; [|exact Hb].
  - split; simpl; [lia|]. rewrite Hme. intros id x. destruct (decide (id = data)) as [->|Hne].
    + rewrite lookup_insert_eq. intros [= <-]. split; [|done]. apply Hm2 in Hdata. lia.
    + rewrite lookup_insert_ne by done. intros [? ?]%Hm2. split; [lia|done].
  - intros id Hid. apply Hi in Hid. simpl. lia.
  - eapply dom_wf_frame; [exact Hd|intros; apply Hn|]. intros a Ha.
    rewrite (page_fresh_planes (ds_bm s)) in Ha by done. split; [done|]. rewrite Hn.
    by apply (dw_fresh _ _ _ _ _ Hd).
Qed.

(** * Allocating the page of a write *)
(** The sectors of the transaction lie in its byte range. *)
Definition covers (t : flash_transaction) : Prop :=
  0 < t_length t ∧ ∀ i, 0 ≤ i < 4 → Z.testbit (t_bitmap t) i = true → in_range (t_offset t) (t_length t) i.
Record wtxn_ok (m : mach) (t : flash_transaction) (b : buf) : Prop := {
  wt_data : t_data t ≠ 0;
  wt_mem : m_mem m !! t_data t = Some b;
  wt_bits : 0 ≤ t_bitmap t < 16;
  wt_covers : covers t;
}.

Lemma bits16 x : 0 ≤ x → (∀ i, 4 ≤ i → Z.testbit x i = false) → x < 16.
Proof using Type.
  intros Hx Hb. destruct (Z.lt_ge_cases x 16) as [?|Hge]; [done|].
  pose proof (Z.bit_log2 x ltac:(lia)) as Hl. rewrite Hb in Hl; [done|].
  change 4 with (Z.log2 16). by apply Z.log2_le_mono.
Qed.
Lemma testbit16 x i : 0 ≤ x < 16 → 4 ≤ i → Z.testbit x i = false.
Proof using Type.
  intros Hx Hi. destruct (decide (x = 0)) as [->|]; [apply Z.bits_0|].
  apply Z.bits_above_log2; [lia|]. apply Z.lt_le_trans with 4; [|done].
  apply Z.log2_lt_pow2; lia.
Qed.
Lemma lor16 a b : 0 ≤ a < 16 → 0 ≤ b < 16 → 0 ≤ Z.lor a b < 16.
Proof using Type.
  intros Ha Hb. assert (0 ≤ Z.lor a b) by (apply Z.lor_nonneg; lia). split; [done|].
  apply bits16; [done|]. intros i Hi. by rewrite Z.lor_spec, !testbit16.
Qed.
Lemma ldiff16 a b : 0 ≤ a < 16 → 0 ≤ b → 0 ≤ Z.ldiff a b < 16.
Proof using Type.
  intros Ha Hb. assert (0 ≤ Z.ldiff a b) by (apply Z.ldiff_nonneg; lia). split; [done|].
  apply bits16; [done|]. intros i Hi. by rewrite Z.ldiff_spec, testbit16.
Qed.
Lemma covers_widened bitmap t : 0 ≤ bitmap < 16 → bitmap ≠ 0 → 0 ≤ t_bitmap t →
  covers t → covers (widened bitmap t).
Proof using Type.
  intros Hb Hn Htb [Hl Hc]. destruct (ctzl_sector bitmap Hb Hn) as [Hr Hmin].
  unfold covers, widened. simpl. rewrite Z.shiftl_mul_pow2 by done.
  change (2 ^ SECTOR_SHIFT) with SECTOR_SIZE.
  split; [unfold SECTOR_SIZE, FLASH_PG_SIZE; lia|]. intros i Hi. rewrite Z.lor_spec, orb_true_iff.
  unfold in_range, SECTOR_SIZE, FLASH_PG_SIZE in *. intros [Hbit|Hbit].
  - apply Hc in Hbit; lia.
  - apply Hmin in Hbit; lia.
Qed.

(** Whether the old page has sectors that the transaction does not write. *)
Definition rmw (e : xlate_entry) (t : flash_transaction) : bool :=
  negb (xe_ppa e =? NO_PPA) && negb (Z.land (xe_bitmap e) (t_bitmap t) =? xe_bitmap e).
Definition missing (e : xlate_entry) (t : flash_transaction) : Z := Z.ldiff (xe_bitmap e) (t_bitmap t).
Definition rmw_txn (e : xlate_entry) (t : flash_transaction) : flash_transaction :=
  if rmw e t then widened (missing e t) t else t.

Lemma rmw_missing e t : rmw e t = true → missing e t ≠ 0.
Proof using Type.
  unfold rmw, missing. intros [_ H2]%andb_true_iff E. apply negb_true_iff, Z.eqb_neq in H2. apply H2.
  apply Z.bits_inj'. intros i Hi. rewrite Z.land_spec.
  assert (Z.testbit (Z.ldiff (xe_bitmap e) (t_bitmap t)) i = false) as Hb by by rewrite E, Z.bits_0.
  rewrite Z.ldiff_spec in Hb. destruct (Z.testbit (xe_bitmap e) i), (Z.testbit (t_bitmap t) i); simpl in *; congruence.
Qed.
Lemma rmw_txn_ok e t : 0 ≤ xe_bitmap e < 16 → 0 ≤ t_bitmap t < 16 → covers t →
  covers (rmw_txn e t) ∧ 0 ≤ t_bitmap (rmw_txn e t) < 16.
Proof using Type.
  intros He Ht Hc. unfold rmw_txn. destruct (rmw e t) eqn:Er; [|done].
  pose proof (rmw_missing _ _ Er). pose proof (ldiff16 _ _ He (proj1 Ht)).
  split; [apply covers_widened; done || lia|]. simpl. by apply lor16.
Qed.

(** Everything but the map and one buffer. *)
Record dom_frame (data : Z) (b' : buf) (s s' : dom_st) : Prop := {
  df_mach : mach_buf data b' (bm_mach (ds_bm s)) (bm_mach (ds_bm s'));
  df_consts : same_consts (ds_dom s) (ds_dom s');
  df_gtd : d_gtd (ds_dom s') = d_gtd (ds_dom s);
  df_size : pc_size (d_pcache (ds_dom s')) ≤ pc_size (d_pcache (ds_dom s)) + 1;
  df_ready : ∀ n, bm_ready (S n) (ds_bm s) → bm_ready n (ds_bm s');
}.
Definition amap_of (s : dom_st) : Z → xlate_entry := amap (nandv s) (ds_dom s).

(** The page of a mapped logical page has been programmed. *)
Definition programmed (s : dom_st) (l : Z) : Prop :=
  xe_ppa (amap_of s l) ≠ NO_PPA → is_Some (nandv s (ppa_to_address (xe_ppa (amap_of s l)))).

(** The effect of [alloc_page_for_write]: on success the logical page is mapped
    to a flash page that was free, and the buffer has been completed with the
    sectors of the old page; on an error nothing has changed. *)
Inductive alloc_post (P : flash_address → Prop) (t : flash_transaction) (b : buf) (s : dom_st) :
    rc → flash_transaction → dom_st → Prop :=
  | alloc_ok_post a b' s' (e := amap_of s (t_lpa t)) (t' := set_t_ppa (address_to_ppa a) (set_t_addr a (rmw_txn e t))) :
      dom_inv P None s' → dom_frame (t_data t) b' s s' →
      page_fresh (ds_bm s) a → addr_ok a →
      (∀ a', page_fresh (ds_bm s') a' ↔ page_fresh (ds_bm s) a' ∧ a' ≠ a) →
      (if rmw e t then completed (nandv s) (xe_ppa e) (missing e t) b b' else b' = b) →
      (∀ l, owner_ok (ds_dom s) (OData l) → amap_of s' l =
         if decide (l = t_lpa t) then Xe (t_ppa t') (u32 (Z.lor (xe_bitmap e) (t_bitmap t'))) else amap_of s l) →
      alloc_post P t b s R0 t' s'
  | alloc_err_post er b' s' :
      dom_inv P None s' → dom_frame (t_data t) b' s s' →
      (∀ a', page_fresh (ds_bm s') a' ↔ page_fresh (ds_bm s) a') →
      same_map (nandv s) (nandv s') (ds_dom s) (ds_dom s') →
      ¬ (DmaLive ∧ programmed s (t_lpa t)) →
      alloc_post P t b s (Err er) t s'.

Lemma alloc_post_R0 P t b s t' s' : alloc_post P t b s R0 t' s' →
  let e := amap_of s (t_lpa t) in
  ∃ a b', t' = set_t_ppa (address_to_ppa a) (set_t_addr a (rmw_txn e t)) ∧
    dom_inv P None s' ∧ dom_frame (t_data t) b' s s' ∧ page_fresh (ds_bm s) a ∧ addr_ok a ∧
    (∀ a', page_fresh (ds_bm s') a' ↔ page_fresh (ds_bm s) a' ∧ a' ≠ a) ∧
    (if rmw e t then completed (nandv s) (xe_ppa e) (missing e t) b b' else b' = b) ∧
    (∀ l, owner_ok (ds_dom s) (OData l) → amap_of s' l =
       if decide (l = t_lpa t) then Xe (t_ppa t') (u32 (Z.lor (xe_bitmap e) (t_bitmap t'))) else amap_of s l).
Proof using Type. inversion 1; subst. eexists _, _. split; [done|]. do 6 (split; [done|]). done. Qed.

Lemma quiet_buf data m m1 m2 b' : mach_quiet m m1 → mach_buf data b' m1 m2 → mach_buf data b' m m2.
Proof using Type. intros [N1 E1 F1 X1] [N2 E2 F2 X2]. split; [intros; by rewrite N2|congruence|congruence|lia]. Qed.
Lemma mach_buf_same data b m m' : mach_quiet m m' → m_mem m !! data = Some b → mach_buf data b m m'.
Proof using Type. intros [N E F X] Hb. split; [done| |done|done]. by rewrite E, insert_id. Qed.

(** The new page and the new entry, with the translation page held. *)
Lemma wp_alloc_map P id x lpa t gc (Q : rc * flash_transaction → dom_st → Prop) s :
  dom_inv P (Some id) s → pages (ds_dom s) !! id = Some x → xp_mvpn x = lpa / ENTS →
  owner_ok (ds_dom s) (OData lpa) → bm_ready 1 (ds_bm s) → plane_ok (t_addr t) → 0 ≤ t_bitmap t < 16 →
  let e := amap_of s lpa in
  (∀ a b', let t' := set_t_ppa (address_to_ppa a) (set_t_addr a t) in
     let s' := DomSt _ b' (put_page id (set_entry lpa (Xe (t_ppa t') (u32 (Z.lor (xe_bitmap e) (t_bitmap t')))) x) (ds_dom s)) in
     dom_inv P (Some id) s' → bm_mach b' = bm_mach (ds_bm s) → page_fresh (ds_bm s) a → addr_ok a →
     (∀ a', page_fresh b' a' ↔ page_fresh (ds_bm s) a' ∧ a' ≠ a) →
     (∀ n, bm_ready (S n) (ds_bm s) → bm_ready n b') → Q (R0, t') s') →
  wp (addr ← lift (bm_alloc_page (t_nsid t) (t_addr t) gc false);
      let txn := set_t_ppa (address_to_ppa addr) (set_t_addr addr t) in
      xpc_update_mapping id (lpa mod ENTS) (t_ppa txn) (t_bitmap txn) ≫= λ _, mret (R0, txn)) Q s.
Proof using All.
  intros Hs Hx Hv Ho Hr Hp Hb e HQ. pose proof Hs as [Hbm Hm Hi Hd].
  destruct (lpa_slot _ _ Ho) as [Hvr Hsr].
  destruct (dw_page _ _ _ _ _ Hd id x Hx) as (_ & Hl & _).
  assert (xp_entries x !! Z.to_nat (lpa mod ENTS) = Some e) as He.
  { unfold e, amap_of. rewrite (amap_held _ _ (Some id) id x lpa) by (done || apply (dw_pc _ _ _ _ _ Hd)).
    destruct (lookup_lt_is_Some_2 (xp_entries x) (Z.to_nat (lpa mod ENTS))) as [z ->]; [lia|done]. }
  destruct (Hbm _ Hp) as (pl & Hpl & _). destruct (Hr _ pl Hp Hpl) as [Hwf _].
  destruct (Hwf gc false) as [w Hw].
  apply wp_bind, wp_lift. amu_cbn. eapply wp_mono; [by eapply wp_bm_alloc|].
  intros a b' (Hb' & Em & _ & Ha & _ & Hfr & Hfr' & Hready). cbv beta. amu_cbn.
  pose proof (address_to_ppa_bound a Ha) as Hppa.
  assert (ppa_to_address (address_to_ppa a) = a) as Eaa by by apply ppa_address_ppa.
  unfold xpc_update_mapping. wp_step. wp_step. eapply wp_page_at; [exact Hx|]. wp_step. apply wp_deref.
  exists e. split; [done|]. eapply wp_upd_page; [exact Hx|]. wp_step.
  apply HQ; [|done..]. unfold e.
  assert (0 ≤ xe_bitmap (amap_of s lpa) < 16) as Heb by by apply (dw_bits _ _ _ _ _ Hd).
  pose proof (lor16 _ _ Heb Hb) as Hlor.
  split; unfold nandv; amu_cbn; rewrite ?Em; try done.
  - intros j. rewrite pages_put. rewrite put_is_Some by eauto. apply Hi.
  - eapply dom_wf_set_entry; [exact Hd|done|exact Hx|done|done| | |].
    + simpl. rewrite u32_small; [done|]. lia.
    + simpl. by rewrite Eaa.
    + intros a'. simpl. rewrite Eaa. apply Hfr'.
Qed.

(** The state between the look-up of the translation page and its release. *)
Record holding (P : flash_address → Prop) (id v data : Z) (b' : buf) (s s1 : dom_st) (x : xlate_page) : Prop := {
  ho_inv : dom_inv P (Some id) s1;
  ho_page : pages (ds_dom s1) !! id = Some x;
  ho_mvpn : xp_mvpn x = v;
  ho_mach : mach_buf data b' (bm_mach (ds_bm s)) (bm_mach (ds_bm s1));
  ho_consts : same_consts (ds_dom s) (ds_dom s1);
  ho_gtd : d_gtd (ds_dom s1) = d_gtd (ds_dom s);
  ho_size : pc_size (d_pcache (ds_dom s1)) ≤ pc_size (d_pcache (ds_dom s)) + 1;
  ho_map : same_map (nandv s) (nandv s1) (ds_dom s) (ds_dom s1);
  ho_fresh : ∀ a, page_fresh (ds_bm s1) a ↔ page_fresh (ds_bm s) a;
  ho_ready : ∀ n, bm_ready n (ds_bm s) → bm_ready n (ds_bm s1);
}.

Lemma holding_quiet P id v data b s s1 x : quiet s s1 → m_mem (bm_mach (ds_bm s)) !! data = Some b →
  dom_inv P (Some id) s1 → pages (ds_dom s1) !! id = Some x → xp_mvpn x = v →
  pc_size (d_pcache (ds_dom s1)) ≤ pc_size (d_pcache (ds_dom s)) + 1 → holding P id v data b s s1 x.
Proof using Type.
  intros [Q1 Q2 Q3 Q4 Q5] Hb Hs1 Hx Hv Hz. split; try done.
  - by apply mach_buf_same.
  - intros a. by apply page_fresh_planes.
  - intros n. by apply bm_ready_planes.
Qed.
Lemma holding_buf P id v data b b' s s1 x m' : holding P id v data b s s1 x → length (b_data b') = 4%nat →
  mach_buf data b' (bm_mach (ds_bm s1)) m' → holding P id v data b' s (with_mach m' s1) x.
Proof using Type.
  intros [H1 H2 H3 H4 H5 H6 H7 H8 H9 H10] Hl Hb. split; try done.
  - eapply dom_inv_buf; [exact H1| |exact Hl|exact Hb]. rewrite (mb_mem _ _ _ _ H4), lookup_insert_eq. eauto.
  - destruct H4 as [N1 E1 F1 X1], Hb as [N2 E2 F2 X2]. split; simpl.
    + intros a. by rewrite N2.
    + by rewrite E2, E1, insert_insert_eq.
    + congruence.
    + lia.
  - intros l Ho. rewrite <-H8 by done. unfold amap. f_equal. f_equal. unfold entries_at, nandv, words_at. simpl.
    destruct (cached _ _); [done|]. by rewrite (mb_nand _ _ _ _ Hb).
Qed.
Lemma holding_bm P id v data b s s1 x b1 : holding P id v data b s s1 x → bm_inv b1 →
  bm_mach b1 = bm_mach (ds_bm s1) → (∀ a, page_fresh b1 a ↔ page_fresh (ds_bm s1) a) →
  (∀ n, bm_ready n (ds_bm s1) → bm_ready n b1) → holding P id v data b s (DomSt _ b1 (ds_dom s1)) x.
Proof using Type.
  intros [H1 H2 H3 H4 H5 H6 H7 H8 H9 H10] Hb Em Hf Hr. split; unfold nandv; amu_cbn; rewrite ?Em; try done.
  - apply dom_inv_bm; [done..|]. intros a. apply Hf.
  - intros a. by rewrite Hf.
  - intros n Hn. by apply Hr, H10.
Qed.

(** Releasing the page after an error. *)
Lemma wp_give_up P id t b b' s s1 x er : holding P id (t_lpa t / ENTS) (t_data t) b' s s1 x →
  ¬ (DmaLive ∧ programmed s (t_lpa t)) →
  wp (mutex_unlock id ≫= λ _, xpc_unpin id ≫= λ _, mret (Err er, t))
    (λ '(r, t') s', alloc_post P t b s r t' s') s1.
Proof using Type.
  intros [H1 H2 H3 H4 H5 H6 H7 H8 H9 H10] Hnl. destruct (dom_inv_release P s1 id x H1 H2) as (Hp & Hs' & [Q1 Q2 Q3 Q4 Q5]).
  eapply wp_release; [done..|]. wp_steps. apply (alloc_err_post P t b s er b').
  - done.
  - split; try done. intros n Hn. apply H10. eapply bm_ready_le; [|exact Hn]. lia.
  - done.
  - intros l Ho. rewrite Q5, H8; [done|done|]. by apply (owner_ok_same _ _ _ H5).
  - done.
Qed.
(** Completing a write. *)
Lemma wp_complete P id t b b' s s1 x gc : holding P id (t_lpa t / ENTS) (t_data t) b' s s1 x →
  let e := amap_of s (t_lpa t) in
  owner_ok (ds_dom s) (OData (t_lpa t)) → bm_ready 1 (ds_bm s) → plane_ok (t_addr t) →
  0 ≤ t_bitmap (rmw_txn e t) < 16 →
  (if rmw e t then completed (nandv s) (xe_ppa e) (missing e t) b b' else b' = b) →
  wp ('(r, txn) ← (addr ← lift (bm_alloc_page (t_nsid (rmw_txn e t)) (t_addr (rmw_txn e t)) gc false);
      let txn := set_t_ppa (address_to_ppa addr) (set_t_addr addr (rmw_txn e t)) in
      xpc_update_mapping id (t_lpa t mod ENTS) (t_ppa txn) (t_bitmap txn) ≫= λ _, mret (R0, txn));
      mutex_unlock id ≫= λ _, xpc_unpin id ≫= λ _, mret (r, txn))
    (λ '(r, t') s', alloc_post P t b s r t' s') s1.
Proof using All.
  intros Hh e Ho Hr Hpl Hbits Hmg. pose proof Hh as [H1 H2 H3 H4 H5 H6 H7 H8 H9 H10].
  assert (owner_ok (ds_dom s1) (OData (t_lpa t))) as Ho1 by by apply (owner_ok_same _ _ _ H5).
  assert (amap_of s1 (t_lpa t) = e) as He by by apply H8.
  apply wp_bind. eapply (wp_alloc_map P id x (t_lpa t)); [done..|by apply H10| |done|].
  { unfold rmw_txn. by destruct (rmw e t). }
  rewrite He. intros a b2 t' s2 Hs2 Em Hfr Ha Hfr' Hready. cbv beta iota.
  assert (pages (ds_dom s2) !! id = Some (set_entry (t_lpa t) (Xe (t_ppa t') (u32 (Z.lor (xe_bitmap e) (t_bitmap t')))) x)) as Hx2
    by (unfold s2; amu_cbn; rewrite pages_put; apply lookup_insert_eq).
  destruct (dom_inv_release P s2 id _ Hs2 Hx2) as (Hp & Hs' & [Q1 Q2 Q3 Q4 Q5]).
  eapply wp_release; [done..|]. wp_steps. apply (alloc_ok_post P t b s a b'); fold e t'; [done| |by apply H9|done| |done|].
  - split; try done.
    + simpl. rewrite Em. done.
    + intros n Hn. by apply Hready, H10.
  - intros a'. simpl. rewrite Hfr', H9. done.
  - intros l Hol. unfold amap_of. rewrite Q5.
    2: { apply (owner_ok_same (ds_dom s)); [|done]. by eapply same_consts_trans. }
    unfold s2, nandv. amu_cbn. rewrite Em.
    destruct (dw_page _ _ _ _ _ (di_dom _ _ _ H1) id x H2) as (_ & Hl & _).
    erewrite amap_set_entry; [|apply (dw_pc _ _ _ _ _ (di_dom _ _ _ H1))|done..].
    case_decide; [done|]. by apply H8.
Qed.

Lemma get_mvpn_eq P pin s lpa : dom_inv P pin s → owner_ok (ds_dom s) (OData lpa) →
  get_mvpn (ds_dom s) lpa = lpa / ENTS ∧ get_mvpn_slot (ds_dom s) lpa = lpa mod ENTS.
Proof using Type.
  intros Hs Ho. destruct (lpa_slot _ _ Ho). pose proof (di_dom _ _ _ Hs) as Hd.
  unfold get_mvpn, get_mvpn_slot. rewrite (dw_ents _ _ _ _ _ Hd).
  pose proof (dw_total _ _ _ _ _ Hd). rewrite !u32_small; [done| |lia].
  assert (ENTS < 2 ^ 32) by done. lia.
Qed.
Lemma entry_held P id s x lpa : dom_inv P (Some id) s → owner_ok (ds_dom s) (OData lpa) →
  pages (ds_dom s) !! id = Some x → xp_mvpn x = lpa / ENTS →
  xp_entries x !! Z.to_nat (lpa mod ENTS) = Some (amap_of s lpa).
Proof using Type.
  intros [_ _ _ Hd] Ho Hx Hv. destruct (lpa_slot _ _ Ho).
  destruct (dw_page _ _ _ _ _ Hd id x Hx) as (_ & Hl & _).
  unfold amap_of. rewrite (amap_held _ _ (Some id) id x lpa) by (done || apply (dw_pc _ _ _ _ _ Hd)).
  destruct (lookup_lt_is_Some_2 (xp_entries x) (Z.to_nat (lpa mod ENTS))) as [z ->]; [lia|done].
Qed.

Lemma wp_alloc_page_for_write P t b gc s :
  dom_inv P None s → owner_ok (ds_dom s) (OData (t_lpa t)) → room (t_lpa t / ENTS) (ds_dom s) →
  wtxn_ok (bm_mach (ds_bm s)) t b → plane_ok (t_addr t) → bm_ready 1 (ds_bm s) →
  wp (alloc_page_for_write t gc) (λ '(r, t') s', alloc_post P t b s r t' s') s.
Proof using All.
  intros Hs Ho Hroom [Hd0 Hb Hbits Hcov] Hpl Hr. unfold alloc_page_for_write, dom.
  destruct (get_mvpn_eq _ _ _ _ Hs Ho) as [Emv Esl]. destruct (lpa_slot _ _ Ho) as [Hv _].
  pose proof (di_dom _ _ _ Hs) as Hd.
  wp_steps. rewrite Emv, Esl. eapply wp_get_translation_page; [done..|]. intros id x s1 Hs1 Hq Hx Hxv Hz.
  pose proof (holding_quiet P id _ (t_data t) b s s1 x Hq Hb Hs1 Hx Hxv Hz) as Hh. clear Hq Hz.
  assert (owner_ok (ds_dom s1) (OData (t_lpa t))) as Ho1
    by (apply (owner_ok_same (ds_dom s)); [apply (ho_consts _ _ _ _ _ _ _ _ Hh)|done]).
  wp_step. eapply wp_page_at; [exact Hx|]. wp_step. apply wp_deref. eexists; split; [by eapply entry_held|].
  set (e := amap_of s (t_lpa t)). assert (amap_of s1 (t_lpa t) = e) as -> by by apply (ho_map _ _ _ _ _ _ _ _ Hh).
  assert (0 ≤ xe_bitmap e < 16) as Heb by by apply (dw_bits _ _ _ _ _ Hd).
  pose proof (rmw_txn_ok e t Heb Hbits Hcov) as [_ Hbits'].
  pose proof (λ b' s2 x gc, wp_complete P id t b b' s s2 x gc) as HC. cbv zeta in HC. fold e in HC.
  destruct (Z.eqb_spec (xe_ppa e) NO_PPA) as [En|En].
  { assert (rmw e t = false) as Er by (unfold rmw; by rewrite En).
    assert (rmw_txn e t = t) as Et by (unfold rmw_txn; by rewrite Er).
    rewrite Er, Et in HC. rewrite Et in Hbits'. wp_step. wp_step. by apply (HC b s1 x gc). }
  destruct (dw_ref _ _ _ _ _ Hd (OData (t_lpa t)) Ho En) as (Hppa & _). simpl in Hppa.
  change (xe_ppa (amap (nandv s) (ds_dom s) (t_lpa t))) with (xe_ppa e) in Hppa.
  assert (∀ b' s2 t2, t2 = rmw_txn e t → holding P id (t_lpa t / ENTS) (t_data t) b' s s2 x →
    (if rmw e t then completed (nandv s) (xe_ppa e) (missing e t) b b' else b' = b) →
    wp (lift (bm_invalidate_page (ppa_to_address (xe_ppa e))) ≫= λ _, mret (R0, t2))
     (λ a, wp (let '(r, txn) := a in
      '(r, txn) ←
        (match r with
         | Err _ => mret (r, txn)
         | R0 => addr ← lift (bm_alloc_page (t_nsid txn) (t_addr txn) gc false);
             let txn := set_t_ppa (address_to_ppa addr) (set_t_addr addr txn) in
             xpc_update_mapping id (t_lpa t mod ENTS) (t_ppa txn) (t_bitmap txn) ≫= λ _, mret (R0, txn)
         end);
      mutex_unlock id ≫= λ _, xpc_unpin id ≫= λ _, mret (r, txn))
       (λ '(r, t') s', alloc_post P t b s r t' s')) s2) as Htail.
  { intros b' s2 t2 -> Hh2 Hm2. wp_step. wp_step. amu_cbn. eapply wp_mono.
    - apply wp_bm_invalidate; [by apply ppa_to_address_ok|]. apply (di_bm _ _ _ (ho_inv _ _ _ _ _ _ _ _ Hh2)).
    - intros [] b2 (Hb2 & Em & Hfr & Hready). wp_step. cbv beta iota.
      apply (HC b' _ x gc); [|done..]. by eapply holding_bm. }
  destruct (Z.eqb_spec (Z.land (xe_bitmap e) (t_bitmap t)) (xe_bitmap e)) as [El|El].
  { assert (rmw e t = false) as Er by (unfold rmw; by rewrite El, Z.eqb_refl, andb_false_r).
    wp_step. wp_step. wp_step. apply (Htail b); [unfold rmw_txn; by rewrite Er|done|by rewrite Er]. }
  assert (rmw e t = true) as Er by (unfold rmw; by rewrite (proj2 (Z.eqb_neq _ _) En), (proj2 (Z.eqb_neq _ _) El)).
  pose proof (ho_mach _ _ _ _ _ _ _ _ Hh) as Hmb.
  wp_step. wp_step. eapply (wp_update_read t e b).
  - apply (di_mem _ _ _ Hs1).
  - done.
  - apply ldiff16; [done|lia].
  - by apply rmw_missing.
  - done.
  - by rewrite (mb_mem _ _ _ _ Hmb), lookup_insert_eq.
  - intros r t' m' b' Hm' Hl' Hres. pose proof (holding_buf _ _ _ _ _ _ _ _ _ _ Hh Hl' Hm') as Hh'.
    destruct r as [|er].
    + destruct Hres as [-> Hmg]. apply (Htail b'); [unfold rmw_txn; by rewrite Er|done|]. rewrite Er.
      destruct Hmg as (src & Hm1 & Hm2). exists src. split; [done|]. intros p i Hp. apply Hm2.
      rewrite <-Hp. apply (mb_nand _ _ _ _ Hmb).
    + destruct Hres as [-> Hnl]. wp_step. wp_step. wp_step. cbv beta iota. eapply wp_give_up; [done|].
      intros [HD Hpr]. apply Hnl. split; [done|]. fold e in Hpr. unfold nandv. rewrite (mb_nand _ _ _ _ Hmb). by apply Hpr.
Qed.
End write.
