(* ===== verification/AmuDispatch.v ===== *)
(** [amu_dispatch] on the requests the layers above issue: a list of writes to
    distinct logical pages, and reads.  What a namespace stores is described by
    [reads]; the theorems say how dispatching changes it. *)
From S2P Require Import Prelude Bitmap Avl Flash Machine Sim BlockManager BlockMaps Amu AmuFacts AmuSpec AmuWrite.

(** Sector [i] of logical page [l] holds [x]. *)
Definition reads (nd : nand_view) (d : am_domain) (l : Z) (i : nat) (x : sector) : Prop :=
  let e := amap nd d l in
  xe_ppa e ≠ NO_PPA ∧ Z.testbit (xe_bitmap e) (Z.of_nat i) = true ∧
  ∃ p, nd (ppa_to_address (xe_ppa e)) = Some p ∧ p !! i = Some x.

Section dispatch.
Context {PL : Platform} {PO : @PlatformOk PL} {EL : @EccLive PL} {AL : @AllocLive PL} {RL : @ReadLive PL}.

Definition buf_at (s : dom_st) (id : Z) : option buf := m_mem (bm_mach (ds_bm s)) !! id.

(** The parts of a transaction that its owner relies on afterwards. *)
Definition same_buf (t t' : flash_transaction) : Prop := t_data t' = t_data t ∧ t_opaque t' = t_opaque t.
(** A write between its translation and its execution: the new page is
    allocated and mapped but still erased, the buffer complete. *)
Record pending (s0 s : dom_st) (t t' : flash_transaction) : Prop := {
  pd_lpa : t_lpa t' = t_lpa t ∧ owner_ok (ds_dom s0) (OData (t_lpa t));
  pd_data : t_data t' = t_data t ∧ t_data t ≠ 0;
  pd_type : t_type t' = TXN_WRITE ∧ t_ppa_ready t' = true;
  pd_ppa : 0 ≤ t_ppa t' < TOTAL_PAGES ∧ t_addr t' = ppa_to_address (t_ppa t');
  pd_map : xe_ppa (amap_of s (t_lpa t)) = t_ppa t' ∧
    ∀ i, Z.testbit (t_bitmap t') i = true → Z.testbit (xe_bitmap (amap_of s (t_lpa t))) i = true;
  pd_erased : nandv s (t_addr t') = None;
  pd_covers : covers t';
  pd_new : page_fresh (ds_bm s0) (t_addr t');
  pd_buf : ∃ b b', buf_at s0 (t_data t) = Some b ∧ buf_at s (t_data t) = Some b' ∧
    ∀ i, (i < 4)%nat →
      (Z.testbit (t_bitmap t) (Z.of_nat i) = true →
         b_data b' !! i = b_data b !! i ∧ Z.testbit (t_bitmap t') (Z.of_nat i) = true) ∧
      (Z.testbit (t_bitmap t) (Z.of_nat i) = false → ∀ x, reads (nandv s0) (ds_dom s0) (t_lpa t) i x →
         b_data b' !! i = Some x ∧ Z.testbit (t_bitmap t') (Z.of_nat i) = true);
  pd_same : same_buf t t';
}.

(** A write as the data cache issues it. *)
Record write_req (s : dom_st) (t : flash_transaction) : Prop := {
  wq_type : t_type t = TXN_WRITE;
  wq_ready : t_ppa_ready t = false;
  wq_lpa : owner_ok (ds_dom s) (OData (t_lpa t));
  wq_txn : ∃ b, wtxn_ok (bm_mach (ds_bm s)) t b;
}.

Lemma wp_translate_write P t b s :
  dom_inv P None s → write_req s t → wtxn_ok (bm_mach (ds_bm s)) t b →
  room (t_lpa t / ENTS) (ds_dom s) → bm_ready 1 (ds_bm s) →
  wp (translate_in_domain t) (λ '(r, t') s', ∃ t1 t2, plane_ok (t_addr t1) ∧ t1 = set_t_addr (t_addr t1) t ∧
    alloc_post P t1 b s r t2 s' ∧ t' = if is_ok r then set_t_ready true t2 else t2) s.
Proof using All.
  intros Hs [Hty _ Ho _] Ht Hroom Hr. unfold translate_in_domain, dom. wp_steps.
  rewrite bool_decide_eq_false_2 by congruence. apply wp_bind, wp_deref.
  rewrite assign_plane_stripe. eexists; split; [done|].
  set (t1 := set_t_addr _ t).
  eapply wp_mono; [apply (wp_alloc_page_for_write P t1 b); try done|].
  { destruct Ht. by split. }
  { apply stripe_ok. }
  intros [r t2] s' Hp. destruct r; wp_step; exists t1, t2; (split; [apply stripe_ok|]); done.
Qed.

(** * How a namespace evolves

    Every operation of a namespace only takes pages that were free, writes only
    to such pages, and never frees any: what other namespaces refer to is out of
    its reach. *)
Record evolves (s0 s : dom_st) : Prop := {
  ev_consts : same_consts (ds_dom s0) (ds_dom s);
  ev_ref : ∀ o, owner_ok (ds_dom s0) o → ref (nandv s) (ds_dom s) o ≠ NO_PPA →
    ref (nandv s) (ds_dom s) o = ref (nandv s0) (ds_dom s0) o ∨
    page_fresh (ds_bm s0) (ppa_to_address (ref (nandv s) (ds_dom s) o));
  ev_fresh : ∀ a, page_fresh (ds_bm s) a → page_fresh (ds_bm s0) a;
  ev_nand : ∀ a, ¬ page_fresh (ds_bm s0) a → nandv s a = nandv s0 a;
  ev_fs : m_fs (bm_mach (ds_bm s)) = m_fs (bm_mach (ds_bm s0));
}.
Lemma evolves_refl s : evolves s s.
Proof using All. split; try done. by left. Qed.
Lemma evolves_trans s0 s1 s2 : evolves s0 s1 → evolves s1 s2 → evolves s0 s2.
Proof using All.
  intros [C1 R1 F1 N1 S1] [C2 R2 F2 N2 S2]. split.
  - by eapply same_consts_trans.
  - intros o Ho Hn. assert (owner_ok (ds_dom s1) o) as Ho1 by by apply (owner_ok_same _ _ _ C1).
    destruct (R2 o Ho1 Hn) as [E|?]; [|by right; apply F1]. rewrite E in *. by apply R1.
  - auto.
  - intros a Ha. rewrite N2; [by apply N1|]. intros Hf. by apply Ha, F1.
  - congruence.
Qed.
Lemma evolves_map s0 s : same_consts (ds_dom s0) (ds_dom s) → d_gtd (ds_dom s) = d_gtd (ds_dom s0) →
  (∀ l, owner_ok (ds_dom s0) (OData l) → xe_ppa (amap_of s l) = xe_ppa (amap_of s0 l) ∨
     page_fresh (ds_bm s0) (ppa_to_address (xe_ppa (amap_of s l)))) →
  (∀ a, page_fresh (ds_bm s) a → page_fresh (ds_bm s0) a) →
  (∀ a, nandv s a = nandv s0 a) → m_fs (bm_mach (ds_bm s)) = m_fs (bm_mach (ds_bm s0)) → evolves s0 s.
Proof using All.
  intros Hc Hg Hm Hf Hn Hfs. split; try done. intros [l|v] Ho _; cbn [ref].
  - by apply Hm.
  - left. unfold gtd_at. by rewrite Hg.
Qed.
(** A domain state that evolves keeps the invariant of any other domain. *)
Lemma evolves_other P P' s0 s d' : evolves s0 s → dom_wf (nandv s0) (page_fresh (ds_bm s0)) P None d' →
  dom_inv P' None s → (∀ a, P a → ¬ page_fresh (ds_bm s0) a → ¬ page_fresh (ds_bm s) a) →
  dom_wf (nandv s) (page_fresh (ds_bm s)) P None d' ∧ same_map (nandv s0) (nandv s) d' d'.
Proof using All.
  intros [C R F N S] Hd Hs _. eapply dom_wf_frame; [exact Hd| |].
  - intros v Hv Hn. apply N. by destruct (dw_ref _ _ _ _ _ Hd (OXlate v) Hv Hn) as (_ & ? & _).
  - intros a Ha. split; [by apply F|]. by apply (dw_fresh _ _ _ _ _ (di_dom _ _ _ Hs)).
Qed.

Lemma alloc_post_evolves P t b s r t' s' : dom_inv P None s → alloc_post P t b s r t' s' → evolves s s'.
Proof using All.
  intros Hs [a b' s1 e t1 Hs1 [Hm Hc Hg Hz Hr] Hfr Ha Hfr' Hmg Hmap|er b' s1 Hs1 [Hm Hc Hg Hz Hr] Hfr Hmap _].
  - apply evolves_map; [done..| | |apply Hm|apply (mb_fs _ _ _ _ Hm)].
    + intros l Ho. rewrite Hmap by done. case_decide; [right|by left]. simpl. by rewrite ppa_address_ppa.
    + intros a' Ha'. by apply Hfr' in Ha' as [].
  - apply evolves_map; [done..| | |apply Hm|apply (mb_fs _ _ _ _ Hm)].
    + intros l Ho. left. unfold amap_of. by rewrite Hmap.
    + intros a' Ha'. by apply Hfr.
Qed.

(** * Translating a list of writes *)
Record phase1 (P : flash_address → Prop) (s0 s : dom_st) (dn : list (flash_transaction * flash_transaction)) : Prop := {
  p1_inv : dom_inv P None s;
  p1_ev : evolves s0 s;
  p1_nand : ∀ a, nandv s a = nandv s0 a;
  p1_pend : Forall (λ p, pending s0 s p.1 p.2) dn;
  p1_other : ∀ l, owner_ok (ds_dom s0) (OData l) → l ∉ t_lpa <$> dn.*1 → amap_of s l = amap_of s0 l;
  p1_buf : ∀ id, id ∉ t_data <$> dn.*1 → buf_at s id = buf_at s0 id;
  p1_size : pc_size (d_pcache (ds_dom s)) ≤ pc_size (d_pcache (ds_dom s0)) + Z.of_nat (length dn);
  p1_ready : ∀ n, bm_ready (length dn + n) (ds_bm s0) → bm_ready n (ds_bm s);
  p1_next : m_next (bm_mach (ds_bm s0)) ≤ m_next (bm_mach (ds_bm s));
  p1_some : ∀ id, is_Some (buf_at s0 id) → is_Some (buf_at s id);
}.

Lemma phase1_nil P s : dom_inv P None s → phase1 P s s [].
Proof using All. intros Hs. split; try done; [apply evolves_refl|simpl; lia]. Qed.

Lemma rmw_valid e t i : xe_ppa e ≠ NO_PPA → Z.testbit (xe_bitmap e) (Z.of_nat i) = true →
  Z.testbit (t_bitmap t) (Z.of_nat i) = false →
  rmw e t = true ∧ Z.testbit (missing e t) (Z.of_nat i) = true.
Proof using All.
  intros Hn He Ht. unfold rmw, missing. rewrite (proj2 (Z.eqb_neq _ _) Hn). simpl. split.
  - apply negb_true_iff, Z.eqb_neq. intros E.
    assert (Z.testbit (Z.land (xe_bitmap e) (t_bitmap t)) (Z.of_nat i) = true) as Hb by by rewrite E.
    by rewrite Z.land_spec, Ht, andb_false_r in Hb.
  - by rewrite Z.ldiff_spec, He, Ht.
Qed.

(** The write that has just been translated is pending. *)
Lemma pending_new P s0 s s' t t1 b b1 a :
  dom_inv P None s → owner_ok (ds_dom s) (OData (t_lpa t)) →
  (∀ a, nandv s a = nandv s0 a) → nandv s' a = nandv s a →
  amap_of s (t_lpa t) = amap_of s0 (t_lpa t) → buf_at s0 (t_data t) = Some b → buf_at s' (t_data t) = Some b1 →
  t_type t = TXN_WRITE → owner_ok (ds_dom s0) (OData (t_lpa t)) →
  wtxn_ok (bm_mach (ds_bm s)) t b → t1 = set_t_addr (t_addr t1) t →
  let e := amap_of s (t_lpa t) in
  let t2 := set_t_ppa (address_to_ppa a) (set_t_addr a (rmw_txn e t1)) in
  page_fresh (ds_bm s0) a → page_fresh (ds_bm s) a → addr_ok a →
  (if rmw e t1 then completed (nandv s) (xe_ppa e) (missing e t1) b b1 else b1 = b) →
  amap_of s' (t_lpa t) = Xe (t_ppa t2) (u32 (Z.lor (xe_bitmap e) (t_bitmap t2))) →
  pending s0 s' t (set_t_ready true t2).
Proof using All.
  intros Hs Ho Hn0 Hn Hmap0 Hb0 Hb1 Hty Ho0 [Hd0 Hb Hbits Hcov] Et1 e t2 Hf0 Hf Ha Hmg Hmap.
  pose proof (dw_bits _ _ _ _ _ (di_dom _ _ _ Hs) _ Ho) as Heb. change (amap (nandv s) (ds_dom s) (t_lpa t)) with e in Heb.
  assert (covers t1 ∧ t_bitmap t1 = t_bitmap t ∧ t_lpa t1 = t_lpa t ∧ t_data t1 = t_data t ∧ t_type t1 = TXN_WRITE)
    as (Hcov1 & Eb1 & El1 & Ed1 & Ety1) by (rewrite Et1; done).
  destruct (rmw_txn_ok e t1 Heb ltac:(by rewrite Eb1) Hcov1) as [Hcov2 Hbits2].
  pose proof (lor16 _ _ Heb Hbits2) as Hlor.
  assert (u32 (Z.lor (xe_bitmap e) (t_bitmap t2)) = Z.lor (xe_bitmap e) (t_bitmap t2)) as Eu
    by (apply u32_small; simpl; lia).
  assert (t_lpa t2 = t_lpa t ∧ t_data t2 = t_data t ∧ t_type t2 = TXN_WRITE ∧ t_opaque t2 = t_opaque t) as (E1 & E2 & E3 & E4).
  { subst t2. unfold rmw_txn. assert (t_opaque t1 = t_opaque t) by (rewrite Et1; done). by destruct (rmw e t1). }
  split; [done|done|done| | | |done|done| |done].
  - split; [by apply address_to_ppa_bound|]. simpl. by rewrite ppa_address_ppa.
  - rewrite Hmap, Eu. split; [done|]. intros i. cbn [xe_bitmap]. rewrite Z.lor_spec.
    change (t_bitmap (set_t_ready true t2)) with (t_bitmap t2). intros ->. apply orb_true_r.
  - simpl. rewrite Hn. by apply (dw_fresh _ _ _ _ _ (di_dom _ _ _ Hs)).
  - exists b, b1. split; [done|]. split; [done|]. intros i Hi.
    change (t_bitmap (set_t_ready true t2)) with (t_bitmap (rmw_txn e t1)). unfold rmw_txn.
    split.
    + intros Hbit. destruct (rmw e t1).
      * destruct Hmg as (src & [_ Hm] & _). simpl. rewrite Z.lor_spec, Eb1, Hbit. split; [|done].
        rewrite Hm by done. unfold missing. by rewrite Z.ldiff_spec, Eb1, Hbit, andb_false_r.
      * rewrite Hmg, Eb1. done.
    + intros Hbit x (Hne & Hvalid & p & Hp & Hx). change (amap _ _ _) with (amap_of s0 (t_lpa t)) in *.
      rewrite <-Hmap0 in *. fold e in Hne, Hvalid, Hp.
      destruct (rmw_valid e t1 i Hne Hvalid ltac:(by rewrite Eb1)) as [Er Hmi]. rewrite Er in *.
      destruct Hmg as (src & [_ Hm] & Hsrc). rewrite Hm, Hmi by done. split.
      * rewrite <-Hx. apply Hsrc; [|done|done]. by rewrite Hn0.
      * simpl. by rewrite Z.lor_spec, Hmi, orb_true_r.
Qed.
(** The other pending writes stay so. *)
Lemma pending_keep s0 s s' t t' : pending s0 s t t' → amap_of s' (t_lpa t) = amap_of s (t_lpa t) →
  (∀ a, nandv s' a = nandv s a) → buf_at s' (t_data t) = buf_at s (t_data t) → pending s0 s' t t'.
Proof using All.
  intros [] Em Hn Hb. split; rewrite ?Em, ?Hb; try done. by rewrite Hn.
Qed.

Lemma write_req_wtxn s0 s t b : write_req s0 t → wtxn_ok (bm_mach (ds_bm s0)) t b →
  buf_at s (t_data t) = buf_at s0 (t_data t) → wtxn_ok (bm_mach (ds_bm s)) t b.
Proof using All. intros _ [] E. split; try done. unfold buf_at in E. congruence. Qed.

(** One more write translated. *)
Lemma phase1_step P s0 s s' dn t t1 t2 b :
  phase1 P s0 s dn → write_req s0 t → wtxn_ok (bm_mach (ds_bm s)) t b →
  t_lpa t ∉ t_lpa <$> dn.*1 → t_data t ∉ t_data <$> dn.*1 →
  t1 = set_t_addr (t_addr t1) t → alloc_post P t1 b s R0 t2 s' →
  phase1 P s0 s' (dn ++ [(t, set_t_ready true t2)]).
Proof using All.
  intros [H1 H2 H3 H4 H5 H6 H7 H8 H9 H10] [Hty _ Ho _] Hw Hl Hd Et1 Hp.
  pose proof (alloc_post_evolves P t1 b s R0 t2 s' H1 Hp) as Hev.
  assert (owner_ok (ds_dom s) (OData (t_lpa t))) as Ho1 by by apply (owner_ok_same _ _ _ (ev_consts _ _ H2)).
  assert (t_lpa t1 = t_lpa t ∧ t_data t1 = t_data t) as [El Ed] by (rewrite Et1; done).
  destruct (alloc_post_R0 _ _ _ _ _ _ Hp) as (a & b' & Et2 & Hs' & [Hm Hc Hg Hz Hr] & Hfr & Ha & Hfr' & Hmg & Hmap).
  assert (∀ l, owner_ok (ds_dom s0) (OData l) → l ≠ t_lpa t → amap_of s' l = amap_of s l) as Hoth.
  { intros l Hol Hne. rewrite Hmap, decide_False by (rewrite ?El; done || by apply (owner_ok_same _ _ _ (ev_consts _ _ H2))).
    done. }
  assert (∀ id, id ≠ t_data t → buf_at s' id = buf_at s id) as Hbuf.
  { intros id Hne. unfold buf_at. rewrite (mb_mem _ _ _ _ Hm), lookup_insert_ne by congruence. done. }
  split.
  - done.
  - by eapply evolves_trans.
  - intros a'. unfold nandv at 1. rewrite (mb_nand _ _ _ _ Hm). apply H3.
  - apply Forall_app. split.
    + rewrite Forall_forall in *. intros q Hq. eapply pending_keep; [by apply H4| |apply Hm|].
      * apply Hoth; [apply (H4 q Hq)|]. intros E. apply Hl. rewrite <-E. apply list_elem_of_fmap.
        exists q.1. split; [done|]. apply list_elem_of_fmap; eauto.
      * apply Hbuf. intros E. apply Hd. rewrite <-E. apply list_elem_of_fmap. exists q.1. split; [done|].
        apply list_elem_of_fmap; eauto.
    + constructor; [|done]. cbn [fst snd]. rewrite El in *. rewrite Et2.
      eapply (pending_new P s0 s s' t t1 b b' a); try done.
      * apply Hm.
      * by apply H5.
      * rewrite <-(H6 (t_data t)) by done. apply Hw.
      * unfold buf_at. rewrite (mb_mem _ _ _ _ Hm), Ed. apply lookup_insert_eq.
      * by apply (ev_fresh _ _ H2).
      * rewrite Hmap, decide_True by done. by rewrite Et2.
  - intros l Hol. rewrite fmap_app, fmap_app. intros Hn. rewrite Hoth; [apply H5; [done|set_solver]|done|set_solver].
  - intros id. rewrite fmap_app, fmap_app. intros Hn. rewrite Hbuf by set_solver. apply H6. set_solver.
  - rewrite length_app. simpl. lia.
  - intros n. rewrite length_app. simpl. intros Hn. apply Hr, H8. by replace (length dn + S n)%nat with (length dn + 1 + n)%nat by lia.
  - etransitivity; [exact H9|]. apply (mb_next _ _ _ _ Hm).
  - intros id Hid%H10. destruct (decide (id = t_data t)) as [->|Hne]; [|by rewrite Hbuf].
    unfold buf_at. rewrite (mb_mem _ _ _ _ Hm), Ed, lookup_insert_eq. by eexists.
Qed.

(** * From a domain to the unit *)
Definition setk (k : Z) (s : dom_st) : dom_st := DomSt _ (ds_bm s) (set_d_kref k (ds_dom s)).

Lemma dom_wf_kref nd fr P pin d k : dom_wf nd fr P pin d → dom_wf nd fr P pin (set_d_kref k d).
Proof using All. intros []. by split. Qed.
Lemma dom_inv_setk P pin s k : dom_inv P pin s → dom_inv P pin (setk k s).
Proof using All. intros []. split; try done. by apply dom_wf_kref. Qed.
Lemma dom_frame_setk data b' s s' k : dom_frame data b' s s' → dom_frame data b' (setk k s) (setk k s').
Proof using All.
  intros [? (? & ? & ? & ? & ? & ? & ? & ? & ?) ? ? ?]. by split.
Qed.
Lemma alloc_post_setk P t b s r t' s' k : alloc_post P t b s r t' s' → alloc_post P t b (setk k s) r t' (setk k s').
Proof using All.
  intros [a b' s1 e t1 Hs1 Hd Hfr Ha Hfr' Hmg Hmap|er b' s1 Hs1 Hd Hfr Hmap Hnl].
  - apply (alloc_ok_post P t b (setk k s) a b' (setk k s1)); try done;
      [by apply dom_inv_setk|by apply dom_frame_setk].
  - apply (alloc_err_post P t b (setk k s) er b' (setk k s1)); try done;
      [by apply dom_inv_setk|by apply dom_frame_setk].
Qed.

(** The unit with the state [s] of the domain at [ptr]. *)
Definition with_dom (ptr : Z) (s : dom_st) (u : amu) : amu :=
  Amu _ (ds_bm s) (<[ptr := ds_dom s]> (am_domains u)) (am_active u).
(** Namespace [nsid] is attached, its domain is at [ptr] and in state [s]. *)
Record attached (nsid ptr : Z) (s : dom_st) (u : amu) : Prop := {
  at_nsid : bad_nsid nsid = false;
  at_active : am_active u !! NSID2IDX nsid = Some ptr;
  at_domain : am_domains u !! ptr = Some (ds_dom s);
  at_bm : am_bm u = ds_bm s;
  at_kref : 1 ≤ d_kref (ds_dom s);
}.
Lemma attached_with nsid ptr s s' u : attached nsid ptr s u → d_kref (ds_dom s') = d_kref (ds_dom s) →
  attached nsid ptr s' (with_dom ptr s' u).
Proof using All. intros [] E. split; simpl; try done; [apply lookup_insert_eq|lia]. Qed.
Lemma with_dom_with ptr s s' u : with_dom ptr s' (with_dom ptr s u) = with_dom ptr s' u.
Proof using All. unfold with_dom. simpl. by rewrite insert_insert_eq. Qed.

Lemma wp_on_domain {A} ptr (m : ST dom_st A) (Q : A → amu → Prop) u d :
  am_domains u !! ptr = Some d →
  wp m (λ a s', Q a (with_dom ptr s' u)) (DomSt _ (am_bm u) d) → wp (on_domain ptr m) Q u.
Proof using Type.
  intros E. unfold wp, on_domain. rewrite E. by destruct (m _) as [[a s']|].
Qed.
Lemma wp_domain_put nsid ptr s (Q : () → amu → Prop) u : attached nsid ptr s u →
  1 < d_kref (ds_dom s) → Q tt (with_dom ptr (setk (d_kref (ds_dom s) - 1) s) u) → wp (domain_put ptr) Q u.
Proof using All.
  intros [_ Ha Hd Hb Hk] Hk1 HQ. unfold domain_put. wp_step. eapply wp_on_domain; [done|].
  unfold dom, upd_dom. wp_steps. rewrite Hb. destruct s as [sb sd]. simpl in *.
  rewrite (proj2 (Z.eqb_neq _ _)) by lia. wp_steps. done.
Qed.
Lemma wp_domain_get nsid ptr s (Q : option Z → amu → Prop) u : attached nsid ptr s u →
  Q (Some ptr) (with_dom ptr (setk (d_kref (ds_dom s) + 1) s) u) → wp (domain_get_by_nsid nsid) Q u.
Proof using All.
  intros [Hn Ha Hd Hb Hk] HQ. unfold domain_get_by_nsid. wp_steps; [by rewrite Hn|]. rewrite Ha. wp_steps.
  eapply wp_on_domain; [done|]. unfold upd_dom. wp_steps. rewrite Hb. by destruct s.
Qed.

(** [translate_lpa] is [translate_in_domain] with the reference counted. *)
Lemma wp_translate_lpa nsid ptr s t (Q : rc * flash_transaction → amu → Prop) u :
  attached nsid ptr s u → t_nsid t = nsid →
  wp (translate_in_domain t) (λ rt s', d_kref (ds_dom s') = d_kref (ds_dom s) + 1 ∧
     Q rt (with_dom ptr (setk (d_kref (ds_dom s)) s') u)) (setk (d_kref (ds_dom s) + 1) s) →
  wp (translate_lpa t) Q u.
Proof using All.
  intros Hat Et HQ. unfold translate_lpa, domain_get. wp_steps. rewrite Et.
  eapply wp_domain_get; [done|]. wp_step. set (s1 := setk _ s) in *. set (u1 := with_dom ptr s1 u).
  eapply (wp_on_domain ptr _ _ u1 (ds_dom s1)); [simpl; apply lookup_insert_eq|]. simpl am_bm.
  change (DomSt _ (ds_bm s1) (ds_dom s1)) with s1. eapply wp_mono; [exact HQ|].
  intros rt s' [Hk HQ']. simpl. wp_step. unfold u1. rewrite with_dom_with.
  eapply (wp_domain_put nsid ptr s').
  - destruct Hat. split; simpl; try done; [apply lookup_insert_eq|lia].
  - destruct Hat. lia.
  - wp_step. rewrite with_dom_with, Hk. replace (d_kref (ds_dom s) + 1 - 1) with (d_kref (ds_dom s)) by lia. done.
Qed.

Lemma setk_setk k k' s : setk k (setk k' s) = setk k s.
Proof using All. by destruct s as [? []]. Qed.
Lemma setk_id s : setk (d_kref (ds_dom s)) s = s.
Proof using All. by destruct s as [? []]. Qed.
Lemma alloc_post_frame P t b s r t' s' : alloc_post P t b s r t' s' →
  dom_inv P None s' ∧ ∃ b', dom_frame (t_data t) b' s s'.
Proof using All. intros []; split; eauto. Qed.

Definition batch_req (nsid : Z) (s : dom_st) (t : flash_transaction) : Prop := write_req s t ∧ t_nsid t = nsid.
Definition revertible (t : flash_transaction) : Prop :=
  t_ppa_ready t = true → 0 ≤ t_ppa t < TOTAL_PAGES.

Lemma pending_revertible P s0 s dn : phase1 P s0 s dn → Forall revertible dn.*2.
Proof using All.
  intros Hp. pose proof (p1_pend _ _ _ _ Hp) as Hf. clear Hp. induction Hf as [|p dn Hp _ IH]; [by constructor|].
  constructor; [|done]. intros _. apply (pd_ppa _ _ _ _ Hp).
Qed.

Lemma wp_translate_all P nsid ptr s0 l : ∀ dn s u,
  attached nsid ptr s u → phase1 P s0 s dn → Forall (batch_req nsid s0) l →
  NoDup (t_lpa <$> dn.*1 ++ l) → NoDup (t_data <$> dn.*1 ++ l) →
  pc_size (d_pcache (ds_dom s0)) + Z.of_nat (length (dn.*1 ++ l)) ≤ pc_capacity (d_pcache (ds_dom s0)) →
  bm_ready (length (dn.*1 ++ l)) (ds_bm s0) →
  wp (translate_all l) (λ '(r, l') u', ∃ s', u' = with_dom ptr s' u ∧
    evolves s0 s' ∧ dom_inv P None s' ∧
    match r with
    | R0 => ∃ dn', l' = dn'.*2 ∧ dn'.*1 = l ∧ phase1 P s0 s' (dn ++ dn')
    | Err _ => Forall revertible l' ∧ ¬ (DmaLive ∧ Forall (λ t, programmed s0 (t_lpa t)) l)
    end) u.
Proof using All.
  induction l as [|t l IH]; intros dn s u Hat Hp Hreq Hnl Hnd Hcap Hready; cbn [translate_all].
  - wp_step. exists s. split; [|split; [apply Hp|split; [apply Hp|]]].
    + unfold with_dom. destruct Hat as [_ _ Hd Hb _], u; simpl in *. by rewrite <-Hb, insert_id.
    + exists []. by rewrite app_nil_r.
  - apply Forall_cons in Hreq as [[Hwr Hns] Hreq]. pose proof Hp as [H1 H2 H3 H4 H5 H6 H7 H8 _ _].
    destruct (ev_consts _ _ H2) as (_ & _ & _ & _ & _ & _ & _ & Ecap & _).
    pose proof (ev_consts _ _ H2) as Hc0.
    assert (t_lpa t ∉ t_lpa <$> dn.*1) as Hfl.
    { rewrite fmap_app in Hnl. apply NoDup_app in Hnl as (_ & Hx & _). intros Hin. apply (Hx _ Hin). simpl. by left. }
    assert (t_data t ∉ t_data <$> dn.*1) as Hfd.
    { rewrite fmap_app in Hnd. apply NoDup_app in Hnd as (_ & Hx & _). intros Hin. apply (Hx _ Hin). simpl. by left. }
    pose proof Hwr as [Hty Hnr Ho [b Hw]].
    assert (wtxn_ok (bm_mach (ds_bm s)) t b) as Hws by (by eapply write_req_wtxn; [|exact Hw|apply H6]).
    assert (owner_ok (ds_dom s) (OData (t_lpa t))) as Hos by by apply (owner_ok_same _ _ _ Hc0).
    rewrite length_app, length_fmap in Hcap, Hready. cbn [length] in Hcap, Hready.
    set (k := d_kref (ds_dom s)).
    wp_step. eapply wp_translate_lpa; [exact Hat|done|]. eapply wp_mono.
    { apply (wp_translate_write P t b (setk (k + 1) s)); [by apply dom_inv_setk|by split; eauto|done| |].
      - right. simpl. lia.
      - apply H8. eapply bm_ready_le; [|exact Hready]. lia. }
    intros [r t'] s' (t1 & t2 & Hpl & Et1 & Hpost & ->). cbv beta.
    apply (alloc_post_setk _ _ _ _ _ _ _ k) in Hpost as Hpost'. rewrite setk_setk in Hpost'. unfold k in Hpost' at 1.
    rewrite setk_id in Hpost'.
    destruct (alloc_post_frame _ _ _ _ _ _ _ Hpost) as [Hs' [b' Hfr]].
    destruct (alloc_post_frame _ _ _ _ _ _ _ Hpost') as [Hs2 [b2 Hfr2]].
    split; [apply (df_consts _ _ _ _ Hfr)|]. fold k.
    pose proof (evolves_trans _ _ _ H2 (alloc_post_evolves P t1 b s r t2 _ H1 Hpost')) as Hev.
    destruct r as [|er]; simpl.
    + set (s2 := setk k s') in *.
      pose proof (phase1_step P s0 s s2 dn t t1 t2 b Hp Hwr Hws Hfl Hfd Et1 Hpost') as Hp2.
      assert ((dn ++ [(t, set_t_ready true t2)]).*1 = dn.*1 ++ [t]) as Efst by by rewrite fmap_app.
      wp_step. eapply wp_mono; [apply (IH (dn ++ [(t, set_t_ready true t2)]) s2)|].
      * apply (attached_with _ _ s); [done|]. done.
      * done.
      * done.
      * by rewrite Efst, <-app_assoc.
      * by rewrite Efst, <-app_assoc.
      * rewrite Efst, <-app_assoc, length_app, length_fmap. simpl. lia.
      * rewrite Efst, <-app_assoc, length_app, length_fmap. done.
      * intros [r l'] u' (s3 & -> & Hev3 & Hs3 & Hres). wp_step. exists s3. rewrite with_dom_with.
        split; [done|]. split; [done|]. split; [done|]. destruct r.
        -- destruct Hres as (dn' & -> & <- & Hp3). exists ((t, set_t_ready true t2) :: dn').
           rewrite <-app_assoc in Hp3. done.
        -- destruct Hres as [Hres Hnl']. split; [|by intros [HD [_ HF]%Forall_cons]; apply Hnl'].
           constructor; [|done]. pose proof (p1_pend _ _ _ _ Hp2) as Hf. apply Forall_app in Hf as [_ Hf].
           apply Forall_cons in Hf as [Hf _]. intros _. apply (pd_ppa _ _ _ _ Hf).
    + wp_step. exists (setk k s'). split; [done|]. split; [done|]. split; [done|].
      assert (t2 = t1) as -> by by inversion Hpost.
      assert (¬ (DmaLive ∧ programmed s (t_lpa t1))) as Hnl' by by inversion Hpost'.
      assert (t_lpa t1 = t_lpa t) as Elpa by (rewrite Et1; done). rewrite Elpa in Hnl'. split.
      2:{ intros [HD [HF _]%Forall_cons]. apply Hnl'. split; [done|]. unfold programmed. rewrite H5, H3 by done. exact HF. }
      constructor; [rewrite Et1; intros Hr; simpl in Hr; congruence|].
      eapply Forall_impl; [exact Hreq|]. intros x [[_ Hx _ _] _] Hr. congruence.
Qed.

(** * Executing the translated writes *)
Lemma lset_with_dom nsid ptr s u m : attached nsid ptr s u →
  lset m u = with_dom ptr (with_mach m s) u.
Proof using All.
  intros [_ _ Hd Hb _]. unfold with_dom, with_mach. simpl. rewrite Hb. by rewrite insert_id.
Qed.

(** Programming a page that a logical page refers to. *)
Lemma page_write_inv P s0 s l a data b' m' : dom_inv P None s → evolves s0 s →
  owner_ok (ds_dom s) (OData l) → xe_ppa (amap_of s l) ≠ NO_PPA → a = ppa_to_address (xe_ppa (amap_of s l)) →
  page_fresh (ds_bm s0) a →
  is_Some (buf_at s data) → length (b_data b') = 4%nat →
  (∀ a', a' ≠ a → nand (m_dev m') a' = nandv s a') → m_mem m' = <[data := b']> (m_mem (bm_mach (ds_bm s))) →
  m_next m' = m_next (bm_mach (ds_bm s)) → m_fs m' = m_fs (bm_mach (ds_bm s)) →
  dom_inv P None (with_mach m' s) ∧ evolves s0 (with_mach m' s) ∧
  same_map (nandv s) (nandv (with_mach m' s)) (ds_dom s) (ds_dom s).
Proof using All.
  intros Hs Hev Ho Hn Ea Hfr [b Hb] Hl Hnd Hmem Hnx Hfs. pose proof Hs as [Hbm [Hm1 Hm2] Hi Hd].
  destruct (dw_ref _ _ _ _ _ Hd (OData l) Ho Hn) as (Hr & Hnf & _ & Hinj). cbn [ref] in *.
  fold (amap_of s l) in *.
  change (amap (nandv s) (ds_dom s) l) with (amap_of s l) in *. rewrite <-Ea in Hnf.
  destruct (dom_wf_frame (nandv s) (nandv (with_mach m' s)) (page_fresh (ds_bm s)) (page_fresh (ds_bm (with_mach m' s))) P None
    (ds_dom s) Hd) as [Hd' Hsm].
  - intros v Hv Hg. apply Hnd. rewrite Ea. intros E.
    destruct (dw_ref _ _ _ _ _ Hd (OXlate v) Hv Hg) as (Hr' & _). cbn [ref] in Hr'.
    apply ppa_to_address_inj in E; [|done..]. specialize (Hinj (OXlate v) Hv E). done.
  - intros a' Ha'. assert (page_fresh (ds_bm s) a') as Ha2 by done. split; [done|].
    unfold nandv. simpl. rewrite Hnd by (intros ->; done). by apply (dw_fresh _ _ _ _ _ Hd).
  - split; [|split; [|done]].
    + split; [done| |simpl; intros id Hid; rewrite Hnx; by apply Hi|done].
      split; simpl; [lia|]. rewrite Hmem. intros id x. destruct (decide (id = data)) as [->|Hne].
      * rewrite lookup_insert_eq. intros [= <-]. apply Hm2 in Hb. split; [lia|done].
      * rewrite lookup_insert_ne by done. intros Hx%Hm2. by rewrite Hnx.
    + destruct Hev as [C R F N S]. split; simpl; try done.
      * intros o Hoo. assert (owner_ok (ds_dom s) o) as Hos by by apply (owner_ok_same _ _ _ C).
        rewrite (ref_same (nandv s) _ (ds_dom s) (ds_dom s)); [by apply R|apply same_consts_refl|done|done|done].
      * intros a' Ha'. unfold nandv at 1. simpl. rewrite Hnd; [by apply N|]. intros ->. done.
      * congruence.
Qed.

Record phase2 (s1 s : dom_st) (pre : list (flash_transaction * flash_transaction)) : Prop := {
  p2_dom : ds_dom s = ds_dom s1;
  p2_mem : m_mem (bm_mach (ds_bm s)) = m_mem (bm_mach (ds_bm s1));
  p2_next : m_next (bm_mach (ds_bm s)) = m_next (bm_mach (ds_bm s1));
  p2_planes : bm_planes (ds_bm s) = bm_planes (ds_bm s1);
  p2_nand : ∀ a, a ∉ t_addr <$> pre.*2 → nandv s a = nandv s1 a;
  p2_map : same_map (nandv s1) (nandv s) (ds_dom s1) (ds_dom s);
  p2_done : Forall (λ p, ∃ pg b', nandv s (t_addr p.2) = Some pg ∧ buf_at s1 (t_data p.1) = Some b' ∧
      agree (t_offset p.2) (t_length p.2) pg (b_data b')) pre;
}.

Lemma wp_submit_write_live t b m :
  t_type t = TXN_WRITE → 0 < t_length t → t_data t ≠ 0 → m_mem m !! t_data t = Some b → length (b_data b) = 4%nat →
  nand (m_dev m) (t_addr t) = None →
  wp (amu_submit_transaction t) (λ a m', (WriteLive → a.1 = R0) ∧ ∃ b', page_op t b b' m a.1 a.2 m') m.
Proof using All.
  intros Ht Hl Hd Hb Hlen Hn. pose proof (wp_amu_submit_write t b m Ht Hl Hd Hb Hlen) as Hw.
  apply wp_run in Hw as ([r t'] & m' & E & Hpost). unfold wp. rewrite E. split; [|exact Hpost].
  intros HW. pose proof (wp_amu_submit_write_live t b m Ht Hl Hd Hb Hn) as Hw2. unfold wp in Hw2. by rewrite E in Hw2.
Qed.
Lemma wp_submit_all P nsid ptr s0 s1 : dom_inv P None s1 → ∀ post pre s u,
  Forall (λ p, pending s0 s1 p.1 p.2) post → evolves s0 s1 →
  NoDup (t_addr <$> pre.*2 ++ post.*2) →
  attached nsid ptr s u → dom_inv P None s → evolves s0 s → phase2 s1 s pre →
  wp (submit_all post.*2) (λ '(r, l') u', ∃ s', u' = with_dom ptr s' u ∧
    evolves s0 s' ∧ dom_inv P None s' ∧ Forall revertible l' ∧
    (r = R0 → phase2 s1 s' (pre ++ post)) ∧ (WriteLive → r = R0) ∧ Forall2 same_buf post.*2 l') u.
Proof using All.
  intros Hs1 post. induction post as [|[t t'] post IH]; intros pre s u Hpend Hev1 Hnd Hat Hs Hev Hp2; cbn [fmap list_fmap submit_all].
  { wp_step. exists s. split; [|split; [done|split; [done|split; [by constructor|by rewrite app_nil_r]]]].
    unfold with_dom. destruct Hat as [_ _ Hd Hb _], u; simpl in *. by rewrite <-Hb, insert_id. }
  apply Forall_cons in Hpend as [Hpd Hpend]. cbn [fst snd] in *. pose proof Hp2 as [Hdom Hmem Hnext Hpln Hnand Hmap Hdone].
  destruct Hpd as [[El Ho0] [Ed Hd0] [Ety Erd] [Hppa Eaddr] [Emap _] Her Hcov Hnew (b & b' & Hb & Hb' & _) Hsame].
  assert (m_mem (bm_mach (ds_bm s)) !! t_data t' = Some b') as Hbs by (rewrite Hmem, Ed; exact Hb').
  destruct (mw_mem _ (di_mem _ _ _ Hs) _ _ Hbs) as [_ Hlb].
  rewrite fmap_app in Hnd. cbn [fmap list_fmap] in Hnd.
  assert (t_addr t' ∉ t_addr <$> pre.*2) as Hni.
  { apply NoDup_app in Hnd as (_ & Hx & _). intros Hin. apply (Hx _ Hin). by left. }
  rewrite Erd. wp_step. wp_step. replace (lget u) with (bm_mach (ds_bm s)) by (simpl; by rewrite (at_bm _ _ _ _ Hat)).
  assert (nand (m_dev (bm_mach (ds_bm s))) (t_addr t') = None) as Her' by (rewrite <-Her; by apply Hnand).
  assert (t_data t' ≠ 0) as Hd0' by congruence. destruct Hcov as [Hlt' Hcov].
  apply (wp_mono _ (λ a m2, (WriteLive → a.1 = R0) ∧ ∃ b2, page_op t' b' b2 (bm_mach (ds_bm s)) a.1 a.2 m2)).
  { by apply wp_submit_write_live. }
  intros [r t2] m2 [Hlive Hpo]. cbn [fst snd] in Hlive, Hpo.
  destruct Hpo as (b2 & [(c & e1 & e2 & e3 & ->) Hfs Hnx Hme Hl2 Hoth _ Hwr]). cbn beta iota.
  rewrite (lset_with_dom nsid ptr s) by done.
  assert (owner_ok (ds_dom s1) (OData (t_lpa t))) as Ho1 by by apply (owner_ok_same _ _ _ (ev_consts _ _ Hev1)).
  assert (amap_of s (t_lpa t) = amap_of s1 (t_lpa t)) as Ems by by apply Hmap.
  pose proof (ppa_not_NO _ Hppa) as HnN.
  destruct (page_write_inv P s0 s (t_lpa t) (t_addr t') (t_data t') b2 m2 Hs Hev) as (Hs' & Hev' & Hsm); try done.
  { by rewrite Hdom. }
  { rewrite Ems. congruence. }
  { rewrite Ems. congruence. }
  { intros a Ha. by apply Hoth. }
  set (t2 := set_t_result _ _ _ _). assert (revertible t2) as Hrev by (intros _; exact Hppa).
  destruct r as [|er].
  - destruct (Hwr Ety eq_refl) as [-> (pg & Hpg & Hpl & Hag)].
    { done. }
    wp_step. eapply wp_mono; [apply (IH (pre ++ [(t, t')]) (with_mach m2 s))|]; try done.
    + rewrite !fmap_app, <-app_assoc. exact Hnd.
    + apply (attached_with _ _ s); done.
    + split; [done| | |done| | |].
      * simpl. rewrite Hme, insert_id by done. done.
      * simpl. by rewrite Hnx.
      * intros a. rewrite fmap_app, fmap_app. intros Ha. unfold nandv. simpl.
        rewrite Hoth by set_solver. apply Hnand. set_solver.
      * intros l Hol. transitivity (amap (nandv s) (ds_dom s) l); [|by apply Hmap].
        apply Hsm. by rewrite Hdom.
      * apply Forall_app. split.
        -- rewrite Forall_forall in *. intros q Hq. destruct (Hdone q Hq) as (p & b3 & Hp & ? & ?).
           exists p, b3. split; [|done]. rewrite <-Hp. unfold nandv. simpl. apply Hoth. intros _ E.
           apply Hni. rewrite <-E. apply list_elem_of_fmap. exists q.2. split; [done|]. apply list_elem_of_fmap. eauto.
        -- constructor; [|done]. exists pg, b'. split; [done|]. split; [exact Hb'|exact Hag].
    + intros [r l'] u' (s3 & -> & ? & ? & ? & ? & ? & ?). wp_step. exists s3. rewrite with_dom_with.
      rewrite <-app_assoc in *. split; [done|]. split; [done|]. split; [done|]. split; [by constructor|].
      split; [done|]. split; [done|]. by constructor.
  - wp_step. exists (with_mach m2 s). split; [done|]. split; [done|]. split; [done|]. split; [|split; [done|split; [by intros HW%Hlive|constructor; [done|apply Forall_Forall2_diag, Forall_true; done]]]].
    constructor; [done|]. clear -Hpend. induction Hpend as [|p post Hp _ IH]; constructor; [|done].
    intros _. apply (pd_ppa _ _ _ _ Hp).
Qed.

Lemma pending_addrs P s0 s1 dn : phase1 P s0 s1 dn → NoDup (t_lpa <$> dn.*1) → NoDup (t_addr <$> dn.*2).
Proof using All.
  intros [H1 H2 _ H4 _ _ _ _ _ _] Hnd.
  assert (t_addr <$> dn.*2 = (λ l, ppa_to_address (xe_ppa (amap_of s1 l))) <$> (t_lpa <$> dn.*1)) as ->.
  { clear Hnd. induction H4 as [|p dn Hp _ IH]; [done|]. cbn [fmap list_fmap]. rewrite IH. f_equal.
    destruct (pd_ppa _ _ _ _ Hp) as [_ ->]. by destruct (pd_map _ _ _ _ Hp) as [-> _]. }
  apply NoDup_fmap_2_strong; [|done].
  assert (∀ l, l ∈ t_lpa <$> dn.*1 → owner_ok (ds_dom s1) (OData l) ∧ 0 ≤ xe_ppa (amap_of s1 l) < TOTAL_PAGES) as Hok.
  { intros l (t & -> & (p & -> & Hp)%list_elem_of_fmap)%list_elem_of_fmap.
    rewrite Forall_forall in H4. specialize (H4 p Hp). destruct H4 as [[_ Ho] _ _ [Hr _] [-> _] _ _ _ _ _].
    split; [|done]. by apply (owner_ok_same _ _ _ (ev_consts _ _ H2)). }
  intros x y Hx Hy E. destruct (Hok x Hx) as [Hox Hrx], (Hok y Hy) as [Hoy Hry].
  apply ppa_to_address_inj in E; [|done..].
  destruct (dw_ref _ _ _ _ _ (di_dom _ _ _ H1) (OData y) Hoy) as (_ & _ & _ & Hinj); [by apply ppa_not_NO|].
  specialize (Hinj (OData x) Hox E). congruence.
Qed.

(** Undoing the allocations of a failed list only touches bookkeeping. *)
Lemma wp_cleanup P nsid ptr s0 l s u : attached nsid ptr s u → dom_inv P None s → evolves s0 s →
  Forall revertible l →
  wp (for_each l (λ txn, do_if (bool_decide (t_type txn = TXN_WRITE) && t_ppa_ready txn)
        (lift (bm_invalidate_page (ppa_to_address (t_ppa txn))))))
    (λ _ u', ∃ s', u' = with_dom ptr s' u ∧ dom_inv P None s' ∧ evolves s0 s') u.
Proof using All.
  intros Hat Hs Hev Hl. rewrite Forall_forall in Hl.
  eapply wp_mono; [apply (wp_for_each (λ _ u', ∃ s', attached nsid ptr s' u' ∧ u' = with_dom ptr s' u ∧
    dom_inv P None s' ∧ evolves s0 s') l)|intros ? ? (s' & _ & ?); by exists s'].
  - exists s. split; [done|]. split; [|done]. unfold with_dom. destruct Hat as [_ _ Hd Hb _], u; simpl in *.
    by rewrite <-Hb, insert_id.
  - intros pre x post u' El (s' & Hat' & -> & Hs' & Hev'). wp_step.
    destruct (bool_decide _ && t_ppa_ready x) eqn:E; [|eauto 6].
    apply andb_true_iff in E as [_ Hr]. assert (0 ≤ t_ppa x < TOTAL_PAGES) as Hx by (apply Hl; [set_solver|done]).
    wp_step. eapply wp_mono; [apply wp_bm_invalidate; [by apply ppa_to_address_ok|apply (di_bm _ _ _ Hs')]|].
    intros [] b' (Hb' & Em & Hf & _). cbv beta. exists (DomSt _ b' (ds_dom s')).
    assert (lset b' (with_dom ptr s' u) = with_dom ptr (DomSt _ b' (ds_dom s')) u) as -> by done.
    split; [destruct Hat'; by split|]. split; [done|]. split.
    + apply dom_inv_bm; [done..|]. intros a. apply Hf.
    + destruct Hev' as [C R F N S]. split; try done; unfold nandv; simpl; rewrite ?Em; try done.
      intros a Ha. by apply F, Hf.
Qed.

(** ** The contract of a list of writes *)
Definition readsv (s : dom_st) : Z → nat → sector → Prop := reads (nandv s) (ds_dom s).
Record written (s s' : dom_st) (l : list flash_transaction) : Prop := {
  wr_sectors : ∀ t i x, t ∈ l → (i < 4)%nat →
    (Z.testbit (t_bitmap t) (Z.of_nat i) = true →
       ∀ b, buf_at s (t_data t) = Some b → b_data b !! i = Some x → readsv s' (t_lpa t) i x) ∧
    (Z.testbit (t_bitmap t) (Z.of_nat i) = false → readsv s (t_lpa t) i x → readsv s' (t_lpa t) i x);
  wr_others : ∀ lpa i x, owner_ok (ds_dom s) (OData lpa) → lpa ∉ t_lpa <$> l → readsv s' lpa i x ↔ readsv s lpa i x;
  wr_programmed : ∀ lpa, owner_ok (ds_dom s) (OData lpa) → lpa ∈ t_lpa <$> l ∨ programmed s lpa → programmed s' lpa;
  (** Memory: only the data buffers are touched, none is released. *)
  wr_bufs : ∀ id, id ∉ t_data <$> l → buf_at s' id = buf_at s id;
  wr_some : ∀ id, is_Some (buf_at s id) → is_Some (buf_at s' id);
  wr_next : m_next (bm_mach (ds_bm s)) ≤ m_next (bm_mach (ds_bm s'));
  (** What is left for further writes. *)
  wr_size : pc_size (d_pcache (ds_dom s')) ≤ pc_size (d_pcache (ds_dom s)) + Z.of_nat (length l);
  wr_ready : ∀ n, bm_ready (length l + n) (ds_bm s) → bm_ready n (ds_bm s');
}.

Lemma phases_written P s0 s1 s dn : dom_inv P None s → phase1 P s0 s1 dn → phase2 s1 s dn →
  written s0 s dn.*1.
Proof using All.
  intros Hs [H1 H2 H3 H4 H5 H6 H7 H8 H9 H10] [D M X L N Mp Dn]. rewrite Forall_forall in H4, Dn.
  assert (∀ l, owner_ok (ds_dom s0) (OData l) → amap_of s l = amap_of s1 l) as Hm.
  { intros l Ho. apply Mp. by apply (owner_ok_same _ _ _ (ev_consts _ _ H2)). }
  assert (∀ l, owner_ok (ds_dom s0) (OData l) → l ∉ t_lpa <$> dn.*1 → xe_ppa (amap_of s0 l) ≠ NO_PPA →
    ppa_to_address (xe_ppa (amap_of s0 l)) ∉ t_addr <$> dn.*2) as Hni.
  { intros l Ho Hl Hne (t' & E & (q & -> & Hq)%list_elem_of_fmap)%list_elem_of_fmap.
    specialize (H4 q Hq). destruct H4 as [[El Hoq] _ _ [Hppa Ea] [Em _] _ _ _ _ _].
    rewrite Ea in E. assert (owner_ok (ds_dom s1) (OData l)) as Ho1 by by apply (owner_ok_same _ _ _ (ev_consts _ _ H2)).
    destruct (dw_ref _ _ _ _ _ (di_dom _ _ _ H1) (OData l) Ho1) as (Hr & _ & _ & Hinj).
    { cbn [ref]. change (amap (nandv s1) _ l) with (amap_of s1 l). by rewrite H5. }
    cbn [ref] in *. change (amap (nandv s1) (ds_dom s1) l) with (amap_of s1 l) in *. rewrite H5 in * by done.
    apply ppa_to_address_inj in E; [|done..].
    assert (OData (t_lpa q.1) = OData l) as Eq.
    { apply Hinj; [by apply (owner_ok_same _ _ _ (ev_consts _ _ H2))|]. cbn [ref].
      change (amap (nandv s1) (ds_dom s1) (t_lpa q.1)) with (amap_of s1 (t_lpa q.1)). congruence. }
    injection Eq as Eq. apply Hl. rewrite <-Eq. apply list_elem_of_fmap. exists q.1. split; [done|].
    apply list_elem_of_fmap. eauto. }
  split.
  - intros t i x (q & -> & Hq)%list_elem_of_fmap Hi. specialize (H4 q Hq). specialize (Dn q Hq).
    destruct Dn as (pg & b' & Hpg & Hb' & Hag).
    destruct H4 as [[El Ho] _ _ [Hppa Ea] [Em Hbm] _ [_ Hcov] _ (b & b2 & Hb & Hb2 & Hbits) _].
    rewrite Hb' in Hb2. injection Hb2 as <-. destruct (Hbits i Hi) as [HbT HbF]. clear Hbits.
    assert (∀ x, Z.testbit (t_bitmap q.2) (Z.of_nat i) = true → b_data b' !! i = Some x → readsv s (t_lpa q.1) i x) as Hrd.
    { intros y Hbit Hy. unfold readsv, reads. change (amap _ _ _) with (amap_of s (t_lpa q.1)). rewrite (Hm _ Ho), Em.
      split; [by apply ppa_not_NO|]. split; [by apply Hbm|]. exists pg. rewrite <-Ea. split; [done|].
      specialize (Hcov (Z.of_nat i) ltac:(lia) Hbit). specialize (Hag (Z.of_nat i) ltac:(lia) Hcov).
      rewrite Nat2Z.id in Hag. congruence. }
    split.
    + intros Hbit b3 Hb3 Hx. destruct (HbT Hbit) as [E ?]. apply Hrd; [done|]. rewrite E. congruence.
    + intros Hbit Hr. destruct (HbF Hbit x Hr). by apply Hrd.
  - intros l i x Ho Hl. unfold readsv, reads. change (amap (nandv s) _ l) with (amap_of s l).
    change (amap (nandv s0) _ l) with (amap_of s0 l). rewrite (Hm l Ho), (H5 l Ho Hl).
    destruct (decide (xe_ppa (amap_of s0 l) = NO_PPA)) as [E|Hne]; [by split; intros []|].
    rewrite N by (by apply Hni). by rewrite H3.
  - intros l Ho Hl Hne. rewrite (Hm l Ho) in *.
    destruct (decide (l ∈ t_lpa <$> dn.*1)) as [(t & -> & (q & -> & Hq)%list_elem_of_fmap)%list_elem_of_fmap|Hn].
    + destruct (Dn q Hq) as (pg & _ & Hpg & _). destruct (H4 q Hq) as [_ _ _ [_ Ea] [Em _] _ _ _ _ _].
      rewrite Em, <-Ea, Hpg. by eexists.
    + destruct Hl as [?|Hpr]; [done|]. rewrite (H5 l Ho Hn) in *. rewrite N by (by apply Hni). rewrite H3. by apply Hpr.
  - intros id Hid. rewrite <-H6 by done. unfold buf_at. by rewrite M.
  - intros id Hid%H10. unfold buf_at in *. by rewrite M.
  - by rewrite X.
  - rewrite D, length_fmap. done.
  - intros n. rewrite length_fmap. intros Hn. apply (bm_ready_planes n (ds_bm s1)); [done|]. by apply H8.
Qed.

Lemma pending_same P s0 s dn l' : phase1 P s0 s dn → Forall2 same_buf dn.*2 l' → Forall2 same_buf dn.*1 l'.
Proof using All.
  intros Hp. pose proof (p1_pend _ _ _ _ Hp) as Hf. clear Hp. revert l'.
  induction Hf as [|p dn Hp _ IH]; intros l'; cbn [fmap list_fmap]; [done|].
  intros (t & l2 & Ht & Hl & ->)%Forall2_cons_inv_l. constructor; [|by apply IH].
  destruct (pd_same _ _ _ _ Hp), Ht. split; congruence.
Qed.

Lemma wp_dispatch_writes P nsid ptr s u l :
  attached nsid ptr s u → dom_inv P None s → Forall (batch_req nsid s) l →
  NoDup (t_lpa <$> l) → NoDup (t_data <$> l) →
  pc_size (d_pcache (ds_dom s)) + Z.of_nat (length l) ≤ pc_capacity (d_pcache (ds_dom s)) →
  bm_ready (length l) (ds_bm s) →
  wp (amu_dispatch l) (λ '(r, l') u', ∃ s', u' = with_dom ptr s' u ∧ dom_inv P None s' ∧ evolves s s' ∧
    (r = R0 → written s s' l ∧ Forall2 same_buf l l') ∧
    (DmaLive → WriteLive → Forall (λ t, programmed s (t_lpa t)) l → r = R0)) u.
Proof using All.
  intros Hat Hs Hreq Hnl Hnd Hcap Hready.
  assert (u = with_dom ptr s u) as Eu.
  { unfold with_dom. destruct Hat as [_ _ Hd Hb _], u; simpl in *. by rewrite <-Hb, insert_id. }
  destruct l as [|t l]; cbn [amu_dispatch].
  { wp_step. exists s. split; [done|]. split; [done|]. split; [apply evolves_refl|]. split; [intros _|done]. split; [|done].
    split; try done; [intros ? ? ? []%elem_of_nil|intros ? _ []; [set_solver|done]|simpl; lia]. }
  set (tl := t :: l) in *. wp_step.
  eapply wp_mono; [apply (wp_translate_all P nsid ptr s tl [] s u); try done; by apply phase1_nil|].
  intros [r l1] u1 (s1 & -> & Hev1 & Hs1 & Hres). cbv beta iota.
  assert (attached nsid ptr s1 (with_dom ptr s1 u)) as Hat1
    by (apply (attached_with _ _ s); [done|apply (ev_consts _ _ Hev1)]).
  destruct r as [|er].
  - destruct Hres as (dn & -> & <- & Hp1). simpl in Hp1. wp_step.
    eapply wp_mono; [apply (wp_submit_all P nsid ptr s s1 Hs1 dn [] s1)|]; try done.
    + apply (p1_pend _ _ _ _ Hp1).
    + by eapply pending_addrs.
    + intros [r l2] u2 (s2 & -> & Hev2 & Hs2 & Hrev & Hp2 & Hlive & Hsame). rewrite with_dom_with. destruct r as [|er].
      * wp_step. exists s2. split; [done|]. split; [done|]. split; [done|]. split; [intros _|done].
        split; [eapply phases_written; [done..|by apply Hp2]|]. by eapply pending_same.
      * wp_step. eapply wp_mono; [eapply (wp_cleanup P nsid ptr s l2 s2)|]; try done.
        { apply (attached_with _ _ s); [done|apply (ev_consts _ _ Hev2)]. }
        intros [] u3 (s3 & -> & Hs3 & Hev3). wp_step. exists s3. rewrite with_dom_with.
        split; [done|]. split; [done|]. split; [done|]. split; [done|]. by intros _ HW%Hlive.
  - destruct Hres as [Hrev Hnlv]. wp_steps. eapply wp_mono; [eapply (wp_cleanup P nsid ptr s l1 s1)|]; try done.
    intros [] u3 (s3 & -> & Hs3 & Hev3). wp_step. exists s3. rewrite with_dom_with.
    split; [done|]. split; [done|]. split; [done|]. split; [done|]. intros HD _ HF. by destruct Hnlv.
Qed.

(** * Reads *)
Lemma wp_get_ppa P l (Q : rc * (Z * Z) → dom_st → Prop) s :
  dom_inv P None s → owner_ok (ds_dom s) (OData l) → room (l / ENTS) (ds_dom s) →
  (∀ s', dom_inv P None s' → quiet s s' → pc_size (d_pcache (ds_dom s')) ≤ pc_size (d_pcache (ds_dom s)) + 1 →
     Q (R0, (xe_ppa (amap_of s l), xe_bitmap (amap_of s l))) s') →
  wp (get_ppa l) Q s.
Proof using All.
  intros Hs Ho Hroom HQ. unfold get_ppa, dom. destruct (get_mvpn_eq _ _ _ _ Hs Ho) as [Emv Esl].
  destruct (lpa_slot _ _ Ho) as [Hv _]. wp_steps. rewrite Emv, Esl.
  eapply wp_get_translation_page; [done..|]. intros id x s1 Hs1 Hq Hx Hxv Hz.
  assert (owner_ok (ds_dom s1) (OData l)) as Ho1 by (apply (owner_ok_same (ds_dom s)); [apply (q_consts _ _ Hq)|done]).
  wp_step. eapply wp_page_at; [exact Hx|]. wp_step. apply wp_deref. eexists; split; [by eapply entry_held|].
  assert (amap_of s1 l = amap_of s l) as -> by by apply (q_map _ _ Hq).
  destruct (dom_inv_release P s1 id x Hs1 Hx) as (Hp & Hs' & Hq').
  eapply wp_release; [done..|]. wp_step. apply HQ; [done|by eapply quiet_trans|done].
Qed.

Lemma quiet_evolves P s s' : dom_inv P None s → quiet s s' → evolves s s' ∧ (∀ l, owner_ok (ds_dom s) (OData l) → amap_of s' l = amap_of s l).
Proof using All.
  intros Hs [Q1 Q2 Q3 Q4 Q5]. split; [|done]. apply evolves_map; [done|done| | |apply Q2|apply Q2].
  - intros l Ho. left. unfold amap_of. by rewrite Q5.
  - intros a Ha. by apply (page_fresh_planes (ds_bm s) (ds_bm s')).
Qed.

(** A read of a page that has been programmed. *)
Record read_req (nsid : Z) (s : dom_st) (t : flash_transaction) : Prop := {
  rq_type : t_type t = TXN_READ;
  rq_nsid : t_nsid t = nsid;
  rq_ready : t_ppa_ready t = false;
  rq_lpa : owner_ok (ds_dom s) (OData (t_lpa t));
  rq_mapped : xe_ppa (amap_of s (t_lpa t)) ≠ NO_PPA;
  rq_page : is_Some (nandv s (ppa_to_address (xe_ppa (amap_of s (t_lpa t)))));
  rq_data : t_data t ≠ 0 ∧ is_Some (buf_at s (t_data t));
  rq_len : 0 < t_length t;
}.
Definition translated (s : dom_st) (t : flash_transaction) : flash_transaction :=
  let ppa := xe_ppa (amap_of s (t_lpa t)) in
  set_t_ready true (set_t_addr (ppa_to_address ppa) (set_t_ppa ppa t)).

Lemma wp_translate_reads P nsid ptr s0 l : ∀ s u n,
  attached nsid ptr s u → dom_inv P None s → quiet s0 s → Forall (read_req nsid s0) l →
  pc_size (d_pcache (ds_dom s)) ≤ pc_size (d_pcache (ds_dom s0)) + n →
  pc_size (d_pcache (ds_dom s0)) + n + Z.of_nat (length l) ≤ pc_capacity (d_pcache (ds_dom s0)) →
  wp (translate_all l) (λ '(r, l') u', ∃ s', u' = with_dom ptr s' u ∧ dom_inv P None s' ∧ quiet s0 s' ∧
    r = R0 ∧ l' = translated s0 <$> l ∧
    pc_size (d_pcache (ds_dom s')) ≤ pc_size (d_pcache (ds_dom s0)) + n + Z.of_nat (length l)) u.
Proof using All.
  induction l as [|t l IH]; intros s u n Hat Hs Hq Hreq Hsz Hcap; cbn [translate_all fmap list_fmap].
  - wp_step. exists s. split; [|split_and!; try done; simpl; lia]. unfold with_dom.
    destruct Hat as [_ _ Hd Hb _], u; simpl in *. by rewrite <-Hb, insert_id.
  - apply Forall_cons in Hreq as [[Hty Hns Hrd Ho Hn _ _ _] Hreq]. simpl length in Hcap.
    pose proof (q_consts _ _ Hq) as Hc. pose proof Hc as (_ & _ & _ & _ & _ & _ & _ & Ecap & _).
    assert (owner_ok (ds_dom s) (OData (t_lpa t))) as Hos by by apply (owner_ok_same _ _ _ Hc).
    set (k := d_kref (ds_dom s)). wp_step. eapply wp_translate_lpa; [exact Hat|done|].
    unfold translate_in_domain, dom. wp_step. wp_step. rewrite bool_decide_eq_true_2 by done. wp_step. wp_step.
    apply (wp_get_ppa P (t_lpa t) _ (setk (k + 1) s)); [by apply dom_inv_setk|done|right; simpl; lia|].
    intros s' Hs' Hq' Hsz'. cbv beta iota.
    assert (amap_of (setk (k + 1) s) (t_lpa t) = amap_of s0 (t_lpa t)) as -> by by apply (q_map _ _ Hq).
    rewrite (proj2 (Z.eqb_neq _ _) Hn). wp_step. wp_step.
    pose proof (q_consts _ _ Hq') as Hc'. split; [apply Hc'|].
    assert (quiet s (setk k s')) as Hq2.
    { destruct Hq' as [A1 A2 A3 A4 A5]. split; try done.
      destruct A3 as (? & ? & ? & ? & ? & ? & ? & ? & ?). by repeat split. }
    wp_step. eapply wp_mono; [apply (IH (setk k s') _ (n + 1))|].
    + apply (attached_with _ _ s); done.
    + by apply dom_inv_setk.
    + by eapply quiet_trans.
    + done.
    + simpl in *. lia.
    + lia.
    + intros [r l'] u' (s3 & -> & Hs3 & Hq3 & -> & -> & Hsz3). wp_step. exists s3. rewrite with_dom_with.
      split_and!; try done. simpl length. lia.
Qed.

(** The buffers after the reads. *)
Definition read_done (s s' : dom_st) (l : list flash_transaction) : Prop :=
  ∀ t i x, t ∈ l → (i < 4)%nat → in_range (t_offset t) (t_length t) (Z.of_nat i) →
    readsv s (t_lpa t) i x → ∃ b, buf_at s' (t_data t) = Some b ∧ b_data b !! i = Some x.
Record same_store (s s' : dom_st) (data : list Z) : Prop := {
  ss_dom : ds_dom s' = ds_dom s;
  ss_planes : bm_planes (ds_bm s') = bm_planes (ds_bm s);
  ss_nand : ∀ a, nandv s' a = nandv s a;
  ss_fs : m_fs (bm_mach (ds_bm s')) = m_fs (bm_mach (ds_bm s));
  ss_next : m_next (bm_mach (ds_bm s')) = m_next (bm_mach (ds_bm s));
  ss_buf : ∀ id, id ∉ data → buf_at s' id = buf_at s id;
  ss_some : ∀ id, is_Some (buf_at s id) → ∃ b, buf_at s' id = Some b ∧ length (b_data b) = 4%nat;
}.

Lemma same_store_inv P s s' l : same_store s s' l → dom_inv P None s →
  (∀ id b, buf_at s' id = Some b → is_Some (buf_at s id)) → dom_inv P None s'.
Proof using All.
  intros [D B N F X B1 B2] [Hb [Hm1 Hm2] Hi Hd] Hdom. split.
  - by eapply bm_inv_planes.
  - split; [lia|]. intros id b E. destruct (Hdom id b E) as [b0 E0]. destruct (Hm2 id b0 E0) as [? _].
    split; [lia|]. destruct (B2 id) as (b1 & E1 & ?); [by eexists|]. unfold buf_at in *. congruence.
  - intros id. rewrite D, X. apply Hi.
  - rewrite D. eapply dom_wf_frame; [exact Hd|intros; apply N|]. intros a Ha.
    rewrite (page_fresh_planes (ds_bm s)) in Ha by done. split; [done|]. rewrite N.
    by apply (dw_fresh _ _ _ _ _ Hd).
Qed.

Definition same_range (t t' : flash_transaction) : Prop :=
  same_buf t t' ∧ t_offset t' = t_offset t ∧ t_length t' = t_length t ∧ t_lpa t' = t_lpa t.
Lemma same_range_trans l1 l2 l3 : Forall2 same_range l1 l2 → Forall2 same_range l2 l3 → Forall2 same_range l1 l3.
Proof using All.
  intros H12. revert l3. induction H12 as [|x y l1 l2 Hxy _ IH]; intros l3 H23; [done|].
  apply Forall2_cons_inv_l in H23 as (z & l4 & Hyz & H & ->). constructor; [|by apply IH].
  destruct Hxy as ([] & ? & ? & ?), Hyz as ([] & ? & ? & ?). unfold same_range, same_buf. split_and!; congruence.
Qed.
Lemma wp_submit_reads nsid ptr s1 l : ∀ pre s u,
  attached nsid ptr s u → same_store s1 s (t_data <$> pre) →
  (∀ id b, buf_at s id = Some b → is_Some (buf_at s1 id)) → mem_wf (bm_mach (ds_bm s1)) →
  Forall (read_req nsid s1) l → NoDup (t_data <$> pre ++ l) → read_done s1 s pre →
  wp (submit_all (translated s1 <$> l)) (λ '(r, l') u', ∃ s', u' = with_dom ptr s' u ∧
    same_store s1 s' (t_data <$> pre ++ l) ∧ (∀ id b, buf_at s' id = Some b → is_Some (buf_at s1 id)) ∧
    r = R0 ∧ read_done s1 s' (pre ++ l) ∧ Forall2 same_range (translated s1 <$> l) l') u.
Proof using All.
  induction l as [|t l IH]; intros pre s u Hat Hss Hsub Hm Hreq Hnd Hdn; cbn [submit_all fmap list_fmap].
  - wp_step. exists s. rewrite app_nil_r. split; [|done]. unfold with_dom.
    destruct Hat as [_ _ Hd Hb _], u; simpl in *. by rewrite <-Hb, insert_id.
  - apply Forall_cons in Hreq as [[Hty Hns Hrd Ho Hn [pg Hpg] [Hd0 Hds] Hlen] Hreq].
    pose proof Hss as [D B N F X B1 B2]. rewrite fmap_app in Hnd. cbn [fmap list_fmap] in Hnd.
    assert (t_data t ∉ t_data <$> pre) as Hni.
    { apply NoDup_app in Hnd as (_ & Hx & _). intros Hin. apply (Hx _ Hin). by left. }
    destruct (B2 _ Hds) as (b & Hb & Hlb).
    wp_step. assert (t_ppa_ready (translated s1 t) = true) as -> by done. wp_step.
    replace (lget u) with (bm_mach (ds_bm s)) by (simpl; by rewrite (at_bm _ _ _ _ Hat)).
    set (t' := translated s1 t).
    assert (nand (m_dev (bm_mach (ds_bm s))) (t_addr t') = Some pg) as Hpg' by (unfold t'; simpl; rewrite <-Hpg; apply N).
    eapply wp_mono; [apply wp_and; [apply (wp_amu_submit_read t' b)|apply (wp_amu_submit_read_live t' b)]|]; try done.
    intros [r t2] m2 ((b2 & [(c & e1 & e2 & e3 & ->) Hfs Hnx Hme Hl2 Hoth Hr _]) & ->). cbv beta iota.
    rewrite (lset_with_dom nsid ptr s) by done. wp_step.
    assert (∀ id, buf_at (with_mach m2 s) id = if decide (id = t_data t) then Some b2 else buf_at s id) as Hbuf.
    { intros id. unfold buf_at. simpl. rewrite Hme. simpl. case_decide as E; subst.
      - apply lookup_insert_eq. - by rewrite lookup_insert_ne. }
    eapply wp_mono; [apply (IH (pre ++ [t]) (with_mach m2 s))|]; try done.
    + by apply (attached_with _ _ s).
    + split; simpl; try done.
      * intros a. rewrite <-N. apply Hoth. intros E. simpl in E. congruence.
      * congruence.
      * congruence.
      * intros id. rewrite fmap_app. intros Hid. rewrite Hbuf, decide_False by set_solver. apply B1. set_solver.
      * intros id Hid. rewrite Hbuf. case_decide; [by exists b2|]. by apply B2.
    + intros id b0. rewrite Hbuf. case_decide; [subst; done|]. apply Hsub.
    + rewrite fmap_app, fmap_app, <-app_assoc. exact Hnd.
    + intros t3 i x [Hin| ->%list_elem_of_singleton]%elem_of_app Hi Hrange Hx; rewrite Hbuf.
      * rewrite decide_False; [by apply (Hdn t3)|]. intros E. apply Hni. rewrite <-E. by apply list_elem_of_fmap_2.
      * rewrite decide_True by done. exists b2. split; [done|].
        destruct Hx as (_ & _ & p & Hp & Hx). change (amap _ _ _) with (amap_of s1 (t_lpa t)) in Hp.
        assert (agree (t_offset t) (t_length t) (b_data b2) pg) as Hag by (apply Hr; done).
        specialize (Hag (Z.of_nat i) ltac:(lia) Hrange). rewrite Nat2Z.id in Hag.
        unfold nandv in Hp, Hpg. congruence.
    + intros [r l'] u' (s3 & -> & Hss3 & Hsub3 & -> & Hd3 & Hsame). wp_step. exists s3.
      rewrite with_dom_with. rewrite <-app_assoc in *. do 4 (split; [done|]). split; [done|]. by constructor.
Qed.

Lemma read_req_quiet nsid s s' t : quiet s s' → read_req nsid s t → read_req nsid s' t.
Proof using All.
  intros [Q1 Q2 Q3 Q4 Q5] [R1 R2 R3 R4 R5 R6 R7 R8].
  assert (amap_of s' (t_lpa t) = amap_of s (t_lpa t)) as Em by by apply Q5.
  split; rewrite ?Em; try done.
  - by apply (owner_ok_same _ _ _ Q3).
  - unfold nandv. by rewrite (mq_nand _ _ Q2).
  - unfold buf_at. by rewrite (mq_mem _ _ Q2).
Qed.

Lemma readsv_ext s s' lpa i x : amap_of s' lpa = amap_of s lpa → (∀ a, nandv s' a = nandv s a) →
  readsv s' lpa i x ↔ readsv s lpa i x.
Proof using All.
  intros Em Hn. unfold readsv, reads. change (amap (nandv s') _ lpa) with (amap_of s' lpa).
  change (amap (nandv s) _ lpa) with (amap_of s lpa). rewrite Em. by rewrite Hn.
Qed.

(** Only the buffers of [data] may differ. *)
Record unchanged (s s' : dom_st) (data : list Z) : Prop := {
  un_map : ∀ lpa, owner_ok (ds_dom s) (OData lpa) → amap_of s' lpa = amap_of s lpa;
  un_nand : ∀ a, nandv s' a = nandv s a;
  un_bufs : ∀ id, id ∉ data → buf_at s' id = buf_at s id;
  un_some : ∀ id, is_Some (buf_at s id) → is_Some (buf_at s' id);
  un_next : m_next (bm_mach (ds_bm s)) ≤ m_next (bm_mach (ds_bm s'));
  un_size : pc_size (d_pcache (ds_dom s')) ≤ pc_size (d_pcache (ds_dom s)) + Z.of_nat (length data);
  un_planes : bm_planes (ds_bm s') = bm_planes (ds_bm s);
}.
Lemma unchanged_reads s s' data lpa i x : unchanged s s' data → owner_ok (ds_dom s) (OData lpa) →
  readsv s' lpa i x ↔ readsv s lpa i x.
Proof using All. intros [Hm Hn _ _ _ _ _] Ho. apply readsv_ext; [by apply Hm|done]. Qed.

Lemma wp_dispatch_reads P nsid ptr s u l :
  attached nsid ptr s u → dom_inv P None s → Forall (read_req nsid s) l → NoDup (t_data <$> l) →
  pc_size (d_pcache (ds_dom s)) + Z.of_nat (length l) ≤ pc_capacity (d_pcache (ds_dom s)) →
  wp (amu_dispatch l) (λ '(r, l') u', ∃ s', u' = with_dom ptr s' u ∧ dom_inv P None s' ∧ evolves s s' ∧
    r = R0 ∧ read_done s s' l ∧ unchanged s s' (t_data <$> l) ∧ Forall2 same_range l l') u.
Proof using All.
  intros Hat Hs Hreq Hnd Hcap.
  assert (u = with_dom ptr s u) as Eu.
  { unfold with_dom. destruct Hat as [_ _ Hd Hb _], u; simpl in *. by rewrite <-Hb, insert_id. }
  destruct l as [|t l]; cbn [amu_dispatch].
  { wp_step. exists s. split; [done|]. split; [done|]. split; [apply evolves_refl|]. split; [done|].
    split; [intros t i x []%elem_of_nil|]. split; [split; try done; simpl; lia|done]. }
  set (tl := t :: l) in *. assert (quiet s s) as Hq0.
  { by split. }
  wp_step. eapply wp_mono; [apply (wp_translate_reads P nsid ptr s tl s u 0); done || lia|].
  intros [r l1] u1 (s1 & -> & Hs1 & Hq & -> & -> & Hsz). cbv beta iota. wp_step.
  assert (Forall2 same_range tl (translated s1 <$> tl)) as Hsr.
  { apply Forall2_fmap_r, Forall_Forall2_diag, Forall_true. done. }
  assert (translated s <$> tl = translated s1 <$> tl) as ->.
  { apply list_fmap_ext. intros i x Hx. unfold translated. rewrite Forall_lookup in Hreq.
    assert (amap_of s1 (t_lpa x) = amap_of s (t_lpa x)) as ->; [|done]. apply (q_map _ _ Hq). by apply (Hreq i). }
  eapply wp_mono; [apply (wp_submit_reads nsid ptr s1 tl [] s1)|].
  - apply (attached_with _ _ s); [done|apply Hq].
  - split; try done. intros id [b Hb]. exists b. split; [done|]. by apply (mw_mem _ (di_mem _ _ _ Hs1)) in Hb as [].
  - intros id b ->. by eexists.
  - apply Hs1.
  - eapply Forall_impl; [exact Hreq|]. intros x. by apply read_req_quiet.
  - done.
  - intros ? ? ? []%elem_of_nil.
  - intros [r l'] u' (s2 & -> & Hss & Hsub & -> & Hdn & Hsame). cbv beta iota. wp_step. exists s2.
    rewrite with_dom_with. pose proof (same_store_inv P s1 s2 _ Hss Hs1 Hsub) as Hs2.
    destruct (quiet_evolves P s s1 Hs Hq) as [Hev Hmap].
    assert (∀ lpa i x, owner_ok (ds_dom s) (OData lpa) → readsv s1 lpa i x ↔ readsv s lpa i x) as Hrd1.
    { intros lpa i x Ho. apply readsv_ext; [by apply Hmap|]. apply (mq_nand _ _ (q_mach _ _ Hq)). }
    destruct Hss as [D B N F X B1 B2].
    assert (∀ lpa, amap_of s2 lpa = amap_of s1 lpa) as Hm2.
    { intros lpa. unfold amap_of, amap. rewrite D. f_equal. f_equal. unfold entries_at, words_at. by rewrite N. }
    split; [done|]. split; [done|]. split.
    { eapply evolves_trans; [exact Hev|]. apply evolves_map; try done; [by rewrite D|by rewrite D| |].
      - intros lpa _. left. by rewrite Hm2.
      - intros a Ha. by apply (page_fresh_planes (ds_bm s1) (ds_bm s2)). }
    split; [done|]. split.
    + intros t0 i x Hin Hi Hra Hx. apply (Hdn t0 i x); [done..|]. apply Hrd1; [|done].
      rewrite Forall_forall in Hreq. by apply Hreq.
    + split; [|by eapply same_range_trans]. destruct Hq as [Q0 [Q1 Q2 _ Q3] _ _ _]. split.
      * intros lpa Ho. rewrite Hm2. by apply Hmap.
      * intros a. rewrite N. apply Q1.
      * intros id Hid. rewrite B1 by done. unfold buf_at. by rewrite Q2.
      * intros id Hid. destruct (B2 id) as (b & -> & _); [|by eexists]. unfold buf_at in *. by rewrite Q2.
      * rewrite X. done.
      * rewrite D, length_fmap. lia.
      * by rewrite B.
Qed.
End dispatch.
