(* ===== verification/AmuFlush.v ===== *)
(** Writing a namespace out and reading it back: flushing translation pages,
    saving and restoring the directory, attaching and detaching. *)
From S2P Require Import Prelude Bitmap Avl Flash Machine Sim BlockManager BlockMaps Amu AmuFacts AmuSpec AmuWrite AmuDispatch.

Lemma filter_all_in {A} (P : A → Prop) `{∀ x, Decision (P x)} (l : list A) :
  (∀ x, x ∈ l → P x) → filter P l = l.
Proof.
  induction l as [|x l IH]; intros HP; [done|].
  rewrite filter_cons_True by (apply HP; by left). f_equal. apply IH. intros y Hy. apply HP. by right.
Qed.

Section flush.
Context {PL : Platform} {PO : @PlatformOk PL} {EL : @EccLive PL} {AL : @AllocLive PL} {RL : @ReadLive PL}
  {WL : @WriteLive PL}.

(** * One translation page *)
Lemma page_of_words_ok ws : length ws = (4 * 1024)%nat →
  concat (page_of_words ws) = ws ∧ length (page_of_words ws) = 4%nat ∧
  Forall (λ s, length s = 1024%nat) (page_of_words ws).
Proof using All.
  intros Hl. unfold page_of_words. change (seq 0 4) with [0;1;2;3]%nat. cbn [fmap list_fmap concat].
  split; [|split; [done|]].
  - assert (∀ k, take 1024 (drop k ws) ++ drop (k + 1024) ws = drop k ws) as Hk
      by (intros k; rewrite <-drop_drop; apply take_drop).
    assert (take 1024 (drop (1024 * 3) ws) = drop (1024 * 3) ws) as -> by (apply take_ge; rewrite length_drop; lia).
    rewrite app_nil_r. pose proof (Hk (1024 * 2)%nat) as H2. pose proof (Hk (1024 * 1)%nat) as H1.
    pose proof (Hk (1024 * 0)%nat) as H0. rewrite drop_0 in H0 at 2.
    change (1024 * 2 + 1024)%nat with (1024 * 3)%nat in H2. change (1024 * 1 + 1024)%nat with (1024 * 2)%nat in H1.
    change (1024 * 0 + 1024)%nat with (1024 * 1)%nat in H0. by rewrite H2, H1, H0.
  - repeat constructor; rewrite length_take, length_drop; lia.
Qed.

Lemma page_of_words_app ws r : length ws = (4 * 1024)%nat → page_of_words (ws ++ r) = page_of_words ws.
Proof using All.
  intros Hl. unfold page_of_words. change (seq 0 4) with [0;1;2;3]%nat. cbn [fmap list_fmap].
  repeat (rewrite drop_app_le, take_app_le by (rewrite ?length_drop; lia)). done.
Qed.

Definition all_clean (d : am_domain) : Prop := ∀ id x, pages d !! id = Some x → xp_dirty x = false.

(** The state after [xpc_flush_page]: the page is clean and the directory
    points to its copy. *)
Record flush_post (P : flash_address → Prop) (pin : option Z) (id : Z) (x : xlate_page) (s s' : dom_st) : Prop := {
  fp_inv : dom_inv P pin s';
  fp_ev : evolves s s';
  fp_map : ∀ l, owner_ok (ds_dom s) (OData l) → amap_of s' l = amap_of s l;
  fp_data : ∀ l, owner_ok (ds_dom s) (OData l) → xe_ppa (amap_of s l) ≠ NO_PPA →
    nandv s' (ppa_to_address (xe_ppa (amap_of s l))) = nandv s (ppa_to_address (xe_ppa (amap_of s l)));
  fp_ready : ∀ n, bm_ready (S n) (ds_bm s) → bm_ready n (ds_bm s');
  fp_mem : m_mem (bm_mach (ds_bm s')) = m_mem (bm_mach (ds_bm s));
  fp_next : m_next (bm_mach (ds_bm s)) ≤ m_next (bm_mach (ds_bm s'));
  fp_pages : pages (ds_dom s') = <[id := set_xp_dirty false x]> (pages (ds_dom s));
  fp_tree : pc_root (d_pcache (ds_dom s')) = pc_root (d_pcache (ds_dom s));
  fp_lru : pc_lru_list (d_pcache (ds_dom s')) = pc_lru_list (d_pcache (ds_dom s));
}.

Lemma flush_addr_ok s v : 0 ≤ gtd_at (ds_dom s) v < TOTAL_PAGES → addr_ok (ppa_to_address (gtd_at (ds_dom s) v)).
Proof using All. apply ppa_to_address_ok. Qed.

Lemma wp_alloc_for_mapping P pin t v (Q : rc * flash_transaction → dom_st → Prop) s :
  dom_inv P pin s → 0 ≤ v < d_total_xlate_pages (ds_dom s) → bm_ready 1 (ds_bm s) → plane_ok (t_addr t) →
  (∀ a b', bm_inv b' → bm_mach b' = bm_mach (ds_bm s) → addr_ok a → page_fresh (ds_bm s) a →
     (∀ a', page_fresh b' a' ↔ page_fresh (ds_bm s) a' ∧ a' ≠ a) →
     (∀ n, bm_ready (S n) (ds_bm s) → bm_ready n b') →
     Q (R0, set_t_ppa (address_to_ppa a) (set_t_addr a t)) (DomSt _ b' (ds_dom s))) →
  wp (alloc_page_for_mapping t v false) Q s.
Proof using All.
  intros [Hb Hm Hi Hd] Hv Hr Hpl HQ. unfold alloc_page_for_mapping, dom. wp_step. wp_step. wp_step.
  apply wp_deref. exists (gtd_at (ds_dom s) v). pose proof (dw_gtd _ _ _ _ _ Hd).
  split; [apply gtd_lookup; lia|].
  assert (∀ b1, bm_inv b1 → bm_mach b1 = bm_mach (ds_bm s) → (∀ a, page_fresh b1 a ↔ page_fresh (ds_bm s) a) →
    (∀ n, bm_ready n (ds_bm s) → bm_ready n b1) →
    wp (addr ← lift (bm_alloc_page (t_nsid t) (t_addr t) false true);
        mret (R0, set_t_ppa (address_to_ppa addr) (set_t_addr addr t))) Q (DomSt _ b1 (ds_dom s))) as Halloc.
  { intros b1 Hb1 Em1 Hf1 Hr1. destruct (Hb1 _ Hpl) as (pl & Hpl1 & _).
    destruct (Hr1 _ Hr _ pl Hpl Hpl1) as [Hwf _]. destruct (Hwf false true) as [w Hw].
    wp_step. wp_step. amu_cbn. eapply wp_mono; [by eapply wp_bm_alloc|].
    intros a b' (Hb' & Em & _ & Ha & _ & Hfr & Hfr' & Hready). cbv beta. wp_step. apply HQ; [done|congruence|done|by apply Hf1| |].
    - intros a'. by rewrite Hfr', Hf1.
    - intros n Hn. by apply Hready, Hr1. }
  wp_step. wp_step. destruct (Z.eqb_spec (gtd_at (ds_dom s) v) NO_MPPN) as [E|E]; simpl negb; cbv iota.
  - specialize (Halloc (ds_bm s) Hb eq_refl ltac:(done) ltac:(done)). by destruct s.
  - wp_step. amu_cbn. eapply wp_mono; [apply wp_bm_invalidate; [|done]|].
    + apply ppa_to_address_ok. by destruct (dw_ref _ _ _ _ _ Hd (OXlate v) Hv E).
    + intros [] b1 (? & ? & ? & ?). cbv beta. by apply Halloc.
Qed.

Lemma wp_xpc_flush_page P pin id x s :
  dom_inv P pin s → pages (ds_dom s) !! id = Some x → bm_ready 1 (ds_bm s) → xp_dirty x = true →
  wp (xpc_flush_page id) (λ r s', r = R0 ∧ flush_post P pin id x s s') s.
Proof using All.
  intros Hs Hx Hr Hdirty. pose proof Hs as [Hb Hm Hi Hd]. unfold xpc_flush_page, dom.
  destruct (dw_page _ _ _ _ _ Hd id x Hx) as (Hv & Hl & _).
  wp_steps. eapply wp_page_at; [done|]. rewrite Hdirty. simpl negb. cbv iota. wp_steps.
  apply wp_alloc_live; [done|]. amu_cbn. set (m := bm_mach (ds_bm s)) in *. intros Hn0 Hnone.
  rewrite (proj2 (Z.eqb_neq (m_next m) 0)) by lia. wp_step. wp_step. amu_cbn.
  eapply wp_load; [simpl; apply lookup_insert_eq|]. rewrite (dw_ents _ _ _ _ _ Hd).
  wp_step. wp_step; [apply Nat.leb_le; lia|]. set (ws := xe_ppa <$> xp_entries x).
  assert (length ws = (4 * 1024)%nat) as Hwl by (unfold ws; rewrite length_fmap, Hl; by vm_compute).
  rewrite (take_ge (xp_entries x)) by lia. fold ws. rewrite page_of_words_app by done.
  destruct (page_of_words_ok ws Hwl) as (Hpw & Hp4 & Hpf).
  set (b1 := Buf (page_of_words ws) _). wp_step. wp_step. amu_cbn.
  eapply wp_store; [simpl; apply lookup_insert_eq|]. simpl m_mem. rewrite insert_insert_eq.
  wp_step. apply wp_deref. rewrite assign_plane_stripe. eexists; split; [done|]. wp_step.
  set (m1 := set_mem _ _). set (s1 := with_mach m1 s).
  assert (mach_buf (m_next m) b1 m m1) as Hmb1 by (split; simpl; done || lia).
  assert (dom_inv P pin s1) as Hs1.
  { split.
    - by eapply bm_inv_planes; [|exact Hb].
    - split; simpl; [lia|]. intros j y. destruct (decide (j = m_next m)) as [->|Hne].
      + rewrite lookup_insert_eq. intros [= <-]. split; [lia|done].
      + rewrite lookup_insert_ne by done. intros Hy. apply (mw_mem _ Hm) in Hy as [? ?]. split; [lia|done].
    - simpl. intros j Hj%Hi. fold m in Hj. lia.
    - eapply dom_wf_frame; [exact Hd|done|]. intros a Ha. split; [done|]. by apply (dw_fresh _ _ _ _ _ Hd). }
  eapply (wp_alloc_for_mapping P pin); [exact Hs1|done|done|apply stripe_ok|].
  intros a b' Hb' Em Ha Hfr Hfr' Hready. set (txn := set_t_ppa _ _). set (s2 := DomSt _ b' (ds_dom s1)).
  cbv beta iota. wp_step. wp_step. unfold s2. amu_cbn. rewrite Em. change (bm_mach (ds_bm s1)) with m1.
  assert (nand (m_dev m1) (t_addr txn) = None) as Her.
  { simpl. by destruct (dw_fresh _ _ _ _ _ (di_dom _ _ _ Hs1) a Hfr) as [? _]. }
  eapply wp_mono; [apply wp_and; [apply (wp_amu_submit_write txn b1 m1)|apply (wp_amu_submit_write_live txn b1 m1)]|];
    try done; try (simpl; lia); try (simpl; apply lookup_insert_eq).
  intros [r t2] m2 ((b2 & [(c & e1 & e2 & e3 & ->) Hfs Hnx Hme _ Hoth _ Hwr]) & ->). cbv beta iota.
  destruct (Hwr eq_refl eq_refl Her) as [-> (pg & Hpg & Hpl & Hag)].
  assert (pg = page_of_words ws) as -> by (apply agree_full; [done|done|exact Hag]).
  wp_step. wp_step. eapply wp_upd_page; [exact Hx|]. unfold upd_dom. wp_step. wp_step. wp_step. amu_cbn.
  apply wp_free_mem; [simpl; rewrite Hme; simpl; rewrite insert_insert_eq, lookup_insert_eq; eauto|]. wp_step.
  pose proof (address_to_ppa_bound a Ha) as Hppa. pose proof (ppa_address_ppa a Ha) as Eaa.
  split; [done|]. match goal with |- flush_post _ _ _ _ _ ?z => set (s3 := z) end.
  assert (m_mem (bm_mach (ds_bm s3)) = m_mem m) as Emem.
  { simpl. rewrite Hme. simpl. by rewrite insert_insert_eq, delete_insert_eq, delete_id. }
  assert (∀ a', a' ≠ a → nandv s3 a' = nandv s a') as Hnd.
  { intros a' Hne. unfold nandv at 1. simpl. rewrite Hoth; [done|]. intros _ E. simpl in E. congruence. }
  assert (∀ a', page_fresh (ds_bm s3) a' ↔ page_fresh (ds_bm s) a' ∧ a' ≠ a) as Hf3.
  { intros a'. exact (Hfr' a'). }
  assert (page_fresh (ds_bm s) a) as Hfr0 by done.
  destruct (dom_wf_flushed (nandv s) (nandv s3) (page_fresh (ds_bm s)) (page_fresh (ds_bm s3)) P pin (ds_dom s) id x
    (address_to_ppa a) (page_of_words ws)) as (Hd3 & Hsm & Hc3); rewrite ?Eaa; try done.
  assert (ds_dom s3 = flushed id x (address_to_ppa a) (ds_dom s)) as Ed3 by done.
  assert (dom_inv P pin s3) as Hs3.
  { split.
    - by eapply bm_inv_planes; [|exact Hb'].
    - split; [simpl; rewrite Hnx; simpl; lia|]. intros j y. rewrite Emem. intros Hy.
      apply (mw_mem _ Hm) in Hy as [? ?]. split; [simpl; rewrite Hnx; simpl; fold m; lia|done].
    - intros j. rewrite Ed3. unfold pages. simpl. rewrite put_is_Some by eauto. intros Hj%Hi. rewrite Hnx. simpl. fold m in Hj. lia.
    - done. }
  split; try done; [| |simpl; rewrite Hnx; simpl; fold m; lia].
  - split; try done.
    + intros [l|v] Ho Hn; cbn [ref] in *.
      * left. rewrite Ed3, Hsm; done.
      * rewrite Ed3 in *. rewrite gtd_at_flushed in * by (pose proof (dw_gtd _ _ _ _ _ Hd); destruct Ho; lia).
        case_decide; [right; by rewrite Eaa|by left].
    + intros a' Ha'. by apply Hf3 in Ha' as [].
    + intros a' Ha'. apply Hnd. intros ->. done.
  - intros l Ho Hn. apply Hnd. intros E. destruct (dw_ref _ _ _ _ _ Hd (OData l) Ho Hn) as (_ & Hnf & _).
    apply Hnf. cbn [ref]. change (amap (nandv s) (ds_dom s) l) with (amap_of s l). by rewrite E.
Qed.

(** * All translation pages *)
(** The logical content is the same. *)
Record same_content (s s' : dom_st) : Prop := {
  sc_ev : evolves s s';
  sc_map : ∀ l, owner_ok (ds_dom s) (OData l) → amap_of s' l = amap_of s l;
  sc_data : ∀ l, owner_ok (ds_dom s) (OData l) → xe_ppa (amap_of s l) ≠ NO_PPA →
    nandv s' (ppa_to_address (xe_ppa (amap_of s l))) = nandv s (ppa_to_address (xe_ppa (amap_of s l)));
  sc_mem : m_mem (bm_mach (ds_bm s')) = m_mem (bm_mach (ds_bm s));
  sc_next : m_next (bm_mach (ds_bm s)) ≤ m_next (bm_mach (ds_bm s'));
}.
Lemma same_content_refl s : same_content s s.
Proof using All. split; try done. apply evolves_refl. Qed.
Lemma same_content_trans s1 s2 s3 : same_content s1 s2 → same_content s2 s3 → same_content s1 s3.
Proof using All.
  intros [E1 M1 D1 X1 N1] [E2 M2 D2 X2 N2].
  assert (∀ l, owner_ok (ds_dom s1) (OData l) → owner_ok (ds_dom s2) (OData l)) as Ho
    by (intros l Hl; by apply (owner_ok_same _ _ _ (ev_consts _ _ E1))).
  split.
  - by eapply evolves_trans.
  - intros l Hl. rewrite M2, M1; auto.
  - intros l Hl Hn. rewrite <-D1 by done. rewrite <-(M1 l Hl) in *. apply D2; auto.
  - congruence.
  - lia.
Qed.
Lemma quiet_content P s s' : dom_inv P None s ∨ dom_inv P None s' → quiet s s' → same_content s s'.
Proof using All.
  intros _ [Q1 Q2 Q3 Q4 Q5]. split; [|done| |apply Q2|apply Q2].
  - apply evolves_map; [done|done| | |apply Q2|apply Q2].
    + intros l Ho. left. unfold amap_of. by rewrite Q5.
    + intros a Ha. by apply (page_fresh_planes (ds_bm s) (ds_bm s')).
  - intros l _ _. apply Q2.
Qed.

Lemma wp_release_end id x (Q : () → dom_st → Prop) s :
  pages (ds_dom s) !! id = Some x → xp_pin_count x = 1 →
  Q tt (set_dom (released id x (ds_dom s)) s) → wp (mutex_unlock id ≫= λ _, xpc_unpin id) Q s.
Proof using All.
  intros Hx Hp HQ. pose proof (wp_release id x (mret tt) Q s Hx Hp HQ) as Hw.
  apply wp_bind. apply wp_bind in Hw. eapply wp_mono; [exact Hw|]. intros [] s' Hw'.
  apply wp_bind in Hw'. eapply wp_mono; [exact Hw'|]. by intros [] ?.
Qed.

(** One page of [flush_domain]. *)
Lemma wp_flush_one P id x s : dom_inv P None s → pages (ds_dom s) !! id = Some x → bm_ready 1 (ds_bm s) →
  xp_dirty x = true →
  wp (xpc_pin id ≫= λ _, mutex_lock id ≫= λ _, xpc_flush_page id ≫= λ _, mutex_unlock id ≫= λ _, xpc_unpin id)
    (λ _ s', dom_inv P None s' ∧ same_content s s' ∧ (∀ n, bm_ready (S n) (ds_bm s) → bm_ready n (ds_bm s')) ∧
      ∃ y, xp_dirty y = false ∧ pages (ds_dom s') = <[id := y]> (pages (ds_dom s))) s.
Proof using All.
  intros Hs Hx Hr Hd. destruct (dom_inv_take P s id x Hs Hx) as (Hp & Hs1 & Hq1).
  eapply wp_take; [done..|]. set (s1 := set_dom _ s) in *. set (x1 := set_xp_owned true (set_xp_pin 1 x)).
  assert (pages (ds_dom s1) !! id = Some x1) as Hx1 by apply lookup_insert_eq.
  wp_step. eapply wp_mono; [apply (wp_xpc_flush_page P (Some id) id x1 s1); done|].
  intros r s2 (-> & [Hs2 Hev Hmap Hdat Hready Hmem Hnx Hpg _ _]).
  assert (pages (ds_dom s2) !! id = Some (set_xp_dirty false x1)) as Hx2 by (rewrite Hpg; apply lookup_insert_eq).
  destruct (dom_inv_release P s2 id _ Hs2 Hx2) as (Hp2 & Hs3 & Hq3).
  eapply wp_release_end; [exact Hx2|done|]. split; [done|]. split; [|split].
  - eapply same_content_trans; [apply (quiet_content P); [by left|exact Hq1]|].
    eapply same_content_trans; [|apply (quiet_content P); [by right|exact Hq3]]. by split.
  - intros n Hn. by apply Hready.
  - eexists; split; [|unfold pages at 1; simpl; unfold pages in Hpg; rewrite Hpg; simpl; rewrite !insert_insert_eq; reflexivity].
    done.
Qed.

(** All translation pages of [s0] have been flushed; at most [n] pages were
    taken for that. *)
Record domain_flushed (P : flash_address → Prop) (n : nat) (s0 s' : dom_st) : Prop := {
  df_inv : dom_inv P None s';
  df_content : same_content s0 s';
  df_keys : base.dom (pages (ds_dom s')) = base.dom (pages (ds_dom s0));
  df_clean : all_clean (ds_dom s');
  df_ready : ∀ m, bm_ready (n + m) (ds_bm s0) → bm_ready m (ds_bm s');
}.
Lemma wp_flush_loop P n s0 fuel : ∀ it ids s, it_ok it → it_elems it = ids → (length ids ≤ fuel)%nat →
  dom_inv P None s → same_content s0 s → base.dom (pages (ds_dom s)) = base.dom (pages (ds_dom s0)) →
  (∀ id, id ∈ ids → is_Some (pages (ds_dom s) !! id)) →
  (∀ id x, pages (ds_dom s) !! id = Some x → id ∉ ids → xp_dirty x = false) →
  bm_ready (length ids) (ds_bm s) → (∀ m, bm_ready (n + m) (ds_bm s0) → bm_ready (length ids + m) (ds_bm s)) →
  wp (flush_loop fuel it) (λ _ s', domain_flushed P n s0 s') s.
Proof using All.
  induction fuel as [|fuel IH]; intros it ids s Hit Hel Hle Hs Hsc Hk Hin Hcl Hr Hrm; cbn [flush_loop];
    rewrite (get_iter_elems it Hit), Hel; destruct ids as [|id ids]; cbn [hd_error]; cbv beta iota.
  - wp_step. split; try done. intros id x Hx. eapply Hcl; [done|]. apply not_elem_of_nil.
  - simpl in Hle. lia.
  - wp_step. split; try done. intros id x Hx. eapply Hcl; [done|]. apply not_elem_of_nil.
  - destruct (inc_iter_elems it Hit) as [Hel' Hit']. rewrite Hel in Hel'. simpl in Hel', Hle.
    destruct (Hin id ltac:(by left)) as [x Hx]. wp_step. eapply wp_page_at; [done|].
    wp_step. wp_step. destruct (xp_dirty x) eqn:Ed.
    + eapply wp_mono; [apply (wp_flush_one P id x s); [done|done| |done]|].
      { eapply bm_ready_le; [|exact Hr]. simpl. lia. }
      intros [] s1 (Hs1 & Hsc1 & Hr1 & y & Hy & Hpg). cbv beta.
      apply (IH _ ids); [done|done|lia|done|by eapply same_content_trans| | | |by apply Hr1|intros m Hm; by apply Hr1, Hrm].
      * rewrite Hpg, dom_insert_L, <-Hk. apply elem_of_dom_2 in Hx. set_solver.
      * intros j Hj. rewrite Hpg. apply put_is_Some; [by eexists|]. apply Hin. by right.
      * intros j z. rewrite Hpg. destruct (decide (j = id)) as [->|Hne].
        -- rewrite lookup_insert_eq. intros [= <-] _. done.
        -- rewrite lookup_insert_ne by done. intros Hz Hj. apply (Hcl j z Hz). set_solver.
    + apply (IH _ ids); [done|done|lia|done|done|done| | | |intros m Hm; eapply bm_ready_le; [|by apply Hrm]; simpl; lia].
      * intros j Hj. apply Hin. by right.
      * intros j z Hz Hj. destruct (decide (j = id)) as [->|Hne]; [congruence|]. apply (Hcl j z Hz). set_solver.
      * eapply bm_ready_le; [|exact Hr]. simpl. lia.
Qed.

Lemma wp_flush_domain P s : dom_inv P None s → pc_size (d_pcache (ds_dom s)) < 65535 →
  height (pc_root (d_pcache (ds_dom s))) ≤ Z.of_nat AVL_MAX_DEPTH →
  bm_ready (Z.to_nat (pc_size (d_pcache (ds_dom s)))) (ds_bm s) →
  wp flush_domain (λ _ s', domain_flushed P (Z.to_nat (pc_size (d_pcache (ds_dom s)))) s s') s.
Proof using All.
  intros Hs Hsz Hh Hr. unfold flush_domain, dom. wp_step. wp_step.
  pose proof (dw_pc _ _ _ _ _ (di_dom _ _ _ Hs)) as Hp. pose proof (dw_page _ _ _ _ _ (di_dom _ _ _ Hs)) as Hpg.
  destruct (start_iter_elems (xpc_key (pc_pages (d_pcache (ds_dom s)))) 0 (pc_root (d_pcache (ds_dom s))))
    as [Hel Hit]; [apply (xw_tree _ _ Hp)|done|].
  assert (it_elems (avl_start_iter (xpc_key (pc_pages (d_pcache (ds_dom s)))) (pc_root (d_pcache (ds_dom s))) 0
     AVL_GREATER_EQUAL) = inorder (pc_root (d_pcache (ds_dom s)))) as Hel'.
  { rewrite Hel. apply filter_all_in. intros id Hid. apply (xw_ids _ _ Hp) in Hid as [x Hx].
    destruct (Hpg id x Hx) as ([H0 _] & _). unfold kge. rewrite (xpc_key_Some _ _ x) by done.
    unfold kcmp, Z_ordkey. repeat case_match; lia. }
  eapply (wp_flush_loop P _ s); [done|exact Hel'|done|done|apply same_content_refl|done| | | |].
  - intros id Hid. by apply (xw_ids _ _ Hp).
  - intros id x Hx Hid. exfalso. apply Hid. apply (xw_ids _ _ Hp). by eexists.
  - rewrite (xw_size _ _ Hp), Nat2Z.id in Hr. done.
  - intros m. by rewrite (xw_size _ _ Hp), Nat2Z.id.
Qed.
Lemma pc_size_keys P s : dom_inv P None s → pc_size (d_pcache (ds_dom s)) = Z.of_nat (size (base.dom (pages (ds_dom s)))).
Proof using All.
  intros Hs. pose proof (dw_pc _ _ _ _ _ (di_dom _ _ _ Hs)) as Hp. rewrite (xw_size _ _ Hp). f_equal.
  assert (NoDup (inorder (pc_root (d_pcache (ds_dom s))))) as Hnd by (eapply keys_sorted_nodup, (xw_tree _ _ Hp)).
  assert (base.dom (pages (ds_dom s)) = list_to_set (inorder (pc_root (d_pcache (ds_dom s))))) as ->.
  { apply set_eq. intros id. by rewrite elem_of_dom, elem_of_list_to_set, (xw_ids _ _ Hp). }
  by rewrite size_list_to_set.
Qed.

(** * Dropping a cache *)
Record cache_ok (p : xlate_pcache) : Prop := {
  co_tree : avl_ok (xpc_key (pc_pages p)) (pc_root p);
  co_ids : ∀ id, id ∈ inorder (pc_root p) ↔ is_Some (pc_pages p !! id);
  co_pin : ∀ id x, pc_pages p !! id = Some x → xp_pin_count x = 0;
}.

Lemma wp_xpc_free_loop fuel : ∀ s, cache_ok (d_pcache (ds_dom s)) →
  (length (inorder (pc_root (d_pcache (ds_dom s)))) ≤ fuel)%nat →
  wp (xpc_free_loop fuel) (λ _ s', ds_bm s' = ds_bm s ∧ pc_root (d_pcache (ds_dom s')) = Leaf ∧
    ∃ p, ds_dom s' = set_d_pcache p (ds_dom s)) s.
Proof using All.
  induction fuel as [|fuel IH]; intros s Hok Hle; cbn [xpc_free_loop]; unfold dom; wp_step; wp_step;
    destruct (pc_root (d_pcache (ds_dom s))) as [|l id h r] eqn:Er.
  1,3: wp_step; split; [done|]; split; [done|]; exists (d_pcache (ds_dom s)); by destruct (ds_dom s).
  - simpl in Hle. rewrite length_app in Hle. simpl in Hle. lia.
  - pose proof Hok as [Ht Hi Hp]. rewrite Er in Ht, Hi.
    destruct (proj1 (Hi id)) as [x Hx]; [simpl; set_solver|].
    wp_step. eapply wp_page_at; [exact Hx|]. wp_step. wp_step; [apply Z.eqb_eq; by eapply Hp|].
    unfold upd_pc, upd_dom. wp_steps.
    match goal with |- wp _ _ ?z => set (s1 := z) end.
    destruct (avl_ok_erase (xpc_key (pc_pages (d_pcache (ds_dom s)))) id _ Ht) as [Ht' Hin'].
    assert (pc_root (d_pcache (ds_dom s1)) = avl_erase (xpc_key (pc_pages (d_pcache (ds_dom s)))) id (Node l id h r)) as Er1
      by (simpl; by rewrite Er).
    assert (pc_pages (d_pcache (ds_dom s1)) = delete id (pc_pages (d_pcache (ds_dom s)))) as Ep1 by done.
    assert (∀ j, j ∈ inorder (pc_root (d_pcache (ds_dom s1))) ↔ j ∈ inorder (Node l id h r) ∧ j ≠ id) as Hin1.
    { intros j. rewrite Er1, Hin'. split; intros [Hj Hne]; (split; [done|]).
      - by intros ->.
      - intros E. apply Hne. by eapply (keys_sorted_inj _ _ _ _ (proj1 Ht)); [done|simpl; set_solver|]. }
    eapply wp_mono; [apply IH|].
    + split.
      * rewrite Ep1, Er1. eapply avl_ok_ext; [|exact Ht']. intros j Hj. unfold xpc_key.
        rewrite lookup_delete_ne; [done|]. intros <-. rewrite <-Er1 in Hj. by apply Hin1 in Hj as [].
      * intros j. rewrite Hin1, Hi, Ep1. destruct (decide (j = id)) as [->|Hne].
        -- rewrite lookup_delete_eq. split; [by intros []|by intros []].
        -- rewrite lookup_delete_ne by done. naive_solver.
      * intros j z. rewrite Ep1. intros [_ Hz]%lookup_delete_Some. by eapply Hp.
    + rewrite Er1, inorder_erase by apply Ht. unfold lerase.
      enough (length (filter (λ y, kcmp (xpc_key (pc_pages (d_pcache (ds_dom s))) id)
        (xpc_key (pc_pages (d_pcache (ds_dom s))) y) ≠ 0%Z) (inorder (Node l id h r))) < length (inorder (Node l id h r)))%nat by lia.
      apply length_filter_lt with id; [simpl; set_solver|]. intros Hn. apply Hn, kcmp_refl.
    + intros [] s2 (Hb & Hl & p & Ed). split; [done|]. split; [done|]. exists p. rewrite Ed. done.
Qed.
Lemma wp_xpc_free s : cache_ok (d_pcache (ds_dom s)) →
  wp xpc_free (λ _ s', ds_bm s' = ds_bm s ∧ pc_root (d_pcache (ds_dom s')) = Leaf ∧
    ∃ p, ds_dom s' = set_d_pcache p (ds_dom s)) s.
Proof using All. intros Hok. unfold xpc_free, dom. wp_step. wp_step. by apply wp_xpc_free_loop. Qed.
Lemma xpc_wf_cache_ok p : xpc_wf None p → cache_ok p.
Proof using All. intros [Ht Hi _ _ _ Hp]. split; [done|done|]. intros id x Hx. by apply Hp in Hx as [-> _]. Qed.
End flush.
