(* ===== verification/AmuAttach.v ===== *)
(** Attaching and detaching a namespace: the directory file, the domain object,
    and what a namespace holds after it has been detached and attached again. *)
From S2P Require Import Prelude Bitmap Avl Flash Machine BlockManager Amu AmuFacts AmuSpec AmuWrite AmuDispatch AmuFlush.

(** * A domain with an empty cache *)
Definition cold (d : am_domain) : Prop := ∃ c, d_pcache d = xpc_init c.
Lemma cold_wf d : cold d → xpc_wf None (d_pcache d).
Proof.
  intros [c ->]. split; simpl; try done.
  - split; [constructor|done].
  - intros id. rewrite lookup_empty. split; [set_solver|by intros []].
  - constructor.
  - intros id. rewrite lookup_empty. split; [set_solver|by intros [[] _]].
Qed.
Lemma cold_pages d : cold d → pages d = ∅.
Proof. by intros [c E]; unfold pages; rewrite E. Qed.
Lemma entries_cold nd d v : cold d → entries_at nd d v =
  if gtd_at d v =? NO_MPPN then replicate (Z.to_nat ENTS) (Xe NO_PPA 0)
  else (λ w, Xe w full_page_bitmap) <$> words_at nd (gtd_at d v).
Proof. intros [c E]. unfold entries_at. by rewrite E. Qed.

(** A translation page that is clean, or not cached, says what the flash says. *)
Lemma entries_clean nd (fr P : flash_address → Prop) d v : dom_wf nd fr P None d → all_clean d →
  0 ≤ v < d_total_xlate_pages d →
  xe_ppa <$> entries_at nd d v =
    if gtd_at d v =? NO_MPPN then replicate (Z.to_nat ENTS) NO_PPA else words_at nd (gtd_at d v).
Proof.
  intros Hwf Hc Hv. unfold entries_at. destruct (cached (d_pcache d) v) as [x|] eqn:E.
  - apply (cached_spec None) in E as (id & Hx & <-); [|apply Hwf].
    destruct (dw_page _ _ _ _ _ Hwf _ _ Hx) as (_ & _ & Hp).
    destruct Hp as [Hg ->]; [by eapply Hc|]. by rewrite (proj2 (Z.eqb_neq _ _) Hg).
  - case_match; [by rewrite fmap_replicate|]. rewrite <-list_fmap_compose. apply list_fmap_id.
Qed.

Record same_dir (d d' : am_domain) : Prop := {
  sd_ents : d_xlate_ents_per_page d' = ENTS;
  sd_total : d_total_xlate_pages d' = d_total_xlate_pages d;
  sd_len : d_total_xlate_pages d ≤ Z.of_nat (length (d_gtd d'));
  sd_gtd : ∀ v, 0 ≤ v < d_total_xlate_pages d → gtd_at d' v = gtd_at d v;
}.
Lemma amap_ppa nd d lpa : xe_ppa (amap nd d lpa) =
  default NO_PPA ((xe_ppa <$> entries_at nd d (lpa / ENTS)) !! Z.to_nat (lpa mod ENTS)).
Proof. unfold amap. rewrite list_lookup_fmap. by destruct (entries_at _ _ _ !! _). Qed.

(** Rebuilding a domain from its directory keeps where every page is. *)
Lemma dom_wf_rebuilt nd (fr P : flash_address → Prop) d d' : dom_wf nd fr P None d → all_clean d →
  same_dir d d' → cold d' →
  dom_wf nd fr P None d' ∧ ∀ lpa, owner_ok d (OData lpa) →
    xe_ppa (amap nd d' lpa) = xe_ppa (amap nd d lpa) ∧
    (xe_ppa (amap nd d lpa) ≠ NO_PPA → xe_bitmap (amap nd d' lpa) = full_page_bitmap).
Proof.
  intros Hwf Hcl [He Ht Hl Hg] Hcold.
  assert (∀ lpa, owner_ok d (OData lpa) → xe_ppa (amap nd d' lpa) = xe_ppa (amap nd d lpa)) as Hppa.
  { intros lpa Ho. destruct (lpa_slot _ _ Ho) as [Hv _].
    rewrite !amap_ppa, (entries_clean _ _ _ _ _ Hwf Hcl Hv), entries_cold, Hg by done.
    case_match; [by rewrite fmap_replicate|]. by rewrite <-list_fmap_compose, list_fmap_id. }
  assert (∀ o, owner_ok d' o ↔ owner_ok d o) as Hok by (intros []; simpl; by rewrite Ht).
  assert (∀ o, owner_ok d o → ref nd d' o = ref nd d o) as Href.
  { intros [l|v] Ho; simpl; [by apply Hppa|by apply Hg]. }
  assert (∀ lpa, amap nd d' lpa = Xe (xe_ppa (amap nd d' lpa))
     (if gtd_at d' (lpa / ENTS) =? NO_MPPN then 0 else
       if decide (is_Some (words_at nd (gtd_at d' (lpa / ENTS)) !! Z.to_nat (lpa mod ENTS))) then full_page_bitmap else 0)) as Hbits.
  { intros lpa. unfold amap. rewrite entries_cold by done. case_match.
    - destruct (replicate _ _ !! _) eqn:E; [|done]. by apply lookup_replicate in E as [-> _].
    - rewrite list_lookup_fmap. by destruct (words_at _ _ !! _). }
  split.
  - split; [done|by rewrite Ht; apply Hwf|by rewrite Ht|by apply cold_wf| | | | |apply Hwf].
    + intros id x. change (pc_pages (d_pcache d')) with (pages d'). by rewrite (cold_pages _ Hcold).
    + intros v. rewrite Ht. intros Hv. rewrite Hg by done. by apply Hwf.
    + intros o Ho Hn. apply Hok in Ho. rewrite !Href in * by done.
      destruct (dw_ref _ _ _ _ _ Hwf o Ho Hn) as (? & ? & ? & Hu). split_and!; try done; try lia.
      intros o' Ho' E. apply Hok in Ho'. rewrite Href in E by done. by apply Hu.
    + intros lpa Ho. rewrite Hbits. cbn [xe_bitmap]. change full_page_bitmap with 15; repeat case_match; lia.
  - intros lpa Ho. split; [by apply Hppa|]. intros Hn. rewrite <-(Hppa lpa Ho) in Hn.
    rewrite Hbits. cbn [xe_bitmap]. rewrite amap_ppa, entries_cold in Hn by done.
    destruct (gtd_at d' (lpa / ENTS) =? NO_MPPN).
    + exfalso. apply Hn. rewrite fmap_replicate. destruct (replicate _ _ !! _) eqn:E; [|done].
      by apply lookup_replicate in E as [-> _].
    + rewrite <-list_fmap_compose, list_fmap_id in Hn. case_decide as Hs; [done|].
      exfalso. apply Hn. by destruct (words_at _ _ !! _); [destruct Hs; eexists|].
Qed.

(** An empty namespace. *)
Definition blank (d : am_domain) : Prop := ∀ v, 0 ≤ v < d_total_xlate_pages d → gtd_at d v = NO_MPPN.
Lemma amap_blank nd d lpa : cold d → blank d → owner_ok d (OData lpa) → amap nd d lpa = Xe NO_PPA 0.
Proof.
  intros Hc Hb Ho. destruct (lpa_slot _ _ Ho) as [Hv _]. unfold amap. rewrite entries_cold, Hb by done.
  rewrite Z.eqb_refl. destruct (replicate _ _ !! _) eqn:E; [|done]. by apply lookup_replicate in E as [-> _].
Qed.
Lemma dom_wf_blank nd (fr P : flash_address → Prop) d : cold d → blank d →
  d_xlate_ents_per_page d = ENTS → 0 ≤ d_total_xlate_pages d ≤ 2 ^ 32 →
  d_total_xlate_pages d ≤ Z.of_nat (length (d_gtd d)) →
  (∀ a, fr a → nd a = None ∧ addr_ok a ∧ ¬ P a) → dom_wf nd fr P None d.
Proof.
  intros Hc Hb He Ht Hl Hf. split; try done; [by apply cold_wf| | | |].
  - intros id x. change (pc_pages (d_pcache d)) with (pages d). by rewrite (cold_pages _ Hc).
  - intros v Hv Hn. by rewrite Hb in Hn.
  - intros [l|v] Ho Hn; simpl in Hn; [by rewrite amap_blank in Hn|by rewrite Hb in Hn].
  - intros lpa Ho. rewrite amap_blank by done. simpl. lia.
Qed.

Ltac fs_cbn := amu_cbn; cbn [set_fs m_fs set_dom ds_bm bm_mach]; cbv beta iota.

Section attach.
Context {PL : Platform} {PO : @PlatformOk PL} {EL : @EccLive PL} {AL : @AllocLive PL} {RL : @ReadLive PL}
  {WL : @WriteLive PL} {FL : @FsLive PL}.

(** * The directory file *)
(** Only files differ. *)
Definition with_fs (f : fs) (s : dom_st) : dom_st := with_mach (set_fs f (bm_mach (ds_bm s))) s.
Definition file (s : dom_st) (n : string) : option (list Z) := contents (m_fs (bm_mach (ds_bm s))) n.

Lemma with_fs_with f g s : with_fs f (with_fs g s) = with_fs f s.
Proof using All. done. Qed.
Lemma dom_inv_fs P pin f s : dom_inv P pin s → dom_inv P pin (with_fs f s).
Proof using All. intros [Hb [] ? ?]. split; [by eapply bm_inv_planes; [|exact Hb]|by split|done|done]. Qed.

Lemma wp_save_gtd n s : d_total_xlate_pages (ds_dom s) ≤ Z.of_nat (length (d_gtd (ds_dom s))) →
  wp (save_gtd n) (λ r s', r = R0 ∧ ∃ f, s' = with_fs f s ∧
    contents f n = Some (take (Z.to_nat (d_total_xlate_pages (ds_dom s))) (d_gtd (ds_dom s))) ∧
    (∀ n', n' ≠ n → contents f n' = file s n')) s.
Proof using All.
  intros Hle. unfold save_gtd, dom. wp_step. wp_step. apply wp_bind, wp_lift. unfold wp at 1, fat_open. fs_cbn.
  destruct (f_open n FA_CREATE_WRITE (m_fs (bm_mach (ds_bm s)))) as [[h|] f] eqn:E.
  2:{ pose proof (create_live n (m_fs (bm_mach (ds_bm s)))) as [? Hl]. by rewrite E in Hl. }
  apply f_open_create_ok in E as (Hh & Hc & Ho). wp_step. wp_step.
  { apply Nat.leb_le. lia. }
  apply wp_bind, wp_lift. unfold fat_write_all. apply wp_bind. unfold wp at 1, fat_write. fs_cbn.
  set (ws := take _ _).
  destruct (f_write h ws f) as [[[ok bw] h'] f'] eqn:E.
  pose proof (fwrite_live h ws f) as El. rewrite E in El. simplify_eq/=.
  wp_step. rewrite Z.eqb_refl. cbn [negb orb].
  destruct (f_write_ok _ _ 0 [] _ _ _ _ Hh Hc eq_refl E) as (_ & Hc' & Ho').
  apply wp_lift. unfold fat_close_rc. apply wp_bind. unfold wp at 1, fat_close. fs_cbn.
  destruct (f_close h' f') as [ok f''] eqn:E2. pose proof (fclose_live h' f') as El2. rewrite E2 in El2. simpl in El2. subst ok.
  wp_step. split; [done|]. exists f''. apply f_close_ok in E2. split; [done|]. rewrite E2. split; [by rewrite Hc'|].
  intros n' Hn. rewrite Ho', Ho by done. done.
Qed.

Lemma wp_restore_gtd n c s : file s n = Some c → Z.of_nat (length c) = d_total_xlate_pages (ds_dom s) →
  d_total_xlate_pages (ds_dom s) ≤ Z.of_nat (length (d_gtd (ds_dom s))) →
  wp (restore_gtd n) (λ r s', r = R0 ∧ ∃ f,
    s' = with_fs f (set_dom (set_d_gtd (c ++ drop (length c) (d_gtd (ds_dom s))) (ds_dom s)) s) ∧
    contents f = contents (m_fs (bm_mach (ds_bm s)))) s.
Proof using All.
  intros Hc Hlc Hle. unfold restore_gtd, dom. wp_step. wp_step. apply wp_bind, wp_lift. unfold wp at 1, fat_open. fs_cbn.
  destruct (f_open n FA_READ (m_fs (bm_mach (ds_bm s)))) as [[h|] f] eqn:E.
  2:{ destruct (open_live n (m_fs (bm_mach (ds_bm s)))) as [[? Hl] _]; [by eexists|]. by rewrite E in Hl. }
  apply f_open_read_ok in E as (Hh & _ & Ho). wp_step. wp_step.
  { apply Nat.leb_le. lia. }
  apply wp_bind, wp_lift. unfold fat_read_all. apply wp_bind. unfold wp at 1, fat_read. fs_cbn.
  destruct (f_read h (d_total_xlate_pages (ds_dom s)) f) as [[[ok ws] h'] f'] eqn:E.
  pose proof (fread_live h (d_total_xlate_pages (ds_dom s)) f) as El. rewrite E in El. simpl in El. subst ok.
  assert (contents f n = Some c) as Hc' by by rewrite Ho.
  destruct (f_read_ok _ _ _ _ _ _ _ _ _ Hh ltac:(done) Hc' E) as (-> & _ & Ho').
  wp_step. rewrite drop_0, <-Hlc, Nat2Z.id, firstn_all, Z.eqb_refl. cbn [negb orb].
  unfold upd_dom. wp_step. wp_step.
  apply wp_lift. unfold fat_close_rc. apply wp_bind. unfold wp at 1, fat_close. fs_cbn.
  destruct (f_close h' f') as [ok f''] eqn:E2. pose proof (fclose_live h' f') as El2. rewrite E2 in El2. simpl in El2. subst ok.
  wp_step. split; [done|]. exists f''. apply f_close_ok in E2. split; [done|]. by rewrite E2, Ho', Ho.
Qed.

(** * Creating a domain *)
Definition pages_of (total_logical_pages : Z) : Z := (total_logical_pages + ENTS - 1) / ENTS.
Definition fresh_dom (nsid capacity tlp : Z) (scheme : plane_allocate_scheme) (gtd : list Z) : am_domain :=
  Domain 1 nsid tlp scheme gtd (roundup (pages_of tlp * 4) ARCH_PG_SIZE) ENTS (pages_of tlp) (xpc_init capacity).
(** Flash and buffers are the same. *)
Record mach_files (m m' : mach) : Prop := {
  mf_nand : ∀ a, nand (m_dev m') a = nand (m_dev m) a;
  mf_mem : m_mem m' = m_mem m;
  mf_next : m_next m ≤ m_next m';
}.
(** What the directory of a new domain starts with. *)
Definition gtd_init (reset : bool) (tlp : Z) (file : option (list Z)) (gtd : list Z) : Prop :=
  if reset then gtd = replicate (Z.to_nat (pages_of tlp)) NO_MPPN else file = Some gtd.

Lemma pages_of_nonneg tlp : 0 ≤ tlp → 0 ≤ pages_of tlp.
Proof using Type. intros. unfold pages_of. pose proof ENTS_pos. apply Z.div_pos; lia. Qed.
Lemma gtd_words tlp id : 0 ≤ tlp →
  pages_of tlp ≤ Z.of_nat (length (junk_words id (roundup (pages_of tlp * 4) ARCH_PG_SIZE / 4))).
Proof using All.
  intros Ht. rewrite junk_words_len. pose proof (pages_of_nonneg _ Ht).
  destruct (roundup_spec (pages_of tlp * 4) ARCH_PG_SIZE) as [_ Hr]; [done|].
  enough (pages_of tlp ≤ roundup (pages_of tlp * 4) ARCH_PG_SIZE / 4) by lia.
  apply Z.div_le_lower_bound; lia.
Qed.

Lemma wp_domain_init nsid capacity tlp scheme reset (Q : rc → dom_st → Prop) s gtd :
  mem_wf (bm_mach (ds_bm s)) → 0 ≤ tlp →
  gtd_init reset tlp (file s (GTD_FILENAME nsid)) gtd → Z.of_nat (length gtd) = pages_of tlp →
  (∀ ws m', mach_files (bm_mach (ds_bm s)) m' → pages_of tlp ≤ Z.of_nat (length (gtd ++ ws)) →
     contents (m_fs m') (GTD_FILENAME nsid) = Some gtd →
     Q R0 (with_mach m' (set_dom (fresh_dom nsid capacity tlp scheme (gtd ++ ws)) s))) →
  wp (domain_init nsid capacity tlp scheme reset) Q s.
Proof using All.
  intros [Hn0 _] Ht Hgtd Hlen HQ. unfold domain_init, upd_dom.
  change ((tlp + FLASH_PG_SIZE / 4 - 1) / (FLASH_PG_SIZE / 4)) with (pages_of tlp).
  change (FLASH_PG_SIZE / 4) with ENTS.
  set (id := m_next (bm_mach (ds_bm s))) in *.
  set (w := junk_words id (roundup (pages_of tlp * 4) ARCH_PG_SIZE / 4)).
  assert (pages_of tlp ≤ Z.of_nat (length w)) as Hw by by apply gtd_words.
  wp_step. wp_step. apply wp_bind, wp_lift. unfold wp at 1, alloc_words. amu_cbn. rewrite alloc_live.
  fold id. fold w. rewrite (proj2 (Z.eqb_neq _ _)) by lia. wp_step. wp_step. wp_step. wp_step.
  unfold fat_stat. wp_step. amu_cbn.
  assert (mach_files (bm_mach (ds_bm s)) (Mach _ (m_dev (bm_mach (ds_bm s))) (m_mem (bm_mach (ds_bm s))) (id + 1)
    (m_fs (bm_mach (ds_bm s))) (m_stats (bm_mach (ds_bm s))))) as Hmf by (split; simpl; lia || done).
  assert (length gtd = Z.to_nat (pages_of tlp)) as Hlen' by lia.
  assert (Z.of_nat (length (gtd ++ drop (length gtd) w)) = Z.of_nat (length w)) as Hlw
    by (rewrite length_app, length_drop; lia).
  destruct reset; cbn [gtd_init] in Hgtd.
  - rewrite orb_true_r. wp_step. wp_step. wp_step. amu_cbn.
    match goal with |- wp _ _ ?x => set (s1 := x) end.
    eapply wp_mono; [apply (wp_save_gtd _ s1); subst s1; cbn [ds_dom d_total_xlate_pages d_gtd set_d_gtd];
      rewrite <-Hgtd, <-Hlen'; lia|].
    intros r s2 (-> & f & -> & Hf & _). wp_step. revert Hf. subst s1. cbn [ds_dom d_total_xlate_pages d_gtd set_d_gtd].
    rewrite <-Hgtd, <-Hlen', take_app_length. intros Hf.
    apply (HQ (drop (length gtd) w) (set_fs f (Mach _ _ _ (id + 1) _ _))); [|lia|done].
    by destruct Hmf.
  - destruct (open_live (GTD_FILENAME nsid) (m_fs (bm_mach (ds_bm s)))) as [_ Hst]; [by eexists|].
    rewrite Hst. cbn [negb orb bool_decide decide_rel]. rewrite bool_decide_eq_true_2 by done. cbn [negb orb].
    wp_step. match goal with |- wp _ _ ?x => set (s1 := x) end.
    eapply wp_mono; [apply (wp_restore_gtd _ gtd s1); subst s1; cbn [ds_dom d_total_xlate_pages d_gtd set_d_gtd]; done|].
    intros r s2 (-> & f & -> & Hf). wp_step. subst s1.
    apply (HQ (drop (length gtd) w) (set_fs f (Mach _ _ _ (id + 1) _ _))); [by destruct Hmf|lia|].
    cbn [set_fs m_fs]. by rewrite Hf.
Qed.

Lemma wp_attach nsid bytes tlp reset gtd (Q : rc → amu → Prop) u :
  bad_nsid nsid = false → am_active u !! NSID2IDX nsid = None → mem_wf (bm_mach (am_bm u)) → 0 ≤ tlp →
  gtd_init reset tlp (contents (m_fs (bm_mach (am_bm u))) (GTD_FILENAME nsid)) gtd →
  Z.of_nat (length gtd) = pages_of tlp →
  (∀ ptr ws m' s', mach_files (bm_mach (am_bm u)) m' →
     s' = DomSt _ (Bm _ m' (bm_planes (am_bm u)))
            (fresh_dom nsid (bytes / XLATE_PG_SIZE) tlp DEFAULT_PLANE_ALLOCATE_SCHEME (gtd ++ ws)) →
     pages_of tlp ≤ Z.of_nat (length (gtd ++ ws)) →
     contents (m_fs m') (GTD_FILENAME nsid) = Some gtd → m_next (bm_mach (am_bm u)) ≤ ptr →
     attached nsid ptr s' (Amu _ (ds_bm s') (<[ptr := ds_dom s']> (am_domains u)) (<[NSID2IDX nsid := ptr]> (am_active u))) →
     Q R0 (Amu _ (ds_bm s') (<[ptr := ds_dom s']> (am_domains u)) (<[NSID2IDX nsid := ptr]> (am_active u)))) →
  wp (amu_attach_domain nsid bytes tlp reset) Q u.
Proof using All.
  intros Hn Ha [Hn0 Hm] Ht Hgtd Hlen HQ. unfold amu_attach_domain. rewrite Hn. wp_step. wp_step. rewrite Ha.
  apply wp_bind, wp_lift. unfold wp at 1, slaballoc. amu_cbn. rewrite alloc_live.
  rewrite (proj2 (Z.eqb_neq _ _)) by (cbn; lia). unfold upd_domains, upd_active. wp_step. wp_step. wp_step.
  set (ptr := m_next (bm_mach (am_bm u))) in *.
  eapply wp_on_domain; [apply lookup_insert_eq|]. 
  eapply (wp_domain_init _ _ _ _ _ _ _ gtd); [|done|done|done|].
  { split; cbn; [lia|]. intros id b E. apply Hm in E. cbn in E. lia. }
  intros ws m' [Hf1 Hf2 Hf3] Hl Hc. wp_step. wp_step. unfold with_dom. cbn. rewrite insert_insert_eq.
  apply (HQ ptr ws m' (DomSt _ (Bm _ m' (bm_planes (am_bm u)))
            (fresh_dom nsid (bytes / XLATE_PG_SIZE) tlp DEFAULT_PLANE_ALLOCATE_SCHEME (gtd ++ ws)))); try done.
  - split; [done..|]. cbn in Hf3. lia.
  - split; try done; simpl; by rewrite lookup_insert_eq.
Qed.

(** A namespace attached with [reset] is empty. *)
Lemma fresh_blank s nsid capacity tlp scheme ws (P : flash_address → Prop) :
  bm_inv (ds_bm s) → mem_wf (bm_mach (ds_bm s)) → 0 ≤ tlp → pages_of tlp ≤ 2 ^ 32 →
  (∀ a, page_fresh (ds_bm s) a → nandv s a = None ∧ addr_ok a ∧ ¬ P a) →
  ds_dom s = fresh_dom nsid capacity tlp scheme (replicate (Z.to_nat (pages_of tlp)) NO_MPPN ++ ws) →
  dom_inv P None s ∧ ∀ lpa, owner_ok (ds_dom s) (OData lpa) → amap_of s lpa = Xe NO_PPA 0.
Proof using Type.
  intros Hb Hm Ht Hp Hf Ed. pose proof (pages_of_nonneg _ Ht).
  assert (cold (ds_dom s)) as Hc by (rewrite Ed; by eexists).
  assert (blank (ds_dom s)) as Hbl.
  { intros v. rewrite Ed. cbn [fresh_dom d_total_xlate_pages d_gtd gtd_at]. intros Hv. unfold gtd_at.
    cbn [fresh_dom d_gtd]. rewrite lookup_app_l by (rewrite length_replicate; lia).
    by rewrite lookup_replicate_2 by lia. }
  split.
  - split; [done|done| |apply dom_wf_blank; try done].
    + intros id. rewrite (cold_pages _ Hc), lookup_empty. by intros [].
    + by rewrite Ed.
    + rewrite Ed. cbn. lia.
    + rewrite Ed. cbn [fresh_dom d_gtd d_total_xlate_pages]. rewrite length_app, length_replicate. lia.
  - intros lpa Ho. by apply amap_blank.
Qed.

(** * Detaching *)
Record flushable (s : dom_st) : Prop := {
  fl_size : pc_size (d_pcache (ds_dom s)) < 65535;
  fl_height : height (pc_root (d_pcache (ds_dom s))) ≤ Z.of_nat AVL_MAX_DEPTH;
  fl_ready : bm_ready (Z.to_nat (pc_size (d_pcache (ds_dom s)))) (ds_bm s);
}.
Lemma dom_flushable P s : dom_inv P None s → pc_size (d_pcache (ds_dom s)) < 65535 →
  bm_ready (Z.to_nat (pc_size (d_pcache (ds_dom s)))) (ds_bm s) → flushable s.
Proof using Type.
  intros Hi Hsz Hr. split; [done| |done]. pose proof (dw_pc _ _ _ _ _ (di_dom _ _ _ Hi)) as Hp.
  change (Z.of_nat AVL_MAX_DEPTH) with 32. rewrite (xw_size _ _ Hp) in Hsz.
  pose proof (balanced_depth _ (xw_balanced _ _ Hp) Hsz). lia.
Qed.
(** The domain [s1] is clean and holds what [s] held; the files are [f]. *)
Record saved (P : flash_address → Prop) (n : string) (s s1 : dom_st) (f : fs) : Prop := {
  sv_inv : dom_inv P None s1;
  sv_content : same_content s s1;
  sv_clean : all_clean (ds_dom s1);
  sv_file : contents f n = Some (take (Z.to_nat (d_total_xlate_pages (ds_dom s1))) (d_gtd (ds_dom s1)));
  sv_files : ∀ n', n' ≠ n → contents f n' = file s1 n';
  sv_size : pc_size (d_pcache (ds_dom s1)) = pc_size (d_pcache (ds_dom s));
  sv_ready : ∀ m, bm_ready (Z.to_nat (pc_size (d_pcache (ds_dom s))) + m) (ds_bm s) → bm_ready m (ds_bm s1);
}.

Lemma wp_save_domain P nsid s : dom_inv P None s → flushable s → d_nsid (ds_dom s) = nsid →
  wp save_domain (λ r s', r = R0 ∧ ∃ s1 f, s' = with_fs f s1 ∧ saved P (GTD_FILENAME nsid) s s1 f) s.
Proof using All.
  intros Hi [] <-. unfold save_domain, dom. wp_step. wp_step. wp_step.
  eapply wp_mono; [by apply wp_flush_domain|]. intros _ s1 [Hi1 Hc1 Hk Hcl Hr].
  eapply wp_mono; [apply wp_save_gtd; apply Hi1|]. intros r s' (-> & f & -> & Hf & Hf').
  split; [done|]. exists s1, f. split; [done|]. split; try done. by rewrite !(pc_size_keys P), Hk.
Qed.

(** [amu_save_domain]. *)
Lemma wp_amu_save P nsid ptr s (Q : rc → amu → Prop) u :
  attached nsid ptr s u → dom_inv P None s → flushable s → d_nsid (ds_dom s) = nsid →
  (∀ s1 f, saved P (GTD_FILENAME nsid) s s1 f → Q R0 (with_dom ptr (with_fs f s1) u)) →
  wp (amu_save_domain nsid) Q u.
Proof using All.
  intros Hat Hi Hfl Hid HQ.
  unfold amu_save_domain. wp_step. eapply wp_domain_get; [done|]. set (k := d_kref (ds_dom s)) in *.
  wp_step. eapply (wp_on_domain _ _ _ _ (ds_dom (setk (k + 1) s))); [apply lookup_insert_eq|].
  change (DomSt _ (am_bm (with_dom ptr (setk (k + 1) s) u)) (ds_dom (setk (k + 1) s))) with (setk (k + 1) s).
  eapply wp_mono; [apply (wp_save_domain P nsid); [by apply dom_inv_setk|by destruct Hfl|done]|].
  intros r s' (-> & s1 & f & -> & [Hi1 Hc1 Hcl1 Hf1 Hf2 Hz1 Hr1]). wp_step. rewrite with_dom_with.
  assert (d_kref (ds_dom s1) = k + 1) as Hk1 by apply (ev_consts _ _ (sc_ev _ _ Hc1)).
  assert (1 ≤ k) as Hk by apply Hat.
  eapply (wp_domain_put nsid ptr (with_fs f s1)).
  { destruct Hat. split; try done; [apply lookup_insert_eq|]. change (1 ≤ d_kref (ds_dom s1)). lia. }
  { change (1 < d_kref (ds_dom s1)). lia. }
  wp_step. change (d_kref (ds_dom (with_fs f s1))) with (d_kref (ds_dom s1)). rewrite Hk1.
  replace (k + 1 - 1) with k by lia. rewrite with_dom_with.
  change (setk k (with_fs f s1)) with (with_fs f (setk k s1)).
  apply HQ. split; try done; [by apply dom_inv_setk|].
  destruct Hc1 as [Hev ? ? ? ?]. split; [|done..].
  destruct Hev as [(? & ? & ? & ? & ? & ? & ? & ? & ?) ? ? ? ?]. by split.
Qed.

Lemma wp_detach P nsid ptr s (Q : rc → amu → Prop) u :
  attached nsid ptr s u → dom_inv P None s → flushable s → d_nsid (ds_dom s) = nsid → d_kref (ds_dom s) = 1 →
  (∀ s1 f, saved P (GTD_FILENAME nsid) s s1 f →
     Q R0 (Amu _ (ds_bm (with_fs f s1)) (delete ptr (am_domains u)) (delete (NSID2IDX nsid) (am_active u)))) →
  wp (amu_detach_domain nsid) Q u.
Proof using All.
  intros [Hn Ha Hd Hb _] Hi Hfl Hid Hk HQ. unfold amu_detach_domain, upd_active. rewrite Hn. wp_step. wp_step.
  rewrite Ha. wp_step. wp_step. wp_step. eapply wp_on_domain; [exact Hd|].
  match goal with |- wp _ _ ?x => replace x with s by (cbn; rewrite Hb; by destruct s) end.
  eapply wp_mono; [by apply (wp_save_domain P nsid)|].
  intros r s' (-> & s1 & f & -> & Hsv). wp_step. unfold domain_put. wp_step.
  eapply wp_on_domain; [apply lookup_insert_eq|]. unfold dom, upd_dom. wp_steps.
  assert (d_kref (ds_dom s1) = 1) as Hk1 by (destruct (ev_consts _ _ (sc_ev _ _ (sv_content _ _ _ _ _ Hsv))); lia).
  cbn [with_fs with_mach ds_dom]. rewrite Hk1. change (1 - 1 =? 0) with true. unfold domain_free, upd_domains, do_if. wp_step.
  eapply wp_on_domain; [unfold with_dom; cbn; apply lookup_insert_eq|].
  eapply wp_mono; [apply wp_xpc_free; cbn; apply xpc_wf_cache_ok, Hsv|].
  intros [] s3 (Hb3 & _). wp_step. wp_step. specialize (HQ _ _ Hsv). revert HQ. unfold with_dom. cbn.
  rewrite Hb3. cbn. by rewrite !insert_insert_eq, delete_insert_eq.
Qed.

(** ** Attaching again *)
Lemma gtd_at_take d ws v : 0 ≤ v < d_total_xlate_pages d → d_total_xlate_pages d ≤ Z.of_nat (length (d_gtd d)) →
  default NO_MPPN ((take (Z.to_nat (d_total_xlate_pages d)) (d_gtd d) ++ ws) !! Z.to_nat v) = gtd_at d v.
Proof using Type.
  intros Hv Hl. unfold gtd_at. rewrite lookup_app_l by (rewrite length_take; lia).
  by rewrite lookup_take_lt by lia.
Qed.

(** A domain rebuilt from the directory of the clean domain [s1], over planes
    with no more free pages, holds what [s1] held. *)
Lemma reattached P s1 s' nsid capacity tlp scheme ws :
  dom_inv P None s1 → all_clean (ds_dom s1) → pages_of tlp = d_total_xlate_pages (ds_dom s1) →
  let gtd := take (Z.to_nat (d_total_xlate_pages (ds_dom s1))) (d_gtd (ds_dom s1)) in
  ds_dom s' = fresh_dom nsid capacity tlp scheme (gtd ++ ws) → pages_of tlp ≤ Z.of_nat (length (gtd ++ ws)) →
  (∀ a, nandv s' a = nandv s1 a) → (∀ a, page_fresh (ds_bm s') a → page_fresh (ds_bm s1) a) →
  bm_inv (ds_bm s') → mem_wf (bm_mach (ds_bm s')) →
  dom_inv P None s' ∧ ∀ lpa, owner_ok (ds_dom s1) (OData lpa) →
    xe_ppa (amap_of s' lpa) = xe_ppa (amap_of s1 lpa) ∧ (∀ i x, readsv s1 lpa i x → readsv s' lpa i x).
Proof using All.
  intros Hi1 Hcl1 Et gtd Ed Hl Hnd Hpf Hb' Hm'. pose proof Hi1 as [Hb1 Hm1 _ Hd1].
  pose proof (dw_gtd _ _ _ _ _ Hd1) as Hg1. pose proof (dw_total _ _ _ _ _ Hd1).
  assert (cold (ds_dom s')) as Hcold by (rewrite Ed; by eexists).
  destruct (dom_wf_rebuilt (nandv s1) (page_fresh (ds_bm s1)) P (ds_dom s1) (ds_dom s')) as [Hw' Hmap]; [done|done| |done|].
  { rewrite Ed. split; cbn [fresh_dom d_xlate_ents_per_page d_total_xlate_pages d_gtd]; [done|lia|lia|].
    intros v Hv. unfold gtd_at at 1. cbn [fresh_dom d_gtd]. by apply gtd_at_take. }
  destruct (dom_wf_frame _ (nandv s') _ (page_fresh (ds_bm s')) P None _ Hw') as [Hw'' Hsm].
  { intros. apply Hnd. }
  { intros a Ha. apply Hpf in Ha. rewrite Hnd. split; [done|]. by eapply dw_fresh. }
  assert (∀ o, owner_ok (ds_dom s1) o → owner_ok (ds_dom s') o) as Ho'.
  { rewrite Ed. intros []; cbn [owner_ok fresh_dom d_total_xlate_pages]; rewrite Et; done. }
  assert (∀ lpa, owner_ok (ds_dom s1) (OData lpa) → amap_of s' lpa = amap (nandv s1) (ds_dom s') lpa) as Ham.
  { intros lpa Ho. by apply Hsm, Ho'. }
  split; [split; [done|done| |done]|].
  { intros id. rewrite (cold_pages _ Hcold), lookup_empty. by intros []. }
  intros lpa Ho. destruct (Hmap lpa Ho) as [Em1 Em2]. rewrite (Ham lpa Ho). split; [done|].
  intros i x (Hn & Hbit & p & Hp1 & Hp2). unfold readsv, reads.
  specialize (Ham lpa Ho). unfold amap_of in Ham. rewrite Ham, Em1. split; [done|]. split.
  - rewrite Em2 by done. apply Z.ones_spec_low. split; [lia|].
    pose proof (dw_bits _ _ _ _ _ Hd1 lpa Ho) as Hb.
    destruct (decide (Z.of_nat i < 4)) as [|Hge]; [done|].
    rewrite (testbit16 _ (Z.of_nat i) Hb) in Hbit by lia. done.
  - exists p. split; [|done]. by rewrite Hnd.
Qed.
(** What [same_content] keeps readable. *)
Lemma same_content_readsv s s' l i x : same_content s s' → owner_ok (ds_dom s) (OData l) → readsv s l i x → readsv s' l i x.
Proof using All.
  intros Hc Ho (Hn & Hb & p & Hp & Hx). pose proof (sc_map _ _ Hc l Ho) as E1.
  pose proof (sc_data _ _ Hc l Ho Hn) as E2. unfold readsv, reads, amap_of in *. rewrite E1.
  split; [done|]. split; [done|]. exists p. by rewrite E2.
Qed.

Lemma wp_detach_attach P nsid ptr s u bytes tlp :
  attached nsid ptr s u → dom_inv P None s → flushable s → d_nsid (ds_dom s) = nsid → d_kref (ds_dom s) = 1 →
  0 ≤ tlp → pages_of tlp = d_total_xlate_pages (ds_dom s) →
  wp (amu_detach_domain nsid ≫= λ _, amu_attach_domain nsid bytes tlp false)
    (λ r u', r = R0 ∧ ∃ ptr' s', attached nsid ptr' s' u' ∧ dom_inv P None s' ∧
       (∀ lpa, owner_ok (ds_dom s) (OData lpa) → xe_ppa (amap_of s' lpa) = xe_ppa (amap_of s lpa)) ∧
       (∀ lpa i x, owner_ok (ds_dom s) (OData lpa) → readsv s lpa i x → readsv s' lpa i x)) u.
Proof using All.
  intros Hat Hi Hfl Hid Hk Ht Hp. wp_step. eapply wp_detach; [done..|]. intros s1 f [Hi1 Hc1 Hcl1 Hf1 _ _ _].
  pose proof Hi1 as [Hb1 Hm1 _ Hd1]. pose proof (ev_consts _ _ (sc_ev _ _ Hc1)) as Hsc.
  assert (d_total_xlate_pages (ds_dom s1) = d_total_xlate_pages (ds_dom s)) as Et by apply Hsc.
  pose proof (dw_gtd _ _ _ _ _ Hd1) as Hg1. pose proof (dw_total _ _ _ _ _ Hd1).
  eapply wp_attach; [by destruct Hat|apply lookup_delete_eq|by destruct Hm1|done|exact Hf1| |].
  { rewrite length_take. lia. }
  intros ptr' ws m' s' [Hm'1 Hm'2 Hm'3] Es' Hl Hc Hptr Hat'. split; [done|]. exists ptr', s'. split; [done|].
  destruct (reattached P s1 s' nsid (bytes / XLATE_PG_SIZE) tlp DEFAULT_PLANE_ALLOCATE_SCHEME ws) as [Hi' Hmap]; try done.
  - lia.
  - by rewrite Es'.
  - intros a. rewrite Es'. apply Hm'1.
  - intros a. apply page_fresh_planes. by rewrite Es'.
  - apply (bm_inv_planes (ds_bm s1)); [by rewrite Es'|done].
  - rewrite Es'. destruct Hm1 as [M1 M2]. cbn in *. split; [lia|]. intros id b. rewrite Hm'2. intros E. apply M2 in E. lia.
  - split; [done|]. assert (∀ lpa, owner_ok (ds_dom s) (OData lpa) → owner_ok (ds_dom s1) (OData lpa)) as Ho1
      by (intros lpa; by apply (owner_ok_same (ds_dom s) (ds_dom s1))).
    split; intros lpa.
    + intros Ho. rewrite (proj1 (Hmap lpa (Ho1 _ Ho))). by rewrite (sc_map _ _ Hc1 lpa Ho).
    + intros i x Ho Hr. apply (Hmap lpa (Ho1 _ Ho)). exact (same_content_readsv s s1 lpa i x Hc1 Ho Hr).
Qed.
End attach.
