(* ===== verification/AmuTheorems.v ===== *)
(** The properties of the address mapping unit: what dispatching lists of writes
    and reads does to a namespace, that other namespaces are out of reach, that
    attaching, saving and detaching keep what is stored, the error codes, and
    two defects of the translation page cache and of attaching. *)
From S2P Require Import Prelude Bitmap Avl Flash Machine Sim BlockManager BlockMaps Amu AmuFacts AmuSpec AmuWrite AmuDispatch AmuFlush AmuAttach.

Section theorems.
Context {PL : Platform} {PO : @PlatformOk PL} {EL : @EccLive PL} {AL : @AllocLive PL} {RL : @ReadLive PL}.

(** C14: dispatching a list of writes to distinct pages of a namespace never gets
    stuck and keeps the invariant of the namespace; when it succeeds, every
    written sector reads back as the data of its buffer, the sectors of the
    written pages that the transactions do not cover keep their content (read,
    merge and rewrite), and no other page changes.  It does succeed when the
    devices work and the old pages have been programmed.  There are free pages for
    the list and room in the cache of translation pages for one page per
    transaction, so that no translation page is evicted. *)
Theorem amu_writes_correct P nsid ptr s u l :
  attached nsid ptr s u → dom_inv P None s → Forall (batch_req nsid s) l →
  NoDup (t_lpa <$> l) → NoDup (t_data <$> l) →
  pc_size (d_pcache (ds_dom s)) + Z.of_nat (length l) ≤ pc_capacity (d_pcache (ds_dom s)) →
  bm_ready (length l) (ds_bm s) →
  ∃ r l' s', amu_dispatch l u = Some ((r, l'), with_dom ptr s' u) ∧ dom_inv P None s' ∧
    (r = R0 → written s s' l) ∧
    (DmaLive → WriteLive → Forall (λ t, programmed s (t_lpa t)) l → r = R0).
Proof using All.
  intros Hat Hi Hl Hn1 Hn2 Hc Hr.
  pose proof (wp_dispatch_writes P nsid ptr s u l Hat Hi Hl Hn1 Hn2 Hc Hr) as Hw.
  apply wp_run in Hw as ([r l'] & u' & E & s' & -> & Hi' & _ & Hw & Hok). exists r, l', s'.
  split; [done|]. split; [done|]. split; [by intros [? _]%Hw|done].
Qed.

(** C23: dispatching reads of programmed pages succeeds, delivers into each
    buffer the sectors that the namespace stores, and changes nothing that is
    stored.  There is room in the cache of translation pages for one page per
    transaction, so that none is evicted. *)
Theorem amu_reads_correct P nsid ptr s u l :
  attached nsid ptr s u → dom_inv P None s → Forall (read_req nsid s) l → NoDup (t_data <$> l) →
  pc_size (d_pcache (ds_dom s)) + Z.of_nat (length l) ≤ pc_capacity (d_pcache (ds_dom s)) →
  ∃ l' s', amu_dispatch l u = Some ((R0, l'), with_dom ptr s' u) ∧ dom_inv P None s' ∧ read_done s s' l ∧
    (∀ lpa i x, owner_ok (ds_dom s) (OData lpa) → readsv s' lpa i x ↔ readsv s lpa i x).
Proof using All.
  intros Hat Hi Hl Hn Hc. pose proof (wp_dispatch_reads P nsid ptr s u l Hat Hi Hl Hn Hc) as Hw.
  apply wp_run in Hw as ([r l'] & u' & E & s' & -> & Hi' & _ & -> & Hd & Hu & _). exists l', s'.
  split; [done|]. split; [done|]. split; [done|]. intros lpa i x. by eapply unchanged_reads.
Qed.

(** C22: whatever a list of writes to one namespace does, succeed or fail, any
    other domain [d'] keeps its invariant and its map, and each of its sectors
    reads as before. *)
Theorem amu_isolation P P' nsid ptr s u l d' :
  attached nsid ptr s u → dom_inv P None s → Forall (batch_req nsid s) l →
  NoDup (t_lpa <$> l) → NoDup (t_data <$> l) →
  pc_size (d_pcache (ds_dom s)) + Z.of_nat (length l) ≤ pc_capacity (d_pcache (ds_dom s)) →
  bm_ready (length l) (ds_bm s) →
  dom_wf (nandv s) (page_fresh (ds_bm s)) P' None d' →
  ∃ r l' s', amu_dispatch l u = Some ((r, l'), with_dom ptr s' u) ∧
    dom_wf (nandv s') (page_fresh (ds_bm s')) P' None d' ∧
    ∀ lpa i x, owner_ok d' (OData lpa) → reads (nandv s') d' lpa i x ↔ reads (nandv s) d' lpa i x.
Proof using All.
  intros Hat Hi Hl Hn1 Hn2 Hc Hr Hd'.
  pose proof (wp_dispatch_writes P nsid ptr s u l Hat Hi Hl Hn1 Hn2 Hc Hr) as Hw.
  apply wp_run in Hw as ([r l'] & u' & E & s' & -> & Hi' & Hev & _). exists r, l', s'. split; [done|].
  destruct (evolves_other P' P s s' d' Hev Hd' Hi') as [Hd2 Hm].
  { intros a _ Hn Hf. by apply Hn, (ev_fresh _ _ Hev). }
  split; [done|]. intros lpa i x Ho. unfold reads. rewrite (Hm lpa Ho).
  destruct (decide (xe_ppa (amap (nandv s) d' lpa) = NO_PPA)) as [En|En]; [by split; intros []|].
  destruct (dw_ref _ _ _ _ _ Hd' (OData lpa) Ho En) as (_ & Hf & _). cbn [ref] in Hf.
  by rewrite (ev_nand _ _ Hev) by done.
Qed.

Context {WL : @WriteLive PL} {FL : @FsLive PL}.

(** Attaching a namespace with [reset] succeeds and yields an empty
    namespace that satisfies the invariant. *)
Theorem amu_attach_reset (P : flash_address → Prop) nsid bytes tlp u :
  bad_nsid nsid = false → am_active u !! NSID2IDX nsid = None →
  bm_inv (am_bm u) → mem_wf (bm_mach (am_bm u)) → 0 ≤ tlp → pages_of tlp ≤ 2 ^ 32 →
  (∀ a, page_fresh (am_bm u) a → nand (m_dev (bm_mach (am_bm u))) a = None ∧ addr_ok a ∧ ¬ P a) →
  ∃ ptr s' u', amu_attach_domain nsid bytes tlp true u = Some (R0, u') ∧
    attached nsid ptr s' u' ∧ dom_inv P None s' ∧
    ∀ lpa, 0 ≤ lpa < tlp → amap_of s' lpa = Xe NO_PPA 0.
Proof using All.
  intros Hn Ha Hb Hm Ht Hp Hf.
  enough (wp (amu_attach_domain nsid bytes tlp true)
    (λ r u', r = R0 ∧ ∃ ptr s', attached nsid ptr s' u' ∧ dom_inv P None s' ∧
       ∀ lpa, 0 ≤ lpa < tlp → amap_of s' lpa = Xe NO_PPA 0) u) as Hw'.
  { apply wp_run in Hw' as (r & u' & E & -> & ptr & s' & H). by exists ptr, s', u'. }
  apply (wp_attach nsid bytes tlp true (replicate (Z.to_nat (pages_of tlp)) NO_MPPN));
    [done|done|done|done|done|rewrite length_replicate; pose proof (pages_of_nonneg tlp Ht); lia|].
  intros ptr ws m' s' [M1 M2 M3] Es' Hl Hc Hptr Hat. split; [done|]. exists ptr, s'. split; [done|].
  destruct Hm as [Hm1 Hm2].
  destruct (fresh_blank s' nsid (bytes / XLATE_PG_SIZE) tlp DEFAULT_PLANE_ALLOCATE_SCHEME ws P) as [Hi Hmap];
    [|split|done|done| |by rewrite Es'|].
  - apply (bm_inv_planes (am_bm u)); [by rewrite Es'|done].
  - rewrite Es'. cbn. lia.
  - intros id b. rewrite Es'. cbn. rewrite M2. intros E. apply Hm2 in E. lia.
  - intros a. rewrite (page_fresh_planes (am_bm u)) by by rewrite Es'.
    unfold nandv. rewrite Es'. cbn. intros Hfa. rewrite M1. by apply Hf.
  - split; [done|]. intros lpa Hlpa. apply Hmap. rewrite Es'. cbn [owner_ok fresh_dom d_total_xlate_pages ds_dom].
    pose proof ENTS_pos. unfold pages_of. split; [lia|].
    pose proof (Z.div_mod (tlp + ENTS - 1) ENTS). pose proof (Z.mod_pos_bound (tlp + ENTS - 1) ENTS). lia.
Qed.

(** C15: detaching a namespace and attaching it again, with any cache size, gives
    back the same logical-to-physical map, and every sector that was stored. *)
Theorem amu_reattach_roundtrip P nsid ptr s u bytes tlp :
  attached nsid ptr s u → dom_inv P None s → flushable s → d_nsid (ds_dom s) = nsid → d_kref (ds_dom s) = 1 →
  0 ≤ tlp → pages_of tlp = d_total_xlate_pages (ds_dom s) →
  ∃ u1 u2 ptr' s', amu_detach_domain nsid u = Some (R0, u1) ∧ amu_attach_domain nsid bytes tlp false u1 = Some (R0, u2) ∧
    am_active u1 !! NSID2IDX nsid = None ∧
    attached nsid ptr' s' u2 ∧ dom_inv P None s' ∧
    (∀ lpa, owner_ok (ds_dom s) (OData lpa) → xe_ppa (amap_of s' lpa) = xe_ppa (amap_of s lpa)) ∧
    (∀ lpa i x, owner_ok (ds_dom s) (OData lpa) → readsv s lpa i x → readsv s' lpa i x).
Proof using All.
  intros Hat Hi Hfl Hid Hk Ht Hp.
  assert (wp (amu_detach_domain nsid) (λ r u1, r = R0 ∧ am_active u1 !! NSID2IDX nsid = None) u) as Hd'.
  { eapply (wp_detach P nsid ptr s); [done..|]. intros s1 f _. split; [done|]. apply lookup_delete_eq. }
  apply wp_run in Hd' as (r & u1 & E1 & -> & Hn).
  pose proof (wp_detach_attach P nsid ptr s u bytes tlp Hat Hi Hfl Hid Hk Ht Hp) as Hw.
  apply wp_bind in Hw. unfold wp at 1 in Hw. rewrite E1 in Hw.
  apply wp_run in Hw as (r & u2 & E2 & -> & ptr' & s' & Hrest). by exists u1, u2, ptr', s'.
Qed.

(** Saving a namespace flushes its dirty translation pages: afterwards all
    cached pages are clean, the directory file is the directory, and the map and
    all sectors are as before. *)
Theorem amu_save_correct P nsid ptr s u :
  attached nsid ptr s u → dom_inv P None s → flushable s → d_nsid (ds_dom s) = nsid →
  ∃ s', amu_save_domain nsid u = Some (R0, with_dom ptr s' u) ∧ dom_inv P None s' ∧ all_clean (ds_dom s') ∧
    file s' (GTD_FILENAME nsid) = Some (take (Z.to_nat (d_total_xlate_pages (ds_dom s'))) (d_gtd (ds_dom s'))) ∧
    (∀ lpa, owner_ok (ds_dom s) (OData lpa) → amap_of s' lpa = amap_of s lpa) ∧
    (∀ lpa i x, owner_ok (ds_dom s) (OData lpa) → readsv s lpa i x → readsv s' lpa i x).
Proof using All.
  intros Hat Hi Hfl Hid.
  enough (wp (amu_save_domain nsid) (λ r u', r = R0 ∧ ∃ s1 f, saved P (GTD_FILENAME nsid) s s1 f ∧
    u' = with_dom ptr (with_fs f s1) u) u) as Hw.
  { apply wp_run in Hw as (r & u' & E & -> & s1 & f & [Hi1 Hc1 Hcl1 Hf1] & ->). exists (with_fs f s1).
    split; [done|]. split; [by apply dom_inv_fs|]. split; [done|]. split; [done|]. split; [apply Hc1|].
    intros lpa i x Ho Hr. exact (same_content_readsv s s1 lpa i x Hc1 Ho Hr). }
  eapply (wp_amu_save P); [done..|]. intros s1 f Hsv. split; [done|]. by exists s1, f.
Qed.
End theorems.

Section errors.
Context `{Platform}.

Lemma bind_eq {S A B} (m : ST S A) (f : A → ST S B) a s s' : m s = Some (a, s') → (m ≫= f) s = f a s'.
Proof. intros E. unfold mbind, ST_bind. by rewrite E. Qed.

(** Error codes.  A namespace id out of range is refused with EINVAL by
    attach, detach and delete; so are attaching twice, and saving, detaching or
    dispatching to a namespace that is not attached.  Nothing changes then. *)
Theorem amu_error_codes nsid bytes tlp reset u :
  (bad_nsid nsid = true →
     amu_attach_domain nsid bytes tlp reset u = Some (Err EINVAL, u) ∧
     amu_detach_domain nsid u = Some (Err EINVAL, u) ∧ amu_delete_domain nsid u = Some (Err EINVAL, u)) ∧
  (is_Some (am_active u !! NSID2IDX nsid) → amu_attach_domain nsid bytes tlp reset u = Some (Err EINVAL, u)) ∧
  (bad_nsid nsid = false → am_active u !! NSID2IDX nsid = None →
     amu_detach_domain nsid u = Some (Err EINVAL, u) ∧ amu_save_domain nsid u = Some (Err EINVAL, u) ∧
     ∀ t l, t_nsid t = nsid → Forall (λ t, t_ppa_ready t = false) (t :: l) →
       amu_dispatch (t :: l) u = Some ((Err EINVAL, t :: l), u)).
Proof.
  split; [|split].
  - intros Hn. unfold amu_attach_domain, amu_detach_domain, amu_delete_domain. by rewrite Hn.
  - intros [ptr Ha]. unfold amu_attach_domain. destruct (bad_nsid nsid); [done|].
    unfold mbind, ST_bind, gets. by rewrite Ha.
  - intros Hn Ha.
    assert (domain_get_by_nsid nsid u = Some (None, u)) as Hget.
    { unfold domain_get_by_nsid. rewrite Hn. cbn. unfold mbind, ST_bind, gets. cbn. by rewrite Ha. }
    split; [|split].
    + unfold amu_detach_domain. rewrite Hn. unfold mbind, ST_bind, gets. by rewrite Ha.
    + unfold amu_save_domain. unfold mbind, ST_bind. by rewrite Hget.
    + intros t l <- Hl. assert (translate_lpa t u = Some ((Err EINVAL, t), u)) as Ht.
      { unfold translate_lpa, domain_get. by rewrite (bind_eq _ _ _ _ _ Hget). }
      assert (translate_all (t :: l) u = Some ((Err EINVAL, t :: l), u)) as Hall.
      { cbn [translate_all]. by rewrite (bind_eq _ _ _ _ _ Ht). }
      assert (∀ l', Forall (λ t, t_ppa_ready t = false) l' →
        for_each l' (λ txn, do_if (bool_decide (t_type txn = TXN_WRITE) && t_ppa_ready txn)
          (lift (bm_invalidate_page (ppa_to_address (t_ppa txn))))) u = Some (tt, u)) as Hskip.
      { clear. induction 1 as [|x l' Hx _ IH]; [done|]. cbn [for_each]. unfold mbind, ST_bind.
        rewrite Hx, andb_false_r. exact IH. }
      unfold amu_dispatch. rewrite (bind_eq _ _ _ _ _ Hall). cbn beta iota.
      rewrite (bind_eq _ _ (Err EINVAL, t :: l) u u) by done. cbn beta iota. by rewrite (bind_eq _ _ _ _ _ (Hskip _ Hl)).
Qed.

(** Defect.  When the directory of a new domain cannot be allocated,
    [domain_init] returns 0, so attaching reports success and installs a domain
    whose directory pointer is NULL. *)
Theorem amu_attach_null_gtd nsid bytes tlp reset u (ptr := m_next (bm_mach (am_bm u))) :
  bad_nsid nsid = false → am_active u !! NSID2IDX nsid = None →
  ptr ≠ 0 → alloc_ok ptr = true → alloc_ok (ptr + 1) = false →
  ∃ u' d, amu_attach_domain nsid bytes tlp reset u = Some (R0, u') ∧
    am_active u' !! NSID2IDX nsid = Some ptr ∧ am_domains u' !! ptr = Some d ∧ d_gtd d = [].
Proof.
  intros Hn Ha Hp Ho1 Ho2.
  enough (wp (amu_attach_domain nsid bytes tlp reset) (λ r u', r = R0 ∧
    am_active u' !! NSID2IDX nsid = Some ptr ∧ ∃ d, am_domains u' !! ptr = Some d ∧ d_gtd d = []) u) as Hw.
  { apply wp_run in Hw as (r & u' & E & -> & H1 & d & H2). by exists u', d. }
  unfold amu_attach_domain. rewrite Hn. wp_step. wp_step. rewrite Ha. apply wp_bind, wp_lift.
  unfold wp at 1, slaballoc. amu_cbn. change (m_next (@lget _ _ amu_mach_lens u)) with ptr. rewrite Ho1, (proj2 (Z.eqb_neq _ _)) by done.
  unfold upd_domains, upd_active. wp_step. wp_step. wp_step.
  eapply wp_on_domain; [apply lookup_insert_eq|].
  unfold domain_init, upd_dom. wp_step. wp_step. apply wp_bind, wp_lift. unfold wp at 1, alloc_words. amu_cbn.
  change (m_next _) with (ptr + 1). rewrite Ho2. cbn beta iota. rewrite Z.eqb_refl. wp_step. unfold xpc_free, dom. wp_step. wp_step.
  cbn [xpc_free_loop length inorder pc_root d_pcache xpc_init ds_dom]. wp_steps. cbn. wp_steps.
  split; [done|]. split; [apply lookup_insert_eq|]. eexists. split; [apply lookup_insert_eq|done].
Qed.
End errors.

(** * Examples *)

(** Namespace 1 with 8192 pages, empty, and two page buffers. *)
Definition ex_buf (c : Z) : buf := Buf (replicate 4 [c]) [].
(** No block is bad. *)
Definition ex_volume : sim_fs := {[BAD_BLOCKS_FILE := replicate 1536 0]}.
Definition ex_mach : mach := Mach sim (∅ : sim_nand) {[1 := ex_buf 7; 2 := ex_buf 8]} 16 ex_volume zero_stats.
Definition ex_bm : bm := Bm sim ex_mach (all_planes ready_plane).
Definition ex_dom_of (nsid : Z) : am_domain :=
  fresh_dom nsid 16 8192 DEFAULT_PLANE_ALLOCATE_SCHEME (replicate (Z.to_nat (pages_of 8192)) NO_MPPN ++ []).
Definition ex_dom : am_domain := ex_dom_of 1.
Definition ex_s : dom_st := DomSt sim ex_bm ex_dom.
Definition ex_u : amu := Amu sim ex_bm {[9 := ex_dom]} {[0 := 9]}.
Definition ex_txn (type : txn_type) (lpa data : Z) : flash_transaction :=
  Txn false type TS_USER_IO 1 lpa 0 zero_addr 15 false 0 data 0 FLASH_PG_SIZE 0 0 0 0.
Definition ex_P : flash_address → Prop := λ _, False.

Lemma ready_planes_inv (m : mach) : bm_inv (Bm sim m (all_planes ready_plane)).
Proof. by apply (bm_inv_planes ready_bm), ready_bm_inv. Qed.
Lemma ready_planes_ready n (m : mach) : (n ≤ 1045)%nat → bm_ready n (Bm sim m (all_planes ready_plane)).
Proof. intros Hn. by apply (bm_ready_planes n ready_bm), ready_bm_ready. Qed.
Lemma page_fresh_addr_ok (b : bm) a : page_fresh b a → addr_ok a.
Proof.
  intros (Hp & Hb & p & _ & _ & blk & j & _ & _ & Hj). split; [done|]. split; [done|].
  apply list_elem_of_lookup_2 in Hj. pose proof page_idx_map_range as Hr. rewrite Forall_forall in Hr. by apply Hr.
Qed.
Lemma ex_mem : mem_wf ex_mach.
Proof.
  split; [done|]. intros id b. cbn. intros [[<- <-]|[_ [<- <-]%lookup_singleton_Some]]%lookup_insert_Some; done.
Qed.
Lemma ex_fresh (m : mach) a : (∀ a, nand (m_dev m) a = None) → page_fresh (Bm sim m (all_planes ready_plane)) a →
  nand (m_dev m) a = None ∧ addr_ok a ∧ ¬ ex_P a.
Proof. intros Hn Ha. split; [done|]. split; [by eapply page_fresh_addr_ok|by intros []]. Qed.
Lemma ex_inv_of nsid : dom_inv ex_P None (DomSt sim ex_bm (ex_dom_of nsid)).
Proof.
  apply (fresh_blank (DomSt sim ex_bm (ex_dom_of nsid)) nsid 16 8192 DEFAULT_PLANE_ALLOCATE_SCHEME [] ex_P); try done.
  - apply ready_planes_inv.
  - apply ex_mem.
  - intros a. by apply (ex_fresh ex_mach).
Qed.
Lemma ex_inv : dom_inv ex_P None ex_s.
Proof. apply ex_inv_of. Qed.
Lemma ex_attached : attached 1 9 ex_s ex_u.
Proof. by split. Qed.
Lemma ex_owner lpa : 0 ≤ lpa < 8192 → owner_ok ex_dom (OData lpa).
Proof. intros H. cbn. change (ENTS * pages_of 8192) with 8192. done. Qed.
Lemma ex_write lpa data : 0 ≤ lpa < 8192 → data = 1 ∨ data = 2 → batch_req 1 ex_s (ex_txn TXN_WRITE lpa data).
Proof.
  intros Hl Hd. split; [|done]. split; [done|done|by apply ex_owner|].
  exists (ex_buf (if decide (data = 1) then 7 else 8)). split.
  - cbn. lia.
  - cbn [ex_txn t_data]. by destruct Hd as [-> | ->].
  - done.
  - split; [done|]. intros i Hi _. unfold in_range. cbn. change SECTOR_SIZE with 4096. change FLASH_PG_SIZE with 16384. lia.
Qed.
Lemma ex_programmed lpa : 0 ≤ lpa < 8192 → programmed ex_s lpa.
Proof.
  intros Hl Hn. exfalso. apply Hn. unfold amap_of.
  assert (blank ex_dom) as Hb.
  { intros v Hv. unfold gtd_at. cbn. destruct ((replicate _ _ ++ []) !! _) eqn:E; [|done].
    rewrite app_nil_r in E. by apply lookup_replicate in E as [-> _]. }
  rewrite (amap_blank _ ex_dom); [done|by eexists|done|by apply ex_owner].
Qed.

(** The namespace after a write of page 5. *)
Definition ex_l : list flash_transaction := [ex_txn TXN_WRITE 5 1].
Definition size_at (u : amu) (ptr : Z) : option (Z * Z) :=
  (λ d, (pc_size (d_pcache d), pc_capacity (d_pcache d))) <$> am_domains u !! ptr.
Lemma ex_written : ∃ l' s', amu_dispatch ex_l ex_u = Some ((R0, l'), with_dom 9 s' ex_u) ∧
  dom_inv ex_P None s' ∧ written ex_s s' ex_l ∧ evolves ex_s s' ∧
  pc_size (d_pcache (ds_dom s')) = 1 ∧ pc_capacity (d_pcache (ds_dom s')) = 16 ∧ is_Some (buf_at s' 2).
Proof.
  pose proof (wp_dispatch_writes ex_P 1 9 ex_s ex_u ex_l ex_attached ex_inv) as Hw.
  assert (Forall (batch_req 1 ex_s) ex_l) as Hl by (repeat constructor; apply ex_write; lia).
  specialize (Hw Hl (NoDup_singleton _) (NoDup_singleton _) ltac:(done) ltac:(by apply ready_planes_ready; simpl; lia)).
  apply wp_run in Hw as ([r l'] & u' & E & s' & -> & Hi & Hev & Hwr & Hok).
  assert (r = R0) as ->.
  { apply Hok; [apply _..|]. repeat constructor. by apply ex_programmed. }
  exists l', s'. split; [done|]. split; [done|]. split; [by apply Hwr|]. split; [done|].
  assert ((λ p, size_at p.2 9) <$> amu_dispatch ex_l ex_u = Some (Some (1, 16))) as Hsz by by vm_compute.
  rewrite E in Hsz. cbn [fmap option_fmap option_map snd] in Hsz. unfold size_at, with_dom in Hsz. cbn [am_domains] in Hsz.
  rewrite lookup_insert_eq in Hsz. cbn in Hsz. injection Hsz as -> ->. split; [done|]. split; [done|].
  assert ((λ p, m_mem (bm_mach (am_bm p.2)) !! 2) <$> amu_dispatch ex_l ex_u = Some (Some (ex_buf 8))) as Hb by by vm_compute.
  rewrite E in Hb. injection Hb as Hb. eexists. exact Hb.
Qed.
Lemma ex_sector i : (i < 4)%nat → b_data (ex_buf 7) !! i = Some [7].
Proof. intros Hi. by do 4 (destruct i as [|i]; [done|]); lia. Qed.
Lemma ex_bit i : (i < 4)%nat → Z.testbit 15 (Z.of_nat i) = true.
Proof. intros Hi. by do 4 (destruct i as [|i]; [done|]); lia. Qed.
Lemma ex_reads s' i : written ex_s s' ex_l → (i < 4)%nat → readsv s' 5 i [7].
Proof.
  intros Hw Hi. destruct (wr_sectors _ _ _ Hw (ex_txn TXN_WRITE 5 1) i [7] ltac:(by left) Hi) as [H _].
  apply (H (ex_bit i Hi) (ex_buf 7)); [done|by apply ex_sector].
Qed.

Theorem amu_writes_correct_witness : ∃ r l' s',
  amu_dispatch [ex_txn TXN_WRITE 5 1; ex_txn TXN_WRITE 4100 2] ex_u = Some ((r, l'), with_dom 9 s' ex_u) ∧ r = R0.
Proof.
  destruct (amu_writes_correct ex_P 1 9 ex_s ex_u [ex_txn TXN_WRITE 5 1; ex_txn TXN_WRITE 4100 2]) as (r & l' & s' & E & _ & _ & Hok).
  - exact ex_attached.
  - exact ex_inv.
  - repeat constructor; apply ex_write; lia.
  - apply (bool_decide_unpack _). vm_compute. exact I.
  - apply (bool_decide_unpack _). vm_compute. exact I.
  - vm_compute. discriminate.
  - apply ready_planes_ready. simpl. lia.
  - exists r, l', s'. split; [exact E|]. apply Hok; [apply _|apply _|].
    repeat constructor; apply ex_programmed; simpl; lia.
Defined.

Theorem amu_isolation_witness : ∃ r l' s', amu_dispatch ex_l ex_u = Some ((r, l'), with_dom 9 s' ex_u) ∧
  dom_wf (nandv s') (page_fresh (ds_bm s')) ex_P None (ex_dom_of 2).
Proof.
  destruct (amu_isolation ex_P ex_P 1 9 ex_s ex_u ex_l (ex_dom_of 2)) as (r & l' & s' & E & Hd & _).
  - exact ex_attached.
  - exact ex_inv.
  - repeat constructor; apply ex_write; lia.
  - apply NoDup_singleton.
  - apply NoDup_singleton.
  - vm_compute. discriminate.
  - apply ready_planes_ready. simpl. lia.
  - apply (di_dom _ _ _ (ex_inv_of 2)).
  - exists r, l', s'. split; [exact E|exact Hd].
Defined.

Theorem amu_attach_reset_witness : ∃ u', amu_attach_domain 2 65536 8192 true ex_u = Some (R0, u').
Proof.
  destruct (amu_attach_reset ex_P 2 65536 8192 ex_u) as (ptr & s' & u' & E & _).
  - reflexivity.
  - reflexivity.
  - apply ready_planes_inv.
  - apply ex_mem.
  - lia.
  - vm_compute. discriminate.
  - intros a. apply (ex_fresh ex_mach). reflexivity.
  - exists u'. exact E.
Defined.

Theorem amu_reads_correct_witness : ∃ s u l' s', amu_dispatch [ex_txn TXN_READ 5 2] u = Some ((R0, l'), with_dom 9 s' u) ∧
  read_done s s' [ex_txn TXN_READ 5 2] ∧ readsv s 5 0 [7].
Proof.
  destruct ex_written as (l1 & s1 & _ & Hi & Hw & Hev & Hs & Hc & Hb).
  pose proof (ex_reads s1 0 Hw ltac:(lia)) as Hr. pose proof Hr as (Hm & _ & p & Hp & _).
  destruct (amu_reads_correct ex_P 1 9 s1 (with_dom 9 s1 ex_u) [ex_txn TXN_READ 5 2]) as (l' & s' & E & _ & Hd & _).
  - apply (attached_with 1 9 ex_s); [exact ex_attached|apply (ev_consts _ _ Hev)].
  - exact Hi.
  - constructor; [|constructor]. split; [reflexivity|reflexivity|reflexivity| |exact Hm|eexists; exact Hp| |reflexivity].
    + apply (owner_ok_same _ _ _ (ev_consts _ _ Hev)). apply ex_owner. simpl. lia.
    + split; [discriminate|exact Hb].
  - apply NoDup_singleton.
  - rewrite Hs, Hc. vm_compute. discriminate.
  - exists s1, (with_dom 9 s1 ex_u), l', s'. split; [exact E|]. split; [exact Hd|exact Hr].
Defined.

(** After the write the cache holds one dirty translation page. *)
Lemma ex_flushable : ∃ s u, attached 1 9 s u ∧ dom_inv ex_P None s ∧ flushable s ∧ d_nsid (ds_dom s) = 1 ∧
  d_kref (ds_dom s) = 1 ∧ d_total_xlate_pages (ds_dom s) = 2 ∧ readsv s 5 0 [7].
Proof.
  destruct ex_written as (l1 & s1 & E & Hi & Hw & Hev & Hs & _). exists s1, (with_dom 9 s1 ex_u).
  destruct (ev_consts _ _ Hev) as (C1 & C2 & _ & _ & _ & _ & C3 & _).
  split; [apply (attached_with 1 9 ex_s); [exact ex_attached|done]|]. split; [done|]. split.
  - assert ((λ p, (λ d, height (pc_root (d_pcache d))) <$> am_domains p.2 !! 9) <$> amu_dispatch ex_l ex_u = Some (Some 1)) as Hh
      by by vm_compute.
    assert ((λ p, bool_decide (map_Forall (λ _ p, is_Some (data_wf p) ∧ is_Some (gc_wf p) ∧ is_Some (mapping_wf p) ∧
      (1 ≤ length (free_list p))%nat) (bm_planes (am_bm p.2)))) <$> amu_dispatch ex_l ex_u = Some true) as Hr by by vm_compute.
    rewrite E in Hh, Hr. cbn [fmap option_fmap option_map snd with_dom am_domains am_bm] in Hh, Hr.
    rewrite lookup_insert_eq in Hh. cbn in Hh. injection Hh as Hh. injection Hr as Hr%bool_decide_eq_true.
    split; [lia|rewrite Hh; done|]. rewrite Hs. intros a p Ha Hp. destruct (Hr _ _ Hp) as (? & ? & ? & ?).
    split; [|done]. by intros [] [].
  - split; [done|]. split; [done|]. split; [by rewrite C3|]. by apply ex_reads; [|lia].
Qed.

Theorem amu_reattach_roundtrip_witness : ∃ s u u1 u2 ptr' s', amu_detach_domain 1 u = Some (R0, u1) ∧
  amu_attach_domain 1 65536 8192 false u1 = Some (R0, u2) ∧ attached 1 ptr' s' u2 ∧
  readsv s 5 0 [7] ∧ readsv s' 5 0 [7].
Proof.
  destruct ex_flushable as (s & u & Hat & Hi & Hf & Hn & Hk & Ht & Hr).
  destruct (amu_reattach_roundtrip ex_P 1 9 s u 65536 8192) as (u1 & u2 & ptr' & s' & E1 & E2 & _ & Hat' & _ & _ & Hrd).
  - exact Hat.
  - exact Hi.
  - exact Hf.
  - exact Hn.
  - exact Hk.
  - lia.
  - rewrite Ht. reflexivity.
  - exists s, u, u1, u2, ptr', s'. do 4 (split; [assumption|]). apply Hrd; [|exact Hr].
    cbn [owner_ok]. rewrite Ht. vm_compute. split; [discriminate|reflexivity].
Defined.

Theorem amu_save_correct_witness : ∃ s u s', amu_save_domain 1 u = Some (R0, with_dom 9 s' u) ∧ all_clean (ds_dom s') ∧
  readsv s 5 0 [7].
Proof.
  destruct ex_flushable as (s & u & Hat & Hi & Hf & Hn & Hk & Ht & Hr).
  destruct (amu_save_correct ex_P 1 9 s u) as (s' & E & _ & Hc & _).
  - exact Hat.
  - exact Hi.
  - exact Hf.
  - exact Hn.
  - exists s, u, s'. split; [exact E|]. split; [exact Hc|exact Hr].
Defined.

(** Defect.  A cached translation page that is recycled for another part of
    the map is not reloaded: in a namespace of 8192 pages with room for one
    translation page, after page 0 has been written, reading page 4096, which
    was never written, succeeds and returns the data of page 0. *)
Theorem amu_recycled_page_stale :
  ((_ ← amu_attach_domain 1 XLATE_PG_SIZE 8192 true;
    _ ← amu_dispatch [ex_txn TXN_WRITE 0 1];
    '(r, _) ← amu_dispatch [ex_txn TXN_READ 4096 2];
    b ← lift (load 2);
    mret (r, b_data b)) : ST amu (rc * list sector)) (Amu sim ex_bm ∅ ∅) ≫= (λ p, Some p.1)
  = Some (R0, b_data (ex_buf 7)).
Proof. by vm_compute. Qed.

(** Memory that runs out at the second request. *)
Definition oom : Platform := {|
  dev := @dev sim; dev_fil := @dev_fil sim; dev_ecc := @dev_ecc sim; dev_dma := @dev_dma sim; nand := @nand sim;
  alloc_ok n := negb (n =? 2); junk := @junk sim; junk_words := @junk_words sim;
  fs := @fs sim; FIL := @FIL sim; contents := @contents sim; fil_at := @fil_at sim; f_open := @f_open sim;
  f_lseek := @f_lseek sim; f_write := @f_write sim; f_read := @f_read sim; f_close := @f_close sim;
  f_stat := @f_stat sim; f_unlink := @f_unlink sim;
|}.
Definition oom_u : @amu oom := @Amu oom (@Bm oom (@Mach oom (∅ : sim_nand) ∅ 1 (∅ : sim_fs) zero_stats) ∅) ∅ ∅.
Theorem amu_attach_null_gtd_witness : ∃ u' d, @amu_attach_domain oom 1 65536 8192 true oom_u = Some (R0, u') ∧
  am_domains u' !! 1 = Some d ∧ d_gtd d = [].
Proof.
  destruct (@amu_attach_null_gtd oom 1 65536 8192 true oom_u) as (u' & d & E & _ & Hd & Hg).
  - reflexivity.
  - reflexivity.
  - discriminate.
  - reflexivity.
  - reflexivity.
  - exists u', d. split; [exact E|]. split; [exact Hd|exact Hg].
Defined.
