(* ===== verification/DataCache.v ===== *)
(** The volatile data cache, ftl/data_cache.c, with the write cache enabled and
    its pages outside PS DDR (USE_WRITE_CACHE = 1, DATA_CACHE_USE_PS_DDR = 0),
    and the request it serves (types.h).

    The host's side of a transfer is the typeclass [Host].  Entries, like
    translation pages, are objects at addresses; the tree and the LRU list hold
    the addresses. *)
From S2P Require Import Prelude Bitmap Avl Flash Machine BlockManager Amu.
#[local] Open Scope Z_scope.

(** * The host *)

(** What a request names as its buffer: the two PRP fields of the command, and
    the address of a buffer of the in-storage processor (0: none). *)
Definition target : Type := Z * Z * Z.
(** [host_in] reads the given number of sectors from the buffer of a request,
    [host_out] writes sectors to it; on an error the list is what the receiving
    buffers hold afterwards.  [None] is a failed assertion. *)
Class Host := {
  host : Type;
  host_mem : host → target → nat → list sector;
  host_in : target → nat → host → option (rc * list sector * host);
  host_out : target → list sector → host → option (rc * host);
}.
Class HostOk `{Host} : Prop := {
  host_in_len : ∀ tgt n h r l h', host_in tgt n h = Some (r, l, h') → length l = n;
  host_in_ok : ∀ tgt n h l h', host_in tgt n h = Some (R0, l, h') → l = host_mem h tgt n ∧ h' = h;
}.
(** Every buffer reads back what was written to it. *)
Class HostReadback `{Host} : Prop :=
  host_out_ok : ∀ tgt l h h', host_out tgt l h = Some (R0, h') → host_mem h' tgt (length l) = l.

(** * Requests (types.h) *)
Inductive ioreq := IOREQ_READ | IOREQ_WRITE | IOREQ_WRITE_ZEROES | IOREQ_FLUSH | IOREQ_FLUSH_DATA | IOREQ_SYNC
  | IOREQ_OTHER (code : Z).
#[export] Instance ioreq_eq_dec : EqDecision ioreq.
Proof. solve_decision. Defined.
Record user_request := Req {
  rq_req_type : ioreq;
  rq_nsid_ : Z;
  rq_start_lba : Z;
  rq_sector_count : Z;
  rq_prps : Z * Z;
  rq_buf_phys : Z;
}.
Definition rq_target (req : user_request) : target := (rq_prps req, rq_buf_phys req).

(** * Data *)
Definition WB_BATCH_SIZE : nat := 16.
Definition MAX_DATA_TRANSFER_SIZE : Z := 8.
Definition NR_FLUSHERS : Z := 8.
Inductive cache_entry_status := CES_EMPTY | CES_CLEAN | CES_DIRTY.
#[export] Instance ces_eq_dec : EqDecision cache_entry_status.
Proof. solve_decision. Defined.

(** [cache_entry_key]: namespace, logical page. *)
Definition cache_entry_key : Type := Z * Z.
Record cache_entry := Ce {
  ce_key : cache_entry_key;
  ce_bitmap : Z;
  ce_status : cache_entry_status;
  ce_pin_count : Z;
  ce_owned : bool;     (* the mutex is owned by the running thread *)
  ce_data : Z;
}.
Record data_cache := Dcache {
  capacity_pages : Z;
  nr_pages : Z;
  dc_root : tree Z;
  dc_lru_list : list Z;
  dc_entries : gmap Z cache_entry;
  total_read_hits : Z;
  total_read_misses : Z;
}.
(** [fc_nsid]: [cache] and [nsid] of a flusher that has been given work. *)
Record flushers := Flushers { flusher_active : Z; flusher_nsid : list (option Z) }.
Record dc `{Platform} `{Host} := Dc {
  dc_amu : amu;
  g_cache : data_cache;
  dc_flushers : flushers;
  dc_host : host;
}.

#[export] Instance cache_cmp_key : OrdKey cache_entry_key := λ k1 k2,
  if k1.1 <? k2.1 then -1 else if k2.1 <? k1.1 then 1
  else if k1.2 <? k2.2 then -1 else if k2.2 <? k1.2 then 1 else 0.

(** ** Field updates *)
Definition set_ce_key (k : cache_entry_key) (e : cache_entry) : cache_entry :=
  Ce k (ce_bitmap e) (ce_status e) (ce_pin_count e) (ce_owned e) (ce_data e).
Definition set_ce_bitmap (b : Z) (e : cache_entry) : cache_entry :=
  Ce (ce_key e) b (ce_status e) (ce_pin_count e) (ce_owned e) (ce_data e).
Definition set_ce_status (s : cache_entry_status) (e : cache_entry) : cache_entry :=
  Ce (ce_key e) (ce_bitmap e) s (ce_pin_count e) (ce_owned e) (ce_data e).
Definition set_ce_pin (n : Z) (e : cache_entry) : cache_entry :=
  Ce (ce_key e) (ce_bitmap e) (ce_status e) n (ce_owned e) (ce_data e).
Definition set_ce_owned (b : bool) (e : cache_entry) : cache_entry :=
  Ce (ce_key e) (ce_bitmap e) (ce_status e) (ce_pin_count e) b (ce_data e).
Definition set_dc_tree (t : tree Z) (c : data_cache) : data_cache :=
  Dcache (capacity_pages c) (nr_pages c) t (dc_lru_list c) (dc_entries c) (total_read_hits c) (total_read_misses c).
Definition set_dc_nr (n : Z) (c : data_cache) : data_cache :=
  Dcache (capacity_pages c) n (dc_root c) (dc_lru_list c) (dc_entries c) (total_read_hits c) (total_read_misses c).
Definition set_dc_lru (l : list Z) (c : data_cache) : data_cache :=
  Dcache (capacity_pages c) (nr_pages c) (dc_root c) l (dc_entries c) (total_read_hits c) (total_read_misses c).
Definition set_dc_entries (m : gmap Z cache_entry) (c : data_cache) : data_cache :=
  Dcache (capacity_pages c) (nr_pages c) (dc_root c) (dc_lru_list c) m (total_read_hits c) (total_read_misses c).
Definition count_hit (hit : bool) (c : data_cache) : data_cache :=
  Dcache (capacity_pages c) (nr_pages c) (dc_root c) (dc_lru_list c) (dc_entries c)
    (if hit then u64 (total_read_hits c + 1) else total_read_hits c)
    (if hit then total_read_misses c else u64 (total_read_misses c + 1)).
Definition set_t_req (b : bool) (t : flash_transaction) : flash_transaction :=
  Txn b (t_type t) (t_source t) (t_nsid t) (t_lpa t) (t_ppa t) (t_addr t) (t_bitmap t)
    (t_ppa_ready t) (t_opaque t) (t_data t) (t_offset t) (t_length t) (t_code_length t)
    (t_err_bitmap t) (t_xfer_us t) (t_exec_us t).

#[export] Instance dc_amu_lens `{Platform} `{Host} : Lens dc amu.
Proof. refine {| lget := dc_amu; lset u s := Dc _ _ u (g_cache s) (dc_flushers s) (dc_host s) |}. done. Defined.
#[export] Instance dc_mach_lens `{Platform} `{Host} : Lens dc mach.
Proof.
  refine {| lget s := bm_mach (am_bm (dc_amu s));
            lset m s := Dc _ _ (lset m (dc_amu s)) (g_cache s) (dc_flushers s) (dc_host s) |}. done.
Defined.

Section ops.
Context `{Platform} `{Host}.

(** * The entries *)
Definition cache : ST dc data_cache := gets g_cache.
Definition upd_cache (f : data_cache → data_cache) : ST dc unit :=
  modify (λ s, Dc _ _ (dc_amu s) (f (g_cache s)) (dc_flushers s) (dc_host s)).
Definition entry_at (id : Z) : ST dc cache_entry := c ← cache; deref (dc_entries c !! id).
Definition upd_entry (id : Z) (f : cache_entry → cache_entry) : ST dc unit :=
  e ← entry_at id; upd_cache (λ c, set_dc_entries (<[id := f e]> (dc_entries c)) c).
Definition ce_keys (m : gmap Z cache_entry) (id : Z) : cache_entry_key := default (0, 0) (ce_key <$> m !! id).

(** [cache_init] with the capacity of [dc_init]. *)
Definition dc_init (capacity : Z) : data_cache := Dcache (capacity / FLASH_PG_SIZE) 0 Leaf [] ∅ 0 0.

Definition cache_find (c : data_cache) (nsid lpa : Z) : option Z :=
  avl_find (ce_keys (dc_entries c)) (nsid, lpa) (dc_root c).
Definition add_entry (id : Z) : ST dc unit :=
  upd_cache (λ c, set_dc_nr (nr_pages c + 1) (set_dc_tree (avl_insert (ce_keys (dc_entries c)) id (dc_root c)) c)).
Definition erase_entry (id : Z) : ST dc unit :=
  upd_cache (λ c, set_dc_tree (avl_erase (ce_keys (dc_entries c)) id (dc_root c)) c).
Definition add_lru (id : Z) : ST dc unit := upd_cache (λ c, set_dc_lru (list_add id (dc_lru_list c)) c).
Definition remove_lru (id : Z) : ST dc unit := upd_cache (λ c, set_dc_lru (list_del id (dc_lru_list c)) c).
Definition pin_entry (id : Z) : ST dc unit :=
  e ← entry_at id;
  upd_entry id (set_ce_pin (u32 (ce_pin_count e + 1))) ≫= λ _,
  do_if (ce_pin_count e =? 0) (remove_lru id).
Definition unpin_entry (id : Z) : ST dc unit :=
  e ← entry_at id;
  assert (0 <? ce_pin_count e) ≫= λ _,
  upd_entry id (set_ce_pin (ce_pin_count e - 1)) ≫= λ _,
  do_if (ce_pin_count e - 1 =? 0) (add_lru id).
Definition cache_touch_lru (id : Z) : ST dc unit := pin_entry id ≫= λ _, unpin_entry id.
(** Uncontended, as in Amu.v. *)
Definition lock_entry (id : Z) : ST dc unit := upd_entry id (set_ce_owned true).
Definition unlock_entry (id : Z) : ST dc unit := upd_entry id (set_ce_owned false).

Definition cache_add (nsid lpa bitmap : Z) : ST dc (rc * Z) :=
  c ← cache;
  if capacity_pages c <=? nr_pages c then mret (Err ENOSPC, 0)
  else
    id ← lift slaballoc;
    if id =? 0 then mret (Err ENOMEM, 0)
    else
      data ← lift alloc_vmpages;
      if data =? 0 then mret (Err ENOMEM, 0)
      else
        upd_cache (λ c, set_dc_entries (<[id := Ce (nsid, lpa) bitmap CES_DIRTY 1 false data]> (dc_entries c)) c) ≫= λ _,
        add_entry id ≫= λ _,
        mret (R0, id).

Definition cache_evict_entry : ST dc (rc * Z) :=
  c ← cache;
  match last (dc_lru_list c) with
  | None => mret (Err ENOMEM, 0)
  | Some id =>
      e ← entry_at id;
      assert (ce_pin_count e =? 0) ≫= λ _,
      remove_lru id ≫= λ _,
      erase_entry id ≫= λ _,
      upd_cache (λ c, set_dc_nr (nr_pages c - 1) c) ≫= λ _,
      mret (R0, id)
  end.

(** The sectors of [bitmap] from one page to another. *)
Definition copy_sectors (bitmap : Z) (src dst : list sector) : list sector :=
  imap (λ i d, if Z.testbit bitmap (Z.of_nat i) then default d (src !! i) else d) dst.
Definition generate_writeback (id : Z) : ST dc (rc * flash_transaction) :=
  e ← entry_at id;
  data ← lift alloc_vmpages;
  if data =? 0 then mret (Err ENOMEM, flash_transaction_init)
  else
    src ← lift (load (ce_data e));
    dst ← lift (load data);
    lift (store data (Buf (copy_sectors (ce_bitmap e) (b_data src) (b_data dst)) (b_oob dst))) ≫= λ _,
    mret (R0, Txn false TXN_WRITE TS_USER_IO (ce_key e).1 (ce_key e).2 NO_PPA zero_addr (ce_bitmap e)
                false 0 data 0 FLASH_PG_SIZE 0 0 0 0).

(** * Transfers between the host and page buffers

    One segment per transaction, in whole sectors. *)
Record iovec := Iovec { iov_base : Z; iov_from : nat; iov_len : nat }.
Definition txn_iov (data : Z) (t : flash_transaction) : iovec :=
  Iovec data (Z.to_nat (t_offset t / SECTOR_SIZE)) (Z.to_nat (t_length t / SECTOR_SIZE)).
Definition iov_write (v : iovec) (l : list sector) : ST mach unit :=
  b ← load (iov_base v);
  assert (Nat.leb (iov_from v + iov_len v) (length (b_data b))) ≫= λ _,
  store (iov_base v) (Buf (take (iov_from v) (b_data b) ++ l ++ drop (iov_from v + iov_len v) (b_data b)) (b_oob b)).
Definition iov_read (v : iovec) : ST mach (list sector) :=
  b ← load (iov_base v);
  assert (Nat.leb (iov_from v + iov_len v) (length (b_data b))) ≫= λ _,
  mret (take (iov_len v) (drop (iov_from v) (b_data b))).
Definition iov_count (iov : list iovec) : nat := sum_list (iov_len <$> iov).
Fixpoint scatter (iov : list iovec) (l : list sector) : ST mach unit :=
  match iov with
  | [] => mret tt
  | v :: iov => iov_write v (take (iov_len v) l) ≫= λ _, scatter iov (drop (iov_len v) l)
  end.
Fixpoint gather (iov : list iovec) : ST mach (list sector) :=
  match iov with
  | [] => mret []
  | v :: iov => l ← iov_read v; l' ← gather iov; mret (l ++ l')
  end.
Definition nvme_dma_read (req : user_request) (iov : list iovec) : ST dc rc :=
  h ← gets dc_host;
  '(r, l, h) ← deref (host_in (rq_target req) (iov_count iov) h);
  modify (λ s, Dc _ _ (dc_amu s) (g_cache s) (dc_flushers s) h) ≫= λ _,
  lift (scatter iov l) ≫= λ _,
  mret r.
Definition nvme_dma_write (req : user_request) (iov : list iovec) : ST dc rc :=
  l ← lift (gather iov);
  h ← gets dc_host;
  '(r, h) ← deref (host_out (rq_target req) l h);
  modify (λ s, Dc _ _ (dc_amu s) (g_cache s) (dc_flushers s) h) ≫= λ _,
  mret r.

(** * Writes *)

(** The cache entry of one transaction, pinned and locked, and the write-back
    of the entry that had to make room.  The first component is what is assigned
    to [r], if anything: a hit assigns nothing. *)
Definition write_entry (txn : flash_transaction) : ST dc (option rc * Z * option flash_transaction) :=
  c ← cache;
  match cache_find c (t_nsid txn) (t_lpa txn) with
  | Some entry =>
      pin_entry entry ≫= λ _, lock_entry entry ≫= λ _,
      upd_entry entry (λ e, set_ce_status CES_DIRTY (set_ce_bitmap (Z.lor (ce_bitmap e) (t_bitmap txn)) e)) ≫= λ _,
      e ← entry_at entry;
      assert ((ce_key e).2 =? t_lpa txn) ≫= λ _,
      mret (None, entry, None)
  | None =>
      '(r, entry) ← cache_add (t_nsid txn) (t_lpa txn) (t_bitmap txn);
      if bool_decide (r = Err ENOSPC) then
        '(r, entry) ← cache_evict_entry;
        match r with
        | Err _ => mret (Some r, 0, None)
        | R0 =>
            e ← entry_at entry;
            '(r, wb) ←
              (if bool_decide (ce_status e = CES_DIRTY) then
                 wb_txn ← lift slaballoc;
                 if wb_txn =? 0 then mret (Err ENOMEM, None)
                 else
                   '(r, wb) ← generate_writeback entry;
                   match r with
                   | Err _ => mret (r, None)
                   | R0 => mret (R0, Some (set_t_req (t_req txn) wb))
                   end
               else mret (R0, None));
            match r with
            | Err _ => mret (Some r, 0, None)
            | R0 =>
                upd_entry entry (λ e, set_ce_bitmap (t_bitmap txn)
                  (set_ce_key (t_nsid txn, t_lpa txn) (set_ce_status CES_DIRTY e))) ≫= λ _,
                add_entry entry ≫= λ _,
                pin_entry entry ≫= λ _, lock_entry entry ≫= λ _,
                mret (Some R0, entry, wb)
            end
        end
      else
        match r with
        | Err _ => mret (Some r, 0, None)
        | R0 =>
            e ← entry_at entry;
            assert (ce_pin_count e =? 1) ≫= λ _,
            lock_entry entry ≫= λ _,
            mret (Some R0, entry, None)
        end
  end.

(** The preparation loop; [i] counts the segments and [r] is the value of the
    variable of that name.  Returns whether it ended early, the transactions with
    their entries, the write-backs and the segments. *)
Fixpoint prepare_writes (write_zeroes : bool) (i : Z) (r : rc) (l : list flash_transaction) :
    ST dc (bool * rc * list flash_transaction * list flash_transaction * list iovec) :=
  match l with
  | [] => mret (false, r, [], [], [])
  | txn :: l =>
      if Z.shiftl 1 MAX_DATA_TRANSFER_SIZE <=? i then mret (true, Err ENOMEM, txn :: l, [], [])
      else
        '(assigned, entry, wb) ← write_entry txn;
        let r := default r assigned in
        if bool_decide (assigned = Some R0 ∨ assigned = None) then
          e ← entry_at entry;
          let txn := set_t_data (t_data txn) entry txn in
          let v := txn_iov (ce_data e) txn in
          do_if write_zeroes (lift (iov_write v (replicate (iov_len v) (replicate 1024 0)))) ≫= λ _,
          '(early, r, l, wbs, iov) ← prepare_writes write_zeroes (i + 1) r l;
          mret (early, r, txn :: l, option_list wb ++ wbs, v :: iov)
        else mret (true, r, txn :: l, [], [])
  end.

(** [r0]: the indeterminate initial value of [r]. *)
Definition write_buffers (r0 : rc) (req : user_request) (txn_list : list flash_transaction) (write_zeroes : bool) : ST dc rc :=
  '(early, r, txn_list, wb_txns, iov) ← prepare_writes write_zeroes 0 r0 txn_list;
  '(early, r, wb_txns) ←
    (if (early : bool) then mret (true, r, wb_txns)
     else match wb_txns with
          | [] => mret (false, r, wb_txns)
          | _ => '(r, wb_txns) ← lift (amu_dispatch wb_txns); mret (negb (is_ok r), r, wb_txns)
          end);
  r ← (if (early : bool) || write_zeroes then mret r else nvme_dma_read req iov);
  for_each wb_txns (λ txn, do_if (negb (t_data txn =? 0)) (lift (free_mem (t_data txn)))) ≫= λ _,
  for_each txn_list (λ txn,
    let entry := t_opaque txn in
    do_if (negb (is_ok r)) (upd_entry entry (set_ce_status CES_EMPTY) ≫= λ _, erase_entry entry) ≫= λ _,
    unlock_entry entry ≫= λ _,
    unpin_entry entry) ≫= λ _,
  mret r.

(** * Reads *)

(** The first loop: transactions that hit, most recent first, those that miss,
    and the segments. *)
Fixpoint prepare_reads (l : list flash_transaction) :
    ST dc (rc * list flash_transaction * list flash_transaction * list iovec) :=
  match l with
  | [] => mret (R0, [], [], [])
  | txn :: l =>
      c ← cache;
      let found := cache_find c (t_nsid txn) (t_lpa txn) in
      avail ← (match found with
               | Some entry => e ← entry_at entry; mret (Z.land (ce_bitmap e) (t_bitmap txn))
               | None => mret 0
               end);
      match found, avail =? t_bitmap txn with
      | Some entry, true =>
          pin_entry entry ≫= λ _, lock_entry entry ≫= λ _,
          e ← entry_at entry;
          let txn := set_t_data (ce_data e) entry txn in
          upd_cache (count_hit true) ≫= λ _,
          '(r, hits, misses, iov) ← prepare_reads l;
          mret (r, hits ++ [txn], misses, txn_iov (t_data txn) txn :: iov)
      | _, _ =>
          data ← lift alloc_vmpages;
          if data =? 0 then mret (Err ENOMEM, [], txn :: l, [])
          else
            opaque ← (match found with
                      | Some entry =>
                          if negb (avail =? 0) then
                            pin_entry entry ≫= λ _, lock_entry entry ≫= λ _, mret entry
                          else cache_touch_lru entry ≫= λ _, mret 0
                      | None => mret 0
                      end);
            let txn := set_t_data data opaque
              (set_t_range (Z.ldiff (t_bitmap txn) avail) (t_offset txn) (t_length txn) txn) in
            upd_cache (count_hit false) ≫= λ _,
            '(r, hits, misses, iov) ← prepare_reads l;
            mret (r, hits, txn :: misses, txn_iov data txn :: iov)
      end
  end.

(** Lay the cached sectors of one transaction over what was read. *)
Definition overlay_cached (r : rc) (txn : flash_transaction) : ST dc rc :=
  let entry := t_opaque txn in
  if entry =? 0 then mret r
  else
    e ← entry_at entry;
    r ← (match r with
         | Err _ => mret r
         | R0 =>
             let v := txn_iov (t_data txn) txn in
             let copy_iov := (λ i, if Z.testbit (ce_bitmap e) (Z.of_nat i) then Some (t_data txn, i) else None)
                               <$> seq (iov_from v) (iov_len v) in
             lift (zdma_iter_copy_to copy_iov (ce_data e) (iov_from v))
         end);
    unlock_entry entry ≫= λ _,
    unpin_entry entry ≫= λ _,
    mret r.
Fixpoint overlay_all (r : rc) (l : list flash_transaction) : ST dc rc :=
  match l with
  | [] => mret r
  | txn :: l => r ← overlay_cached r txn; overlay_all r l
  end.

(** The result of the overlay is overwritten by that of [nvme_dma_write]. *)
Definition handle_cached_read (req : user_request) (txn_list : list flash_transaction) : ST dc rc :=
  '(r, hit_list, txn_list, iov) ← prepare_reads txn_list;
  '(r, txn_list) ←
    (match r with
     | Err _ => mret (r, txn_list)
     | R0 => lift (amu_dispatch txn_list)
     end);
  r ← (match r with
       | Err _ => mret r
       | R0 => overlay_all R0 txn_list ≫= λ _, nvme_dma_write req iov
       end);
  for_each hit_list (λ txn, unlock_entry (t_opaque txn) ≫= λ _, unpin_entry (t_opaque txn)) ≫= λ _,
  for_each txn_list (λ txn, do_if (negb (t_data txn =? 0)) (lift (free_mem (t_data txn)))) ≫= λ _,
  mret r.

Definition dc_process_request (r0 : rc) (req : user_request) (txn_list : list flash_transaction) : ST dc rc :=
  match rq_req_type req with
  | IOREQ_READ => handle_cached_read req txn_list
  | IOREQ_WRITE => write_buffers r0 req txn_list false
  | IOREQ_WRITE_ZEROES => write_buffers r0 req txn_list true
  | _ => mret (Err EINVAL)
  end.

(** * Flushing *)
Definition LPA_MAX : Z := 2 ^ 64 - 1.
(** Walk the tree from [iter] for at most [n] dirty entries of the flusher
    [tag]; the entries and, when the array filled up, the page to resume from.
    [fuel]: the size of the tree. *)
Fixpoint lookup_loop (fuel : nat) (m : gmap Z cache_entry) (nsid end_ tag : Z) (n : nat) (iter : avl_iter Z) :
    option (list Z * option Z) :=
  match avl_get_iter iter with
  | None => Some ([], None)
  | Some id =>
      match fuel, m !! id with
      | S fuel, Some e =>
          if negb ((ce_key e).1 =? nsid) || (end_ <=? (ce_key e).2) then Some ([], None)
          else if negb (bool_decide (ce_status e = CES_DIRTY)) || negb ((ce_key e).2 mod NR_FLUSHERS =? tag)
          then lookup_loop fuel m nsid end_ tag n (avl_inc_iter iter)
          else
            match n with
            | S (S _ as n) =>
                '(ids, next) ← lookup_loop fuel m nsid end_ tag n (avl_inc_iter iter);
                Some (id :: ids, next)
            | _ => Some ([id], Some (u64 ((ce_key e).2 + 1)))
            end
      | _, _ => None
      end
  end.
(** [*offset] becomes [end] (both branches of the C code) when the tree is
    exhausted. *)
Definition cache_lookup_range (nsid offset end_ tag : Z) (nr_entries : nat) : ST dc (list Z * Z) :=
  c ← cache;
  match nr_entries with
  | O => mret ([], offset)
  | _ =>
      '(ids, next) ← deref (lookup_loop (length (inorder (dc_root c))) (dc_entries c) nsid end_ tag nr_entries
        (avl_start_iter (ce_keys (dc_entries c)) (dc_root c) (nsid, offset) AVL_GREATER_EQUAL));
      mret (ids, default end_ next)
  end.

(** Lock the entries of a batch and generate their write-backs; an entry whose
    write-back fails stays pinned and locked. *)
Fixpoint flush_batch (nsid tag start end_ : Z) (ids : list Z) : ST dc (list flash_transaction) :=
  match ids with
  | [] => mret []
  | id :: ids =>
      e ← entry_at id;
      if negb (bool_decide (ce_status e = CES_DIRTY)) || negb ((ce_key e).1 =? nsid) || ((ce_key e).2 <? start) ||
         (end_ <=? (ce_key e).2) || negb ((ce_key e).2 mod NR_FLUSHERS =? tag)
      then flush_batch nsid tag start end_ ids
      else
        pin_entry id ≫= λ _, lock_entry id ≫= λ _,
        '(r, txn) ← generate_writeback id;
        match r with
        | Err _ => flush_batch nsid tag start end_ ids
        | R0 => l ← flush_batch nsid tag start end_ ids; mret (set_t_data (t_data txn) id txn :: l)
        end
  end.
(** The result of the dispatch is ignored. *)
Definition finish_batch (l : list flash_transaction) : ST dc unit :=
  '(_, l) ← lift (amu_dispatch l);
  for_each l (λ txn,
    do_if (negb (t_opaque txn =? 0))
      (upd_entry (t_opaque txn) (set_ce_status CES_CLEAN) ≫= λ _,
       unlock_entry (t_opaque txn) ≫= λ _, unpin_entry (t_opaque txn)) ≫= λ _,
    do_if (negb (t_data txn =? 0)) (lift (free_mem (t_data txn)))).
Fixpoint flush_range_loop (fuel : nat) (nsid tag start index end_ : Z) : ST dc unit :=
  if index <? end_ then
    match fuel with
    | O => stuck
    | S fuel =>
        '(ids, index) ← cache_lookup_range nsid index end_ tag WB_BATCH_SIZE;
        match ids with
        | [] => mret tt
        | _ =>
            wb_txns ← flush_batch nsid tag start end_ ids;
            finish_batch wb_txns ≫= λ _,
            flush_range_loop fuel nsid tag start index end_
        end
    end
  else mret tt.
(** Every turn but the last flushes an entry. *)
Definition flush_cache_range (nsid tag start end_ : Z) : ST dc unit :=
  c ← cache; flush_range_loop (S (length (inorder (dc_root c)))) nsid tag start start end_.

(** ** The flushers *)
Definition upd_flushers (f : flushers → flushers) : ST dc unit :=
  modify (λ s, Dc _ _ (dc_amu s) (g_cache s) (f (dc_flushers s)) (dc_host s)).
Definition assign_flusher (nsid i : Z) : ST dc unit :=
  f ← gets dc_flushers;
  o ← deref (flusher_nsid f !! Z.to_nat i);
  assert (negb (bool_decide (is_Some o))) ≫= λ _,
  assert (negb (Z.testbit (flusher_active f) i)) ≫= λ _,
  upd_flushers (λ f, Flushers (Z.setbit (flusher_active f) i) (<[Z.to_nat i := Some nsid]> (flusher_nsid f))).
(** One turn of [flusher_main]. *)
Definition flusher_turn (i : Z) : ST dc unit :=
  f ← gets dc_flushers;
  do_if (Z.testbit (flusher_active f) i)
    (o ← deref (flusher_nsid f !! Z.to_nat i);
     nsid ← deref o;
     flush_cache_range nsid i 0 LPA_MAX ≫= λ _,
     upd_flushers (λ f, Flushers (Z.clearbit (flusher_active f) i) (<[Z.to_nat i := None]> (flusher_nsid f)))).
(** [start_flush_sync] while the flushers take their turns in the order
    [turns]; it returns once no flusher is active. *)
Definition start_flush_sync (turns : list Z) (nsid : Z) : ST dc unit :=
  for_each (seqZ 0 NR_FLUSHERS) (assign_flusher nsid) ≫= λ _,
  for_each turns flusher_turn ≫= λ _,
  f ← gets dc_flushers;
  assert (flusher_active f =? 0).
Definition dc_flush_ns (turns : list Z) (nsid : Z) : ST dc unit := start_flush_sync turns nsid.
End ops.
