(* ===== verification/DataCacheFacts.v ===== *)
(** Facts about the data cache: the invariant of the entries, their tree and the
    LRU list while a request holds the entries [D], and the effect of finding,
    taking, releasing, adding and recycling an entry. *)
From S2P Require Import Prelude Bitmap Avl Flash Machine BlockManager Amu AmuFacts AmuSpec DataCache.

#[export] Instance cache_cmp_key_ok : OrdKeyOk cache_entry_key.
Proof.
  split; unfold kcmp, cache_cmp_key.
  - intros. repeat case_match; lia.
  - intros [a1 a2] [b1 b2]. simpl. split; [|intros [= -> ->]]; repeat case_match; try lia.
    intros _. f_equal; lia.
  - intros. repeat case_match; lia.
  - intros. repeat case_match; lia.
Qed.
Lemma avl_ok_rekey {A K} `{OrdKeyOk K} (k k' : A → K) t :
  (∀ x, x ∈ inorder t → k x = k' x) → avl_ok k t → avl_ok k' t.
Proof.
  intros E [Hs Hh]. split; [|done]. revert Hs. unfold keys_sorted.
  induction (inorder t) as [|x xs IH]; [constructor|]. intros [Hs Hf]%StronglySorted_inv.
  constructor; [by apply IH; [set_solver|]|].
  rewrite Forall_forall in *. intros y Hy. rewrite <-!E by set_solver. by apply Hf.
Qed.

(** * The cache *)

(** [D]: the entries held by the request being served, pinned once and locked. *)
Record cache_wf (D : gset Z) (c : data_cache) : Prop := {
  cw_tree : avl_ok (ce_keys (dc_entries c)) (dc_root c);
  cw_ids : ∀ id, id ∈ inorder (dc_root c) ↔ is_Some (dc_entries c !! id);
  cw_lru : NoDup (dc_lru_list c);
  cw_lru_ids : ∀ id, id ∈ dc_lru_list c ↔ is_Some (dc_entries c !! id) ∧ id ∉ D;
  cw_size : nr_pages c = Z.of_nat (length (inorder (dc_root c)));
  cw_pin : ∀ id e, dc_entries c !! id = Some e →
    ce_pin_count e = (if decide (id ∈ D) then 1 else 0) ∧ ce_owned e = bool_decide (id ∈ D);
  cw_held : ∀ id, id ∈ D → is_Some (dc_entries c !! id);
}.

Lemma ce_keys_Some m id e : m !! id = Some e → ce_keys m id = ce_key e.
Proof. intros E. unfold ce_keys. by rewrite E. Qed.
Lemma cache_find_spec D c n l id : cache_wf D c →
  cache_find c n l = Some id ↔ ∃ e, dc_entries c !! id = Some e ∧ ce_key e = (n, l).
Proof.
  intros Hc. unfold cache_find. rewrite avl_find_spec by apply (cw_tree _ _ Hc). rewrite (cw_ids _ _ Hc).
  split.
  - intros [[e He] E]. exists e. by rewrite (ce_keys_Some _ _ e) in E.
  - intros (e & He & E). split; [by eexists|]. by rewrite (ce_keys_Some _ _ e).
Qed.
Lemma cache_find_None D c n l : cache_wf D c →
  cache_find c n l = None ↔ ∀ id e, dc_entries c !! id = Some e → ce_key e ≠ (n, l).
Proof.
  intros Hc. split.
  - intros E id e He Hk. assert (cache_find c n l = Some id) by (apply (cache_find_spec D); eauto). congruence.
  - intros Hn. destruct (cache_find c n l) as [id|] eqn:E; [|done].
    apply (cache_find_spec D) in E as (e & He & Hk); [|done]. by destruct (Hn id e).
Qed.
Lemma cache_wf_inj D c i j d e : cache_wf D c →
  dc_entries c !! i = Some d → dc_entries c !! j = Some e → ce_key d = ce_key e → i = j.
Proof.
  intros Hc Hd He E. eapply (keys_sorted_inj (ce_keys (dc_entries c))); [apply (cw_tree _ _ Hc)|..].
  - apply (cw_ids _ _ Hc). eauto.
  - apply (cw_ids _ _ Hc). eauto.
  - by rewrite (ce_keys_Some _ _ _ Hd), (ce_keys_Some _ _ _ He).
Qed.

Definition ce_put (id : Z) (e : cache_entry) (c : data_cache) : data_cache :=
  set_dc_entries (<[id := e]> (dc_entries c)) c.
Lemma ce_put_tree id e e0 c : dc_entries c !! id = Some e0 → ce_key e = ce_key e0 →
  avl_ok (ce_keys (dc_entries c)) (dc_root c) → avl_ok (ce_keys (<[id := e]> (dc_entries c))) (dc_root c).
Proof.
  intros He E. apply avl_ok_rekey. intros j _. unfold ce_keys.
  destruct (decide (j = id)) as [->|Hne]; [|by rewrite lookup_insert_ne].
  rewrite lookup_insert_eq, He. by simpl; rewrite E.
Qed.

Lemma cache_wf_put D id e e0 c : cache_wf D c → dc_entries c !! id = Some e0 →
  ce_key e = ce_key e0 → ce_pin_count e = ce_pin_count e0 → ce_owned e = ce_owned e0 →
  cache_wf D (ce_put id e c).
Proof.
  intros [Ht Hi Hl Hli Hsz Hp Hd] He E1 E2 E3. split; simpl; try done.
  - by eapply ce_put_tree.
  - intros j. rewrite put_is_Some by eauto. apply Hi.
  - intros j. rewrite put_is_Some by eauto. apply Hli.
  - intros j z. destruct (decide (j = id)) as [->|Hne]; [|rewrite lookup_insert_ne by done; apply Hp].
    rewrite lookup_insert_eq. intros [= <-]. rewrite E2, E3. by apply Hp.
  - intros j Hj. rewrite put_is_Some by eauto. by apply Hd.
Qed.
Definition ce_take (id : Z) (e : cache_entry) (c : data_cache) : data_cache :=
  set_dc_lru (list_del id (dc_lru_list c)) (ce_put id (set_ce_owned true (set_ce_pin 1 e)) c).
Lemma cache_wf_take D id e c : cache_wf D c → dc_entries c !! id = Some e →
  cache_wf ({[id]} ∪ D) (ce_take id e c).
Proof.
  intros [Ht Hi Hl Hli Hsz Hp Hd] He. split; simpl; try done.
  - by eapply ce_put_tree.
  - intros j. rewrite put_is_Some by eauto. apply Hi.
  - by apply NoDup_list_del.
  - intros j. rewrite put_is_Some by eauto. rewrite elem_of_list_del, Hli. set_solver.
  - intros j z. destruct (decide (j = id)) as [->|Hne].
    + rewrite lookup_insert_eq. intros [= <-]. rewrite decide_True, bool_decide_eq_true_2 by set_solver. done.
    + rewrite lookup_insert_ne by done. intros Hz%Hp.
      destruct (decide (j ∈ D)); [rewrite decide_True, bool_decide_eq_true_2 in * by set_solver; done|].
      by rewrite decide_False, bool_decide_eq_false_2 in * by set_solver.
  - intros j [->%elem_of_singleton|Hj]%elem_of_union; rewrite put_is_Some by eauto; eauto.
Qed.
Definition ce_release (id : Z) (e : cache_entry) (c : data_cache) : data_cache :=
  set_dc_lru (list_add id (dc_lru_list c)) (ce_put id (set_ce_pin 0 (set_ce_owned false e)) c).
Lemma cache_wf_release D id e c : cache_wf D c → id ∈ D → dc_entries c !! id = Some e →
  cache_wf (D ∖ {[id]}) (ce_release id e c).
Proof.
  intros [Ht Hi Hl Hli Hsz Hp Hd] Hin He. split; simpl; try done.
  - by eapply ce_put_tree.
  - intros j. rewrite put_is_Some by eauto. apply Hi.
  - constructor; [|done]. rewrite Hli. naive_solver.
  - intros j. rewrite put_is_Some by eauto. unfold list_add. rewrite elem_of_cons, Hli.
    destruct (decide (j = id)) as [->|]; [|set_solver]. split; [|by left]. intros _. split; [by eexists|set_solver].
  - intros j z. destruct (decide (j = id)) as [->|Hne].
    + rewrite lookup_insert_eq. intros [= <-]. rewrite decide_False, bool_decide_eq_false_2 by set_solver. done.
    + rewrite lookup_insert_ne by done. intros Hz%Hp.
      destruct (decide (j ∈ D)); [rewrite decide_True, bool_decide_eq_true_2 in * by set_solver; done|].
      by rewrite decide_False, bool_decide_eq_false_2 in * by set_solver.
  - intros j Hj. rewrite put_is_Some by eauto. apply Hd. set_solver.
Qed.

Definition ce_insert (id : Z) (c : data_cache) : data_cache :=
  set_dc_nr (nr_pages c + 1) (set_dc_tree (avl_insert (ce_keys (dc_entries c)) id (dc_root c)) c).
(** An entry joins the tree under a key that is not there. *)
Lemma ce_insert_tree id e c : dc_entries c !! id = Some e →
  avl_ok (ce_keys (dc_entries c)) (dc_root c) →
  (∀ j, j ∈ inorder (dc_root c) → ce_keys (dc_entries c) j ≠ ce_key e) →
  avl_ok (ce_keys (dc_entries c)) (dc_root (ce_insert id c)) ∧
  inorder (dc_root (ce_insert id c)) ≡ₚ id :: inorder (dc_root c).
Proof. intros He Ht Hn. apply avl_ok_insert; [done|]. intros j Hj. rewrite (ce_keys_Some _ _ _ He). by apply Hn. Qed.

(** A new entry, locked. *)
Definition ce_added (id : Z) (e : cache_entry) (c : data_cache) : data_cache :=
  ce_put id (set_ce_owned true e) (ce_insert id (ce_put id e c)).
Lemma cache_wf_add D id e c : cache_wf D c → dc_entries c !! id = None →
  (∀ j d, dc_entries c !! j = Some d → ce_key d ≠ ce_key e) → ce_pin_count e = 1 →
  cache_wf ({[id]} ∪ D) (ce_added id e c).
Proof.
  intros [Ht Hi Hl Hli Hsz Hp Hd] Hid Hn E2.
  assert (id ∉ D) as HD by (intros [? ?]%Hd; congruence).
  assert (avl_ok (ce_keys (dc_entries (ce_put id e c))) (dc_root (ce_put id e c))) as Ht'.
  { eapply avl_ok_rekey; [|exact Ht]. intros j Hj%Hi. unfold ce_keys. simpl.
    rewrite lookup_insert_ne; [done|]. intros ->. rewrite Hid in Hj. by destruct Hj. }
  destruct (ce_insert_tree id e (ce_put id e c)) as [Hok Hperm]; [apply lookup_insert_eq|done| |].
  { intros j Hj%Hi. destruct Hj as [d Hj]. unfold ce_keys. simpl. rewrite lookup_insert_ne by congruence.
    rewrite Hj. simpl. by eapply Hn. }
  simpl in *. split; simpl; rewrite ?insert_insert_eq.
  - eapply avl_ok_rekey; [|exact Hok]. intros j _. unfold ce_keys. destruct (decide (j = id)) as [->|Hne].
    + by rewrite !lookup_insert_eq. + by rewrite !lookup_insert_ne.
  - intros j. rewrite Hperm, elem_of_cons, Hi. destruct (decide (j = id)) as [->|Hne].
    + rewrite lookup_insert_eq. split; [by eexists|by left].
    + rewrite lookup_insert_ne by done. naive_solver.
  - done.
  - intros j. rewrite Hli. destruct (decide (j = id)) as [->|Hne].
    + rewrite Hid. split; [by intros [[] _]|intros [_ ?]; set_solver].
    + rewrite lookup_insert_ne by done. set_solver.
  - rewrite Hperm. simpl. lia.
  - intros j z. destruct (decide (j = id)) as [->|Hne].
    + rewrite lookup_insert_eq. intros [= <-]. rewrite decide_True, bool_decide_eq_true_2 by set_solver. done.
    + rewrite lookup_insert_ne by done. intros Hz%Hp.
      destruct (decide (j ∈ D)); [rewrite decide_True, bool_decide_eq_true_2 in * by set_solver; done|].
      by rewrite decide_False, bool_decide_eq_false_2 in * by set_solver.
  - intros j Hj. destruct (decide (j = id)) as [->|Hne]; [rewrite lookup_insert_eq; by eexists|].
    rewrite lookup_insert_ne by done. apply Hd. set_solver.
Qed.

(** The least recently used entry leaves the tree and comes back as [e]. *)
Definition ce_evicted (id : Z) (c : data_cache) : data_cache :=
  set_dc_nr (nr_pages c - 1) (set_dc_tree (avl_erase (ce_keys (dc_entries c)) id (dc_root c))
    (set_dc_lru (list_del id (dc_lru_list c)) c)).
Definition ce_recycled (id : Z) (e : cache_entry) (c : data_cache) : data_cache :=
  ce_take id e (ce_insert id (ce_put id e (ce_evicted id c))).
Lemma evicted_tree D c id : cache_wf D c → is_Some (dc_entries c !! id) →
  avl_ok (ce_keys (dc_entries c)) (dc_root (ce_evicted id c)) ∧
  (∀ j, j ∈ inorder (dc_root (ce_evicted id c)) ↔ is_Some (dc_entries c !! j) ∧ j ≠ id) ∧
  S (length (inorder (dc_root (ce_evicted id c)))) = length (inorder (dc_root c)).
Proof.
  intros [Ht Hi Hl Hli Hsz Hp Hd] Hid. destruct (avl_ok_erase (ce_keys (dc_entries c)) id _ Ht) as [Ht' Hin].
  assert (∀ j, j ∈ inorder (dc_root c) → ce_keys (dc_entries c) j = ce_keys (dc_entries c) id → j = id) as Hinj.
  { intros j Hj E. by eapply (keys_sorted_inj _ _ _ _ (proj1 Ht)); [done|apply Hi|]. }
  assert (∀ j, j ∈ inorder (dc_root (ce_evicted id c)) ↔ is_Some (dc_entries c !! j) ∧ j ≠ id) as Hin'.
  { intros j. simpl. rewrite Hin, Hi. split; intros [? Hne]; (split; [done|]).
    - by intros ->.
    - intros E. apply Hne, Hinj; [by apply Hi|done]. }
  split; [done|]. split; [done|].
  assert (inorder (dc_root c) ≡ₚ id :: inorder (dc_root (ce_evicted id c))) as Hperm.
  { apply NoDup_Permutation.
    - by eapply keys_sorted_nodup, Ht.
    - constructor; [rewrite Hin'; naive_solver|]. by eapply keys_sorted_nodup, Ht'.
    - intros j. rewrite elem_of_cons, Hin', Hi. destruct (decide (j = id)) as [->|]; naive_solver. }
  by rewrite Hperm.
Qed.

Lemma cache_wf_recycle D id e0 e c : cache_wf D c → dc_entries c !! id = Some e0 → id ∉ D →
  (∀ j d, j ≠ id → dc_entries c !! j = Some d → ce_key d ≠ ce_key e) →
  cache_wf ({[id]} ∪ D) (ce_recycled id e c).
Proof.
  intros Hc He HD Hn. destruct (evicted_tree D c id Hc ltac:(by eexists)) as (Ht & Hin & Hlen).
  destruct Hc as [_ Hi Hl Hli Hsz Hp Hd].
  assert (avl_ok (ce_keys (dc_entries (ce_put id e (ce_evicted id c)))) (dc_root (ce_put id e (ce_evicted id c)))) as Ht'.
  { eapply avl_ok_rekey; [|exact Ht]. intros j [_ Hj]%Hin. unfold ce_keys. simpl. by rewrite lookup_insert_ne. }
  destruct (ce_insert_tree id e (ce_put id e (ce_evicted id c))) as [Hok Hperm]; [apply lookup_insert_eq|done| |].
  { intros j Hj. apply Hin in Hj as [[d Hj] Hne]. unfold ce_keys. simpl. rewrite lookup_insert_ne by done.
    rewrite Hj. simpl. by eapply Hn. }
  simpl in *. split; simpl; rewrite ?insert_insert_eq.
  - eapply avl_ok_rekey; [|exact Hok]. intros j _. unfold ce_keys. destruct (decide (j = id)) as [->|Hne].
    + by rewrite !lookup_insert_eq. + by rewrite !lookup_insert_ne.
  - intros j. rewrite Hperm, elem_of_cons, Hin. destruct (decide (j = id)) as [->|Hne].
    + rewrite lookup_insert_eq. split; [by eexists|by left].
    + rewrite lookup_insert_ne by done. naive_solver.
  - by apply NoDup_list_del, NoDup_list_del.
  - intros j. rewrite !elem_of_list_del, Hli. destruct (decide (j = id)) as [->|Hne].
    + rewrite lookup_insert_eq. split; [by intros []|]. intros [_ ?]. set_solver.
    + rewrite lookup_insert_ne by done. set_solver.
  - rewrite Hperm. simpl. lia.
  - intros j z. destruct (decide (j = id)) as [->|Hne].
    + rewrite lookup_insert_eq. intros [= <-]. rewrite decide_True, bool_decide_eq_true_2 by set_solver. done.
    + rewrite lookup_insert_ne by done. intros Hz%Hp.
      destruct (decide (j ∈ D)); [rewrite decide_True, bool_decide_eq_true_2 in * by set_solver; done|].
      by rewrite decide_False, bool_decide_eq_false_2 in * by set_solver.
  - intros j Hj. destruct (decide (j = id)) as [->|Hne]; [rewrite lookup_insert_eq; by eexists|].
    rewrite lookup_insert_ne by done. apply Hd. set_solver.
Qed.

(** As long as fewer entries are held than the cache has, one can be evicted. *)
Lemma cache_wf_evictable D c : cache_wf D c → Z.of_nat (size D) < nr_pages c →
  ∃ id e, last (dc_lru_list c) = Some id ∧ dc_entries c !! id = Some e ∧ id ∉ D.
Proof.
  intros Hc Hsz. destruct (last (dc_lru_list c)) as [id|] eqn:El.
  - apply last_Some in El as [l El].
    assert (id ∈ dc_lru_list c) as Hin by (rewrite El; set_solver).
    apply (cw_lru_ids _ _ Hc) in Hin as [[e He] HD]. eauto.
  - apply last_None in El. exfalso. rewrite (cw_size _ _ Hc) in Hsz.
    assert (inorder (dc_root c) ⊆+ elements D) as Hsub.
    { apply NoDup_submseteq; [eapply keys_sorted_nodup, (cw_tree _ _ Hc)|]. intros id Hid.
      apply elem_of_elements. destruct (decide (id ∈ D)) as [|Hn]; [done|].
      assert (id ∈ dc_lru_list c) as Hin by (apply (cw_lru_ids _ _ Hc); split; [by apply (cw_ids _ _ Hc)|done]).
      rewrite El in Hin. set_solver. }
    apply submseteq_length in Hsub. unfold size, set_size in Hsz. simpl in Hsz. lia.
Qed.
