(* ===== verification/DataCacheSpec.v ===== *)
(** The state of the data cache over one namespace of the address mapping unit:
    its invariant, what a sector of the namespace reads as through the cache
    ([view]), and how the steps of a request keep or change them. *)
From S2P Require Import Prelude Bitmap Avl Flash Machine BlockManager Amu AmuFacts AmuSpec AmuWrite AmuDispatch DataCache DataCacheFacts.

#[local] Unset Default Proof Using.
Section spec.
Context {PL : Platform} {PO : @PlatformOk PL} {EL : @EccLive PL} {AL : @AllocLive PL} {RL : @ReadLive PL}.
Context {HO : Host} {HK : @HostOk HO}.
(** Namespace [nsid] is the one served; its domain is at [ptr] of the unit [u0];
    [fl]: the flushers.  [P]: flash pages in use by others. *)
Context (P : flash_address → Prop) (nsid ptr : Z) (u0 : amu).

Definition mk (ds : dom_st) (c : data_cache) (fl : flushers) (h : host) : dc := Dc _ _ (with_dom ptr ds u0) c fl h.

(** * Steps *)
Lemma wp_cache (Q : data_cache → dc → Prop) ds c fl h : Q c (mk ds c fl h) → wp cache Q (mk ds c fl h).
Proof. done. Qed.
Lemma wp_upd_cache f (Q : () → dc → Prop) ds c fl h : Q tt (mk ds (f c) fl h) → wp (upd_cache f) Q (mk ds c fl h).
Proof. done. Qed.
Lemma wp_entry_at id e (Q : cache_entry → dc → Prop) ds c fl h :
  dc_entries c !! id = Some e → Q e (mk ds c fl h) → wp (entry_at id) Q (mk ds c fl h).
Proof. intros He HQ. unfold entry_at. wp_step. apply wp_cache, wp_deref. eauto. Qed.
Lemma wp_upd_entry id f e (Q : () → dc → Prop) ds c fl h :
  dc_entries c !! id = Some e → Q tt (mk ds (ce_put id (f e) c) fl h) → wp (upd_entry id f) Q (mk ds c fl h).
Proof. intros He HQ. unfold upd_entry. wp_step. by eapply wp_entry_at. Qed.
Lemma wp_mach {A} (m : ST mach A) (Q : A → dc → Prop) ds c fl h :
  wp m (λ a m', Q a (mk (with_mach m' ds) c fl h)) (bm_mach (ds_bm ds)) → wp (lift m) Q (mk ds c fl h).
Proof. intros Hw. by apply wp_lift. Qed.
Lemma wp_unit {A} (m : ST amu A) (Q : A → dc → Prop) ds c fl h :
  wp m (λ a u', ∃ ds', u' = with_dom ptr ds' (with_dom ptr ds u0) ∧ Q a (mk ds' c fl h)) (with_dom ptr ds u0) →
  wp (lift m) Q (mk ds c fl h).
Proof.
  intros Hw. apply wp_lift. eapply wp_mono; [exact Hw|]. intros a u' (ds' & -> & HQ).
  rewrite with_dom_with. exact HQ.
Qed.
Lemma ce_put_put id e d c : ce_put id e (ce_put id d c) = ce_put id e c.
Proof. unfold ce_put. simpl. by rewrite insert_insert_eq. Qed.
Lemma wp_take_entry {B} id e (k : ST dc B) (Q : B → dc → Prop) ds c fl h :
  dc_entries c !! id = Some e → ce_pin_count e = 0 →
  wp k Q (mk ds (ce_take id e c) fl h) → wp (pin_entry id ≫= λ _, lock_entry id ≫= λ _, k) Q (mk ds c fl h).
Proof.
  intros He Hp HQ. unfold pin_entry, lock_entry, remove_lru. wp_step. wp_step. eapply wp_entry_at; [done|].
  wp_step. eapply wp_upd_entry; [done|]. rewrite Hp. change (u32 (0 + 1)) with 1. wp_step. rewrite Z.eqb_refl.
  apply wp_upd_cache. wp_step. eapply wp_upd_entry; [apply lookup_insert_eq|].
  match goal with |- wp _ _ (mk _ ?x _ _) => replace x with (ce_take id e c); [done|] end.
  unfold ce_take, ce_put. destruct c; cbn. by rewrite insert_insert_eq.
Qed.
Lemma wp_release_entry id e (Q : () → dc → Prop) ds c fl h :
  dc_entries c !! id = Some e → ce_pin_count e = 1 →
  Q tt (mk ds (ce_release id e c) fl h) → wp (unlock_entry id ≫= λ _, unpin_entry id) Q (mk ds c fl h).
Proof.
  intros He Hp HQ. unfold unpin_entry, unlock_entry, add_lru. wp_step. eapply wp_upd_entry; [done|].
  wp_step. eapply wp_entry_at; [apply lookup_insert_eq|]. cbn [ce_pin_count set_ce_owned]. rewrite Hp.
  wp_step. wp_step; [done|]. wp_step. eapply wp_upd_entry; [apply lookup_insert_eq|]. wp_step.
  apply wp_upd_cache.
  match goal with |- Q _ (mk _ ?x _ _) => replace x with (ce_release id e c); [done|] end.
  unfold ce_release, ce_put. destruct c; cbn. by rewrite insert_insert_eq.
Qed.

(** * The invariant *)
Definition bufx (ds : dom_st) (data : Z) (i : nat) (x : sector) : Prop :=
  ∃ b, buf_at ds data = Some b ∧ b_data b !! i = Some x.
Definition bit (bitmap : Z) (i : nat) : bool := Z.testbit bitmap (Z.of_nat i).

Record entry_ok (ds : dom_st) (id : Z) (e : cache_entry) : Prop := {
  eo_nsid : (ce_key e).1 = nsid;
  eo_lpa : owner_ok (ds_dom ds) (OData (ce_key e).2);
  eo_bits : 0 < ce_bitmap e < 16;
  eo_status : ce_status e ≠ CES_EMPTY;
  eo_data : ce_data e ≠ 0 ∧ is_Some (buf_at ds (ce_data e));
  eo_id : 0 < id < m_next (bm_mach (ds_bm ds));
}.
(** [W]: write-backs generated and not yet dispatched. *)
Record wb_ok (D : gset Z) (ds : dom_st) (c : data_cache) (t : flash_transaction) : Prop := {
  wb_req : batch_req nsid ds t;
  wb_bits : 0 < t_bitmap t < 16;
  wb_data : ∀ id e, dc_entries c !! id = Some e → ce_data e ≠ t_data t;
  wb_key : ∀ id e, dc_entries c !! id = Some e → (ce_key e).2 = t_lpa t → id ∈ D ∧ ce_status e = CES_DIRTY;
}.
Record dci (D : gset Z) (W : list flash_transaction) (ds : dom_st) (c : data_cache) : Prop := {
  ci_at : attached nsid ptr ds (with_dom ptr ds u0);
  ci_inv : dom_inv P None ds;
  ci_wf : cache_wf D c;
  ci_entry : ∀ id e, dc_entries c !! id = Some e → entry_ok ds id e;
  ci_data : ∀ i j d e, dc_entries c !! i = Some d → dc_entries c !! j = Some e → ce_data d = ce_data e → i = j;
  ci_clean : ∀ id e i x, dc_entries c !! id = Some e → ce_status e = CES_CLEAN → bit (ce_bitmap e) i = true →
    bufx ds (ce_data e) i x → readsv ds (ce_key e).2 i x;
  ci_prog : ∀ l, owner_ok (ds_dom ds) (OData l) → programmed ds l;
  ci_wb : ∀ t, t ∈ W → wb_ok D ds c t;
  ci_wb_lpa : NoDup (t_lpa <$> W);
  ci_wb_data : NoDup (t_data <$> W);
}.

(** * What the namespace holds *)
Definition ccached (c : data_cache) (l : Z) : option cache_entry :=
  cache_find c nsid l ≫= λ id, dc_entries c !! id.
Definition below (W : list flash_transaction) (ds : dom_st) (l : Z) (i : nat) (x : sector) : Prop :=
  (∃ t, t ∈ W ∧ t_lpa t = l ∧ bit (t_bitmap t) i = true ∧ bufx ds (t_data t) i x) ∨
  ((∀ t, t ∈ W → t_lpa t = l → bit (t_bitmap t) i = false) ∧ readsv ds l i x).
Definition view (W : list flash_transaction) (ds : dom_st) (c : data_cache) (l : Z) (i : nat) (x : sector) : Prop :=
  match ccached c l with
  | Some e => if bit (ce_bitmap e) i then bufx ds (ce_data e) i x else below W ds l i x
  | None => below W ds l i x
  end.

Lemma ccached_spec D c l e : cache_wf D c →
  ccached c l = Some e ↔ ∃ id, dc_entries c !! id = Some e ∧ ce_key e = (nsid, l).
Proof.
  intros Hc. unfold ccached. split.
  - destruct (cache_find c nsid l) as [id|] eqn:E; [|done]. intros He.
    apply (cache_find_spec D) in E as (e' & He' & Hk); [|done]. simpl in He. exists id. by simplify_eq.
  - intros (id & He & Hk). assert (cache_find c nsid l = Some id) as -> by (apply (cache_find_spec D); eauto). done.
Qed.
Lemma ccached_None D c l : cache_wf D c →
  ccached c l = None ↔ ∀ id e, dc_entries c !! id = Some e → ce_key e ≠ (nsid, l).
Proof.
  intros Hc. rewrite <-(cache_find_None D c nsid l Hc). unfold ccached.
  destruct (cache_find c nsid l) as [id|] eqn:E; [|done].
  apply (cache_find_spec D) in E as (e & He & _); [|done]. simpl. by rewrite He.
Qed.
(** Changing one entry leaves the others where they are. *)
Lemma ccached_insert D D' c c' id e : cache_wf D c → cache_wf D' c' → dc_entries c' = <[id := e]> (dc_entries c) →
  ccached c' (ce_key e).2 = (if decide ((ce_key e).1 = nsid) then Some e else ccached c' (ce_key e).2) ∧
  ∀ l, ce_key e ≠ (nsid, l) → (∀ e0, dc_entries c !! id = Some e0 → ce_key e0 ≠ (nsid, l)) → ccached c' l = ccached c l.
Proof.
  intros Hc Hc' E. split.
  - case_decide as Hn; [|done]. apply (ccached_spec D'); [done|]. exists id. rewrite E, lookup_insert_eq.
    split; [done|]. rewrite <-Hn. by destruct (ce_key e).
  - intros l Hl H0. apply option_eq. intros d. rewrite (ccached_spec D') by done. rewrite (ccached_spec D) by done.
    rewrite E. split; intros (j & Hj & Hk); exists j; (split; [|done]).
    + apply lookup_insert_Some in Hj as [[<- <-]|[_ ?]]; done.
    + rewrite lookup_insert_ne; [done|]. intros <-. by apply (H0 d).
Qed.

(** ** Memory that the cache does not use *)
Definition used (c : data_cache) (W : list flash_transaction) (data : Z) : Prop :=
  (∃ id e, dc_entries c !! id = Some e ∧ ce_data e = data) ∨ data ∈ t_data <$> W.

Lemma dom_inv_mach pin ds m' : dom_inv P pin ds → mem_wf m' →
  (∀ a, nand (m_dev m') a = nandv ds a) → m_next (bm_mach (ds_bm ds)) ≤ m_next m' → dom_inv P pin (with_mach m' ds).
Proof.
  intros [Hb Hm Hi Hd] Hm' Hn Hx. split; unfold nandv; amu_cbn.
  - by eapply bm_inv_planes; [|exact Hb].
  - done.
  - intros id Hid. apply Hi in Hid. simpl. lia.
  - eapply dom_wf_frame; [exact Hd|intros; apply Hn|]. intros a Ha.
    rewrite (page_fresh_planes (ds_bm ds)) in Ha by done. split; [done|]. simpl. rewrite Hn.
    by apply (dw_fresh _ _ _ _ _ Hd).
Qed.
Lemma readsv_mach ds m' l i x : (∀ a, nand (m_dev m') a = nandv ds a) →
  readsv (with_mach m' ds) l i x ↔ readsv ds l i x.
Proof.
  intros Hn. unfold readsv, reads.
  assert (amap (nandv (with_mach m' ds)) (ds_dom (with_mach m' ds)) l = amap (nandv ds) (ds_dom ds) l) as ->.
  { unfold amap. f_equal. f_equal. unfold entries_at, words_at. change (nandv (with_mach m' ds)) with (nand (m_dev m')).
    by rewrite Hn. }
  change (nandv (with_mach m' ds)) with (nand (m_dev m')). by rewrite Hn.
Qed.
Lemma amap_mach ds m' l : (∀ a, nand (m_dev m') a = nandv ds a) → amap_of (with_mach m' ds) l = amap_of ds l.
Proof.
  intros Hn. unfold amap_of, amap. f_equal. f_equal. unfold entries_at, words_at.
  change (nandv (with_mach m' ds)) with (nand (m_dev m')). by rewrite Hn.
Qed.

Record mem_step (ds : dom_st) (keep : Z → Prop) (m' : mach) : Prop := {
  ms_nand : ∀ a, nand (m_dev m') a = nandv ds a;
  ms_wf : mem_wf m';
  ms_next : m_next (bm_mach (ds_bm ds)) ≤ m_next m';
  ms_keep : ∀ data, keep data → m_mem m' !! data = buf_at ds data;
  ms_fs : m_fs m' = m_fs (bm_mach (ds_bm ds));
}.
Lemma view_mach W ds c m' l i x D : cache_wf D c → mem_step ds (used c W) m' →
  view W (with_mach m' ds) c l i x ↔ view W ds c l i x.
Proof.
  intros Hc [Hn Hm Hx Hk].
  assert (∀ data, used c W data → bufx (with_mach m' ds) data i x ↔ bufx ds data i x) as Hb.
  { intros data Hu. unfold bufx, buf_at at 1. simpl. by rewrite Hk. }
  assert (below W (with_mach m' ds) l i x ↔ below W ds l i x) as Hbl.
  { unfold below. rewrite readsv_mach by done. apply or_iff_compat_r. split; intros (t & Ht & El & Eb & Hbx);
      exists t; (split; [done|]; split; [done|]; split; [done|]); apply Hb; try done; right; by apply list_elem_of_fmap_2. }
  unfold view. destruct (ccached c l) as [e|] eqn:E; [|done].
  destruct (bit (ce_bitmap e) i); [|done]. apply (ccached_spec D) in E as (id & He & _); [|done]. apply Hb. left. eauto.
Qed.
Lemma dci_mach D W ds c m' : dci D W ds c → mem_step ds (used c W) m' → dci D W (with_mach m' ds) c.
Proof.
  intros [Hat Hi Hw He Hd Hcl Hp Hwb Hwl Hwd] [Hn Hm Hx Hk].
  assert (∀ id e, dc_entries c !! id = Some e → buf_at (with_mach m' ds) (ce_data e) = buf_at ds (ce_data e)) as Hbe.
  { intros id e E. apply Hk. left. eauto. }
  split; try done.
  - destruct Hat. by split; try done.
  - by apply dom_inv_mach.
  - intros id e E. destruct (He _ _ E) as [? ? ? ? [? ?] ?]. split; try done.
    + split; [done|]. by rewrite (Hbe id).
    + simpl. lia.
  - intros id e i x E Es Eb (b & Hb & Hbx). apply readsv_mach; [done|]. eapply Hcl; [done..|].
    rewrite (Hbe id) in Hb by done. by exists b.
  - intros l Hl. unfold programmed. rewrite amap_mach by done. unfold nandv at 1. simpl. rewrite Hn. by apply Hp.
  - intros t Ht. destruct (Hwb t Ht) as [[[? ? ? [b [? ? ? ?]]] ?] ? ? ?]. split; try done. split; [|done].
    split; try done. exists b. split; try done. simpl. rewrite Hk; [done|]. right. by apply list_elem_of_fmap_2.
Qed.

(** Changing one entry. *)
Lemma dci_entry D D' W ds c c' id e : dci D W ds c → cache_wf D' c' → dc_entries c' = <[id := e]> (dc_entries c) →
  W = [] ∨ D ⊆ D' → entry_ok ds id e →
  (∀ j d, j ≠ id → dc_entries c !! j = Some d → ce_data d ≠ ce_data e) →
  (∀ i x, ce_status e = CES_CLEAN → bit (ce_bitmap e) i = true → bufx ds (ce_data e) i x → readsv ds (ce_key e).2 i x) →
  (∀ t, t ∈ W → ce_data e ≠ t_data t ∧ ((ce_key e).2 = t_lpa t → id ∈ D' ∧ ce_status e = CES_DIRTY)) →
  dci D' W ds c'.
Proof.
  intros [Hat Hi Hw He Hd Hcl Hp Hwb Hwl Hwd] Hw' E HD Hok Hda Hcle Hwe. split; try done.
  - intros j d. rewrite E. intros [[<- <-]|[_ Hj]]%lookup_insert_Some; [done|by apply He].
  - intros i j d f. rewrite E. intros [[<- <-]|[Hni Hi']]%lookup_insert_Some [[<- <-]|[Hnj Hj]]%lookup_insert_Some Ed.
    + done. + by destruct (Hda j f). + by destruct (Hda i d). + by eapply Hd.
  - intros j d i x. rewrite E. intros [[<- <-]|[_ Hj]]%lookup_insert_Some; [by apply Hcle|by eapply Hcl].
  - intros t Ht. destruct (Hwb t Ht) as [Hr Hb Hdt Hk]. destruct HD as [->|HD]; [set_solver|]. split; try done.
    + intros j d. rewrite E. intros [[<- <-]|[_ Hj]]%lookup_insert_Some; [by apply (Hwe t)|by eapply Hdt].
    + intros j d. rewrite E. intros [[<- <-]|[_ Hj]]%lookup_insert_Some Ek; [by apply (Hwe t)|].
      destruct (Hk _ _ Hj Ek). set_solver.
Qed.
End spec.
