(* ===== verification/DataCacheWrite.v ===== *)
(** Writes through the data cache: preparing the entries of a request, filling
    them with host data, dispatching the write-backs of the entries that made
    room, and releasing the entries. *)
From S2P Require Import Prelude Bitmap Avl Flash Machine BlockManager Amu AmuFacts AmuSpec AmuWrite AmuDispatch DataCache DataCacheFacts DataCacheSpec.

#[local] Unset Default Proof Using.
Section write.
Context {PL : Platform} {PO : @PlatformOk PL} {EL : @EccLive PL} {AL : @AllocLive PL} {RL : @ReadLive PL}.
Context {HO : Host} {HK : @HostOk HO}.
Context (P : flash_address → Prop) (nsid ptr : Z) (u0 : amu) (fl : flushers).
Notation mk := (mk ptr u0).
Notation dci := (dci P nsid ptr u0).
Notation view := (view nsid).
Notation ccached := (ccached nsid).
Notation entry_ok := (entry_ok nsid).

Definition txn_from (t : flash_transaction) : nat := Z.to_nat (t_offset t / SECTOR_SIZE).
Definition txn_len (t : flash_transaction) : nat := Z.to_nat (t_length t / SECTOR_SIZE).
(** A transaction of a request, as the segmentation produces it. *)
Record cache_req (ds : dom_st) (t : flash_transaction) : Prop := {
  cq_nsid : t_nsid t = nsid;
  cq_lpa : owner_ok (ds_dom ds) (OData (t_lpa t));
  cq_bits : 0 < t_bitmap t < 16;
  cq_align : t_offset t = SECTOR_SIZE * Z.of_nat (txn_from t) ∧ t_length t = SECTOR_SIZE * Z.of_nat (txn_len t);
  cq_fits : (txn_from t + txn_len t ≤ 4)%nat;
  cq_cover : ∀ i, bit (t_bitmap t) i = true ↔ (txn_from t ≤ i < txn_from t + txn_len t)%nat;
}.

(** * Preparing one entry *)

(** A page of the namespace that is cached. *)
Definition page_in (c : data_cache) (l : Z) : Prop := ∃ j d, dc_entries c !! j = Some d ∧ ce_key d = (nsid, l).
Record prepared (D : gset Z) W ds c t id (wb : option flash_transaction) ds' c' : Prop := {
  pr_mach : ∃ m', ds' = with_mach m' ds;
  pr_inv : dci ({[id]} ∪ D) (W ++ option_list wb) ds' c';
  pr_new : id ∉ D;
  pr_cap : capacity_pages c' = capacity_pages c;
  pr_entry : ∃ e, dc_entries c' !! id = Some e ∧ ce_key e = (nsid, t_lpa t) ∧ ce_status e = CES_DIRTY ∧
    ∀ i, bit (t_bitmap t) i = true → bit (ce_bitmap e) i = true;
  pr_held : ∀ j, j ∈ D → dc_entries c' !! j = dc_entries c !! j;
  pr_view : ∀ l i x, l ≠ t_lpa t ∨ bit (t_bitmap t) i = false → view W ds c l i x → view (W ++ option_list wb) ds' c' l i x;
  pr_keys : ∀ l, page_in c' l → l = t_lpa t ∨ page_in c l;
}.
Lemma page_in_insert c c' id e l0 l : dc_entries c' = <[id := e]> (dc_entries c) → ce_key e = (nsid, l0) → page_in c' l → l = l0 ∨ page_in c l.
Proof.
  intros E Hk (j & d & Hj & Hd). rewrite E in Hj. apply lookup_insert_Some in Hj as [[<- <-]|[_ Hj]]; [left; congruence|].
  right. by exists j, d.
Qed.

Lemma lor_bits a b : 0 < a < 16 → 0 < b < 16 → 0 < Z.lor a b < 16.
Proof.
  intros Ha Hb. pose proof (Z.lor_nonneg a b) as Hn. split.
  - destruct (Z.eq_dec (Z.lor a b) 0) as [E|]; [|lia]. apply Z.lor_eq_0_iff in E. lia.
  - apply bits16; [lia|]. intros i Hi. rewrite Z.lor_spec, !Z.bits_above_log2; try lia; try done.
    + apply (Z.le_lt_trans _ (Z.log2 15)); [apply Z.log2_le_mono; lia|]. change (Z.log2 15) with 3. lia.
    + apply (Z.le_lt_trans _ (Z.log2 15)); [apply Z.log2_le_mono; lia|]. change (Z.log2 15) with 3. lia.
Qed.
Lemma bit_lor a b i : bit (Z.lor a b) i = bit a i || bit b i.
Proof. apply Z.lor_spec. Qed.
Lemma below_mono W w ds l i x : (∀ t, t ∈ w → t_lpa t ≠ l) → below W ds l i x → below (W ++ w) ds l i x.
Proof.
  intros Hw [(t & Ht & H)|[Hn Hr]]; [left; exists t; set_solver|]. right. split; [|done].
  intros t [Ht|Ht]%elem_of_app E; [by apply Hn|by destruct (Hw t)].
Qed.

Lemma prepare_hit D W ds c t id e : dci D W ds c → cache_req ds t → id ∉ D → dc_entries c !! id = Some e →
  ce_key e = (nsid, t_lpa t) →
  prepared D W ds c t id None ds
    (ce_put id (set_ce_status CES_DIRTY (set_ce_bitmap (Z.lor (ce_bitmap e) (t_bitmap t)) (set_ce_owned true (set_ce_pin 1 e)))) (ce_take id e c)).
Proof.
  intros Hi Ht HD He Hk. set (e' := set_ce_status _ _). set (c' := ce_put _ _ _).
  assert (dc_entries c' = <[id := e']> (dc_entries c)) as Ec' by (subst c'; simpl; by rewrite insert_insert_eq).
  assert (cache_wf ({[id]} ∪ D) c') as Hw'.
  { eapply cache_wf_put; [by apply cache_wf_take, He; apply Hi|simpl; apply lookup_insert_eq|done..]. }
  destruct (ci_entry _ _ _ _ _ _ _ _ Hi _ _ He) as [O1 O2 O3 O4 O5 O6].
  destruct (ccached_insert nsid D ({[id]} ∪ D) c c' id e' (ci_wf _ _ _ _ _ _ _ _ Hi) Hw' Ec') as [C1 C2].
  assert (ce_key e' = (nsid, t_lpa t)) as Hk' by done. rewrite Hk' in C1, C2. simpl in C1. rewrite decide_True in C1 by done.
  split; simpl; try done.
  - exists (bm_mach (ds_bm ds)). by destruct ds as [[] ?].
  - rewrite app_nil_r. eapply dci_entry; [exact Hi|exact Hw'|exact Ec'|right; set_solver| | | |]; try done.
    + split; try done. simpl. by apply lor_bits, Ht.
    + intros j d Hne Hj E. apply Hne. by eapply (ci_data _ _ _ _ _ _ _ _ Hi).
    + intros t0 Ht0. destruct (ci_wb _ _ _ _ _ _ _ _ Hi t0 Ht0) as [_ _ Hd _]. split; [by apply (Hd id e)|].
      split; [set_solver|done].
  - exists e'. split; [apply lookup_insert_eq|]. split; [done|]. split; [done|]. intros i Hb. simpl.
    by rewrite bit_lor, Hb, orb_true_r.
  - intros j Hj. rewrite !lookup_insert_ne by set_solver. done.
  - rewrite app_nil_r. intros l i x Hl. unfold view, DataCacheSpec.view.
    destruct (decide (l = t_lpa t)) as [->| Hne].
    + destruct Hl as [|Hb]; [done|]. fold c'. rewrite C1.
      assert (ccached c (t_lpa t) = Some e) as ->.
      { apply (ccached_spec nsid D); [apply Hi|]. eauto. }
      simpl. by rewrite bit_lor, Hb, orb_false_r.
    + fold c'. rewrite C2; [done|congruence|]. intros e0 He0. congruence.
  - intros l. by apply (page_in_insert c c' id e').
Qed.

Lemma used_some D W ds c data : dci D W ds c → used c W data → is_Some (buf_at ds data).
Proof.
  intros Hi [(id & e & He & <-)|(t & -> & Ht)%list_elem_of_fmap].
  - by destruct (ci_entry _ _ _ _ _ _ _ _ Hi _ _ He) as [_ _ _ _ [_ ?] _].
  - destruct (wb_req _ _ _ _ _ (ci_wb _ _ _ _ _ _ _ _ Hi t Ht)) as [[_ _ _ [b [_ Hb _ _]]] _]. by exists b.
Qed.
Lemma unused_fresh D W ds c data : dci D W ds c → m_next (bm_mach (ds_bm ds)) ≤ data → ¬ used c W data.
Proof.
  intros Hi Hn [b Hb]%(used_some D W ds); [|done]. apply (mw_mem _ (di_mem _ _ _ (ci_inv _ _ _ _ _ _ _ _ Hi))) in Hb as []. lia.
Qed.
(** A fresh buffer. *)
Lemma mem_step_alloc D W ds c m' data b : dci D W ds c → m_dev m' = m_dev (bm_mach (ds_bm ds)) → m_fs m' = m_fs (bm_mach (ds_bm ds)) →
  m_mem m' = <[data := b]> (m_mem (bm_mach (ds_bm ds))) → m_next (bm_mach (ds_bm ds)) ≤ data < m_next m' →
  length (b_data b) = 4%nat → mem_step ds (used c W) m'.
Proof.
  intros Hi Hd Hfs Hm Hn Hl. pose proof (di_mem _ _ _ (ci_inv _ _ _ _ _ _ _ _ Hi)) as [M1 M2]. split; [| | | |done].
  - intros a. by rewrite Hd.
  - split; [lia|]. intros j b'. rewrite Hm. intros [[<- <-]|[_ Hb]]%lookup_insert_Some; [by split; [lia|]|].
    apply M2 in Hb as []. split; [lia|done].
  - lia.
  - intros j Hj. rewrite Hm, lookup_insert_ne; [done|]. intros <-. apply (unused_fresh D W ds c data Hi); [lia|done].
Qed.

Lemma prepare_add D W ds c t m' id data : dci D W ds c → cache_req ds t → mem_step ds (used c W) m' →
  (∀ j d, dc_entries c !! j = Some d → ce_key d ≠ (nsid, t_lpa t)) →
  m_next (bm_mach (ds_bm ds)) ≤ id < m_next m' → m_next (bm_mach (ds_bm ds)) ≤ data → is_Some (m_mem m' !! data) →
  prepared D W ds c t id None (with_mach m' ds)
    (ce_added id (Ce (nsid, t_lpa t) (t_bitmap t) CES_DIRTY 1 false data) c).
Proof.
  intros Hi Ht Hm Hmiss Hid Hda Hds. set (e := Ce _ _ _ _ _ _). set (c' := ce_added _ _ _). set (e' := set_ce_owned true e).
  pose proof (dci_mach _ _ _ _ _ _ _ _ _ Hi Hm) as Hi'. pose proof (ci_wf _ _ _ _ _ _ _ _ Hi) as Hw.
  pose proof (mw_next _ (di_mem _ _ _ (ci_inv _ _ _ _ _ _ _ _ Hi))) as Hpos.
  assert (dc_entries c !! id = None) as Hnone.
  { destruct (dc_entries c !! id) as [d|] eqn:E; [|done]. apply (ci_entry _ _ _ _ _ _ _ _ Hi) in E as [? ? ? ? ? ?]. lia. }
  assert (id ∉ D) as HD by (intros [? ?]%(cw_held _ _ Hw); congruence).
  assert (cache_wf ({[id]} ∪ D) c') as Hw' by by apply cache_wf_add.
  assert (dc_entries c' = <[id := e']> (dc_entries c)) as Ec' by (subst c'; simpl; by rewrite insert_insert_eq).
  destruct (ccached_insert nsid D ({[id]} ∪ D) c c' id e' Hw Hw' Ec') as [C1 C2]. simpl in C1, C2. rewrite decide_True in C1 by done.
  split; try done.
  - by exists m'.
  - simpl. rewrite app_nil_r. eapply dci_entry; [exact Hi'|exact Hw'|exact Ec'|right; set_solver|..].
    + split; try done; try apply Ht; simpl; [|lia]. split; [lia|done].
    + intros j d Hne Hj E. apply (unused_fresh D W ds c data Hi); [lia|]. left. eauto.
    + done.
    + intros t0 Ht0. split; [|by split; [set_solver|]]. intros E.
      apply (unused_fresh D W ds c data Hi); [lia|]. right. apply list_elem_of_fmap. by exists t0.
  - exists e'. rewrite Ec', lookup_insert_eq. done.
  - intros j Hj. rewrite Ec', lookup_insert_ne; [done|]. set_solver.
  - simpl. rewrite app_nil_r. intros l i x Hl Hv. apply (view_mach _ _ _ _ m' _ _ _ D) in Hv; [|done..].
    revert Hv. unfold view, DataCacheSpec.view. destruct (decide (l = t_lpa t)) as [->| Hne].
    + destruct Hl as [|Hb]; [done|]. rewrite C1. simpl. rewrite Hb.
      assert (ccached c (t_lpa t) = None) as -> by by apply (ccached_None nsid D). done.
    + rewrite C2; [done|congruence|]. intros e0 He0. congruence.
  - intros l. by apply (page_in_insert c c' id e').
Qed.

(** [w] writes the entry [e] back from a fresh copy. *)
Record writeback_of (ds : dom_st) (m' : mach) (e : cache_entry) (w : flash_transaction) : Prop := {
  wo_type : t_type w = TXN_WRITE ∧ t_ppa_ready w = false;
  wo_key : (t_nsid w, t_lpa w) = ce_key e;
  wo_bitmap : t_bitmap w = ce_bitmap e;
  wo_covers : covers w;
  wo_new : m_next (bm_mach (ds_bm ds)) ≤ t_data w;
  wo_buf : ∃ b b', buf_at ds (ce_data e) = Some b ∧ m_mem m' !! t_data w = Some b' ∧
    ∀ i, bit (ce_bitmap e) i = true → b_data b' !! i = b_data b !! i;
}.
Lemma writeback_req D W ds c m' id e w : dci D W ds c → dc_entries c !! id = Some e → writeback_of ds m' e w →
  batch_req nsid (with_mach m' ds) w.
Proof.
  intros Hi He [[] Hk Hb Hc Hn (b & b' & _ & Hb' & _)]. pose proof (mw_next _ (di_mem _ _ _ (ci_inv _ _ _ _ _ _ _ _ Hi))).
  destruct (ci_entry _ _ _ _ _ _ _ _ Hi _ _ He) as [O1 O2 O3 _ _ _]. rewrite <-Hk in O1, O2. split; [|done].
  split; try done. exists b'. split; try done; lia.
Qed.
Lemma dci_writeback D W ds c m' id e w : dci D W ds c → mem_step ds (used c W) m' → dc_entries c !! id = Some e →
  id ∉ D → writeback_of ds m' e w →
  (∀ t, t ∈ W ++ [w] → ∀ j d, j ≠ id → dc_entries c !! j = Some d → (ce_key d).2 = t_lpa t → t ∈ W ∧ j ∈ D ∧ ce_status d = CES_DIRTY) ∧
  NoDup (t_lpa <$> W ++ [w]) ∧ NoDup (t_data <$> W ++ [w]) ∧
  ∀ t, t ∈ W ++ [w] → batch_req nsid (with_mach m' ds) t ∧ 0 < t_bitmap t < 16 ∧
    ∀ j d, dc_entries c !! j = Some d → ce_data d ≠ t_data t.
Proof.
  intros Hi Hm He HD Hw. pose proof (dci_mach _ _ _ _ _ _ _ _ _ Hi Hm) as Hi'.
  pose proof (writeback_req _ _ _ _ _ _ _ _ Hi He Hw) as Hreq. destruct Hw as [_ Hk Hb _ Hn _].
  assert (ce_key e = (nsid, t_lpa w)) as Hk'.
  { rewrite <-Hk. f_equal. change (t_nsid w) with (t_nsid w, t_lpa w).1. rewrite Hk.
    by apply (ci_entry _ _ _ _ _ _ _ _ Hi _ _ He). }
  split; [|split; [|split]].
  - intros t [Ht| ->%list_elem_of_singleton]%elem_of_app j d Hne Hj E.
    + split; [done|]. by apply (wb_key _ _ _ _ _ (ci_wb _ _ _ _ _ _ _ _ Hi t Ht) j d).
    + exfalso. apply Hne. eapply (cache_wf_inj D c); [apply Hi|done|done|].
      destruct (ci_entry _ _ _ _ _ _ _ _ Hi _ _ Hj) as [O1 _ _ _ _ _]. rewrite Hk', <-O1, <-E. by destruct (ce_key d).
  - rewrite fmap_app. apply NoDup_app. split; [apply Hi|]. split; [|apply NoDup_singleton].
    intros l (t & -> & Ht)%list_elem_of_fmap E%list_elem_of_singleton. apply HD.
    apply (wb_key _ _ _ _ _ (ci_wb _ _ _ _ _ _ _ _ Hi t Ht) id e He). by rewrite Hk'.
  - rewrite fmap_app. apply NoDup_app. split; [apply Hi|]. split; [|apply NoDup_singleton].
    intros l Hl E%list_elem_of_singleton. subst. apply (unused_fresh D W ds c (t_data w) Hi Hn). by right.
  - intros t [Ht| ->%list_elem_of_singleton]%elem_of_app.
    + destruct (ci_wb _ _ _ _ _ _ _ _ Hi' t Ht) as [? ? ? _]. done.
    + split; [done|]. rewrite Hb. split; [by apply (ci_entry _ _ _ _ _ _ _ _ Hi _ _ He)|].
      intros j d Hj E. apply (unused_fresh D W ds c (t_data w) Hi Hn). left. eauto.
Qed.

(** Making room: the entry [id] leaves with the write-backs [wb] and returns for
    the page of [t]. *)
Definition recycle (t : flash_transaction) (e : cache_entry) : cache_entry :=
  set_ce_bitmap (t_bitmap t) (set_ce_key (nsid, t_lpa t) (set_ce_status CES_DIRTY e)).
Definition wb_for (ds : dom_st) (m' : mach) (e : cache_entry) (wb : option flash_transaction) : Prop :=
  match wb with Some w => ce_status e = CES_DIRTY ∧ writeback_of ds m' e w | None => ce_status e = CES_CLEAN end.

Lemma recycled_entries id e c : dc_entries (ce_recycled id e c) = <[id := set_ce_owned true (set_ce_pin 1 e)]> (dc_entries c).
Proof. simpl. by rewrite insert_insert_eq. Qed.
Lemma evict_view W ds c m' id e wb i x D : dci D W ds c → mem_step ds (used c W) m' → dc_entries c !! id = Some e → id ∉ D →
  wb_for ds m' e wb → view W ds c (ce_key e).2 i x → below (W ++ option_list wb) (with_mach m' ds) (ce_key e).2 i x.
Proof.
  intros Hi Hm He HD Hwb Hv.
  assert (∀ t, t ∈ W → t_lpa t ≠ (ce_key e).2) as HnW.
  { intros t Ht E. apply HD. by apply (wb_key _ _ _ _ _ (ci_wb _ _ _ _ _ _ _ _ Hi t Ht) id e He). }
  assert (ccached c (ce_key e).2 = Some e) as Hc.
  { apply (ccached_spec nsid D); [apply Hi|]. exists id. split; [done|].
    destruct (ci_entry _ _ _ _ _ _ _ _ Hi _ _ He) as [<- _ _ _ _ _]. by destruct (ce_key e). }
  unfold DataCacheSpec.view in Hv. rewrite Hc in Hv.
  assert (∀ t, t ∈ W ++ option_list wb → t_lpa t = (ce_key e).2 → wb = Some t) as HW'.
  { intros t [Ht|Ht]%elem_of_app E; [by apply HnW in Ht|]. destruct wb; simpl in Ht; set_solver. }
  destruct (bit (ce_bitmap e) i) eqn:Eb.
  - destruct wb as [w|]; simpl in Hwb.
    + destruct Hwb as [_ [_ Hk Hbm _ _ (b & b' & Hb & Hb' & Hcp)]]. left. exists w. split; [set_solver|].
      split; [by rewrite <-Hk|]. split; [by rewrite Hbm|]. exists b'. split; [done|]. destruct Hv as (b0 & Hb0 & Hx).
      rewrite Hcp by done. congruence.
    + right. split; [intros t Ht E; by apply HW' in E|]. apply readsv_mach; [apply Hm|].
      by eapply (ci_clean _ _ _ _ _ _ _ _ Hi).
  - destruct Hv as [(t & Ht & E & _)|[_ Hr]]; [by destruct (HnW t Ht)|].
    right. split; [|by apply readsv_mach; [apply Hm|]]. intros t Ht E. apply HW' in E as ->; [|done].
    destruct Hwb as [_ [_ _ -> _ _ _]]. done.
Qed.
Lemma below_mach W ds c m' l i x : mem_step ds (used c W) m' → below (W) (with_mach m' ds) l i x ↔ below W ds l i x.
Proof.
  intros [Hn _ _ Hk]. unfold below. rewrite readsv_mach by done. apply or_iff_compat_r.
  assert (∀ t, t ∈ W → bufx (with_mach m' ds) (t_data t) i x ↔ bufx ds (t_data t) i x) as Hb.
  { intros t Ht. unfold bufx, buf_at at 1. simpl. rewrite Hk; [done|]. right. by apply list_elem_of_fmap_2. }
  split; intros (t & Ht & El & Eb & Hbx); exists t; by rewrite (Hb t) in *.
Qed.
Lemma dci_add_wb D W ds c w : dci D W ds c → NoDup (t_lpa <$> W ++ [w]) → NoDup (t_data <$> W ++ [w]) →
  wb_ok nsid D ds c w → dci D (W ++ [w]) ds c.
Proof. intros [] ? ? Hw. split; try done. intros t [Ht| ->%list_elem_of_singleton]%elem_of_app; auto. Qed.
Lemma prepare_evict D W ds c t m' id e wb : dci D W ds c → cache_req ds t → mem_step ds (used c W) m' →
  (∀ j d, dc_entries c !! j = Some d → ce_key d ≠ (nsid, t_lpa t)) →
  dc_entries c !! id = Some e → id ∉ D → wb_for ds m' e wb →
  prepared D W ds c t id wb (with_mach m' ds) (ce_recycled id (recycle t e) c).
Proof.
  intros Hi Ht Hm Hmiss He HD Hwb. set (e' := set_ce_owned true (set_ce_pin 1 (recycle t e))).
  set (c' := ce_recycled id (recycle t e) c). pose proof (ci_wf _ _ _ _ _ _ _ _ Hi) as Hw.
  pose proof (dci_mach _ _ _ _ _ _ _ _ _ Hi Hm) as Hi'.
  assert (cache_wf ({[id]} ∪ D) c') as Hw'.
  { eapply cache_wf_recycle; [done..|]. intros j d _ Hj. by eapply Hmiss. }
  pose proof (recycled_entries id (recycle t e) c) as Ec'. fold e' c' in Ec'.
  destruct (ccached_insert nsid D ({[id]} ∪ D) c c' id e' Hw Hw' Ec') as [C1 C2]. simpl in C1, C2. rewrite decide_True in C1 by done.
  destruct (ci_entry _ _ _ _ _ _ _ _ Hi' _ _ He) as [O1 O2 O3 O4 O5 O6].
  split; try done.
  - by exists m'.
  - assert (dci ({[id]} ∪ D) W (with_mach m' ds) c') as Hi2.
    { eapply dci_entry; [exact Hi'|exact Hw'|exact Ec'|right; set_solver|..]; try done.
      - split; try done; apply Ht.
      - intros j d Hne Hj E. apply Hne. by eapply (ci_data _ _ _ _ _ _ _ _ Hi).
      - intros t0 Ht0. destruct (ci_wb _ _ _ _ _ _ _ _ Hi t0 Ht0) as [_ _ Hd _].
        split; [by apply (Hd id e)|]. split; [set_solver|done]. }
    destruct wb as [w|]; [|by rewrite app_nil_r]. destruct Hwb as [_ Hwo].
    destruct (dci_writeback _ _ _ _ _ _ _ _ Hi Hm He HD Hwo) as (W1 & W2 & W3 & W4).
    apply dci_add_wb; [done|done|done|]. destruct (W4 w) as (V1 & V2 & V3); [set_solver|]. split; [done..| |].
    + intros j d. rewrite Ec'. intros [[<- <-]|[_ Hj]]%lookup_insert_Some; [by apply (V3 id e)|by eapply V3].
    + intros j d. rewrite Ec'. intros [[<- <-]|[Hne Hj]]%lookup_insert_Some Ek; [split; [set_solver|done]|].
      destruct (W1 w ltac:(set_solver) j d (not_eq_sym Hne) Hj Ek) as (_ & HjD & ?). split; [set_solver|done].
  - exists e'. rewrite Ec', lookup_insert_eq. done.
  - intros j Hj. rewrite Ec', lookup_insert_ne; [done|]. set_solver.
  - intros l i x Hl Hv. unfold DataCacheSpec.view. destruct (decide (l = t_lpa t)) as [->| Hne].
    + destruct Hl as [|Hb]; [done|]. rewrite C1. simpl. rewrite Hb. unfold DataCacheSpec.view in Hv.
      rewrite (proj2 (ccached_None nsid D _ _ Hw)) in Hv by done.
      apply below_mono; [|by eapply below_mach]. intros w Hin E. destruct wb as [w'|]; [|set_solver].
      simpl in Hin. apply list_elem_of_singleton in Hin as ->. destruct Hwb as [_ [_ Hk _ _ _ _]].
      apply (Hmiss id e He). rewrite <-Hk, <-E. f_equal. change (t_nsid w') with (t_nsid w', t_lpa w').1. by rewrite Hk.
    + destruct (decide (l = (ce_key e).2)) as [->| Hne2].
      * rewrite (proj2 (ccached_None nsid ({[id]} ∪ D) _ _ Hw')); [by eapply evict_view|]. intros j d. rewrite Ec'.
        intros [[<- <-]|[Hnj Hj]]%lookup_insert_Some Ek; [simpl in Ek; congruence|]. apply Hnj.
        eapply (cache_wf_inj D c); [done|exact He|exact Hj|]. rewrite Ek, <-O1. by destruct (ce_key e).
      * rewrite C2; [|congruence|]. 2:{ intros e0 He0. assert (e0 = e) as -> by congruence. intros E. by rewrite E in Hne2. }
        apply (view_mach _ _ _ _ m' _ _ _ D) in Hv; [|done..]. unfold DataCacheSpec.view in Hv.
        assert (∀ w, w ∈ option_list wb → t_lpa w ≠ l) as Hwl.
        { intros w Hin E. destruct wb as [w'|]; [|set_solver]. simpl in Hin. apply list_elem_of_singleton in Hin as ->.
          destruct Hwb as [_ [_ Hk _ _ _ _]]. by rewrite <-Hk in Hne2. }
        destruct (ccached c l) as [d|]; [destruct (bit (ce_bitmap d) i); [done|]|]; by apply below_mono.
  - intros l. by apply (page_in_insert c c' id e').
Qed.

(** * The steps *)
Lemma bit_lt bm i : 0 < bm < 16 → bit bm i = true → (i < 4)%nat.
Proof.
  intros Hb Hi. destruct (Nat.lt_ge_cases i 4) as [|Hge]; [done|]. unfold bit in Hi.
  rewrite Z.bits_above_log2 in Hi; [done|lia|]. apply (Z.le_lt_trans _ (Z.log2 15)); [apply Z.log2_le_mono; lia|].
  change (Z.log2 15) with 3. lia.
Qed.
Lemma copy_sectors_lookup bm src dst i : (i < length src)%nat → length src = length dst → bit bm i = true →
  copy_sectors bm src dst !! i = src !! i.
Proof.
  intros Hi Hl Hb. unfold copy_sectors. rewrite list_lookup_imap. unfold bit in Hb.
  destruct (lookup_lt_is_Some_2 dst i) as [d ->]; [lia|]. destruct (lookup_lt_is_Some_2 src i) as [x Hx]; [done|].
  simpl. by rewrite Hb, Hx.
Qed.
Lemma copy_sectors_length bm src dst : length (copy_sectors bm src dst) = length dst.
Proof. apply length_imap. Qed.

Lemma wp_generate_writeback D W ds c0 c id e (Q : rc * flash_transaction → dc → Prop) h :
  dci D W ds c0 → dc_entries c = dc_entries c0 → dc_entries c0 !! id = Some e →
  (∀ m' w, mem_step ds (used c0 W) m' → writeback_of ds m' e w → Q (R0, w) (mk (with_mach m' ds) c fl h)) →
  wp (generate_writeback id) Q (mk ds c fl h).
Proof.
  intros Hi Ec He HQ. unfold generate_writeback. wp_step. eapply wp_entry_at; [by rewrite Ec|].
  pose proof (di_mem _ _ _ (ci_inv _ _ _ _ _ _ _ _ Hi)) as Hm. set (m := bm_mach (ds_bm ds)) in *.
  destruct (ci_entry _ _ _ _ _ _ _ _ Hi _ _ He) as [_ _ O3 _ [_ [b Hb]] _].
  destruct (mw_mem _ Hm _ _ Hb) as [Hlt Hlen].
  wp_step. apply wp_mach. apply wp_alloc_live; [done|]. intros Hpos Hfree. fold m in Hpos, Hfree |- *.
  rewrite (proj2 (Z.eqb_neq _ _)) by lia. wp_step. apply wp_mach. eapply wp_load.
  { simpl. rewrite lookup_insert_ne; [exact Hb|]. intros E. rewrite <-E in Hlt. lia. }
  wp_step. apply wp_mach. eapply wp_load; [simpl; apply lookup_insert_eq|].
  wp_step. apply wp_mach. eapply wp_store; [simpl; apply lookup_insert_eq|]. wp_step.
  match goal with |- Q (_, ?w) (mk (with_mach ?m' _) _ _ _) => apply (HQ m' w) end; cbn [m_mem set_mem];
    rewrite ?insert_insert_eq.
  - eapply mem_step_alloc; [exact Hi|done|done|simpl; by rewrite insert_insert_eq|simpl; fold m; lia|].
    simpl. by rewrite copy_sectors_length, junk_len.
  - split; simpl; try done; [by destruct (ce_key e)| |].
    + split; [done|]. intros i Hi4 _. unfold in_range, SECTOR_SIZE, FLASH_PG_SIZE. simpl. lia.
    + eexists b, _. split; [done|]. split; [by rewrite lookup_insert_eq|]. intros i Hbi. simpl.
      apply copy_sectors_lookup; [rewrite Hlen; by eapply bit_lt|by rewrite junk_len|done].
Qed.
Lemma mem_step_quiet ds keep m' : mem_wf (bm_mach (ds_bm ds)) → mach_quiet (bm_mach (ds_bm ds)) m' → mem_step ds keep m'.
Proof.
  intros Hw Hq. pose proof (mem_wf_quiet _ _ Hq Hw). destruct Hq as [N M F X]. split; try done. intros d _. by rewrite M.
Qed.
Lemma mem_step_trans ds (keep : Z → Prop) m1 m2 : mem_step ds keep m1 → mem_step (with_mach m1 ds) keep m2 → mem_step ds keep m2.
Proof.
  intros [N1 _ X1 K1 F1] [N2 W2 X2 K2 F2]. split; [|done|simpl in *; lia| |by rewrite F2; apply F1].
  - intros a. rewrite N2. apply N1.
  - intros d Hd. rewrite K2 by done. by apply K1.
Qed.
Lemma writeback_of_step D W ds c m1 m2 id e w : dci D W ds c → dc_entries c !! id = Some e →
  mem_step ds (used c W) m1 → writeback_of (with_mach m1 ds) m2 e w → writeback_of ds m2 e w.
Proof.
  intros Hi He [_ _ X1 K1] [? ? ? ? Hn (b & b' & Hb & ?)]. split; try done; [simpl in *; lia|].
  exists b, b'. split; [|done]. rewrite <-Hb. symmetry. apply K1. left. eauto.
Qed.

Lemma wp_slaballoc (Q : Z → mach → Prop) m : mem_wf m →
  (∀ m', mach_quiet m m' → m_next m' = m_next m + 1 → Q (m_next m) m') → wp slaballoc Q m.
Proof. intros Hm HQ. unfold wp, slaballoc. rewrite AL. apply HQ; [split; simpl; done || lia|done]. Qed.
Lemma wp_cache_add D W ds c t (Q : rc * Z → dc → Prop) h : dci D W ds c → cache_req ds t →
  (∀ j d, dc_entries c !! j = Some d → ce_key d ≠ (nsid, t_lpa t)) → nr_pages c < capacity_pages c →
  (∀ m' id data e, e = Ce (nsid, t_lpa t) (t_bitmap t) CES_DIRTY 1 false data →
     prepared D W ds c t id None (with_mach m' ds) (ce_added id e c) →
     Q (R0, id) (mk (with_mach m' ds) (ce_insert id (ce_put id e c)) fl h)) →
  wp (cache_add (t_nsid t) (t_lpa t) (t_bitmap t)) Q (mk ds c fl h).
Proof.
  intros Hi Ht Hmiss Hcap HQ. unfold cache_add. wp_step. apply wp_cache. rewrite (proj2 (Z.leb_gt _ _)) by lia.
  pose proof (di_mem _ _ _ (ci_inv _ _ _ _ _ _ _ _ Hi)) as Hm. pose proof (mw_next _ Hm) as Hpos.
  wp_step. apply wp_mach. apply wp_slaballoc; [done|]. intros m1 Hq1 Hn1.
  rewrite (proj2 (Z.eqb_neq _ _)) by lia. wp_step. apply wp_mach.
  pose proof (mem_wf_quiet _ _ Hq1 Hm) as Hm1. apply wp_alloc_live; [done|]. intros _ _. simpl.
  rewrite (proj2 (Z.eqb_neq _ _)) by lia. wp_step. apply wp_upd_cache. wp_step. unfold add_entry. apply wp_upd_cache.
  wp_step. rewrite (cq_nsid _ _ Ht).
  eapply HQ; [done|]. apply (prepare_add D W ds c t _ (m_next (bm_mach (ds_bm ds))) (m_next m1)); try done; simpl; try lia.
  - eapply mem_step_trans; [by apply mem_step_quiet|].
    eapply (mem_step_alloc D W); [eapply dci_mach; [exact Hi|by apply mem_step_quiet]|done|done|done|simpl; lia|apply junk_len].
  - rewrite lookup_insert_eq. by eexists.
Qed.

Lemma wp_lock_entry id e (Q : () → dc → Prop) ds c h : dc_entries c !! id = Some e →
  Q tt (mk ds (ce_put id (set_ce_owned true e) c) fl h) → wp (lock_entry id) Q (mk ds c fl h).
Proof. intros He HQ. unfold lock_entry. by eapply wp_upd_entry. Qed.
Lemma wp_evict D c id e (Q : rc * Z → dc → Prop) ds h : cache_wf D c → last (dc_lru_list c) = Some id →
  dc_entries c !! id = Some e → id ∉ D → Q (R0, id) (mk ds (ce_evicted id c) fl h) →
  wp cache_evict_entry Q (mk ds c fl h).
Proof.
  intros Hw Hl He HD HQ. unfold cache_evict_entry, remove_lru, erase_entry. wp_step. apply wp_cache. rewrite Hl.
  wp_step. eapply wp_entry_at; [done|]. destruct (cw_pin _ _ Hw _ _ He) as [-> _]. rewrite decide_False by done.
  wp_step. wp_step; [done|]. wp_step. apply wp_upd_cache. wp_step. apply wp_upd_cache. wp_step. apply wp_upd_cache.
  by wp_step.
Qed.
Lemma with_mach_id ds : with_mach (bm_mach (ds_bm ds)) ds = ds.
Proof. by destruct ds as [[] ?]. Qed.
(** The write-back of an evicted entry. *)
Lemma wp_evicted_writeback D W ds c id e (t : flash_transaction) (Q : rc * option flash_transaction → dc → Prop) h :
  dci D W ds c → dc_entries c !! id = Some e →
  (∀ m' wb, mem_step ds (used c W) m' → wb_for ds m' e wb → Q (R0, wb) (mk (with_mach m' ds) (ce_evicted id c) fl h)) →
  wp (if bool_decide (ce_status e = CES_DIRTY) then
        wb_txn ← lift slaballoc;
        if wb_txn =? 0 then mret (Err ENOMEM, None)
        else '(r, wb) ← generate_writeback id;
             match r with Err _ => mret (r, None) | R0 => mret (R0, Some (set_t_req (t_req t) wb)) end
      else mret (R0, None)) Q (mk ds (ce_evicted id c) fl h).
Proof.
  intros Hi He HQ. pose proof (di_mem _ _ _ (ci_inv _ _ _ _ _ _ _ _ Hi)) as Hm. pose proof (mw_next _ Hm) as Hpos.
  case_bool_decide as Es.
  - wp_step. apply wp_mach. apply wp_slaballoc; [done|]. intros m1 Hq1 _. rewrite (proj2 (Z.eqb_neq _ _)) by lia.
    assert (mem_step ds (used c W) m1) as Hs1 by by apply mem_step_quiet.
    pose proof (dci_mach _ _ _ _ _ _ _ _ _ Hi Hs1) as Hi1. wp_step.
    eapply wp_generate_writeback; [exact Hi1|done|exact He|]. intros m' w Hs Hw. cbv beta iota. wp_step.
    eapply HQ; [by eapply mem_step_trans|]. split; [done|].
    eapply writeback_of_step in Hw; [|done..]. by destruct Hw; split.
  - wp_step. pose proof (HQ (bm_mach (ds_bm ds)) None) as HQ'. rewrite with_mach_id in HQ'.
    apply HQ'; [by apply mem_step_quiet; [|apply mach_quiet_refl]|]. simpl.
    destruct (ci_entry _ _ _ _ _ _ _ _ Hi _ _ He) as [_ _ _ O4 _ _]. by destruct (ce_status e).
Qed.

Lemma wp_write_entry D W ds c t (Q : option rc * Z * option flash_transaction → dc → Prop) h :
  dci D W ds c → cache_req ds t → (∀ j d, j ∈ D → dc_entries c !! j = Some d → ce_key d ≠ (nsid, t_lpa t)) →
  Z.of_nat (size D) < capacity_pages c →
  (∀ a id wb ds' c', a = Some R0 ∨ a = None ∧ page_in c (t_lpa t) → prepared D W ds c t id wb ds' c' → Q (a, id, wb) (mk ds' c' fl h)) →
  wp (write_entry t) Q (mk ds c fl h).
Proof.
  intros Hi Ht Hheld Hcap HQ. pose proof (ci_wf _ _ _ _ _ _ _ _ Hi) as Hw. unfold write_entry.
  wp_step. apply wp_cache. rewrite (cq_nsid _ _ Ht). destruct (cache_find c nsid (t_lpa t)) as [id|] eqn:Ef.
  - apply (cache_find_spec D) in Ef as (e & He & Hk); [|done].
    assert (id ∉ D) as HD by (intros HD; by apply (Hheld id e)).
    destruct (cw_pin _ _ Hw _ _ He) as [Hp _]. rewrite decide_False in Hp by done.
    eapply wp_take_entry; [done..|]. wp_step. eapply wp_upd_entry; [simpl; apply lookup_insert_eq|].
    wp_step. eapply wp_entry_at; [simpl; apply lookup_insert_eq|]. wp_step. wp_step; [simpl; by rewrite Hk, Z.eqb_refl|].
    wp_step. apply HQ; [right; split; [done|by exists id, e]|]. exact (prepare_hit D W ds c t id e Hi Ht HD He Hk).
  - rewrite (cache_find_None D) in Ef by done. wp_step. rewrite <-(cq_nsid _ _ Ht).
    destruct (Z.lt_ge_cases (nr_pages c) (capacity_pages c)) as [Hlt|Hge].
    + eapply wp_cache_add; [done..|]. intros m' id data e -> Hpr. cbv beta iota. rewrite bool_decide_eq_false_2 by done.
      wp_step. eapply wp_entry_at; [simpl; apply lookup_insert_eq|]. wp_step. wp_step; [done|]. wp_step.
      eapply wp_lock_entry; [simpl; apply lookup_insert_eq|]. wp_step. apply HQ; [by left|]. exact Hpr.
    + unfold cache_add. wp_step. apply wp_cache. rewrite (proj2 (Z.leb_le _ _)) by lia. wp_step.
      rewrite bool_decide_eq_true_2 by done. wp_step.
      destruct (cache_wf_evictable D c Hw) as (id & e & Hl & He & HD); [lia|].
      eapply wp_evict; [done..|]. cbv beta iota. wp_step. eapply wp_entry_at; [exact He|]. wp_step.
      eapply wp_evicted_writeback; [done..|]. intros m' wb Hs Hwb. cbv beta iota. wp_step.
      eapply wp_upd_entry; [exact He|]. wp_step. unfold add_entry. apply wp_upd_cache.
      eapply wp_take_entry; [simpl; apply lookup_insert_eq|by simpl; destruct (cw_pin _ _ Hw _ _ He) as [-> _]; rewrite decide_False|].
      wp_step. apply HQ; [by left|]. rewrite (cq_nsid _ _ Ht). exact (prepare_evict D W ds c t m' id e wb Hi Ht Hs Ef He HD Hwb).
Qed.

(** * Filling an entry *)
Lemma splice_lookup {A} (b l : list A) f i : (f + length l ≤ length b)%nat →
  (take f b ++ l ++ drop (f + length l) b) !! i =
  if decide (f ≤ i < f + length l)%nat then l !! (i - f)%nat else b !! i.
Proof.
  intros Hle. assert (length (take f b) = f) as Hf by (rewrite length_take; lia).
  destruct (Nat.lt_ge_cases i f) as [Hlt|Hge].
  - rewrite lookup_app_l, lookup_take_lt by lia. by rewrite decide_False by lia.
  - rewrite lookup_app_r, Hf by lia. destruct (Nat.lt_ge_cases (i - f) (length l)) as [Hl|Hl].
    + rewrite lookup_app_l, decide_True by lia. done.
    + rewrite lookup_app_r, lookup_drop, decide_False by lia. f_equal. lia.
Qed.
Record filled D W ds c lpa bm from (l : list sector) ds' : Prop := {
  fi_mach : ∃ m', ds' = with_mach m' ds;
  fi_inv : dci D W ds' c;
  fi_view : ∀ l0 i x, l0 ≠ lpa ∨ ¬ (from ≤ i < from + length l)%nat → view W ds c l0 i x → view W ds' c l0 i x;
  fi_new : ∀ i x, bit bm i = true → (from ≤ i)%nat → l !! (i - from)%nat = Some x → view W ds' c lpa i x;
  fi_some : ∀ data, is_Some (buf_at ds data) → is_Some (buf_at ds' data);
}.
Lemma fill_entry D W ds c id e b from l m' : dci D W ds c → dc_entries c !! id = Some e → ce_status e = CES_DIRTY →
  buf_at ds (ce_data e) = Some b → (from + length l ≤ length (b_data b))%nat →
  m' = set_mem (<[ce_data e := Buf (take from (b_data b) ++ l ++ drop (from + length l) (b_data b)) (b_oob b)]>
         (m_mem (bm_mach (ds_bm ds)))) (bm_mach (ds_bm ds)) →
  filled D W ds c (ce_key e).2 (ce_bitmap e) from l (with_mach m' ds).
Proof.
  intros Hi He Hs Hb Hle ->. set (b' := Buf _ _). set (m' := set_mem _ _).
  pose proof (di_mem _ _ _ (ci_inv _ _ _ _ _ _ _ _ Hi)) as [M1 M2]. pose proof (M2 _ _ Hb) as [M3 M4].
  assert (∀ data, data ≠ ce_data e → buf_at (with_mach m' ds) data = buf_at ds data) as Hoth
    by (intros data Hd; unfold buf_at; simpl; by rewrite lookup_insert_ne).
  assert (buf_at (with_mach m' ds) (ce_data e) = Some b') as Hnew by (unfold buf_at; simpl; by rewrite lookup_insert_eq).
  assert (∀ j d, dc_entries c !! j = Some d → j ≠ id → ce_data d ≠ ce_data e) as Hne.
  { intros j d Hj Hne E. apply Hne. by eapply (ci_data _ _ _ _ _ _ _ _ Hi). }
  assert (∀ t, t ∈ W → t_data t ≠ ce_data e) as HneW.
  { intros t Ht E. by apply (wb_data _ _ _ _ _ (ci_wb _ _ _ _ _ _ _ _ Hi t Ht) id e He). }
  assert (mem_wf m') as Hm'.
  { split; [done|]. intros j d. simpl. intros [[<- <-]|[_ Hd]]%lookup_insert_Some; [|by apply M2].
    split; [done|]. simpl. rewrite !length_app, length_take, length_drop. lia. }
  assert (∀ l0 i x, readsv (with_mach m' ds) l0 i x ↔ readsv ds l0 i x) as Hrd by (intros; by apply readsv_mach).
  assert (dci D W (with_mach m' ds) c) as Hi'.
  { destruct Hi as [Hat Hin Hw Hen Hd Hcl Hp Hwb Hwl Hwd]. split; try done.
    - destruct Hat. by split; try done.
    - by apply dom_inv_mach.
    - intros j d Hj. destruct (Hen _ _ Hj) as [? ? ? ? [? ?] ?]. split; try done. split; [done|].
      destruct (decide (j = id)) as [->| Hn]; [|by rewrite Hoth by by eapply Hne].
      assert (d = e) as -> by congruence. rewrite Hnew. by eexists.
    - intros j d i x Hj Hsd Eb (b0 & Hb0 & Hx). apply Hrd. eapply Hcl; [done..|].
      rewrite Hoth in Hb0; [by exists b0|]. apply (Hne j d Hj). intros ->. congruence.
    - intros t Ht. destruct (Hwb t Ht) as [[[? ? ? [b0 [? Hb0 ? ?]]] ?] ? ? ?]. split; try done. split; [|done].
      split; try done. exists b0. split; try done. simpl. by rewrite lookup_insert_ne by (apply not_eq_sym; by apply HneW). }
  assert (∀ i, b_data b' !! i = if decide (from ≤ i < from + length l)%nat then l !! (i - from)%nat else b_data b !! i) as Hlk.
  { intros i. by apply splice_lookup. }
  assert (ccached c (ce_key e).2 = Some e) as Hcc.
  { apply (ccached_spec nsid D); [apply Hi|]. exists id. split; [done|].
    destruct (ci_entry _ _ _ _ _ _ _ _ Hi _ _ He) as [<- _ _ _ _ _]. by destruct (ce_key e). }
  assert (∀ l0 i x, below W (with_mach m' ds) l0 i x ↔ below W ds l0 i x) as Hbl.
  { intros l0 i x. unfold below. rewrite Hrd. apply or_iff_compat_r.
    split; intros (t & Ht & El & Eb & b0 & Hb0 & Hx); exists t; (split; [done|]; split; [done|]; split; [done|]); exists b0;
      [rewrite Hoth in Hb0 by by apply HneW|rewrite Hoth by by apply HneW]; done. }
  split; [by eexists|done| | |].
  - intros l0 i x Hl Hv. unfold DataCacheSpec.view in *. destruct (ccached c l0) as [d|] eqn:Ed; [|by apply Hbl].
    destruct (bit (ce_bitmap d) i); [|by apply Hbl]. destruct Hv as (b0 & Hb0 & Hx).
    destruct (decide (l0 = (ce_key e).2)) as [->| Hn].
    + assert (d = e) as -> by congruence. exists b'. split; [done|]. rewrite Hlk, decide_False by naive_solver. congruence.
    + exists b0. split; [|done]. apply (ccached_spec nsid D) in Ed as (j & Hj & Hk); [|apply Hi].
      rewrite Hoth; [done|]. apply (Hne j); [done|]. intros ->. assert (d = e) as -> by congruence. by rewrite Hk in Hn.
  - intros i x Hb1 Hf Hx. unfold DataCacheSpec.view. rewrite Hcc, Hb1. exists b'. split; [done|].
    rewrite Hlk, decide_True; [done|]. apply lookup_lt_Some in Hx. lia.
  - intros data Hd. destruct (decide (data = ce_data e)) as [->|Hn]; [rewrite Hnew; by eexists|by rewrite Hoth].
Qed.
Lemma wp_iov_write D W ds c id e t l (Q : () → dc → Prop) h : dci D W ds c → dc_entries c !! id = Some e →
  ce_status e = CES_DIRTY → (txn_from t + txn_len t ≤ 4)%nat → length l = txn_len t →
  (∀ ds', filled D W ds c (ce_key e).2 (ce_bitmap e) (txn_from t) l ds' → Q tt (mk ds' c fl h)) →
  wp (lift (iov_write (txn_iov (ce_data e) t) l)) Q (mk ds c fl h).
Proof.
  intros Hi He Hs Hle Hl HQ. destruct (ci_entry _ _ _ _ _ _ _ _ Hi _ _ He) as [_ _ _ _ [_ [b Hb]] _].
  destruct (mw_mem _ (di_mem _ _ _ (ci_inv _ _ _ _ _ _ _ _ Hi)) _ _ Hb) as [_ Hbl].
  apply wp_mach. unfold iov_write. wp_step. eapply wp_load; [exact Hb|]. wp_step.
  change (iov_from _) with (txn_from t). change (iov_len _) with (txn_len t). wp_step.
  { apply Nat.leb_le. change (@length (list Z)) with (@length sector). lia. }
  eapply wp_store; [exact Hb|]. apply HQ. rewrite <-Hl. eapply fill_entry; try done.
  change (@length (list Z)) with (@length sector). lia.
Qed.

(** * The preparation loop *)

(** [t'] is [t] with its entry, held and dirty; [v] is its segment. *)
Record slot (c : data_cache) (t t' : flash_transaction) (v : iovec) : Prop := {
  sl_txn : t' = set_t_data (t_data t) (t_opaque t') t;
  sl_entry : ∃ e, dc_entries c !! t_opaque t' = Some e ∧ ce_key e = (nsid, t_lpa t) ∧ ce_status e = CES_DIRTY ∧
    (∀ i, bit (t_bitmap t) i = true → bit (ce_bitmap e) i = true) ∧ v = txn_iov (ce_data e) t;
}.
Record all_prepared (wz : bool) D W ds c l l' wbs iov ds' c' : Prop := {
  ap_mach : ∃ m', ds' = with_mach m' ds;
  ap_inv : dci (list_to_set (t_opaque <$> l') ∪ D) (W ++ wbs) ds' c';
  ap_new : NoDup (t_opaque <$> l') ∧ ∀ j, j ∈ t_opaque <$> l' → j ∉ D;
  ap_slots : Forall3 (slot c') l l' iov;
  ap_held : ∀ j, j ∈ D → dc_entries c' !! j = dc_entries c !! j;
  ap_view : ∀ l0 i x, (∀ t, t ∈ l → l0 ≠ t_lpa t ∨ bit (t_bitmap t) i = false) → view W ds c l0 i x → view (W ++ wbs) ds' c' l0 i x;
  ap_len : (length wbs ≤ length l)%nat;
  ap_cap : capacity_pages c' = capacity_pages c;
  ap_zero : wz = true → ∀ t i, t ∈ l → bit (t_bitmap t) i = true → view (W ++ wbs) ds' c' (t_lpa t) i (replicate 1024 0);
}.
Lemma cache_req_mach ds m' t : cache_req ds t → cache_req (with_mach m' ds) t.
Proof. by intros []. Qed.

Lemma wp_prepare_writes wz l : ∀ i r D W ds c (Q : bool * rc * list flash_transaction * list flash_transaction * list iovec → dc → Prop) h,
  dci D W ds c → Forall (cache_req ds) l → NoDup (t_lpa <$> l) →
  (∀ t j d, t ∈ l → j ∈ D → dc_entries c !! j = Some d → ce_key d ≠ (nsid, t_lpa t)) →
  Z.of_nat (size D + length l) ≤ capacity_pages c → i + Z.of_nat (length l) ≤ 256 →
  (∀ r' l' wbs iov ds' c', r' = R0 ∨ r' = r ∧ (∀ t, t ∈ l → page_in c (t_lpa t)) → all_prepared wz D W ds c l l' wbs iov ds' c' →
     Q (false, r', l', wbs, iov) (mk ds' c' fl h)) →
  wp (prepare_writes wz i r l) Q (mk ds c fl h).
Proof.
  induction l as [|t l IH]; intros i r D W ds c Q h Hi Hl Hnd Hheld Hcap Hidx HQ; cbn [prepare_writes].
  { wp_step. apply HQ; [right; split; [done|intros t []%elem_of_nil]|]. split; rewrite ?app_nil_r; try done.
    - exists (bm_mach (ds_bm ds)). by rewrite with_mach_id.
    - simpl. by rewrite union_empty_l_L.
    - simpl. split; [constructor|]. set_solver.
    - constructor.
    - intros _ t0 i0 []%elem_of_nil. }
  apply Forall_cons in Hl as [Ht Hl]. rewrite fmap_cons in Hnd. apply NoDup_cons in Hnd as [Hnt Hnd]. simpl in Hidx, Hcap.
  rewrite (proj2 (Z.leb_gt _ _)) by (change (Z.shiftl 1 MAX_DATA_TRANSFER_SIZE) with 256; lia). wp_step.
  apply (wp_write_entry D W ds c t); [done|done|intros j d; apply Hheld; set_solver|lia|].
  intros a id wb ds1 c1 Ha Hpr. cbv beta iota. rewrite bool_decide_eq_true_2 by (destruct Ha as [?|[? _]]; auto).
  destruct Hpr as [[m1 ->] P2 P3 P4 (e & He & Hk & Hs & Hbits) P6 P7 P8].
  wp_step. eapply wp_entry_at; [exact He|]. set (t1 := set_t_data (t_data t) id t). set (v := txn_iov (ce_data e) t1). wp_step.
  assert (size ({[id]} ∪ D) = S (size D)) as Hsz by (rewrite size_union, size_singleton by set_solver; done).
  pose proof (cq_fits _ _ Ht) as Hfit.
  apply wp_do_if. enough (∀ ds1', (∃ m', ds1' = with_mach m' ds) → dci ({[id]} ∪ D) (W ++ option_list wb) ds1' c1 →
    (∀ l0 i0 x, l0 ≠ t_lpa t ∨ bit (t_bitmap t) i0 = false → view W ds c l0 i0 x → view (W ++ option_list wb) ds1' c1 l0 i0 x) →
    (wz = true → ∀ i0, bit (t_bitmap t) i0 = true → view (W ++ option_list wb) ds1' c1 (t_lpa t) i0 (replicate 1024 0)) →
    wp ('(early, r2, l2, wbs, iov) ← prepare_writes wz (i + 1) (default r a) l;
        mret (early, r2, t1 :: l2, option_list wb ++ wbs, v :: iov)) Q (mk ds1' c1 fl h)) as Hrest.
  { destruct wz; [|by apply Hrest; eauto]. eapply wp_iov_write; [exact P2|exact He|done|exact Hfit|apply length_replicate|].
    intros ds2 [[m2 ->] F2 F3 F4 _]. rewrite Hk in F3, F4. simpl in F3, F4. rewrite length_replicate in F3.
    apply Hrest; [by exists m2|done| |].
    - intros l0 i0 x Hor Hv. apply F3; [|by apply P7]. destruct Hor as [|Hb]; [by left|]. right. intros Hin.
      apply (cq_cover _ _ Ht) in Hin. congruence.
    - intros _ i0 Hb. apply F4; [by apply Hbits| |].
      + apply (cq_cover _ _ Ht) in Hb. change (txn_from t1) with (txn_from t). lia.
      + apply (cq_cover _ _ Ht) in Hb. apply lookup_replicate_2. change (i0 - txn_from t < txn_len t)%nat. lia. }
  intros ds1' [m1' ->] Hi1 Hv1 Hz1. wp_step. apply (IH _ _ _ _ _ _ _ _ Hi1).
  - eapply Forall_impl; [exact Hl|]. intros. by apply cache_req_mach.
  - done.
  - intros t0 j d Ht0 [ ->%elem_of_singleton|Hj]%elem_of_union Hd.
    + assert (d = e) as -> by congruence. rewrite Hk. intros [=E]. apply Hnt. rewrite E. by apply list_elem_of_fmap_2.
    + rewrite P6 in Hd by done. apply (Hheld t0 j d); [set_solver|done..].
  - lia.
  - lia.
  - intros r' l' wbs iov ds' c' Hr' [[m' ->] A2 [A3 A3'] A4 A5 A6 A8 A9 A7]. cbv beta iota. wp_step. apply HQ.
    { destruct Hr' as [->|[-> Hin]]; [by left|]. destruct Ha as [->|[-> Ht1]]; [by left|]. right. split; [done|].
      intros t0 [->|Ht0]%elem_of_cons; [done|]. destruct (P8 _ (Hin t0 Ht0)) as [E|?]; [|done].
      exfalso. apply Hnt. rewrite <-E. by apply list_elem_of_fmap_2. }
    rewrite <-app_assoc in A2, A6, A7. split.
    + by exists m'.
    + assert (list_to_set (t_opaque <$> t1 :: l') ∪ D = list_to_set (t_opaque <$> l') ∪ ({[id]} ∪ D) :> gset Z) as -> by (simpl; set_solver).
      done.
    + simpl. split; [constructor; [|done]|].
      * intros Hin. apply A3' in Hin. set_solver.
      * intros j [->| Hj]%elem_of_cons; [done|]. apply A3' in Hj. set_solver.
    + constructor; [|done]. split; [done|]. exists e. simpl. rewrite A5 by set_solver. done.
    + intros j Hj. rewrite A5 by set_solver. by apply P6.
    + intros l0 i0 x Hn Hv. apply A6; [set_solver|]. apply Hv1; [apply Hn; set_solver|done].
    + rewrite length_app. destruct wb; simpl; lia.
    + congruence.
    + intros Hwz t0 i0 [->| Ht0]%elem_of_cons Hb; [|by apply A7]. apply A6; [|by apply Hz1].
      intros t2 Ht2. left. intros E. apply Hnt. rewrite E. by apply list_elem_of_fmap_2.
Qed.
End write.
