(* ===== verification/DataCacheStore.v ===== *)
(** The rest of a buffered write: dispatching the write-backs, moving the host's
    data into the entries, releasing buffers and entries. *)
From S2P Require Import Prelude Bitmap Avl Flash Machine BlockManager Amu AmuFacts AmuSpec AmuWrite AmuDispatch DataCache DataCacheFacts DataCacheSpec DataCacheWrite.

#[local] Unset Default Proof Using.
(** Every position of a request belongs to a sector of one of its transactions. *)
Lemma sum_list_index (l : list nat) : ∀ j, (j < sum_list l)%nat →
  ∃ k n i, l !! k = Some n ∧ (i < n)%nat ∧ j = (sum_list (take k l) + i)%nat.
Proof.
  induction l as [|n l IH]; intros j Hj; [simpl in Hj; lia|change (j < n + sum_list l)%nat in Hj].
  destruct (decide (j < n)%nat) as [H|H]; [by exists 0%nat, n, j|].
  destruct (IH (j - n)%nat ltac:(lia)) as (k & m & i & Hk & Hi & E). exists (S k), m, i.
  split; [done|]. split; [done|]. change (sum_list (take (S k) (n :: l))) with (n + sum_list (take k l))%nat. lia.
Qed.
Lemma txns_index (l : list flash_transaction) j : (j < sum_list (txn_len <$> l))%nat →
  ∃ k t i, l !! k = Some t ∧ (i < txn_len t)%nat ∧ j = (sum_list (txn_len <$> take k l) + i)%nat.
Proof.
  intros (k & n & i & Hk & Hi & ->)%sum_list_index. apply list_lookup_fmap_Some in Hk as (t & -> & Hk).
  exists k, t, i. by rewrite fmap_take.
Qed.
Section store.
Context {PL : Platform} {PO : @PlatformOk PL} {EL : @EccLive PL} {AL : @AllocLive PL} {RL : @ReadLive PL}.
Context {HO : Host} {HK : @HostOk HO}.
Context (P : flash_address → Prop) (nsid ptr : Z) (u0 : amu) (fl : flushers).
Notation mk := (mk ptr u0).
Notation dci := (dci P nsid ptr u0).
Notation view := (view nsid).
Notation ccached := (ccached nsid).
Notation cache_req := (cache_req nsid).
Notation slot := (slot nsid).

(** * Releasing buffers and entries *)
Lemma mem_step_free ds keep data : mem_wf (bm_mach (ds_bm ds)) → ¬ keep data →
  mem_step ds keep (set_mem (delete data (m_mem (bm_mach (ds_bm ds)))) (bm_mach (ds_bm ds))).
Proof.
  intros [M1 M2] Hn. split; try done.
  - split; [done|]. intros j b. simpl. intros [_ Hb]%lookup_delete_Some. by apply M2.
  - intros d Hd. simpl. rewrite lookup_delete_ne; [done|]. by intros ->.
Qed.
Lemma wp_free_all (l : list flash_transaction) : ∀ D ds c (Q : () → dc → Prop) h,
  dci D [] ds c → NoDup (t_data <$> l) →
  Forall (λ t, is_Some (buf_at ds (t_data t)) ∧ ∀ id e, dc_entries c !! id = Some e → ce_data e ≠ t_data t) l →
  (∀ m', dci D [] (with_mach m' ds) c → (∀ l0 i x, view [] (with_mach m' ds) c l0 i x ↔ view [] ds c l0 i x) →
     Q tt (mk (with_mach m' ds) c fl h)) →
  wp (for_each l (λ txn, do_if (negb (t_data txn =? 0)) (lift (free_mem (t_data txn))))) Q (mk ds c fl h).
Proof.
  induction l as [|t l IH]; intros D ds c Q h Hi Hnd Hl HQ; cbn [for_each].
  { wp_step. specialize (HQ (bm_mach (ds_bm ds))). rewrite with_mach_id in HQ. by apply HQ. }
  apply Forall_cons in Hl as [[Hb Hne] Hl]. rewrite fmap_cons in Hnd. apply NoDup_cons in Hnd as [Hnt Hnd]. wp_step.
  enough (∀ m', dci D [] (with_mach m' ds) c → (∀ l0 i x, view [] (with_mach m' ds) c l0 i x ↔ view [] ds c l0 i x) →
    Forall (λ t, is_Some (buf_at (with_mach m' ds) (t_data t)) ∧ ∀ id e, dc_entries c !! id = Some e → ce_data e ≠ t_data t) l →
    wp (for_each l (λ txn, do_if (negb (t_data txn =? 0)) (lift (free_mem (t_data txn))))) Q (mk (with_mach m' ds) c fl h)) as Hrest.
  { wp_step. destruct (t_data t =? 0); simpl.
    - specialize (Hrest (bm_mach (ds_bm ds))). rewrite with_mach_id in Hrest. by apply Hrest.
    - apply wp_mach. apply wp_free_mem; [done|]. set (m' := set_mem _ _).
      assert (mem_step ds (used c []) m') as Hs.
      { apply mem_step_free; [apply Hi|]. intros [(id & e & He & E)|[]%elem_of_nil]. by apply (Hne id e). }
      apply Hrest; [by apply dci_mach|intros; apply (view_mach _ _ _ _ _ _ _ _ D); [apply Hi|done]|].
      rewrite Forall_forall in Hl |- *. intros t' Ht'. destruct (Hl t' Ht') as [Hb' Hne']. split; [|done].
      unfold buf_at. simpl. rewrite lookup_delete_ne; [done|]. intros E. apply Hnt. rewrite E. by apply list_elem_of_fmap_2. }
  intros m' Hi' Hv' Hl'. eapply IH; [done..|]. intros m2 Hi2 Hv2. apply (HQ m2); [done|].
  intros l0 i x. rewrite <-Hv'. apply (Hv2 l0 i x).
Qed.

(** An entry changes without moving or losing sectors. *)
Lemma view_entry D D' W ds c c' id e e' l i x : cache_wf D c → cache_wf D' c' → dc_entries c !! id = Some e →
  dc_entries c' = <[id := e']> (dc_entries c) → ce_key e' = ce_key e → ce_bitmap e' = ce_bitmap e → ce_data e' = ce_data e →
  view W ds c' l i x ↔ view W ds c l i x.
Proof.
  intros Hw Hw' He Ec Ek Eb Ed. destruct (ccached_insert nsid D D' c c' id e' Hw Hw' Ec) as [C1 C2].
  destruct (decide (ce_key e = (nsid, l))) as [Hk|Hk].
  - rewrite Ek, Hk in C1. simpl in C1. rewrite decide_True in C1 by done. unfold DataCacheSpec.view. rewrite C1.
    assert (ccached c l = Some e) as ->; [|by rewrite Eb, Ed]. apply (ccached_spec nsid D); [done|]. eauto.
  - unfold DataCacheSpec.view. rewrite C2; [done|by rewrite Ek|]. intros e0 He0. congruence.
Qed.
Lemma dci_release D ds c id e : dci D [] ds c → id ∈ D → dc_entries c !! id = Some e →
  dci (D ∖ {[id]}) [] ds (ce_release id e c) ∧ ∀ l i x, view [] ds (ce_release id e c) l i x ↔ view [] ds c l i x.
Proof.
  intros Hi HD He. assert (cache_wf (D ∖ {[id]}) (ce_release id e c)) as Hw' by by apply cache_wf_release; [apply Hi|..].
  split; [|intros; eapply view_entry; [apply Hi|exact Hw'|exact He|done..]].
  eapply dci_entry; [exact Hi|exact Hw'|done|by left|..].
  - by destruct (ci_entry _ _ _ _ _ _ _ _ Hi _ _ He).
  - intros j d Hne Hj E. apply Hne. by eapply (ci_data _ _ _ _ _ _ _ _ Hi).
  - intros i x. by apply (ci_clean _ _ _ _ _ _ _ _ Hi id e).
  - intros ? []%elem_of_nil.
Qed.
Lemma wp_for_each_ext {S A} (f g : A → ST S ()) (l : list A) Q s : (∀ x s, f x s = g x s) →
  wp (for_each l f) Q s → wp (for_each l g) Q s.
Proof.
  intros E. revert s. induction l as [|x l IH]; intros s; cbn [for_each]; [done|].
  unfold wp, mbind, ST_bind. rewrite <-E. destruct (f x s) as [[[] s']|]; [|done]. apply IH.
Qed.
Lemma wp_unlock_all (l : list flash_transaction) : ∀ D ds c (Q : () → dc → Prop) h,
  dci (list_to_set (t_opaque <$> l) ∪ D) [] ds c → NoDup (t_opaque <$> l) → (∀ j, j ∈ t_opaque <$> l → j ∉ D) →
  (∀ c', dci D [] ds c' → (∀ l0 i x, view [] ds c' l0 i x ↔ view [] ds c l0 i x) →
     (∀ j d', dc_entries c' !! j = Some d' → ∃ d, dc_entries c !! j = Some d ∧ ce_data d = ce_data d') → Q tt (mk ds c' fl h)) →
  wp (for_each l (λ txn, unlock_entry (t_opaque txn) ≫= λ _, unpin_entry (t_opaque txn))) Q (mk ds c fl h).
Proof.
  induction l as [|t l IH]; intros D ds c Q h Hi Hnd HD HQ; cbn [for_each].
  { wp_step. apply HQ; [|done|eauto]. simpl in Hi. by rewrite union_empty_l_L in Hi. }
  rewrite fmap_cons in Hnd, HD, Hi. apply NoDup_cons in Hnd as [Hnt Hnd]. set (id := t_opaque t) in *.
  pose proof (ci_wf _ _ _ _ _ _ _ _ Hi) as Hw.
  assert (id ∈ (list_to_set (id :: (t_opaque <$> l)) ∪ D : gset Z)) as Hin by set_solver.
  destruct (cw_held _ _ Hw id Hin) as [e He]. destruct (cw_pin _ _ Hw _ _ He) as [Hp _]. rewrite decide_True in Hp by done.
  destruct (dci_release _ _ _ _ _ Hi Hin He) as [Hi' Hv'].
  wp_step. eapply wp_release_entry; [exact He|exact Hp|]. apply (IH D); [|done|set_solver|].
  - assert (list_to_set (t_opaque <$> l) ∪ D = (list_to_set (id :: (t_opaque <$> l)) ∪ D) ∖ {[id]} :> gset Z) as ->; [|done].
    apply set_eq. intros j. specialize (HD j). clear -HD Hnt. set_unfold. naive_solver.
  - intros c' Hc' Hvc Hdc. apply HQ; [done|intros l0 i x; by rewrite Hvc|].
    intros j d' (d & Hd & <-)%Hdc. simpl in Hd. apply lookup_insert_Some in Hd as [[<- <-]|[_ Hd]]; eauto.
Qed.
Lemma wp_release_all (l : list flash_transaction) D ds c (Q : () → dc → Prop) h :
  dci (list_to_set (t_opaque <$> l) ∪ D) [] ds c → NoDup (t_opaque <$> l) → (∀ j, j ∈ t_opaque <$> l → j ∉ D) →
  (∀ c', dci D [] ds c' → (∀ l0 i x, view [] ds c' l0 i x ↔ view [] ds c l0 i x) → Q tt (mk ds c' fl h)) →
  wp (for_each l (λ txn,
    do_if (negb (is_ok R0)) (upd_entry (t_opaque txn) (set_ce_status CES_EMPTY) ≫= λ _, erase_entry (t_opaque txn)) ≫= λ _,
    unlock_entry (t_opaque txn) ≫= λ _, unpin_entry (t_opaque txn))) Q (mk ds c fl h).
Proof.
  intros Hi Hnd HD HQ. eapply wp_for_each_ext; [|eapply (wp_unlock_all l); [exact Hi|done|done|]]; [done|].
  intros c' Hc Hv _. by apply HQ.
Qed.

(** * Moving the host's data *)
Lemma wp_lift_bind {A B} (m : ST mach A) (f : A → ST mach B) (Q : B → dc → Prop) ds c h :
  wp (lift m) (λ a, wp (lift (f a)) Q) (mk ds c fl h) → wp (lift (m ≫= f)) Q (mk ds c fl h).
Proof.
  intros Hw. apply wp_lift. wp_step. apply wp_lift in Hw. eapply wp_mono; [exact Hw|].
  intros a m' Hf. apply wp_lift in Hf. exact Hf.
Qed.
(** The transactions [l] partition [xs] in order. *)
Definition placed (V : Z → nat → sector → Prop) (l : list flash_transaction) (xs : list sector) : Prop :=
  ∀ k t i x, l !! k = Some t → (i < txn_len t)%nat → xs !! (sum_list (txn_len <$> take k l) + i)%nat = Some x →
    V (t_lpa t) (txn_from t + i)%nat x.
Lemma wp_scatter l : ∀ l' iov xs D ds c (Q : () → dc → Prop) h,
  dci D [] ds c → Forall (cache_req ds) l → NoDup (t_lpa <$> l) → Forall3 (slot c) l l' iov →
  length xs = sum_list (txn_len <$> l) →
  (∀ m', dci D [] (with_mach m' ds) c →
     (∀ l0 i x, (∀ t, t ∈ l → l0 ≠ t_lpa t ∨ bit (t_bitmap t) i = false) → view [] ds c l0 i x → view [] (with_mach m' ds) c l0 i x) →
     placed (view [] (with_mach m' ds) c) l xs →
     (∀ data, is_Some (buf_at ds data) → is_Some (buf_at (with_mach m' ds) data)) → Q tt (mk (with_mach m' ds) c fl h)) →
  wp (lift (scatter iov xs)) Q (mk ds c fl h).
Proof.
  induction l as [|t l IH]; intros l' iov xs D ds c Q h Hi Hl Hnd Hsl Hlen HQ; inversion Hsl as [|? t' v ? l1 iov1 Hs1 Hsl1]; subst; cbn [scatter].
  { apply wp_mach. wp_step. apply HQ; rewrite ?with_mach_id; try done. }
  apply Forall_cons in Hl as [Ht Hl]. rewrite fmap_cons in Hnd. apply NoDup_cons in Hnd as [Hnt Hnd].
  destruct Hs1 as [_ (e & He & Hk & Hs & Hbits & ->)]. change (length xs = (txn_len t + sum_list (txn_len <$> l))%nat) in Hlen. apply wp_lift_bind.
  change (iov_len _) with (txn_len t).
  assert (length (take (txn_len t) xs) = txn_len t) as Htl by (rewrite length_take; lia).
  eapply wp_iov_write; [exact Hi|exact He|exact Hs|apply Ht|exact Htl|].
  intros ds1 [[m1 ->] F2 F3 F4 F5]. rewrite Hk in F3, F4. simpl in F3, F4. rewrite Htl in F3.
  eapply IH; [exact F2| |done|done|rewrite length_drop; lia|].
  { eapply Forall_impl; [exact Hl|]. intros. by apply cache_req_mach. }
  intros m2 Hi2 Hv2 Hp2 Hs2. apply (HQ m2); [done| | |intros data Hd; by apply Hs2, F5].
  - intros l0 i x Hn Hv. apply Hv2; [set_solver|]. apply F3; [|done]. destruct (Hn t) as [|Hb]; [set_solver|by left|].
    right. intros Hin. apply (cq_cover _ _ _ Ht) in Hin. congruence.
  - intros [|k] t0 i x Hk0 Hlt Hx; simpl in Hk0.
    + injection Hk0 as <-. simpl in Hx. apply Hv2.
      { intros t2 Ht2. left. intros E. apply Hnt. rewrite E. by apply list_elem_of_fmap_2. }
      assert (bit (t_bitmap t) (txn_from t + i) = true) as Hb by (apply (cq_cover _ _ _ Ht); lia).
      apply F4; [by apply Hbits|lia|]. replace (txn_from t + i - txn_from t)%nat with i by lia. by rewrite lookup_take_lt by lia.
    + eapply (Hp2 k); [done|done|]. rewrite lookup_drop, Nat.add_assoc. exact Hx.
Qed.

(** * Dispatching write-backs *)
Context {WL : @WriteLive PL} {DL : @DmaLive PL}.
Definition amu_room (n : nat) (ds : dom_st) : Prop :=
  pc_size (d_pcache (ds_dom ds)) + Z.of_nat n ≤ pc_capacity (d_pcache (ds_dom ds)) ∧ bm_ready n (ds_bm ds).

Lemma dci_dispatched D W ds ds' c : dci D W ds c → dom_inv P None ds' → evolves ds ds' → written ds ds' W → dci D [] ds' c.
Proof.
  intros [Hat Hin Hw Hen Hd Hcl Hp Hwb Hwl Hwd] Hin' Hev [S1 S2 S3 S4 S5 S6].
  pose proof (ev_consts _ _ Hev) as Hsc. split; try done; try (intros ? []%elem_of_nil).
  - destruct Hsc as (Hk & _). eapply attached_with in Hat; [|exact Hk]. by rewrite with_dom_with in Hat.
  - intros id e He. destruct (Hen _ _ He) as [? ? ? ? [? ?] ?]. split; try done; [by apply (owner_ok_same _ _ _ Hsc)| |lia].
    split; [done|]. by apply S5.
  - intros id e i x He Hs Hb (b & Hb0 & Hx). destruct (Hen _ _ He) as [? ? ? ? ? ?]. apply S2; [done| |].
    + intros (t & E & Ht)%list_elem_of_fmap. destruct (wb_key _ _ _ _ _ (Hwb t Ht) id e He E). congruence.
    + eapply Hcl; [done..|]. exists b. split; [|done]. rewrite <-S4; [done|].
      intros (t & E & Ht)%list_elem_of_fmap. by apply (wb_data _ _ _ _ _ (Hwb t Ht) id e He).
  - intros l Ho. apply S3; [by apply (owner_ok_same _ _ _ Hsc)|]. right. apply Hp. by apply (owner_ok_same _ _ _ Hsc).
  - constructor.
  - constructor.
Qed.
Lemma view_dispatched D W ds ds' c l i x : dci D W ds c → written ds ds' W → owner_ok (ds_dom ds) (OData l) → (i < 4)%nat →
  view W ds c l i x → view [] ds' c l i x.
Proof.
  intros Hi [S1 S2 _ S4 _ _] Ho Hi4.
  assert (below W ds l i x → below [] ds' l i x) as Hb.
  { intros H. right. split; [intros ? []%elem_of_nil|]. destruct H as [(t & Ht & <- & Eb & b & Hb & Hx)|[Hn Hr]].
    - destruct (S1 t i x Ht Hi4) as [H1 _]. by eapply H1.
    - destruct (decide (l ∈ t_lpa <$> W)) as [(t & -> & Ht)%list_elem_of_fmap|Hnin].
      + destruct (S1 t i x Ht Hi4) as [_ H2]. by apply H2; [apply Hn|].
      + by apply S2. }
  unfold DataCacheSpec.view. destruct (ccached c l) as [e|] eqn:Ec; [|done]. destruct (bit (ce_bitmap e) i); [|done].
  intros (b & Hb0 & Hx). exists b. split; [|done]. rewrite S4; [done|]. intros (t & E & Ht)%list_elem_of_fmap.
  apply (ccached_spec nsid D) in Ec as (id & He & _); [|apply Hi].
  by apply (wb_data _ _ _ _ _ (ci_wb _ _ _ _ _ _ _ _ Hi t Ht) id e He).
Qed.
Lemma wp_dispatch_wbs D W ds c (Q : rc * list flash_transaction → dc → Prop) h : dci D W ds c → amu_room (length W) ds →
  (∀ ds' W', dom_inv P None ds' → evolves ds ds' → written ds ds' W → Forall2 same_buf W W' →
     Q (R0, W') (mk ds' c fl h)) →
  wp (lift (amu_dispatch W)) Q (mk ds c fl h).
Proof.
  intros Hi [Hr1 Hr2] HQ. apply wp_unit. eapply wp_mono.
  - apply (wp_dispatch_writes P nsid ptr ds (with_dom ptr ds u0) W); try apply Hi; [|done|done].
    rewrite Forall_forall. intros t Ht. apply (ci_wb _ _ _ _ _ _ _ _ Hi t Ht).
  - intros [r W'] u' (ds' & -> & Hin & Hev & Hw & Hok). exists ds'. split; [by rewrite !with_dom_with|].
    assert (r = R0) as ->.
    { apply Hok; [done|done|]. rewrite Forall_forall. intros t Ht. apply (ci_prog _ _ _ _ _ _ _ _ Hi).
      by destruct (ci_wb _ _ _ _ _ _ _ _ Hi t Ht) as [[[] _] _ _ _]. }
    destruct (Hw eq_refl) as [Hw1 Hw2]. by apply HQ.
Qed.

(** * A buffered write *)
Lemma cache_req_consts ds ds' t : same_consts (ds_dom ds) (ds_dom ds') → cache_req ds t → cache_req ds' t.
Proof. intros Hc []. split; try done. by apply (owner_ok_same _ _ _ Hc). Qed.
Lemma slots_count c l l' iov : Forall3 (slot c) l l' iov → iov_count iov = sum_list (txn_len <$> l).
Proof.
  unfold iov_count. induction 1 as [|t t' v l l' iov [_ (e & _ & _ & _ & _ & ->)] _ IH]; [done|].
  rewrite !fmap_cons. cbn [sum_list foldr]. by rewrite IH.
Qed.
(** The state after a buffered write of the transactions [l]. *)
Record stored (ds : dom_st) (c : data_cache) (l : list flash_transaction) (ds' : dom_st) (c' : data_cache) : Prop := {
  st_inv : dci ∅ [] ds' c';
  st_consts : same_consts (ds_dom ds) (ds_dom ds');
  st_room : ∀ n, amu_room (length l + n) ds → amu_room n ds';
  st_others : ∀ l0 i x, owner_ok (ds_dom ds) (OData l0) → (i < 4)%nat →
    (∀ t, t ∈ l → l0 ≠ t_lpa t ∨ bit (t_bitmap t) i = false) → view [] ds c l0 i x → view [] ds' c' l0 i x;
}.

Lemma amu_room_written ds ds' W n : same_consts (ds_dom ds) (ds_dom ds') → written ds ds' W → amu_room (length W + n) ds → amu_room n ds'.
Proof.
  intros Hsc Hw [R1 R2]. destruct Hsc as (_ & _ & _ & _ & _ & _ & _ & Ec & _). pose proof (wr_size _ _ _ Hw). split; [lia|].
  by apply (wr_ready _ _ _ Hw).
Qed.
Lemma wp_maybe_dispatch W D ds c r (Q : bool * rc * list flash_transaction → dc → Prop) h : dci D W ds c → amu_room (length W) ds →
  (∀ ds' W' r', same_consts (ds_dom ds) (ds_dom ds') → dci D [] ds' c →
     (∀ l i x, owner_ok (ds_dom ds) (OData l) → (i < 4)%nat → view W ds c l i x → view [] ds' c l i x) →
     NoDup (t_data <$> W') →
     Forall (λ t, is_Some (buf_at ds' (t_data t)) ∧ ∀ id e, dc_entries c !! id = Some e → ce_data e ≠ t_data t) W' →
     r' = r ∨ r' = R0 → (∀ n, amu_room (length W + n) ds → amu_room n ds') → Q (false, r', W') (mk ds' c fl h)) →
  wp (match W with
      | [] => mret (false, r, W)
      | _ => '(r, W') ← lift (amu_dispatch W); mret (negb (is_ok r), r, W')
      end) Q (mk ds c fl h).
Proof.
  intros Hi Hr HQ. destruct W as [|w W]; [wp_step; apply HQ; try done; [constructor|by left]|]. set (WW := w :: W) in *.
  wp_step. eapply wp_dispatch_wbs; [exact Hi|done|]. intros ds' W' Hin Hev Hw Hsb. cbv beta iota. wp_step. cbn [is_ok negb].
  assert (t_data <$> W' = t_data <$> WW) as Ed.
  { clear -Hsb. induction Hsb as [|x y ? ? [E _] _ IH]; [done|]. rewrite !fmap_cons. by f_equal. }
  apply HQ; [apply Hev|by eapply dci_dispatched| | | |by right|].
  - intros l i x Ho Hi4. by eapply view_dispatched.
  - rewrite Ed. apply Hi.
  - rewrite Forall_forall. intros t' Ht'. assert (t_data t' ∈ t_data <$> WW) as (t & E & Ht)%list_elem_of_fmap.
    { rewrite <-Ed. by apply list_elem_of_fmap_2. }
    rewrite E. destruct (ci_wb _ _ _ _ _ _ _ _ Hi t Ht) as [[[_ _ _ [b [_ Hb _ _]]] _] _ Hd _]. split; [|done].
    apply (wr_some _ _ _ Hw). by exists b.
  - intros n. apply amu_room_written; [apply Hev|done].
Qed.

Lemma wp_write_buffers (wz : bool) r0 req l ds c h (Q : rc → dc → Prop) :
  dci ∅ [] ds c → Forall (cache_req ds) l → NoDup (t_lpa <$> l) → (length l ≤ 256)%nat →
  Z.of_nat (length l) ≤ capacity_pages c → amu_room (length l) ds →
  let n := sum_list (txn_len <$> l) in
  (if wz then r0 = R0 ∨ ¬ (∀ t, t ∈ l → page_in nsid c (t_lpa t)) else ∃ xs h', host_in (rq_target req) n h = Some (R0, xs, h')) →
  (∀ ds' c', stored ds c l ds' c' →
     (if wz then ∀ t i, t ∈ l → bit (t_bitmap t) i = true → view [] ds' c' (t_lpa t) i (replicate 1024 0)
      else placed (view [] ds' c') l (host_mem h (rq_target req) n)) → Q R0 (mk ds' c' fl h)) →
  wp (write_buffers r0 req l wz) Q (mk ds c fl h).
Proof.
  intros Hi Hl Hnd Hl256 Hcap [Hr1 Hr2] n Hsrc HQ. unfold write_buffers. wp_step.
  eapply (wp_prepare_writes P nsid ptr u0 fl wz l 0 r0 ∅ [] ds c); [done..|set_solver|rewrite size_empty; lia|lia|].
  intros r1 l' wbs iov ds1 c1 Hr [[m1 ->] A2 [A3 _] A4 _ A6 A7 _ A8]. cbv beta iota. wp_step.
  eapply wp_maybe_dispatch; [exact A2|split; [simpl; lia|by eapply bm_ready_le, Hr2]|].
  intros ds2 W' r2 Hsc Hi2 Hv2 Hnd2 Hb2 Hr' Hroom. cbv beta iota. wp_step.
  assert (wz = true → r2 = R0) as Hr0 by (intros ->; destruct Hr' as [->| ->], Hr as [->|[-> ?]]; try done; by destruct Hsrc).
  assert (Forall (cache_req ds2) l) as Hl2.
  { eapply Forall_impl; [exact Hl|]. intros t. by apply cache_req_consts. }
  assert (∀ l0 i x, owner_ok (ds_dom ds) (OData l0) → (i < 4)%nat →
    (∀ t, t ∈ l → l0 ≠ t_lpa t ∨ bit (t_bitmap t) i = false) → view [] ds c l0 i x → view [] ds2 c1 l0 i x) as Hoth.
  { intros l0 i x Ho Hi4 Hn Hv. apply Hv2; [done|done|]. by apply A6. }
  (* from here on, only memory and the locks change *)
  enough (∀ m3 h3, h3 = h → dci (list_to_set (t_opaque <$> l')) [] (with_mach m3 ds2) c1 →
    (∀ l0 i x, owner_ok (ds_dom ds) (OData l0) → (i < 4)%nat →
      (∀ t, t ∈ l → l0 ≠ t_lpa t ∨ bit (t_bitmap t) i = false) → view [] ds c l0 i x → view [] (with_mach m3 ds2) c1 l0 i x) →
    (if wz then ∀ t i, t ∈ l → bit (t_bitmap t) i = true → view [] (with_mach m3 ds2) c1 (t_lpa t) i (replicate 1024 0)
     else placed (view [] (with_mach m3 ds2) c1) l (host_mem h (rq_target req) n)) →
    Forall (λ t, is_Some (buf_at (with_mach m3 ds2) (t_data t)) ∧ ∀ id e, dc_entries c1 !! id = Some e → ce_data e ≠ t_data t) W' →
    wp (for_each W' (λ txn, do_if (negb (t_data txn =? 0)) (lift (free_mem (t_data txn)))) ≫= λ _,
        for_each l' (λ txn, let entry := t_opaque txn in
          do_if (negb (is_ok R0)) (upd_entry entry (set_ce_status CES_EMPTY) ≫= λ _, erase_entry entry) ≫= λ _,
          unlock_entry entry ≫= λ _, unpin_entry entry) ≫= λ _, mret R0) Q (mk (with_mach m3 ds2) c1 fl h3)) as Hrest.
  { destruct wz; cbn [orb].
    - wp_step. rewrite Hr0 by done. rewrite <-(with_mach_id ds2). apply Hrest; rewrite ?with_mach_id; try done.
      + by rewrite union_empty_r_L in Hi2.
      + intros t i Ht Hb. rewrite Forall_forall in Hl. pose proof (Hl t Ht) as Hq.
        apply Hv2; [apply Hq|by eapply bit_lt, Hb; apply Hq|by apply A8].
    - destruct Hsrc as (xs & h' & Hh). destruct (host_in_ok _ _ _ _ _ Hh) as [-> ->]. pose proof (host_in_len _ _ _ _ _ _ Hh) as Hlen.
      unfold nvme_dma_read. wp_step. wp_step. rewrite (slots_count _ _ _ _ A4). fold n. change (dc_host _) with h. rewrite Hh.
      wp_step. apply wp_deref. eexists. split; [done|]. cbn beta iota. wp_step. wp_step. wp_step. eapply (wp_scatter l); [exact Hi2|done|done|exact A4|done|].
      intros m3 Hi3 Hv3 Hp3 Hs3. wp_step. apply Hrest; [done|by rewrite union_empty_r_L in Hi3| |done|].
      + intros l0 i x Ho Hi4 Hn Hv. apply Hv3; [done|]. by apply Hoth.
      + eapply Forall_impl; [exact Hb2|]. intros t [? ?]. split; [by apply Hs3|done]. }
  intros m3 h3 -> Hi3 Hoth3 Hnew3 Hb3. wp_step. eapply wp_free_all; [exact Hi3|done|exact Hb3|].
  intros m4 Hi4 Hv4. wp_step. apply (wp_release_all l' ∅); [by rewrite union_empty_r_L|done|set_solver|].
  intros c5 Hi5 Hv5. wp_step. apply HQ; [split; [done|done| |]|].
  - intros k [Hk1 Hk2]. assert (amu_room k ds2) as [B1 B2]; [|split; [exact B1|exact B2]].
    apply Hroom. split; [change (ds_dom (with_mach m1 ds)) with (ds_dom ds); lia|].
    eapply bm_ready_le; [|exact Hk2]. lia.
  - intros l0 i x Ho Hi4' Hn Hv. apply Hv5, Hv4, Hoth3; done.
  - destruct wz.
    + intros t i Ht Hb. apply Hv5, Hv4, Hnew3; done.
    + intros k t i x Hk Hlt Hx. apply Hv5, Hv4. by eapply Hnew3.
Qed.
End store.
