(* ===== verification/DataCacheRead.v ===== *)
(** Reads through the data cache: hits pin their entry, misses get a buffer that
    is read from flash and overlaid with the cached sectors. *)
From S2P Require Import Prelude Bitmap Avl Flash Machine BlockManager Amu AmuFacts AmuSpec AmuWrite AmuDispatch DataCache DataCacheFacts DataCacheSpec DataCacheWrite DataCacheStore.

#[local] Unset Default Proof Using.
Section read.
Context {PL : Platform} {PO : @PlatformOk PL} {EL : @EccLive PL} {AL : @AllocLive PL} {RL : @ReadLive PL}.
Context {DL : @DmaLive PL}.
Context {HO : Host} {HK : @HostOk HO}.
Context (P : flash_address → Prop) (nsid ptr : Z) (u0 : amu) (fl : flushers).
Notation mk := (mk ptr u0).
Notation dci := (dci P nsid ptr u0).
Notation view := (view nsid []).
Notation ccached := (ccached nsid).
Notation cache_req := (cache_req nsid).

Definition set_counts (c c' : data_cache) : Prop :=
  dc_entries c' = dc_entries c ∧ dc_root c' = dc_root c ∧ dc_lru_list c' = dc_lru_list c ∧ nr_pages c' = nr_pages c.
Lemma dci_counts D ds c c' : set_counts c c' → dci D [] ds c → dci D [] ds c' ∧ ∀ l i x, view ds c' l i x ↔ view ds c l i x.
Proof.
  intros (E1 & E2 & E3 & E4) Hi. assert (cache_wf D c') as Hw'.
  { destruct (ci_wf _ _ _ _ _ _ _ _ Hi) as [? ? ? ? ? ? ?]. split; rewrite ?E1, ?E2, ?E3, ?E4; done. }
  split.
  - destruct Hi. split; try done; rewrite ?E1; try done. intros ? []%elem_of_nil.
  - intros l i x. unfold DataCacheSpec.view, DataCacheSpec.ccached, cache_find. by rewrite E1, E2.
Qed.
(** ** Taking and touching an entry *)
Lemma dci_take D ds c id e : dci D [] ds c → dc_entries c !! id = Some e →
  dci ({[id]} ∪ D) [] ds (ce_take id e c) ∧ ∀ l i x, view ds (ce_take id e c) l i x ↔ view ds c l i x.
Proof.
  intros Hi He. assert (cache_wf ({[id]} ∪ D) (ce_take id e c)) as Hw' by by apply cache_wf_take; [apply Hi|].
  split; [|intros; eapply view_entry; [apply Hi|exact Hw'|exact He|done..]].
  eapply dci_entry; [exact Hi|exact Hw'|done|by left|..].
  - by destruct (ci_entry _ _ _ _ _ _ _ _ Hi _ _ He).
  - intros j d Hne Hj E. apply Hne. by eapply (ci_data _ _ _ _ _ _ _ _ Hi).
  - intros i x. by apply (ci_clean _ _ _ _ _ _ _ _ Hi id e).
  - intros ? []%elem_of_nil.
Qed.
Lemma wp_touch D id e (Q : () → dc → Prop) ds c h : cache_wf D c → id ∉ D → dc_entries c !! id = Some e →
  Q tt (mk ds (ce_release id (set_ce_owned true (set_ce_pin 1 e)) (ce_take id e c)) fl h) →
  wp (cache_touch_lru id) Q (mk ds c fl h).
Proof.
  intros Hw HD He HQ. destruct (cw_pin _ _ Hw _ _ He) as [Hp Ho]. rewrite decide_False in Hp by done.
  rewrite bool_decide_eq_false_2 in Ho by done. unfold cache_touch_lru, pin_entry, unpin_entry, add_lru, remove_lru.
  wp_step. wp_step. eapply wp_entry_at; [exact He|]. wp_step. eapply wp_upd_entry; [exact He|]. rewrite Hp.
  change (u32 (0 + 1)) with 1. wp_step. rewrite Z.eqb_refl. apply wp_upd_cache. wp_step.
  eapply wp_entry_at; [apply lookup_insert_eq|]. wp_step. wp_step; [done|]. wp_step.
  eapply wp_upd_entry; [apply lookup_insert_eq|]. wp_step. apply wp_upd_cache.
  match goal with |- Q _ (DataCacheSpec.mk _ _ _ ?a _ _) => assert (a = ce_release id (set_ce_owned true (set_ce_pin 1 e)) (ce_take id e c)) as ->; [|done] end.
  unfold ce_release, ce_take, ce_put, set_dc_lru, set_dc_entries. destruct c; cbn. rewrite !insert_insert_eq. f_equal. f_equal.
  by destruct e; simpl in *; subst.
Qed.
Lemma dci_touch D ds c id e : dci D [] ds c → id ∉ D → dc_entries c !! id = Some e →
  let c' := ce_release id (set_ce_owned true (set_ce_pin 1 e)) (ce_take id e c) in
  dci D [] ds c' ∧ (∀ l i x, view ds c' l i x ↔ view ds c l i x) ∧ dc_entries c' = dc_entries c.
Proof.
  intros Hi HD He c'. destruct (dci_take _ _ _ _ _ Hi He) as [H1 V1].
  destruct (dci_release P nsid ptr u0 ({[id]} ∪ D) ds (ce_take id e c) id (set_ce_owned true (set_ce_pin 1 e)) H1) as [H2 V2];
    [set_solver|apply lookup_insert_eq|].
  split; [|split].
  - by assert (({[id]} ∪ D) ∖ {[id]} = D) as <- by set_solver.
  - intros l i x. unfold c'. by rewrite (V2 l i x), V1.
  - simpl. rewrite insert_insert_eq, insert_id; [done|]. rewrite He. f_equal.
    destruct (cw_pin _ _ (ci_wf _ _ _ _ _ _ _ _ Hi) _ _ He) as [Hp Ho]. rewrite decide_False in Hp by done.
    rewrite bool_decide_eq_false_2 in Ho by done. destruct e; simpl in *. by subst.
Qed.

(** * The first loop *)
Definition misses_of (os : list (flash_transaction + flash_transaction)) : list flash_transaction :=
  omap (λ o, match o with inr t => Some t | inl _ => None end) os.
Definition hits_of (os : list (flash_transaction + flash_transaction)) : list flash_transaction :=
  omap (λ o, match o with inl t => Some t | inr _ => None end) os.
Definition overlay_of (t : flash_transaction) : list Z := if t_opaque t =? 0 then [] else [t_opaque t].
Definition held (o : flash_transaction + flash_transaction) : list Z :=
  match o with inl t => [t_opaque t] | inr t => overlay_of t end.

Definition same_ents (c c' : data_cache) : Prop :=
  ∀ id, (λ e, (ce_key e, ce_bitmap e, ce_status e, ce_data e)) <$> dc_entries c' !! id =
        (λ e, (ce_key e, ce_bitmap e, ce_status e, ce_data e)) <$> dc_entries c !! id.
Lemma same_ents_put id e e' c c' : dc_entries c !! id = Some e → dc_entries c' = <[id := e']> (dc_entries c) →
  ce_key e' = ce_key e → ce_bitmap e' = ce_bitmap e → ce_status e' = ce_status e → ce_data e' = ce_data e → same_ents c c'.
Proof.
  intros He E E1 E2 E3 E4 j. rewrite E. destruct (decide (j = id)) as [->|]; [|by rewrite lookup_insert_ne].
  rewrite lookup_insert_eq, He. simpl. congruence.
Qed.

(** Where the sectors of a transaction come from, [V] being what they are. *)
Record hit (V : Z → nat → sector → Prop) ds c (t t' : flash_transaction) : Prop := {
  ht_entry : ∃ e, dc_entries c !! t_opaque t' = Some e ∧ t' = set_t_data (ce_data e) (t_opaque t') t;
  ht_view : ∀ i x, bit (t_bitmap t) i = true → V (t_lpa t) i x → bufx ds (t_data t') i x;
}.
Record missed (V : Z → nat → sector → Prop) ds c (t t' : flash_transaction) : Prop := {
  ms_txn : t' = set_t_data (t_data t') (t_opaque t') (set_t_range (t_bitmap t') (t_offset t) (t_length t) t);
  ms_data : t_data t' ≠ 0 ∧ is_Some (buf_at ds (t_data t'));
  ms_read : ∃ i x, readsv ds (t_lpa t) i x;
  ms_entry : t_opaque t' ≠ 0 → is_Some (dc_entries c !! t_opaque t');
  ms_view : ∀ i x, bit (t_bitmap t) i = true → V (t_lpa t) i x →
    match (if t_opaque t' =? 0 then None else dc_entries c !! t_opaque t') with
    | Some e => if bit (ce_bitmap e) i then bufx ds (ce_data e) i x else readsv ds (t_lpa t) i x
    | None => readsv ds (t_lpa t) i x
    end;
}.
Definition rslot V ds c (t : flash_transaction) (o : flash_transaction + flash_transaction) (v : iovec) : Prop :=
  match o with
  | inl t' => hit V ds c t t' ∧ v = txn_iov (t_data t') t
  | inr t' => missed V ds c t t' ∧ v = txn_iov (t_data t') t
  end.
(** Memory allocated before [ds] is as in [ds]. *)
Definition grows (ds ds' : dom_st) : Prop :=
  (∃ m', ds' = with_mach m' ds) ∧ m_next (bm_mach (ds_bm ds)) ≤ m_next (bm_mach (ds_bm ds')) ∧
  (∀ data, data < m_next (bm_mach (ds_bm ds)) → buf_at ds' data = buf_at ds data) ∧
  (∀ l i x, readsv ds' l i x ↔ readsv ds l i x).
Lemma grows_refl ds : grows ds ds.
Proof. split; [exists (bm_mach (ds_bm ds)); by rewrite with_mach_id|]. split; [lia|]. done. Qed.
Lemma grows_trans d1 d2 d3 : grows d1 d2 → grows d2 d3 → grows d1 d3.
Proof.
  intros ([m1 ->] & X1 & B1 & R1) ([m2 ->] & X2 & B2 & R2). split; [by exists m2|]. split; [lia|]. split.
  - intros data Hd. rewrite B2 by lia. by apply B1.
  - intros l i x. rewrite R2. apply R1.
Qed.
Record reads_prepared V D ds c l os iov ds' c' : Prop := {
  rp_grows : grows ds ds';
  rp_inv : dci (list_to_set (os ≫= held) ∪ D) [] ds' c';
  rp_new : NoDup (os ≫= held) ∧ ∀ j, j ∈ os ≫= held → j ∉ D;
  rp_slots : Forall3 (rslot V ds' c') l os iov;
  rp_ents : same_ents c c' ∧ ∀ j, j ∈ D → dc_entries c' !! j = dc_entries c !! j;
  rp_view : ∀ l0 i x, view ds' c' l0 i x ↔ view ds c l0 i x;
  rp_data : NoDup (t_data <$> misses_of os) ∧
    Forall (λ t, m_next (bm_mach (ds_bm ds)) ≤ t_data t < m_next (bm_mach (ds_bm ds'))) (misses_of os);
}.

Lemma rslot_step V D ds ds' c c' t o v : rslot V ds c t o v → dci D [] ds c → grows ds ds' →
  (∀ j, j ∈ held o → dc_entries c' !! j = dc_entries c !! j) → rslot V ds' c' t o v.
Proof.
  intros Hr Hi (_ & _ & Hb & Hrd) He. pose proof (mw_mem _ (di_mem _ _ _ (ci_inv _ _ _ _ _ _ _ _ Hi))) as Hmm.
  assert (∀ data i x, bufx ds data i x → bufx ds' data i x) as Hbx.
  { intros data i x (b & Hb0 & Hx). exists b. split; [|done]. rewrite Hb; [done|]. by apply Hmm in Hb0 as []. }
  destruct o as [t'|t']; destruct Hr as [Hr ->]; (split; [|done]).
  - destruct Hr as [(e & Hc & Ht) Hv]. split; [exists e; rewrite He by set_solver; done|]. intros. by apply Hbx, Hv.
  - destruct Hr as [H1 [H2 [b H3]] (i & x & H4) H5 H6].
    assert (t_opaque t' ≠ 0 → dc_entries c' !! t_opaque t' = dc_entries c !! t_opaque t') as He'.
    { intros Hn. apply He. simpl. unfold overlay_of. rewrite (proj2 (Z.eqb_neq _ _)) by done. set_solver. }
    split; [done| | | |].
    + split; [done|]. exists b. rewrite Hb; [done|]. by apply Hmm in H3 as [].
    + exists i, x. by apply Hrd.
    + intros Hn. rewrite He'; auto.
    + intros j y Hj Hv. specialize (H6 j y Hj Hv). destruct (Z.eqb_spec (t_opaque t') 0) as [E|E]; [by apply Hrd|].
      rewrite He' by done. destruct (dc_entries c !! t_opaque t') as [e|]; [|by apply Hrd].
      destruct (bit (ce_bitmap e) j); [by apply Hbx|by apply Hrd].
Qed.
Lemma missing_bit a b : 0 < b < 16 → Z.land a b ≠ b → ∃ i, bit b i = true ∧ bit a i = false.
Proof.
  intros Hb Hn. destruct (existsb (λ i, bit b i && negb (bit a i)) (seq 0 4)) eqn:E.
  { apply existsb_exists in E as (i & _ & [H1 H2%negb_true_iff]%andb_prop). eauto. }
  destruct Hn. apply Z.bits_inj'. intros n Hn. rewrite Z.land_spec. destruct (Z.testbit b n) eqn:Ebn; [|by rewrite andb_false_r].
  rewrite andb_true_r. destruct (Z.testbit a n) eqn:Ean; [done|]. exfalso.
  assert (existsb (λ i, bit b i && negb (bit a i)) (seq 0 4) = true) as E2; [|congruence].
  apply existsb_exists. exists (Z.to_nat n). unfold bit. rewrite Z2Nat.id, Ebn, Ean by lia. split; [|done].
  apply in_seq. pose proof (bit_lt b (Z.to_nat n) Hb) as Hlt. unfold bit in Hlt. rewrite Z2Nat.id in Hlt by lia.
  specialize (Hlt Ebn). lia.
Qed.

(** One turn of the loop. *)
Record read_step V D ds c t o v ds1 c1 : Prop := {
  rs_grows : grows ds ds1;
  rs_inv : dci (list_to_set (held o) ∪ D) [] ds1 c1;
  rs_new : ∀ j, j ∈ held o → j ∉ D;
  rs_slot : rslot V ds1 c1 t o v;
  rs_ents : same_ents c c1 ∧ ∀ j, j ∈ D → dc_entries c1 !! j = dc_entries c !! j;
  rs_view : ∀ l0 i x, view ds1 c1 l0 i x ↔ view ds c l0 i x;
  rs_data : match o with inr t' => m_next (bm_mach (ds_bm ds)) ≤ t_data t' < m_next (bm_mach (ds_bm ds1)) | inl _ => True end;
  rs_key : ∀ id, id ∈ held o → ∀ e, dc_entries c1 !! id = Some e → ce_key e = (nsid, t_lpa t);
}.
Lemma held_nodup o : NoDup (held o).
Proof. destruct o as [t|t]; simpl; [apply NoDup_singleton|]. unfold overlay_of. case_match; [constructor|apply NoDup_singleton]. Qed.
Lemma reads_cons V D ds c t l o v ds1 c1 os iov ds' c' : read_step V D ds c t o v ds1 c1 →
  reads_prepared V (list_to_set (held o) ∪ D) ds1 c1 l os iov ds' c' → reads_prepared V D ds c (t :: l) (o :: os) (v :: iov) ds' c'.
Proof.
  intros [S1 S2 S3 S4 [S5 S5'] S6 S7 _] [R1 R2 [R3 R3'] R4 [R5 R5'] R6 [R7 R7']]. split.
  - by eapply grows_trans.
  - assert (list_to_set ((o :: os) ≫= held) ∪ D = list_to_set (os ≫= held) ∪ (list_to_set (held o) ∪ D) :> gset Z) as ->; [|done].
    rewrite bind_cons, list_to_set_app_L. set_solver.
  - rewrite bind_cons. split.
    + apply NoDup_app. split; [apply held_nodup|]. split; [|done]. intros j Hj Hj2%R3'. set_solver.
    + intros j [Hj|Hj]%elem_of_app; [by apply S3|]. apply R3' in Hj. set_solver.
  - constructor; [|done]. eapply rslot_step; [exact S4|exact S2|exact R1|]. intros j Hj. apply R5'. set_solver.
  - split; [intros j; by rewrite R5|]. intros j Hj. rewrite R5' by set_solver. by apply S5'.
  - intros l0 i x. rewrite R6. apply S6.
  - destruct S1 as (_ & X1 & _), R1 as (_ & X2 & _). rewrite Forall_forall in R7'.
    assert (∀ t0, t0 ∈ misses_of os → m_next (bm_mach (ds_bm ds1)) ≤ t_data t0 < m_next (bm_mach (ds_bm ds'))) as R9 by done.
    destruct o as [t'|t']; simpl.
    + split; [done|]. rewrite Forall_forall. intros t0 Ht0%R9. lia.
    + split.
      * constructor; [|done]. intros (t0 & E & Ht0%R9)%list_elem_of_fmap. lia.
      * constructor; [lia|]. rewrite Forall_forall. intros t0 Ht0%R9. lia.
Qed.
Lemma mem_step_grows ds m' : mem_step ds (λ data, data < m_next (bm_mach (ds_bm ds))) m' → grows ds (with_mach m' ds).
Proof.
  intros [N W X K]. split; [by eexists|]. split; [done|]. split; [|intros; by apply readsv_mach].
  intros data Hd. by apply K.
Qed.
Lemma used_old D ds c data : dci D [] ds c → used c [] data → data < m_next (bm_mach (ds_bm ds)).
Proof.
  intros Hi [b Hb]%(used_some P nsid ptr u0 D [] ds); [|done].
  by apply (mw_mem _ (di_mem _ _ _ (ci_inv _ _ _ _ _ _ _ _ Hi))) in Hb as [].
Qed.
Lemma wp_read_buffer D ds c (Q : Z → dc → Prop) h : dci D [] ds c →
  (∀ ds1 data, data ≠ 0 → is_Some (buf_at ds1 data) → grows ds ds1 → dci D [] ds1 c →
     m_next (bm_mach (ds_bm ds)) ≤ data < m_next (bm_mach (ds_bm ds1)) →
     (∀ l i x, view ds1 c l i x ↔ view ds c l i x) → Q data (mk ds1 c fl h)) →
  wp (lift alloc_vmpages) Q (mk ds c fl h).
Proof.
  intros Hi HQ. pose proof (di_mem _ _ _ (ci_inv _ _ _ _ _ _ _ _ Hi)) as Hm. pose proof Hm as [Hpos Hmm].
  apply wp_mach. apply wp_alloc_live; [done|]. intros _ _. set (m' := Mach _ _ _ _ _ _).
  assert (∀ keep : Z → Prop, (∀ d, keep d → d < m_next (bm_mach (ds_bm ds))) → mem_step ds keep m') as Hs.
  { intros keep Hk. split; simpl; [| | | |done].
    - done.
    - split; simpl; [lia|]. intros j b [[<- <-]|[_ Hb]]%lookup_insert_Some; [split; [lia|apply junk_len]|].
      apply Hmm in Hb as []. split; [lia|done].
    - lia.
    - intros d Hd%Hk. rewrite lookup_insert_ne; [done|]. lia. }
  apply HQ; simpl.
  - lia.
  - unfold buf_at. simpl. rewrite lookup_insert_eq. by eexists.
  - by apply mem_step_grows, Hs.
  - apply dci_mach; [done|]. apply Hs. intros d. by eapply used_old.
  - lia.
  - intros l i x. apply (view_mach _ _ _ _ _ _ _ _ D); [apply Hi|]. apply Hs. intros d. by eapply used_old.
Qed.

Definition readable (V : Z → nat → sector → Prop) (t : flash_transaction) : Prop :=
  ∀ i, bit (t_bitmap t) i = true → ∃ x, V (t_lpa t) i x.
(** [op]: the entry to lay over the buffer, if any. *)
Definition overlay_ok (c c1 : data_cache) (t : flash_transaction) (op : Z) : Prop :=
  match ccached c (t_lpa t) with
  | None => op = 0
  | Some e =>
      if op =? 0 then ∀ i, bit (t_bitmap t) i = true → bit (ce_bitmap e) i = false
      else ∃ e1, dc_entries c1 !! op = Some e1 ∧ ce_bitmap e1 = ce_bitmap e ∧ ce_data e1 = ce_data e ∧ ce_key e1 = ce_key e
  end.
Lemma below_nil ds l i x : below [] ds l i x ↔ readsv ds l i x.
Proof. split; [by intros [(? & []%elem_of_nil & _)|[_ ?]]|]. intros Hr. right. split; [intros ? []%elem_of_nil|done]. Qed.
Lemma step_miss V D ds c t ds1 data op bm c1 : dci D [] ds c → readable V t → (∀ l i x, V l i x ↔ view ds c l i x) →
  (∃ i, bit (t_bitmap t) i = true ∧ ∀ e, ccached c (t_lpa t) = Some e → bit (ce_bitmap e) i = false) →
  data ≠ 0 → is_Some (buf_at ds1 data) → m_next (bm_mach (ds_bm ds)) ≤ data < m_next (bm_mach (ds_bm ds1)) → grows ds ds1 →
  overlay_ok c c1 t op →
  let t' := set_t_data data op (set_t_range bm (t_offset t) (t_length t) t) in
  dci (list_to_set (held (inr t')) ∪ D) [] ds1 c1 → (op ≠ 0 → op ∉ D) →
  same_ents c c1 ∧ (∀ j, j ∈ D → dc_entries c1 !! j = dc_entries c !! j) →
  (∀ l0 i x, view ds1 c1 l0 i x ↔ view ds c l0 i x) →
  read_step V D ds c t (inr t') (txn_iov data t') ds1 c1.
Proof.
  intros Hi Hrd HV (k & Hk & Hke) Hd0 Hds Hdn Hg Hop t' Hi1 HopD He Hv. pose proof Hg as (_ & _ & Hgb & Hgr).
  split; try done.
  { intros j. simpl. unfold overlay_of. simpl. destruct (Z.eqb_spec op 0); [set_solver|]. intros ->%list_elem_of_singleton. auto. }
  2:{ intros j. simpl. unfold overlay_of. simpl. destruct (Z.eqb_spec op 0) as [|Hn]; [set_solver|].
      intros ->%list_elem_of_singleton e1 He1. unfold overlay_ok in Hop. destruct (ccached c (t_lpa t)) as [e|] eqn:Ec; [|done].
      rewrite (proj2 (Z.eqb_neq _ _)) in Hop by done. destruct Hop as (e2 & He2 & _ & _ & Hk2). simplify_eq. rewrite Hk2.
      apply (ccached_spec nsid D) in Ec as (? & _ & ?); [done|apply Hi]. }
  split; [|done]. split; try done.
  - destruct (Hrd k Hk) as [x Hx]. exists k, x. apply Hgr. apply HV in Hx. unfold DataCacheSpec.view in Hx.
    destruct (ccached c (t_lpa t)) as [e|]; [rewrite (Hke e) in Hx by done|]; by apply below_nil.
  - simpl. intros Hn. unfold overlay_ok in Hop. destruct (ccached c (t_lpa t)); [|done].
    rewrite (proj2 (Z.eqb_neq _ _)) in Hop by done. destruct Hop as (e1 & -> & _). by eexists.
  - simpl. intros i x Hi' Hx. apply HV in Hx. unfold DataCacheSpec.view in Hx. unfold overlay_ok in Hop.
    destruct (ccached c (t_lpa t)) as [e|] eqn:Ec.
    + destruct (op =? 0).
      * rewrite Hop in Hx by done. by apply Hgr, below_nil.
      * destruct Hop as (e1 & -> & -> & -> & _). destruct (bit (ce_bitmap e) i); [|by apply Hgr, below_nil].
        destruct Hx as (b & Hb & Hx). exists b. split; [|done]. rewrite Hgb; [done|].
        by apply (mw_mem _ (di_mem _ _ _ (ci_inv _ _ _ _ _ _ _ _ Hi))) in Hb as [].
    + subst op. by apply Hgr, below_nil.
Qed.
Lemma step_hit V D ds c t id e c1 : dci D [] ds c → id ∉ D → dc_entries c !! id = Some e → ce_key e = (nsid, t_lpa t) →
  (∀ i, bit (t_bitmap t) i = true → bit (ce_bitmap e) i = true) → (∀ l i x, V l i x ↔ view ds c l i x) →
  set_counts (ce_take id e c) c1 → let t' := set_t_data (ce_data e) id t in
  read_step V D ds c t (inl t') (txn_iov (ce_data e) t') ds c1.
Proof.
  intros Hi HD He Hk Hb HV Hc t'. destruct (dci_take D ds c id e Hi He) as [Hi1 Hv1].
  destruct (dci_counts _ ds _ _ Hc Hi1) as [Hi2 Hv2]. destruct Hc as (Ec & _).
  split; try done.
  - apply grows_refl.
  - simpl. by rewrite union_empty_r_L.
  - simpl. set_solver.
  - split; [|done]. split; [exists (set_ce_owned true (set_ce_pin 1 e)); by rewrite Ec; simpl; rewrite lookup_insert_eq|].
    simpl. intros i x Hi' Hx. apply HV in Hx. unfold DataCacheSpec.view in Hx.
    rewrite (proj2 (ccached_spec nsid D c (t_lpa t) e (ci_wf _ _ _ _ _ _ _ _ Hi))) in Hx by eauto. by rewrite Hb in Hx.
  - rewrite Ec. split; [by apply (same_ents_put id e (set_ce_owned true (set_ce_pin 1 e)))|]. intros j Hj. simpl. by rewrite lookup_insert_ne by set_solver.
  - intros l0 i x. rewrite Hv2. apply Hv1.
  - simpl. intros j ->%list_elem_of_singleton e1. rewrite Ec. simpl. rewrite lookup_insert_eq. by intros [= <-].
Qed.

Lemma counts_refl b c : set_counts c (count_hit b c).
Proof. done. Qed.
(** The miss branch of one turn, up to the recursion. *)
Lemma wp_miss V D ds c t (found : option Z) avail (k : Z → Z → ST dc (rc * list flash_transaction * list flash_transaction * list iovec)) err Q h :
  dci D [] ds c → readable V t → (∀ l i x, V l i x ↔ view ds c l i x) →
  found = cache_find c nsid (t_lpa t) → (∀ id, found = Some id → id ∉ D) →
  avail = (match found with Some id => match dc_entries c !! id with Some e => Z.land (ce_bitmap e) (t_bitmap t) | None => 0 end | None => 0 end) →
  avail ≠ t_bitmap t → 0 < t_bitmap t < 16 →
  (∀ ds1 c1 data op, read_step V D ds c t (inr (set_t_data data op (set_t_range (Z.ldiff (t_bitmap t) avail) (t_offset t) (t_length t) t)))
      (txn_iov data t) ds1 c1 → capacity_pages c1 = capacity_pages c → wp (k data op) Q (mk ds1 c1 fl h)) →
  wp (data ← lift alloc_vmpages;
      if data =? 0 then mret err
      else
        opaque ← (match found with
                  | Some entry =>
                      if negb (avail =? 0) then pin_entry entry ≫= λ _, lock_entry entry ≫= λ _, mret entry
                      else cache_touch_lru entry ≫= λ _, mret 0
                  | None => mret 0
                  end);
        upd_cache (count_hit false) ≫= λ _, k data opaque) Q (mk ds c fl h).
Proof.
  intros Hi Hrd HV Ef HfD Ea Hav Hbt Hk. pose proof (ci_wf _ _ _ _ _ _ _ _ Hi) as Hw. wp_step. eapply wp_read_buffer; [exact Hi|].
  intros ds1 data Hd0 Hds Hg Hi1 Hdn Hv1. rewrite (proj2 (Z.eqb_neq _ _)) by done. wp_step.
  destruct found as [id|].
  - symmetry in Ef. apply (cache_find_spec D) in Ef as (e & He & Hke); [|done]. rewrite He in Ea.
    assert (ccached c (t_lpa t) = Some e) as Hcc by (apply (ccached_spec nsid D); eauto).
    destruct (missing_bit (ce_bitmap e) (t_bitmap t) Hbt ltac:(congruence)) as (i & Hi1' & Hi2').
    pose proof (HfD id eq_refl) as HD.
    destruct (ci_entry _ _ _ _ _ _ _ _ Hi _ _ He) as [_ _ _ _ _ Hid].
    destruct (Z.eqb_spec avail 0) as [E0|E0]; simpl.
    + wp_step. eapply (wp_touch D); [apply Hi1|done|exact He|]. wp_step. wp_step. apply wp_upd_cache.
      destruct (dci_touch D ds1 c id e Hi1 HD He) as (T1 & T2 & T3). set (c1 := ce_release _ _ _) in *.
      apply Hk; [|done].
      destruct (dci_counts D ds1 c1 (count_hit false c1) (counts_refl _ _) T1) as [U1 U2].
      apply (step_miss V D ds c t ds1 data 0); try done.
      * exists i. split; [done|]. intros e0 E. congruence.
      * unfold overlay_ok. rewrite Hcc. simpl. intros j Hj. destruct (bit (ce_bitmap e) j) eqn:Ej; [|done].
        assert (Z.testbit avail (Z.of_nat j) = true) as Ht by (rewrite Ea, Z.land_spec; unfold bit in *; by rewrite Ej, Hj).
        by rewrite E0, Z.testbit_0_l in Ht.
      * simpl. rewrite union_empty_l_L. done.
      * split; [intros j|intros j _]; change (dc_entries (count_hit false c1)) with (dc_entries c1); by rewrite T3.
      * intros l0 i0 x. by rewrite U2, T2, Hv1.
    + destruct (cw_pin _ _ Hw _ _ He) as [Hp _]. rewrite decide_False in Hp by done.
      eapply wp_take_entry; [exact He|exact Hp|]. wp_step. wp_step. apply wp_upd_cache. apply Hk; [|done].
      destruct (dci_take D ds1 c id e Hi1 He) as [T1 T2]. set (c1 := ce_take _ _ _) in *.
      destruct (dci_counts _ ds1 c1 (count_hit false c1) (counts_refl _ _) T1) as [U1 U2].
      apply (step_miss V D ds c t ds1 data id); try done.
      * exists i. split; [done|]. intros e0 E. congruence.
      * unfold overlay_ok. rewrite Hcc. rewrite (proj2 (Z.eqb_neq id 0)) by lia.
        exists (set_ce_owned true (set_ce_pin 1 e)). simpl. by rewrite lookup_insert_eq.
      * simpl. unfold overlay_of. simpl. rewrite (proj2 (Z.eqb_neq id 0)) by lia. simpl. by rewrite union_empty_r_L.
      * split; [by apply (same_ents_put id e (set_ce_owned true (set_ce_pin 1 e)))|]. intros j Hj. simpl.
        by rewrite lookup_insert_ne by set_solver.
      * intros l0 i0 x. by rewrite U2, T2, Hv1.
  - symmetry in Ef. rewrite (cache_find_None D) in Ef by done. wp_step. wp_step. apply wp_upd_cache. apply Hk; [|done].
    assert (ccached c (t_lpa t) = None) as Hcc by by apply (ccached_None nsid D).
    destruct (missing_bit 0 (t_bitmap t) Hbt ltac:(rewrite Z.land_0_l; lia)) as (i & Hi1' & _).
    destruct (dci_counts D ds1 c (count_hit false c) (counts_refl _ _) Hi1) as [U1 U2].
    apply (step_miss V D ds c t ds1 data 0); try done.
    + exists i. split; [done|]. intros e0 E. congruence.
    + unfold overlay_ok. by rewrite Hcc.
    + simpl. by rewrite union_empty_l_L.
Qed.

Record read_cond (ds : dom_st) (t : flash_transaction) : Prop := {
  rc_req : cache_req ds t;
  rc_type : t_type t = TXN_READ ∧ t_ppa_ready t = false;
}.
Lemma read_cond_mach ds m' t : read_cond ds t → read_cond (with_mach m' ds) t.
Proof. intros [[] ?]. split; [split|]; done. Qed.
Lemma wp_prepare_reads V l : ∀ D ds c (Q : rc * list flash_transaction * list flash_transaction * list iovec → dc → Prop) h,
  dci D [] ds c → Forall (read_cond ds) l → NoDup (t_lpa <$> l) → Forall (readable V) l →
  (∀ l0 i x, V l0 i x ↔ view ds c l0 i x) →
  (∀ t j d, t ∈ l → j ∈ D → dc_entries c !! j = Some d → ce_key d ≠ (nsid, t_lpa t)) →
  (∀ os iov ds' c', reads_prepared V D ds c l os iov ds' c' → capacity_pages c' = capacity_pages c →
     Q (R0, reverse (hits_of os), misses_of os, iov) (mk ds' c' fl h)) →
  wp (prepare_reads l) Q (mk ds c fl h).
Proof.
  induction l as [|t l IH]; intros D ds c Q h Hi Hl Hnd Hrd HV Hheld HQ; cbn [prepare_reads].
  { wp_step. apply (HQ []); [|done]. split.
    - apply grows_refl.
    - simpl. by rewrite union_empty_l_L.
    - split; [constructor|]. set_solver.
    - constructor.
    - done.
    - done.
    - split; constructor. }
  apply Forall_cons in Hl as [[Ht Hty] Hl]. apply Forall_cons in Hrd as [Hrt Hrd].
  rewrite fmap_cons in Hnd. apply NoDup_cons in Hnd as [Hnt Hnd]. pose proof (ci_wf _ _ _ _ _ _ _ _ Hi) as Hw.
  (* the recursion after one turn *)
  assert (∀ o v ds1 c1 (Q' : rc * list flash_transaction * list flash_transaction * list iovec → dc → Prop),
    read_step V D ds c t o v ds1 c1 → capacity_pages c1 = capacity_pages c →
    (∀ os iov ds' c', reads_prepared V D ds c (t :: l) (o :: os) (v :: iov) ds' c' → capacity_pages c' = capacity_pages c →
       Q' (R0, reverse (hits_of os), misses_of os, iov) (mk ds' c' fl h)) →
    wp (prepare_reads l) Q' (mk ds1 c1 fl h)) as Hrec.
  { intros o v ds1 c1 Q' Hs Hcap HQ'. pose proof Hs as [[[m1 ->] _] S2 S3 S4 [S5 S5'] S6 S7 Hheld'].
    apply (IH (list_to_set (held o) ∪ D)); [exact S2| |done|done| | |].
    - eapply Forall_impl; [exact Hl|]. intros. by apply read_cond_mach.
    - intros l0 i x. by rewrite S6.
    - intros t0 j d Ht0 [Hj%elem_of_list_to_set|Hj]%elem_of_union Hd.
      + rewrite (Hheld' j Hj d Hd). intros [=E]. apply Hnt. rewrite E. by apply list_elem_of_fmap_2.
      + rewrite S5' in Hd by done. apply (Hheld t0 j d); [set_solver|done..].
    - intros os iov ds' c' Hrp Hcap'. apply HQ'; [by eapply reads_cons|congruence]. }
  wp_step. apply wp_cache. rewrite (cq_nsid _ _ _ Ht).
  set (found := cache_find c nsid (t_lpa t)).
  set (avail := match found with Some id => match dc_entries c !! id with Some e => Z.land (ce_bitmap e) (t_bitmap t) | None => 0 end | None => 0 end).
  assert (∀ id, found = Some id → ∃ e, dc_entries c !! id = Some e ∧ ce_key e = (nsid, t_lpa t) ∧ id ∉ D) as Hfound.
  { intros id (e & He & Hk)%(cache_find_spec D); [|done]. exists e. split; [done|]. split; [done|]. intros HD.
    by apply (Hheld t id e); [set_solver|..]. }
  wp_step. match goal with |- wp _ ?K _ => enough (K avail (mk ds c fl h)) as Hgo end.
  { destruct found as [id|] eqn:Ef; [|exact Hgo]. destruct (Hfound id eq_refl) as (e & He & _).
    wp_step. eapply wp_entry_at; [exact He|]. wp_step. subst avail. cbv beta iota in Hgo. by rewrite He in Hgo. }
  cbv beta. destruct (Z.eqb_spec avail (t_bitmap t)) as [Ea|Ea].
  - destruct found as [id|] eqn:Ef; [|pose proof (cq_bits _ _ _ Ht); subst avail; lia].
    destruct (Hfound id eq_refl) as (e & He & Hk & HD). destruct (cw_pin _ _ Hw _ _ He) as [Hp _]. rewrite decide_False in Hp by done.
    eapply wp_take_entry; [exact He|exact Hp|]. wp_step. eapply wp_entry_at; [simpl; apply lookup_insert_eq|].
    wp_step. apply wp_upd_cache. wp_step.
    apply (Hrec (inl (set_t_data (ce_data e) id t)) (txn_iov (ce_data e) t)).
    + apply (step_hit V D ds c t id e); try done. intros i Hb. subst avail. cbv beta iota in Ea. rewrite He in Ea.
      unfold bit in *. rewrite <-Ea, Z.land_spec in Hb. by apply andb_prop in Hb as [].
    + done.
    + intros os iov ds' c' Hrp Hcap. cbv beta iota. wp_step.
      replace (reverse (hits_of os) ++ _) with (reverse (hits_of (inl (set_t_data (ce_data e) id t) :: os))) by by rewrite <-reverse_cons.
      by apply (HQ (inl (set_t_data (ce_data e) id t) :: os)).
  - set (k := λ data opaque, '(r, hits, misses, iov) ← prepare_reads l;
      let txn := set_t_data data opaque (set_t_range (Z.ldiff (t_bitmap t) avail) (t_offset t) (t_length t) t) in
      mret (r, hits, txn :: misses, txn_iov data txn :: iov) : ST dc (rc * list flash_transaction * list flash_transaction * list iovec)).
    pose proof (wp_miss V D ds c t found avail k (Err ENOMEM, [], t :: l, []) Q h) as Hm.
    assert (wp (data ← lift alloc_vmpages;
      if data =? 0 then mret (Err ENOMEM, [], t :: l, [])
      else
        opaque ← (match found with
                  | Some entry =>
                      if negb (avail =? 0) then pin_entry entry ≫= λ _, lock_entry entry ≫= λ _, mret entry
                      else cache_touch_lru entry ≫= λ _, mret 0
                  | None => mret 0
                  end);
        upd_cache (count_hit false) ≫= λ _, k data opaque) Q (mk ds c fl h)) as Hgo; [|by destruct found].
    apply Hm; try done; [by intros id (e & _ & _ & HD)%Hfound|apply (cq_bits _ _ _ Ht)|]. clear Hm.
    intros ds1 c1 data op Hs Hcap. unfold k. wp_step. eapply Hrec; [exact Hs|done|].
    intros os iov ds' c' Hrp Hcap'. cbv beta iota zeta. wp_step. exact (HQ (inr _ :: os) _ _ _ Hrp Hcap').
Qed.
End read.
