(* ===== verification/DataCacheFetch.v ===== *)
(** The rest of a cached read: reading the missing pages, laying the cached
    sectors over them, delivering to the host and releasing everything. *)
From S2P Require Import Prelude Bitmap Avl Flash Machine BlockManager Amu AmuFacts AmuSpec AmuWrite AmuDispatch DataCache DataCacheFacts DataCacheSpec DataCacheWrite DataCacheStore DataCacheRead.

#[local] Unset Default Proof Using.
Section fetch.
Context {PL : Platform} {PO : @PlatformOk PL} {EL : @EccLive PL} {AL : @AllocLive PL} {RL : @ReadLive PL}.
Context {DL : @DmaLive PL}.
Context {HO : Host} {HK : @HostOk HO}.
Context (P : flash_address → Prop) (nsid ptr : Z) (u0 : amu) (fl : flushers).
Notation mk := (mk ptr u0).
Notation dci := (dci P nsid ptr u0).
Notation view := (view nsid []).
Notation ccached := (ccached nsid).
Notation cache_req := (cache_req nsid).

Definition in_txn (t : flash_transaction) (i : nat) : Prop := (txn_from t ≤ i < txn_from t + txn_len t)%nat.
(** The buffer of [t] holds what is to be read. *)
Definition fetched (V : Z → nat → sector → Prop) ds (t : flash_transaction) : Prop :=
  ∀ i x, in_txn t i → V (t_lpa t) i x → bufx ds (t_data t) i x.
(** Its buffer and the entry laid over it hold that together. *)
Record loaded (V : Z → nat → sector → Prop) ds c (t : flash_transaction) : Prop := {
  ld_data : t_data t ≠ 0 ∧ is_Some (buf_at ds (t_data t));
  ld_fits : (txn_from t + txn_len t ≤ 4)%nat;
  ld_view : ∀ i x, in_txn t i → V (t_lpa t) i x →
    if t_opaque t =? 0 then bufx ds (t_data t) i x
    else ∃ e, dc_entries c !! t_opaque t = Some e ∧ bufx ds (if bit (ce_bitmap e) i then ce_data e else t_data t) i x;
}.

(** * Reading the missing pages *)
Lemma dci_reads D ds ds' c data : dci D [] ds c → dom_inv P None ds' → evolves ds ds' → unchanged ds ds' data →
  (∀ id e, dc_entries c !! id = Some e → ce_data e ∉ data) →
  dci D [] ds' c ∧ ∀ l i x, owner_ok (ds_dom ds) (OData l) → view ds' c l i x ↔ view ds c l i x.
Proof.
  intros Hi Hin' Hev Hu Hd. pose proof (unchanged_reads ds ds' data) as Hrd. pose proof Hu as [U1 U2 U3 U4 U5].
  pose proof (ev_consts _ _ Hev) as Hsc.
  assert (∀ id e i x, dc_entries c !! id = Some e → bufx ds' (ce_data e) i x ↔ bufx ds (ce_data e) i x) as Hbx.
  { intros id e i x He. unfold bufx. by rewrite U3 by by eapply Hd. }
  split.
  - destruct Hi as [Hat Hin Hw Hen Hda Hcl Hp Hwb Hwl Hwd]. split; try done; try (intros ? []%elem_of_nil).
    + eapply attached_with in Hat; [|by apply Hsc]. by rewrite with_dom_with in Hat.
    + intros id e He. destruct (Hen _ _ He) as [? ? ? ? [? ?] ?]. split; try done; [by apply (owner_ok_same _ _ _ Hsc)| |lia].
      split; [done|]. by apply U4.
    + intros id e i x He Hs Hb Hx. destruct (Hen _ _ He) as [_ Ho _ _ _ _]. apply Hrd; [done..|].
      eapply Hcl; [done..|]. by eapply Hbx.
    + intros l Ho. apply (owner_ok_same _ _ _ Hsc) in Ho. unfold programmed. rewrite U1, U2 by done. by apply Hp.
  - intros l i x Ho. unfold DataCacheSpec.view. destruct (ccached c l) as [e|] eqn:Ec; [|by rewrite !below_nil; apply Hrd].
    destruct (bit (ce_bitmap e) i); [|by rewrite !below_nil; apply Hrd].
    apply (ccached_spec nsid D) in Ec as (id & He & _); [|apply Hi]. by eapply Hbx.
Qed.
Lemma missed_read_req V ds c t t' : read_cond nsid ds t → missed V ds c t t' → read_req nsid ds t'.
Proof.
  intros [Ht [Hty Hrd]] [E Hd (i & x & Hm & _ & p & Hp & _) _ _]. pose proof (cq_align _ _ _ Ht) as [_ Hlen].
  destruct (missing_bit 0 (t_bitmap t) (cq_bits _ _ _ Ht)) as (k & Hk & _);
    [rewrite Z.land_0_l; pose proof (cq_bits _ _ _ Ht); lia|].
  apply (cq_cover _ _ _ Ht) in Hk.
  rewrite E. split; simpl; try done; try apply Ht.
  - rewrite Hlen. unfold SECTOR_SIZE. lia.
Qed.
Lemma in_txn_range t i : t_offset t = SECTOR_SIZE * Z.of_nat (txn_from t) → t_length t = SECTOR_SIZE * Z.of_nat (txn_len t) →
  in_txn t i → in_range (t_offset t) (t_length t) (Z.of_nat i).
Proof. unfold in_txn, in_range. intros -> ->. unfold SECTOR_SIZE. lia. Qed.
Lemma missed_loaded V D ds ds' c t t' t'' (ms : list flash_transaction) : dci D [] ds c → read_cond nsid ds t → missed V ds c t t' → t' ∈ ms →
  read_done ds ds' ms → unchanged ds ds' (t_data <$> ms) → (∀ id e, dc_entries c !! id = Some e → ce_data e ∉ t_data <$> ms) →
  same_range t' t'' → loaded V ds' c t''.
Proof.
  intros Hi [Ht _] [E [Hd0 Hd] _ He Hv] Hin Hrd [_ _ U3 U4 _] Hda [[E1 E2] (E3 & E4 & E5)].
  assert (t_offset t' = t_offset t ∧ t_length t' = t_length t ∧ t_lpa t' = t_lpa t) as (F1 & F2 & F3) by (rewrite E; done).
  assert (txn_from t'' = txn_from t ∧ txn_len t'' = txn_len t) as [G1 G2].
  { unfold txn_from, txn_len. by rewrite E3, E4, F1, F2. }
  destruct (cq_align _ _ _ Ht) as [A1 A2].
  assert (∀ i x, in_txn t i → readsv ds (t_lpa t) i x → bufx ds' (t_data t'') i x) as Hbuf.
  { intros i x Hit Hr. rewrite E1. apply (Hrd t' i x Hin); [|rewrite F1, F2; by apply in_txn_range|by rewrite F3].
    unfold in_txn in Hit. pose proof (cq_fits _ _ _ Ht). lia. }
  split.
  - rewrite E1. split; [done|]. by apply U4.
  - rewrite G1, G2. apply Ht.
  - unfold in_txn. rewrite G1, G2, E2, E5, F3. intros i x Hit Hx. pose proof Hit as Hb%(cq_cover _ _ _ Ht).
    specialize (Hv i x Hb Hx). destruct (Z.eqb_spec (t_opaque t') 0) as [E0|E0]; [by apply Hbuf|].
    destruct (He E0) as [e Hee]. rewrite Hee in Hv. exists e. split; [done|].
    destruct (bit (ce_bitmap e) i); [|by apply Hbuf]. destruct Hv as (b & Hbb & Hxx). exists b. split; [|done].
    rewrite U3; [done|]. by eapply Hda.
Qed.

(** * Laying cached sectors over a buffer *)
Definition keeps (data : list Z) (ds ds' : dom_st) : Prop :=
  (∃ m', ds' = with_mach m' ds) ∧ (∀ d, d ∉ data → buf_at ds' d = buf_at ds d) ∧
  (∀ d, is_Some (buf_at ds d) → is_Some (buf_at ds' d)).
Lemma keeps_refl data ds : keeps data ds ds.
Proof. split; [exists (bm_mach (ds_bm ds)); by rewrite with_mach_id|]. done. Qed.
Lemma wp_overlay_one V D ds c t (Q : rc → dc → Prop) h : dci (list_to_set (overlay_of t) ∪ D) [] ds c →
  (∀ j, j ∈ overlay_of t → j ∉ D) → loaded V ds c t → (∀ id e, dc_entries c !! id = Some e → ce_data e ≠ t_data t) →
  (∀ ds' c', keeps [t_data t] ds ds' → dci D [] ds' c' → (∀ l0 i x, view ds' c' l0 i x ↔ view ds c l0 i x) →
     fetched V ds' t → (∀ j, j ∉ overlay_of t → dc_entries c' !! j = dc_entries c !! j) → 
     (∀ id e, dc_entries c' !! id = Some e → ∃ e0, dc_entries c !! id = Some e0 ∧ ce_data e0 = ce_data e) → Q R0 (mk ds' c' fl h)) →
  wp (overlay_cached R0 t) Q (mk ds c fl h).
Proof.
  intros Hi HD Hld Hda HQ. pose proof Hld as [[Hd0 [b Hb]] Hle Hv]. unfold overlay_cached. unfold overlay_of in *.
  destruct (Z.eqb_spec (t_opaque t) 0) as [E0|E0].
  { wp_step. apply HQ; try done.
    - apply keeps_refl.
    - simpl in Hi. by rewrite union_empty_l_L in Hi.
    - eauto. }
  set (id := t_opaque t) in *.
  assert (id ∈ (list_to_set [id] ∪ D : gset Z)) as Hin by set_solver.
  destruct (cw_held _ _ (ci_wf _ _ _ _ _ _ _ _ Hi) id Hin) as [e He].
  destruct (cw_pin _ _ (ci_wf _ _ _ _ _ _ _ _ Hi) _ _ He) as [Hp _]. rewrite decide_True in Hp by done.
  destruct (ci_entry _ _ _ _ _ _ _ _ Hi _ _ He) as [_ _ _ _ [_ [src Hsrc]] _].
  pose proof (di_mem _ _ _ (ci_inv _ _ _ _ _ _ _ _ Hi)) as [M1 M2].
  destruct (M2 _ _ Hb) as [B1 B2], (M2 _ _ Hsrc) as [_ S2].
  wp_step. eapply wp_entry_at; [exact He|]. wp_step. apply wp_mach.
  eapply (wp_zdma_range (bit (ce_bitmap e)) (txn_from t) (txn_len t)); [exact Hb|exact Hsrc|done|done|done|].
  intros r b' d Hbl Hdn Hmr Hlive. rewrite (Hlive DL) in *. specialize (Hmr eq_refl) as [_ Hmr]. clear Hlive.
  set (m' := set_mem _ _).
  assert (∀ keep : Z → Prop, ¬ keep (t_data t) → mem_step ds keep m') as Hs.
  { intros keep Hk. split; [done| |done| |done].
    - split; [done|]. intros j bj. simpl. intros [[<- <-]|[_ Hj]]%lookup_insert_Some; [done|by apply M2].
    - intros d0 Hd. simpl. rewrite lookup_insert_ne; [done|]. by intros <-. }
  assert (¬ used c [] (t_data t)) as Hnu by (intros [(j & ej & Hj & Ej)|[]%elem_of_nil]; by apply (Hda j ej)).
  pose proof (dci_mach _ _ _ _ _ _ _ _ _ Hi (Hs _ Hnu)) as Hi1.
  destruct (dci_release P nsid ptr u0 (list_to_set [id] ∪ D) (with_mach m' ds) c id e Hi1 Hin He) as [Hi2 Hv2].
  change (wp (unlock_entry id ≫= λ _, (unpin_entry id ≫= λ _, mret R0)) Q (mk (with_mach m' ds) c fl h)).
  assert (∀ s, (unlock_entry id ≫= λ _, (unpin_entry id ≫= λ _, mret R0)) s = ((unlock_entry id ≫= λ _, unpin_entry id) ≫= λ _, mret R0) s) as Hassoc.
  { intros s. unfold mbind, ST_bind. by destruct (unlock_entry id s) as [[]|]. }
  unfold wp. rewrite Hassoc. change (wp ((unlock_entry id ≫= λ _, unpin_entry id) ≫= λ _, mret R0) Q (mk (with_mach m' ds) c fl h)).
  wp_step. eapply wp_release_entry; [exact He|exact Hp|]. wp_step. apply HQ.
  - split; [by eexists|]. split.
    + intros d0 Hd. unfold buf_at. simpl. rewrite lookup_insert_ne by set_solver. done.
    + intros d0 [bd Hd]. unfold buf_at. simpl. destruct (decide (d0 = t_data t)) as [->|]; [rewrite lookup_insert_eq; by eexists|].
      rewrite lookup_insert_ne by done. by exists bd.
  - assert (D = (list_to_set [id] ∪ D) ∖ {[id]}) as ->; [|done]. specialize (HD id). set_solver.
  - intros l0 i x. rewrite Hv2. apply (view_mach _ _ _ _ _ _ _ _ (list_to_set [id] ∪ D)); [apply Hi|by apply Hs].
  - intros i x Hit Hx. destruct (Hv i x Hit Hx) as (e' & He' & b0 & Hb0 & Hx0). assert (e' = e) as -> by congruence.
    exists b'. split; [unfold buf_at; simpl; apply lookup_insert_eq|]. unfold in_txn in Hit. rewrite Hmr by lia.
    rewrite (proj2 (Nat.leb_le _ _)), (proj2 (Nat.ltb_lt _ _)) by lia. rewrite !andb_true_r.
    destruct (bit (ce_bitmap e) i); simpl in Hb0; congruence.
  - intros j Hj. simpl. rewrite lookup_insert_ne by set_solver. done.
  - intros j ej. simpl. intros [[<- <-]|[_ Hj]]%lookup_insert_Some; eauto.
Qed.
Lemma loaded_keeps V data ds ds' c c' t : loaded V ds c t → keeps data ds ds' → t_data t ∉ data →
  (∀ id e, dc_entries c !! id = Some e → ce_data e ∉ data) →
  (∀ j, j ∈ overlay_of t → dc_entries c' !! j = dc_entries c !! j) → loaded V ds' c' t.
Proof.
  intros [[Hd0 Hd] Hf Hv] (_ & K1 & K2) Hn Hda He. split; [by auto|done|]. intros i x Hi Hx. specialize (Hv i x Hi Hx).
  unfold overlay_of in He. destruct (t_opaque t =? 0).
  - destruct Hv as (b & Hb & ?). exists b. by rewrite K1.
  - destruct Hv as (e & Hee & b & Hb & Hxx). exists e. split; [by rewrite He by set_solver|]. exists b. split; [|done].
    rewrite K1; [done|]. destruct (bit (ce_bitmap e) i); [by eapply Hda|done].
Qed.
Lemma keeps_trans a b d1 d2 d3 : keeps a d1 d2 → keeps b d2 d3 → keeps (a ++ b) d1 d3.
Proof.
  intros ([m1 ->] & K1 & S1) ([m2 ->] & K2 & S2). split; [by exists m2|]. split; [|auto].
  intros d Hd. rewrite elem_of_app in Hd. rewrite K2, K1 by tauto. done.
Qed.
Lemma fetched_keeps V data ds ds' t : fetched V ds t → keeps data ds ds' → t_data t ∉ data → fetched V ds' t.
Proof. intros Hf (_ & K & _) Hn i x Hi Hx. destruct (Hf i x Hi Hx) as (b & Hb & ?). exists b. by rewrite K. Qed.

Lemma wp_overlay_all V ms : ∀ D ds c (Q : rc → dc → Prop) h, dci (list_to_set (ms ≫= overlay_of) ∪ D) [] ds c →
  NoDup (ms ≫= overlay_of) → (∀ j, j ∈ ms ≫= overlay_of → j ∉ D) → Forall (loaded V ds c) ms → NoDup (t_data <$> ms) →
  (∀ id e, dc_entries c !! id = Some e → ce_data e ∉ t_data <$> ms) →
  (∀ ds' c', keeps (t_data <$> ms) ds ds' → dci D [] ds' c' → (∀ l0 i x, view ds' c' l0 i x ↔ view ds c l0 i x) →
     Forall (fetched V ds') ms → (∀ j, j ∉ ms ≫= overlay_of → dc_entries c' !! j = dc_entries c !! j) →
     (∀ id e, dc_entries c' !! id = Some e → ∃ e0, dc_entries c !! id = Some e0 ∧ ce_data e0 = ce_data e) →
     Q R0 (mk ds' c' fl h)) →
  wp (overlay_all R0 ms) Q (mk ds c fl h).
Proof.
  induction ms as [|t ms IH]; intros D ds c Q h Hi Hnd HD Hld Hdd Hda HQ; cbn [overlay_all].
  { wp_step. apply HQ; try done; [apply keeps_refl| |eauto]. simpl in Hi. by rewrite union_empty_l_L in Hi. }
  apply Forall_cons in Hld as [Ht Hld]. rewrite fmap_cons in Hdd, Hda. apply NoDup_cons in Hdd as [Hnt Hdd].
  rewrite bind_cons in Hi, Hnd, HD. apply NoDup_app in Hnd as (_ & Hdis & Hnd). rewrite list_to_set_app_L in Hi.
  wp_step. apply (wp_overlay_one V (list_to_set (ms ≫= overlay_of) ∪ D) ds c t).
  - by rewrite union_assoc_L.
  - intros j Hj. specialize (HD j). specialize (Hdis j Hj). set_solver.
  - done.
  - intros id e He E. apply (Hda id e He). rewrite E. by left.
  - intros ds1 c1 K1 Hi1 Hv1 Hf1 He1 Hd1. apply (IH D ds1 c1); [done|done|set_solver| |done| |].
    + rewrite Forall_forall in Hld |- *. intros t0 Ht0. eapply loaded_keeps; [by apply Hld|exact K1| | |].
      * intros E%list_elem_of_singleton. apply Hnt. rewrite <-E. by apply list_elem_of_fmap_2.
      * intros id e He E%list_elem_of_singleton. apply (Hda id e He). rewrite E. by left.
      * intros j Hj. apply He1. intros Hj2. apply (Hdis j Hj2). apply list_elem_of_bind. by exists t0.
    + intros id e (e0 & He0 & <-)%Hd1 Hin. apply (Hda id e0 He0). by right.
    + intros ds2 c2 K2 Hi2 Hv2 Hf2 He2 Hd2. apply HQ.
      * by apply (keeps_trans [t_data t] _ ds ds1).
      * done.
      * intros l0 i x. by rewrite Hv2.
      * constructor; [|done]. by eapply fetched_keeps.
      * intros j Hj. rewrite bind_cons, elem_of_app in Hj. rewrite He2, He1 by tauto. done.
      * intros id e (e1 & He1' & <-)%Hd2. by apply Hd1.
Qed.

(** * Delivery *)
Lemma wp_gather (V : Z → nat → sector → Prop) ds c l : ∀ iov (Q : list sector → dc → Prop) h,
  Forall2 (λ t v, ∃ data b, v = txn_iov data t ∧ buf_at ds data = Some b ∧ length (b_data b) = 4%nat ∧
    (txn_from t + txn_len t ≤ 4)%nat ∧ ∀ i x, in_txn t i → V (t_lpa t) i x → b_data b !! i = Some x) l iov →
  (∀ xs, length xs = sum_list (txn_len <$> l) →
     (∀ k t i x, l !! k = Some t → (i < txn_len t)%nat → V (t_lpa t) (txn_from t + i)%nat x →
        xs !! (sum_list (txn_len <$> take k l) + i)%nat = Some x) → Q xs (mk ds c fl h)) →
  wp (lift (gather iov)) Q (mk ds c fl h).
Proof.
  induction l as [|t l IH]; intros iov Q h Hf HQ; inversion Hf as [|? v ? iov' (data & b & -> & Hb & Hbl & Hle & Hbx) Hf']; subst; cbn [gather].
  { apply wp_mach. wp_step. rewrite with_mach_id. apply HQ; [done|]. intros k t i x [=]. }
  apply wp_lift_bind. apply wp_mach. unfold iov_read. wp_step. eapply wp_load; [exact Hb|]. wp_step.
  change (iov_from _) with (txn_from t). change (iov_len _) with (txn_len t). wp_step.
  { apply Nat.leb_le. change (@length (list Z)) with (@length sector). lia. }
  wp_step. rewrite with_mach_id. apply wp_lift_bind. apply (IH iov'); [done|]. intros xs Hlen Hxs.
  apply wp_mach. wp_step. rewrite with_mach_id. set (ys := take _ _).
  assert (length ys = txn_len t) as Hys by (unfold ys; rewrite length_take, length_drop; change (@length (list Z)) with (@length sector); lia).
  apply HQ.
  - rewrite length_app, Hys, Hlen. done.
  - intros [|k] t0 i x Hk Hi Hx; simpl in Hk.
    + injection Hk as <-. rewrite lookup_app_l by (simpl; lia). unfold ys. simpl. rewrite lookup_take_lt by done.
      rewrite lookup_drop. apply Hbx; [unfold in_txn; lia|done].
    + assert (sum_list (txn_len <$> take (S k) (t :: l)) + i = length ys + (sum_list (txn_len <$> take k l) + i))%nat as ->.
      { rewrite Hys, Nat.add_assoc. done. }
      rewrite lookup_app_r by lia. rewrite Nat.add_comm, Nat.add_sub. eapply Hxs; done.
Qed.

(** * A cached read *)
Lemma held_split os : os ≫= held ≡ₚ (t_opaque <$> hits_of os) ++ (misses_of os ≫= overlay_of).
Proof.
  induction os as [|o os IH]; [done|]. rewrite bind_cons, IH. destruct o as [t|t]; simpl; [done|].
  rewrite app_assoc, (Permutation_app_comm (overlay_of t)), <-app_assoc. done.
Qed.
Lemma slots_miss V ds c l os iov t' : Forall3 (rslot V ds c) l os iov → t' ∈ misses_of os → ∃ t, t ∈ l ∧ missed V ds c t t'.
Proof.
  induction 1 as [|t o v l os iov Hr _ IH]; [by intros []%elem_of_nil|]. destruct o as [th|tm]; simpl.
  - intros (t0 & ? & ?)%IH. exists t0. split; [by right|done].
  - intros [->|(t0 & ? & ?)%IH]%elem_of_cons; [exists t; split; [by left|apply Hr]|exists t0; split; [by right|done]].
Qed.
Lemma same_range_bind ms ms' : Forall2 same_range ms ms' → ms' ≫= overlay_of = ms ≫= overlay_of ∧ t_data <$> ms' = t_data <$> ms.
Proof.
  induction 1 as [|x y ms ms' [[E1 E2] _] _ [IH1 IH2]]; [done|]. rewrite !bind_cons, !fmap_cons.
  unfold overlay_of at 1 3. by rewrite E1, E2, IH1, IH2.
Qed.
Lemma ents_data D ds c c1 (ms : list flash_transaction) : dci D [] ds c → same_ents c c1 →
  Forall (λ t, m_next (bm_mach (ds_bm ds)) ≤ t_data t) ms → ∀ id e, dc_entries c1 !! id = Some e → ce_data e ∉ t_data <$> ms.
Proof.
  intros Hi Hs Hf id e He (t & E & Ht)%list_elem_of_fmap. rewrite Forall_forall in Hf. apply Hf in Ht.
  specialize (Hs id). rewrite He in Hs. simpl in Hs. destruct (dc_entries c !! id) as [e0|] eqn:He0; simplify_eq/=.
  assert (used c [] (ce_data e0)) as Hu by (left; eauto). eapply used_old in Hu; [|exact Hi]. rewrite E in *. lia.
Qed.
(** Where each segment finally reads from. *)
Lemma slots_deliver V D ds1 ds3 c1 (ms : list flash_transaction) l os iov : dci D [] ds1 c1 → mem_wf (bm_mach (ds_bm ds3)) →
  (∀ data, data ∉ t_data <$> ms → buf_at ds3 data = buf_at ds1 data) →
  (∀ data, is_Some (buf_at ds1 data) → is_Some (buf_at ds3 data)) →
  (∀ id e, dc_entries c1 !! id = Some e → ce_data e ∉ t_data <$> ms) →
  (∀ t', t' ∈ ms → ∃ t'', same_range t' t'' ∧ fetched V ds3 t'') →
  Forall (cache_req ds1) l → Forall3 (rslot V ds1 c1) l os iov → (∀ t', t' ∈ misses_of os → t' ∈ ms) →
  Forall2 (λ t v, ∃ data b, v = txn_iov data t ∧ buf_at ds3 data = Some b ∧ length (b_data b) = 4%nat ∧
    (txn_from t + txn_len t ≤ 4)%nat ∧ ∀ i x, in_txn t i → V (t_lpa t) i x → b_data b !! i = Some x) l iov.
Proof.
  intros Hi [_ Hm] Hb Hbs Hda Hms Hl. induction 1 as [|t o v l os iov Hr _ IH]; [constructor|]. intros Hsub.
  apply Forall_cons in Hl as [Ht Hl]. constructor; [|apply IH; [done|]; destruct o; simpl in Hsub; set_solver].
  pose proof (cq_fits _ _ _ Ht) as Hf. destruct o as [t'|t']; destruct Hr as [Hr ->].
  - destruct Hr as [(e & He & E) Hv]. destruct (ci_entry _ _ _ _ _ _ _ _ Hi _ _ He) as [_ _ _ _ [_ [b Hbe]] _].
    assert (t_data t' = ce_data e) as Ed by by rewrite E.
    exists (t_data t'), b. split; [done|]. rewrite Ed. split; [by rewrite Hb by by eapply Hda|].
    split; [|split; [done|]].
    + rewrite <-(Hb (ce_data e)) in Hbe by by eapply Hda. by apply Hm in Hbe as [].
    + intros i x Hit%(cq_cover _ _ _ Ht) Hx. destruct (Hv i x Hit Hx) as (b0 & Hb0 & ?). rewrite Ed in Hb0. congruence.
  - destruct Hr as [E [_ Hd] _ _ _]. destruct (Hms t') as (t'' & [[E1 _] (E3 & E4 & E5)] & Hfe); [apply Hsub; left|].
    destruct (Hbs _ Hd) as [b Hb3]. exists (t_data t'), b. split; [done|]. split; [done|]. split; [by apply Hm in Hb3 as []|].
    split; [done|]. intros i x Hit Hx. destruct (Hfe i x) as (b0 & Hb0 & ?).
    + unfold in_txn, txn_from, txn_len in *. rewrite E3, E4, E. done.
    + rewrite E5, E. done.
    + rewrite E1 in Hb0. congruence.
Qed.
Lemma wp_dispatch_misses V D ds c ms (Q : rc * list flash_transaction → dc → Prop) h : dci D [] ds c →
  (∀ t', t' ∈ ms → ∃ t, read_cond nsid ds t ∧ missed V ds c t t') → NoDup (t_data <$> ms) →
  (∀ id e, dc_entries c !! id = Some e → ce_data e ∉ t_data <$> ms) →
  pc_size (d_pcache (ds_dom ds)) + Z.of_nat (length ms) ≤ pc_capacity (d_pcache (ds_dom ds)) →
  (∀ ds' ms', dci D [] ds' c → same_consts (ds_dom ds) (ds_dom ds') → (∀ l i x, owner_ok (ds_dom ds) (OData l) → view ds' c l i x ↔ view ds c l i x) →
     unchanged ds ds' (t_data <$> ms) → Forall2 same_range ms ms' → Forall (loaded V ds' c) ms' → Q (R0, ms') (mk ds' c fl h)) →
  wp (lift (amu_dispatch ms)) Q (mk ds c fl h).
Proof.
  intros Hi Hms Hnd Hda Hcap HQ. apply wp_unit. eapply wp_mono.
  - apply (wp_dispatch_reads P nsid ptr ds (with_dom ptr ds u0) ms); [apply Hi|apply Hi| |done|done].
    rewrite Forall_forall. intros t' Ht'. destruct (Hms t' Ht') as (t & ? & ?). by eapply missed_read_req.
  - intros [r ms'] u' (ds' & -> & Hin & Hev & -> & Hrd & Hu & Hsr). exists ds'. split; [by rewrite !with_dom_with|].
    destruct (dci_reads D ds ds' c _ Hi Hin Hev Hu Hda) as [Hi' Hv']. apply HQ; try done; [apply Hev|].
    rewrite Forall_forall. intros t'' Ht''. apply list_elem_of_lookup in Ht'' as [k Hk].
    destruct (Forall2_lookup_r _ _ _ _ _ Hsr Hk) as (t' & Hk' & Hs). apply list_elem_of_lookup_2 in Hk'.
    destruct (Hms t' Hk') as (t & ? & ?). by eapply (missed_loaded V D ds ds' c t t' t'' ms).
Qed.

Lemma misses_length V ds c l os iov : Forall3 (rslot V ds c) l os iov → (length (misses_of os) ≤ length l)%nat.
Proof. induction 1 as [|? o ? ? os ? _ _ IH]; [done|]. destruct o; simpl in *; lia. Qed.
(** [xs] is what the transactions [l] deliver, in order. *)
Definition delivers (V : Z → nat → sector → Prop) (l : list flash_transaction) (xs : list sector) : Prop :=
  ∀ k t i x, l !! k = Some t → (i < txn_len t)%nat → V (t_lpa t) (txn_from t + i)%nat x →
    xs !! (sum_list (txn_len <$> take k l) + i)%nat = Some x.
Lemma wp_nvme_dma_write (V : Z → nat → sector → Prop) req ds c l iov (Q : rc → dc → Prop) h :
  let n := sum_list (txn_len <$> l) in
  Forall2 (λ t v, ∃ data b, v = txn_iov data t ∧ buf_at ds data = Some b ∧ length (b_data b) = 4%nat ∧
    (txn_from t + txn_len t ≤ 4)%nat ∧ ∀ i x, in_txn t i → V (t_lpa t) i x → b_data b !! i = Some x) l iov →
  (∀ xs, length xs = n → delivers V l xs → ∃ h', host_out (rq_target req) xs h = Some (R0, h')) →
  (∀ xs h', length xs = n → delivers V l xs → host_out (rq_target req) xs h = Some (R0, h') → Q R0 (mk ds c fl h')) →
  wp (nvme_dma_write req iov) Q (mk ds c fl h).
Proof.
  intros n Hf Hh HQ. unfold nvme_dma_write. wp_step. eapply wp_gather; [exact Hf|]. intros xs Hlen Hxs.
  wp_step. wp_step. change (dc_host _) with h. destruct (Hh xs Hlen Hxs) as [h' Eh]. rewrite Eh. wp_step. apply wp_deref. eexists.
  split; [done|]. cbn beta iota. wp_step. wp_step. wp_step.
  by eapply HQ.
Qed.

Lemma wp_handle_cached_read req l ds c h (Q : rc → dc → Prop) :
  dci ∅ [] ds c → Forall (read_cond nsid ds) l → NoDup (t_lpa <$> l) → Forall (readable (view ds c)) l →
  pc_size (d_pcache (ds_dom ds)) + Z.of_nat (length l) ≤ pc_capacity (d_pcache (ds_dom ds)) →
  let n := sum_list (txn_len <$> l) in
  (∀ xs, length xs = n → delivers (view ds c) l xs → ∃ h', host_out (rq_target req) xs h = Some (R0, h')) →
  (∀ ds' c' xs h', dci ∅ [] ds' c' → same_consts (ds_dom ds) (ds_dom ds') →
     (∀ l0 i x, owner_ok (ds_dom ds) (OData l0) → view ds' c' l0 i x ↔ view ds c l0 i x) →
     (∀ k, amu_room (length l + k) ds → amu_room k ds') →
     length xs = n → delivers (view ds c) l xs → host_out (rq_target req) xs h = Some (R0, h') → Q R0 (mk ds' c' fl h')) →
  wp (handle_cached_read req l) Q (mk ds c fl h).
Proof.
  intros Hi Hl Hnd Hrd Hcap n Hh HQ. set (V := view ds c) in *. unfold handle_cached_read. wp_step.
  eapply (wp_prepare_reads P nsid ptr u0 fl V l ∅ ds c); [done..|set_solver|].
  intros os iov ds1 c1 [R1 R2 [R3 _] R4 [R5 _] R6 [R7 R8]] _. cbv beta iota. wp_step.
  pose proof R1 as ([m1 ->] & _ & _ & _). set (ms := misses_of os) in *. set (ds1 := with_mach m1 ds) in *.
  rewrite union_empty_r_L in R2. assert (Forall (read_cond nsid ds1) l) as Hl1.
  { eapply Forall_impl; [exact Hl|]. intros. by apply read_cond_mach. }
  assert (∀ id e, dc_entries c1 !! id = Some e → ce_data e ∉ t_data <$> ms) as Hda.
  { eapply ents_data; [exact Hi|exact R5|]. eapply Forall_impl; [exact R8|]. by intros ? []. }
  assert (∀ t', t' ∈ ms → ∃ t, read_cond nsid ds1 t ∧ missed V ds1 c1 t t') as Hms.
  { intros t' Ht'. destruct (slots_miss _ _ _ _ _ _ _ R4 Ht') as (t & Ht & Hm). rewrite Forall_forall in Hl1. eauto. }
  pose proof (misses_length _ _ _ _ _ _ R4) as Hlen. fold ms in Hlen.
  apply (wp_dispatch_misses V (list_to_set (os ≫= held)) ds1 c1 ms); [exact R2|exact Hms|done|exact Hda|simpl; lia|].
  intros ds2 ms' D1 D2 D3 D4 D5 D6. cbv beta iota. wp_step. wp_step.
  destruct (same_range_bind _ _ D5) as [Eb Ed].
  pose proof (held_split os) as Hperm. fold ms in Hperm. rewrite Hperm in R3. apply NoDup_app in R3 as (N1 & N2 & N3).
  assert (list_to_set (os ≫= held) = list_to_set (ms' ≫= overlay_of) ∪ list_to_set (t_opaque <$> hits_of os) :> gset Z) as EsD.
  { rewrite Eb. apply set_eq. intros j. rewrite elem_of_union, !elem_of_list_to_set, Hperm, elem_of_app. tauto. }
  rewrite EsD in D1. apply (wp_overlay_all V ms' (list_to_set (t_opaque <$> hits_of os)) ds2 c1); [exact D1|by rewrite Eb| |exact D6|by rewrite Ed|by rewrite Ed|].
  { intros j Hj Hj2%elem_of_list_to_set. rewrite Eb in Hj. by apply (N2 j). }
  intros ds3 c3 K1 O1 O2 O3 _ O5. pose proof K1 as ([m3 Em3] & K2 & K3). rewrite Ed in K2. destruct D4 as [_ _ U3 U4 _ U6 U7].
  eapply (wp_nvme_dma_write V); [|exact Hh|].
  { apply (slots_deliver V (list_to_set (os ≫= held)) ds1 ds3 c1 ms l os iov R2); [apply O1| | |exact Hda| | |exact R4|done].
    - intros data Hd. rewrite K2 by done. by apply U3.
    - intros data Hd. by apply K3, U4.
    - intros t' Ht'. apply list_elem_of_lookup in Ht' as [k Hk]. destruct (Forall2_lookup_l _ _ _ _ _ D5 Hk) as (t'' & Hk' & Hs).
      exists t''. split; [done|]. rewrite Forall_lookup in O3. by eapply O3.
    - eapply Forall_impl; [exact Hl1|]. by intros ? []. }
  intros ys h' Hlen2 Hys Hh'. wp_step.
  assert (t_opaque <$> reverse (hits_of os) ≡ₚ t_opaque <$> hits_of os) as Hrev by by rewrite reverse_Permutation.
  apply (wp_unlock_all P nsid ptr u0 fl (reverse (hits_of os)) ∅); [|by rewrite Hrev|set_solver|].
  { rewrite union_empty_r_L. by rewrite (list_to_set_perm_L _ _ Hrev). }
  intros c4 F1 F2 F3. wp_step. apply (wp_free_all P nsid ptr u0 fl ms' ∅); [exact F1|by rewrite Ed| |].
  { rewrite Forall_forall. intros t'' Ht''. rewrite Forall_forall in D6. destruct (D6 t'' Ht'') as [[_ Hd] _ _]. split; [by apply K3|].
    intros id e (e1 & He1 & <-)%F3. apply O5 in He1 as (e0 & He0 & <-). intros E. apply (Hda id e0 He0). rewrite E, <-Ed.
    by apply list_elem_of_fmap_2. }
  intros m4 G1 G2. wp_step. eapply HQ; [done|by rewrite Em3| | |exact Hlen2|exact Hys|exact Hh'].
  2:{ intros k [Hk1 Hk2]. rewrite length_fmap in U6. rewrite Em3. split.
      - change (ds_dom (with_mach m4 (with_mach m3 ds2))) with (ds_dom ds2).
        destruct D2 as (_ & _ & _ & _ & _ & _ & _ & Ec & _). simpl in *. lia.
      - apply (bm_ready_planes k (ds_bm ds)); [exact U7|]. eapply bm_ready_le; [|exact Hk2]. lia. }
  intros l0 i x Ho. rewrite (G2 l0 i x), (F2 l0 i x), (O2 l0 i x), (D3 l0 i x Ho). apply R6.
Qed.
End fetch.
