(* ===== verification/DataCacheFlush.v ===== *)
(** Flushing the data cache: the walk over the dirty entries, batches of
    write-backs, the loop of one flusher and the synchronous flush by all. *)
From S2P Require Import Prelude Bitmap Avl Flash Machine BlockManager Amu AmuFacts AmuSpec AmuWrite AmuDispatch DataCache DataCacheFacts DataCacheSpec DataCacheWrite DataCacheStore DataCacheRead.

#[local] Unset Default Proof Using.

(** * The walk *)
Definition lpa_of (m : gmap Z cache_entry) (id : Z) : Z := (ce_keys m id).2.
Definition dirty (m : gmap Z cache_entry) (id : Z) : Prop := ce_status <$> m !! id = Some CES_DIRTY.
#[export] Instance dirty_dec m id : Decision (dirty m id).
Proof. unfold dirty. apply _. Defined.
(** The entry is for the flusher [tag] in the range below [end_]. *)
Definition selected (m : gmap Z cache_entry) (tag end_ id : Z) : Prop :=
  dirty m id ∧ lpa_of m id mod NR_FLUSHERS = tag ∧ lpa_of m id < end_.

Lemma lookup_loop_spec (m : gmap Z cache_entry) nsid end_ tag : end_ ≤ LPA_MAX →
  ∀ fuel n (it : avl_iter Z), it_ok it → (length (it_elems it) ≤ fuel)%nat → (0 < n)%nat →
  (∀ id, id ∈ it_elems it → ∃ e, m !! id = Some e ∧ (ce_key e).1 = nsid ∧ 0 ≤ (ce_key e).2) →
  StronglySorted (λ i j, lpa_of m i < lpa_of m j) (it_elems it) →
  ∃ ids next, lookup_loop fuel m nsid end_ tag n it = Some (ids, next) ∧ (length ids ≤ n)%nat ∧
    sublist ids (it_elems it) ∧ (∀ id, id ∈ ids → selected m tag end_ id) ∧
    (∀ id, id ∈ it_elems it → selected m tag end_ id → lpa_of m id < default end_ next → id ∈ ids) ∧
    (∀ k, next = Some k → k ≤ end_ ∧ ∀ id, id ∈ ids → lpa_of m id < k) ∧ (ids = [] → next = None).
Proof.
  intros Hend fuel. induction fuel as [|fuel IH]; intros n it Hok Hlen Hn Hin Hso; cbn [lookup_loop];
    rewrite get_iter_elems by done; destruct (it_elems it) as [|id xs] eqn:Ex; try (simpl in Hlen; lia);
    try (exists [], None; split; [done|]; split; [simpl; lia|]; split; [constructor|]; split; [set_solver|]; split; [set_solver|done]).
  cbn [head]. destruct (Hin id ltac:(left)) as (e & He & Hns & Hp). rewrite He.
  assert (lpa_of m id = (ce_key e).2) as Elpa by (unfold lpa_of; by rewrite (ce_keys_Some _ _ _ He)).
  apply StronglySorted_inv in Hso as [Hso Hlt]. rewrite Forall_forall in Hlt.
  rewrite Hns, Z.eqb_refl. cbn [negb orb]. destruct (inc_iter_elems it Hok) as [Ei Hok']. rewrite Ex in Ei. cbn [tail] in Ei.
  destruct (Z.leb_spec end_ (ce_key e).2) as [Hge|Hlt'].
  { exists [], None. split; [done|]. split; [simpl; lia|]. split; [apply sublist_nil_l|]. split; [set_solver|]. split; [|done].
    intros j [->|Hj]%elem_of_cons (_ & _ & Hl); [lia|]. apply Hlt in Hj. lia. }
  destruct (bool_decide (ce_status e = CES_DIRTY)) eqn:Es.
  2:{ cbn [negb orb]. destruct (IH n (avl_inc_iter it)) as (ids & next & -> & H1 & H2 & H3 & H4 & H5 & H6); try done;
        rewrite ?Ei; try done; [simpl in Hlen; lia|intros j Hj; apply Hin; by right|].
      exists ids, next. rewrite Ei in H2, H4. split; [done|]. split; [done|]. split; [by constructor|]. split; [done|]. split; [|done].
      intros j [->|Hj]%elem_of_cons Hs Hl; [|by apply H4]. destruct Hs as [Hd _]. unfold dirty in Hd. rewrite He in Hd. simpl in Hd.
      apply bool_decide_eq_false in Es. congruence. }
  apply bool_decide_eq_true in Es. cbn [negb orb].
  destruct (Z.eqb_spec ((ce_key e).2 mod NR_FLUSHERS) tag) as [Et|Et].
  2:{ cbn [negb orb]. destruct (IH n (avl_inc_iter it)) as (ids & next & -> & H1 & H2 & H3 & H4 & H5 & H6); try done;
        rewrite ?Ei; try done; [simpl in Hlen; lia|intros j Hj; apply Hin; by right|].
      exists ids, next. rewrite Ei in H2, H4. split; [done|]. split; [done|]. split; [by constructor|]. split; [done|]. split; [|done].
      intros j [->|Hj]%elem_of_cons Hs Hl; [|by apply H4]. destruct Hs as (_ & Hd & _). congruence. }
  cbn [negb orb]. assert (selected m tag end_ id) as Hsel.
  { split; [|split]; [unfold dirty; rewrite He; simpl; by rewrite Es|congruence|lia]. }
  destruct n as [|[|n]]; [lia| |].
  - exists [id], (Some (u64 ((ce_key e).2 + 1))). assert (u64 ((ce_key e).2 + 1) = (ce_key e).2 + 1) as ->.
    { apply Z.mod_small. unfold LPA_MAX in Hend. lia. }
    split; [done|]. split; [done|]. split; [constructor; apply sublist_nil_l|]. split; [set_solver|].
    split; [|split; [|done]].
    + intros j [->|Hj]%elem_of_cons _ Hl; [set_solver|]. apply Hlt in Hj. simpl in Hl. lia.
    + intros k [= <-]. split; [lia|]. intros j ->%list_elem_of_singleton. lia.
  - destruct (IH (S n) (avl_inc_iter it)) as (ids & next & -> & H1 & H2 & H3 & H4 & H5 & H6); try done;
      rewrite ?Ei; try done; [simpl in Hlen; lia|lia|intros j Hj; apply Hin; by right|].
    rewrite Ei in H2, H4. exists (id :: ids), next. split; [done|]. split; [simpl; lia|]. split; [by constructor|].
    split; [intros j [->|Hj]%elem_of_cons; auto|]. split; [|split; [|done]].
    + intros j [->|Hj]%elem_of_cons Hs Hl; [by left|]. right. by apply H4.
    + intros k ->. destruct (H5 k eq_refl) as [Hk Hk2]. split; [done|]. intros j [->|Hj]%elem_of_cons; [|auto].
      destruct ids as [|i0 ids0]; [by discriminate H6|]. assert (i0 ∈ xs) as Hi0.
      { eapply sublist_submseteq in H2. eapply elem_of_submseteq; [|exact H2]. left. }
      specialize (Hk2 i0 ltac:(left)). apply Hlt in Hi0. lia.
Qed.

Section flush.
Context {PL : Platform} {PO : @PlatformOk PL} {EL : @EccLive PL} {AL : @AllocLive PL} {RL : @ReadLive PL}.
Context {HO : Host} {HK : @HostOk HO}.
Context (P : flash_address → Prop) (nsid ptr : Z) (u0 : amu).
Notation mk := (mk ptr u0).
Notation dci := (dci P nsid ptr u0).
Notation view := (view nsid).
Notation ccached := (ccached nsid).

Lemma wp_cache_lookup_range D W ds c fl h index end_ tag n (Q : list Z * Z → dc → Prop) :
  dci D W ds c → height (dc_root c) ≤ Z.of_nat AVL_MAX_DEPTH → end_ ≤ LPA_MAX → (0 < n)%nat →
  (∀ ids index', (length ids ≤ n)%nat → NoDup ids → (∀ id, id ∈ ids → selected (dc_entries c) tag end_ id) → index' ≤ end_ ∨ ids = [] →
     (∀ id, is_Some (dc_entries c !! id) → index ≤ lpa_of (dc_entries c) id → selected (dc_entries c) tag end_ id →
        lpa_of (dc_entries c) id < index' ∨ ids = [] → id ∈ ids) →
     Q (ids, index') (mk ds c fl h)) →
  wp (cache_lookup_range nsid index end_ tag n) Q (mk ds c fl h).
Proof.
  intros Hi Hh Hend Hn HQ. pose proof (ci_wf _ _ _ _ _ _ _ _ Hi) as Hw. pose proof (cw_tree _ _ Hw) as [Hs Hhs].
  unfold cache_lookup_range. wp_step. apply wp_cache. destruct n as [|n]; [lia|]. wp_step. apply wp_deref.
  destruct (start_iter_elems (ce_keys (dc_entries c)) (nsid, index) (dc_root c) Hs Hh) as [He Hok].
  set (it := avl_start_iter _ _ _ _) in *. set (m := dc_entries c) in *.
  assert (∀ id, id ∈ it_elems it ↔ is_Some (m !! id) ∧ index ≤ lpa_of m id) as Hmem.
  { intros id. rewrite He, list_elem_of_filter, (cw_ids _ _ Hw). fold m. unfold kge, lpa_of. split; intros [H1 H2].
    - split; [done|]. destruct H2 as [e H2]. rewrite (ce_keys_Some _ _ _ H2) in *.
      destruct (ci_entry _ _ _ _ _ _ _ _ Hi _ _ H2) as [E _ _ _ _ _]. revert H1.
      unfold kcmp, cache_cmp_key. simpl. rewrite E, Z.ltb_irrefl. destruct (Z.ltb_spec index (ce_key e).2); [lia|].
      destruct (Z.ltb_spec (ce_key e).2 index); lia.
    - split; [|done]. destruct H1 as [e H1]. rewrite (ce_keys_Some _ _ _ H1) in *.
      destruct (ci_entry _ _ _ _ _ _ _ _ Hi _ _ H1) as [E _ _ _ _ _].
      unfold kcmp, cache_cmp_key. simpl. rewrite E, Z.ltb_irrefl. destruct (Z.ltb_spec index (ce_key e).2); [lia|].
      destruct (Z.ltb_spec (ce_key e).2 index); lia. }
  assert (StronglySorted (λ i j, lpa_of m i < lpa_of m j) (it_elems it)) as Hso.
  { assert (∀ id, id ∈ it_elems it → is_Some (m !! id)) as Hin by (intros id Hid; by apply Hmem in Hid as []).
    assert (keys_sorted (ce_keys m) (it_elems it)) as Hks.
    { rewrite He. clear -Hs. unfold keys_sorted in *. induction Hs as [|x xs _ IH Hx]; [constructor|].
      rewrite filter_cons. case_decide; [|done]. constructor; [done|]. rewrite Forall_forall in Hx |- *.
      intros y [_ Hy]%list_elem_of_filter. by apply Hx. }
    clear -Hks Hin Hi. unfold keys_sorted in Hks. induction Hks as [|x xs _ IH Hx]; [constructor|].
    constructor; [apply IH; intros; apply Hin; by right|]. rewrite Forall_forall in Hx |- *. intros y Hy. specialize (Hx y Hy).
    destruct (Hin x ltac:(left)) as [ex Hex], (Hin y ltac:(by right)) as [ey Hey]. unfold lpa_of.
    rewrite (ce_keys_Some _ _ _ Hex), (ce_keys_Some _ _ _ Hey) in *.
    destruct (ci_entry _ _ _ _ _ _ _ _ Hi _ _ Hex) as [E1 _ _ _ _ _], (ci_entry _ _ _ _ _ _ _ _ Hi _ _ Hey) as [E2 _ _ _ _ _].
    revert Hx. unfold klt, kcmp, cache_cmp_key. rewrite E1, E2, Z.ltb_irrefl.
    destruct (Z.ltb_spec (ce_key ex).2 (ce_key ey).2); [lia|]. destruct (Z.ltb_spec (ce_key ey).2 (ce_key ex).2); lia. }
  destruct (lookup_loop_spec m nsid end_ tag Hend (length (inorder (dc_root c))) (S n) it Hok) as (ids & next & Hl & H1 & H2 & H3 & H4 & H5 & H6).
  - rewrite He. apply length_filter.
  - lia.
  - intros id [[e Hid] _]%Hmem. exists e. split; [done|]. destruct (ci_entry _ _ _ _ _ _ _ _ Hi _ _ Hid) as [E1 E2 _ _ _ _].
    split; [done|]. simpl in E2. lia.
  - done.
  - exists (ids, next). split; [exact Hl|]. wp_step. apply HQ; [done| |done| |].
    + assert (NoDup (it_elems it)) as Hnd.
      { rewrite He. apply NoDup_filter. by eapply keys_sorted_nodup. }
      by eapply sublist_NoDup.
    + left. destruct next as [k|]; [by apply H5|simpl; lia].
    + intros id Hs' Hix Hsel Hor. apply H4; [by apply Hmem|done|]. destruct Hor as [|Hnil]; [done|]. rewrite H6 by done.
      simpl. apply Hsel.
Qed.

(** * A batch *)

(** [t] writes back the dirty entry it names. *)
Record flushing (ds : dom_st) (c : data_cache) (t : flash_transaction) : Prop := {
  fh_id : t_opaque t ≠ 0;
  fh_entry : ∃ e, dc_entries c !! t_opaque t = Some e ∧ ce_key e = (nsid, t_lpa t) ∧ ce_status e = CES_DIRTY ∧
    t_bitmap t = ce_bitmap e ∧ ∀ i x, bit (ce_bitmap e) i = true → bufx ds (ce_data e) i x → bufx ds (t_data t) i x;
}.
Record batch (D : gset Z) W ds c (ids : list Z) W2 ds' c' : Prop := {
  ba_mach : ∃ m', ds' = with_mach m' ds ∧ mem_step ds (used c W) m';
  ba_inv : dci (list_to_set ids ∪ D) (W ++ W2) ds' c';
  ba_ids : t_opaque <$> W2 = ids;
  ba_txns : Forall (flushing ds' c') W2;
  ba_ents : same_ents c c' ∧ dc_root c' = dc_root c ∧ nr_pages c' = nr_pages c ∧ capacity_pages c' = capacity_pages c;
  ba_view : ∀ l i x, view W ds c l i x → view (W ++ W2) ds' c' l i x;
}.
Lemma flushing_step D W ds ds' m' c c' t : dci D W ds c → ds' = with_mach m' ds → mem_step ds (used c W) m' → t ∈ W → flushing ds c t →
  same_ents c c' → flushing ds' c' t.
Proof.
  intros Hi -> [_ _ _ Hk] Ht [Hid (e & He & H1 & H2 & H3 & H4)] Hs. split; [done|].
  specialize (Hs (t_opaque t)). rewrite He in Hs. simpl in Hs. destruct (dc_entries c' !! t_opaque t) as [e'|]; simplify_eq/=.
  exists e'. split; [done|]. split; [congruence|]. split; [congruence|]. split; [congruence|]. intros i x Hb (b & Hbb & Hx).
  destruct (H4 i x) as (b2 & Hb2 & ?); [congruence| |].
  - exists b. split; [|done]. rewrite <-Hbb. unfold buf_at at 2. simpl. replace (ce_data e') with (ce_data e) by congruence.
    symmetry. apply Hk. left. eauto.
  - exists b2. split; [|done]. unfold buf_at. simpl. rewrite Hk; [done|]. right. by apply list_elem_of_fmap_2.
Qed.
Lemma same_ents_dirty c c' id : same_ents c c' → dirty (dc_entries c') id ↔ dirty (dc_entries c) id.
Proof.
  intros Hs. specialize (Hs id). unfold dirty. destruct (dc_entries c !! id), (dc_entries c' !! id); simplify_eq/=; naive_solver congruence.
Qed.
Lemma same_ents_lpa c c' id : same_ents c c' → lpa_of (dc_entries c') id = lpa_of (dc_entries c) id.
Proof.
  intros Hs. specialize (Hs id). unfold lpa_of, ce_keys. destruct (dc_entries c !! id), (dc_entries c' !! id); simplify_eq/=; congruence.
Qed.
Lemma same_ents_selected c c' tag end_ id : same_ents c c' → selected (dc_entries c') tag end_ id ↔ selected (dc_entries c) tag end_ id.
Proof. intros Hs. unfold selected. by rewrite (same_ents_dirty _ _ _ Hs), (same_ents_lpa _ _ _ Hs). Qed.

Lemma flush_one D W ds c m' id e w : dci D W ds c → id ∉ D → dc_entries c !! id = Some e → ce_status e = CES_DIRTY →
  mem_step ds (used c W) m' → writeback_of ds m' e w →
  let w' := set_t_data (t_data w) id w in
  dci ({[id]} ∪ D) (W ++ [w']) (with_mach m' ds) (ce_take id e c) ∧ flushing (with_mach m' ds) (ce_take id e c) w' ∧
  ∀ l i x, view W ds c l i x → view (W ++ [w']) (with_mach m' ds) (ce_take id e c) l i x.
Proof.
  intros Hi HD He Hst Hm Hw w'. pose proof (ci_wf _ _ _ _ _ _ _ _ Hi) as Hcw.
  assert (cache_wf ({[id]} ∪ D) (ce_take id e c)) as Hw' by by apply cache_wf_take.
  assert (writeback_of ds m' e w') as Hwo by by destruct Hw; split.
  destruct (dci_writeback P nsid ptr u0 D W ds c m' id e w' Hi Hm He HD Hwo) as (W1 & W2 & W3 & W4).
  assert (ce_key e = (nsid, t_lpa w')) as Hk.
  { pose proof (wo_key _ _ _ _ Hwo) as E. destruct (ci_entry _ _ _ _ _ _ _ _ Hi _ _ He) as [O1 _ _ _ _ _]. rewrite <-E in O1 |- *.
    change (t_nsid w' = nsid) in O1. by rewrite O1. }
  assert (dci ({[id]} ∪ D) W ds (ce_take id e c)) as Hi1.
  { eapply dci_entry; [exact Hi|exact Hw'|done|right; set_solver|..].
    - by destruct (ci_entry _ _ _ _ _ _ _ _ Hi _ _ He).
    - intros j d Hne Hj E. apply Hne. by eapply (ci_data _ _ _ _ _ _ _ _ Hi).
    - intros i x. simpl. congruence.
    - intros t Ht. destruct (ci_wb _ _ _ _ _ _ _ _ Hi t Ht) as [_ _ Hd _]. split; [by apply (Hd id e)|].
      split; [set_solver|done]. }
  assert (∀ d, used (ce_take id e c) W d → used c W d) as Hus.
  { intros d [(j & ej & Hj & E)|]; [left|by right]. simpl in Hj. apply lookup_insert_Some in Hj as [[<- <-]|[_ Hj]]; eauto. }
  assert (mem_step ds (used (ce_take id e c) W) m') as Hm1 by (destruct Hm; split; auto).
  split; [|split].
  - apply dci_add_wb; [by apply dci_mach|done|done|]. destruct (W4 w') as (V1 & V2 & V3); [set_solver|]. split; [done..| |].
    + intros j d. simpl. intros [[<- <-]|[_ Hj]]%lookup_insert_Some; [by apply (V3 id e)|by eapply V3].
    + intros j d. simpl. intros [[<- <-]|[Hne Hj]]%lookup_insert_Some Ek; [split; [set_solver|done]|].
      destruct (W1 w' ltac:(set_solver) j d (not_eq_sym Hne) Hj Ek) as (_ & HjD & ?). split; [set_solver|done].
  - destruct (ci_entry _ _ _ _ _ _ _ _ Hi _ _ He) as [_ _ _ _ _ O6]. split; [simpl; lia|].
    exists (set_ce_owned true (set_ce_pin 1 e)). simpl. split; [apply lookup_insert_eq|]. split; [done|]. split; [done|].
    split; [apply (wo_bitmap _ _ _ _ Hw)|]. intros i x Hb (b0 & Hb0 & Hx).
    destruct (wo_buf _ _ _ _ Hw) as (b & b' & Hbe & Hbw & Hcp). exists b'. split; [exact Hbw|]. rewrite Hcp by done.
    destruct Hm as [_ _ _ Hkp]. unfold buf_at in Hb0. simpl in Hb0. rewrite Hkp in Hb0 by (left; eauto). congruence.
  - intros l i x Hv. assert (view W (with_mach m' ds) (ce_take id e c) l i x) as Hv1.
    { apply (view_mach nsid W ds (ce_take id e c) m' l i x ({[id]} ∪ D) Hw' Hm1).
      eapply (view_entry nsid D ({[id]} ∪ D)); [done|exact Hw'|exact He|done..]. }
    unfold DataCacheSpec.view in *. destruct (decide (l = t_lpa w')) as [->|Hne].
    + assert (ccached (ce_take id e c) (t_lpa w') = Some (set_ce_owned true (set_ce_pin 1 e))) as Ec.
      { apply (ccached_spec nsid ({[id]} ∪ D)); [done|]. exists id. simpl. by rewrite lookup_insert_eq. }
      rewrite Ec in *. simpl in *. destruct (bit (ce_bitmap e) i) eqn:Eb; [done|].
      destruct Hv1 as [(t & Ht & H)|[Hn Hr]]; [left; exists t; set_solver|]. right. split; [|done].
      intros t [Ht| ->%list_elem_of_singleton]%elem_of_app E; [by apply Hn|]. simpl. by rewrite (wo_bitmap _ _ _ _ Hw).
    + destruct (ccached (ce_take id e c) l) as [d|]; [destruct (bit (ce_bitmap d) i); [done|]|]; apply below_mono; set_solver.
Qed.
Lemma same_ents_take id e c : dc_entries c !! id = Some e → same_ents c (ce_take id e c).
Proof. intros He. by apply (same_ents_put id e (set_ce_owned true (set_ce_pin 1 e))). Qed.
Lemma wp_flush_batch tag start end_ ids : ∀ D W ds c fl h (Q : list flash_transaction → dc → Prop),
  dci D W ds c → NoDup ids → (∀ id, id ∈ ids → id ∉ D ∧ selected (dc_entries c) tag end_ id ∧ start ≤ lpa_of (dc_entries c) id) →
  (∀ W2 ds' c', batch D W ds c ids W2 ds' c' → Q W2 (mk ds' c' fl h)) →
  wp (flush_batch nsid tag start end_ ids) Q (mk ds c fl h).
Proof.
  induction ids as [|id ids IH]; intros D W ds c fl h Q Hi Hnd Hsel HQ; cbn [flush_batch].
  { wp_step. apply HQ. split; rewrite ?app_nil_r; try done.
    - exists (bm_mach (ds_bm ds)). rewrite with_mach_id. split; [done|].
      apply mem_step_quiet; [apply (ci_inv _ _ _ _ _ _ _ _ Hi)|apply mach_quiet_refl].
    - simpl. by rewrite union_empty_l_L. }
  apply NoDup_cons in Hnd as [Hnid Hnd]. destruct (Hsel id) as (HD & (Hdirty & Htag & Hlt) & Hge); [by left|].
  unfold dirty in Hdirty. destruct (dc_entries c !! id) as [e|] eqn:He; [|done]. injection Hdirty as Hst.
  assert (lpa_of (dc_entries c) id = (ce_key e).2) as El by (unfold lpa_of; by rewrite (ce_keys_Some _ _ _ He)).
  rewrite El in Htag, Hlt, Hge. wp_step. eapply wp_entry_at; [exact He|].
  destruct (ci_entry _ _ _ _ _ _ _ _ Hi _ _ He) as [Hns _ _ _ _ _].
  rewrite (bool_decide_eq_true_2 _ Hst), Hns, Z.eqb_refl, (proj2 (Z.ltb_ge _ _)), (proj2 (Z.leb_gt _ _)), Htag, Z.eqb_refl by lia.
  cbn [negb orb]. destruct (cw_pin _ _ (ci_wf _ _ _ _ _ _ _ _ Hi) _ _ He) as [Hp _]. rewrite decide_False in Hp by done.
  eapply wp_take_entry; [exact He|exact Hp|]. wp_step.
  assert (cache_wf ({[id]} ∪ D) (ce_take id e c)) as Hw' by by apply cache_wf_take; [apply Hi|].
  assert (dci ({[id]} ∪ D) W ds (ce_take id e c)) as Hi1.
  { eapply dci_entry; [exact Hi|exact Hw'|done|right; set_solver|..].
    - by destruct (ci_entry _ _ _ _ _ _ _ _ Hi _ _ He).
    - intros j d Hne Hj E. apply Hne. by eapply (ci_data _ _ _ _ _ _ _ _ Hi).
    - intros i x. simpl. congruence.
    - intros t Ht. destruct (ci_wb _ _ _ _ _ _ _ _ Hi t Ht) as [_ _ Hd _]. split; [by apply (Hd id e)|].
      split; [set_solver|done]. }
  eapply wp_generate_writeback; [exact Hi1|done|simpl; apply lookup_insert_eq|]. intros m' w Hm1 Hw1.
  assert (mem_step ds (used c W) m') as Hm.
  { destruct Hm1 as [? ? ? Hk]. split; try done. intros d Hd. apply Hk. destruct Hd as [(j & ej & Hj & E)|]; [left|by right].
    destruct (decide (j = id)) as [->|Hn]; [|exists j, ej; simpl; by rewrite lookup_insert_ne].
    exists id, (set_ce_owned true (set_ce_pin 1 e)). simpl. rewrite lookup_insert_eq. split; [done|]. simpl. congruence. }
  assert (writeback_of ds m' e w) as Hw by by destruct Hw1; split.
  destruct (flush_one D W ds c m' id e w Hi HD He Hst Hm Hw) as (F1 & F2 & F3). set (w' := set_t_data (t_data w) id w) in *.
  cbv beta iota. wp_step. pose proof (same_ents_take id e c He) as Hse.
  apply (IH ({[id]} ∪ D) (W ++ [w']) (with_mach m' ds) (ce_take id e c)); [exact F1|done| |].
  { intros j Hj. destruct (Hsel j) as (HjD & Hs & Hl); [by right|]. split; [set_solver|].
    rewrite (same_ents_selected _ _ _ _ _ Hse), (same_ents_lpa _ _ _ Hse). done. }
  intros W2 ds' c' [(m2 & -> & Hm2) B2 B3 B4 (B5 & B6 & B7 & B8) B9]. wp_step. apply HQ. rewrite <-app_assoc in B2, B9. split.
  - exists m2. split; [done|]. eapply mem_step_trans; [exact Hm|]. destruct Hm2 as [? ? ? Hk]. split; try done.
    intros d [(j & ej & Hj & E)|Hd]; apply Hk; [left|right; rewrite fmap_app; set_solver].
    destruct (decide (j = id)) as [->|Hn]; [|exists j, ej; simpl; by rewrite lookup_insert_ne].
    exists id, (set_ce_owned true (set_ce_pin 1 e)). simpl. rewrite lookup_insert_eq. split; [done|]. simpl. congruence.
  - assert (list_to_set (id :: ids) ∪ D = list_to_set ids ∪ ({[id]} ∪ D) :> gset Z) as -> by (simpl; set_solver). done.
  - rewrite fmap_cons, B3. done.
  - constructor; [|done]. eapply flushing_step; [exact F1|done|exact Hm2|set_solver|exact F2|exact B5].
  - split; [|done]. intros j. rewrite B5. apply Hse.
  - intros l i x Hv. by apply B9, F3.
Qed.

(** The entries [ids] have become clean. *)
Definition cleaned (ids : list Z) (c c' : data_cache) : Prop :=
  (∀ id, (λ e, (ce_key e, ce_bitmap e, ce_status e, ce_data e)) <$> dc_entries c' !! id =
         (λ e, (ce_key e, ce_bitmap e, if decide (id ∈ ids) then CES_CLEAN else ce_status e, ce_data e)) <$> dc_entries c !! id) ∧
  dc_root c' = dc_root c ∧ nr_pages c' = nr_pages c ∧ capacity_pages c' = capacity_pages c.
Lemma cleaned_app ids1 ids2 c c1 c2 : cleaned ids1 c c1 → cleaned ids2 c1 c2 → cleaned (ids1 ++ ids2) c c2.
Proof.
  intros (E1 & R1 & N1 & C1) (E2 & R2 & N2 & C2). split; [|split_and!; congruence]. intros j. specialize (E1 j). specialize (E2 j).
  destruct (dc_entries c !! j) as [e|], (dc_entries c1 !! j) as [e1|], (dc_entries c2 !! j) as [e2|]; simplify_eq/=; try done.
  f_equal. destruct (decide (j ∈ ids1)), (decide (j ∈ ids2)), (decide (j ∈ ids1 ++ ids2)); set_solver || congruence.
Qed.
Lemma cleaned_refl c : cleaned [] c c.
Proof. split; [|done]. intros j. by destruct (dc_entries c !! j). Qed.
Lemma same_ents_cleaned c c' : same_ents c c' → dc_root c' = dc_root c → nr_pages c' = nr_pages c →
  capacity_pages c' = capacity_pages c → cleaned [] c c'.
Proof. intros Hs ? ? ?. split; [|done]. intros j. rewrite Hs. by destruct (dc_entries c !! j). Qed.
Lemma dci_clean D ds c id e : dci D [] ds c → id ∈ D → dc_entries c !! id = Some e →
  (∀ i x, bit (ce_bitmap e) i = true → bufx ds (ce_data e) i x → readsv ds (ce_key e).2 i x) →
  let c' := ce_release id (set_ce_status CES_CLEAN e) (ce_put id (set_ce_status CES_CLEAN e) c) in
  dci (D ∖ {[id]}) [] ds c' ∧ (∀ l i x, view [] ds c' l i x ↔ view [] ds c l i x) ∧ cleaned [id] c c'.
Proof.
  intros Hi HD He Hcl c'. set (e' := set_ce_status CES_CLEAN e). pose proof (ci_wf _ _ _ _ _ _ _ _ Hi) as Hw.
  assert (cache_wf (D ∖ {[id]}) c') as Hw'.
  { apply cache_wf_release; [by apply (cache_wf_put D id e' e)|done|simpl; apply lookup_insert_eq]. }
  assert (dc_entries c' = <[id := set_ce_pin 0 (set_ce_owned false e')]> (dc_entries c)) as Ec by (simpl; by rewrite insert_insert_eq).
  split; [|split].
  - eapply dci_entry; [exact Hi|exact Hw'|exact Ec|by left|..].
    + by destruct (ci_entry _ _ _ _ _ _ _ _ Hi _ _ He).
    + intros j d Hne Hj E. apply Hne. by eapply (ci_data _ _ _ _ _ _ _ _ Hi).
    + intros i x _. by apply Hcl.
    + intros ? []%elem_of_nil.
  - intros l i x. by eapply (view_entry nsid D (D ∖ {[id]})).
  - split; [|done]. intros j. rewrite Ec. destruct (decide (j = id)) as [->|Hne].
    + rewrite lookup_insert_eq, He. simpl. by rewrite decide_True by set_solver.
    + rewrite lookup_insert_ne by done. destruct (dc_entries c !! j); simpl; [|done]. by rewrite decide_False by set_solver.
Qed.
Record finishing ds c (t : flash_transaction) : Prop := {
  fg_id : t_opaque t ≠ 0;
  fg_buf : is_Some (buf_at ds (t_data t)) ∧ ∀ id e, dc_entries c !! id = Some e → ce_data e ≠ t_data t;
  fg_entry : ∃ e, dc_entries c !! t_opaque t = Some e ∧
    ∀ i x, bit (ce_bitmap e) i = true → bufx ds (ce_data e) i x → readsv ds (ce_key e).2 i x;
}.
Lemma finishing_step ds c ids c' m' t : finishing ds c t → cleaned ids c c' →
  (∀ a, nand (m_dev m') a = nandv ds a) → is_Some (m_mem m' !! t_data t) → 
  (∀ id e, dc_entries c !! id = Some e → m_mem m' !! ce_data e = buf_at ds (ce_data e)) → finishing (with_mach m' ds) c' t.
Proof.
  intros [Hid [_ Hne] (e & He & Hcl)] (Ec & _) Hn Hb Hk. split; [done|split; [done|]|].
  - intros j d Hj. specialize (Ec j). rewrite Hj in Ec. destruct (dc_entries c !! j) as [d0|] eqn:Hd0; simplify_eq/=.
    intros E. apply (Hne j d0 Hd0). congruence.
  - specialize (Ec (t_opaque t)). rewrite He in Ec. destruct (dc_entries c' !! t_opaque t) as [e'|]; simplify_eq/=. exists e'.
    split; [done|]. replace (ce_bitmap e') with (ce_bitmap e) by congruence. replace (ce_key e') with (ce_key e) by congruence.
    replace (ce_data e') with (ce_data e) by congruence. intros i x Hbi (b & Hbb & Hx). apply readsv_mach; [done|].
    apply Hcl; [done|]. exists b. split; [|done]. rewrite <-Hbb. unfold buf_at at 2. simpl. symmetry. by eapply Hk.
Qed.

Lemma wp_finish_loop l : ∀ D ds c fl h (Q : () → dc → Prop),
  dci (list_to_set (t_opaque <$> l) ∪ D) [] ds c → NoDup (t_opaque <$> l) → (∀ j, j ∈ t_opaque <$> l → j ∉ D) →
  NoDup (t_data <$> l) → Forall (finishing ds c) l →
  (∀ m' c', dci D [] (with_mach m' ds) c' → (∀ l0 i x, view [] (with_mach m' ds) c' l0 i x ↔ view [] ds c l0 i x) →
     cleaned (t_opaque <$> l) c c' → m_fs m' = m_fs (bm_mach (ds_bm ds)) → Q tt (mk (with_mach m' ds) c' fl h)) →
  wp (for_each l (λ txn,
    do_if (negb (t_opaque txn =? 0))
      (upd_entry (t_opaque txn) (set_ce_status CES_CLEAN) ≫= λ _,
       unlock_entry (t_opaque txn) ≫= λ _, unpin_entry (t_opaque txn)) ≫= λ _,
    do_if (negb (t_data txn =? 0)) (lift (free_mem (t_data txn))))) Q (mk ds c fl h).
Proof.
  induction l as [|t l IH]; intros D ds c fl h Q Hi Hnd HD Hdd Hf HQ; cbn [for_each].
  { wp_step. specialize (HQ (bm_mach (ds_bm ds)) c). rewrite with_mach_id in HQ. apply HQ; [|done| |done].
    - simpl in Hi. by rewrite union_empty_l_L in Hi.
    - split; [|done]. intros j. simpl. by destruct (dc_entries c !! j). }
  rewrite fmap_cons in Hnd, HD, Hi, Hdd. apply NoDup_cons in Hnd as [Hnt Hnd]. apply NoDup_cons in Hdd as [Hntd Hdd].
  apply Forall_cons in Hf as [[Hid [Hb Hne] (e & He & Hcl)] Hf]. set (id := t_opaque t) in *.
  assert (id ∈ (list_to_set (id :: (t_opaque <$> l)) ∪ D : gset Z)) as Hin by set_solver.
  destruct (dci_clean _ _ _ _ _ Hi Hin He Hcl) as (Hi1 & Hv1 & Hc1). set (c1 := ce_release _ _ _) in *.
  destruct (cw_pin _ _ (ci_wf _ _ _ _ _ _ _ _ Hi) _ _ He) as [Hp _]. rewrite decide_True in Hp by done.
  assert ((list_to_set (id :: (t_opaque <$> l)) ∪ D) ∖ {[id]} = list_to_set (t_opaque <$> l) ∪ D :> gset Z) as EsD.
  { apply set_eq. intros j. specialize (HD j). clear -HD Hnt. set_unfold. naive_solver. }
  rewrite EsD in Hi1. wp_step. wp_step. rewrite (proj2 (Z.eqb_neq id 0)) by done. cbn [negb]. wp_step.
  wp_step. eapply wp_upd_entry; [exact He|]. eapply wp_release_entry; [simpl; apply lookup_insert_eq|exact Hp|]. fold c1.
  assert (∀ d j ej, dc_entries c1 !! j = Some ej → ce_data ej = d → ∃ j0 e0, dc_entries c !! j0 = Some e0 ∧ ce_data e0 = d) as Hdat.
  { intros d j ej Hj E. destruct Hc1 as (Ec & _). specialize (Ec j). rewrite Hj in Ec.
    destruct (dc_entries c !! j) as [e0|] eqn:E0; simplify_eq/=. exists j, e0. split; [done|]. congruence. }
  enough (∀ m', dci (list_to_set (t_opaque <$> l) ∪ D) [] (with_mach m' ds) c1 →
    (∀ l0 i x, view [] (with_mach m' ds) c1 l0 i x ↔ view [] ds c1 l0 i x) → m_fs m' = m_fs (bm_mach (ds_bm ds)) →
    Forall (finishing (with_mach m' ds) c1) l →
    wp (for_each l (λ txn,
    do_if (negb (t_opaque txn =? 0))
      (upd_entry (t_opaque txn) (set_ce_status CES_CLEAN) ≫= λ _,
       unlock_entry (t_opaque txn) ≫= λ _, unpin_entry (t_opaque txn)) ≫= λ _,
    do_if (negb (t_data txn =? 0)) (lift (free_mem (t_data txn))))) Q (mk (with_mach m' ds) c1 fl h)) as Hrest.
  { wp_step. destruct (t_data t =? 0); cbn [negb].
    - specialize (Hrest (bm_mach (ds_bm ds))). rewrite with_mach_id in Hrest. apply Hrest; [done|done|done|].
      rewrite Forall_forall in Hf |- *. intros t' Ht'. rewrite <-(with_mach_id ds). eapply finishing_step; [by apply Hf|exact Hc1|done| |done].
      by destruct (Hf t' Ht') as [_ [? _] _].
    - apply wp_mach. apply wp_free_mem; [done|]. set (m' := set_mem _ _).
      assert (mem_step ds (used c1 []) m') as Hs.
      { apply mem_step_free; [apply Hi|]. intros [(j & ej & Hj & E)|[]%elem_of_nil].
        destruct (Hdat _ j ej Hj E) as (j0 & e0 & He0 & E0). by apply (Hne j0 e0). }
      apply Hrest; [by apply dci_mach|intros; apply (view_mach _ _ _ _ _ _ _ _ (list_to_set (t_opaque <$> l) ∪ D)); [apply Hi1|done]|done|].
      rewrite Forall_forall in Hf |- *. intros t' Ht'. eapply finishing_step; [by apply Hf|exact Hc1|done| |].
      + simpl. rewrite lookup_delete_ne; [by destruct (Hf t' Ht') as [_ [? _] _]|]. intros E. apply Hntd. rewrite E. by apply list_elem_of_fmap_2.
      + intros j ej Hj. simpl. rewrite lookup_delete_ne; [done|]. intros E. by apply (Hne j ej). }
  intros m' Hi' Hv' Hfs' Hf'. apply (IH D (with_mach m' ds) c1); [done|done|set_solver|done|done|].
  intros m2 c2 Hi2 Hv2 Hc2 Hfs2. apply (HQ m2); [done| |exact (cleaned_app [id] (t_opaque <$> l) c c1 c2 Hc1 Hc2)|by rewrite Hfs2; apply Hfs'].
  intros l0 i x. rewrite <-Hv1, <-Hv'. apply (Hv2 l0 i x).
Qed.

Context {WL : @WriteLive PL} {DL : @DmaLive PL}.

Lemma wp_finish_batch W ds c fl h (Q : () → dc → Prop) : dci (list_to_set (t_opaque <$> W)) W ds c → NoDup (t_opaque <$> W) →
  Forall (flushing ds c) W → amu_room (length W) ds →
  (∀ ds' c', dci ∅ [] ds' c' → same_consts (ds_dom ds) (ds_dom ds') → cleaned (t_opaque <$> W) c c' →
     (∀ l i x, owner_ok (ds_dom ds) (OData l) → (i < 4)%nat → view W ds c l i x → view [] ds' c' l i x) →
     (∀ n, amu_room (length W + n) ds → amu_room n ds') →
     pc_size (d_pcache (ds_dom ds')) ≤ pc_size (d_pcache (ds_dom ds)) + Z.of_nat (length W) →
     m_fs (bm_mach (ds_bm ds')) = m_fs (bm_mach (ds_bm ds)) → Q tt (mk ds' c' fl h)) →
  wp (finish_batch W) Q (mk ds c fl h).
Proof.
  intros Hi Hnd Hf Hr HQ. unfold finish_batch. wp_step.
  eapply (wp_dispatch_wbs P nsid ptr u0 fl _ W ds c); [exact Hi|exact Hr|]. intros ds2 W' Hin Hev Hw Hsb. cbv beta iota.
  assert (dci (list_to_set (t_opaque <$> W)) [] ds2 c) as Hi2 by (eapply dci_dispatched; done).
  assert (t_opaque <$> W' = t_opaque <$> W ∧ t_data <$> W' = t_data <$> W) as [Eo Ed].
  { clear -Hsb. induction Hsb as [|x y ? ? [E1 E2] _ [IH1 IH2]]; [done|]. rewrite !fmap_cons. split; by f_equal. }
  apply (wp_finish_loop W' ∅ ds2 c); [by rewrite Eo, union_empty_r_L|by rewrite Eo|set_solver|rewrite Ed; apply Hi| |].
  - rewrite Forall_forall. intros t'' Ht''. apply list_elem_of_lookup in Ht'' as [k Hk].
    destruct (Forall2_lookup_r _ _ _ _ _ Hsb Hk) as (t & Hk' & [E1 E2]). apply list_elem_of_lookup_2 in Hk'.
    rewrite Forall_forall in Hf. destruct (Hf t Hk') as [Hid (e & He & Hke & _ & Hbm & Hbx)].
    destruct (ci_wb _ _ _ _ _ _ _ _ Hi t Hk') as [[[_ _ _ (b & [_ Hb _ _])] _] Hbits Hd _].
    split; [by rewrite E2| |].
    + rewrite E1. split; [|done]. apply (wr_some _ _ _ Hw). by exists b.
    + rewrite E2. exists e. split; [done|]. intros i x Hbi (b1 & Hb1 & Hx1). rewrite Hke. simpl.
      destruct (wr_sectors _ _ _ Hw t i x Hk') as [Hs _]; [eapply bit_lt; [|exact Hbi]; by rewrite <-Hbm|].
      destruct (Hbx i x Hbi) as (b2 & Hb2 & Hx2).
      { exists b1. split; [|done]. rewrite <-Hb1. symmetry. apply (wr_bufs _ _ _ Hw). intros (t0 & E & Ht0)%list_elem_of_fmap.
        by apply (wb_data _ _ _ _ _ (ci_wb _ _ _ _ _ _ _ _ Hi t0 Ht0) _ _ He). }
      apply (Hs ltac:(rewrite Hbm; exact Hbi) b2); [exact Hb2|done].
  - intros m3 c3 Hi3 Hv3 Hc3 Hfs3. apply HQ; [done|apply (ev_consts _ _ Hev)|by rewrite Eo in Hc3| | |apply (wr_size _ _ _ Hw)|by rewrite <-(ev_fs _ _ Hev)].
    + intros l i x Ho Hi4 Hv. apply Hv3. by eapply (view_dispatched P nsid ptr u0 _ W ds ds2).
    + intros n Hn. assert (amu_room n ds2) as [A B] by (eapply amu_room_written; [apply (ev_consts _ _ Hev)|done|done]).
      split; [exact A|]. exact B.
Qed.

(** * The loop of one flusher *)
Definition ndirty (c : data_cache) : nat := length (filter (dirty (dc_entries c)) (inorder (dc_root c))).
Lemma filter_count (p q : Z → Prop) `{∀ x, Decision (p x), ∀ x, Decision (q x)} (ids xs : list Z) :
  NoDup ids → NoDup xs → (∀ x, x ∈ ids → x ∈ xs ∧ p x ∧ ¬ q x) → (∀ x, x ∈ xs → x ∉ ids → p x ↔ q x) →
  length (filter p xs) = (length ids + length (filter q xs))%nat.
Proof.
  intros Hi Hx Hin Hout. rewrite <-length_app. apply Permutation_length. apply NoDup_Permutation.
  - by apply NoDup_filter.
  - apply NoDup_app. split; [done|]. split; [|by apply NoDup_filter]. intros x Hxi [Hq _]%list_elem_of_filter.
    by destruct (Hin x Hxi) as (_ & _ & ?).
  - intros x. rewrite elem_of_app, !list_elem_of_filter. split.
    + intros [Hp Hxs]. destruct (decide (x ∈ ids)) as [|Hn]; [by left|]. right. split; [by apply Hout|done].
    + intros [Hxi|[Hq Hxs]]; [by destruct (Hin x Hxi) as (? & ? & _)|]. split; [|done]. apply Hout; [done| |done].
      intros Hxi. by destruct (Hin x Hxi) as (_ & _ & ?).
Qed.
Lemma ndirty_cleaned D W ds c c' ids : dci D W ds c → cleaned ids c c' → NoDup ids → (∀ id, id ∈ ids → dirty (dc_entries c) id) →
  ndirty c = (length ids + ndirty c')%nat.
Proof.
  intros Hi (Hc & Hroot & _) Hnd Hd. unfold ndirty. rewrite Hroot. pose proof (ci_wf _ _ _ _ _ _ _ _ Hi) as Hw.
  apply filter_count; [done|by eapply keys_sorted_nodup, (cw_tree _ _ Hw)| |].
  - intros id Hid. specialize (Hd id Hid). split; [|split; [done|]].
    + apply (cw_ids _ _ Hw). unfold dirty in Hd. by destruct (dc_entries c !! id).
    + unfold dirty in *. specialize (Hc id). destruct (dc_entries c !! id), (dc_entries c' !! id); cbn in *; try done.
      intros [= E]. rewrite decide_True in Hc by done. congruence.
  - intros id _ Hid. unfold dirty. specialize (Hc id). destruct (dc_entries c !! id), (dc_entries c' !! id); cbn in *; try done.
    rewrite decide_False in Hc by done. split; intros [= E]; f_equal; congruence.
Qed.
Lemma cleaned_dirty ids c c' id : cleaned ids c c' → dirty (dc_entries c') id ↔ dirty (dc_entries c) id ∧ id ∉ ids.
Proof.
  intros (Hc & _). specialize (Hc id). unfold dirty. destruct (dc_entries c !! id) as [e|], (dc_entries c' !! id) as [e'|]; cbn in *; try done; [|by split; [|intros []]].
  destruct (decide (id ∈ ids)); split; [intros [= ]; congruence|by intros []|intros [= ]; split; [f_equal; congruence|done]|intros [[= ] _]; f_equal; congruence].
Qed.
Lemma cleaned_lpa ids c c' id : cleaned ids c c' → lpa_of (dc_entries c') id = lpa_of (dc_entries c) id.
Proof.
  intros (Hc & _). specialize (Hc id). unfold lpa_of, ce_keys. destruct (dc_entries c !! id), (dc_entries c' !! id); simplify_eq/=; congruence.
Qed.

(** Room for the write-backs and [m] more pages; the write-backs touch at most
    [B] translation pages. *)
Definition flush_room (m : nat) (B : Z) (ds : dom_st) (c : data_cache) : Prop :=
  amu_room (ndirty c + m) ds ∧ pc_size (d_pcache (ds_dom ds)) + Z.of_nat (ndirty c) ≤ B.
(** What a flush of the pages of [tag] below [end_] has done. *)
Record flushed (m : nat) (B : Z) (sel : gmap Z cache_entry → Z → Prop) (ds : dom_st) (c : data_cache) (ds' : dom_st) (c' : data_cache) : Prop := {
  fd_inv : dci ∅ [] ds' c';
  fd_consts : same_consts (ds_dom ds) (ds_dom ds');
  fd_cleaned : ∃ ids, cleaned ids c c';
  fd_none : ∀ id, ¬ sel (dc_entries c') id;
  fd_view : ∀ l i x, owner_ok (ds_dom ds) (OData l) → (i < 4)%nat → view [] ds c l i x → view [] ds' c' l i x;
  fd_room : flush_room m B ds' c';
  fd_fs : m_fs (bm_mach (ds_bm ds')) = m_fs (bm_mach (ds_bm ds));
}.
Lemma wp_flush_range_loop m B tag start end_ fuel : end_ ≤ LPA_MAX → start ≤ 0 → ∀ index ds c fl h (Q : () → dc → Prop),
  dci ∅ [] ds c → height (dc_root c) ≤ Z.of_nat AVL_MAX_DEPTH → flush_room m B ds c → (ndirty c < fuel)%nat →
  (∀ id, selected (dc_entries c) tag end_ id → index ≤ lpa_of (dc_entries c) id) →
  (∀ ds' c', flushed m B (λ m, selected m tag end_) ds c ds' c' → Q tt (mk ds' c' fl h)) →
  wp (flush_range_loop fuel nsid tag start index end_) Q (mk ds c fl h).
Proof.
  intros Hend Hstart. induction fuel as [|fuel IH]; intros index ds c fl h Q Hi Hh Hr Hfuel Hdone HQ; [lia|]. cbn [flush_range_loop].
  assert ((∀ id, ¬ selected (dc_entries c) tag end_ id) → Q tt (mk ds c fl h)) as Hend'.
  { intros Hno. apply HQ. split; try done. exists []. apply cleaned_refl. }
  destruct (Z.ltb_spec index end_) as [Hlt|Hge].
  2:{ wp_step. apply Hend'. intros id Hs. specialize (Hdone id Hs). destruct Hs as (_ & _ & ?). lia. }
  assert (∀ id tag end_, selected (dc_entries c) tag end_ id → is_Some (dc_entries c !! id) ∧ 0 ≤ lpa_of (dc_entries c) id) as Hsome.
  { intros id tag0 end0 [Hd _]. unfold dirty in Hd. destruct (dc_entries c !! id) as [e|] eqn:He; [|done]. split; [by eexists|].
    unfold lpa_of. rewrite (ce_keys_Some _ _ _ He). destruct (ci_entry _ _ _ _ _ _ _ _ Hi _ _ He) as [_ O2 _ _ _ _]. simpl in O2. lia. }
  wp_step. eapply (wp_cache_lookup_range ∅ []); [exact Hi|done|done|unfold WB_BATCH_SIZE; lia|].
  intros ids index' L1 L2 L3 L4 L5. cbv beta iota. destruct ids as [|id0 ids0]; [|set (ids := id0 :: ids0) in *].
  { wp_step. apply Hend'. intros id Hs. specialize (L5 id (proj1 (Hsome _ _ _ Hs)) (Hdone id Hs) Hs (or_intror eq_refl)). set_solver. }
  destruct L4 as [L4|]; [|done]. wp_step. apply (wp_flush_batch tag start end_ ids ∅ [] ds c); [done|done| |].
  { intros id Hid. split; [set_solver|]. split; [by apply L3|]. pose proof (proj2 (Hsome _ _ _ (L3 id Hid))). lia. }
  intros W2 ds1 c1 [(m1 & -> & Hmst) B2 B3 B4 (B5 & B6 & B7 & B8) B9]. simpl in B2, B9. rewrite union_empty_r_L in B2.
  assert (cleaned [] c c1) as Hc0 by by apply same_ents_cleaned.
  assert (ndirty c = ndirty c1) as En by (apply (ndirty_cleaned ∅ [] ds c c1 []); [done|done|constructor|set_solver]).
  assert (∀ id, id ∈ ids → dirty (dc_entries c) id) as Hidd by (intros id Hid; by apply L3).
  assert (length W2 = length ids) as Elen by (rewrite <-B3; by rewrite length_fmap).
  assert ((length ids ≤ ndirty c)%nat) as Hle.
  { apply submseteq_length, NoDup_submseteq; [done|]. intros id Hid. apply list_elem_of_filter. split; [by apply Hidd|].
    apply (cw_ids _ _ (ci_wf _ _ _ _ _ _ _ _ Hi)). by eapply Hsome, L3. }
  wp_step. apply (wp_finish_batch W2 (with_mach m1 ds) c1); [by rewrite B3|by rewrite B3|done| |].
  { rewrite Elen. destruct Hr as [[Hr1 Hr2] _]. split; [change (ds_dom (with_mach m1 ds)) with (ds_dom ds); lia|eapply bm_ready_le; [|exact Hr2]; lia]. }
  intros ds2 c2 F1 F2 F3 F4 F5 F6 F7. rewrite B3 in F3. pose proof (cleaned_app _ _ _ _ _ Hc0 F3) as Hc2. simpl in Hc2.
  pose proof (ndirty_cleaned ∅ [] ds c c2 ids Hi Hc2 L2 Hidd) as Hn2. assert (0 < length ids)%nat as Hpos by (simpl; lia).
  assert (∀ l i x, owner_ok (ds_dom ds) (OData l) → (i < 4)%nat → view [] ds c l i x → view [] ds2 c2 l i x) as Hv2.
  { intros l i x Ho Hi4 Hv. apply F4; [done|done|]. by apply B9. }
  assert (∀ id, selected (dc_entries c2) tag end_ id ↔ selected (dc_entries c) tag end_ id ∧ id ∉ ids) as Hsel2.
  { intros id. unfold selected. rewrite (cleaned_dirty _ _ _ _ Hc2), (cleaned_lpa _ _ _ _ Hc2). tauto. }
  apply (IH index' ds2 c2); [done| | |lia| |].
  - destruct Hc2 as (_ & -> & _). done.
  - destruct Hr as [Hr Hb]. rewrite Hn2 in Hr, Hb. split.
    + apply F5. rewrite Elen, Nat.add_assoc. exact Hr.
    + rewrite Elen in F6. change (ds_dom (with_mach m1 ds)) with (ds_dom ds) in F6. lia.
  - intros id Hs. rewrite (cleaned_lpa _ _ _ _ Hc2). apply Hsel2 in Hs as [Hs Hni].
    destruct (Z.lt_ge_cases (lpa_of (dc_entries c) id) index') as [Hl|]; [|done]. destruct Hni. apply L5; [by eapply Hsome|by apply Hdone|done|by left].
  - intros ds3 c3 [G1 G2 (ids3 & G3) G4 G5 G6 G7]. apply HQ. split; try done.
    + eapply same_consts_trans; [exact F2|exact G2].
    + exists (ids ++ ids3). by eapply cleaned_app.
    + intros l i x Ho Hi4 Hv. apply G5; [by apply (owner_ok_same _ _ _ F2)|done|by apply Hv2].
    + rewrite G7, F7. by apply (ms_fs _ _ _ Hmst).
Qed.

Lemma wp_flush_cache_range m B tag start end_ ds c fl h (Q : () → dc → Prop) : end_ ≤ LPA_MAX → start ≤ 0 →
  dci ∅ [] ds c → height (dc_root c) ≤ Z.of_nat AVL_MAX_DEPTH → flush_room m B ds c →
  (∀ ds' c', flushed m B (λ m, selected m tag end_) ds c ds' c' → Q tt (mk ds' c' fl h)) →
  wp (flush_cache_range nsid tag start end_) Q (mk ds c fl h).
Proof.
  intros He Hs Hi Hh Hr HQ. unfold flush_cache_range. wp_step. apply wp_cache.
  apply (wp_flush_range_loop m B); try done.
  - unfold ndirty. pose proof (length_filter (dirty (dc_entries c)) (inorder (dc_root c))). lia.
  - intros id [Hd _]. unfold dirty in Hd. destruct (dc_entries c !! id) as [e|] eqn:He0; [|done].
    unfold lpa_of. rewrite (ce_keys_Some _ _ _ He0). destruct (ci_entry _ _ _ _ _ _ _ _ Hi _ _ He0) as [_ O2 _ _ _ _]. simpl in O2. lia.
Qed.

(** * The synchronous flush *)
Definition idle : flushers := Flushers 0 (replicate (Z.to_nat NR_FLUSHERS) None).
(** The flushers after the turns [pre]. *)
Record fl_state (pre : list Z) (f : flushers) : Prop := {
  fs_active : 0 ≤ flusher_active f ∧ ∀ i, Z.testbit (flusher_active f) i = bool_decide (0 ≤ i < 8 ∧ i ∉ pre);
  fs_nsid : length (flusher_nsid f) = 8%nat ∧
    ∀ i, 0 ≤ i < 8 → flusher_nsid f !! Z.to_nat i = Some (if decide (i ∈ pre) then None else Some nsid);
}.
Lemma wp_assign_all (Q : () → dc → Prop) ds c h :
  (∀ f, fl_state [] f → Q tt (mk ds c f h)) → wp (for_each (seqZ 0 NR_FLUSHERS) (assign_flusher nsid)) Q (mk ds c idle h).
Proof.
  intros HQ. assert (for_each (seqZ 0 NR_FLUSHERS) (assign_flusher nsid) (mk ds c idle h) =
    Some (tt, mk ds c (Flushers 255 (replicate 8 (Some nsid))) h)) as E by reflexivity.
  unfold wp. rewrite E. apply HQ. split; simpl.
  - split; [done|]. intros i. destruct (Z.lt_ge_cases i 0); [rewrite Z.testbit_neg_r by done; by rewrite bool_decide_eq_false_2 by lia|].
    change 255 with (Z.ones 8). rewrite Z.testbit_ones by lia. rewrite (proj2 (Z.leb_le 0 i)) by done. simpl.
    destruct (Z.ltb_spec i 8); [by rewrite bool_decide_eq_true_2 by set_solver|by rewrite bool_decide_eq_false_2 by lia].
  - split; [done|]. intros i Hi. apply (lookup_replicate_2 8). lia.
Qed.
Lemma fl_state_turn pre i f : fl_state pre f → 0 ≤ i < 8 →
  fl_state (pre ++ [i]) (Flushers (Z.clearbit (flusher_active f) i) (<[Z.to_nat i := None]> (flusher_nsid f))).
Proof.
  intros [[H0 Hb] [Hl Hn]] Hi. split; simpl.
  - split; [by apply Z.ldiff_nonneg; left|]. intros j. destruct (decide (j = i)) as [->|Hne].
    + rewrite Z.clearbit_eq, bool_decide_eq_false_2 by set_solver. done.
    + rewrite Z.clearbit_neq, Hb by done. apply bool_decide_ext. set_solver.
  - split; [by rewrite length_insert|]. intros j Hj. destruct (decide (j = i)) as [->|Hne].
    + rewrite list_lookup_insert_eq by lia. by rewrite decide_True by set_solver.
    + rewrite list_lookup_insert_ne, Hn by lia. f_equal. destruct (decide (j ∈ pre)), (decide (j ∈ pre ++ [i])); set_solver.
Qed.
Lemma fl_state_idle pre f : fl_state pre f → (∀ i, 0 ≤ i < 8 → i ∈ pre) → f = idle.
Proof.
  intros [[H0 Hb] [Hl Hn]] Hall. destruct f as [a l]. simpl in *. unfold idle. f_equal.
  - apply Z.bits_inj_0. intros j. rewrite Hb. apply bool_decide_eq_false_2. intros [Hj Hj2]. by apply Hj2, Hall.
  - apply list_eq. intros k. destruct (Nat.lt_ge_cases k 8) as [Hk|Hk].
    + specialize (Hn (Z.of_nat k) ltac:(lia)). rewrite Nat2Z.id in Hn. rewrite Hn, decide_True by (apply Hall; lia).
      symmetry. by apply lookup_replicate_2.
    + rewrite !lookup_ge_None_2; [done|..]; rewrite ?length_replicate; [change (Z.to_nat NR_FLUSHERS) with 8%nat|]; lia.
Qed.
(** Nothing is dirty and nothing has been lost. *)
Record all_flushed (m : nat) (B : Z) ds c ds' c' : Prop := {
  af_inv : dci ∅ [] ds' c';
  af_consts : same_consts (ds_dom ds) (ds_dom ds');
  af_clean : ∀ id, ¬ dirty (dc_entries c') id;
  af_view : ∀ l i x, owner_ok (ds_dom ds) (OData l) → (i < 4)%nat → view [] ds c l i x → view [] ds' c' l i x;
  af_root : dc_root c' = dc_root c;
  af_room : flush_room m B ds' c';
  af_fs : m_fs (bm_mach (ds_bm ds')) = m_fs (bm_mach (ds_bm ds));
}.
(** With no dirty page, flash holds what the cache shows. *)
Lemma clean_entries ds c : dci ∅ [] ds c → (∀ id, ¬ dirty (dc_entries c) id) →
  ∀ id e, dc_entries c !! id = Some e → ce_status e = CES_CLEAN.
Proof.
  intros Hi Hd id e He. destruct (ci_entry _ _ _ _ _ _ _ _ Hi _ _ He) as [_ _ _ Hn _ _].
  destruct (ce_status e) eqn:Es; try done. destruct (Hd id). unfold dirty. rewrite He. simpl. by rewrite Es.
Qed.
Lemma clean_view ds c l i x : dci ∅ [] ds c → (∀ id, ¬ dirty (dc_entries c) id) → view [] ds c l i x → readsv ds l i x.
Proof.
  intros Hi Hd Hv. unfold view, DataCacheSpec.view in Hv.
  destruct (ccached c l) as [e|] eqn:Ec; [|by apply below_nil in Hv].
  destruct (bit (ce_bitmap e) i) eqn:Eb; [|by apply below_nil in Hv].
  apply (ccached_spec nsid ∅) in Ec as (id & He & Hk); [|apply Hi].
  pose proof (ci_clean _ _ _ _ _ _ _ _ Hi id e i x He (clean_entries _ _ Hi Hd _ _ He) Eb Hv) as Hrd. by rewrite Hk in Hrd.
Qed.
Lemma wp_start_flush_sync m B turns ds c h (Q : () → dc → Prop) : dci ∅ [] ds c → height (dc_root c) ≤ Z.of_nat AVL_MAX_DEPTH →
  flush_room m B ds c → Forall (λ i, 0 ≤ i < 8) turns → (∀ i, 0 ≤ i < 8 → i ∈ turns) →
  (∀ ds' c', all_flushed m B ds c ds' c' → Q tt (mk ds' c' idle h)) →
  wp (start_flush_sync turns nsid) Q (mk ds c idle h).
Proof.
  intros Hi Hh Hr Ht Hall HQ. unfold start_flush_sync. wp_step. apply wp_assign_all. intros f0 Hf0. wp_step.
  eapply wp_mono; [apply (wp_for_each (λ pre s, ∃ ds' c' f, s = mk ds' c' f h ∧ fl_state pre f ∧ dci ∅ [] ds' c' ∧
    same_consts (ds_dom ds) (ds_dom ds') ∧ dc_root c' = dc_root c ∧ flush_room m B ds' c' ∧ m_fs (bm_mach (ds_bm ds')) = m_fs (bm_mach (ds_bm ds)) ∧
    (∀ id, dirty (dc_entries c') id → lpa_of (dc_entries c') id mod NR_FLUSHERS ∉ pre) ∧
    ∀ l i x, owner_ok (ds_dom ds) (OData l) → (i < 4)%nat → view [] ds c l i x → view [] ds' c' l i x) turns)|].
  - exists ds, c, f0. split_and!; try done. set_solver.
  - intros pre i post s' El (ds1 & c1 & f & -> & Hf & Hi1 & Hsc & Hroot & Hr1 & Hfs1 & Hd1 & Hv1).
    assert (0 ≤ i < 8) as Hi8. { rewrite Forall_forall in Ht. apply Ht. rewrite El. set_solver. }
    unfold flusher_turn. wp_step. wp_step. change (dc_flushers _) with f. wp_step. pose proof Hf as [[Ha Hb] [Hl Hn]]. rewrite Hb.
    destruct (bool_decide (0 ≤ i < 8 ∧ i ∉ pre)) eqn:Ebit.
    + apply bool_decide_eq_true in Ebit as [_ Hni]. wp_step. apply wp_deref. exists (Some nsid).
      split; [rewrite Hn by done; by rewrite decide_False by done|]. wp_step. apply wp_deref. exists nsid. split; [done|]. wp_step.
      apply (wp_flush_cache_range m B i 0 LPA_MAX); [done|done|done|by rewrite Hroot|done|].
      intros ds2 c2 [G1 G2 (ids & G3) G4 G5 G6 G7]. unfold upd_flushers. wp_step.
      exists ds2, c2, (Flushers (Z.clearbit (flusher_active f) i) (<[Z.to_nat i := None]> (flusher_nsid f))).
      split; [done|]. split; [by apply fl_state_turn|]. split; [done|]. split; [by eapply same_consts_trans|].
      split; [by destruct G3 as (_ & -> & _)|]. split; [done|]. split; [by rewrite G7|]. split.
      * intros id Hid [Hin|Heq%list_elem_of_singleton]%elem_of_app.
        -- apply (Hd1 id); [by apply (cleaned_dirty _ _ _ _ G3) in Hid as []|]. by rewrite <-(cleaned_lpa _ _ _ _ G3).
        -- apply (G4 id). split; [done|]. split; [done|]. unfold dirty in Hid. destruct (dc_entries c2 !! id) as [e|] eqn:He; [|done].
           unfold lpa_of. rewrite (ce_keys_Some _ _ _ He). destruct (ci_entry _ _ _ _ _ _ _ _ G1 _ _ He) as [_ O2 _ _ _ _]. simpl in O2.
           pose proof (dw_total _ _ _ _ _ (di_dom _ _ _ (ci_inv _ _ _ _ _ _ _ _ G1))) as Htot. unfold LPA_MAX.
           change ENTS with 4096 in O2. lia.
      * intros l i0 x Ho Hi4 Hv. apply G5; [by apply (owner_ok_same _ _ _ Hsc)|done|by apply Hv1].
    + apply bool_decide_eq_false in Ebit. exists ds1, c1, f. split; [done|]. assert (i ∈ pre) as Hip.
      { destruct (decide (i ∈ pre)) as [|Hn']; [done|]. by destruct Ebit. }
      split; [|split_and!; try done].
      * destruct Hf as [[F1 F2] [F3 F4]]. split; (split; [done|]).
        -- intros j. rewrite F2. apply bool_decide_ext. set_solver.
        -- intros j Hj. rewrite F4 by done. f_equal. destruct (decide (j ∈ pre)), (decide (j ∈ pre ++ [i])); set_solver.
      * intros id Hid Hin. apply (Hd1 id Hid). set_solver.
  - intros [] s' (ds1 & c1 & f & -> & Hf & Hi1 & Hsc & Hroot & Hr1 & Hfs1 & Hd1 & Hv1). wp_step. wp_step. change (dc_flushers _) with f.
    rewrite (fl_state_idle _ _ Hf Hall). wp_step; [done|]. apply HQ. split; try done.
    intros id Hid. apply (Hd1 id Hid). apply Hall. apply Z.mod_pos_bound. done.
Qed.
End flush.
