(* ===== verification/DataCacheTheorems.v ===== *)
(** The properties of the data cache: what a write, a write of zeroes, a read
    and a flush do to the sectors of a namespace, that a read returns what was
    written, and the defects of the error paths. *)
From S2P Require Import Prelude Bitmap Avl Flash Machine Sim BlockManager BlockMaps Amu AmuFacts AmuSpec AmuWrite AmuDispatch AmuFlush AmuAttach DataCache DataCacheFacts DataCacheSpec DataCacheWrite DataCacheStore DataCacheRead DataCacheFetch DataCacheFlush AmuTheorems.

#[local] Unset Default Proof Using.
Section theorems.
Context {PL : Platform} {PO : @PlatformOk PL} {EL : @EccLive PL} {AL : @AllocLive PL} {RL : @ReadLive PL}.
Context {WL : @WriteLive PL} {DL : @DmaLive PL}.
Context {HO : Host} {HK : @HostOk HO}.

(** The transactions of two requests for the same sectors. *)
Definition same_range (t t' : flash_transaction) : Prop :=
  t_lpa t = t_lpa t' ∧ t_offset t = t_offset t' ∧ t_length t = t_length t'.
Lemma same_range_len l l' : Forall2 same_range l l' → txn_len <$> l = txn_len <$> l'.
Proof. induction 1 as [|t t' l l' (_ & _ & E) _ IH]; [done|]. rewrite !fmap_cons, IH. unfold txn_len. by rewrite E. Qed.
Lemma same_range_lpa l l' : Forall2 same_range l l' → t_lpa <$> l = t_lpa <$> l'.
Proof. induction 1 as [|t t' l l' (E & _) _ IH]; [done|]. by rewrite !fmap_cons, IH, E. Qed.

(** C16: a write request through the cache, on working devices, succeeds and keeps
    the invariant; afterwards every sector it covers reads as the host's data, in
    the order of the transactions, and every other sector of the namespace reads
    as before, whether it was cached, dirty, evicted on the way or on flash.  There
    is room for what is written back ([amu_room]). *)
Theorem dc_write_correct P nsid ptr u0 fl r0 req l ds c h xs h0 :
  let n := sum_list (txn_len <$> l) in
  rq_req_type req = IOREQ_WRITE → dci P nsid ptr u0 ∅ [] ds c →
  Forall (cache_req nsid ds) l → NoDup (t_lpa <$> l) → (length l ≤ 256)%nat → Z.of_nat (length l) ≤ capacity_pages c →
  amu_room (length l) ds → host_in (rq_target req) n h = Some (R0, xs, h0) →
  ∃ ds' c', dc_process_request r0 req l (mk ptr u0 ds c fl h) = Some (R0, mk ptr u0 ds' c' fl h) ∧
    dci P nsid ptr u0 ∅ [] ds' c' ∧ placed (view nsid [] ds' c') l (host_mem h (rq_target req) n) ∧
    ∀ lpa i x, owner_ok (ds_dom ds) (OData lpa) → (i < 4)%nat →
      (∀ t, t ∈ l → lpa ≠ t_lpa t ∨ bit (t_bitmap t) i = false) →
      view nsid [] ds c lpa i x → view nsid [] ds' c' lpa i x.
Proof.
  intros n Ht Hi Hl Hnd H256 Hcap Hr Hin. unfold dc_process_request. rewrite Ht.
  enough (wp (write_buffers r0 req l false) (λ r s, ∃ ds' c', r = R0 ∧ s = mk ptr u0 ds' c' fl h ∧ stored P nsid ptr u0 ds c l ds' c' ∧
    placed (view nsid [] ds' c') l (host_mem h (rq_target req) n)) (mk ptr u0 ds c fl h)) as Hw.
  { apply wp_run in Hw as (r & s & E & ds' & c' & -> & -> & [S1 _ _ S4] & Hp). exists ds', c'. eauto. }
  apply (wp_write_buffers P nsid ptr u0 fl false r0 req l); try done; [by exists xs, h0|].
  intros ds' c' Hs Hp. by exists ds', c'.
Qed.

(** The same for a write of zeroes, provided that the variable [r] of the C
    code happens to start out as zero. *)
Theorem dc_write_zeroes_correct P nsid ptr u0 fl req l ds c h :
  rq_req_type req = IOREQ_WRITE_ZEROES → dci P nsid ptr u0 ∅ [] ds c →
  Forall (cache_req nsid ds) l → NoDup (t_lpa <$> l) → (length l ≤ 256)%nat → Z.of_nat (length l) ≤ capacity_pages c →
  amu_room (length l) ds →
  ∃ ds' c', dc_process_request R0 req l (mk ptr u0 ds c fl h) = Some (R0, mk ptr u0 ds' c' fl h) ∧
    dci P nsid ptr u0 ∅ [] ds' c' ∧
    (∀ t i, t ∈ l → bit (t_bitmap t) i = true → view nsid [] ds' c' (t_lpa t) i (replicate 1024 0)) ∧
    ∀ lpa i x, owner_ok (ds_dom ds) (OData lpa) → (i < 4)%nat →
      (∀ t, t ∈ l → lpa ≠ t_lpa t ∨ bit (t_bitmap t) i = false) →
      view nsid [] ds c lpa i x → view nsid [] ds' c' lpa i x.
Proof.
  intros Ht Hi Hl Hnd H256 Hcap Hr. unfold dc_process_request. rewrite Ht.
  enough (wp (write_buffers R0 req l true) (λ r s, ∃ ds' c', r = R0 ∧ s = mk ptr u0 ds' c' fl h ∧ stored P nsid ptr u0 ds c l ds' c' ∧
    ∀ t i, t ∈ l → bit (t_bitmap t) i = true → view nsid [] ds' c' (t_lpa t) i (replicate 1024 0)) (mk ptr u0 ds c fl h)) as Hw.
  { apply wp_run in Hw as (r & s & E & ds' & c' & -> & -> & [S1 _ _ S4] & Hp). exists ds', c'. eauto. }
  apply (wp_write_buffers P nsid ptr u0 fl true R0 req l); try done; [by left|]. intros ds' c' Hs Hp. by exists ds', c'.
Qed.

(** C17: a read request for sectors that hold data succeeds, delivers each of them
    to its place in the host's buffer, taking cached sectors from the cache and
    the others from flash, and changes nothing that is stored.  There is room in
    the cache of translation pages for one page per transaction, and the memory of
    the host holds what a transfer wrote to it ([HostReadback]). *)
Theorem dc_read_correct {HR : HostReadback} P nsid ptr u0 fl r0 req l ds c h :
  let n := sum_list (txn_len <$> l) in
  rq_req_type req = IOREQ_READ → dci P nsid ptr u0 ∅ [] ds c →
  Forall (read_cond nsid ds) l → NoDup (t_lpa <$> l) → Forall (readable (view nsid [] ds c)) l →
  pc_size (d_pcache (ds_dom ds)) + Z.of_nat (length l) ≤ pc_capacity (d_pcache (ds_dom ds)) →
  (∀ xs, length xs = n → ∃ h', host_out (rq_target req) xs h = Some (R0, h')) →
  ∃ ds' c' h', dc_process_request r0 req l (mk ptr u0 ds c fl h) = Some (R0, mk ptr u0 ds' c' fl h') ∧
    dci P nsid ptr u0 ∅ [] ds' c' ∧
    (∀ lpa i x, owner_ok (ds_dom ds) (OData lpa) → view nsid [] ds' c' lpa i x ↔ view nsid [] ds c lpa i x) ∧
    ∀ k t i x, l !! k = Some t → (i < txn_len t)%nat → view nsid [] ds c (t_lpa t) (txn_from t + i) x →
      host_mem h' (rq_target req) n !! (sum_list (txn_len <$> take k l) + i)%nat = Some x.
Proof.
  intros n Ht Hi Hl Hnd Hrd Hcap Hh. unfold dc_process_request. rewrite Ht.
  enough (wp (handle_cached_read req l) (λ r s, ∃ ds' c' h', r = R0 ∧ s = mk ptr u0 ds' c' fl h' ∧ dci P nsid ptr u0 ∅ [] ds' c' ∧
    (∀ lpa i x, owner_ok (ds_dom ds) (OData lpa) → view nsid [] ds' c' lpa i x ↔ view nsid [] ds c lpa i x) ∧
    ∀ k t i x, l !! k = Some t → (i < txn_len t)%nat → view nsid [] ds c (t_lpa t) (txn_from t + i) x →
      host_mem h' (rq_target req) n !! (sum_list (txn_len <$> take k l) + i)%nat = Some x) (mk ptr u0 ds c fl h)) as Hw.
  { apply wp_run in Hw as (r & s & E & ds' & c' & h' & -> & -> & H1 & H2 & H3). exists ds', c', h'. eauto. }
  apply (wp_handle_cached_read P nsid ptr u0 fl req l); try done; [by eauto|]. intros ds' c' ys h' H1 _ H2 _ Hlen Hys Eh.
  exists ds', c', h'. split_and!; try done. subst n. rewrite <-Hlen, (host_out_ok _ _ _ _ Eh). exact Hys.
Qed.

(** What a write request takes from the host is what a later read request for
    the same sectors gives back, at whatever place of the host's memory. *)
Theorem dc_read_after_write {HR : HostReadback} P nsid ptr u0 fl r0 r1 wreq rreq l l' ds c h xs h0 :
  let n := sum_list (txn_len <$> l) in
  rq_req_type wreq = IOREQ_WRITE → rq_req_type rreq = IOREQ_READ → dci P nsid ptr u0 ∅ [] ds c →
  Forall (cache_req nsid ds) l → NoDup (t_lpa <$> l) → (length l ≤ 256)%nat → Z.of_nat (length l) ≤ capacity_pages c →
  Forall (read_cond nsid ds) l' → Forall2 same_range l l' →
  amu_room (length l + length l') ds → host_in (rq_target wreq) n h = Some (R0, xs, h0) →
  (∀ ys, length ys = n → ∃ h', host_out (rq_target rreq) ys h = Some (R0, h')) →
  ∃ ds' c' h', (dc_process_request r0 wreq l ≫= λ r, dc_process_request r1 rreq l' ≫= λ r', mret (r, r')) (mk ptr u0 ds c fl h) =
      Some ((R0, R0), mk ptr u0 ds' c' fl h') ∧
    dci P nsid ptr u0 ∅ [] ds' c' ∧ take n (host_mem h' (rq_target rreq) n) = host_mem h (rq_target wreq) n.
Proof.
  intros n Hw Hr Hi Hl Hnd H256 Hcap Hl' Hsr Hroom Hin Hout.
  pose proof (host_in_len _ _ _ _ _ _ Hin) as Hxs. destruct (host_in_ok _ _ _ _ _ Hin) as [Exs _]. subst xs.
  enough (wp (dc_process_request r0 wreq l ≫= λ r, dc_process_request r1 rreq l' ≫= λ r', mret (r, r'))
    (λ r s, ∃ ds' c' h', r = (R0, R0) ∧ s = mk ptr u0 ds' c' fl h' ∧ dci P nsid ptr u0 ∅ [] ds' c' ∧
       take n (host_mem h' (rq_target rreq) n) = host_mem h (rq_target wreq) n) (mk ptr u0 ds c fl h)) as Hq.
  { apply wp_run in Hq as (r & s & E & ds' & c' & h' & -> & -> & H). eauto. }
  assert (amu_room (length l) ds) as Hroom1 by (destruct Hroom as [R1 R2]; split; [lia|eapply bm_ready_le; [|exact R2]; lia]).
  unfold dc_process_request. rewrite Hw, Hr. wp_step.
  apply (wp_write_buffers P nsid ptr u0 fl false r0 wreq l); try done; [by eauto|]. intros ds1 c1 [S1 S2 S3 S4] Hp. wp_step.
  assert (Forall (read_cond nsid ds1) l') as Hl1.
  { eapply Forall_impl; [exact Hl'|]. intros t []. split; [by eapply cache_req_consts|done]. }
  assert (∀ k t' i, l' !! k = Some t' → (i < txn_len t')%nat → ∃ x,
    host_mem h (rq_target wreq) n !! (sum_list (txn_len <$> take k l') + i)%nat = Some x ∧
    view nsid [] ds1 c1 (t_lpa t') (txn_from t' + i) x) as Hv.
  { intros k t' i Hk Hlt. destruct (Forall2_lookup_r _ _ _ _ _ Hsr Hk) as (t & Ht & E1 & E2 & E3).
    assert (txn_len t = txn_len t') as El by (unfold txn_len; by rewrite E3).
    assert (txn_from t = txn_from t') as Ef by (unfold txn_from; by rewrite E2).
    rewrite !fmap_take, <-(same_range_len _ _ Hsr), <-fmap_take.
    destruct (host_mem h (rq_target wreq) n !! (sum_list (txn_len <$> take k l) + i)%nat) as [x|] eqn:Ex.
    - exists x. split; [done|]. rewrite <-E1, <-Ef. by eapply Hp; [exact Ht|lia|].
    - exfalso. apply lookup_ge_None in Ex. rewrite Hxs in Ex. subst n. rewrite <-(take_drop_middle _ _ _ Ht) in Ex at 1.
      rewrite fmap_app, fmap_cons, sum_list_with_app in Ex.
      change (sum_list (txn_len t :: ?x)) with (txn_len t + sum_list x)%nat in Ex. lia. }
  pose proof (same_range_len _ _ Hsr) as El.
  apply (wp_handle_cached_read P nsid ptr u0 fl rreq l'); try done.
  - by rewrite <-(same_range_lpa _ _ Hsr).
  - rewrite Forall_forall. intros t' Ht'. destruct (list_elem_of_lookup_1 _ _ Ht') as (k & Hk). intros i Hb.
    rewrite Forall_forall in Hl'. destruct (Hl' t' Ht') as [[? ? ? ? ? Hc] _]. apply Hc in Hb.
    destruct (Hv k t' (i - txn_from t')%nat Hk ltac:(lia)) as (x & _ & Hx). exists x.
    by replace (txn_from t' + (i - txn_from t'))%nat with i in Hx by lia.
  - destruct (S3 (length l') Hroom) as [? _]. lia.
  - intros ys Hys _. apply Hout. by rewrite Hys, <-El.
  - intros ds2 c2 ys h2 H1 _ H2 _ Hlen Hys Eh. wp_step. exists ds2, c2, h2. split; [done|]. split; [done|]. split; [done|].
    apply list_eq. intros j. destruct (decide (j < n)%nat) as [Hj|Hj].
    + rewrite lookup_take_lt by done. subst n. rewrite El in Hj |- *. destruct (txns_index _ _ Hj) as (k & t' & i & Hk & Hlt & ->).
      destruct (Hv k t' i Hk Hlt) as (x & Hx & Hvx). rewrite El in Hx. rewrite Hx, <-Hlen, (host_out_ok _ _ _ _ Eh). by eapply Hys.
    + rewrite lookup_take_ge by lia. symmetry. apply lookup_ge_None. lia.
Qed.

(** However the flushers take their turns, as long as each gets one, a
    synchronous flush ends with no dirty page, every flusher idle again, and
    every sector that could be read before now readable from flash alone. *)
Theorem dc_flush_durable P nsid ptr u0 turns ds c h :
  dci P nsid ptr u0 ∅ [] ds c → height (dc_root c) ≤ Z.of_nat AVL_MAX_DEPTH → amu_room (ndirty c) ds →
  Forall (λ i, 0 ≤ i < 8) turns → (∀ i, 0 ≤ i < 8 → i ∈ turns) →
  ∃ ds' c', dc_flush_ns turns nsid (mk ptr u0 ds c idle h) = Some (tt, mk ptr u0 ds' c' idle h) ∧
    dci P nsid ptr u0 ∅ [] ds' c' ∧
    (∀ id e, dc_entries c' !! id = Some e → ce_status e = CES_CLEAN) ∧
    ∀ lpa i x, owner_ok (ds_dom ds) (OData lpa) → (i < 4)%nat → view nsid [] ds c lpa i x → readsv ds' lpa i x.
Proof.
  intros Hi Hh Hr Ht Hall. unfold dc_flush_ns.
  enough (wp (start_flush_sync turns nsid) (λ _ s, ∃ ds' c', s = mk ptr u0 ds' c' idle h ∧ all_flushed P nsid ptr u0 0 (pc_size (d_pcache (ds_dom ds)) + Z.of_nat (ndirty c)) ds c ds' c') (mk ptr u0 ds c idle h)) as Hw.
  { apply wp_run in Hw as ([] & s & E & ds' & c' & -> & [F1 F2 F3 F4 _ _ _]). exists ds', c'. split; [done|]. split; [done|].
    split; [by eapply clean_entries|]. intros lpa i x Ho Hi4 Hv. eapply clean_view; [done..|]. by apply F4. }
  eapply (wp_start_flush_sync P nsid ptr u0 0 _ turns ds c h); try done; [split; [by rewrite Nat.add_0_r|done]|]. intros ds' c' Hf. by exists ds', c'.
Qed.
End theorems.

(** * Examples *)

(** A host whose memory maps PRPs to sectors; the transfer from PRP 0 fails. *)
#[export] Instance sim_host : Host := {|
  host := gmap target (list sector);
  host_mem h p n := resize n [] (default [] (h !! p));
  host_in p n h := Some (if decide (p = (0, 0, 0)) then Err EIO else R0, resize n [] (default [] (h !! p)), h);
  host_out p l h := Some (R0, <[p := l]> h);
|}.
#[export] Instance sim_host_ok : HostOk.
Proof.
  split; cbn.
  - intros p n h e l h' E. injection E as _ <- _. apply length_resize.
  - intros p n h l h' E. by injection E as _ <- <-.
Qed.
#[export] Instance sim_host_readback : HostReadback.
Proof. intros p l h h' E. injection E as <-. cbn. rewrite lookup_insert_eq. by rewrite resize_all. Qed.
Definition ex_host : @host sim_host := {[ (1, 0, 0) := [[1]; [2]; [3]; [4]; [5]; [6]] ]}.
Definition ex_dc0 (cap : Z) : data_cache := dc_init (cap * FLASH_PG_SIZE).
(** Page 5 of namespace 1, dirty, in buffer 1. *)
Definition ex_entry : cache_entry := Ce (1, 5) 15 CES_DIRTY 0 false 1.
Definition ex_dc1 : data_cache := Dcache 2 1 (Node Leaf 7 1 Leaf) [7] {[7 := ex_entry]} 0 0.
Definition ex_req (ty : ioreq) (p : Z) : user_request := Req ty 1 0 6 (p, 0) 0.
Definition ex_part (ty : txn_type) (lpa bitmap offset len : Z) : flash_transaction :=
  Txn true ty TS_USER_IO 1 lpa 0 zero_addr bitmap false 0 0 offset len 0 0 0 0.
(** The last two sectors of page 0 and all of page 1. *)
Definition ex_parts (ty : txn_type) : list flash_transaction :=
  [ex_part ty 0 12 8192 8192; ex_part ty 1 15 0 16384].
Definition ex_page (ty : txn_type) (lpa : Z) : list flash_transaction := [ex_part ty lpa 15 0 16384].

Lemma ex_dci0 cap : dci ex_P 1 9 ex_u ∅ [] ex_s (ex_dc0 cap).
Proof.
  split; try done; try (intros ? []%elem_of_nil); try apply NoDup_nil_2.
  - exact ex_inv.
  - split; try done; try apply NoDup_nil_2.
    + split; constructor.
    + intros id. cbn. split; [by intros []%elem_of_nil|by intros []].
    + intros id. cbn. split; [by intros []%elem_of_nil|by intros [[] _]].
  - intros l Hl. apply ex_programmed. cbn in Hl. change (ENTS * pages_of 8192) with 8192 in Hl. done.
Qed.
Lemma ex_dci1 : dci ex_P 1 9 ex_u ∅ [] ex_s ex_dc1.
Proof.
  assert (∀ id e, dc_entries ex_dc1 !! id = Some e → id = 7 ∧ e = ex_entry) as He.
  { intros id e. cbn. intros [<- <-]%lookup_singleton_Some. done. }
  assert (∀ id, is_Some (dc_entries ex_dc1 !! id) ↔ id ∈ [7]) as Hs.
  { intros id. split; [intros [e [-> _]%He]; by left|intros ->%list_elem_of_singleton; by eexists]. }
  split; try done; try (intros ? []%elem_of_nil); try apply NoDup_nil_2.
  - exact ex_inv.
  - split; try done.
    + split; [repeat constructor|done].
    + apply NoDup_singleton.
    + intros id. rewrite Hs. cbn [dc_lru_list ex_dc1]. set_solver.
    + intros id e [-> ->]%He. done.
  - intros id e [-> ->]%He. by split.
  - by intros i j d e [-> _]%He [-> _]%He.
  - by intros id e i x [-> ->]%He.
  - intros l Hl. apply ex_programmed. cbn in Hl. change (ENTS * pages_of 8192) with 8192 in Hl. done.
Qed.
Lemma ex_part_req ty lpa bm from len : 0 ≤ lpa < 8192 → 0 < bm < 16 → (from + len ≤ 4)%nat →
  (∀ i, Z.testbit bm (Z.of_nat i) = true ↔ (from ≤ i < from + len)%nat) →
  cache_req 1 ex_s (ex_part ty lpa bm (SECTOR_SIZE * Z.of_nat from) (SECTOR_SIZE * Z.of_nat len)).
Proof.
  intros Hl Hb Hf Hi.
  assert (∀ k, Z.to_nat (SECTOR_SIZE * Z.of_nat k / SECTOR_SIZE) = k) as Hk.
  { intros k. rewrite Z.mul_comm, Z.div_mul by done. lia. }
  split; unfold txn_from, txn_len; cbn [ex_part t_offset t_length t_nsid t_lpa t_bitmap]; rewrite ?Hk; try done.
Qed.
Lemma ex_bits (bm : Z) (from len : nat) : 0 < bm < 16 → (from + len ≤ 4)%nat →
  Forall (λ i, Z.testbit bm (Z.of_nat i) = bool_decide (from ≤ i < from + len)%nat) (seq 0 4) →
  ∀ i, Z.testbit bm (Z.of_nat i) = true ↔ (from ≤ i < from + len)%nat.
Proof.
  intros Hb Hf Hall i. destruct (decide (i < 4)%nat) as [Hi|Hi].
  - rewrite Forall_forall in Hall. rewrite (Hall i) by (apply elem_of_seq; lia). apply bool_decide_eq_true.
  - rewrite Z.bits_above_log2; [split; [done|lia]|lia|]. assert (Z.log2 bm < 4); [|lia]. apply Z.log2_lt_pow2; lia.
Qed.
Lemma ex_parts_req ty : Forall (cache_req 1 ex_s) (ex_parts ty).
Proof.
  constructor; [|constructor; [|constructor]]; [apply (ex_part_req ty 0 12 2 2)|apply (ex_part_req ty 1 15 0 4)]; try lia;
    apply ex_bits; try lia; by repeat constructor.
Qed.
Lemma ex_room n : (n ≤ 16)%nat → amu_room n ex_s.
Proof. intros Hn. split; [cbn; lia|]. apply ready_planes_ready. lia. Qed.
Lemma ex_reads_req : Forall (read_cond 1 ex_s) (ex_parts TXN_READ).
Proof.
  pose proof (ex_parts_req TXN_READ) as H. unfold ex_parts in *. rewrite !Forall_cons in *. destruct H as (H1 & H2 & _).
  split; [by split|]. split; [by split|constructor].
Qed.
Lemma ex_nodup ty : NoDup (t_lpa <$> ex_parts ty).
Proof. apply (bool_decide_unpack _). by vm_compute. Qed.
Lemma ex_page_req ty : cache_req 1 ex_s (ex_part ty 5 15 0 16384).
Proof. apply (ex_part_req ty 5 15 0 4); [lia|lia|lia|]. apply ex_bits; try lia. by repeat constructor. Qed.

Theorem dc_write_correct_witness : ∃ ds' c', dc_process_request R0 (ex_req IOREQ_WRITE 1) (ex_parts TXN_WRITE)
    (mk 9 ex_u ex_s (ex_dc0 2) idle ex_host) = Some (R0, mk 9 ex_u ds' c' idle ex_host) ∧ view 1 [] ds' c' 1 0 [3].
Proof.
  destruct (dc_write_correct ex_P 1 9 ex_u idle R0 (ex_req IOREQ_WRITE 1) (ex_parts TXN_WRITE) ex_s (ex_dc0 2) ex_host
    [[1]; [2]; [3]; [4]; [5]; [6]] ex_host) as (ds' & c' & E & _ & Hp & _).
  - reflexivity.
  - apply ex_dci0.
  - apply ex_parts_req.
  - apply ex_nodup.
  - simpl. lia.
  - vm_compute. discriminate.
  - apply ex_room. simpl. lia.
  - vm_compute. reflexivity.
  - exists ds', c'. split; [exact E|].
    apply (Hp 1%nat (ex_part TXN_WRITE 1 15 0 16384) 0%nat [3]); [reflexivity|apply Nat.ltb_lt; reflexivity|reflexivity].
Defined.
Theorem dc_write_zeroes_correct_witness : ∃ ds' c', dc_process_request R0 (ex_req IOREQ_WRITE_ZEROES 1) (ex_parts TXN_WRITE)
    (mk 9 ex_u ex_s (ex_dc0 2) idle ex_host) = Some (R0, mk 9 ex_u ds' c' idle ex_host) ∧ view 1 [] ds' c' 1 0 (replicate 1024 0).
Proof.
  destruct (dc_write_zeroes_correct ex_P 1 9 ex_u idle (ex_req IOREQ_WRITE_ZEROES 1) (ex_parts TXN_WRITE) ex_s (ex_dc0 2) ex_host)
    as (ds' & c' & E & _ & Hz & _).
  - reflexivity.
  - apply ex_dci0.
  - apply ex_parts_req.
  - apply ex_nodup.
  - simpl. lia.
  - vm_compute. discriminate.
  - apply ex_room. simpl. lia.
  - exists ds', c'. split; [exact E|].
    apply (Hz (ex_part TXN_WRITE 1 15 0 16384) 0%nat); [right; left|reflexivity].
Defined.
Theorem dc_read_correct_witness : ∃ ds' c' h', dc_process_request R0 (ex_req IOREQ_READ 2) (ex_page TXN_READ 5)
    (mk 9 ex_u ex_s ex_dc1 idle ex_host) = Some (R0, mk 9 ex_u ds' c' idle h') ∧ host_mem h' (2, 0, 0) 4 !! 3%nat = Some [7].
Proof.
  assert (∀ i, (i < 4)%nat → view 1 [] ex_s ex_dc1 5 i [7]) as Hv.
  { intros i Hi. do 4 (destruct i as [|i]; [by exists (ex_buf 7)|]). lia. }
  destruct (dc_read_correct ex_P 1 9 ex_u idle R0 (ex_req IOREQ_READ 2) (ex_page TXN_READ 5) ex_s ex_dc1 ex_host)
    as (ds' & c' & h' & E & _ & _ & Hm).
  - reflexivity.
  - apply ex_dci1.
  - constructor; [|constructor]. split; [apply ex_page_req|split; reflexivity].
  - apply NoDup_singleton.
  - constructor; [|constructor]. intros i Hi. exists [7]. apply Hv. apply (cq_cover _ _ _ (ex_page_req TXN_READ)) in Hi. apply Hi.
  - vm_compute. discriminate.
  - intros xs _. eexists. reflexivity.
  - exists ds', c', h'. split; [exact E|].
    apply (Hm 0%nat (ex_part TXN_READ 5 15 0 16384) 3%nat [7]); [reflexivity|apply Nat.ltb_lt; reflexivity|].
    apply Hv. apply Nat.ltb_lt. reflexivity.
Defined.
Theorem dc_read_after_write_witness : ∃ ds' c' h',
  (dc_process_request R0 (ex_req IOREQ_WRITE 1) (ex_parts TXN_WRITE) ≫= λ r,
   dc_process_request R0 (ex_req IOREQ_READ 2) (ex_parts TXN_READ) ≫= λ r', mret (r, r'))
    (mk 9 ex_u ex_s (ex_dc0 2) idle ex_host) = Some ((R0, R0), mk 9 ex_u ds' c' idle h') ∧
  take 6 (host_mem h' (2, 0, 0) 6) = [[1]; [2]; [3]; [4]; [5]; [6]].
Proof.
  destruct (dc_read_after_write ex_P 1 9 ex_u idle R0 R0 (ex_req IOREQ_WRITE 1) (ex_req IOREQ_READ 2)
    (ex_parts TXN_WRITE) (ex_parts TXN_READ) ex_s (ex_dc0 2) ex_host
    [[1]; [2]; [3]; [4]; [5]; [6]] ex_host) as (ds' & c' & h' & E & _ & Hp).
  - reflexivity.
  - reflexivity.
  - apply ex_dci0.
  - apply ex_parts_req.
  - apply ex_nodup.
  - simpl. lia.
  - vm_compute. discriminate.
  - apply ex_reads_req.
  - repeat constructor.
  - apply ex_room. simpl. lia.
  - vm_compute. reflexivity.
  - intros ys _. eexists. reflexivity.
  - exists ds', c', h'. split; [exact E|exact Hp].
Defined.
Theorem dc_flush_durable_witness : ∃ ds' c', dc_flush_ns [3; 5; 1; 0; 2; 4; 7; 6] 1
    (mk 9 ex_u ex_s ex_dc1 idle ex_host) = Some (tt, mk 9 ex_u ds' c' idle ex_host) ∧ readsv ds' 5 2 [7].
Proof.
  destruct (dc_flush_durable ex_P 1 9 ex_u [3; 5; 1; 0; 2; 4; 7; 6] ex_s ex_dc1 ex_host) as (ds' & c' & E & _ & _ & Hd).
  - apply ex_dci1.
  - vm_compute. discriminate.
  - apply ex_room. vm_compute. lia.
  - repeat constructor; lia.
  - intros i Hi. apply list_elem_of_In. simpl. lia.
  - exists ds', c'. split; [exact E|]. apply Hd; [apply ex_owner; lia|lia|].
    exists (ex_buf 7). split; reflexivity.
Defined.

(** * Defects *)

(** Namespace 1, empty, and a cache of [cap] pages. *)
Definition ex_dc (cap : Z) : dc := Dc sim sim_host (Amu sim ex_bm ∅ ∅) (ex_dc0 cap) idle ex_host.
Definition ex_run {A} (cap : Z) (m : ST dc A) : option A :=
  fst <$> (lift (amu_attach_domain 1 (16 * XLATE_PG_SIZE) 8192 true) ≫= λ _, m) (ex_dc cap).
Definition ex_read5 : ST dc (rc * list sector) :=
  r ← dc_process_request R0 (ex_req IOREQ_READ 2) (ex_page TXN_READ 5);
  h ← gets dc_host;
  mret (r, host_mem h (2, 0, 0) 4).

(** Defect.  A write that fails to get its data from the host drops the
    page's entry from the tree but leaves it in the LRU list and in the count.
    When it is evicted, the tree loses whatever entry has the same page: here a
    write that has been acknowledged, without any further error.  The write of
    page 6, which evicts, makes the difference. *)
Theorem dc_failed_write_loses_later_write :
  ex_run 2 (
    a ← dc_process_request R0 (ex_req IOREQ_WRITE 0) (ex_page TXN_WRITE 5);
    b ← dc_process_request R0 (ex_req IOREQ_WRITE 1) (ex_page TXN_WRITE 5);
    '(c, xs) ← ex_read5;
    mret (a, b, c, xs)) = Some (Err EIO, R0, R0, [[1]; [2]; [3]; [4]]) ∧
  ex_run 2 (
    a ← dc_process_request R0 (ex_req IOREQ_WRITE 0) (ex_page TXN_WRITE 5);
    b ← dc_process_request R0 (ex_req IOREQ_WRITE 1) (ex_page TXN_WRITE 5);
    w ← dc_process_request R0 (ex_req IOREQ_WRITE 1) (ex_page TXN_WRITE 6);
    '(c, xs) ← ex_read5;
    mret (a, b, w, c, xs)) = Some (Err EIO, R0, R0, R0, erased_page).
Proof. by vm_compute. Qed.

(** Defect.  A write of part of a page whose transfer fails discards the
    whole page, earlier acknowledged sectors included. *)
Theorem dc_failed_write_discards_page :
  ex_run 2 (
    a ← dc_process_request R0 (ex_req IOREQ_WRITE 1) (ex_page TXN_WRITE 5);
    '(_, xs) ← ex_read5;
    b ← dc_process_request R0 (ex_req IOREQ_WRITE 0) [ex_part TXN_WRITE 5 1 0 4096];
    '(_, ys) ← ex_read5;
    mret (a, xs, b, ys)) = Some (R0, [[1]; [2]; [3]; [4]], Err EIO, erased_page).
Proof. by vm_compute. Qed.

(** Defect.  The clean-up of a write whose pages do not all fit the cache
    dereferences the entry of the transaction that found no room, a null pointer. *)
Theorem dc_write_cache_full_crashes :
  ex_run 1 (dc_process_request R0 (ex_req IOREQ_WRITE 1) (ex_parts TXN_WRITE)) = None.
Proof. by vm_compute. Qed.

(** Defect.  Writing zeroes to pages that are all cached assigns nothing to
    the result: whatever the variable starts out as is returned, and an error
    discards the page. *)
Theorem dc_write_zeroes_indeterminate (e : errno) :
  ex_run 2 (
    a ← dc_process_request (Err e) (ex_req IOREQ_WRITE 1) (ex_page TXN_WRITE 5);
    b ← dc_process_request (Err e) (ex_req IOREQ_WRITE_ZEROES 1) (ex_page TXN_WRITE 5);
    c ← cache;
    mret (a, b, cache_find c 1 5)) = Some (R0, Err e, None).
Proof. by vm_compute. Qed.

(** A NAND array on which every program operation fails. *)
Definition worn_fil (t : fil_task) (b : option buf) (d : sim_nand) : fil_reply * sim_nand :=
  match ft_type t with TXN_WRITE => (FilReply true 0 b 0 50 300, d) | _ => sim_fil t b d end.
Definition worn : Platform := {|
  dev := @dev sim; dev_fil := worn_fil; dev_ecc := @dev_ecc sim; dev_dma := @dev_dma sim; nand := @nand sim;
  alloc_ok := @alloc_ok sim; junk := @junk sim; junk_words := @junk_words sim;
  fs := @fs sim; FIL := @FIL sim; contents := @contents sim; fil_at := @fil_at sim; f_open := @f_open sim;
  f_lseek := @f_lseek sim; f_write := @f_write sim; f_read := @f_read sim; f_close := @f_close sim;
  f_stat := @f_stat sim; f_unlink := @f_unlink sim;
|}.
Definition worn_dc (cap : Z) : @dc worn sim_host :=
  @Dc worn sim_host (@Amu worn (@Bm worn (@Mach worn (∅ : sim_nand) ∅ 16 (∅ : sim_fs) zero_stats) (all_planes ready_plane)) ∅ ∅)
    (ex_dc0 cap) idle ex_host.

(** Defect.  A flush does not look at the result of the dispatch: with every
    program operation failing, it still marks the written page clean, so that
    its eviction will write nothing back; nothing has reached the flash. *)
Theorem dc_flush_ignores_errors :
  (λ p, (p.1, m_dev (bm_mach (am_bm (dc_amu p.2))))) <$>
  (lift (amu_attach_domain 1 (16 * XLATE_PG_SIZE) 8192 true) ≫= λ _,
   a ← @dc_process_request worn sim_host R0 (ex_req IOREQ_WRITE 1) (ex_page TXN_WRITE 5);
   _ ← dc_flush_ns [0; 1; 2; 3; 4; 5; 6; 7] 1;
   c ← cache;
   mret (a, cache_find c 1 5 ≫= λ id, ce_status <$> dc_entries c !! id)) (worn_dc 2) =
  Some ((R0, Some CES_CLEAN), (∅ : sim_nand)).
Proof. by vm_compute. Qed.
