(* ===== verification/DataCacheFrame.v ===== *)
(** What requests leave alone: the capacity of the data cache. *)
From S2P Require Import Prelude Bitmap Avl Flash Machine BlockManager Amu DataCache.

#[local] Unset Default Proof Using.
Section frame.
Context `{Platform} `{Host}.

Definition keeps {A} (m : ST dc A) : Prop := ∀ s a s', m s = Some (a, s') →
  capacity_pages (g_cache s') = capacity_pages (g_cache s).

Lemma keeps_ret {A} (a : A) : keeps (mret a).
Proof. by intros s b s' [= _ ->]. Qed.
Lemma keeps_bind {A B} (m : ST dc A) (f : A → ST dc B) : keeps m → (∀ a, keeps (f a)) → keeps (m ≫= f).
Proof.
  intros Hm Hf s b s'. unfold mbind, ST_bind. destruct (m s) as [[a s1]|] eqn:E; [|done]. intros E2.
  by rewrite (Hf _ _ _ _ E2), (Hm _ _ _ E).
Qed.
Lemma keeps_gets {A} (f : dc → A) : keeps (gets f).
Proof. by intros s b s' [= _ ->]. Qed.
Lemma keeps_assert b : keeps (assert b).
Proof. intros s u s'. unfold assert. destruct b; [by intros [= _ ->]|done]. Qed.
Lemma keeps_deref {A} (o : option A) : keeps (deref o).
Proof. intros s u s'. unfold deref. destruct o; [by intros [= _ ->]|done]. Qed.
Lemma keeps_do_if b m : keeps m → keeps (do_if b m).
Proof. by destruct b; [|intros _; apply keeps_ret]. Qed.
Lemma keeps_lift_amu {A} (m : ST amu A) : keeps (lift m).
Proof. intros s a s'. unfold lift. destruct (m _) as [[? ?]|]; [|done]. by intros [= _ <-]. Qed.
Lemma keeps_lift_mach {A} (m : ST mach A) : keeps (lift m).
Proof. intros s a s'. unfold lift. destruct (m _) as [[? ?]|]; [|done]. by intros [= _ <-]. Qed.
Lemma keeps_upd f : (∀ c, capacity_pages (f c) = capacity_pages c) → keeps (upd_cache f).
Proof. intros Hf s a s' [= _ <-]. apply Hf. Qed.
Lemma keeps_host h : keeps (modify (λ s, Dc _ _ (dc_amu s) (g_cache s) (dc_flushers s) h)).
Proof. by intros s a s' [= _ <-]. Qed.
Lemma keeps_for_each {A} (l : list A) f : (∀ x, keeps (f x)) → keeps (for_each l f).
Proof. intros Hf. induction l as [|x l IH]; [apply keeps_ret|]. by apply keeps_bind. Qed.
Lemma keeps_stuck {A} : keeps (stuck : ST dc A).
Proof. done. Qed.
Lemma keeps_flushers f : keeps (upd_flushers f).
Proof. by intros s a s' [= _ <-]. Qed.
End frame.
Create HintDb keeps.
#[export] Hint Resolve keeps_ret keeps_gets keeps_assert keeps_deref keeps_lift_amu keeps_lift_mach keeps_host keeps_stuck keeps_flushers : keeps.
Ltac keeps_step :=
  match goal with
  | |- keeps (mbind _ _) => apply keeps_bind; [|intros ?]
  | |- keeps (do_if _ _) => apply keeps_do_if
  | |- keeps (for_each _ _) => apply keeps_for_each; intros ?
  | |- keeps (upd_cache _) => apply keeps_upd; by intros []
  | |- keeps (match ?x with _ => _ end) => destruct x
  | |- keeps (let _ := _ in _) => cbv zeta
  end.
Ltac keeps_tac := repeat (eauto 2 with keeps; keeps_step); eauto 2 with keeps.

Section requests.
Context `{Platform} `{Host}.

Lemma keeps_entry_at id : keeps (entry_at id).
Proof. unfold entry_at, cache. keeps_tac. Qed.
Hint Resolve keeps_entry_at : keeps.
Lemma keeps_upd_entry id f : keeps (upd_entry id f).
Proof. unfold upd_entry. keeps_tac. Qed.
Hint Resolve keeps_upd_entry : keeps.
Lemma keeps_pin id : keeps (pin_entry id).
Proof. unfold pin_entry, remove_lru. keeps_tac. Qed.
Lemma keeps_unpin id : keeps (unpin_entry id).
Proof. unfold unpin_entry, add_lru. keeps_tac. Qed.
Lemma keeps_lock id : keeps (lock_entry id).
Proof. apply keeps_upd_entry. Qed.
Lemma keeps_unlock id : keeps (unlock_entry id).
Proof. apply keeps_upd_entry. Qed.
Lemma keeps_add id : keeps (add_entry id).
Proof. unfold add_entry. keeps_tac. Qed.
Lemma keeps_erase id : keeps (erase_entry id).
Proof. unfold erase_entry. keeps_tac. Qed.
Hint Resolve keeps_pin keeps_unpin keeps_lock keeps_unlock keeps_add keeps_erase : keeps.
Lemma keeps_touch id : keeps (cache_touch_lru id).
Proof. unfold cache_touch_lru. keeps_tac. Qed.
Lemma keeps_cache_add n l b : keeps (cache_add n l b).
Proof. unfold cache_add, cache. keeps_tac. Qed.
Lemma keeps_evict : keeps cache_evict_entry.
Proof. unfold cache_evict_entry, cache, remove_lru. keeps_tac. Qed.
Lemma keeps_writeback id : keeps (generate_writeback id).
Proof. unfold generate_writeback. keeps_tac. Qed.
Hint Resolve keeps_touch keeps_cache_add keeps_evict keeps_writeback : keeps.
Lemma keeps_write_entry t : keeps (write_entry t).
Proof. unfold write_entry, cache. keeps_tac. Qed.
Hint Resolve keeps_write_entry : keeps.
Lemma keeps_prepare_writes wz l : ∀ i r, keeps (prepare_writes wz i r l).
Proof. induction l as [|t l IH]; intros i r; cbn [prepare_writes]; keeps_tac. Qed.
Lemma keeps_dma_read req iov : keeps (nvme_dma_read req iov).
Proof. unfold nvme_dma_read. keeps_tac. Qed.
Lemma keeps_dma_write req iov : keeps (nvme_dma_write req iov).
Proof. unfold nvme_dma_write. keeps_tac. Qed.
Hint Resolve keeps_prepare_writes keeps_dma_read keeps_dma_write : keeps.
Lemma keeps_write_buffers r0 req l wz : keeps (write_buffers r0 req l wz).
Proof. unfold write_buffers. keeps_tac. Qed.
Lemma keeps_prepare_reads l : keeps (prepare_reads l).
Proof. induction l as [|t l IH]; cbn [prepare_reads]; unfold cache; keeps_tac. Qed.
Lemma keeps_overlay_all l : ∀ r, keeps (overlay_all r l).
Proof. induction l as [|t l IH]; intros r; cbn [overlay_all]; unfold overlay_cached; keeps_tac. Qed.
Hint Resolve keeps_prepare_reads keeps_overlay_all : keeps.
Lemma keeps_cached_read req l : keeps (handle_cached_read req l).
Proof. unfold handle_cached_read. keeps_tac. Qed.
Hint Resolve keeps_write_buffers keeps_cached_read : keeps.
Lemma keeps_process_request r0 req l : keeps (dc_process_request r0 req l).
Proof. unfold dc_process_request. keeps_tac. Qed.
Lemma keeps_flush_batch n tag a b ids : keeps (flush_batch n tag a b ids).
Proof. induction ids as [|id ids IH]; cbn [flush_batch]; keeps_tac. Qed.
Lemma keeps_finish_batch l : keeps (finish_batch l).
Proof. unfold finish_batch. keeps_tac. Qed.
Lemma keeps_lookup_range n a b tag k : keeps (cache_lookup_range n a b tag k).
Proof. unfold cache_lookup_range, cache. keeps_tac. Qed.
Hint Resolve keeps_flush_batch keeps_finish_batch keeps_lookup_range : keeps.
Lemma keeps_range_loop fuel n tag a b : ∀ i, keeps (flush_range_loop fuel n tag a i b).
Proof. induction fuel as [|fuel IH]; intros i; cbn [flush_range_loop]; keeps_tac. Qed.
Lemma keeps_flush_ns turns n : keeps (dc_flush_ns turns n).
Proof.
  unfold dc_flush_ns, start_flush_sync, assign_flusher, flusher_turn, flush_cache_range, cache.
  pose proof keeps_range_loop. keeps_tac.
Qed.
End requests.
