(* ===== verification/Ftl.v ===== *)
(** The front end of the flash translation layer, ftl/ftl.c: segmentation of
    requests into page transactions, dispatch on the request type, flush and
    sync, the manifest file and namespace management, start-up and shutdown.

    The data cache, the address mapping unit and the block manager below are
    those of DataCache.v, Amu.v and BlockManager.v.  The histograms of the
    statistics are a vendored library: the state keeps the samples recorded. *)
From S2P Require Import Prelude Bitmap Avl Flash Machine BlockManager Amu DataCache.
#[local] Open Scope Z_scope.

(** * Configuration (config.h) *)
Definition CONFIG_STORAGE_CAPACITY_BYTES : Z := Z.shiftl 512 30.
Definition CONFIG_DATA_CACHE_CAPACITY : Z := Z.shiftl 512 20.
Definition CONFIG_MAPPING_TABLE_CAPACITY : Z := Z.shiftl 1 30.
(** The build flags that [ftl_init] tests. *)
Record build_flags := BuildFlags {
  WIPE_SSD : bool; WIPE_MANIFEST : bool; WIPE_MAPPING_TABLE : bool; FULL_BAD_BLOCK_SCAN : bool;
}.

(** * Data *)
Definition MANIFEST_FILENAME : string := "MANIFEST".
Definition MANIFEST_MAGIC : Z := 0x4c54464a.
Definition MANIFEST_VERSION : Z := 1.
Definition IDX2NSID (idx : Z) : Z := idx + 1.

Record namespace_metadata := NsMeta { size_blocks : Z; capacity_blocks : Z; util_blocks : Z }.
Record manifest := Manifest {
  mf_magic : Z;
  mf_version : Z;
  mf_namespace_max : Z;
  allocated_namespace : list Z;
  active_namespace : list Z;
  namespaces : list namespace_metadata;
}.
(** [namespace_info], from types.h. *)
Record namespace_info := NsInfo { ni_active : bool; ni_size_blocks : Z; ni_capacity_blocks : Z; ni_util_blocks : Z }.

(** The histograms of [stats]. *)
Inductive histogram := read_txns_per_req_hist | write_txns_per_req_hist | total_txns_per_req_hist
  | ecc_error_blocks_per_req_hist | read_transfer_time_hist | write_transfer_time_hist
  | read_command_time_hist | write_command_time_hist.
Record ftl `{Platform} `{Host} := Ftl {
  ft_dc : dc;
  ft_manifest : manifest;
  ft_samples : list (histogram * Z);
}.

#[export] Instance ftl_dc_lens `{Platform} `{Host} : Lens ftl dc.
Proof. refine {| lget := ft_dc; lset d s := Ftl _ _ d (ft_manifest s) (ft_samples s) |}. done. Defined.
#[export] Instance ftl_amu_lens `{Platform} `{Host} : Lens ftl amu.
Proof.
  refine {| lget s := dc_amu (ft_dc s); lset u s := Ftl _ _ (lset u (ft_dc s)) (ft_manifest s) (ft_samples s) |}. done.
Defined.
#[export] Instance ftl_bm_lens `{Platform} `{Host} : Lens ftl bm.
Proof.
  refine {| lget s := am_bm (dc_amu (ft_dc s));
            lset b s := let u := dc_amu (ft_dc s) in
                        Ftl _ _ (lset (Amu _ b (am_domains u) (am_active u)) (ft_dc s)) (ft_manifest s) (ft_samples s) |}. done.
Defined.
#[export] Instance ftl_mach_lens `{Platform} `{Host} : Lens ftl mach.
Proof.
  refine {| lget s := bm_mach (am_bm (dc_amu (ft_dc s)));
            lset m s := Ftl _ _ (lset m (ft_dc s)) (ft_manifest s) (ft_samples s) |}. done.
Defined.

(** ** The manifest in memory

    The image of the structure as the 100 doublewords it occupies (little
    endian; [magic] and [version] share one, [namespace_max] is padded). *)
Definition MANIFEST_WORDS : Z := 100.
Definition meta_words (m : namespace_metadata) : list Z := [size_blocks m; capacity_blocks m; util_blocks m].
Definition manifest_words (m : manifest) : list Z :=
  [mf_magic m + 2 ^ 32 * mf_version m; mf_namespace_max m] ++ allocated_namespace m ++ active_namespace m ++
  concat (meta_words <$> namespaces m).
Fixpoint words_meta (ws : list Z) : list namespace_metadata :=
  match ws with
  | s :: c :: u :: ws => NsMeta s c u :: words_meta ws
  | _ => []
  end.
Definition words_manifest (ws : list Z) : manifest :=
  let w0 := default 0 (ws !! 0%nat) in
  Manifest (u32 w0) (Z.shiftr w0 32) (u32 (default 0 (ws !! 1%nat)))
    (take (Z.to_nat (BITCHUNKS NAMESPACE_MAX)) (drop 2 ws))
    (take (Z.to_nat (BITCHUNKS NAMESPACE_MAX)) (drop (2 + Z.to_nat (BITCHUNKS NAMESPACE_MAX)) ws))
    (words_meta (drop (2 + 2 * Z.to_nat (BITCHUNKS NAMESPACE_MAX)) ws)).

(** * Operations *)
Section ops.
Context `{Platform} `{Host}.

Definition the_manifest : ST ftl manifest := gets ft_manifest.
Definition set_manifest (m : manifest) : ST ftl unit := modify (λ s, Ftl _ _ (ft_dc s) m (ft_samples s)).
Definition set_allocated (l : list Z) (m : manifest) : manifest :=
  Manifest (mf_magic m) (mf_version m) (mf_namespace_max m) l (active_namespace m) (namespaces m).
Definition set_active (l : list Z) (m : manifest) : manifest :=
  Manifest (mf_magic m) (mf_version m) (mf_namespace_max m) (allocated_namespace m) l (namespaces m).
Definition set_namespace (i : Z) (x : namespace_metadata) (m : manifest) : manifest :=
  Manifest (mf_magic m) (mf_version m) (mf_namespace_max m) (allocated_namespace m) (active_namespace m)
    (<[Z.to_nat i := x]> (namespaces m)).

(** The second component is what [*info] is set to. *)
Definition ftl_get_namespace (nsid : Z) : ST ftl (rc * option namespace_info) :=
  if (nsid <=? 0) || (NAMESPACE_MAX <? nsid) then mret (Err EINVAL, None)
  else
    let idx := NSID2IDX nsid in
    m ← the_manifest;
    if negb (GET_BIT (allocated_namespace m) idx) then mret (Err ESRCH, None)
    else
      ns_meta ← deref (namespaces m !! Z.to_nat idx);
      mret (R0, Some (NsInfo (GET_BIT (active_namespace m) idx) (size_blocks ns_meta)
                        (capacity_blocks ns_meta) (util_blocks ns_meta))).

(** ** Requests *)
(** One transaction of a request. *)
Definition segment_txn (req : user_request) (slba txn_size : Z) : flash_transaction :=
  let page_offset := slba mod SECTORS_PER_FLASH_PG in
  let bitmap := u64 (Z.lnot (u64 (Z.shiftl ULONG_MAX txn_size))) in
  let bitmap := u64 (Z.shiftl bitmap (slba mod SECTORS_PER_FLASH_PG)) in
  Txn true (if bool_decide (rq_req_type req = IOREQ_READ) then TXN_READ else TXN_WRITE) TS_USER_IO (rq_nsid_ req)
    (slba / SECTORS_PER_FLASH_PG) NO_PPA zero_addr bitmap false 0 0
    (Z.shiftl page_offset SECTOR_SHIFT) (Z.shiftl txn_size SECTOR_SHIFT) 0 0 0 0.
(** [fuel]: every round advances [count] by a sector at least. *)
Fixpoint segment_loop (fuel : nat) (req : user_request) (slba count : Z) : ST ftl (rc * list flash_transaction) :=
  if count <? rq_sector_count req then
    match fuel with
    | O => stuck
    | S fuel =>
        let page_offset := slba mod SECTORS_PER_FLASH_PG in
        let txn_size := SECTORS_PER_FLASH_PG - page_offset in
        let txn_size := if rq_sector_count req <? u32 (count + txn_size) then rq_sector_count req - count else txn_size in
        txn ← lift slaballoc;
        if txn =? 0 then mret (Err ENOMEM, [])
        else
          '(r, l) ← segment_loop fuel req (u64 (slba + txn_size)) (u32 (count + txn_size));
          mret (r, segment_txn req slba txn_size :: l)
    end
  else mret (R0, []).
(** On failure the transactions made so far are released. *)
Definition segment_user_request (req : user_request) : ST ftl (rc * list flash_transaction) :=
  '(r, l) ← segment_loop (Z.to_nat (rq_sector_count req)) req (rq_start_lba req) 0;
  match r with Err _ => mret (r, []) | R0 => mret (r, l) end.

Definition histogram_record (h : histogram) (v : Z) : ST ftl unit :=
  modify (λ s, Ftl _ _ (ft_dc s) (ft_manifest s) (ft_samples s ++ [(h, v)])).
Definition record_request_stats : ST ftl unit :=
  m ← lift get;
  let s := m_stats m in
  histogram_record read_txns_per_req_hist (total_flash_read_txns s) ≫= λ _,
  histogram_record write_txns_per_req_hist (total_flash_write_txns s) ≫= λ _,
  histogram_record total_txns_per_req_hist (u32 (total_flash_read_txns s + total_flash_write_txns s)) ≫= λ _,
  do_if (negb (ecc_error_blocks s =? 0)) (histogram_record ecc_error_blocks_per_req_hist (ecc_error_blocks s)) ≫= λ _,
  do_if (0 <? flash_read_transfer_us s)
    (histogram_record read_transfer_time_hist (flash_read_transfer_us s) ≫= λ _,
     histogram_record read_command_time_hist (flash_read_command_us s)) ≫= λ _,
  do_if (negb (flash_write_transfer_us s =? 0))
    (histogram_record write_transfer_time_hist (flash_write_transfer_us s) ≫= λ _,
     histogram_record write_command_time_hist (flash_write_command_us s)).

(** [r0]: the indeterminate initial value of [r] in [write_buffers]. *)
Definition process_io_request (r0 : rc) (req : user_request) : ST ftl rc :=
  '(r, txn_list) ← segment_user_request req;
  match r with
  | Err _ => mret r
  | R0 =>
      r ← lift (dc_process_request r0 req txn_list);
      record_request_stats ≫= λ _,
      mret r
  end.

(** [turns]: the order in which the flushers run. *)
Definition ftl_flush_ns (turns : list Z) (nsid : Z) : ST ftl rc :=
  lift (dc_flush_ns turns nsid) ≫= λ _,
  lift (amu_save_domain nsid) ≫= λ _,
  mret R0.
Definition ftl_flush_data_ns (turns : list Z) (nsid : Z) : ST ftl rc :=
  lift (dc_flush_ns turns nsid) ≫= λ _,
  mret R0.

(** ** The manifest file *)
Definition save_manifest : ST ftl rc :=
  m ← the_manifest;
  fo ← lift (fat_open MANIFEST_FILENAME FA_CREATE_WRITE);
  match fo with
  | None => mret (Err EIO)
  | Some fil =>
      '(r, fil) ← lift (fat_write_all fil (manifest_words m));
      match r with Err _ => mret r | R0 => lift (fat_close_rc fil) end
  end.
(** A failed allocation is not noticed: the read goes through a null pointer. *)
Definition restore_manifest : ST ftl rc :=
  fo ← lift (fat_open_start MANIFEST_FILENAME FA_READ);
  match fo with
  | None => mret (Err EIO)
  | Some fil =>
      buf ← lift alloc_vmpages;
      assert (negb (buf =? 0)) ≫= λ _,
      '(r, ws, fil) ← lift (fat_read_all fil MANIFEST_WORDS);
      let manifest_buf := words_manifest ws in
      r ← (if negb (is_ok r) then mret (Err EIO)
           else if negb (mf_magic manifest_buf =? MANIFEST_MAGIC) then mret (Err EBADMSG)
           else if negb (mf_version manifest_buf =? MANIFEST_VERSION) then mret (Err ENOTSUP)
           else if negb (mf_namespace_max manifest_buf =? NAMESPACE_MAX) then mret (Err ENOTSUP)
           else set_manifest manifest_buf ≫= λ _, lift (fat_close_rc fil));
      lift (free_mem buf) ≫= λ _,
      mret r
  end.
Definition default_namespace : namespace_metadata :=
  let n := Z.shiftr CONFIG_STORAGE_CAPACITY_BYTES SECTOR_SHIFT in NsMeta n n n.
Definition reset_manifest : ST ftl unit :=
  set_manifest (Manifest MANIFEST_MAGIC MANIFEST_VERSION NAMESPACE_MAX
    (SET_BIT (bitmap_zero NAMESPACE_MAX) 0) (SET_BIT (bitmap_zero NAMESPACE_MAX) 0)
    (<[0%nat := default_namespace]> (replicate (Z.to_nat NAMESPACE_MAX) (NsMeta 0 0 0)))).

(** ** Sync, shutdown, start-up *)
Definition ftl_sync (turns : list Z) : ST ftl unit :=
  for_each (seqZ 0 NAMESPACE_MAX) (λ i,
    m ← the_manifest;
    do_if (GET_BIT (active_namespace m) i)
      (lift (dc_flush_ns turns (IDX2NSID i)) ≫= λ _,
       lift (amu_save_domain (IDX2NSID i)) ≫= λ _, mret tt)) ≫= λ _,
  lift bm_shutdown ≫= λ _,
  save_manifest ≫= λ _,
  mret tt.
Definition ftl_shutdown (turns : list Z) : ST ftl unit := ftl_sync turns.

Definition ftl_process_request (r0 : rc) (turns : list Z) (req : user_request) : ST ftl rc :=
  match rq_req_type req with
  | IOREQ_FLUSH => ftl_flush_ns turns (rq_nsid_ req)
  | IOREQ_FLUSH_DATA => ftl_flush_data_ns turns (rq_nsid_ req)
  | IOREQ_SYNC => ftl_sync turns ≫= λ _, mret R0
  | IOREQ_READ | IOREQ_WRITE | IOREQ_WRITE_ZEROES => process_io_request r0 req
  | IOREQ_OTHER _ => mret (Err EINVAL)
  end.

(** The logical pages of a namespace. *)
Definition ns_pages (x : namespace_metadata) : Z :=
  Z.shiftr (u64 (Z.shiftl (size_blocks x) SECTOR_SHIFT)) FLASH_PG_SHIFT.
(** [panic] stops the machine. *)
Definition ftl_init (cfg : build_flags) : ST ftl unit :=
  let wipe_ssd := WIPE_SSD cfg in
  let wipe_mt := WIPE_SSD cfg || WIPE_MAPPING_TABLE cfg || FULL_BAD_BLOCK_SCAN cfg in
  st ← lift (fat_stat MANIFEST_FILENAME);
  (if negb (bool_decide (st = FR_OK)) || WIPE_MANIFEST cfg
   then reset_manifest ≫= λ _, save_manifest ≫= λ _, mret tt
   else r ← restore_manifest; assert (is_ok r)) ≫= λ _,
  (modify (λ s, Ftl _ _ (Dc _ _ (dc_amu (ft_dc s)) (dc_init CONFIG_DATA_CACHE_CAPACITY) (dc_flushers (ft_dc s)) (dc_host (ft_dc s)))
     (ft_manifest s) []) : ST ftl unit) ≫= λ _,
  lift (bm_init wipe_ssd (FULL_BAD_BLOCK_SCAN cfg)) ≫= λ _,
  for_each (seqZ 0 NAMESPACE_MAX) (λ i,
    m ← the_manifest;
    ns_meta ← deref (namespaces m !! Z.to_nat i);
    do_if (GET_BIT (active_namespace m) i)
      (r ← lift (amu_attach_domain (IDX2NSID i) CONFIG_MAPPING_TABLE_CAPACITY (ns_pages ns_meta) wipe_mt);
       assert (is_ok r))).

(** ** Namespace management *)
(** The new namespace id, or [-ENFILE]; the result of [save_manifest] is ignored
    throughout. *)
Definition ftl_create_namespace (info : namespace_info) : ST ftl (errno + Z) :=
  m ← the_manifest;
  let index := find_next_zero_bit (allocated_namespace m) NAMESPACE_MAX 0 in
  if NAMESPACE_MAX <=? index then mret (inl ENFILE)
  else
    set_manifest (set_allocated (SET_BIT (allocated_namespace m) index)
      (set_namespace index (NsMeta (ni_size_blocks info) (ni_capacity_blocks info) (ni_capacity_blocks info)) m)) ≫= λ _,
    save_manifest ≫= λ _,
    mret (inr (IDX2NSID index)).
Definition ftl_detach_namespace (nsid : Z) : ST ftl rc :=
  if (nsid =? 0) || (NAMESPACE_MAX <? nsid) then mret (Err EINVAL)
  else
    let index := NSID2IDX nsid in
    m ← the_manifest;
    if negb (GET_BIT (active_namespace m) index) then mret (Err ENOENT)
    else
      r ← lift (amu_detach_domain nsid);
      do_if (is_ok r) (set_manifest (set_active (UNSET_BIT (active_namespace m) index) m) ≫= λ _,
                       save_manifest ≫= λ _, mret tt) ≫= λ _,
      mret r.
Definition ftl_delete_namespace (nsid : Z) : ST ftl rc :=
  if (nsid =? 0) || (NAMESPACE_MAX <? nsid) then mret (Err EINVAL)
  else
    let index := NSID2IDX nsid in
    m ← the_manifest;
    if negb (GET_BIT (allocated_namespace m) index) then mret (Err ESRCH)
    else
      r ← (if GET_BIT (active_namespace m) index then ftl_detach_namespace nsid else mret R0);
      match r with
      | Err _ => mret r
      | R0 =>
          r ← lift (amu_delete_domain nsid);
          m ← the_manifest;
          do_if (is_ok r) (set_manifest (set_allocated (UNSET_BIT (allocated_namespace m) index) m) ≫= λ _,
                           save_manifest ≫= λ _, mret tt) ≫= λ _,
          mret r
      end.
Definition ftl_attach_namespace (nsid : Z) : ST ftl rc :=
  if (nsid =? 0) || (NAMESPACE_MAX <? nsid) then mret (Err EINVAL)
  else
    let index := NSID2IDX nsid in
    m ← the_manifest;
    ns_meta ← deref (namespaces m !! Z.to_nat index);
    if negb (GET_BIT (allocated_namespace m) index) then mret (Err ESRCH)
    else if GET_BIT (active_namespace m) index then mret (Err EBUSY)
    else
      r ← lift (amu_attach_domain nsid CONFIG_MAPPING_TABLE_CAPACITY (ns_pages ns_meta) false);
      do_if (is_ok r) (set_manifest (set_active (SET_BIT (active_namespace m) index) m) ≫= λ _,
                       save_manifest ≫= λ _, mret tt) ≫= λ _,
      mret r.
End ops.
