(* ===== verification/FtlSegment.v ===== *)
(** Segmentation of a request: the transactions partition the range of blocks
    in order, one per logical page, and each covers exactly its sectors. *)
From S2P Require Import Prelude Bitmap Avl Flash Machine BlockManager Amu AmuFacts AmuSpec AmuWrite AmuDispatch DataCache DataCacheFacts DataCacheSpec DataCacheWrite DataCacheRead Ftl.

#[local] Unset Default Proof Using.

(** * The transactions *)
(** Range [slba, slba + z) of one page. *)
Definition piece_ok (slba z : Z) : Prop := 0 ≤ slba < 2 ^ 64 ∧ 0 < z ∧ slba mod 4 + z ≤ 4.
Definition piece_bitmap (off z : Z) : Z := u64 (Z.shiftl (u64 (Z.lnot (u64 (Z.shiftl ULONG_MAX z)))) off).
Lemma piece_bitmap_bits off z i : 0 ≤ off → 0 < z → off + z ≤ 4 →
  0 < piece_bitmap off z < 16 ∧ (bit (piece_bitmap off z) i = true ↔ off ≤ Z.of_nat i < off + z).
Proof.
  intros Ho Hz Hs.
  assert (∀ a b : Z, a = off → b = z → 0 < piece_bitmap a b < 16 ∧
    Forall (λ i, Z.testbit (piece_bitmap a b) (Z.of_nat i) = bool_decide (a ≤ Z.of_nat i < a + b)) (seq 0 4)) as Hall.
  { assert (off = 0 ∨ off = 1 ∨ off = 2 ∨ off = 3) as Hof by lia.
    assert (z = 1 ∨ z = 2 ∨ z = 3 ∨ z = 4) as Hzf by lia.
    intros a b -> ->. destruct_or!; subst; try lia; (split; [by vm_compute|by repeat constructor]). }
  destruct (Hall off z eq_refl eq_refl) as [Hb Hf]. split; [done|]. unfold bit.
  destruct (decide (i < 4)%nat) as [Hi|Hi].
  - rewrite Forall_forall in Hf. rewrite (Hf i) by (apply elem_of_seq; lia). apply bool_decide_eq_true.
  - rewrite Z.bits_above_log2; [split; [done|lia]|lia|]. assert (Z.log2 (piece_bitmap off z) < 4); [|lia].
    apply Z.log2_lt_pow2; lia.
Qed.

(** The blocks of a transaction. *)
Definition txn_lbas (t : flash_transaction) : list Z :=
  seqZ (4 * t_lpa t + Z.of_nat (txn_from t)) (Z.of_nat (txn_len t)).
Lemma segment_txn_fields req slba z : piece_ok slba z →
  let t := segment_txn req slba z in
  txn_from t = Z.to_nat (slba mod 4) ∧ txn_len t = Z.to_nat z ∧ t_lpa t = slba / 4 ∧ txn_lbas t = seqZ slba z.
Proof.
  intros (Hs & Hz & Hm) t. pose proof (Z.mod_pos_bound slba 4).
  assert (txn_from t = Z.to_nat (slba mod 4)) as E1.
  { unfold txn_from. simpl. rewrite Z.shiftl_mul_pow2 by done. change (2 ^ SECTOR_SHIFT) with SECTOR_SIZE.
    by rewrite Z.div_mul. }
  assert (txn_len t = Z.to_nat z) as E2.
  { unfold txn_len. simpl. rewrite Z.shiftl_mul_pow2 by done. change (2 ^ SECTOR_SHIFT) with SECTOR_SIZE.
    by rewrite Z.div_mul. }
  split; [done|]. split; [done|]. split; [done|]. unfold txn_lbas. rewrite E1, E2, !Z2Nat.id by lia.
  f_equal. simpl. change SECTORS_PER_FLASH_PG with 4. pose proof (Z.div_mod slba 4). lia.
Qed.
Lemma segment_txn_req `{Platform} nsid (ds : dom_st) req slba z : piece_ok slba z → rq_nsid_ req = nsid → owner_ok (ds_dom ds) (OData (slba / 4)) →
  cache_req nsid ds (segment_txn req slba z).
Proof.
  intros Hp Hn Ho. pose proof Hp as (Hs & Hz & Hm). pose proof (Z.mod_pos_bound slba 4).
  destruct (segment_txn_fields req slba z Hp) as (E1 & E2 & E3 & _).
  assert (t_bitmap (segment_txn req slba z) = piece_bitmap (slba mod 4) z) as Eb by done.
  split; rewrite ?E1, ?E2, ?Eb; try done.
  - by apply (piece_bitmap_bits _ _ 0); lia.
  - rewrite !Z2Nat.id by lia. simpl. rewrite !Z.shiftl_mul_pow2 by done. change (2 ^ SECTOR_SHIFT) with SECTOR_SIZE.
    change SECTORS_PER_FLASH_PG with 4. split; lia.
  - lia.
  - intros i. rewrite (proj2 (piece_bitmap_bits (slba mod 4) z i ltac:(lia) ltac:(lia) ltac:(lia))). lia.
Qed.

(** * The list of transactions *)
(** [l] covers the blocks from [s] up to [e]. *)
Record segments (req : user_request) (s e : Z) (l : list flash_transaction) : Prop := {
  sg_txns : ∀ t, t ∈ l → ∃ b z, t = segment_txn req b z ∧ piece_ok b z ∧ s ≤ b ∧ b + z ≤ e;
  sg_lbas : concat (txn_lbas <$> l) = seqZ s (e - s);
  sg_lpas : NoDup (t_lpa <$> l);
  sg_length : Z.of_nat (length l) = if s <? e then (e + 3) / 4 - s / 4 else 0;
}.

Section segment.
Context {PL : Platform} {HO : Host}.

(** Only the allocation counter moves. *)
Definition bumped (m m' : mach) : Prop := ∃ n, m_next m ≤ n ∧ m' = Mach _ (m_dev m) (m_mem m) n (m_fs m) (m_stats m).
Definition on_mach (m : mach) (s : ftl) : ftl := lset m s.
Lemma bumped_refl m : bumped m m.
Proof. exists (m_next m). split; [done|]. by destruct m. Qed.

Lemma seqZ_split s a b : 0 ≤ a ≤ b → seqZ s b = seqZ s a ++ seqZ (s + a) (b - a).
Proof. intros Ha. rewrite <-seqZ_app by lia. f_equal. lia. Qed.

Lemma wp_segment_loop req : 0 ≤ rq_start_lba req → 0 ≤ rq_sector_count req → rq_sector_count req + 4 < 2 ^ 32 →
  rq_start_lba req + rq_sector_count req < 2 ^ 64 →
  ∀ fuel k s (Q : rc * list flash_transaction → ftl → Prop),
  let e := rq_start_lba req + rq_sector_count req in
  0 ≤ k → k ≤ rq_sector_count req → rq_sector_count req - k ≤ Z.of_nat fuel → 0 < m_next (lget s) →
  (∀ l m', bumped (lget s) m' → segments req (rq_start_lba req + k) e l → Q (R0, l) (on_mach m' s)) →
  (∀ l m', bumped (lget s) m' → (∃ n, m_next (lget s) ≤ n ∧ alloc_ok n = false) → Q (Err ENOMEM, l) (on_mach m' s)) →
  wp (segment_loop fuel req (rq_start_lba req + k) k) Q s.
Proof.
  intros Hs Hn Hn32 He. set (s0 := rq_start_lba req) in *. set (n := rq_sector_count req) in *.
  induction fuel as [|fuel IH]; intros k s Q e Hk Hkn Hf Hx HQ HE; cbn [segment_loop].
  all: destruct (Z.ltb_spec k (rq_sector_count req)) as [Hlt|Hge]; fold n in Hlt || fold n in Hge.
  1: lia.
  1,3: wp_step; specialize (HQ [] (lget s) (bumped_refl _)); destruct s as [[[[[] ?] ? ?] ? ? ?] ? ?]; apply HQ;
    (split; [by intros ? ?%elem_of_nil|subst e; by replace (s0 + n - (s0 + k)) with 0 by lia|constructor|]);
    rewrite (proj2 (Z.ltb_ge _ _)) by lia; done.
  pose proof (Z.mod_pos_bound (s0 + k) 4). pose proof (Z.div_mod (s0 + k) 4).
  change SECTORS_PER_FLASH_PG with 4. set (b := s0 + k) in *.
  set (z := if n <? u32 (k + (4 - b mod 4)) then n - k else 4 - b mod 4).
  assert (z = Z.min (n - k) (4 - b mod 4)) as Hz.
  { subst z. unfold u32. rewrite Z.mod_small by lia. destruct (Z.ltb_spec n (k + (4 - b mod 4))); lia. }
  cbv zeta. fold n. fold z.
  assert (e = s0 + n) as Ee by done. clearbody e z.
  assert (piece_ok b z) as Hp by (unfold piece_ok; lia).
  wp_step. apply wp_lift. unfold wp at 1, slaballoc. set (m1 := Mach _ _ _ _ _ _).
  destruct (alloc_ok (m_next (lget s))) eqn:Hal.
  2:{ rewrite Z.eqb_refl. wp_step. apply (HE [] m1); [|by eexists]. exists (m_next (lget s) + 1). split; [lia|done]. }
  rewrite (proj2 (Z.eqb_neq _ _)) by (simpl in *; lia). wp_step.
  assert (u64 (b + z) = s0 + (k + z)) as -> by (unfold u64; rewrite Z.mod_small; lia).
  assert (u32 (k + z) = k + z) as -> by (unfold u32; rewrite Z.mod_small; lia).
  assert (∀ n', on_mach (Mach _ (m_dev m1) (m_mem m1) n' (m_fs m1) (m_stats m1)) (lset m1 s) =
    on_mach (Mach _ (m_dev (lget s)) (m_mem (lget s)) n' (m_fs (lget s)) (m_stats (lget s))) s) as Est
    by (intros n'; by destruct s as [[[[[] ?] ? ?] ? ? ?] ? ?]).
  apply IH; [lia|lia|lia|simpl in *; lia|..].
  2:{ intros l m' (n' & Hn' & ->) (n2 & Hn2 & Ha2). wp_step. simpl lget. rewrite Est. apply HE; [exists n'|exists n2]; simpl in *; (split; [lia|done]). }
  intros l m' (n' & Hn' & ->) [G1 G2 G3 G4]. wp_step. simpl lget. rewrite Est.
  apply HQ; [exists n'; simpl in *; split; [lia|done]|].
  replace (s0 + (k + z)) with (b + z) in * by lia. rewrite <-Ee in G1, G2, G4.
  destruct (segment_txn_fields req b z Hp) as (_ & _ & E3 & E4).
  assert ((if b + z <? e then (e + 3) / 4 - (b + z) / 4 else 0) = (e + 3) / 4 - b / 4 - 1 ∧ (b + z < e → (b + z) / 4 = b / 4 + 1)) as [Hlen Hnext].
  { destruct (Z.ltb_spec (b + z) e) as [Hbe|Hbe].
    - assert (b + z = 4 * (b / 4 + 1)) as -> by lia. rewrite Z.mul_comm, Z.div_mul by done. lia.
    - assert ((e + 3) / 4 = b / 4 + 1); [|lia]. assert (e = b + z) by lia.
      symmetry. apply (Z.div_unique _ _ _ (e + 3 - 4 * (b / 4 + 1))); lia. }
  split.
  - intros t [->|Ht]%elem_of_cons; [by exists b, z; subst e; unfold piece_ok in Hp; split_and!; try done; lia|].
    destruct (G1 t Ht) as (b' & z' & ? & ? & ? & ?). exists b', z'. unfold piece_ok in Hp. split_and!; try done; lia.
  - rewrite fmap_cons. cbn [concat]. rewrite G2, E4. symmetry.
    rewrite (seqZ_split b z (e - b)) by (unfold piece_ok in Hp; lia).
    by replace (e - (b + z)) with (e - b - z) by lia.
  - rewrite fmap_cons. apply NoDup_cons. split; [|done]. rewrite E3. intros (t & Et & Ht)%list_elem_of_fmap.
    destruct (G1 t Ht) as (b' & z' & -> & Hp' & Hb' & He'). simpl in Et. change SECTORS_PER_FLASH_PG with 4 in Et.
    unfold piece_ok in Hp'. pose proof (Z.div_le_mono (b + z) b' 4). lia.
  - cbn [length]. rewrite Nat2Z.inj_succ, G4, Hlen. rewrite (proj2 (Z.ltb_lt b e)) by lia. lia.
Qed.

(** Either all transactions are made, or an allocation failed. *)
Lemma wp_segment_total req s (Q : rc * list flash_transaction → ftl → Prop) :
  0 ≤ rq_start_lba req → 0 ≤ rq_sector_count req → rq_sector_count req + 4 < 2 ^ 32 →
  rq_start_lba req + rq_sector_count req < 2 ^ 64 → 0 < m_next (lget s) →
  (∀ l m', bumped (lget s) m' → segments req (rq_start_lba req) (rq_start_lba req + rq_sector_count req) l → Q (R0, l) (on_mach m' s)) →
  (∀ m', bumped (lget s) m' → (∃ n, alloc_ok n = false) → Q (Err ENOMEM, []) (on_mach m' s)) →
  wp (segment_user_request req) Q s.
Proof.
  intros Hs Hn Hn32 He Hx HQ HE. unfold segment_user_request. wp_step.
  rewrite <-(Z.add_0_r (rq_start_lba req)) at 1. apply wp_segment_loop; try done; [lia|..].
  - intros l m' Hm Hl. wp_step. apply HQ; [done|]. by rewrite Z.add_0_r in Hl.
  - intros l m' Hm (n & _ & Ha). wp_step. apply HE; [done|by exists n].
Qed.
Lemma wp_segment {AL : @AllocLive PL} req s (Q : rc * list flash_transaction → ftl → Prop) :
  0 ≤ rq_start_lba req → 0 ≤ rq_sector_count req → rq_sector_count req + 4 < 2 ^ 32 →
  rq_start_lba req + rq_sector_count req < 2 ^ 64 → 0 < m_next (lget s) →
  (∀ l m', bumped (lget s) m' → segments req (rq_start_lba req) (rq_start_lba req + rq_sector_count req) l → Q (R0, l) (on_mach m' s)) →
  wp (segment_user_request req) Q s.
Proof. intros. apply wp_segment_total; try done. intros m' _ (n & Ha). by rewrite (AL n) in Ha. Qed.
End segment.
