(* ===== verification/FtlRefine.v ===== *)
(** The flash translation layer serves an abstract block device: a map from
    block numbers to the sectors stored there, and the memory of the host.  Every
    sequence of requests that the block device completes is completed by
    [ftl_process_request] with the same effect on both. *)
From S2P Require Import Prelude Bitmap Avl Flash Machine BlockManager Amu AmuFacts AmuSpec AmuWrite AmuDispatch DataCache DataCacheFacts DataCacheSpec DataCacheWrite DataCacheStore DataCacheRead DataCacheFetch DataCacheFrame Ftl FtlSegment.

#[local] Unset Default Proof Using.

(** * The block device *)
Abbreviation disk := (gmap Z sector).
Section spec.
Context {HO : Host}.
Record bdev := Bdev { bd_disk : disk; bd_host : host }.
Definition zero_sector : sector := replicate 1024 0.
Definition disk_write (slba : Z) (xs : list sector) (d : disk) : disk :=
  list_to_map (zip (seqZ slba (Z.of_nat (length xs))) xs) ∪ d.
(** [None]: the request is out of range, reads a block that was never written,
    or its transfer fails. *)
Definition bd_exec (nblocks : Z) (req : user_request) (b : bdev) : option bdev :=
  let slba := rq_start_lba req in
  let n := Z.to_nat (rq_sector_count req) in
  if decide (0 ≤ slba ∧ 0 ≤ rq_sector_count req ∧ slba + rq_sector_count req ≤ nblocks) then
    match rq_req_type req with
    | IOREQ_WRITE =>
        match host_in (rq_target req) n (bd_host b) with
        | Some (R0, xs, _) => Some (Bdev (disk_write slba xs (bd_disk b)) (bd_host b))
        | _ => None
        end
    | IOREQ_WRITE_ZEROES => Some (Bdev (disk_write slba (replicate n zero_sector) (bd_disk b)) (bd_host b))
    | IOREQ_READ =>
        xs ← mapM (λ lba, bd_disk b !! lba) (seqZ slba (rq_sector_count req));
        match host_out (rq_target req) xs (bd_host b) with
        | Some (R0, h') => Some (Bdev (bd_disk b) h')
        | _ => None
        end
    | _ => None
    end
  else None.
Fixpoint bd_run (nblocks : Z) (reqs : list user_request) (b : bdev) : option bdev :=
  match reqs with [] => Some b | req :: reqs => bd_exec nblocks req b ≫= bd_run nblocks reqs end.
(** The logical pages that a request touches. *)
Definition req_pages (req : user_request) : nat :=
  Z.to_nat ((rq_start_lba req + rq_sector_count req + 3) / 4 - rq_start_lba req / 4).

Lemma disk_write_lookup slba xs d lba : disk_write slba xs d !! lba =
  if decide (slba ≤ lba < slba + Z.of_nat (length xs)) then xs !! Z.to_nat (lba - slba) else d !! lba.
Proof.
  unfold disk_write. set (m := list_to_map _ : disk).
  assert (∀ x, m !! lba = Some x ↔ slba ≤ lba ∧ xs !! Z.to_nat (lba - slba) = Some x) as Hm.
  { intros x. unfold m. rewrite <-elem_of_list_to_map.
    - rewrite elem_of_lookup_zip_with. split.
      + intros (i & a & y & [= <- <-] & Ha & Hy). apply lookup_seqZ in Ha as [-> Hi]. split; [lia|].
        by replace (Z.to_nat (slba + Z.of_nat i - slba)) with i by lia.
      + intros [Hs Hx]. pose proof (lookup_lt_Some _ _ _ Hx). exists (Z.to_nat (lba - slba)), lba, x.
        split; [done|]. split; [|done]. apply lookup_seqZ. lia.
    - rewrite fst_zip; [apply NoDup_seqZ|]. rewrite length_seqZ. lia. }
  case_decide as Hd.
  - destruct (lookup_lt_is_Some_2 xs (Z.to_nat (lba - slba)) ltac:(lia)) as [x Hx].
    rewrite Hx. apply lookup_union_Some_l, Hm. split; [lia|done].
  - apply lookup_union_r, eq_None_not_Some. intros [x Hx]. apply Hm in Hx as [? Hx%lookup_lt_Some]. lia.
Qed.
End spec.

(** * Blocks and transactions *)
Lemma concat_lookup_at {A B} (f : A → list B) (l : list A) k t i : l !! k = Some t → (i < length (f t))%nat →
  concat (f <$> l) !! (sum_list ((λ t, length (f t)) <$> take k l) + i)%nat = f t !! i.
Proof.
  revert k. induction l as [|u l IH]; intros [|k] Hk Hi; [done|done|..].
  - injection Hk as ->. rewrite fmap_cons. cbn [concat]. by rewrite lookup_app_l.
  - rewrite <-(IH k) by done. rewrite fmap_cons. cbn [concat firstn]. rewrite fmap_cons.
    change (sum_list (?x :: ?xs)) with (x + sum_list xs)%nat. rewrite lookup_app_r by lia. f_equal. lia.
Qed.
Section blocks.
Context (req : user_request) (s e : Z) (l : list flash_transaction) (Hl : segments req s e l).

Lemma txn_lbas_length t : length (txn_lbas t) = txn_len t.
Proof. unfold txn_lbas. rewrite length_seqZ. lia. Qed.
(** Position [i] of transaction [k] is a block of the request, and conversely. *)
Lemma seg_block k t i : l !! k = Some t → (i < txn_len t)%nat →
  let j := (sum_list (txn_len <$> take k l) + i)%nat in
  Z.of_nat j < e - s ∧ s + Z.of_nat j = 4 * t_lpa t + Z.of_nat (txn_from t + i).
Proof.
  intros Hk Hi j. pose proof (concat_lookup_at txn_lbas l k t i Hk ltac:(by rewrite txn_lbas_length)) as Hc.
  rewrite (sg_lbas _ _ _ _ Hl) in Hc.
  assert (sum_list ((λ t, length (txn_lbas t)) <$> take k l) = sum_list (txn_len <$> take k l)) as E.
  { f_equal. apply list_fmap_ext. intros ? ? _. apply txn_lbas_length. }
  rewrite E in Hc. fold j in Hc.
  assert (txn_lbas t !! i = Some (4 * t_lpa t + Z.of_nat (txn_from t) + Z.of_nat i)) as Ei by (apply lookup_seqZ; lia).
  rewrite Ei in Hc.
  apply lookup_seqZ in Hc as [Hc ?]. lia.
Qed.
Lemma seg_total : s ≤ e → Z.of_nat (sum_list (txn_len <$> l)) = e - s.
Proof.
  intros Hse. assert (length (concat (txn_lbas <$> l)) = sum_list (txn_len <$> l)) as <-.
  { rewrite length_concat, <-list_fmap_compose. f_equal. apply list_fmap_ext. intros ? ? _. apply txn_lbas_length. }
  rewrite (sg_lbas _ _ _ _ Hl), length_seqZ. lia.
Qed.
Lemma seg_piece t : t ∈ l → (txn_from t + txn_len t ≤ 4)%nat.
Proof.
  intros Ht. destruct (sg_txns _ _ _ _ Hl t Ht) as (b & z & -> & Hp & _).
  destruct (segment_txn_fields req b z Hp) as (-> & -> & _). unfold piece_ok in Hp. pose proof (Z.mod_pos_bound b 4). lia.
Qed.
Lemma seg_block_page k t i : l !! k = Some t → (i < txn_len t)%nat →
  let lba := s + Z.of_nat (sum_list (txn_len <$> take k l) + i) in
  lba / 4 = t_lpa t ∧ Z.to_nat (lba mod 4) = (txn_from t + i)%nat.
Proof.
  intros Hk Hi lba. destruct (seg_block k t i Hk Hi) as [_ E]. fold lba in E.
  pose proof (seg_piece t (list_elem_of_lookup_2 _ _ _ Hk)).
  assert (lba / 4 = t_lpa t) as E1 by (symmetry; apply (Z.div_unique _ _ _ (Z.of_nat (txn_from t + i))); lia).
  split; [done|]. pose proof (Z.div_mod lba 4). lia.
Qed.
Lemma seg_position lba : s ≤ lba < e → ∃ k t i, l !! k = Some t ∧ (i < txn_len t)%nat ∧
  lba = s + Z.of_nat (sum_list (txn_len <$> take k l) + i).
Proof.
  intros Hlba. assert (Z.to_nat (lba - s) < sum_list (txn_len <$> l))%nat as Hj by (pose proof (seg_total ltac:(lia)); lia).
  destruct (txns_index l _ Hj) as (k & t & i & Hk & Hi & E). exists k, t, i. split; [done|]. split; [done|]. lia.
Qed.
(** A sector outside the request is outside each transaction. *)
Lemma seg_outside lba t : t ∈ l → ¬ (s ≤ lba < e) →
  (∀ i, bit (t_bitmap t) i = true ↔ (txn_from t ≤ i < txn_from t + txn_len t)%nat) →
  lba / 4 ≠ t_lpa t ∨ bit (t_bitmap t) (Z.to_nat (lba mod 4)) = false.
Proof.
  intros Ht Hout Hc. destruct (decide (lba / 4 = t_lpa t)) as [E|E]; [right|by left].
  destruct (bit (t_bitmap t) (Z.to_nat (lba mod 4))) eqn:Eb; [|done]. exfalso. apply Hout. apply Hc in Eb.
  apply list_elem_of_lookup in Ht as [k Hk].
  destruct (seg_block k t (Z.to_nat (lba mod 4) - txn_from t)%nat Hk ltac:(lia)) as [H1 H2].
  pose proof (Z.mod_pos_bound lba 4). pose proof (Z.div_mod lba 4). lia.
Qed.
End blocks.

(** * The simulation *)
Section refine.
Context {PL : Platform} {PO : @PlatformOk PL} {EL : @EccLive PL} {AL : @AllocLive PL} {RL : @ReadLive PL}.
Context {WL : @WriteLive PL} {DL : @DmaLive PL}.
Context {HO : Host} {HK : @HostOk HO}.
Context (P : flash_address → Prop) (nsid ptr : Z) (u0 : amu) (fl : flushers).
(** The number of blocks of the namespace, and the pages of the cache. *)
Context (nblocks cap : Z).
Notation mk := (mk ptr u0).
Notation dci := (dci P nsid ptr u0).
Notation view := (view nsid []).

(** The disk [d] is what is stored, and there is room to write [k] more pages. *)
Record serves (k : nat) (d : disk) (ds : dom_st) (c : data_cache) : Prop := {
  sr_inv : dci ∅ [] ds c;
  sr_size : nblocks ≤ 4 * (ENTS * d_total_xlate_pages (ds_dom ds));
  sr_cap : capacity_pages c = cap;
  sr_room : amu_room k ds;
  sr_disk : ∀ lba x, d !! lba = Some x → 0 ≤ lba < nblocks ∧ view ds c (lba / 4) (Z.to_nat (lba mod 4)) x;
}.
Definition ftl_sim (k : nat) (b : bdev) (s : ftl) : Prop := ∃ ds c man smp,
  s = Ftl _ _ (mk ds c fl (bd_host b)) man smp ∧ serves k (bd_disk b) ds c.
Record req_ok (req : user_request) : Prop := {
  ro_nsid : rq_nsid_ req = nsid;
  ro_pages : (req_pages req ≤ 256)%nat ∧ Z.of_nat (req_pages req) ≤ cap;
}.

(** [write_buffers] returns what it assigned to [r]: always but for a write-zeroes
    request of which every page is cached, where nothing is assigned and [r] keeps
    the indeterminate value [r0] it began with. *)
Definition result_assigned (r0 : rc) (req : user_request) (s : ftl) : bool :=
  negb (bool_decide (rq_req_type req = IOREQ_WRITE_ZEROES)) || bool_decide (r0 = R0) ||
  existsb (λ lba, bool_decide (cache_find (g_cache (ft_dc s)) nsid (lba / 4) = None)) (seqZ (rq_start_lba req) (rq_sector_count req)).
Lemma result_assigned_zeroes r0 req s : result_assigned r0 req s = true → rq_req_type req = IOREQ_WRITE_ZEROES →
  r0 = R0 ∨ ∃ lba, rq_start_lba req ≤ lba < rq_start_lba req + rq_sector_count req ∧ cache_find (g_cache (ft_dc s)) nsid (lba / 4) = None.
Proof.
  unfold result_assigned. intros Ha Hz. rewrite bool_decide_eq_true_2 in Ha by done. cbn [negb orb] in Ha.
  apply orb_true_iff in Ha as [Ha%bool_decide_eq_true|Ha]; [by left|right].
  apply existsb_exists in Ha as (lba & Hl%list_elem_of_In%elem_of_seqZ & Hc%bool_decide_eq_true). exists lba. split; [lia|done].
Qed.

Lemma wp_record_stats ds c fl' h man smp (Q : () → ftl → Prop) :
  (∀ smp', Q tt (Ftl _ _ (mk ds c fl' h) man smp')) → wp record_request_stats Q (Ftl _ _ (mk ds c fl' h) man smp).
Proof.
  intros HQ. unfold record_request_stats, histogram_record. wp_step. apply wp_lift, wp_get.
  replace (lset _ _) with (Ftl _ _ (mk ds c fl' h) man smp) by by destruct ds as [[] ?].
  do 3 (wp_step; wp_step). wp_step. wp_step.
  destruct (negb _); wp_steps; (destruct (0 <? _); wp_steps); (destruct (negb _); wp_steps); apply HQ.
Qed.

Lemma serves_mach k d ds c m' : serves k d ds c → bumped (bm_mach (ds_bm ds)) m' → serves k d (with_mach m' ds) c.
Proof.
  intros [Hi Hs Hc [R1 R2] Hd] (n & Hn & ->). set (m' := Mach _ _ _ _ _ _).
  assert (mem_step ds (used c []) m') as Hm.
  { pose proof (di_mem _ _ _ (ci_inv _ _ _ _ _ _ _ _ Hi)) as [M1 M2]. split; try done. split; [simpl; lia|].
    intros id b Hb. destruct (M2 id b Hb). split; [simpl; lia|done]. }
  split; try done.
  by apply dci_mach.
Qed.
Lemma serves_le k k' d ds c : (k' ≤ k)%nat → serves k d ds c → serves k' d ds c.
Proof. intros Hk [? ? ? [? ?] ?]. split; try done. split; [lia|by eapply bm_ready_le]. Qed.
Lemma serves_owner k d ds c lba : serves k d ds c → 0 ≤ lba < nblocks → owner_ok (ds_dom ds) (OData (lba / 4)).
Proof.
  intros [_ Hs _ _ _] Hl. simpl. split; [apply Z.div_pos; lia|]. apply Z.div_lt_upper_bound; lia.
Qed.
Lemma wp_keeps {A} (m : ST dc A) (Q : A → dc → Prop) s : keeps m →
  wp m (λ a s', capacity_pages (g_cache s') = capacity_pages (g_cache s) → Q a s') s → wp m Q s.
Proof. intros Hk (a & s' & E & HQ)%wp_run. apply wp_run. exists a, s'. split; [done|]. by eapply HQ, Hk. Qed.

(** The request is within the device. *)
Definition in_device (req : user_request) : Prop :=
  0 ≤ rq_start_lba req ∧ 0 ≤ rq_sector_count req ∧ rq_start_lba req + rq_sector_count req ≤ nblocks.
Definition req_end (req : user_request) : Z := rq_start_lba req + rq_sector_count req.

Lemma wp_segment_at req k d ds c h man smp (Q : rc * list flash_transaction → ftl → Prop) :
  nblocks < 2 ^ 63 → in_device req → rq_nsid_ req = nsid → (req_pages req ≤ 256)%nat → serves k d ds c →
  (∀ l ds', serves k d ds' c → segments req (rq_start_lba req) (req_end req) l → Forall (cache_req nsid ds') l →
     (length l ≤ req_pages req)%nat → Q (R0, l) (Ftl _ _ (mk ds' c fl h) man smp)) →
  wp (segment_user_request req) Q (Ftl _ _ (mk ds c fl h) man smp).
Proof.
  intros Hnb (Hs & Hn & He) Hns Hpg Hsv HQ.
  assert (rq_sector_count req ≤ 1024) as Hsc.
  { unfold req_pages in Hpg. pose proof (Z.div_mod (rq_start_lba req) 4). pose proof (Z.mod_pos_bound (rq_start_lba req) 4).
    pose proof (Z.div_mod (rq_start_lba req + rq_sector_count req + 3) 4).
    pose proof (Z.mod_pos_bound (rq_start_lba req + rq_sector_count req + 3) 4). lia. }
  apply wp_segment; [done|done|lia|lia|..].
  { pose proof (mw_next _ (di_mem _ _ _ (ci_inv _ _ _ _ _ _ _ _ (sr_inv _ _ _ _ Hsv)))) as Hx. exact Hx. }
  intros l m' Hm Hl. change (on_mach m' (Ftl _ _ (mk ds c fl h) man smp)) with (Ftl _ _ (mk (with_mach m' ds) c fl h) man smp).
  pose proof (serves_mach k d ds c m' Hsv Hm) as Hsv'. apply HQ; [done|done|..].
  - rewrite Forall_forall. intros t Ht. destruct (sg_txns _ _ _ _ Hl t Ht) as (b & z & -> & Hp & ? & ?).
    apply segment_txn_req; [done|done|]. eapply serves_owner; [done|]. unfold piece_ok in Hp. lia.
  - pose proof (sg_length _ _ _ _ Hl) as Hlen. unfold req_pages. destruct (Z.ltb_spec (rq_start_lba req) (rq_start_lba req + rq_sector_count req)); lia.
Qed.

(** ** Writes *)
Definition write_data (wz : bool) (req : user_request) (h : host) (xs : list sector) : Prop :=
  let n := Z.to_nat (rq_sector_count req) in
  if wz then xs = replicate n zero_sector else ∃ h', host_in (rq_target req) n h = Some (R0, xs, h').
Lemma write_data_length wz req h xs : write_data wz req h xs → length xs = Z.to_nat (rq_sector_count req).
Proof. unfold write_data. destruct wz; [intros ->; apply length_replicate|intros [h' E]; by eapply host_in_len]. Qed.

(** What the cache stores is the written disk. *)
Lemma serves_written wz req k d ds c ds' c' l h xs : in_device req →
  serves (length l + k) d ds c → segments req (rq_start_lba req) (req_end req) l → Forall (cache_req nsid ds) l →
  write_data wz req h xs → capacity_pages c' = capacity_pages c → stored P nsid ptr u0 ds c l ds' c' →
  (if wz then ∀ t i, t ∈ l → bit (t_bitmap t) i = true → view ds' c' (t_lpa t) i zero_sector
   else placed (view ds' c') l (host_mem h (rq_target req) (Z.to_nat (rq_sector_count req)))) →
  serves k (disk_write (rq_start_lba req) xs d) ds' c'.
Proof.
  intros (Hs & Hn & He) Hsv Hl Hc Hxs Hcap [S1 S2 S3 S4] Hp. pose proof Hsv as [Hi Hsz Hcp Hr Hd].
  pose proof (write_data_length _ _ _ _ Hxs) as Hlen. unfold req_end in Hl. split; [done| |congruence|by apply S3|].
  - destruct S2 as (_ & _ & _ & _ & _ & _ & -> & _). done.
  - intros lba x. rewrite disk_write_lookup, Hlen, Z2Nat.id by lia. case_decide as Hr'.
    + intros Hx. split; [lia|]. destruct (seg_position _ _ _ _ Hl lba ltac:(lia)) as (j & t & i & Hj & Hit & ->).
      destruct (seg_block_page _ _ _ _ Hl j t i Hj Hit) as [-> ->].
      replace (Z.to_nat (_ - _)) with (sum_list (txn_len <$> take j l) + i)%nat in Hx by lia.
      destruct wz.
      * rewrite Hxs in Hx. apply lookup_replicate in Hx as [-> _]. pose proof (list_elem_of_lookup_2 _ _ _ Hj) as Ht.
        apply Hp; [done|]. rewrite Forall_forall in Hc. apply (cq_cover _ _ _ (Hc t Ht)). lia.
      * destruct Hxs as [h' E]. destruct (host_in_ok _ _ _ _ _ E) as [-> _]. by eapply Hp.
    + intros Hx. destruct (Hd lba x Hx) as [Hlba Hv]. split; [done|]. pose proof (Z.mod_pos_bound lba 4).
      apply S4; [by eapply serves_owner|lia| |done]. intros t Ht. rewrite Forall_forall in Hc.
      eapply seg_outside; [exact Hl|done|done|]. apply (cq_cover _ _ _ (Hc t Ht)).
Qed.
Lemma wp_write_request wz r0 req k d ds c h man smp xs (Q : rc → ftl → Prop) :
  nblocks < 2 ^ 63 → in_device req → req_ok req → serves (req_pages req + k) d ds c →
  rq_req_type req = (if wz : bool then IOREQ_WRITE_ZEROES else IOREQ_WRITE) → write_data wz req h xs →
  result_assigned r0 req (Ftl _ _ (mk ds c fl h) man smp) = true →
  (∀ ds' c' smp', serves k (disk_write (rq_start_lba req) xs d) ds' c' → Q R0 (Ftl _ _ (mk ds' c' fl h) man smp')) →
  wp (process_io_request r0 req) Q (Ftl _ _ (mk ds c fl h) man smp).
Proof.
  intros Hnb Hd [Hns [Hpg Hpc]] Hsv Hty Hxs Hra HQ. unfold process_io_request. wp_step.
  eapply (wp_segment_at req _ d); [done..|]. intros l ds1 Hsv1 Hl Hc Hlen. wp_step. apply wp_lift. simpl lget.
  assert (serves (length l + k) d ds1 c) as Hsv2 by (eapply serves_le; [|exact Hsv1]; lia).
  pose proof Hd as (Hs & Hn & He). assert (rq_start_lba req ≤ req_end req) as Hse by (unfold req_end; lia).
  pose proof (seg_total _ _ _ _ Hl Hse) as Htot.
  assert (sum_list (txn_len <$> l) = Z.to_nat (rq_sector_count req)) as En by (unfold req_end in Htot; lia).
  pose proof (sr_cap _ _ _ _ Hsv1). assert (serves (length l) d ds1 c) as Hsv3 by (eapply serves_le; [|exact Hsv2]; lia). pose proof (sr_room _ _ _ _ Hsv3) as Hroom.
  apply wp_keeps; [apply keeps_process_request|].
  assert (dc_process_request r0 req l = write_buffers r0 req l wz) as -> by (unfold dc_process_request; rewrite Hty; by destruct wz).
  apply (wp_write_buffers P nsid ptr u0 fl wz r0 req l); try done; [apply Hsv2|apply Hl|lia|lia|..].
  - rewrite En. unfold write_data in Hxs. destruct wz; [|destruct Hxs as [h' E]; by exists xs, h'].
    destruct (result_assigned_zeroes _ _ _ Hra Hty) as [?|(lba & Hlba & Hmiss)]; [by left|right]. intros Hall.
    destruct (seg_position _ _ _ _ Hl lba Hlba) as (q & t & i & Hq & Hi & ->).
    destruct (seg_block_page _ _ _ _ Hl q t i Hq Hi) as [E _]. rewrite E in Hmiss. cbn [ft_dc g_cache mk] in Hmiss.
    destruct (Hall t (list_elem_of_lookup_2 _ _ _ Hq)) as (j & e & Hj & Hk). revert Hk.
    apply (proj1 (cache_find_None ∅ c nsid (t_lpa t) (ci_wf _ _ _ _ _ _ _ _ (sr_inv _ _ _ _ Hsv2))) Hmiss j e Hj).
  - intros ds' c' Hst Hpl Hcap. rewrite En in Hpl. wp_step. apply wp_record_stats. intros smp'. wp_step. apply HQ.
    by eapply serves_written.
Qed.

(** ** Reads *)
Lemma wp_read_request r0 req k d ds c h man smp xs h' (Q : rc → ftl → Prop) :
  nblocks < 2 ^ 63 → in_device req → req_ok req → serves (req_pages req + k) d ds c → rq_req_type req = IOREQ_READ →
  mapM (λ lba, d !! lba) (seqZ (rq_start_lba req) (rq_sector_count req)) = Some xs → host_out (rq_target req) xs h = Some (R0, h') →
  (∀ ds' c' smp', serves k d ds' c' → Q R0 (Ftl _ _ (mk ds' c' fl h') man smp')) →
  wp (process_io_request r0 req) Q (Ftl _ _ (mk ds c fl h) man smp).
Proof.
  intros Hnb Hd [Hns [Hpg Hpc]] Hsv Hty Hxs Hout HQ. unfold process_io_request. wp_step.
  eapply (wp_segment_at req _ d); [done..|]. intros l ds1 Hsv1 Hl Hc Hlen. wp_step. apply wp_lift. simpl lget.
  assert (serves (length l + k) d ds1 c) as Hsv2 by (eapply serves_le; [|exact Hsv1]; lia).
  pose proof Hd as (Hs & Hn & He). assert (rq_start_lba req ≤ req_end req) as Hse by (unfold req_end; lia).
  pose proof (seg_total _ _ _ _ Hl Hse) as Htot. unfold req_end in *.
  assert (sum_list (txn_len <$> l) = Z.to_nat (rq_sector_count req)) as En by lia.
  pose proof Hsv2 as [Hi Hsz Hcp [Hr1 Hr2] Hdk]. apply mapM_Some in Hxs.
  assert (∀ lba, rq_start_lba req ≤ lba < rq_start_lba req + rq_sector_count req → ∃ x,
    xs !! Z.to_nat (lba - rq_start_lba req) = Some x ∧ view ds1 c (lba / 4) (Z.to_nat (lba mod 4)) x) as Hv.
  { intros lba Hlba. assert (seqZ (rq_start_lba req) (rq_sector_count req) !! Z.to_nat (lba - rq_start_lba req) = Some lba) as Hsq
      by (apply lookup_seqZ; lia).
    destruct (Forall2_lookup_l _ _ _ _ _ Hxs Hsq) as (x & Hx & Hdx). exists x. split; [done|]. by apply Hdk. }
  assert (length xs = Z.to_nat (rq_sector_count req)) as Hxl by (rewrite <-(Forall2_length _ _ _ Hxs), length_seqZ; done).
  assert (∀ ys, length ys = sum_list (txn_len <$> l) → delivers (view ds1 c) l ys → ys = xs) as Heq.
  { intros ys Hys Hdel. apply list_eq. intros j. destruct (decide (j < length xs)%nat) as [Hj|Hj].
    - destruct (txns_index l j ltac:(lia)) as (q & t & i & Hq & Hit & ->).
      destruct (seg_block _ _ _ _ Hl q t i Hq Hit) as [Hb _].
      destruct (Hv (rq_start_lba req + Z.of_nat (sum_list (txn_len <$> take q l) + i)) ltac:(lia)) as (x & Hx & Hvx).
      replace (Z.to_nat _) with (sum_list (txn_len <$> take q l) + i)%nat in Hx by lia. rewrite Hx.
      destruct (seg_block_page _ _ _ _ Hl q t i Hq Hit) as [E1 E2]. rewrite E1, E2 in Hvx. by eapply Hdel.
    - rewrite (proj2 (lookup_ge_None ys j)) by lia. symmetry. apply lookup_ge_None. lia. }
  apply wp_keeps; [apply keeps_process_request|]. unfold dc_process_request. rewrite Hty.
  apply (wp_handle_cached_read P nsid ptr u0 fl req l); try done.
  - rewrite Forall_forall in Hc |- *. intros t Ht. split; [by apply Hc|].
    destruct (sg_txns _ _ _ _ Hl t Ht) as (b & z & -> & _). unfold segment_txn. simpl. by rewrite bool_decide_eq_true_2.
  - apply Hl.
  - rewrite Forall_forall in Hc |- *. intros t Ht i Hb. apply (cq_cover _ _ _ (Hc t Ht)) in Hb.
    apply list_elem_of_lookup in Ht as [q Hq]. set (i' := (i - txn_from t)%nat).
    destruct (seg_block _ _ _ _ Hl q t i' Hq ltac:(lia)) as [Hb' _].
    destruct (Hv (rq_start_lba req + Z.of_nat (sum_list (txn_len <$> take q l) + i')) ltac:(lia)) as (x & _ & Hvx).
    destruct (seg_block_page _ _ _ _ Hl q t i' Hq ltac:(lia)) as [E1 E2]. rewrite E1, E2 in Hvx. exists x.
    by replace (txn_from t + i')%nat with i in Hvx by lia.
  - lia.
  - intros ys Hys Hdel. rewrite (Heq ys Hys Hdel). by exists h'.
  - intros ds' c' ys h2 H1 H2 H3 H4 Hys Hdel Eh Hcap. rewrite (Heq ys Hys Hdel), Hout in Eh. injection Eh as <-.
    simpl in Hcap.
    wp_step. apply wp_record_stats. intros smp'. wp_step. apply HQ. split; [done| |by rewrite Hcap|by apply H4; split|].
    + destruct H2 as (_ & _ & _ & _ & _ & _ & -> & _). done.
    + intros lba x Hx. destruct (Hdk lba x Hx) as [Hlba Hv']. split; [done|]. apply H3; [by eapply serves_owner|done].
Qed.

(** ** Any request *)
Lemma wp_exec r0 turns req k b b' s : nblocks < 2 ^ 63 → bd_exec nblocks req b = Some b' → req_ok req → result_assigned r0 req s = true →
  ftl_sim (req_pages req + k) b s → wp (ftl_process_request r0 turns req) (λ r s', r = R0 ∧ ftl_sim k b' s') s.
Proof.
  intros Hnb Hx Hok Hra (ds & c & man & smp & -> & Hsv). unfold bd_exec in Hx. case_decide as Hd; [|done].
  destruct b as [d h]. cbn [bd_disk bd_host] in *. set (n := Z.to_nat (rq_sector_count req)) in *. unfold ftl_process_request.
  destruct (rq_req_type req) eqn:Hty; try done.
  - destruct (mapM _ _) as [xs|] eqn:Hxs; [|done]. simpl in Hx.
    destruct (host_out (rq_target req) xs h) as [[[] h']|] eqn:Hout; [|done..]. injection Hx as <-.
    eapply wp_read_request; [done..|]. intros ds' c' smp' Hsv'. split; [done|]. by exists ds', c', man, smp'.
  - destruct (host_in (rq_target req) n h) as [[[[] xs] h']|] eqn:Hin; [|done..]. injection Hx as <-.
    apply (wp_write_request false r0 req k d ds c h man smp xs); try done; [by exists h'|].
    intros ds' c' smp' Hsv'. split; [done|]. by exists ds', c', man, smp'.
  - injection Hx as <-. apply (wp_write_request true r0 req k d ds c h man smp (replicate n zero_sector)); try done.
    intros ds' c' smp' Hsv'. split; [done|]. by exists ds', c', man, smp'.
Qed.
Fixpoint ftl_run (r0 : rc) (turns : list Z) (reqs : list user_request) : ST ftl (list rc) :=
  match reqs with
  | [] => mret []
  | req :: reqs => r ← ftl_process_request r0 turns req; rs ← ftl_run r0 turns reqs; mret (r :: rs)
  end.
(** No request of a run returns the indeterminate value. *)
Fixpoint results_assigned (r0 : rc) (turns : list Z) (reqs : list user_request) (s : ftl) : bool :=
  match reqs with
  | [] => true
  | req :: reqs => result_assigned r0 req s &&
      match ftl_process_request r0 turns req s with Some (_, s') => results_assigned r0 turns reqs s' | None => true end
  end.
Lemma wp_exec_run r0 turns reqs k : nblocks < 2 ^ 63 → Forall req_ok reqs → ∀ b b' s, bd_run nblocks reqs b = Some b' →
  results_assigned r0 turns reqs s = true →
  ftl_sim (sum_list (req_pages <$> reqs) + k) b s →
  wp (ftl_run r0 turns reqs) (λ rs s', rs = replicate (length reqs) R0 ∧ ftl_sim k b' s') s.
Proof.
  intros Hnb. induction 1 as [|req reqs Hok _ IH]; intros b b' s Hx Hra Hs; cbn [ftl_run].
  { injection Hx as <-. by wp_step. }
  cbn [bd_run] in Hx. destruct (bd_exec nblocks req b) as [b1|] eqn:E1; [|done]. simpl in Hx.
  rewrite fmap_cons in Hs. change (sum_list (?x :: ?xs)) with (x + sum_list xs)%nat in Hs. rewrite <-Nat.add_assoc in Hs.
  cbn [results_assigned] in Hra. apply andb_true_iff in Hra as [Hra1 Hra].
  pose proof (wp_exec r0 turns _ _ _ _ _ Hnb E1 Hok Hra1 Hs) as (r & s1 & E & -> & Hs1)%wp_run. rewrite E in Hra.
  wp_step. apply wp_run. exists R0, s1. split; [done|]. wp_step.
  eapply wp_mono; [by eapply IH|]. intros rs s2 [-> Hs2]. by wp_step.
Qed.
End refine.
