(* ===== verification/FtlFlush.v ===== *)
(** Flushing a namespace through the front end: the data cache, then the
    translation pages and the directory. *)
From S2P Require Import Prelude Bitmap Avl Flash Machine BlockManager Amu AmuFacts AmuSpec AmuWrite AmuDispatch AmuFlush AmuAttach DataCache DataCacheFacts DataCacheSpec DataCacheWrite DataCacheStore DataCacheRead DataCacheFetch DataCacheFlush DataCacheFrame Ftl FtlSegment FtlRefine.

#[local] Unset Default Proof Using.
Section flush.
Context {PL : Platform} {PO : @PlatformOk PL} {EL : @EccLive PL} {AL : @AllocLive PL} {RL : @ReadLive PL}.
Context {WL : @WriteLive PL} {DL : @DmaLive PL} {FL : @FsLive PL}.
Context {HO : Host} {HK : @HostOk HO}.
Context (P : flash_address → Prop) (nsid ptr : Z) (u0 : amu).
Notation mk := (mk ptr u0).
Notation dci := (dci P nsid ptr u0).
Notation view := (view nsid).

(** Saving the domain changes nothing that the cache sees. *)
Lemma dci_saved n ds c s1 f : dci ∅ [] ds c → saved P n ds s1 f →
  dci ∅ [] (with_fs f s1) c ∧
  (∀ l i x, owner_ok (ds_dom ds) (OData l) → view [] ds c l i x → view [] (with_fs f s1) c l i x).
Proof.
  intros [Hat Hi Hw He Hd Hcl Hp Hwb Hwl Hwd] [Hi1 Hc1 _ _ _ _ _].
  assert (∀ data, buf_at (with_fs f s1) data = buf_at ds data) as Hbuf by (intros data; exact (f_equal (lookup data) (sc_mem _ _ Hc1))).
  assert (∀ l i x, owner_ok (ds_dom ds) (OData l) → readsv ds l i x → readsv (with_fs f s1) l i x) as Hrd.
  { intros l i x Ho Hr. exact (same_content_readsv _ _ _ _ _ Hc1 Ho Hr). }
  pose proof (ev_consts _ _ (sc_ev _ _ Hc1)) as Hsc. split.
  - split; try done; try by intros ? ?%elem_of_nil.
    + rewrite <-(with_dom_with ptr ds _ u0). by apply (attached_with nsid ptr ds); [|apply Hsc].
    + by apply dom_inv_fs.
    + intros id e E. destruct (He _ _ E) as [? Ho ? ? [? ?] ?]. split; try done.
      * by apply (owner_ok_same (ds_dom ds) (ds_dom s1) _ Hsc).
      * by rewrite Hbuf.
      * pose proof (sc_next _ _ Hc1). simpl. lia.
    + intros id e i x E Es Eb (b & Hb & Hx). apply Hrd; [by eapply He|]. eapply Hcl; [done..|]. exists b. by rewrite <-Hbuf.
    + intros l Ho. apply (owner_ok_same _ _ _ Hsc) in Ho. intros Hn. pose proof (sc_map _ _ Hc1 l Ho) as E1.
      change (amap_of (with_fs f s1) l) with (amap_of s1 l) in *. change (nandv (with_fs f s1)) with (nandv s1).
      rewrite E1 in *. rewrite (sc_data _ _ Hc1 l Ho Hn). by apply Hp.
  - intros l i x Ho. unfold DataCacheSpec.view. destruct (ccached nsid c l) as [e|]; [destruct (bit _ i)|].
    + intros (b & Hb & Hx). exists b. by rewrite Hbuf.
    + rewrite !below_nil. by apply Hrd.
    + rewrite !below_nil. by apply Hrd.
Qed.

(** Only the data cache is flushed, or the directory is saved too. *)
Definition flush_all (data_only : bool) (turns : list Z) : ST ftl rc :=
  if data_only then ftl_flush_data_ns turns nsid else ftl_flush_ns turns nsid.
(** Everything stored is in flash, and after a full flush the directory that is
    on the volume leads to it. *)
Record durable (data_only : bool) (d : disk) (ds : dom_st) (c : data_cache) : Prop := {
  du_clean : ∀ id e, dc_entries c !! id = Some e → ce_status e = CES_CLEAN;
  du_flash : ∀ lba x, d !! lba = Some x → readsv ds (lba / 4) (Z.to_nat (lba mod 4)) x;
  du_map : data_only = false → all_clean (ds_dom ds) ∧
    file ds (GTD_FILENAME nsid) = Some (take (Z.to_nat (d_total_xlate_pages (ds_dom ds))) (d_gtd (ds_dom ds)));
}.
(** Translation pages that a flush may have to write out. *)
Definition xlate_bound (ds : dom_st) (c : data_cache) : Z := pc_size (d_pcache (ds_dom ds)) + Z.of_nat (ndirty c).

Context (nblocks cap : Z).
Notation serves := (serves P nsid ptr u0 nblocks cap).
Lemma wp_flush_all data_only turns k d ds c h man smp (Q : rc → ftl → Prop) :
  serves (ndirty c + (Z.to_nat (xlate_bound ds c) + k)) d ds c →
  height (dc_root c) ≤ Z.of_nat AVL_MAX_DEPTH → xlate_bound ds c < 65535 → d_nsid (ds_dom ds) = nsid →
  Forall (λ i, 0 ≤ i < 8) turns → (∀ i, 0 ≤ i < 8 → i ∈ turns) →
  (∀ ds' c', serves k d ds' c' → durable data_only d ds' c' → same_consts (ds_dom ds) (ds_dom ds') →
     (∀ n, n ≠ GTD_FILENAME nsid → file ds' n = file ds n) → Q R0 (Ftl _ _ (mk ds' c' idle h) man smp)) →
  wp (flush_all data_only turns) Q (Ftl _ _ (mk ds c idle h) man smp).
Proof.
  intros [Hi Hsz Hcap Hroom Hd] Hh HB Hid Ht Hall HQ. set (B := xlate_bound ds c) in *. set (m := (Z.to_nat B + k)%nat) in *.
  assert (wp (lift (dc_flush_ns turns nsid)) (λ _ s, ∃ ds' c', s = Ftl _ _ (mk ds' c' idle h) man smp ∧
    capacity_pages c' = capacity_pages c ∧ all_flushed P nsid ptr u0 m B ds c ds' c') (Ftl _ _ (mk ds c idle h) man smp)) as Hw.
  { apply wp_lift, wp_keeps; [apply keeps_flush_ns|]. eapply wp_start_flush_sync; try done.
    intros ds' c' Ha Hc. by exists ds', c'. }
  assert (∀ ds' c', all_flushed P nsid ptr u0 m B ds c ds' c' → capacity_pages c' = capacity_pages c → serves m d ds' c') as Hsv.
  { intros ds' c' [F1 F2 F3 F4 F5 [[R1 R2] F6] _] Hc. split; [done| |congruence| |].
    - destruct F2 as (_ & _ & _ & _ & _ & _ & -> & _). done.
    - split; [lia|by eapply bm_ready_le; [|exact R2]; lia].
    - intros lba x Hx. destruct (Hd lba x Hx) as [Hlba Hv]. split; [done|]. pose proof (Z.mod_pos_bound lba 4).
      apply F4; [|lia|done]. by eapply serves_owner. }
  assert (∀ ds' c', all_flushed P nsid ptr u0 m B ds c ds' c' → ∀ lba x, d !! lba = Some x → readsv ds' (lba / 4) (Z.to_nat (lba mod 4)) x) as Hfl.
  { intros ds' c' Ha lba x Hx. destruct (Hd lba x Hx) as [Hlba Hv]. pose proof (Z.mod_pos_bound lba 4).
    eapply clean_view; [apply Ha..|]. eapply (af_view _ _ _ _ _ _ _ _ _ _ Ha); [|lia|done]. by eapply serves_owner. }
  unfold flush_all, ftl_flush_data_ns, ftl_flush_ns. destruct data_only; wp_step.
  all: eapply wp_mono; [exact Hw|]; intros _ s (ds1 & c1 & -> & Hc & Ha); cbv beta.
  - wp_step. apply HQ.
    + eapply serves_le; [|by eapply Hsv]. lia.
    + split; [eapply clean_entries; apply Ha|by eapply Hfl|done].
    + apply Ha.
    + intros n _. unfold file. by rewrite (af_fs _ _ _ _ _ _ _ _ _ _ Ha).
  - pose proof (Hsv _ _ Ha Hc) as Hs1. pose proof Ha as [F1 F2 F3 _ _ [[R1 R2] F6] F7].
    wp_step. apply wp_lift. pose proof (ci_inv _ _ _ _ _ _ _ _ F1) as Hi1.
    assert (pc_size (d_pcache (ds_dom ds1)) ≤ B) as HB1 by lia.
    eapply (wp_amu_save P nsid ptr ds1); [apply F1|done| | |].
    + apply (dom_flushable P); [done|lia|]. eapply bm_ready_le; [|exact R2]. lia.
    + destruct F2 as (_ & -> & _). done.
    + intros s1 f Hsv1. wp_step. destruct (dci_saved _ _ _ _ _ F1 Hsv1) as [Hi2 Hv2].
      pose proof (ev_consts _ _ (sc_ev _ _ (sv_content _ _ _ _ _ Hsv1))) as Hsc.
      assert (∀ lba x, d !! lba = Some x → readsv (with_fs f s1) (lba / 4) (Z.to_nat (lba mod 4)) x) as Hfl2.
      { intros lba x Hx. apply (same_content_readsv ds1 s1 _ _ _ (sv_content _ _ _ _ _ Hsv1)); [|by eapply Hfl].
        eapply serves_owner; [exact Hs1|]. by eapply (sr_disk _ _ _ _ _ _ _ _ _ _ Hs1). }
      pose proof (ev_fs _ _ (sc_ev _ _ (sv_content _ _ _ _ _ Hsv1))) as Hfs1. destruct Hsv1 as [_ _ Hcl1 Hf1 Hf2 Hz1 Hr1].
      replace (lset _ _) with (Ftl _ _ (mk (with_fs f s1) c1 idle h) man smp) by (unfold DataCacheSpec.mk; simpl; by rewrite with_dom_with).
      apply HQ.
      * split; [done| |apply Hs1| |].
        -- destruct Hsc as (_ & _ & _ & _ & _ & _ & E & _). change (ds_dom (with_fs f s1)) with (ds_dom s1). rewrite E. apply Hs1.
        -- split.
           ++ change (ds_dom (with_fs f s1)) with (ds_dom s1). rewrite Hz1. 
              destruct Hsc as (_ & _ & _ & _ & _ & _ & _ & -> & _). lia.
           ++ apply Hr1. eapply bm_ready_le; [|exact R2]. lia.
        -- intros lba x Hx. destruct (sr_disk _ _ _ _ _ _ _ _ _ _ Hs1 lba x Hx) as [Hlba Hv]. split; [done|].
           apply Hv2; [|done]. by eapply serves_owner.
      * split; [eapply clean_entries; apply Ha|done|]. by split.
      * eapply same_consts_trans; [apply Ha|exact Hsc].
      * intros n Hn. change (file (with_fs f s1) n) with (contents f n). rewrite Hf2 by done. unfold file. by rewrite Hfs1, F7.
Qed.
End flush.
