(* ===== verification/FtlNamespaces.v ===== *)
(** The manifest and its file, and namespace management: what each operation
    does to the manifest, and the invariant they keep. *)
From S2P Require Import Prelude Bitmap Avl Flash Machine BlockManager BlockMaps Amu AmuFacts AmuSpec DataCache Ftl.

#[local] Unset Default Proof Using.
(** * The manifest as words *)
Record manifest_ok (m : manifest) : Prop := {
  mo_magic : mf_magic m = MANIFEST_MAGIC;
  mo_version : mf_version m = MANIFEST_VERSION;
  mo_max : mf_namespace_max m = NAMESPACE_MAX;
  mo_allocated : length (allocated_namespace m) = 1%nat ∧ bm_wf (allocated_namespace m);
  mo_active : length (active_namespace m) = 1%nat ∧ bm_wf (active_namespace m);
  mo_namespaces : length (namespaces m) = 32%nat;
}.
Lemma words_meta_words l : words_meta (concat (meta_words <$> l)) = l.
Proof. induction l as [|[a b c] l IH]; [done|]. rewrite fmap_cons. cbn. by rewrite IH. Qed.
Lemma manifest_words_length m : manifest_ok m → length (manifest_words m) = Z.to_nat MANIFEST_WORDS.
Proof.
  intros [_ _ _ [Ha _] [Hb _] Hn]. unfold manifest_words. rewrite !length_app, Ha, Hb.
  assert (∀ l, length (concat (meta_words <$> l)) = (3 * length l)%nat) as ->; [|by rewrite Hn].
  induction l as [|x l IH]; [done|]. rewrite fmap_cons. cbn [concat length]. rewrite length_app, IH. simpl. lia.
Qed.
Lemma words_manifest_words m : manifest_ok m → words_manifest (manifest_words m) = m.
Proof.
  intros [Hm Hv Hx [Ha _] [Hb _] Hn]. destruct m as [mg v nm al ac ns]. cbn in *.
  destruct al as [|a [|]]; try done. destruct ac as [|b [|]]; try done. subst mg v nm.
  unfold words_manifest, manifest_words. cbn -[words_meta]. f_equal. apply words_meta_words.
Qed.

(** What [restore_manifest] answers to a file with contents [c]. *)
Definition restore_result (c : list Z) : rc :=
  let m := words_manifest (take (Z.to_nat MANIFEST_WORDS) c) in
  if Z.of_nat (length c) <? MANIFEST_WORDS then Err EIO
  else if negb (mf_magic m =? MANIFEST_MAGIC) then Err EBADMSG
  else if negb (mf_version m =? MANIFEST_VERSION) then Err ENOTSUP
  else if negb (mf_namespace_max m =? NAMESPACE_MAX) then Err ENOTSUP
  else R0.
Lemma restore_result_ok m : manifest_ok m → restore_result (manifest_words m) = R0.
Proof.
  intros Hm. unfold restore_result. rewrite manifest_words_length, take_ge by (done || by rewrite manifest_words_length).
  rewrite words_manifest_words by done. destruct Hm as [-> -> -> _ _ _]. done.
Qed.

Section files.
Context {PL : Platform} {PO : @PlatformOk PL} {AL : @AllocLive PL} {HO : Host}.
Definition fmach (s : ftl) : mach := lget s.
Definition set_manifest_of (m : manifest) (s : ftl) : ftl := Ftl _ _ (ft_dc s) m (ft_samples s).
Definition files (s : ftl) : string → option (list Z) := contents (m_fs (fmach s)).
Lemma fmach_with m' s : fmach (lset m' s) = m'.
Proof. done. Qed.
Lemma with_mach_mach m1 m2 (s : ftl) : lset (m1 : mach) (lset (m2 : mach) s) = lset m1 s.
Proof. by destruct s as [[[[] ? ?] ? ? ?] ? ?]. Qed.

Lemma wp_save_manifest s (Q : rc → ftl → Prop) :
  (∀ e f, ¬ FsLive → Q (Err e) (lset (set_fs f (fmach s)) s)) →
  (∀ f, contents f MANIFEST_FILENAME = Some (manifest_words (ft_manifest s)) →
     other_files MANIFEST_FILENAME (m_fs (fmach s)) f → Q R0 (lset (set_fs f (fmach s)) s)) →
  wp save_manifest Q s.
Proof.
  intros HE HQ. unfold save_manifest, the_manifest. wp_step. wp_step. wp_step. apply wp_lift. change (lget s) with (fmach s).
  apply wp_fat_create; [intros f Hl; wp_step; by apply HE|]. intros h f Hh Hc Ho. wp_step. apply wp_lift. rewrite lget_lset.
  apply (wp_write_all h MANIFEST_FILENAME []); [done|done|..].
  { intros h' f' Hl. wp_step. rewrite with_mach_mach. by apply HE. }
  intros h' f' _ Hc' Ho'. apply wp_lift. rewrite lget_lset. apply wp_close; rewrite with_mach_mach.
  { intros f2 Hl. rewrite with_mach_mach. by apply HE. }
  intros f2 Hf2. rewrite with_mach_mach. apply (HQ f2); [by rewrite Hf2|].
  intros n Hn. rewrite Hf2. etrans; [by apply Ho'|]. by apply Ho.
Qed.
Lemma wp_restore_manifest c s (Q : rc → ftl → Prop) : 0 < m_next (fmach s) →
  files s MANIFEST_FILENAME = Some c → FsLive →
  (restore_result c ≠ R0 → ∀ f, Q (restore_result c) (lset (set_fs f (scratch (fmach s))) s)) →
  (restore_result c = R0 → ∀ f, contents f = files s →
     Q R0 (lset (set_fs f (scratch (fmach s))) (set_manifest_of (words_manifest (take (Z.to_nat MANIFEST_WORDS) c)) s))) →
  wp restore_manifest Q s.
Proof.
  intros Hn Hc HL HE HQ. unfold restore_manifest. wp_step. apply wp_lift. change (lget s) with (fmach s).
  apply wp_open_read; [by intros f []|]. intros h f c' Hc' Hf Hh. unfold files in Hc. rewrite Hc in Hc'. injection Hc' as <-.
  wp_step. apply wp_lift. rewrite lget_lset. apply wp_alloc; [apply AL|]. rewrite with_mach_mach. set (id := m_next (set_fs f (fmach s))).
  wp_step. wp_step; [by rewrite (proj2 (Z.eqb_neq _ _)) by (subst id; simpl; lia)|].
  wp_step. apply wp_lift. rewrite lget_lset. set (m1 := Mach _ _ _ _ _ _).
  assert (∀ f', is_Some (m_mem (set_fs f' m1) !! id)) as Hmem by (intros f'; simpl; rewrite lookup_insert_eq; by eexists).
  assert (∀ f', set_mem (delete id (m_mem (set_fs f' m1))) (set_fs f' m1) = set_fs f' (scratch (fmach s))) as Escr by done.
  assert (∀ e f', restore_result c = Err e →
    wp (r ← mret (Err e); lift (free_mem id) ≫= λ _, mret r) Q (lset (set_fs f' m1) (lset m1 s))) as Hfail.
  { intros e f' Er. wp_step. wp_step. wp_step. apply wp_lift. rewrite lget_lset. apply wp_free_mem; [done|].
    rewrite Escr, !with_mach_mach. wp_step. rewrite <-Er. apply HE. by rewrite Er. }
  apply (wp_read_all h MANIFEST_FILENAME 0 c); [done|done|by simpl; rewrite Hf|..].
  { intros ws h' f' Hs. cbn [is_ok negb]. apply (Hfail EIO). unfold restore_result.
    destruct (Z.ltb_spec (Z.of_nat (length c)) MANIFEST_WORDS); [done|]. destruct Hs. split; [done|]. split; [done|lia]. }
  intros ws h' f' Ews Hlen _ Hf'. cbn [is_ok negb]. rewrite drop_0 in Ews. rewrite <-Ews in HQ.
  assert (¬ Z.of_nat (length c) < MANIFEST_WORDS) as Hlc.
  { rewrite Ews, length_take in Hlen. lia. }
  unfold restore_result in HE, HQ, Hfail. rewrite <-Ews in HE, HQ, Hfail. rewrite (proj2 (Z.ltb_ge _ _)) in HE, HQ, Hfail by lia. cbv zeta in *.
  destruct (negb (mf_magic _ =? _)); [by apply Hfail|]. destruct (negb (mf_version _ =? _)); [by apply Hfail|].
  destruct (negb (mf_namespace_max _ =? _)); [by apply Hfail|].
  wp_step. wp_step. unfold set_manifest. wp_step. apply wp_lift. 
  apply wp_close; [by intros f2|]. intros f2 Hf2. wp_step. apply wp_lift. rewrite lget_lset.
  apply wp_free_mem; [simpl; rewrite lookup_insert_eq; by eexists|]. wp_step.
  match goal with |- Q R0 ?x => replace x with (lset (set_fs f2 (scratch (fmach s))) (set_manifest_of (words_manifest ws) s)) end.
  - apply HQ; [done|]. etrans; [exact Hf2|]. etrans; [exact Hf'|]. exact Hf.
  - by destruct s as [[[[] ? ?] ? ? ?] ? ?].
Qed.
End files.

(** * Namespace management *)
Definition ns_wf (m : manifest) : Prop :=
  manifest_ok m ∧ ∀ i, 0 ≤ i < NAMESPACE_MAX → GET_BIT (active_namespace m) i = true → GET_BIT (allocated_namespace m) i = true.
Section bits.
Context (l : list Z) (Hl : length l = 1%nat ∧ bm_wf l).
Lemma ns_set_bit i j : 0 ≤ i < NAMESPACE_MAX → 0 ≤ j → GET_BIT (SET_BIT l i) j = bool_decide (j = i) || GET_BIT l j.
Proof.
  intros Hi Hj. rewrite !GET_BIT_bit. apply bit_SET_BIT; [lia| |done]. destruct Hl as [-> _].
  unfold NAMESPACE_MAX in Hi. apply Z.div_lt_upper_bound; lia.
Qed.
Lemma ns_unset_bit i j : 0 ≤ i < NAMESPACE_MAX → 0 ≤ j → GET_BIT (UNSET_BIT l i) j = negb (bool_decide (j = i)) && GET_BIT l j.
Proof.
  intros Hi Hj. rewrite !GET_BIT_bit. apply bit_UNSET_BIT; [lia| |done]. destruct Hl as [-> _].
  unfold NAMESPACE_MAX in Hi. apply Z.div_lt_upper_bound; lia.
Qed.
Lemma ns_set_ok i : 0 ≤ i → length (SET_BIT l i) = 1%nat ∧ bm_wf (SET_BIT l i).
Proof. intros Hi. destruct Hl. split; [unfold SET_BIT; by rewrite length_insert|by apply bm_wf_SET]. Qed.
Lemma ns_unset_ok i : length (UNSET_BIT l i) = 1%nat ∧ bm_wf (UNSET_BIT l i).
Proof. destruct Hl. split; [unfold UNSET_BIT; by rewrite length_insert|by apply bm_wf_UNSET]. Qed.
End bits.

(** The manifest after each change. *)
Section changes.
Context (m : manifest) (Hm : ns_wf m) (i : Z) (Hi : 0 ≤ i < NAMESPACE_MAX).
Lemma ns_wf_created x : ns_wf (set_allocated (SET_BIT (allocated_namespace m) i) (set_namespace i x m)).
Proof.
  destruct Hm as [[? ? ? Ha Hb Hn] Hsub]. split.
  - split; try done; [by apply ns_set_ok; [|lia]|]. cbn. by rewrite length_insert.
  - intros j Hj. cbn. rewrite ns_set_bit by (done || lia). intros Hact%Hsub; [|done]. by rewrite Hact, orb_true_r.
Qed.
Lemma ns_wf_attached : GET_BIT (allocated_namespace m) i = true → ns_wf (set_active (SET_BIT (active_namespace m) i) m).
Proof.
  destruct Hm as [[? ? ? Ha Hb Hn] Hsub]. intros Hal. split; [split; try done; by apply ns_set_ok; [|lia]|].
  intros j Hj. cbn. rewrite ns_set_bit by (done || lia). intros [->%bool_decide_eq_true|Hact]%orb_true_iff; [done|by apply Hsub].
Qed.
Lemma ns_wf_detached : ns_wf (set_active (UNSET_BIT (active_namespace m) i) m).
Proof.
  destruct Hm as [[? ? ? Ha Hb Hn] Hsub]. split; [split; try done; by apply ns_unset_ok|].
  intros j Hj. cbn. rewrite ns_unset_bit by (done || lia). intros [_ Hact]%andb_true_iff. by apply Hsub.
Qed.
Lemma ns_wf_deleted : GET_BIT (active_namespace m) i = false → ns_wf (set_allocated (UNSET_BIT (allocated_namespace m) i) m).
Proof.
  destruct Hm as [[? ? ? Ha Hb Hn] Hsub]. intros Hna. split; [split; try done; by apply ns_unset_ok|].
  intros j Hj Hact. cbn in *. rewrite ns_unset_bit by (done || lia).
  rewrite bool_decide_eq_false_2 by (intros ->; congruence). by apply Hsub.
Qed.
Lemma ns_inactive : GET_BIT (active_namespace (set_active (UNSET_BIT (active_namespace m) i) m)) i = false.
Proof. destruct Hm as [[? ? ? Ha Hb Hn] _]. cbn. rewrite ns_unset_bit by (done || lia). by rewrite bool_decide_eq_true_2. Qed.
End changes.

Section ops.
Context `{Platform} `{Host}.
Inductive ns_op := NsCreate (info : namespace_info) | NsAttach (nsid : Z) | NsDetach (nsid : Z) | NsDelete (nsid : Z).
Definition ns_exec (op : ns_op) : ST ftl unit :=
  match op with
  | NsCreate info => ftl_create_namespace info ≫= λ _, mret tt
  | NsAttach nsid => ftl_attach_namespace nsid ≫= λ _, mret tt
  | NsDetach nsid => ftl_detach_namespace nsid ≫= λ _, mret tt
  | NsDelete nsid => ftl_delete_namespace nsid ≫= λ _, mret tt
  end.
(** Namespace ids are unsigned. *)
Definition ns_op_ok (op : ns_op) : Prop :=
  match op with NsCreate _ => True | NsAttach nsid | NsDetach nsid | NsDelete nsid => 0 ≤ nsid end.

Lemma nsid_index nsid : 0 ≤ nsid → (nsid =? 0) || (NAMESPACE_MAX <? nsid) = false → 0 ≤ NSID2IDX nsid < NAMESPACE_MAX.
Proof. unfold NSID2IDX. intros Hn [?%Z.eqb_neq ?%Z.ltb_ge]%orb_false_iff. lia. Qed.
Lemma wlp_save_manifest s : wlp save_manifest (λ _ s', ft_manifest s' = ft_manifest s) s.
Proof.
  unfold save_manifest, the_manifest. wlp_steps. destruct a as [fil|]; wlp_steps; [|done].
  destruct a as [[|e] fil']; wlp_steps; done.
Qed.
(** Installing a manifest and saving it. *)
Lemma wlp_install (P : manifest → Prop) m s : P m →
  wlp (set_manifest m ≫= λ _, save_manifest ≫= λ _, mret tt) (λ _ s', P (ft_manifest s')) s.
Proof.
  intros Hm. apply wlp_bind. unfold set_manifest. wlp_steps. eapply wlp_mono; [apply wlp_save_manifest|].
  intros r s' E. wlp_steps. by rewrite E.
Qed.

Lemma wlp_create info s : ns_wf (ft_manifest s) → wlp (ftl_create_namespace info) (λ _ s', ns_wf (ft_manifest s')) s.
Proof.
  intros Hs. unfold ftl_create_namespace, the_manifest. apply wlp_bind, wlp_gets. cbv zeta.
  set (idx := find_next_zero_bit _ _ _).
  assert (first_from (λ i, negb (bit (allocated_namespace (ft_manifest s)) i)) 0 NAMESPACE_MAX idx) as [Hr _].
  { apply find_next_zero_bit_first; [apply Hs|done|done]. }
  destruct (Z.leb_spec NAMESPACE_MAX idx) as [|Hlt]; [by wlp_steps|].
  apply wlp_bind, wlp_modify. apply wlp_bind. eapply wlp_mono; [apply wlp_save_manifest|]. intros r s' E. wlp_steps.
  rewrite E. cbn [ft_manifest]. apply ns_wf_created; [done|]. destruct Hr as [|[? _]]; lia.
Qed.
Lemma wlp_detach nsid s : 0 ≤ nsid → ns_wf (ft_manifest s) → wlp (ftl_detach_namespace nsid) (λ r s',
  ns_wf (ft_manifest s') ∧ (r = R0 → GET_BIT (active_namespace (ft_manifest s')) (NSID2IDX nsid) = false)) s.
Proof.
  intros Hn Hs. unfold ftl_detach_namespace, the_manifest. destruct (_ || _) eqn:E; [by wlp_steps|].
  apply nsid_index in E; [|done]. cbv zeta. apply wlp_bind, wlp_gets.
  destruct (GET_BIT _ _) eqn:Eb; cbn [negb]; [|by wlp_steps].
  apply wlp_bind, wlp_lift. intros r u. apply wlp_bind. destruct r as [|e]; cbn [is_ok do_if].
  - eapply wlp_mono; [apply (wlp_install (λ m', ns_wf m' ∧ GET_BIT (active_namespace m') (NSID2IDX nsid) = false))|].
    { split; [by apply ns_wf_detached|by apply ns_inactive]. }
    intros [] s' [? ?]. by wlp_steps.
  - by wlp_steps.
Qed.
Lemma wlp_delete nsid s : 0 ≤ nsid → ns_wf (ft_manifest s) → wlp (ftl_delete_namespace nsid) (λ _ s', ns_wf (ft_manifest s')) s.
Proof.
  intros Hn Hs. unfold ftl_delete_namespace, the_manifest. destruct (_ || _) eqn:E; [by wlp_steps|].
  apply nsid_index in E; [|done]. cbv zeta. apply wlp_bind, wlp_gets.
  destruct (negb _); [by wlp_steps|]. apply wlp_bind.
  eapply (wlp_mono _ (λ r s', ns_wf (ft_manifest s') ∧ (r = R0 → GET_BIT (active_namespace (ft_manifest s')) (NSID2IDX nsid) = false))).
  { destruct (GET_BIT (active_namespace _) _) eqn:Ea; [by apply wlp_detach|by wlp_steps]. }
  intros [|e] s1 [Hs1 Hna]; [|by wlp_steps]. apply wlp_bind, wlp_lift. intros r u. apply wlp_bind, wlp_gets. apply wlp_bind.
  destruct r as [|e]; cbn [is_ok do_if]; [|by wlp_steps].
  eapply wlp_mono; [apply (wlp_install ns_wf)|intros [] s' ?; by wlp_steps]. apply ns_wf_deleted; [done|done|]. by apply Hna.
Qed.
Lemma wlp_attach_ns nsid s : 0 ≤ nsid → ns_wf (ft_manifest s) → wlp (ftl_attach_namespace nsid) (λ _ s', ns_wf (ft_manifest s')) s.
Proof.
  intros Hn Hs. unfold ftl_attach_namespace, the_manifest. destruct (_ || _) eqn:E; [by wlp_steps|].
  apply nsid_index in E; [|done]. cbv zeta. apply wlp_bind, wlp_gets. apply wlp_bind, wlp_deref. intros x Hx.
  destruct (GET_BIT (allocated_namespace _) _) eqn:Eb; cbn [negb]; [|by wlp_steps].
  destruct (GET_BIT (active_namespace _) _); [by wlp_steps|]. apply wlp_bind, wlp_lift. intros r u. apply wlp_bind.
  destruct r as [|e]; cbn [is_ok do_if]; [|by wlp_steps].
  eapply wlp_mono; [apply (wlp_install ns_wf)|intros [] s' ?; by wlp_steps]. by apply ns_wf_attached.
Qed.
Lemma wlp_ns_ops ops s : Forall ns_op_ok ops → ns_wf (ft_manifest s) → wlp (for_each ops ns_exec) (λ _ s', ns_wf (ft_manifest s')) s.
Proof.
  intros Hok Hs. apply (wlp_for_each (λ _ s, ns_wf (ft_manifest s))); [done|]. intros pre op post s' -> Hs'.
  apply Forall_app in Hok as [_ [Hop _]%Forall_cons]. destruct op as [info|n|n|n]; cbn [ns_exec ns_op_ok] in *; apply wlp_bind.
  - eapply wlp_mono; [by apply wlp_create|]. intros r s2 ?. by wlp_steps.
  - eapply wlp_mono; [by apply wlp_attach_ns|]. intros r s2 ?. by wlp_steps.
  - eapply wlp_mono; [by apply wlp_detach|]. intros r s2 [? _]. by wlp_steps.
  - eapply wlp_mono; [by apply wlp_delete|]. intros r s2 ?. by wlp_steps.
Qed.
Lemma ns_wf_reset s : ∃ s', reset_manifest s = Some (tt, s') ∧ ns_wf (ft_manifest s').
Proof.
  eexists. split; [reflexivity|]. cbn [ft_manifest]. split.
  - split; try done; split; try done; by apply (bool_decide_unpack _); vm_compute.
  - intros i Hi. done.
Qed.
End ops.

Section lookup.
Context {PL : Platform} {HO : Host}.
Lemma namespace_index nsid : 1 ≤ nsid ≤ NAMESPACE_MAX →
  (nsid =? 0) || (NAMESPACE_MAX <? nsid) = false ∧ (nsid <=? 0) || (NAMESPACE_MAX <? nsid) = false.
Proof. intros. split; apply orb_false_iff; lia. Qed.
Lemma get_namespace_eq nsid s : 1 ≤ nsid ≤ NAMESPACE_MAX → ftl_get_namespace nsid s =
  if GET_BIT (allocated_namespace (ft_manifest s)) (NSID2IDX nsid) then
    match namespaces (ft_manifest s) !! Z.to_nat (NSID2IDX nsid) with
    | Some x => Some ((R0, Some (NsInfo (GET_BIT (active_namespace (ft_manifest s)) (NSID2IDX nsid)) (size_blocks x) (capacity_blocks x) (util_blocks x))), s)
    | None => None
    end
  else Some ((Err ESRCH, None), s).
Proof.
  intros Hr. destruct (namespace_index nsid Hr) as [_ E]. unfold ftl_get_namespace, mbind, ST_bind, the_manifest, gets.
  rewrite E. cbv zeta. by destruct (GET_BIT (allocated_namespace _) _), (namespaces _ !! _).
Qed.
End lookup.
