(* ===== verification/FtlRestart.v ===== *)
(** Shutting down and starting again: [ftl_sync], a loss of power, [ftl_init].
    What the block device held is still there. *)
From S2P Require Import Prelude Bitmap Avl Flash Machine BlockManager BlockMaps BlockRestart Amu AmuFacts AmuSpec AmuWrite AmuDispatch AmuFlush AmuAttach DataCache DataCacheFacts DataCacheSpec DataCacheWrite DataCacheStore DataCacheRead DataCacheFetch DataCacheFlush Ftl FtlSegment FtlRefine FtlFlush FtlNamespaces.

#[local] Unset Default Proof Using.
(** The data cache after [dc_init]. *)
Lemma cache_wf_empty bytes : cache_wf ∅ (dc_init bytes).
Proof.
  split; try done; try apply NoDup_nil_2.
  - split; constructor.
  - intros id. cbn. split; [by intros []%elem_of_nil|by intros []].
  - intros id. cbn. split; [by intros []%elem_of_nil|by intros [[] _]].
Qed.
(** File names are different. *)
Lemma gtd_name nsid : GTD_FILENAME nsid ≠ PLANE_INFO_FILE ∧ GTD_FILENAME nsid ≠ BAD_BLOCKS_FILE ∧ GTD_FILENAME nsid ≠ MANIFEST_FILENAME.
Proof. unfold GTD_FILENAME. split_and!; discriminate. Qed.

Section restart.
Context {PL : Platform} {PO : @PlatformOk PL} {EL : @EccLive PL} {AL : @AllocLive PL} {RL : @ReadLive PL}.
Context {WL : @WriteLive PL} {DL : @DmaLive PL} {FL : @FsLive PL}.
Context {HO : Host} {HK : @HostOk HO}.
Context (P : flash_address → Prop) (nsid : Z).

Lemma dci_empty ptr ds u bytes : attached nsid ptr ds u → dom_inv P None ds →
  (∀ l, owner_ok (ds_dom ds) (OData l) → programmed ds l) → dci P nsid ptr u ∅ [] ds (dc_init bytes).
Proof.
  intros Hat Hi Hp. split; try done; try (intros ? []%elem_of_nil); try apply NoDup_nil_2.
  - by apply (attached_with nsid ptr ds).
  - apply cache_wf_empty.
Qed.
Lemma view_empty ds bytes l i x : view nsid [] ds (dc_init bytes) l i x ↔ readsv ds l i x.
Proof.
  unfold view. assert (ccached nsid (dc_init bytes) l = None) as -> by (by apply (ccached_None nsid ∅); [apply cache_wf_empty|]).
  apply below_nil.
Qed.

(** The namespace is the only active one, and the manifest knows its size. *)
Record configured (man : manifest) (total : Z) : Prop := {
  cf_ok : manifest_ok man;
  cf_active : ∀ i, 0 ≤ i < NAMESPACE_MAX → GET_BIT (active_namespace man) i = bool_decide (i = NSID2IDX nsid);
  cf_size : ∃ x, namespaces man !! Z.to_nat (NSID2IDX nsid) = Some x ∧ 0 ≤ ns_pages x ∧ pages_of (ns_pages x) = total;
}.
(** The volume [f] and the flash of [m] hold the namespace of [ds]. *)
Record on_volume (man : manifest) (ds : dom_st) (m : mach) : Prop := {
  ov_inv : dom_inv P None ds;
  ov_clean : all_clean (ds_dom ds);
  ov_nand : ∀ a, nand (m_dev m) a = nandv ds a;
  ov_gtd : contents (m_fs m) (GTD_FILENAME nsid) = Some (take (Z.to_nat (d_total_xlate_pages (ds_dom ds))) (d_gtd (ds_dom ds)));
  ov_planes : plane_file (ds_bm ds) (m_fs m);
  ov_bad : bad_file (m_fs m);
  ov_manifest : contents (m_fs m) MANIFEST_FILENAME = Some (manifest_words man);
}.

(** * Sync *)
Section sync.
Context (ptr : Z) (u0 : amu) (nblocks cap : Z).
Notation mk := (mk ptr u0).
Notation serves := (serves P nsid ptr u0 nblocks cap).
Lemma index_range ds c : dci P nsid ptr u0 ∅ [] ds c → 0 ≤ NSID2IDX nsid < NAMESPACE_MAX.
Proof.
  intros Hi. pose proof (at_nsid _ _ _ _ (ci_at _ _ _ _ _ _ _ _ Hi)) as Hb. unfold bad_nsid in Hb.
  apply orb_false_iff in Hb as [?%Z.leb_gt ?%Z.ltb_ge]. unfold NSID2IDX. lia.
Qed.
Lemma wp_flush_loop_ns turns k d ds c h man smp (Q : () → ftl → Prop) :
  serves (ndirty c + (Z.to_nat (xlate_bound ds c) + k)) d ds c → configured man (d_total_xlate_pages (ds_dom ds)) →
  height (dc_root c) ≤ Z.of_nat AVL_MAX_DEPTH → xlate_bound ds c < 65535 → d_nsid (ds_dom ds) = nsid →
  Forall (λ i, 0 ≤ i < 8) turns → (∀ i, 0 ≤ i < 8 → i ∈ turns) →
  (∀ ds' c', serves k d ds' c' → durable nsid false d ds' c' → same_consts (ds_dom ds) (ds_dom ds') →
     (∀ n, n ≠ GTD_FILENAME nsid → file ds' n = file ds n) → Q tt (Ftl _ _ (mk ds' c' idle h) man smp)) →
  wp (for_each (seqZ 0 NAMESPACE_MAX) (λ i,
    m ← the_manifest;
    do_if (GET_BIT (active_namespace m) i)
      (lift (dc_flush_ns turns (IDX2NSID i)) ≫= λ _,
       lift (amu_save_domain (IDX2NSID i)) ≫= λ _, mret tt))) Q (Ftl _ _ (mk ds c idle h) man smp).
Proof.
  intros Hs [_ Hact _] Hh HB Hid Ht Hall HQ.
  pose proof (index_range _ _ (sr_inv _ _ _ _ _ _ _ _ _ _ Hs)) as Hr.
  eapply wp_mono; [apply (wp_for_each (λ pre s, ∃ ds' c', s = Ftl _ _ (mk ds' c' idle h) man smp ∧
    if decide (NSID2IDX nsid ∈ pre) then serves k d ds' c' ∧ durable nsid false d ds' c' ∧ same_consts (ds_dom ds) (ds_dom ds') ∧
      ∀ n, n ≠ GTD_FILENAME nsid → file ds' n = file ds n
    else ds' = ds ∧ c' = c))|].
  - exists ds, c. split; [done|]. by rewrite decide_False by apply not_elem_of_nil.
  - intros pre x post s El (ds1 & c1 & -> & H1). assert (x ∈ seqZ 0 NAMESPACE_MAX) as Hx by (rewrite El; set_solver).
    apply elem_of_seqZ in Hx. unfold the_manifest. wp_step. wp_step. change (ft_manifest _) with man.
    rewrite Hact by lia. wp_step. destruct (decide (x = NSID2IDX nsid)) as [->|Hne].
    + rewrite bool_decide_eq_true_2 by done.
      assert (NSID2IDX nsid ∉ pre) as Hni.
      { assert (NoDup (seqZ 0 NAMESPACE_MAX)) as Hnd by apply NoDup_seqZ. rewrite El in Hnd. apply NoDup_app in Hnd as (_ & Hd & _).
        intros Hin. apply (Hd _ Hin). by left. }
      rewrite decide_False in H1 by done. destruct H1 as [-> ->].
      replace (IDX2NSID (NSID2IDX nsid)) with nsid by (unfold IDX2NSID, NSID2IDX; lia).
      assert (wp (flush_all nsid false turns) (λ _ s', ∃ ds' c',
        s' = Ftl _ _ (mk ds' c' idle h) man smp ∧ serves k d ds' c' ∧ durable nsid false d ds' c' ∧ same_consts (ds_dom ds) (ds_dom ds') ∧
        ∀ n, n ≠ GTD_FILENAME nsid → file ds' n = file ds n) (Ftl _ _ (mk ds c idle h) man smp)) as Hw.
      { eapply wp_flush_all; [exact Hs|done..|]. intros ds' c' ? ? ? ?. by exists ds', c'. }
      unfold flush_all, ftl_flush_ns in Hw. apply wp_bind in Hw. wp_step.
      eapply wp_mono; [exact Hw|]. intros [] s1 Hw1. apply wp_bind in Hw1. wp_step. eapply wp_mono; [exact Hw1|].
      intros r s2 (ds2 & c2 & -> & H2). wp_step. exists ds2, c2. split; [done|]. by rewrite decide_True by set_solver.
    + rewrite bool_decide_eq_false_2 by done. exists ds1, c1. split; [done|].
      destruct (decide (NSID2IDX nsid ∈ pre)); [rewrite decide_True by set_solver|rewrite decide_False by set_solver]; done.
  - intros [] s (ds1 & c1 & -> & H1). rewrite decide_True in H1 by (apply elem_of_seqZ; lia). destruct H1 as (? & ? & ? & ?). by apply HQ.
Qed.
Lemma wp_sync turns d ds c h man smp (Q : () → ftl → Prop) :
  serves (ndirty c + Z.to_nat (xlate_bound ds c)) d ds c → configured man (d_total_xlate_pages (ds_dom ds)) →
  bad_file (m_fs (bm_mach (ds_bm ds))) →
  height (dc_root c) ≤ Z.of_nat AVL_MAX_DEPTH → xlate_bound ds c < 65535 → d_nsid (ds_dom ds) = nsid →
  Forall (λ i, 0 ≤ i < 8) turns → (∀ i, 0 ≤ i < 8 → i ∈ turns) →
  (∀ ds1 c1 m, serves 0 d ds1 c1 → durable nsid false d ds1 c1 → same_consts (ds_dom ds) (ds_dom ds1) →
     on_volume man ds1 m → Q tt (Ftl _ _ (mk (with_mach m ds1) c1 idle h) man smp)) →
  wp (ftl_sync turns) Q (Ftl _ _ (mk ds c idle h) man smp).
Proof.
  intros Hs Hcf (cb & maps & Hcb & Hsb & Hlb) Hh HB Hid Ht Hall HQ. unfold ftl_sync. wp_step.
  destruct (gtd_name nsid) as (N1 & N2 & N3).
  apply (wp_flush_loop_ns turns 0 d); try done; [by rewrite Nat.add_0_r|].
  intros ds1 c1 Hs1 Hdu Hsc Hf1. wp_step. apply wp_lift.
  change (lget (Ftl _ _ (mk ds1 c1 idle h) man smp)) with (ds_bm ds1).
  pose proof (ci_inv _ _ _ _ _ _ _ _ (sr_inv _ _ _ _ _ _ _ _ _ _ Hs1)) as Hi1.
  apply wp_shutdown; [apply Hi1|]. intros f Hpf Hof. wp_step.
  set (m1 := set_fs f (scratch (bm_mach (ds_bm ds1)))).
  assert (∀ b, lset (Bm _ m1 (bm_planes (ds_bm ds1))) (Ftl _ _ (mk ds1 c1 b h) man smp) = Ftl _ _ (mk (with_mach m1 ds1) c1 b h) man smp) as -> by done.
  apply wp_save_manifest; [by intros e f'|]. intros f2 Hm2 Ho2. cbn [ft_manifest] in Hm2. wp_step.
  change (lset _ _) with (Ftl _ _ (mk (with_mach (set_fs f2 m1) ds1) c1 idle h) man smp).
  change (m_fs (fmach _)) with f in Ho2.
  apply HQ; try done. destruct (du_map _ _ _ _ _ Hdu eq_refl) as [Hcl Hg]. split; try done.
  - cbn [m_fs set_fs]. rewrite Ho2 by done. by rewrite Hof.
  - destruct Hpf as (cp & Hcp & Hsp). exists cp. split; [|done]. cbn [m_fs set_fs]. by rewrite Ho2.
  - exists cb, maps. split; [|done]. cbn [m_fs set_fs]. rewrite Ho2 by done. rewrite Hof by done.
    etrans; [|exact Hcb]. apply (Hf1 BAD_BLOCKS_FILE). by intros E; apply N2.
Qed.
End sync.

(** * Starting again *)
(** Power is lost: flash and volume remain; memory, planes, domains, cache and
    manifest are gone.  [next], [man]: what the allocator and the variable
    start with. *)
Definition power_cycle (next : Z) (man : manifest) (s : ftl) : ftl :=
  let m := fmach s in
  Ftl _ _ (Dc _ _ (Amu _ (Bm _ (Mach _ (m_dev m) ∅ next (m_fs m) zero_stats) ∅) ∅ ∅) (dc_init 0) idle (dc_host (ft_dc s))) man [].
(** No build flag is set. *)
Definition plain : build_flags := BuildFlags false false false false.
Definition fresh_amu (b : bm) : amu := Amu _ b ∅ ∅.
Definition booted (b : bm) (h : host) (man : manifest) : ftl :=
  Ftl _ _ (Dc _ _ (fresh_amu b) (dc_init CONFIG_DATA_CACHE_CAPACITY) idle h) man [].
(** The namespace is back, in the domain at [ptr]. *)
Record back (d : disk) (ds : dom_st) (h : host) (man : manifest) (ptr : Z) (u : amu) (ds' : dom_st) (s : ftl) : Prop := {
  bk_state : s = Ftl _ _ (mk ptr u ds' (dc_init CONFIG_DATA_CACHE_CAPACITY) idle h) man [];
  bk_inv : dci P nsid ptr u ∅ [] ds' (dc_init CONFIG_DATA_CACHE_CAPACITY);
  bk_total : d_total_xlate_pages (ds_dom ds') = d_total_xlate_pages (ds_dom ds);
  bk_disk : ∀ lba x, d !! lba = Some x → view nsid [] ds' (dc_init CONFIG_DATA_CACHE_CAPACITY) (lba / 4) (Z.to_nat (lba mod 4)) x;
}.
(** What is in flash, in the domain [ds] that was shut down. *)
Record in_flash (d : disk) (ds : dom_st) : Prop := {
  if_nsid : bad_nsid nsid = false;
  if_prog : ∀ l, owner_ok (ds_dom ds) (OData l) → programmed ds l;
  if_disk : ∀ lba x, d !! lba = Some x → owner_ok (ds_dom ds) (OData (lba / 4)) ∧ readsv ds (lba / 4) (Z.to_nat (lba mod 4)) x;
}.

Lemma wp_reattach d ds m b h man (Q : rc → ftl → Prop) tlp : on_volume man ds m → in_flash d ds →
  bm_inv b → mem_wf (bm_mach b) → m_dev (bm_mach b) = m_dev m → contents (m_fs (bm_mach b)) = contents (m_fs m) →
  (∀ a, page_fresh b a → page_fresh (ds_bm ds) a) → 0 ≤ tlp → pages_of tlp = d_total_xlate_pages (ds_dom ds) →
  (∀ ptr u ds' s, back d ds h man ptr u ds' s → Q R0 s) →
  wp (lift (amu_attach_domain nsid CONFIG_MAPPING_TABLE_CAPACITY tlp false)) Q (booted b h man).
Proof.
  intros [Hi Hcl Hnd Hgtd _ _ _] [Hbn Hpr Hdk] Hb Hm Edev Efs Hfr Ht Htot HQ. pose proof Hi as [_ _ _ Hd].
  pose proof (dw_gtd _ _ _ _ _ Hd) as Hg. pose proof (dw_total _ _ _ _ _ Hd) as Htt.
  apply wp_lift. change (lget (booted b h man)) with (fresh_amu b).
  set (gtd := take (Z.to_nat (d_total_xlate_pages (ds_dom ds))) (d_gtd (ds_dom ds))) in *.
  apply (wp_attach nsid _ tlp false gtd); try done.
  { cbn [gtd_init]. by rewrite <-Hgtd, <-Efs. }
  { unfold gtd. rewrite length_take. lia. }
  intros ptr ws m' ds' [Hm'1 Hm'2 Hm'3] Eds Hl _ Hptr Hat. cbn [fresh_amu am_bm am_domains am_active] in *.
  destruct (reattached P ds ds' nsid (CONFIG_MAPPING_TABLE_CAPACITY / XLATE_PG_SIZE) tlp DEFAULT_PLANE_ALLOCATE_SCHEME ws) as [Hi' Hmap]; try done.
  - by rewrite Eds.
  - intros a. rewrite <-Hnd, <-Edev. rewrite Eds. apply Hm'1.
  - intros a Ha. apply Hfr. revert Ha. by apply (page_fresh_planes b (ds_bm ds')); rewrite Eds.
  - apply (bm_inv_planes b); [by rewrite Eds|done].
  - rewrite Eds. destruct Hm as [M1 M2]. cbn in *. split; [lia|]. intros id bb. rewrite Hm'2. intros E. apply M2 in E. lia.
  - assert (∀ o, owner_ok (ds_dom ds) o ↔ owner_ok (ds_dom ds') o) as Ho.
    { rewrite Eds. intros []; cbn [owner_ok fresh_dom d_total_xlate_pages ds_dom]; by rewrite Htot. }
    assert (∀ a, nandv ds' a = nandv ds a) as Hn' by (intros a; rewrite <-Hnd, <-Edev, Eds; apply Hm'1).
    set (u := Amu _ (ds_bm ds') _ _) in *. apply (HQ ptr u ds').
    assert (with_dom ptr ds' u = u) as Eu by (unfold with_dom, u; cbn; by rewrite insert_insert_eq).
    split.
    + unfold mk. by rewrite Eu.
    + apply dci_empty; [done|done|]. intros l Hol Hne. apply Ho in Hol. rewrite (proj1 (Hmap l Hol)), Hn' in *.
      by apply Hpr.
    + rewrite Eds. cbn. done.
    + intros lba x Hx. apply view_empty. destruct (Hdk lba x Hx) as [Hol Hr]. by apply Hmap.
Qed.

Lemma wp_attach_loop d ds m b h man (Q : () → ftl → Prop) : on_volume man ds m → in_flash d ds → configured man (d_total_xlate_pages (ds_dom ds)) →
  bm_inv b → mem_wf (bm_mach b) → m_dev (bm_mach b) = m_dev m → contents (m_fs (bm_mach b)) = contents (m_fs m) →
  (∀ a, page_fresh b a → page_fresh (ds_bm ds) a) →
  (∀ ptr u ds' s, back d ds h man ptr u ds' s → Q tt s) →
  wp (for_each (seqZ 0 NAMESPACE_MAX) (λ i,
    m ← the_manifest;
    ns_meta ← deref (namespaces m !! Z.to_nat i);
    do_if (GET_BIT (active_namespace m) i)
      (r ← lift (amu_attach_domain (IDX2NSID i) CONFIG_MAPPING_TABLE_CAPACITY (ns_pages ns_meta) false);
       assert (is_ok r)))) Q (booted b h man).
Proof.
  intros Hov Hif [Hmo Hact (x & Hx & Hx0 & Hxp)] Hb Hm Edev Efs Hfr HQ.
  assert (0 ≤ NSID2IDX nsid < NAMESPACE_MAX) as Hr.
  { pose proof (if_nsid _ _ Hif) as Hbn. unfold bad_nsid in Hbn.
    apply orb_false_iff in Hbn as [?%Z.leb_gt ?%Z.ltb_ge]. unfold NSID2IDX. lia. }
  eapply wp_mono; [apply (wp_for_each (λ pre s, ft_manifest s = man ∧
    if decide (NSID2IDX nsid ∈ pre) then ∃ ptr u ds', back d ds h man ptr u ds' s else s = booted b h man))|].
  - split; [done|]. by rewrite decide_False by apply not_elem_of_nil.
  - intros pre i post s El [Em H1]. assert (i ∈ seqZ 0 NAMESPACE_MAX) as Hi by (rewrite El; set_solver).
    apply elem_of_seqZ in Hi. unfold the_manifest. wp_step. wp_step. rewrite Em. wp_step. apply wp_deref.
    destruct (lookup_lt_is_Some_2 (namespaces man) (Z.to_nat i)) as [y Hy].
    { rewrite (mo_namespaces _ Hmo). unfold NAMESPACE_MAX in Hi. lia. }
    exists y. split; [done|]. rewrite Hact by lia. wp_step. destruct (decide (i = NSID2IDX nsid)) as [->|Hne].
    + rewrite bool_decide_eq_true_2 by done. rewrite Hx in Hy. injection Hy as <-.
      assert (NSID2IDX nsid ∉ pre) as Hni.
      { assert (NoDup (seqZ 0 NAMESPACE_MAX)) as Hnd by apply NoDup_seqZ. rewrite El in Hnd. apply NoDup_app in Hnd as (_ & Hd & _).
        intros Hin. apply (Hd _ Hin). by left. }
      rewrite decide_False in H1 by done. rewrite H1.
      replace (IDX2NSID (NSID2IDX nsid)) with nsid by (unfold IDX2NSID, NSID2IDX; lia). wp_step.
      apply (wp_reattach d ds m); try done. intros ptr u ds' s' Hbk. wp_step; [done|]. split; [by rewrite (bk_state _ _ _ _ _ _ _ _ Hbk)|].
      rewrite decide_True by set_solver. by exists ptr, u, ds'.
    + rewrite bool_decide_eq_false_2 by done. split; [done|].
      destruct (decide (NSID2IDX nsid ∈ pre)); [rewrite decide_True by set_solver|rewrite decide_False by set_solver]; done.
  - intros [] s [_ H1]. rewrite decide_True in H1 by (apply elem_of_seqZ; lia). destruct H1 as (ptr & u & ds' & Hbk). by eapply HQ.
Qed.

(** The whole start-up. *)
Lemma wp_init d ds man next man0 s (Q : () → ftl → Prop) : on_volume man ds (fmach s) → in_flash d ds →
  configured man (d_total_xlate_pages (ds_dom ds)) → 0 < next →
  (∀ ptr u ds' s', back d ds (dc_host (ft_dc s)) man ptr u ds' s' → Q tt s') →
  wp (ftl_init plain) Q (power_cycle next man0 s).
Proof.
  intros Hov Hif Hcf Hnext HQ. set (h := dc_host (ft_dc s)). unfold ftl_init. cbn [plain WIPE_SSD WIPE_MANIFEST WIPE_MAPPING_TABLE FULL_BAD_BLOCK_SCAN orb].
  set (m0 := Mach _ (m_dev (fmach s)) ∅ next (m_fs (fmach s)) zero_stats).
  wp_step. apply wp_lift. unfold fat_stat. wp_step. change (lget (power_cycle next man0 s)) with m0. cbn [m_fs].
  rewrite (proj2 (open_live MANIFEST_FILENAME (m_fs m0) ltac:(eexists; apply (ov_manifest _ _ _ Hov)))).
  rewrite bool_decide_eq_true_2 by done. cbn [negb orb]. wp_step. wp_step.
  apply (wp_restore_manifest (manifest_words man)); [done|apply Hov|done|by rewrite restore_result_ok by apply Hcf|].
  intros _ f Hf. rewrite take_ge by (rewrite manifest_words_length by apply Hcf; done). rewrite words_manifest_words by apply Hcf.
  wp_step; [done|]. wp_step. wp_step. wp_step. apply wp_lift.
  set (m1 := set_fs f (scratch m0)).
  match goal with |- wp _ _ (lget ?x) => change (lget x) with (Bm _ m1 ∅) end.
  assert (contents f = contents (m_fs (fmach s))) as Ef by exact Hf.
  apply (wp_bm_restart (ds_bm ds)).
  - apply (ov_inv _ _ _ Hov).
  - destruct (ov_planes _ _ _ Hov) as (c & Hc & Hsv). exists c. split; [|done]. cbn. by rewrite Ef.
  - destruct (ov_bad _ _ _ Hov) as (c & maps & Hc & Hsv & Hl). exists c, maps. split; [|done]. cbn. by rewrite Ef.
  - cbn. lia.
  - intros id _. cbn. by rewrite delete_insert_eq, delete_empty.
  - intros b Hb [Kd Km Kn Kf] Hfr. cbn in Kd, Km, Kn, Kf.
    match goal with |- wp _ _ ?x => change x with (booted b h man) end.
    apply (wp_attach_loop d ds (fmach s)); try done.
    + split; [lia|]. intros id bb. rewrite Km, delete_insert_eq, delete_empty. done.
    + by rewrite Kf, Ef.
Qed.
End restart.
