(* ===== verification/FtlTheorems.v ===== *)
(** The properties of the flash translation layer's front end: it implements a
    block device, whose contents survive flushing, shutting down and starting
    again; segmentation; the manifest; namespace management; two defects. *)
From S2P Require Import Prelude Bitmap Avl Flash Machine Sim BlockManager BlockMaps BlockRestart Amu AmuFacts AmuSpec AmuWrite AmuDispatch AmuFlush AmuAttach DataCache DataCacheFacts DataCacheSpec DataCacheWrite DataCacheStore DataCacheRead DataCacheFetch DataCacheFlush AmuTheorems DataCacheTheorems Ftl FtlSegment FtlRefine FtlFlush FtlNamespaces FtlRestart.

#[local] Unset Default Proof Using.
Section theorems.
Context {PL : Platform} {PO : @PlatformOk PL} {EL : @EccLive PL} {AL : @AllocLive PL} {RL : @ReadLive PL}.
Context {WL : @WriteLive PL} {DL : @DmaLive PL} {FL : @FsLive PL}.
Context {HO : Host} {HK : @HostOk HO}.

(** C1: refinement.  On working devices the flash translation layer implements
    the abstract block device: every list of read, write and write-zeroes
    requests that the block device completes is completed with the same effect
    on the stored sectors and on the memory of the host, whatever is evicted,
    written back or translated on the way, as long as there is room for the
    pages the requests touch.  One case is left out ([results_assigned]): a
    write-zeroes request of which every page is cached when it runs returns a
    variable that [write_buffers] never assigned; the theorem holds for it when
    that variable happens to be 0, and [dc_write_zeroes_indeterminate] shows what
    happens otherwise. *)
Theorem ftl_refines_block_device P nsid ptr u0 fl nblocks cap r0 turns reqs k b b' s :
  nblocks < 2 ^ 63 → Forall (req_ok nsid cap) reqs → bd_run nblocks reqs b = Some b' → results_assigned nsid r0 turns reqs s = true →
  ftl_sim P nsid ptr u0 fl nblocks cap (sum_list (req_pages <$> reqs) + k) b s →
  ∃ s', ftl_run r0 turns reqs s = Some (replicate (length reqs) R0, s') ∧ ftl_sim P nsid ptr u0 fl nblocks cap k b' s'.
Proof.
  intros Hnb Hok Hx Hra Hs. pose proof (wp_exec_run P nsid ptr u0 fl nblocks cap r0 turns reqs k Hnb Hok b b' s Hx Hra Hs) as Hw.
  apply wp_run in Hw as (rs & s' & E & -> & Hs'). by exists s'.
Qed.

(** C3: persistence.  After [ftl_sync] has returned, power may be lost: a start
    with [ftl_init] reads the manifest, the free blocks, the bad blocks and the
    directory back, attaches the namespace again, and every sector that the
    block device held reads as before. *)
Theorem ftl_power_cycle P nsid ptr u0 nblocks cap turns d ds c h man smp :
  serves P nsid ptr u0 nblocks cap (ndirty c + Z.to_nat (xlate_bound ds c)) d ds c →
  configured nsid man (d_total_xlate_pages (ds_dom ds)) → bad_file (m_fs (bm_mach (ds_bm ds))) →
  height (dc_root c) ≤ Z.of_nat AVL_MAX_DEPTH → xlate_bound ds c < 65535 → d_nsid (ds_dom ds) = nsid →
  Forall (λ i, 0 ≤ i < 8) turns → (∀ i, 0 ≤ i < 8 → i ∈ turns) →
  ∃ s1, ftl_sync turns (Ftl _ _ (mk ptr u0 ds c idle h) man smp) = Some (tt, s1) ∧
    ∀ next man0, 0 < next → ∃ s2 ptr' u' ds', ftl_init plain (power_cycle next man0 s1) = Some (tt, s2) ∧
      back P nsid d ds h man ptr' u' ds' s2.
Proof.
  intros Hs Hcf Hbad Hh HB Hid Ht Hall.
  assert (wp (ftl_sync turns) (λ _ s1, ∃ ds1 c1 m, serves P nsid ptr u0 nblocks cap 0 d ds1 c1 ∧ durable nsid false d ds1 c1 ∧
    same_consts (ds_dom ds) (ds_dom ds1) ∧ on_volume P nsid man ds1 m ∧ s1 = Ftl _ _ (mk ptr u0 (with_mach m ds1) c1 idle h) man smp)
    (Ftl _ _ (mk ptr u0 ds c idle h) man smp)) as Hw.
  { eapply (wp_sync P nsid ptr u0 nblocks cap); [done..|]. intros ds1 c1 m ? ? ? ?. by exists ds1, c1, m. }
  apply wp_run in Hw as ([] & s1 & E & ds1 & c1 & m & Hs1 & Hdu & Hsc & Hov & Es1). exists s1. split; [done|].
  intros next man0 Hnext.
  assert (d_total_xlate_pages (ds_dom ds1) = d_total_xlate_pages (ds_dom ds)) as Et by apply Hsc.
  enough (wp (ftl_init plain) (λ _ s2, ∃ ptr' u' ds', back P nsid d ds1 h man ptr' u' ds' s2) (power_cycle next man0 s1)) as Hw.
  { apply wp_run in Hw as ([] & s2 & E2 & ptr' & u' & ds' & [B1 B2 B3 B4]). exists s2, ptr', u', ds'. split; [done|].
    split; [done|done|congruence|done]. }
  apply (wp_init P nsid d ds1 man); rewrite ?Et; try done; try by rewrite Es1.
  - split.
    + apply (ci_at _ _ _ _ _ _ _ _ (sr_inv _ _ _ _ _ _ _ _ _ _ Hs1)).
    + apply (sr_inv _ _ _ _ _ _ _ _ _ _ Hs1).
    + intros lba x Hx. split; [|by apply Hdu]. eapply serves_owner; [exact Hs1|]. by eapply (sr_disk _ _ _ _ _ _ _ _ _ _ Hs1).
  - intros ptr' u' ds' s2 Hb. exists ptr', u', ds'. by rewrite Es1 in Hb.
Qed.

(** C5: durability.  A flush request, with the flushers in any order, completes
    with every cached page clean and every sector of the block device readable
    from flash; a full flush also leaves the translation pages clean and the
    directory on the volume.  The device still serves the same contents. *)
Theorem ftl_flush_durable P nsid ptr u0 nblocks cap data_only r0 turns req k d ds c h man smp :
  rq_req_type req = (if data_only : bool then IOREQ_FLUSH_DATA else IOREQ_FLUSH) → rq_nsid_ req = nsid →
  serves P nsid ptr u0 nblocks cap (ndirty c + (Z.to_nat (xlate_bound ds c) + k)) d ds c →
  height (dc_root c) ≤ Z.of_nat AVL_MAX_DEPTH → xlate_bound ds c < 65535 → d_nsid (ds_dom ds) = nsid →
  Forall (λ i, 0 ≤ i < 8) turns → (∀ i, 0 ≤ i < 8 → i ∈ turns) →
  ∃ ds' c', ftl_process_request r0 turns req (Ftl _ _ (mk ptr u0 ds c idle h) man smp) =
      Some (R0, Ftl _ _ (mk ptr u0 ds' c' idle h) man smp) ∧
    serves P nsid ptr u0 nblocks cap k d ds' c' ∧ durable nsid data_only d ds' c'.
Proof.
  intros Hty Hn Hs Hh HB Hid Ht Hall.
  assert (wp (flush_all nsid data_only turns) (λ r s', r = R0 ∧ ∃ ds' c', s' = Ftl _ _ (mk ptr u0 ds' c' idle h) man smp ∧
    serves P nsid ptr u0 nblocks cap k d ds' c' ∧ durable nsid data_only d ds' c') (Ftl _ _ (mk ptr u0 ds c idle h) man smp)) as Hw.
  { eapply (wp_flush_all P nsid ptr u0 nblocks cap); [done..|]. intros ds' c' ? ? _ _. split; [done|]. by exists ds', c'. }
  apply wp_run in Hw as (r & s' & E & -> & ds' & c' & -> & H1 & H2). exists ds', c'. split; [|done].
  unfold ftl_process_request. rewrite Hty, Hn. by destruct data_only.
Qed.
End theorems.

Section segmentation.
Context {PL : Platform} {HO : Host}.
(** C24: segmentation terminates on every platform.  It makes one transaction for
    each logical page touched, in order: their blocks are exactly those of the
    request, each transaction stays within its page and its bitmap has exactly
    the bits of its sectors; or an allocation failed, and the answer is
    ENOMEM and no transaction. *)
Theorem segment_correct req s :
  0 ≤ rq_start_lba req → 0 ≤ rq_sector_count req → rq_sector_count req + 4 < 2 ^ 32 →
  rq_start_lba req + rq_sector_count req < 2 ^ 64 → 0 < m_next (lget s : mach) →
  ∃ r l s', segment_user_request req s = Some ((r, l), s') ∧ ((∀ n, alloc_ok n = true) → r = R0) ∧
    match r with
    | Err e => e = ENOMEM ∧ l = []
    | R0 =>
        let s := rq_start_lba req in let n := rq_sector_count req in
        concat (txn_lbas <$> l) = seqZ s n ∧ NoDup (t_lpa <$> l) ∧
        (0 < n → Z.of_nat (length l) = (s + n + 3) / 4 - s / 4) ∧
        ∀ t, t ∈ l → (txn_from t + txn_len t ≤ 4)%nat ∧ (0 < txn_len t)%nat ∧
          ∀ i, bit (t_bitmap t) i = true ↔ (txn_from t ≤ i < txn_from t + txn_len t)%nat
    end.
Proof.
  intros Hs Hn H32 H64 Hx.
  enough (wp (segment_user_request req) (λ '(r, l) _, ((∀ n, alloc_ok n = true) → r = R0) ∧
    match r with Err e => e = ENOMEM ∧ l = [] | R0 => segments req (rq_start_lba req) (rq_start_lba req + rq_sector_count req) l end) s) as Hw.
  { apply wp_run in Hw as ([r l] & s' & E & Hl & Hr). exists r, l, s'. split; [done|]. split; [done|].
    destruct r as [|e]; [|done]. destruct Hr as [G1 G2 G3 G4]. cbv zeta. split; [|split; [done|]; split].
    - rewrite G2. f_equal. lia.
    - intros Hp. rewrite (proj2 (Z.ltb_lt _ _)) in G4 by lia. done.
    - intros t Ht. destruct (G1 t Ht) as (b & z & -> & Hp & _).
      destruct (segment_txn_fields req b z Hp) as (-> & -> & _). unfold piece_ok in Hp. pose proof (Z.mod_pos_bound b 4).
      split; [lia|]. split; [lia|]. intros i.
      destruct (piece_bitmap_bits (b mod 4) z i ltac:(lia) ltac:(lia) ltac:(lia)) as [_ Hb]. etrans; [exact Hb|]. lia. }
  apply wp_segment_total; try done. intros m' _ (n & Ha). split; [|done]. intros Hall. by rewrite Hall in Ha.
Qed.
End segmentation.

Section manifests.
Context {PL : Platform} {PO : @PlatformOk PL} {AL : @AllocLive PL} {FL : @FsLive PL} {HO : Host}.
(** What [save_manifest] writes, [restore_manifest] reads back, whatever
    happened to memory in between. *)
Theorem manifest_roundtrip s : manifest_ok (ft_manifest s) →
  ∃ s1, save_manifest s = Some (R0, s1) ∧ ft_manifest s1 = ft_manifest s ∧ ft_dc s1 = lset (fmach s1) (ft_dc s) ∧
    ∀ s2, files s2 = files s1 → 0 < m_next (fmach s2) →
      ∃ s3, restore_manifest s2 = Some (R0, s3) ∧ ft_manifest s3 = ft_manifest s ∧ files s3 = files s1.
Proof.
  intros Hm.
  assert (wp save_manifest (λ r s1, r = R0 ∧ ∃ f, s1 = lset (set_fs f (fmach s)) s ∧
    contents f MANIFEST_FILENAME = Some (manifest_words (ft_manifest s))) s) as Hw.
  { apply wp_save_manifest; [by intros e f|]. intros f Hf _. split; [done|]. by exists f. }
  apply wp_run in Hw as (r & s1 & E & -> & f & -> & Hf). exists (lset (set_fs f (fmach s)) s). split; [done|].
  split; [done|]. split; [done|]. intros s2 Hf2 Hn2.
  assert (wp restore_manifest (λ r s3, r = R0 ∧ ft_manifest s3 = ft_manifest s ∧ files s3 = files s2) s2) as Hw.
  { apply (wp_restore_manifest (manifest_words (ft_manifest s))); [done|by rewrite Hf2|done|by rewrite restore_result_ok|].
    intros _ f' Hf'. rewrite take_ge by (by rewrite manifest_words_length). rewrite words_manifest_words by done.
    split; [done|]. split; [done|]. exact Hf'. }
  apply wp_run in Hw as (r & s3 & E3 & -> & ? & ?). exists s3. split; [done|]. split; [done|]. congruence.
Qed.
(** A manifest file that is too short, or does not have the magic number,
    version and number of namespaces of this program, is refused with EIO,
    EBADMSG or ENOTSUP, and the manifest in memory stays as it is. *)
Theorem manifest_refused c s : files s MANIFEST_FILENAME = Some c → 0 < m_next (fmach s) → restore_result c ≠ R0 →
  ∃ s', restore_manifest s = Some (restore_result c, s') ∧ ft_manifest s' = ft_manifest s.
Proof.
  intros Hc Hn Hr. assert (wp restore_manifest (λ r s', r = restore_result c ∧ ft_manifest s' = ft_manifest s) s) as Hw.
  { by apply (wp_restore_manifest c). }
  apply wp_run in Hw as (r & s' & E & -> & ?). by exists s'.
Qed.
End manifests.

Section namespace_management.
Context {PL : Platform} {HO : Host}.
(** C25: whatever sequence of create, attach, detach and delete is carried out
    (with any outcome), the manifest stays well-formed and every active namespace
    is allocated; [reset_manifest] establishes this. *)
Theorem ftl_namespaces_invariant ops s s' : Forall ns_op_ok ops → ns_wf (ft_manifest s) →
  for_each ops ns_exec s = Some (tt, s') → ns_wf (ft_manifest s').
Proof. intros Hok Hs E. exact (wlp_ns_ops ops s Hok Hs _ _ E). Qed.

(** C26: every refusal of namespace management: EINVAL for an id out of range,
    ESRCH for a namespace that is not allocated, ENOENT for detaching one that
    is not active and EBUSY for attaching one that is.  Nothing changes. *)
Theorem ftl_namespace_errors nsid s : manifest_ok (ft_manifest s) → 0 ≤ nsid →
  let alloc := GET_BIT (allocated_namespace (ft_manifest s)) (NSID2IDX nsid) in
  let act := GET_BIT (active_namespace (ft_manifest s)) (NSID2IDX nsid) in
  (¬ 1 ≤ nsid ≤ NAMESPACE_MAX →
     ftl_attach_namespace nsid s = Some (Err EINVAL, s) ∧ ftl_detach_namespace nsid s = Some (Err EINVAL, s) ∧
     ftl_delete_namespace nsid s = Some (Err EINVAL, s) ∧ ftl_get_namespace nsid s = Some ((Err EINVAL, None), s)) ∧
  (1 ≤ nsid ≤ NAMESPACE_MAX →
     (alloc = false → ftl_attach_namespace nsid s = Some (Err ESRCH, s) ∧ ftl_delete_namespace nsid s = Some (Err ESRCH, s) ∧
        ftl_get_namespace nsid s = Some ((Err ESRCH, None), s)) ∧
     (act = false → ftl_detach_namespace nsid s = Some (Err ENOENT, s)) ∧
     (alloc = true → act = true → ftl_attach_namespace nsid s = Some (Err EBUSY, s))).
Proof.
  intros Hm Hn alloc act. unfold ftl_attach_namespace, ftl_detach_namespace, ftl_delete_namespace, ftl_get_namespace. split.
  - intros Hb. rewrite (proj2 (orb_true_iff (nsid =? 0) _)), (proj2 (orb_true_iff (nsid <=? 0) _)) by lia. done.
  - intros Hr. destruct (namespace_index nsid Hr) as [-> ->]. cbv zeta. unfold mbind, ST_bind, the_manifest, gets.
    fold alloc act.
    destruct (lookup_lt_is_Some_2 (namespaces (ft_manifest s)) (Z.to_nat (NSID2IDX nsid))) as [x Hx].
    { rewrite (mo_namespaces _ Hm). unfold NSID2IDX, NAMESPACE_MAX in *. lia. }
    rewrite Hx. cbn [deref mret ST_ret]. split_and!; [by intros ->|by intros ->|by intros -> ->].
Qed.

Context {PO : @PlatformOk PL}.
Lemma save_manifest_same s : ∃ r s', save_manifest s = Some (r, s') ∧ ft_manifest s' = ft_manifest s.
Proof.
  enough (wp save_manifest (λ _ s', ft_manifest s' = ft_manifest s) s) as Hw.
  { apply wp_run in Hw as (r & s' & ? & ?). by exists r, s'. }
  by apply wp_save_manifest.
Qed.
(** C38: creating a namespace always completes: it takes the smallest free id,
    records the size and capacity asked for, not active, and leaves what is
    known of the others; ENFILE, and no change, when all ids are taken. *)
Theorem ftl_create_correct info s : ns_wf (ft_manifest s) →
  ∃ r s', ftl_create_namespace info s = Some (r, s') ∧
  let alloc nsid := GET_BIT (allocated_namespace (ft_manifest s)) (NSID2IDX nsid) in
  match r with
  | inl e => e = ENFILE ∧ s' = s ∧ ∀ nsid, 1 ≤ nsid ≤ NAMESPACE_MAX → alloc nsid = true
  | inr nsid => 1 ≤ nsid ≤ NAMESPACE_MAX ∧ alloc nsid = false ∧ (∀ i, 1 ≤ i < nsid → alloc i = true) ∧
      ftl_get_namespace nsid s' = Some ((R0, Some (NsInfo false (ni_size_blocks info) (ni_capacity_blocks info) (ni_capacity_blocks info))), s') ∧
      ∀ i, 1 ≤ i ≤ NAMESPACE_MAX → i ≠ nsid → fst <$> ftl_get_namespace i s' = fst <$> ftl_get_namespace i s
  end.
Proof.
  intros [Hm Hsub]. unfold ftl_create_namespace, the_manifest. cbv zeta.
  set (m := ft_manifest s) in *. set (idx := find_next_zero_bit (allocated_namespace m) NAMESPACE_MAX 0).
  assert (first_from (λ i, negb (Bitmap.bit (allocated_namespace m) i)) 0 NAMESPACE_MAX idx) as [Hr Hbefore].
  { apply find_next_zero_bit_first; [apply Hm|done|done]. }
  assert (∀ i, 0 ≤ i < idx → GET_BIT (allocated_namespace m) i = true) as Hall.
  { intros i Hi. rewrite GET_BIT_bit. apply negb_false_iff. by apply Hbefore. }
  unfold mbind, ST_bind, gets. fold m. fold idx. destruct (Z.leb_spec NAMESPACE_MAX idx) as [Hge|Hlt].
  { exists (inl ENFILE), s. split; [done|]. split; [done|]. split; [done|]. intros nsid Hn. apply Hall. unfold NSID2IDX. lia. }
  destruct Hr as [Hr|[Hr Hfree]]; [lia|]. rewrite <-GET_BIT_bit in Hfree. apply negb_true_iff in Hfree.
  unfold set_manifest, modify. set (m' := set_allocated _ _). set (s1 := Ftl _ _ _ m' _).
  destruct (save_manifest_same s1) as (r & s' & -> & Em). exists (inr (IDX2NSID idx)), s'. split; [done|].
  assert (NSID2IDX (IDX2NSID idx) = idx) as Ei by (unfold NSID2IDX, IDX2NSID; lia). rewrite Ei.
  assert (1 ≤ IDX2NSID idx ≤ NAMESPACE_MAX) as Hid by (unfold IDX2NSID; lia).
  split; [done|]. split; [done|]. split; [intros i Hi; apply Hall; unfold NSID2IDX, IDX2NSID in *; lia|].
  change (ft_manifest s1) with m' in Em. split.
  - rewrite get_namespace_eq, Em, Ei by done. cbn [m' set_allocated set_namespace allocated_namespace namespaces active_namespace].
    rewrite (ns_set_bit _ (mo_allocated _ Hm)) by lia. rewrite bool_decide_eq_true_2 by done. cbn [orb].
    rewrite list_lookup_insert_eq by (rewrite (mo_namespaces _ Hm); unfold NAMESPACE_MAX in *; lia).
    destruct (GET_BIT (active_namespace m) idx) eqn:Ea; [|done]. by rewrite (Hsub idx Hr Ea) in Hfree.
  - intros i Hi Hne. rewrite !get_namespace_eq, Em by done. cbn [m' set_allocated set_namespace allocated_namespace namespaces active_namespace].
    assert (NSID2IDX i ≠ idx) as Hni by (unfold NSID2IDX, IDX2NSID in *; lia).
    rewrite (ns_set_bit _ (mo_allocated _ Hm)) by (unfold NSID2IDX in *; lia). rewrite bool_decide_eq_false_2 by done. cbn [orb].
    rewrite list_lookup_insert_ne by (unfold NSID2IDX in *; lia). fold m. destruct (GET_BIT (allocated_namespace m) (NSID2IDX i)); [|done]. by destruct (namespaces m !! Z.to_nat (NSID2IDX i)).
Qed.
End namespace_management.

(** * Examples *)
(** Namespace 1 of 8192 pages behind a data cache of 8 pages. *)
Definition ex_ftl (c : data_cache) (man : manifest) : ftl := Ftl sim sim_host (mk 9 ex_u ex_s c idle ex_host) man [].
Definition ex_reqs : list user_request :=
  [Req IOREQ_WRITE 1 21 6 (1, 0) 0; Req IOREQ_WRITE_ZEROES 1 23 6 (0, 0) 0; Req IOREQ_READ 1 22 4 (2, 0) 0].
Lemma ex_serves k c d : (k ≤ 16)%nat → dci ex_P 1 9 ex_u ∅ [] ex_s c →
  (∀ lba x, d !! lba = Some x → 0 ≤ lba < 32768 ∧ view 1 [] ex_s c (lba / 4) (Z.to_nat (lba mod 4)) x) →
  serves ex_P 1 9 ex_u 32768 (capacity_pages c) k d ex_s c.
Proof. intros Hk Hi Hd. split; [done|by vm_compute|done|by apply ex_room|done]. Qed.

Theorem ftl_refines_block_device_witness : ∃ s' b', ftl_run (Err EIO) [] ex_reqs (ex_ftl (ex_dc0 8) (Manifest 0 0 0 [] [] [])) = Some ([R0; R0; R0], s') ∧
  ftl_sim ex_P 1 9 ex_u idle 32768 8 0 b' s' ∧ host_mem (bd_host b') (2, 0, 0) 4 = [[2]; zero_sector; zero_sector; zero_sector].
Proof.
  destruct (bd_run 32768 ex_reqs (Bdev ∅ ex_host)) as [b'|] eqn:E; [|exfalso; revert E; vm_compute; discriminate].
  destruct (ftl_refines_block_device ex_P 1 9 ex_u idle 32768 8 (Err EIO) [] ex_reqs 0 (Bdev ∅ ex_host) b'
    (ex_ftl (ex_dc0 8) (Manifest 0 0 0 [] [] []))) as (s' & Er & Hs).
  - lia.
  - repeat constructor; cbn; try lia; vm_compute; discriminate.
  - exact E.
  - vm_compute. reflexivity.
  - exists ex_s, (ex_dc0 8), (Manifest 0 0 0 [] [] []), []. split; [reflexivity|].
    apply (ex_serves _ (ex_dc0 8)); [vm_compute; lia|apply ex_dci0|]. intros lba x Hx. cbn [bd_disk] in Hx. discriminate Hx.
  - exists s', b'. split; [exact Er|]. split; [exact Hs|].
    assert ((λ b, host_mem (bd_host b) (2, 0, 0) 4) <$> bd_run 32768 ex_reqs (Bdev ∅ ex_host) = Some [[2]; zero_sector; zero_sector; zero_sector]) as Hh
      by (vm_compute; reflexivity).
    rewrite E in Hh. by injection Hh.
Defined.

(** Page 5 is dirty in the cache: blocks 20 to 23. *)
Definition ex_disk : disk := {[22 := [7]]}.
Lemma ex_disk_view lba x : ex_disk !! lba = Some x → 0 ≤ lba < 32768 ∧ view 1 [] ex_s ex_dc1 (lba / 4) (Z.to_nat (lba mod 4)) x.
Proof.
  unfold ex_disk. intros [<- <-]%lookup_singleton_Some. split; [lia|]. exists (ex_buf 7). split; reflexivity.
Qed.
Definition ex_man : manifest := Manifest MANIFEST_MAGIC MANIFEST_VERSION NAMESPACE_MAX [1] [1]
  (NsMeta 32768 32768 32768 :: replicate 31 (NsMeta 0 0 0)).
Lemma ex_configured : configured 1 ex_man 2.
Proof.
  split.
  - split; try done; split; try done; repeat constructor; lia.
  - intros i Hi. assert (Forall (λ i, GET_BIT [1] i = bool_decide (i = NSID2IDX 1)) (seqZ 0 NAMESPACE_MAX)) as Hf
      by (apply (bool_decide_unpack _); by vm_compute).
    rewrite Forall_forall in Hf. apply Hf, elem_of_seqZ. lia.
  - exists (NsMeta 32768 32768 32768). split_and!; [done|by vm_compute..].
Qed.
Lemma ex_bad_file : bad_file (m_fs (bm_mach (ds_bm ex_s))).
Proof.
  exists (replicate 1536 0), (replicate 64 (replicate 17 0)). split; [reflexivity|]. split; [|by rewrite plane_ids_length]. split.
  - intros k m [-> Hk]%lookup_replicate. split; [done|]. intros i w [-> Hi]%lookup_replicate.
    apply lookup_replicate_2.
    assert (Forall (λ k, map_off k + 17 ≤ 1536)%nat (seq 0 64)) as Hf by (apply (bool_decide_unpack _); by vm_compute).
    rewrite Forall_forall in Hf. specialize (Hf k ltac:(apply elem_of_seq; lia)). lia.
  - exists 3%nat. split; [done|]. simpl. lia.
Qed.
Definition ex_turns : list Z := [3; 5; 1; 0; 2; 4; 7; 6].
Lemma ex_turns_ok : Forall (λ i, 0 ≤ i < 8) ex_turns ∧ ∀ i, 0 ≤ i < 8 → i ∈ ex_turns.
Proof. split; [repeat constructor; lia|]. intros i Hi. apply list_elem_of_In. simpl. lia. Qed.

Theorem ftl_power_cycle_witness : ∃ s1 s2 ds', ftl_sync ex_turns (ex_ftl ex_dc1 ex_man) = Some (tt, s1) ∧
  ftl_init plain (power_cycle 1 (Manifest 0 0 0 [] [] []) s1) = Some (tt, s2) ∧ view 1 [] ds' (dc_init CONFIG_DATA_CACHE_CAPACITY) 5 2 [7].
Proof.
  destruct (ftl_power_cycle ex_P 1 9 ex_u 32768 2 ex_turns ex_disk ex_s ex_dc1 ex_host ex_man []) as (s1 & E1 & H1).
  - apply (ex_serves _ ex_dc1); [vm_compute; lia|apply ex_dci1|apply ex_disk_view].
  - exact ex_configured.
  - exact ex_bad_file.
  - vm_compute. discriminate.
  - vm_compute. reflexivity.
  - reflexivity.
  - apply ex_turns_ok.
  - apply ex_turns_ok.
  - destruct (H1 1 (Manifest 0 0 0 [] [] [])) as (s2 & ptr' & u' & ds' & E2 & Hb); [lia|].
    exists s1, s2, ds'. split; [exact E1|]. split; [exact E2|]. apply (bk_disk _ _ _ _ _ _ _ _ _ _ Hb 22). reflexivity.
Defined.
Theorem ftl_flush_durable_witness : ∃ ds' c', ftl_process_request R0 ex_turns (Req IOREQ_FLUSH 1 0 0 (0, 0) 0) (ex_ftl ex_dc1 ex_man) =
  Some (R0, Ftl sim sim_host (mk 9 ex_u ds' c' idle ex_host) ex_man []) ∧ readsv ds' 5 2 [7].
Proof.
  destruct (ftl_flush_durable ex_P 1 9 ex_u 32768 2 false R0 ex_turns (Req IOREQ_FLUSH 1 0 0 (0, 0) 0) 0 ex_disk ex_s ex_dc1 ex_host ex_man [])
    as (ds' & c' & E & _ & Hd).
  - reflexivity.
  - reflexivity.
  - apply (ex_serves _ ex_dc1); [vm_compute; lia|apply ex_dci1|apply ex_disk_view].
  - vm_compute. discriminate.
  - vm_compute. reflexivity.
  - reflexivity.
  - apply ex_turns_ok.
  - apply ex_turns_ok.
  - exists ds', c'. split; [exact E|]. apply (du_flash _ _ _ _ _ Hd 22). reflexivity.
Defined.
Theorem segment_correct_witness : ∃ l s', segment_user_request (Req IOREQ_READ 1 22 4 (2, 0) 0) (ex_ftl ex_dc1 ex_man) = Some ((R0, l), s') ∧
  concat (txn_lbas <$> l) = [22; 23; 24; 25].
Proof.
  destruct (segment_correct (Req IOREQ_READ 1 22 4 (2, 0) 0) (ex_ftl ex_dc1 ex_man)) as (r & l & s' & E & Hr & H1).
  - simpl. lia.
  - simpl. lia.
  - simpl. lia.
  - simpl. lia.
  - vm_compute. reflexivity.
  - rewrite (Hr ltac:(intros; reflexivity)) in E, H1. exists l, s'. split; [exact E|]. apply H1.
Defined.
Theorem manifest_roundtrip_witness : ∃ s1, save_manifest (ex_ftl ex_dc1 ex_man) = Some (R0, s1).
Proof.
  destruct (manifest_roundtrip (ex_ftl ex_dc1 ex_man)) as (s1 & E & _); [exact (cf_ok _ _ _ ex_configured)|]. exists s1. exact E.
Defined.
(** A manifest of another version. *)
Definition ex_old : ftl := lset (set_fs ({[MANIFEST_FILENAME := MANIFEST_MAGIC :: replicate 99 0]} : sim_fs) ex_mach) (ex_ftl ex_dc1 ex_man).
Theorem manifest_refused_witness : ∃ s', restore_manifest ex_old = Some (Err ENOTSUP, s').
Proof.
  destruct (manifest_refused (MANIFEST_MAGIC :: replicate 99 0) ex_old) as (s' & E & _).
  - reflexivity.
  - vm_compute. reflexivity.
  - vm_compute. discriminate.
  - exists s'. exact E.
Defined.

Definition ex_new : ftl := Ftl sim sim_host (Dc sim sim_host (Amu sim ex_bm ∅ ∅) (ex_dc0 8) idle ex_host)
  (Manifest MANIFEST_MAGIC MANIFEST_VERSION NAMESPACE_MAX [0] [0] (replicate 32 (NsMeta 0 0 0))) [].
Lemma ex_new_wf : ns_wf (ft_manifest ex_new).
Proof.
  split; [split; try done; split; try done; repeat constructor; lia|].
  intros i Hi. cbn [ex_new ft_manifest active_namespace]. change [0] with (bitmap_zero NAMESPACE_MAX). by rewrite GET_BIT_bit, bit_zero.
Qed.
Definition ex_info : namespace_info := NsInfo false 32768 32768 0.
Definition ex_ops : list ns_op := [NsCreate ex_info; NsAttach 1; NsCreate ex_info; NsDelete 1].
Theorem ftl_namespaces_invariant_witness : ∃ s', for_each ex_ops ns_exec ex_new = Some (tt, s') ∧ ns_wf (ft_manifest s').
Proof.
  assert (match for_each ex_ops ns_exec ex_new with Some _ => true | None => false end = true) as Hrun by (vm_compute; reflexivity).
  destruct (for_each ex_ops ns_exec ex_new) as [[[] s']|] eqn:E; [|discriminate Hrun].
  exists s'. split; [reflexivity|]. apply (ftl_namespaces_invariant ex_ops ex_new s').
  - repeat constructor; simpl; lia.
  - exact ex_new_wf.
  - exact E.
Defined.
Theorem ftl_namespace_errors_witness : ftl_attach_namespace 3 ex_new = Some (Err ESRCH, ex_new).
Proof.
  destruct (ftl_namespace_errors 3 ex_new) as [_ H].
  - apply ex_new_wf.
  - lia.
  - apply (H ltac:(unfold NAMESPACE_MAX; lia)). reflexivity.
Defined.
Theorem ftl_create_correct_witness : ∃ r s', ftl_create_namespace ex_info ex_new = Some (r, s').
Proof.
  destruct (ftl_create_correct ex_info ex_new) as (r & s' & E & _); [exact ex_new_wf|]. exists r, s'. exact E.
Defined.

(** * Defects *)
(** Defect.  Deleting a namespace leaves its pages in the data cache: a
    new namespace, which is given the same id, reads the data of the old one. *)
Theorem ftl_deleted_data_visible :
  fst <$> (r1 ← ftl_create_namespace ex_info;
    r2 ← ftl_attach_namespace 1;
    r3 ← ftl_process_request R0 [] (Req IOREQ_WRITE 1 20 4 (1, 0) 0);
    r4 ← ftl_delete_namespace 1;
    r5 ← ftl_create_namespace ex_info;
    r6 ← ftl_attach_namespace 1;
    r7 ← ftl_process_request R0 [] (Req IOREQ_READ 1 20 4 (2, 0) 0);
    h ← gets (λ s : ftl, dc_host (ft_dc s));
    mret (r1, r2, r3, (r4, r5, r6, r7), host_mem h (2, 0, 0) 4)) ex_new
  = Some (inr 1, R0, R0, (R0, inr 1, R0, R0), [[1]; [2]; [3]; [4]]).
Proof. by vm_compute. Qed.

(** Defect.  No layer compares the blocks of a request with the size of the
    namespace: in a namespace of four blocks, a write of blocks 20 to 23
    succeeds, and they can be read. *)
Theorem ftl_lba_unchecked :
  fst <$> (_ ← ftl_create_namespace (NsInfo false 4 4 0);
    _ ← ftl_attach_namespace 1;
    r3 ← ftl_process_request R0 [] (Req IOREQ_WRITE 1 20 4 (1, 0) 0);
    r7 ← ftl_process_request R0 [] (Req IOREQ_READ 1 20 4 (2, 0) 0);
    h ← gets (λ s : ftl, dc_host (ft_dc s));
    mret (r3, r7, host_mem h (2, 0, 0) 4)) ex_new
  = Some (R0, R0, [[1]; [2]; [3]; [4]]).
Proof. by vm_compute. Qed.
