(* ===== verification/Prp.v ===== *)
(** Transfers to and from the buffers of NVMe commands: the PRP traversal of
    hostif/nvme.c, [nvme_dma_read] and [nvme_dma_write].

    The PCIe requester (hostif/nvme_pcie.c) and the copy to buffers of the
    in-storage processor are the typeclass [Pcie]; memory is bytes. *)
From S2P Require Import Prelude Bitmap Avl Flash Machine BlockManager Amu DataCache.
#[local] Open Scope Z_scope.

Definition NVME_PAGE_SIZE : Z := 0x1000.

(** * The link *)

(** [hmem]: the bytes of the host's memory; [smem]: those of the in-storage
    processor.  A read delivers what the receiving buffer holds afterwards. *)
Class Pcie := {
  link : Type;
  hmem : link → Z → Z;
  smem : link → Z → Z;
  pcie_dma_read : Z → Z → link → rc * list Z * link;
  pcie_dma_write : Z → list Z → link → rc * link;
  (** [zdma_iter_copy_to] and [zdma_iter_copy_from]: the returned size first. *)
  zdma_from_phys : Z → Z → link → Z * list Z * link;
  zdma_to_phys : Z → list Z → link → Z * link;
  (** Bytes stored into the memory of the in-storage processor. *)
  smem_store : Z → list Z → link → link;
  (** What buffers hold that a failed transfer did not reach. *)
  stale : nat → link → list Z;
}.
Class PcieOk `{Pcie} : Prop := {
  dma_read_len : ∀ a n k r l k', pcie_dma_read a n k = (r, l, k') → length l = Z.to_nat n;
  dma_read_ok : ∀ a n k l k', pcie_dma_read a n k = (R0, l, k') → l = hmem k <$> seqZ a n ∧ k' = k;
  dma_write_ok : ∀ a l k k', pcie_dma_write a l k = (R0, k') → ∀ x,
    hmem k' x = if decide (a ≤ x < a + Z.of_nat (length l)) then default 0 (l !! Z.to_nat (x - a)) else hmem k x;
  smem_store_ok : ∀ a l k, hmem (smem_store a l k) = hmem k ∧ ∀ x,
    smem (smem_store a l k) x = if decide (a ≤ x < a + Z.of_nat (length l)) then default 0 (l !! Z.to_nat (x - a)) else smem k x;
  phys_read_ok : ∀ a n k l k', zdma_from_phys a n k = (n, l, k') → k' = k;
}.
(** The link never fails. *)
Class PcieLive `{Pcie} : Prop := {
  dma_read_live : ∀ a n k r l k', pcie_dma_read a n k = (r, l, k') → r = R0;
  dma_write_live : ∀ a l k r k', pcie_dma_write a l k = (r, k') → r = R0;
}.

(** * Bytes *)
Definition word_bytes (w : Z) : list Z := [w mod 256; Z.shiftr w 8 mod 256; Z.shiftr w 16 mod 256; Z.shiftr w 24 mod 256].
Definition sector_bytes (s : sector) : list Z := concat (word_bytes <$> s).
Fixpoint le_value (l : list Z) : Z :=
  match l with [] => 0 | b :: l => b + 256 * le_value l end.
Fixpoint words_of (n : nat) (l : list Z) : list Z :=
  match n with O => [] | S n => le_value (take 4 l) :: words_of n (drop 4 l) end.
Fixpoint sectors_of (n : nat) (l : list Z) : list sector :=
  match n with O => [] | S n => words_of 1024 (take 4096 l) :: sectors_of n (drop 4096 l) end.
(** The little-endian doublewords of a PRP list. *)
Fixpoint u64s_of (n : nat) (l : list Z) : list Z :=
  match n with O => [] | S n => le_value (take 8 l) :: u64s_of n (drop 8 l) end.

(** * Operations *)
Section ops.
Context `{Pcie}.

(** [x_iter]: for a read, the bytes delivered to the segments so far; for a
    write, the bytes that are still to be taken from them. *)
Record xfer := Xfer { x_link : link; x_iter : list Z }.

Definition flush_dma (do_write : bool) (addr count : Z) : ST xfer rc := λ s,
  if do_write then
    let '(r, k) := pcie_dma_write addr (take (Z.to_nat count) (x_iter s)) (x_link s) in
    Some (r, Xfer k (drop (Z.to_nat count) (x_iter s)))
  else
    let '(r, l, k) := pcie_dma_read addr count (x_link s) in
    Some (r, Xfer k (x_iter s ++ l)).
Definition read_prp_list (addr len : Z) : ST xfer (rc * list Z) := λ s,
  let '(r, l, k) := pcie_dma_read addr len (x_link s) in
  Some ((r, u64s_of (Z.to_nat (len / 8)) l), Xfer k (x_iter s)).

(** The number of list entries to read for [count] bytes, at most [limit]. *)
Definition nr_prps (count limit : Z) : Z :=
  let nprps := u32 (roundup count NVME_PAGE_SIZE / NVME_PAGE_SIZE + 1) in
  let nprps := Z.land (u32 (nprps + 3)) (Z.lnot 3) in
  Z.min nprps limit.

(** At the last entry that was read, with more than a page to go: the entry
    points to the rest of the list. *)
Definition next_list (l : list Z) (i nprps count : Z) : ST xfer (rc * list Z * Z * Z) :=
  if (i =? nprps - 1) && (NVME_PAGE_SIZE <? count) then
    e ← deref (l !! Z.to_nat i);
    assert (Z.land e (NVME_PAGE_SIZE - 1) =? 0) ≫= λ _,
    let nprps := nr_prps count (Z.shiftr NVME_PAGE_SIZE 3) in
    '(r, l) ← read_prp_list e (Z.shiftl nprps 3);
    mret (r, l, 0, nprps)
  else mret (R0, l, i, nprps).
(** Extend the pending transfer by an adjacent range, or start another. *)
Definition add_range (do_write : bool) (dma_addr dma_size addr chunk : Z) : ST xfer (rc * Z * Z) :=
  if u64 (dma_addr + dma_size) =? addr then mret (R0, dma_addr, dma_size + chunk)
  else
    r ← flush_dma do_write dma_addr dma_size;
    mret (r, addr, chunk).
(** [fuel]: every round transfers a byte at least. *)
Fixpoint prp_loop (fuel : nat) (do_write : bool) (prp_list : list Z) (i nprps count dma_addr dma_size : Z) : ST xfer rc :=
  match fuel with
  | O => stuck
  | S fuel =>
      '(r, prp_list, i, nprps) ← next_list prp_list i nprps count;
      match r with
      | Err _ => mret r
      | R0 =>
          e ← deref (prp_list !! Z.to_nat i);
          let offset := e mod NVME_PAGE_SIZE in
          let chunk := Z.min (NVME_PAGE_SIZE - offset) count in
          '(r, dma_addr, dma_size) ← add_range do_write dma_addr dma_size e chunk;
          match r with
          | Err _ => mret r
          | R0 =>
              let count := count - chunk in
              if count =? 0 then
                if 0 <? dma_size then flush_dma do_write dma_addr dma_size else mret R0
              else prp_loop fuel do_write prp_list (i + 1) nprps count dma_addr dma_size
          end
      end
  end.
Definition transfer_prp_data (do_write : bool) (prp1 prp2 count max_size : Z) : ST xfer rc :=
  assert (count <=? max_size) ≫= λ _,
  if count =? 0 then mret R0
  else
    let offset := prp1 mod NVME_PAGE_SIZE in
    let chunk := Z.min (NVME_PAGE_SIZE - offset) count in
    let dma_addr := prp1 in
    let dma_size := chunk in
    let count := count - chunk in
    let max_size := max_size - chunk in
    if count =? 0 then flush_dma do_write dma_addr dma_size
    else if max_size <=? NVME_PAGE_SIZE then
      '(r, dma_addr, dma_size) ← add_range do_write dma_addr dma_size prp2 count;
      match r with Err _ => mret r | R0 => flush_dma do_write dma_addr dma_size end
    else
      let offset := prp2 mod NVME_PAGE_SIZE in
      let nprps := nr_prps count (Z.shiftr (NVME_PAGE_SIZE - offset) 3) in
      '(r, prp_list) ← read_prp_list prp2 (Z.shiftl nprps 3);
      match r with
      | Err _ => mret r
      | R0 => prp_loop (Z.to_nat count) do_write prp_list 0 nprps count dma_addr dma_size
      end.
Definition read_prp_data : Z → Z → Z → Z → ST xfer rc := transfer_prp_data false.
Definition write_prp_data : Z → Z → Z → Z → ST xfer rc := transfer_prp_data true.

(** [nvme_dma_read] and [nvme_dma_write] on whole segments of [n] sectors. *)
Definition dma_in (tgt : target) (n : nat) (k : link) : option (rc * list sector * link) :=
  let '(prp1, prp2, buf_phys) := tgt in
  let count := Z.of_nat n * SECTOR_SIZE in
  if negb (buf_phys =? 0) then
    if (prp1 =? 0) && (prp2 =? 0) then
      let '(r, l, k) := zdma_from_phys buf_phys count k in
      Some (if r =? count then R0 else Err EFAULT, sectors_of n l, k)
    else None
  else
    match read_prp_data prp1 prp2 count count (Xfer k []) with
    | Some (r, s) => Some (r, sectors_of n (x_iter s ++ stale n (x_link s)), x_link s)
    | None => None
    end.
Definition dma_out (tgt : target) (l : list sector) (k : link) : option (rc * link) :=
  let '(prp1, prp2, buf_phys) := tgt in
  let bytes := concat (sector_bytes <$> l) in
  let count := Z.of_nat (length l) * SECTOR_SIZE in
  if negb (buf_phys =? 0) then
    if (prp1 =? 0) && (prp2 =? 0) then
      let '(r, k) := zdma_to_phys buf_phys bytes k in
      Some (if r =? count then R0 else Err EFAULT, k)
    else None
  else
    match write_prp_data prp1 prp2 count count (Xfer k bytes) with
    | Some (r, s) => Some (r, x_link s)
    | None => None
    end.
End ops.

(** The host of the data cache.  Its memory at a target is what a read delivers;
    for well-formed PRPs this is the memory they describe. *)
#[export] Instance prp_host `{Pcie} : Host := {|
  host := link;
  host_mem k tgt n := match dma_in tgt n k with Some (_, l, _) => l | None => sectors_of n [] end;
  host_in := dma_in;
  host_out := dma_out;
|}.
