(* ===== verification/PrpFacts.v ===== *)
(** What the PRP fields of a command describe, and that the transfers of Prp.v
    move exactly the bytes described, in order, whatever ranges they merge. *)
From S2P Require Import Prelude Bitmap Avl Flash Machine BlockManager Amu DataCache Prp.
#[local] Open Scope Z_scope.
#[local] Unset Default Proof Using.

(** * PRP lists *)
Definition prp_entry (m : Z → Z) (a : Z) : Z := le_value (m <$> seqZ a 8).
(** The list at [a] describes [count] more bytes: the page ranges [l], read from
    the entries at [es].  The last entry of a page of the list points to the rest
    of the list if more than a page is left to describe. *)
Inductive prp_list_at (m : Z → Z) : Z → Z → list (Z * Z) → list Z → Prop :=
  | pl_last a count : 0 < count ≤ NVME_PAGE_SIZE → prp_entry m a mod NVME_PAGE_SIZE = 0 →
      prp_list_at m a count [(prp_entry m a, count)] [a]
  | pl_page a count l es : NVME_PAGE_SIZE < count → a mod NVME_PAGE_SIZE ≠ NVME_PAGE_SIZE - 8 →
      prp_entry m a mod NVME_PAGE_SIZE = 0 →
      prp_list_at m (a + 8) (count - NVME_PAGE_SIZE) l es →
      prp_list_at m a count ((prp_entry m a, NVME_PAGE_SIZE) :: l) (a :: es)
  | pl_chain a count l es : NVME_PAGE_SIZE < count → a mod NVME_PAGE_SIZE = NVME_PAGE_SIZE - 8 →
      prp_entry m a mod NVME_PAGE_SIZE = 0 →
      prp_list_at m (prp_entry m a) count l es →
      prp_list_at m a count l (a :: es).

(** The ranges that PRP 1 and PRP 2 describe for a transfer of [count] bytes. *)
Inductive prp_described (m : Z → Z) (prp1 prp2 count : Z) : list (Z * Z) → list Z → Prop :=
  | pd_one : 0 < count ≤ NVME_PAGE_SIZE - prp1 mod NVME_PAGE_SIZE →
      prp_described m prp1 prp2 count [(prp1, count)] []
  | pd_two c1 : c1 = NVME_PAGE_SIZE - prp1 mod NVME_PAGE_SIZE → 0 < count - c1 ≤ NVME_PAGE_SIZE →
      prp_described m prp1 prp2 count [(prp1, c1); (prp2, count - c1)] []
  | pd_list c1 l es : c1 = NVME_PAGE_SIZE - prp1 mod NVME_PAGE_SIZE → NVME_PAGE_SIZE < count - c1 →
      prp2 mod 8 = 0 → prp_list_at m prp2 (count - c1) l es →
      prp_described m prp1 prp2 count ((prp1, c1) :: l) es.

Definition range_addrs (r : Z * Z) : list Z := seqZ r.1 r.2.
Definition addrs (l : list (Z * Z)) : list Z := l ≫= range_addrs.
Definition in_space (l : list (Z * Z)) : Prop := Forall (λ r, 0 ≤ r.1 ∧ r.1 + r.2 < 2 ^ 64) l.

Lemma prp_list_pos m a count l es : prp_list_at m a count l es → 0 < count.
Proof. induction 1; unfold NVME_PAGE_SIZE in *; lia. Qed.
Lemma addrs_length m a count l es : prp_list_at m a count l es → Z.of_nat (length (addrs l)) = count.
Proof.
  induction 1 as [a count Hc _|a count l es Hc _ _ _ IH|a count l es _ _ _ _ IH]; [..|done].
  - unfold addrs, range_addrs. rewrite bind_cons, length_app, length_seqZ. simpl. lia.
  - unfold addrs in *. rewrite bind_cons, length_app, Nat2Z.inj_add, IH. unfold range_addrs. rewrite length_seqZ. unfold NVME_PAGE_SIZE. simpl. lia.
Qed.

Lemma u64s_of_lookup n l j : (j < n)%nat → u64s_of n l !! j = Some (le_value (take 8 (drop (8 * j) l))).
Proof.
  revert l j. induction n as [|n IH]; intros l j Hj; [lia|]. destruct j as [|j].
  - done.
  - cbn [u64s_of lookup list_lookup]. change (u64s_of n (drop 8 l) !! j = Some (le_value (take 8 (drop (8 * S j) l)))).
    rewrite IH by lia. rewrite drop_drop. replace (8 + 8 * j)%nat with (8 * S j)%nat by lia. done.
Qed.
Lemma u64s_of_entries m a n j : (j < n)%nat →
  u64s_of n (m <$> seqZ a (8 * Z.of_nat n)) !! j = Some (prp_entry m (a + 8 * Z.of_nat j)).
Proof.
  intros Hj. rewrite u64s_of_lookup by done. unfold prp_entry. do 2 f_equal.
  rewrite <-fmap_drop, <-fmap_take. f_equal. apply list_eq. intros i. apply option_eq. intros x.
  rewrite lookup_take_Some, lookup_drop, !lookup_seqZ. lia.
Qed.

Lemma nr_prps_spec count limit : 0 < count < 2 ^ 40 → 0 ≤ limit →
  nr_prps count limit ≤ limit ∧ (nr_prps count limit = limit ∨ count ≤ (nr_prps count limit - 1) * NVME_PAGE_SIZE) ∧
  (0 < limit → 0 < nr_prps count limit).
Proof.
  intros Hc Hl. unfold nr_prps, NVME_PAGE_SIZE. cbv zeta.
  destruct (roundup_spec count 0x1000 ltac:(lia)) as [[q Hq] Hr]. rewrite Hq.
  rewrite Z.div_mul by lia. rewrite (u32_small (q + 1)) by lia. rewrite (u32_small (q + 1 + 3)) by lia.
  assert (Z.land (q + 1 + 3) (Z.lnot 3) = (q + 1 + 3) / 4 * 4) as ->.
  { rewrite <-Z.ldiff_land. change 3 with (Z.ones 2) at 2. rewrite Z.ldiff_ones_r by lia.
    rewrite Z.shiftr_div_pow2, Z.shiftl_mul_pow2 by lia. done. }
  split; [lia|]. split; [|dlia]. destruct (Z.le_gt_cases limit ((q + 1 + 3) / 4 * 4)); [left; lia|right; dlia].
Qed.

(** * Progress of a transfer *)
Section transfer.
Context `{PO : PcieOk}.

(** After the bytes at [ads] have been moved, from the link [k0] and the
    segments [it0]. *)
Definition moved (do_write : bool) (k0 : link) (it0 : list Z) (ads : list Z) (x : xfer) : Prop :=
  if do_write then
    x_iter x = drop (length ads) it0 ∧
    ∀ a, hmem (x_link x) a = foldl (λ v '(b, y), if decide (b = a) then y else v) (hmem k0 a) (zip ads it0)
  else x_link x = k0 ∧ x_iter x = it0 ++ (hmem k0 <$> ads).

Lemma foldl_last_write (a v : Z) l : a ∉ l.*1 → foldl (λ v '(b, y), if decide (b = a) then y else v) v l = v.
Proof.
  revert v. induction l as [|[b y] l IH]; intros v Hn; [done|]. cbn in Hn |- *. rewrite decide_False by set_solver.
  apply IH. set_solver.
Qed.
Lemma foldl_seq_write a n (l : list Z) x v : length l = Z.to_nat n → 
  foldl (λ v '(b, y), if decide (b = x) then y else v) v (zip (seqZ a n) l) =
  if decide (a ≤ x < a + n) then default 0 (l !! Z.to_nat (x - a)) else v.
Proof.
  intros Hl. case_decide as Hx.
  - assert (seqZ a n !! Z.to_nat (x - a) = Some x) as Hs by (apply lookup_seqZ; lia).
    destruct (lookup_lt_is_Some_2 l (Z.to_nat (x - a)) ltac:(lia)) as [y Hy].
    rewrite <-(take_drop_middle _ _ _ Hs) at 1. rewrite <-(take_drop_middle _ _ _ Hy) at 1.
    rewrite zip_with_app by (rewrite !length_take, length_seqZ; lia). cbn [zip_with]. rewrite foldl_app. cbn [foldl].
    rewrite decide_True by done. rewrite foldl_last_write; [by rewrite Hy|].
    intros ([b z] & -> & Hb)%list_elem_of_fmap_1. apply elem_of_lookup_zip_with in Hb as (j & b' & z' & [= -> ->] & Hb & _).
    cbn in *. rewrite lookup_drop, lookup_seqZ in Hb. lia.
  - apply foldl_last_write. intros ([b z] & -> & Hb)%list_elem_of_fmap_1.
    apply elem_of_lookup_zip_with in Hb as (j & b' & z' & [= -> ->] & Hb & _). cbn in *. rewrite lookup_seqZ in Hb. lia.
Qed.

Lemma zip_app_drop {A B} (l1 l2 : list A) (k : list B) : (length l1 ≤ length k)%nat →
  zip (l1 ++ l2) k = zip l1 (take (length l1) k) ++ zip l2 (drop (length l1) k).
Proof.
  intros Hl. rewrite <-(take_drop (length l1) k) at 1. rewrite zip_with_app; [done|]. rewrite length_take. lia.
Qed.

Lemma wp_flush_dma dw k0 it0 ads a n x : moved dw k0 it0 ads x → 0 ≤ n →
  (dw = true → (length ads + Z.to_nat n ≤ length it0)%nat) →
  wp (flush_dma dw a n) (λ r x', r = R0 → moved dw k0 it0 (ads ++ seqZ a n) x') x.
Proof.
  intros Hm Hn Hl. unfold flush_dma, wp. destruct dw; cbn in Hm.
  - destruct Hm as [Hi Hm]. destruct (pcie_dma_write _ _ _) as [r k] eqn:E. intros ->.
    pose proof (dma_write_ok _ _ _ _ E) as Hw. specialize (Hl eq_refl). rewrite Hi in E, Hw |- *. split; cbn.
    + by rewrite drop_drop, length_app, length_seqZ.
    + intros y. rewrite Hw, length_take, length_drop. rewrite Hm.
      rewrite zip_app_drop by lia. rewrite foldl_app.
      rewrite zip_with_take_r, <-(zip_with_take_r _ (seqZ a n)), length_seqZ.
      rewrite foldl_seq_write by (rewrite length_take, length_drop; lia). rewrite Nat.min_l by lia. rewrite Z2Nat.id by lia. done.
  - destruct Hm as [Hk Hi]. destruct (pcie_dma_read _ _ _) as [[r l] k] eqn:E. intros ->.
    destruct (dma_read_ok _ _ _ _ _ E) as [-> ->]. split; [done|]. cbn. by rewrite Hi, Hk, fmap_app, app_assoc.
Qed.

Lemma moved_outside dw k0 it0 ads x b : moved dw k0 it0 ads x → b ∉ ads → hmem (x_link x) b = hmem k0 b.
Proof.
  destruct dw; cbn; [|by intros [-> _]]. intros [_ Hm] Hb. rewrite Hm. apply foldl_last_write.
  intros ([c y] & -> & Hc)%list_elem_of_fmap_1. apply elem_of_lookup_zip_with in Hc as (j & b' & z' & [= -> ->] & Hc & _).
  apply Hb. by eapply list_elem_of_lookup_2.
Qed.

Context (dw : bool) (k0 : link) (it0 : list Z).
Notation m := (hmem k0).
Notation mv := (moved dw k0 it0).
Definition fits (n : nat) : Prop := dw = true → (n ≤ length it0)%nat.

Lemma wp_flush a n ads x (Q : rc → xfer → Prop) : mv ads x → 0 ≤ n → fits (length ads + Z.to_nat n) →
  (∀ r x', (PcieLive → r = R0) → (r = R0 → mv (ads ++ seqZ a n) x') → Q r x') → wp (flush_dma dw a n) Q x.
Proof.
  intros Hm Hn Hf HQ. apply (wp_mono _ (λ r x', (PcieLive → r = R0) ∧ (r = R0 → mv (ads ++ seqZ a n) x'))); [|by intros r x' []; auto].
  apply wp_and; [|by apply wp_flush_dma]. unfold flush_dma, wp. destruct dw.
  - destruct (pcie_dma_write _ _ _) as [r k] eqn:E. intros HL. by eapply dma_write_live.
  - destruct (pcie_dma_read _ _ _) as [[r l] k] eqn:E. intros HL. by eapply dma_read_live.
Qed.

Lemma wp_add_range da ds e chunk ads x (Q : rc * Z * Z → xfer → Prop) :
  mv ads x → 0 < ds → 0 ≤ da → da + ds < 2 ^ 64 → 0 < chunk → 0 ≤ e → e + chunk < 2 ^ 64 →
  fits (length ads + Z.to_nat ds) →
  (∀ r da' ds' x', (PcieLive → r = R0) →
     (r = R0 → ∃ ads', mv ads' x' ∧ ads' ++ seqZ da' ds' = ads ++ seqZ da ds ++ seqZ e chunk ∧
        0 < ds' ∧ 0 ≤ da' ∧ da' + ds' < 2 ^ 64) → Q (r, da', ds') x') →
  wp (add_range dw da ds e chunk) Q x.
Proof.
  intros Hm Hds Hda Hsum Hc He Hec Hf HQ. unfold add_range. rewrite u64_small by lia. destruct (Z.eqb_spec (da + ds) e) as [<-|_].
  - apply wp_ret. apply HQ; [done|]. intros _. exists ads. split; [done|]. split; [|lia].
    f_equal. rewrite seqZ_app by lia. done.
  - wp_step. eapply wp_flush; [done|lia|done|]. intros r x' HL Hr. wp_step. apply HQ; [done|]. intros ->.
    exists (ads ++ seqZ da ds). split; [by apply Hr|]. split; [by rewrite <-app_assoc|lia].
Qed.

(** The list [pl] read into memory, from entry [i]: it holds the entries of [es]
    from [a] on, and ends with its page or has an entry to spare. *)
Record covers (pl : list Z) (i nprps a count : Z) (es : list Z) : Prop := {
  cv_i : 0 ≤ i < nprps;
  cv_page : a mod NVME_PAGE_SIZE + 8 * (nprps - i) ≤ NVME_PAGE_SIZE;
  cv_end : a mod NVME_PAGE_SIZE + 8 * (nprps - i) = NVME_PAGE_SIZE ∨ count ≤ (nprps - i - 1) * NVME_PAGE_SIZE;
  cv_entry : ∀ j, 0 ≤ j < nprps - i → a + 8 * j ∈ es → pl !! Z.to_nat (i + j) = Some (prp_entry m (a + 8 * j));
}.
Definition list_safe (es : list Z) (ads : list Z) : Prop := ∀ e b, e ∈ es → e ≤ b < e + 8 → b ∉ ads.

Lemma wp_read_list a count es ads x (Q : rc * list Z → xfer → Prop) :
  let n := nr_prps count (Z.shiftr (NVME_PAGE_SIZE - a mod NVME_PAGE_SIZE) 3) in
  mv ads x → list_safe es ads → a mod 8 = 0 → 0 < count < 2 ^ 40 →
  (∀ r pl x', (PcieLive → r = R0) → (r = R0 → mv ads x' ∧ covers pl 0 n a count es) → Q (r, pl) x') →
  wp (read_prp_list a (Z.shiftl n 3)) Q x.
Proof.
  intros n Hm Hs Ha Hc HQ. unfold read_prp_list, wp. rewrite Z.shiftl_mul_pow2 by lia. change (2 ^ 3) with 8.
  set (lim := Z.shiftr (NVME_PAGE_SIZE - a mod NVME_PAGE_SIZE) 3) in *.
  assert (a mod NVME_PAGE_SIZE + 8 * lim = NVME_PAGE_SIZE ∧ 0 < lim) as [Hlim Hl0].
  { unfold lim. rewrite Z.shiftr_div_pow2 by lia. change (2 ^ 3) with 8. unfold NVME_PAGE_SIZE. clear -Ha. dlia. }
  destruct (nr_prps_spec count lim Hc ltac:(lia)) as (Hn1 & Hn2 & Hn3). fold n in Hn1, Hn2, Hn3.
  destruct (pcie_dma_read _ _ _) as [[r l] k] eqn:E. apply HQ; [intros HL; by eapply dma_read_live|].
  intros ->. destruct (dma_read_ok _ _ _ _ _ E) as [-> ->]. split; [by destruct x|]. rewrite Z.div_mul by lia. split.
  - lia.
  - lia.
  - rewrite Z.sub_0_r. destruct Hn2 as [->|Hn2]; [by left|by right].
  - intros j Hj He. replace (n * 8) with (8 * Z.of_nat (Z.to_nat n)) by lia. rewrite Z.add_0_l.
    rewrite u64s_of_entries by lia. f_equal. rewrite Z2Nat.id by lia. unfold prp_entry. f_equal. apply list_fmap_ext.
    intros q b Hb. apply lookup_seqZ in Hb as [-> Hb]. eapply moved_outside; [done|]. eapply Hs; [done|lia].
Qed.

Lemma page_mask e : Z.land e (NVME_PAGE_SIZE - 1) = e mod NVME_PAGE_SIZE.
Proof. unfold NVME_PAGE_SIZE. change (0x1000 - 1) with (Z.ones 12). rewrite Z.land_ones by lia. done. Qed.
(** [data_entry]: the entry at [a] describes data, it is not the link to the
    next page of the list. *)
Definition data_entry (a count : Z) : Prop := count ≤ NVME_PAGE_SIZE ∨ a mod NVME_PAGE_SIZE ≠ NVME_PAGE_SIZE - 8.
#[local] Instance data_entry_dec a count : Decision (data_entry a count).
Proof. unfold data_entry. apply _. Defined.
Lemma wp_next_list pl i nprps a count l es ads x (Q : rc * list Z * Z * Z → xfer → Prop) :
  prp_list_at m a count l es → covers pl i nprps a count es → count < 2 ^ 40 → mv ads x → list_safe es ads →
  (∀ r pl' i' n' x', (PcieLive → r = R0) → (r = R0 → mv ads x' ∧ ∃ a' es', prp_list_at m a' count l es' ∧
     data_entry a' count ∧ covers pl' i' n' a' count es' ∧ es' ⊆ es) → Q (r, pl', i', n') x') →
  wp (next_list pl i nprps count) Q x.
Proof.
  intros Hl Hcv Hc Hm Hs HQ. unfold next_list.
  assert (data_entry a count → (i =? nprps - 1) && (NVME_PAGE_SIZE <? count) = false) as Hstay.
  { intros Hd. apply andb_false_iff. destruct Hd as [Hd|Hd]; [right; lia|]. unfold NVME_PAGE_SIZE in *. destruct (Z.eqb_spec i (nprps - 1)) as [->|]; [right|by left].
    destruct Hcv as [? ? [He|He] _]; unfold NVME_PAGE_SIZE in *; lia. }
  destruct (decide (data_entry a count)) as [Hd|Hd].
  { rewrite Hstay by done. apply wp_ret, HQ; [done|]. intros _. split; [done|]. by exists a, es. }
  destruct Hl as [a count Hp He|a count l es Hp Hn He Hl|a count l es Hp Hn He Hl].
  - destruct Hd. left; lia.
  - destruct Hd. by right.
  - assert (i = nprps - 1) as Hi by (destruct Hcv; lia). rewrite (proj2 (Z.eqb_eq _ _) Hi), (proj2 (Z.ltb_lt _ _) Hp). cbn [andb].
    wp_step. apply wp_deref. exists (prp_entry m a). split.
    { pose proof (cv_entry _ _ _ _ _ _ Hcv 0 ltac:(lia)) as Hx. rewrite Z.mul_0_r, !Z.add_0_r in Hx. apply Hx. by left. }
    wp_step. wp_step; [rewrite page_mask; lia|]. cbv zeta. wp_step.
    replace (Z.shiftr NVME_PAGE_SIZE 3) with (Z.shiftr (NVME_PAGE_SIZE - prp_entry m a mod NVME_PAGE_SIZE) 3) by (rewrite He; done).
    apply (wp_read_list (prp_entry m a) count es ads); [done| | |unfold NVME_PAGE_SIZE in *; lia|].
    { intros e b He' Hb. eapply Hs; [by right|done]. }
    { unfold NVME_PAGE_SIZE in He. clear -He. dlia. }
    intros r pl' x' HL Hr. cbv beta iota. wp_step. apply HQ; [done|]. intros ->. destruct (Hr eq_refl) as [Hm' Hcv'].
    split; [done|]. exists (prp_entry m a), es. split; [done|]. split; [right; unfold NVME_PAGE_SIZE in *; lia|]. split; [done|].
    set_solver.
Qed.

Lemma list_safe_sub es es' ads : es' ⊆ es → list_safe es ads → list_safe es' ads.
Proof. intros Hsub Hs e b He. apply Hs. by apply Hsub. Qed.
(** The next entry: its range, and the rest of the list. *)
Lemma prp_list_step pl i nprps a count l es : prp_list_at m a count l es → data_entry a count → covers pl i nprps a count es →
  let e := prp_entry m a in let chunk := Z.min (NVME_PAGE_SIZE - e mod NVME_PAGE_SIZE) count in
  pl !! Z.to_nat i = Some e ∧ 0 < chunk ∧ ∃ l', l = (e, chunk) :: l' ∧
    ((count = chunk ∧ l' = []) ∨
     (0 < count - chunk ∧ ∃ es', es' ⊆ es ∧ prp_list_at m (a + 8) (count - chunk) l' es' ∧ covers pl (i + 1) nprps (a + 8) (count - chunk) es')).
Proof.
  intros Hl Hd Hcv e chunk.
  assert (pl !! Z.to_nat i = Some e) as Hi.
  { pose proof (cv_entry _ _ _ _ _ _ Hcv 0 ltac:(destruct Hcv; lia)) as Hx. rewrite Z.mul_0_r, !Z.add_0_r in Hx. apply Hx.
    destruct Hl; by left. }
  split; [done|]. destruct Hl as [a count Hp He|a count l es Hp Hn He Hl|a count l es Hp Hn He Hl].
  - assert (chunk = count) as -> by (unfold chunk, e; rewrite He; lia). split; [lia|]. exists []. split; [done|]. by left.
  - assert (chunk = NVME_PAGE_SIZE) as -> by (unfold chunk, e; rewrite He; lia). split; [done|]. exists l. split; [done|]. right.
    split; [lia|]. exists es. split; [set_solver|]. split; [done|].
    assert ((a + 8) mod NVME_PAGE_SIZE = a mod NVME_PAGE_SIZE + 8 ∨ NVME_PAGE_SIZE - 8 < a mod NVME_PAGE_SIZE) as Ha.
    { unfold NVME_PAGE_SIZE in *. clear -Hn. dlia. }
    destruct Hcv as [C1 C2 C3 C4]. clear Hl He. split; unfold NVME_PAGE_SIZE in *.
    + destruct C3; lia.
    + destruct Ha as [->|?]; lia.
    + destruct Ha as [->|?]; destruct C3; lia.
    + intros j Hj Hin. replace (i + 1 + j) with (i + (j + 1)) by lia. replace (a + 8 + 8 * j) with (a + 8 * (j + 1)) in * by lia.
      apply C4; [lia|]. by right.
  - destruct Hd; lia.
Qed.

Lemma wp_prp_loop fuel : ∀ pl i nprps a count l es da ds ads x (Q : rc → xfer → Prop),
  (Z.to_nat count ≤ fuel)%nat → count < 2 ^ 40 → prp_list_at m a count l es → in_space l → covers pl i nprps a count es →
  0 < ds → 0 ≤ da → da + ds < 2 ^ 64 → mv ads x → list_safe es (ads ++ seqZ da ds ++ addrs l) →
  fits (length ads + Z.to_nat ds + Z.to_nat count) →
  (∀ r x', (PcieLive → r = R0) → (r = R0 → mv (ads ++ seqZ da ds ++ addrs l) x') → Q r x') →
  wp (prp_loop fuel dw pl i nprps count da ds) Q x.
Proof.
  induction fuel as [|fuel IH]; intros pl i nprps a count l es da ds ads x Q Hfu Hc Hl Hsp Hcv Hds Hda Hsum Hm Hs Hf HQ.
  { pose proof (prp_list_pos _ _ _ _ _ Hl). lia. }
  cbn [prp_loop]. wp_step. eapply wp_next_list; [done..| |].
  { intros e b He Hb Hin. eapply Hs; [done..|]. set_solver. }
  intros [|er] pl1 i1 n1 x1 HL1 Hr1; cbv beta iota; [|wp_step; apply HQ; [done|by intros [=]]].
  destruct (Hr1 eq_refl) as (Hm1 & a1 & es1 & Hl1 & Hd1 & Hcv1 & Hsub1). clear Hr1.
  destruct (prp_list_step _ _ _ _ _ _ _ Hl1 Hd1 Hcv1) as (Hi1 & Hch & l' & -> & Hrest).
  set (e := prp_entry m a1) in *. set (chunk := Z.min _ count) in *. apply Forall_cons in Hsp as [[Hsp1 Hsp2] Hsp]. cbn [fst snd] in *.
  wp_step. apply wp_deref. exists e. split; [done|]. cbv zeta. fold chunk. wp_step.
  assert (chunk ≤ count) as Hcc by lia.
  eapply (wp_add_range da ds e chunk ads x1); [done..| |].
  { intros Hw. specialize (Hf Hw). lia. }
  intros [|er] da2 ds2 x2 HL2 Hr2; cbv beta iota; [|wp_step; apply HQ; [done|by intros [=]]].
  destruct (Hr2 eq_refl) as (ads2 & Hm2 & Eads & Hds2 & Hda2 & Hsum2). clear Hr2.
  assert (Eall : ads ++ seqZ da ds ++ addrs ((e, chunk) :: l') = ads2 ++ seqZ da2 ds2 ++ addrs l').
  { unfold addrs. rewrite bind_cons, app_assoc, app_assoc, app_assoc. rewrite Eads. unfold range_addrs at 1. cbn. by rewrite <-!app_assoc. }
  rewrite Eall in Hs, HQ.
  assert (length ads2 + Z.to_nat ds2 = length ads + Z.to_nat ds + Z.to_nat chunk)%nat as Elen.
  { apply (f_equal length) in Eads. rewrite !length_app, !length_seqZ in Eads. lia. }
  destruct Hrest as [[E ->]|(Hpos & es2 & Hsub2 & Hl2 & Hcv2)].
  - rewrite (proj2 (Z.eqb_eq (count - chunk) 0)) by lia. rewrite (proj2 (Z.ltb_lt _ _) Hds2).
    eapply wp_flush; [done|lia| |]; [intros Hw; specialize (Hf Hw); lia|]. intros r x3 HL3 Hr3. apply HQ; [done|].
    unfold addrs. cbn. rewrite app_nil_r. done.
  - rewrite (proj2 (Z.eqb_neq (count - chunk) 0)) by lia.
    eapply (IH _ _ _ (a1 + 8) (count - chunk) l' es2); [lia|lia|done..| | |done].
    + eapply list_safe_sub; [|done]. by etrans.
    + intros Hw. specialize (Hf Hw). lia.
Qed.

Lemma wp_transfer_prp prp1 prp2 count l es (Q : rc → xfer → Prop) : 0 ≤ prp1 →
  prp_described m prp1 prp2 count l es → count < 2 ^ 40 → in_space l → list_safe es (addrs l) → fits (Z.to_nat count) →
  (∀ r x', (PcieLive → r = R0) → (r = R0 → mv (addrs l) x') → Q r x') →
  wp (transfer_prp_data dw prp1 prp2 count count) Q (Xfer k0 it0).
Proof.
  intros Hp1 Hd Hc Hsp Hs Hf HQ. unfold transfer_prp_data. wp_step. wp_step; [lia|].
  assert (mv [] (Xfer k0 it0)) as Hm.
  { destruct dw; cbn; split; try done. by rewrite app_nil_r. }
  pose proof (Z.mod_pos_bound prp1 NVME_PAGE_SIZE eq_refl) as Hmod.
  destruct Hd as [[Hc0 Hc1]|c1 Ec1 Hc1|c1 l es Ec1 Hc1 Ha Hl]; rewrite (proj2 (Z.eqb_neq count 0)) by lia; cbv zeta.
  - rewrite Z.min_r by lia. rewrite Z.sub_diag. eapply (wp_flush _ _ []); [done|lia|done|]. intros r x' HL Hr. apply HQ; [done|].
    unfold addrs, range_addrs. cbn [mbind list_bind]. cbn. rewrite app_nil_r. exact Hr.
  - rewrite Z.min_l, <-Ec1 by lia. rewrite (proj2 (Z.eqb_neq _ 0)), (proj2 (Z.leb_le _ _)) by lia. wp_step.
    apply Forall_cons in Hsp as [[Hs1 Hs2] [[Hs3 Hs4] _]%Forall_cons]. cbn [fst snd] in *.
    eapply (wp_add_range prp1 c1 prp2 (count - c1) []); [done|lia..|intros Hw; specialize (Hf Hw); simpl; lia|].
    intros [|er] da ds x1 HL Hr; cbv beta iota; [|wp_step; apply HQ; [done|by intros [=]]].
    destruct (Hr eq_refl) as (ads & Hm1 & Ea & Hds & Hda & _).
    assert (addrs [(prp1, c1); (prp2, count - c1)] = ads ++ seqZ da ds) as Eall.
    { unfold addrs, range_addrs. cbn [mbind list_bind]. cbn. by rewrite app_nil_r, Ea. }
    eapply wp_flush; [done|lia| |].
    { intros Hw. specialize (Hf Hw). apply (f_equal length) in Ea. rewrite !length_app, !length_seqZ in Ea. simpl in Ea. lia. }
    intros r x2 HL2 Hr2. apply HQ; [done|]. by rewrite Eall.
  - rewrite Z.min_l, <-Ec1 by lia. rewrite (proj2 (Z.eqb_neq _ 0)), (proj2 (Z.leb_gt _ _)) by lia. wp_step.
    apply Forall_cons in Hsp as [[Hs1 Hs2] Hsp]. cbn [fst snd] in *.
    eapply (wp_read_list prp2 (count - c1) es []); [done| |done|lia|].
    { intros e b _ _. apply not_elem_of_nil. }
    intros [|er] pl x1 HL Hr; cbv beta iota; [|wp_step; apply HQ; [done|by intros [=]]]. destruct (Hr eq_refl) as [Hm1 Hcv].
    assert (addrs ((prp1, c1) :: l) = [] ++ seqZ prp1 c1 ++ addrs l) as Eall by done. rewrite Eall in Hs, HQ.
    eapply wp_prp_loop; [done|lia|done..|lia|lia|done|done|done| |exact HQ]. intros Hw. specialize (Hf Hw). simpl. lia.
Qed.
End transfer.

(** * Sectors and bytes *)
Definition word_ok (w : Z) : Prop := 0 ≤ w < 2 ^ 32.
Definition sector_ok (s : sector) : Prop := length s = 1024%nat ∧ Forall word_ok s.

Lemma le_word_bytes w : word_ok w → le_value (word_bytes w) = w.
Proof. unfold word_ok. intros Hw. unfold word_bytes. cbn [le_value]. rewrite !Z.shiftr_div_pow2 by lia. dlia. Qed.
Lemma words_of_bytes s : Forall word_ok s → words_of (length s) (sector_bytes s) = s.
Proof.
  induction 1 as [|w s Hw _ IH]; [done|]. unfold sector_bytes in *. rewrite fmap_cons. cbn [concat length words_of].
  change (drop 4 (word_bytes w ++ ?l)) with l. change (take 4 (word_bytes w ++ _)) with (word_bytes w).
  by rewrite le_word_bytes, IH.
Qed.
Lemma sector_bytes_length s : length (sector_bytes s) = (4 * length s)%nat.
Proof. unfold sector_bytes. rewrite (length_concat_const 4), length_fmap; [done|]. apply Forall_fmap, Forall_true. done. Qed.
Lemma sectors_of_bytes xs l : Forall sector_ok xs → sectors_of (length xs) (concat (sector_bytes <$> xs) ++ l) = xs.
Proof.
  induction 1 as [|s xs [Hl Hw] _ IH]; [done|]. rewrite fmap_cons. cbn [concat length sectors_of].
  assert (length (sector_bytes s) = 4096)%nat as Hlen by (rewrite sector_bytes_length; lia).
  rewrite <-app_assoc, take_app_length', drop_app_length' by done. rewrite IH. f_equal. rewrite <-Hl. by apply words_of_bytes.
Qed.
Lemma bytes_length xs : Forall sector_ok xs → length (concat (sector_bytes <$> xs)) = (4096 * length xs)%nat.
Proof.
  intros Hx. rewrite (length_concat_const 4096), length_fmap; [done|]. apply Forall_fmap. eapply Forall_impl; [exact Hx|].
  intros s [Hl _]. unfold compose. rewrite sector_bytes_length. lia.
Qed.
Lemma length_sectors_of n l : length (sectors_of n l) = n.
Proof. revert l. induction n as [|n IH]; intros l; [done|]. cbn [sectors_of length]. by rewrite IH. Qed.
Lemma sectors_of_app n l k : length l = (4096 * n)%nat → sectors_of n (l ++ k) = sectors_of n l.
Proof.
  revert l. induction n as [|n IH]; intros l Hl; [done|]. cbn [sectors_of]. rewrite take_app_le, drop_app_le by lia.
  f_equal. apply IH. rewrite length_drop. lia.
Qed.

(** * Whole transfers *)
Section whole.
Context `{PO : PcieOk}.

(** Well-formed PRPs for [n] sectors: the ranges are below the end of the
    address space and do not meet the entries of the list. *)
Record prps_ok (k : link) (prp1 prp2 : Z) (n : nat) (l : list (Z * Z)) (es : list Z) : Prop := {
  po_prp1 : 0 ≤ prp1;
  po_count : Z.of_nat n < 2 ^ 20;
  po_described : prp_described (hmem k) prp1 prp2 (Z.of_nat n * SECTOR_SIZE) l es;
  po_space : in_space l;
  po_safe : list_safe es (addrs l);
}.

Lemma described_length m prp1 prp2 count l es : prp_described m prp1 prp2 count l es → Z.of_nat (length (addrs l)) = count.
Proof.
  unfold addrs. intros [[? ?]|c1 -> [? ?]|c1 l' es' -> ? ? Hl]; rewrite ?bind_cons, ?length_app; unfold range_addrs; simpl.
  - rewrite length_seqZ. simpl. lia.
  - pose proof (Z.mod_pos_bound prp1 NVME_PAGE_SIZE eq_refl). rewrite !length_seqZ. simpl. unfold NVME_PAGE_SIZE in *. lia.
  - pose proof (Z.mod_pos_bound prp1 NVME_PAGE_SIZE eq_refl). apply addrs_length in Hl. unfold addrs in Hl. unfold range_addrs in Hl.
    rewrite length_seqZ. simpl. unfold NVME_PAGE_SIZE in *. lia.
Qed.

Lemma dma_in_described k prp1 prp2 n l es : prps_ok k prp1 prp2 n l es →
  ∃ r xs k', dma_in (prp1, prp2, 0) n k = Some (r, xs, k') ∧ (PcieLive → r = R0) ∧
    (r = R0 → k' = k ∧ xs = sectors_of n (hmem k <$> addrs l)).
Proof.
  intros [H1 H2 H3 H4 H5]. unfold dma_in. cbn [Z.eqb negb].
  assert (wp (read_prp_data prp1 prp2 (Z.of_nat n * SECTOR_SIZE) (Z.of_nat n * SECTOR_SIZE)) (λ r x, (PcieLive → r = R0) ∧
    (r = R0 → moved false k [] (addrs l) x)) (Xfer k [])) as Hw.
  { eapply (wp_transfer_prp false k []); [done..|change SECTOR_SIZE with 4096; lia|done|done|by intros [=]|done]. }
  apply wp_run in Hw as (r & x & -> & HL & Hr). do 3 eexists. split; [done|]. split; [done|]. intros E.
  destruct (Hr E) as [Hk Hi]. split; [done|]. rewrite Hi. simpl. rewrite sectors_of_app; [done|].
  rewrite length_fmap. apply described_length in H3. change SECTOR_SIZE with 4096 in H3. lia.
Qed.

Lemma zip_fst_lookup (ads bs : list Z) j a b : ads !! j = Some a → bs !! j = Some b → NoDup ads →
  ∀ v, foldl (λ v '(c, y), if decide (c = a) then y else v) v (zip ads bs) = b.
Proof.
  intros Ha Hb Hnd v. rewrite <-(take_drop_middle _ _ _ Ha) in Hnd |- *. rewrite <-(take_drop_middle _ _ _ Hb).
  apply lookup_lt_Some in Ha, Hb. rewrite zip_with_app by (rewrite !length_take; lia). cbn [zip_with]. rewrite foldl_app. cbn [foldl].
  rewrite decide_True by done. apply NoDup_app in Hnd as (_ & _ & [Hn _]%NoDup_cons). apply foldl_last_write.
  intros ([c y] & -> & Hc)%list_elem_of_fmap_1. apply elem_of_lookup_zip_with in Hc as (i & b' & z' & [= -> ->] & Hc & _).
  apply Hn. by eapply list_elem_of_lookup_2.
Qed.
Lemma dma_out_described k prp1 prp2 xs l es : prps_ok k prp1 prp2 (length xs) l es → Forall sector_ok xs →
  ∃ r k', dma_out (prp1, prp2, 0) xs k = Some (r, k') ∧ (PcieLive → r = R0) ∧
    (r = R0 → (∀ a, a ∉ addrs l → hmem k' a = hmem k a) ∧
      (NoDup (addrs l) → hmem k' <$> addrs l = concat (sector_bytes <$> xs))).
Proof.
  intros [H1 H2 H3 H4 H5] Hxs. unfold dma_out. cbn [Z.eqb negb]. set (bs := concat (sector_bytes <$> xs)).
  pose proof (bytes_length xs Hxs) as Hbl. fold bs in Hbl. pose proof (described_length _ _ _ _ _ _ H3) as Hal.
  assert (length (addrs l) = length bs) as Hlen by (change SECTOR_SIZE with 4096 in Hal; lia).
  assert (wp (write_prp_data prp1 prp2 (Z.of_nat (length xs) * SECTOR_SIZE) (Z.of_nat (length xs) * SECTOR_SIZE)) (λ r x, (PcieLive → r = R0) ∧
    (r = R0 → moved true k bs (addrs l) x)) (Xfer k bs)) as Hw.
  { eapply (wp_transfer_prp true k bs); [done..|change SECTOR_SIZE with 4096; lia|done|done| |done].
    intros _. change SECTOR_SIZE with 4096. lia. }
  apply wp_run in Hw as (r & x & -> & HL & Hr). do 2 eexists. split; [done|]. split; [done|]. intros E.
  pose proof (Hr E) as Hm. split.
  - intros a Ha. by eapply moved_outside.
  - intros Hnd. destruct Hm as [_ Hm]. apply list_eq. intros j. rewrite list_lookup_fmap. destruct (addrs l !! j) as [a|] eqn:Ej; simpl.
    + destruct (lookup_lt_is_Some_2 bs j) as [b Hb]; [rewrite <-Hlen; by eapply lookup_lt_Some|]. rewrite Hb, Hm. f_equal.
      by eapply zip_fst_lookup.
    + symmetry. apply lookup_ge_None in Ej. apply lookup_ge_None. lia.
Qed.

(** Memory that agrees on the list describes the same ranges. *)
Lemma prp_list_at_ext m m' a count l es : prp_list_at m a count l es → (∀ e, e ∈ es → prp_entry m' e = prp_entry m e) →
  prp_list_at m' a count l es.
Proof.
  induction 1 as [a count Hc He|a count l es Hc Hn He Hl IH|a count l es Hc Hn He Hl IH]; intros Hm;
    rewrite <-(Hm a) in * by (by left).
  - by constructor.
  - constructor; try done. apply IH. intros e ?. apply Hm. by right.
  - constructor; try done. apply IH. intros e ?. apply Hm. by right.
Qed.
Lemma prps_ok_ext k k' prp1 prp2 n l es : prps_ok k prp1 prp2 n l es → (∀ a, a ∉ addrs l → hmem k' a = hmem k a) →
  prps_ok k' prp1 prp2 n l es.
Proof.
  intros [H1 H2 H3 H4 H5] Hk. split; try done. destruct H3; [by constructor|by econstructor|]. econstructor; [done..|].
  eapply prp_list_at_ext; [done|]. intros e He. unfold prp_entry. f_equal. apply list_fmap_ext. intros j b Hb.
  apply lookup_seqZ in Hb as [-> Hb]. apply Hk. eapply H5; [done|lia].
Qed.

(** ** The laws of the data cache's host *)
Lemma wlp_flush_keeps a n x : wlp (flush_dma false a n) (λ r x', r = R0 → x_link x' = x_link x) x.
Proof.
  intros r x'. unfold flush_dma. destruct (pcie_dma_read _ _ _) as [[r' l] k] eqn:E. intros [= <- <-] ->.
  by destruct (dma_read_ok _ _ _ _ _ E) as [_ ->].
Qed.
Lemma wlp_read_list_keeps a n x : wlp (read_prp_list a n) (λ r x', r.1 = R0 → x_link x' = x_link x) x.
Proof.
  intros r x'. unfold read_prp_list. destruct (pcie_dma_read _ _ _) as [[r' l] k] eqn:E. intros [= <- <-] Hr. cbn in Hr. subst r'.
  by destruct (dma_read_ok _ _ _ _ _ E) as [_ ->].
Qed.
Lemma wlp_add_range_keeps da ds e c x : wlp (add_range false da ds e c) (λ r x', r.1.1 = R0 → x_link x' = x_link x) x.
Proof.
  unfold add_range. case_match; [by apply wlp_ret|]. apply wlp_bind. eapply wlp_mono; [apply wlp_flush_keeps|].
  intros r x' Hr. by apply wlp_ret.
Qed.
Lemma wlp_next_list_keeps pl i n c x : wlp (next_list pl i n c) (λ r x', r.1.1.1 = R0 → x_link x' = x_link x) x.
Proof.
  unfold next_list. case_match; [|by apply wlp_ret]. wlp_steps. eapply wlp_mono; [apply wlp_read_list_keeps|].
  intros [r l] x' Hr. by apply wlp_ret.
Qed.
Lemma wlp_loop_keeps fuel : ∀ pl i n c da ds x, wlp (prp_loop fuel false pl i n c da ds) (λ r x', r = R0 → x_link x' = x_link x) x.
Proof.
  induction fuel as [|fuel IH]; intros pl i n c da ds x; [done|]. cbn [prp_loop]. apply wlp_bind.
  eapply wlp_mono; [apply wlp_next_list_keeps|]. intros [[[r pl'] i'] n'] x1 H1. destruct r as [|e]; [|by apply wlp_ret].
  specialize (H1 eq_refl). rewrite <-H1. apply wlp_bind, wlp_deref. intros e _. apply wlp_bind.
  eapply wlp_mono; [apply wlp_add_range_keeps|]. intros [[r da'] ds'] x2 H2. destruct r as [|er]; [|by apply wlp_ret].
  specialize (H2 eq_refl). rewrite <-H2. case_match; [case_match|].
  - apply wlp_flush_keeps.
  - by apply wlp_ret.
  - apply IH.
Qed.
Lemma wlp_transfer_keeps p1 p2 c mx x : wlp (transfer_prp_data false p1 p2 c mx) (λ r x', r = R0 → x_link x' = x_link x) x.
Proof.
  unfold transfer_prp_data. apply wlp_bind, wlp_assert. intros _. case_match; [by apply wlp_ret|]. cbv zeta. case_match; [apply wlp_flush_keeps|].
  case_match; apply wlp_bind; (eapply wlp_mono; [apply wlp_add_range_keeps || apply wlp_read_list_keeps|]).
  - intros [[r da'] ds'] x2 Hk2. destruct r as [|er]; [|by apply wlp_ret]. rewrite <-(Hk2 eq_refl). apply wlp_flush_keeps.
  - intros [r pl] x2 Hk2. destruct r as [|er]; [|by apply wlp_ret]. rewrite <-(Hk2 eq_refl). apply wlp_loop_keeps.
Qed.
#[export] Instance prp_host_ok : HostOk.
Proof.
  split; cbn; intros [[p1 p2] b] n k; unfold dma_in.
  - intros r l k'. case_match.
    + case_match; [|done]. destruct (zdma_from_phys _ _ _) as [[r' l'] k2]. intros [= <- <- <-]. apply length_sectors_of.
    + destruct (read_prp_data _ _ _ _ _) as [[r' x]|]; [|done]. intros [= <- <- <-]. apply length_sectors_of.
  - intros l k'. case_match.
    + case_match; [|done]. destruct (zdma_from_phys _ _ _) as [[r' l'] k2] eqn:E. case_match eqn:Er; [|done].
      apply Z.eqb_eq in Er as ->. intros [= <- <-]. split; [done|]. by eapply phys_read_ok.
    + destruct (read_prp_data _ _ _ _ _) as [[r' x]|] eqn:E; [|done]. intros [= -> <- <-]. split; [done|].
      by apply wlp_transfer_keeps in E as ->.
Qed.
End whole.
