(* ===== verification/Nvme.v ===== *)
(** The NVMe command layer: hostif/nvme.c and hostif/nvme_identify.c.

    A submission queue entry is its dwords; the command structures that overlay
    it are the accessors below.  The queue registers of hostif/nvme_pcie.c are
    what was last written to them, the completion FIFO the entries posted.  The
    in-storage processor behind [submit_storpu_task] is the typeclass [Storpu].
    The distribution of commands to workers is in NvmeQueue.v. *)
From S2P Require Import Prelude Bitmap Avl Flash Machine BlockManager Amu DataCache Ftl Prp.
#[local] Open Scope Z_scope.

(** * Commands (nvme.h) *)
Record nvme_command := Cmd {
  c_opcode : Z; c_command_id : Z; c_nsid : Z; c_prp1 : Z; c_prp2 : Z;
  c_cdw10 : Z; c_cdw11 : Z; c_cdw12 : Z; c_cdw13 : Z; c_cdw14 : Z; c_cdw15 : Z;
}.
(** [nvme_rw_command] *)
Definition rw_slba (c : nvme_command) : Z := c_cdw10 c + 2 ^ 32 * c_cdw11 c.
Definition rw_length (c : nvme_command) : Z := u16 (c_cdw12 c).
(** [nvme_identify] *)
Definition identify_cns (c : nvme_command) : Z := c_cdw10 c mod 256.
Definition identify_csi (c : nvme_command) : Z := Z.shiftr (c_cdw11 c) 24.
(** [nvme_create_cq], [nvme_create_sq] *)
Definition create_qid (c : nvme_command) : Z := u16 (c_cdw10 c).
Definition create_qsize (c : nvme_command) : Z := Z.shiftr (c_cdw10 c) 16.
Definition create_vector (c : nvme_command) : Z := Z.shiftr (c_cdw11 c) 16.
(** [nvme_storpu_invoke_command] *)
Definition invoke_entry (c : nvme_command) : Z := c_cdw10 c + 2 ^ 32 * c_cdw11 c.
Definition invoke_arg (c : nvme_command) : Z := c_cdw12 c + 2 ^ 32 * c_cdw13 c.
Definition invoke_cid (c : nvme_command) : Z := c_cdw14 c.

Definition nvme_cmd_flush : Z := 0x00.
Definition nvme_cmd_write : Z := 0x01.
Definition nvme_cmd_read : Z := 0x02.
Definition nvme_cmd_write_zeroes : Z := 0x08.
Definition nvme_cmd_storpu_invoke : Z := 0xa0.
Definition nvme_admin_create_sq : Z := 0x01.
Definition nvme_admin_create_cq : Z := 0x05.
Definition nvme_admin_identify : Z := 0x06.
Definition nvme_admin_set_features : Z := 0x09.
Definition nvme_admin_ns_mgmt : Z := 0x0d.
Definition nvme_admin_ns_attach : Z := 0x15.
Definition nvme_admin_storpu_create_context : Z := 0xa0.
Definition nvme_admin_storpu_delete_context : Z := 0xa1.

Definition NVME_SC_SUCCESS : Z := 0x0.
Definition NVME_SC_INVALID_OPCODE : Z := 0x1.
Definition NVME_SC_INVALID_FIELD : Z := 0x2.
Definition NVME_SC_CMDID_CONFLICT : Z := 0x3.
Definition NVME_SC_DATA_XFER_ERROR : Z := 0x4.
Definition NVME_SC_INTERNAL : Z := 0x6.
Definition NVME_SC_INVALID_NS : Z := 0xb.
Definition NVME_SC_CQ_INVALID : Z := 0x100.
Definition NVME_SC_QID_INVALID : Z := 0x101.
Definition NVME_SC_FEATURE_NOT_SAVEABLE : Z := 0x10d.
Definition NVME_SC_NS_ID_UNAVAILABLE : Z := 0x116.
Definition NVME_SC_NS_ALREADY_ATTACHED : Z := 0x118.
Definition NVME_SC_NS_NOT_ATTACHED : Z := 0x11a.
Definition NVME_SC_READ_ERROR : Z := 0x281.
Definition NVME_SC_ACCESS_DENIED : Z := 0x286.

Definition NVME_ID_CNS_NS : Z := 0x00.
Definition NVME_ID_CNS_CTRL : Z := 0x01.
Definition NVME_ID_CNS_NS_ACTIVE_LIST : Z := 0x02.
Definition NVME_ID_CNS_CS_CTRL : Z := 0x06.
Definition NVME_CSI_NVM : Z := 0.
Definition NVME_FEAT_NUM_QUEUES : Z := 0x07.
Definition NVME_NS_MGMT_SEL_CREATE : Z := 0.
Definition NVME_NS_MGMT_SEL_DELETE : Z := 1.
Definition NVME_NS_ATTACH_SEL_CTRL_ATTACH : Z := 0.
Definition NVME_NS_ATTACH_SEL_CTRL_DETACH : Z := 1.
Definition CONFIG_NVME_IO_QUEUE_MAX : Z := 16.
Definition NSID_ALL : Z := 0xffffffff.

Definition err2statuscode (err : rc) : Z :=
  match err with
  | R0 => NVME_SC_SUCCESS
  | Err EPERM => NVME_SC_ACCESS_DENIED
  | Err EINVAL => NVME_SC_INVALID_FIELD
  | Err EEXIST => NVME_SC_CMDID_CONFLICT
  | Err EIO => NVME_SC_DATA_XFER_ERROR
  | Err ENOSYS => NVME_SC_INVALID_OPCODE
  | Err ESRCH => NVME_SC_INVALID_NS
  | Err EBADMSG => NVME_SC_READ_ERROR
  | Err _ => NVME_SC_INTERNAL
  end.

(** * The in-storage processor (storpu.h) *)
Inductive storpu_task :=
  | SPU_TYPE_CREATE_CONTEXT (so_addr : Z)
  | SPU_TYPE_DELETE_CONTEXT (cid : Z)
  | SPU_TYPE_INVOKE (cid entry arg : Z).
(** The second result is the field of the task that the processor fills in:
    [create_context.cid] or [invoke.result]. *)
Class Storpu := {
  spu : Type;
  map_scratchpad : Z → Z;
  submit_storpu_task : storpu_task → spu → rc * Z * spu;
}.

(** * State *)
Record nvme `{Platform} `{Pcie} `{Storpu} := Nvme {
  nv_ftl : ftl;
  nv_spu : spu;
  nv_cqs : gmap Z (Z * Z * Z);
  nv_sqs : gmap Z (Z * Z * Z);
  nv_cqes : list (Z * Z * Z * (Z * option Z));
}.
#[export] Instance nvme_ftl_lens `{Platform} `{Pcie} `{Storpu} : Lens nvme ftl.
Proof. refine {| lget := nv_ftl; lset f s := Nvme _ _ _ f (nv_spu s) (nv_cqs s) (nv_sqs s) (nv_cqes s) |}. done. Defined.
#[export] Instance nvme_mach_lens `{Platform} `{Pcie} `{Storpu} : Lens nvme mach.
Proof.
  refine {| lget s := lget (nv_ftl s);
            lset m s := Nvme _ _ _ (lset m (nv_ftl s)) (nv_spu s) (nv_cqs s) (nv_sqs s) (nv_cqes s) |}.
  intros m s. apply lget_lset.
Defined.

(** * Pages of identify data *)
Fixpoint le_bytes (n : nat) (v : Z) : list Z :=
  match n with O => [] | S n => v mod 256 :: le_bytes n (v / 256) end.
(** Store [v] in the [width] bytes at [off]. *)
Definition put_le (off width : nat) (v : Z) (page : list Z) : list Z :=
  take off page ++ le_bytes width v ++ drop (off + width) page.
Definition get_le (off width : nat) (page : list Z) : Z := le_value (take width (drop off page)).
Definition zero_page : list Z := replicate 4096 0.

Section ops.
Context `{Platform} `{Pcie} `{Storpu}.
(** The indeterminate variable of [write_buffers] and the order in which the
    flushers run, see Ftl.v. *)
Context (r0 : rc) (turns : list Z).

(** ** Identify (nvme_identify.c) *)
Definition nvme_identify_namespace (nsid : Z) : ST ftl (Z * list Z) :=
  '(status, id_ns) ← (if nsid =? NSID_ALL then mret (NVME_SC_SUCCESS, zero_page)
    else
      '(r, ns_info) ← ftl_get_namespace nsid;
      match r, ns_info with
      | R0, Some i => mret (NVME_SC_SUCCESS,
          put_le 16 8 (ni_util_blocks i) (put_le 8 8 (ni_capacity_blocks i) (put_le 0 8 (ni_size_blocks i) zero_page)))
      | _, _ => mret (NVME_SC_INVALID_NS, zero_page)
      end);
  if status =? NVME_SC_SUCCESS then
    mret (status, put_le 131 1 2 (put_le 130 1 SECTOR_SHIFT (put_le 128 2 0 id_ns)))
  else mret (status, id_ns).
Definition nvme_identify_controller : list Z :=
  put_le 2048 2 0x09c4 (put_le 536 4 0 (put_le 525 1 (Z.lor 0x4 1) (put_le 520 2 (Z.shiftl 1 3)
  (put_le 256 2 (Z.shiftl 1 3) (put_le 516 4 1 (put_le 513 1 (Z.lor (Z.shiftl 4 4) 4) (put_le 512 1 (Z.lor (Z.shiftl 6 4) 6)
  (put_le 262 1 8 (put_le 260 1 3 (put_le 259 1 3 (put_le 258 1 3 (put_le 78 2 9 (put_le 77 1 MAX_DATA_TRANSFER_SIZE
  (put_le 76 1 0 (put_le 73 3 0xc3b2a1 (put_le 72 1 0 (put_le 2 2 0x0007 (put_le 0 2 0x9038 zero_page)))))))))))))))))).
(** [count] is the number of ids in the list so far. *)
Fixpoint active_list_loop (nsids : list Z) (count : nat) (data : list Z) : ST ftl (list Z) :=
  match nsids with
  | [] => mret data
  | nsid :: nsids =>
      '(r, ns_info) ← ftl_get_namespace nsid;
      match r, ns_info with
      | R0, Some i =>
          if ni_active i then active_list_loop nsids (S count) (put_le (4 * count) 4 nsid data)
          else active_list_loop nsids count data
      | _, _ => active_list_loop nsids count data
      end
  end.
Definition nvme_identify_ns_active_list : ST ftl (list Z) := active_list_loop (seqZ 1 NAMESPACE_MAX) 0 zero_page.
Definition nvme_identify_cs_controller (csi : Z) (data : list Z) : list Z :=
  if csi =? NVME_CSI_NVM then zero_page else data.

(** ** A page of data for an admin command *)
(** A page of memory and what it holds; a failed allocation is not noticed. *)
Definition alloc_page : ST nvme (list Z) :=
  '(buf, ws) ← lift (alloc_words 1024);
  assert (negb (buf =? 0)) ≫= λ _,
  mret (sector_bytes ws).
Definition get_link : ST nvme link := gets (λ s, dc_host (ft_dc (nv_ftl s))).
Definition set_link (k : link) : ST nvme unit :=
  modify (λ s, let f := nv_ftl s in let d := ft_dc f in
    Nvme _ _ _ (Ftl _ _ (Dc _ _ (dc_amu d) (g_cache d) (dc_flushers d) k) (ft_manifest f) (ft_samples f))
      (nv_spu s) (nv_cqs s) (nv_sqs s) (nv_cqes s)).
Definition read_page (prp1 prp2 : Z) : ST nvme (rc * list Z) :=
  k ← get_link;
  '(r, x) ← deref (read_prp_data prp1 prp2 0x1000 0x1000 (Xfer k []));
  set_link (x_link x) ≫= λ _,
  mret (r, x_iter x).
Definition write_page (prp1 prp2 : Z) (data : list Z) : ST nvme rc :=
  k ← get_link;
  '(r, x) ← deref (write_prp_data prp1 prp2 0x1000 0x1000 (Xfer k data));
  set_link (x_link x) ≫= λ _,
  mret r.

(** ** Admin commands: the status and the result *)
Definition process_set_features_command (cmd : nvme_command) : ST nvme (Z * Z) :=
  if c_cdw10 cmd =? NVME_FEAT_NUM_QUEUES then
    let n := CONFIG_NVME_IO_QUEUE_MAX - 1 in mret (NVME_SC_SUCCESS, Z.lor n (Z.shiftl n 16))
  else mret (NVME_SC_FEATURE_NOT_SAVEABLE, 0).
Definition process_create_cq_command (cmd : nvme_command) : ST nvme (Z * Z) :=
  let qid := create_qid cmd in
  if (qid =? 0) || (CONFIG_NVME_IO_QUEUE_MAX <? qid) then mret (NVME_SC_QID_INVALID, 0)
  else
    modify (λ s, Nvme _ _ _ (nv_ftl s) (nv_spu s) (<[qid := (c_prp1 cmd, create_qsize cmd, create_vector cmd)]> (nv_cqs s))
      (nv_sqs s) (nv_cqes s)) ≫= λ _,
    mret (0, 0).
Definition process_create_sq_command (cmd : nvme_command) : ST nvme (Z * Z) :=
  let qid := create_qid cmd in
  if (qid =? 0) || (CONFIG_NVME_IO_QUEUE_MAX <? qid) then mret (NVME_SC_QID_INVALID, 0)
  else if negb (qid =? create_vector cmd) then mret (NVME_SC_CQ_INVALID, 0)
  else
    modify (λ s, Nvme _ _ _ (nv_ftl s) (nv_spu s) (nv_cqs s)
      (<[qid := (c_prp1 cmd, create_qsize cmd, create_vector cmd)]> (nv_sqs s)) (nv_cqes s)) ≫= λ _,
    mret (0, 0).
(** The result of the transfer is ignored. *)
Definition process_identify_command (cmd : nvme_command) : ST nvme (Z * Z) :=
  page ← alloc_page;
  '(status, data) ←
    (if identify_cns cmd =? NVME_ID_CNS_NS then lift (nvme_identify_namespace (c_nsid cmd))
     else if identify_cns cmd =? NVME_ID_CNS_CTRL then mret (NVME_SC_SUCCESS, nvme_identify_controller)
     else if identify_cns cmd =? NVME_ID_CNS_NS_ACTIVE_LIST then
       data ← lift nvme_identify_ns_active_list; mret (NVME_SC_SUCCESS, data)
     else if identify_cns cmd =? NVME_ID_CNS_CS_CTRL then
       mret (NVME_SC_SUCCESS, nvme_identify_cs_controller (identify_csi cmd) page)
     else mret (NVME_SC_SUCCESS, page));
  write_page (c_prp1 cmd) (c_prp2 cmd) data ≫= λ _,
  mret (status, 0).
Definition process_ns_mgmt_command (cmd : nvme_command) : ST nvme (Z * Z) :=
  alloc_page ≫= λ _,
  if c_cdw10 cmd =? NVME_NS_MGMT_SEL_CREATE then
    '(r, data) ← read_page (c_prp1 cmd) (c_prp2 cmd);
    match r with
    | Err _ => mret (err2statuscode r, 0)
    | R0 =>
        r ← lift (ftl_create_namespace (NsInfo false (get_le 0 8 data) (get_le 8 8 data) 0));
        mret (match r with
              | inl ENFILE => (NVME_SC_NS_ID_UNAVAILABLE, 0)
              | inl e => (err2statuscode (Err e), 0)
              | inr nsid => (NVME_SC_SUCCESS, nsid)
              end)
    end
  else if c_cdw10 cmd =? NVME_NS_MGMT_SEL_DELETE then
    r ← lift (ftl_delete_namespace (c_nsid cmd));
    mret (err2statuscode r, 0)
  else mret (NVME_SC_INVALID_FIELD, 0).
(** The status code of other errors goes to [r], not to [status]. *)
Definition process_ns_attach_command (cmd : nvme_command) : ST nvme (Z * Z) :=
  alloc_page ≫= λ _,
  '(r, ctrl_list) ← read_page (c_prp1 cmd) (c_prp2 cmd);
  match r with
  | Err _ => mret (err2statuscode r, 0)
  | R0 =>
      if c_cdw10 cmd =? NVME_NS_ATTACH_SEL_CTRL_ATTACH then
        if negb (get_le 0 2 ctrl_list =? 0) then
          r ← lift (ftl_attach_namespace (c_nsid cmd));
          mret (if decide (r = Err EBUSY) then NVME_SC_NS_ALREADY_ATTACHED else NVME_SC_SUCCESS, 0)
        else mret (NVME_SC_SUCCESS, 0)
      else if c_cdw10 cmd =? NVME_NS_ATTACH_SEL_CTRL_DETACH then
        if negb (get_le 0 2 ctrl_list =? 0) then
          r ← lift (ftl_detach_namespace (c_nsid cmd));
          mret (if decide (r = Err ENOENT) then NVME_SC_NS_NOT_ATTACHED else NVME_SC_SUCCESS, 0)
        else mret (NVME_SC_SUCCESS, 0)
      else mret (NVME_SC_INVALID_FIELD, 0)
  end.
Definition run_storpu (t : storpu_task) : ST nvme (rc * Z) := λ s,
  let '(r, v, k) := submit_storpu_task t (nv_spu s) in
  Some ((r, v), Nvme _ _ _ (nv_ftl s) k (nv_cqs s) (nv_sqs s) (nv_cqes s)).
Definition process_storpu_create_context_command (cmd : nvme_command) : ST nvme (Z * Z) :=
  '(r, cid) ← run_storpu (SPU_TYPE_CREATE_CONTEXT (map_scratchpad (c_prp1 cmd)));
  mret (err2statuscode r, if is_ok r then u32 cid else 0).
Definition process_storpu_delete_context_command (cmd : nvme_command) : ST nvme (Z * Z) :=
  '(r, _) ← run_storpu (SPU_TYPE_DELETE_CONTEXT (c_cdw10 cmd));
  mret (err2statuscode r, 0).
Definition process_admin_command (cmd : nvme_command) : ST nvme (Z * Z) :=
  let op := c_opcode cmd in
  if op =? nvme_admin_identify then process_identify_command cmd
  else if op =? nvme_admin_set_features then process_set_features_command cmd
  else if op =? nvme_admin_create_cq then process_create_cq_command cmd
  else if op =? nvme_admin_create_sq then process_create_sq_command cmd
  else if op =? nvme_admin_ns_mgmt then process_ns_mgmt_command cmd
  else if op =? nvme_admin_ns_attach then process_ns_attach_command cmd
  else if op =? nvme_admin_storpu_create_context then process_storpu_create_context_command cmd
  else if op =? nvme_admin_storpu_delete_context then process_storpu_delete_context_command cmd
  else mret (NVME_SC_INVALID_OPCODE, 0).

(** ** I/O commands *)
(** The request type of other opcodes stays 0, which is none of the types. *)
Definition ftl_request (cmd : nvme_command) : user_request :=
  let op := c_opcode cmd in
  Req (if op =? nvme_cmd_read then IOREQ_READ
       else if op =? nvme_cmd_write then IOREQ_WRITE
       else if op =? nvme_cmd_flush then IOREQ_FLUSH
       else if op =? nvme_cmd_write_zeroes then IOREQ_WRITE_ZEROES
       else IOREQ_OTHER 0)
    (c_nsid cmd) (rw_slba cmd) (rw_length cmd + 1) (c_prp1 cmd, c_prp2 cmd) 0.
Definition process_ftl_command (cmd : nvme_command) : ST nvme (Z * Z) :=
  r ← lift (ftl_process_request r0 turns (ftl_request cmd));
  mret (err2statuscode r, 0).
Definition process_storpu_invoke_command (cmd : nvme_command) : ST nvme (Z * Z) :=
  '(r, v) ← run_storpu (SPU_TYPE_INVOKE (invoke_cid cmd) (invoke_entry cmd) (invoke_arg cmd));
  mret (err2statuscode r, if is_ok r then u64 v else 0).
Definition process_io_command (cmd : nvme_command) : ST nvme (Z * Z) :=
  let op := c_opcode cmd in
  if (op =? nvme_cmd_read) || (op =? nvme_cmd_write) || (op =? nvme_cmd_flush) then process_ftl_command cmd
  else if op =? nvme_cmd_storpu_invoke then process_storpu_invoke_command cmd
  else mret (NVME_SC_INVALID_OPCODE, 0).

(** ** Tasks of the in-storage processor *)
Inductive storpu_ftl_type := FTL_TYPE_FLASH_READ | FTL_TYPE_FLASH_WRITE | FTL_TYPE_HOST_READ | FTL_TYPE_HOST_WRITE
  | FTL_TYPE_FLUSH | FTL_TYPE_FLUSH_DATA | FTL_TYPE_SYNC | FTL_TYPE_OTHER.
Record storpu_ftl_task := SpuFtlTask {
  st_type : storpu_ftl_type; st_nsid : Z; st_buf_phys : Z; st_addr : Z; st_count : Z;
}.
Definition storpu_request (t : storpu_ftl_task) : user_request :=
  Req (match st_type t with
       | FTL_TYPE_FLASH_READ => IOREQ_READ | FTL_TYPE_FLASH_WRITE => IOREQ_WRITE
       | FTL_TYPE_FLUSH => IOREQ_FLUSH | FTL_TYPE_FLUSH_DATA => IOREQ_FLUSH_DATA | FTL_TYPE_SYNC => IOREQ_SYNC
       | _ => IOREQ_OTHER 0
       end)
    (st_nsid t) (Z.shiftr (st_addr t) SECTOR_SHIFT) (u32 (Z.shiftr (st_count t) SECTOR_SHIFT)) (0, 0) (st_buf_phys t).
Definition process_storpu_flash_task (t : storpu_ftl_task) : ST nvme rc :=
  lift (ftl_process_request r0 turns (storpu_request t)).
Definition process_storpu_host_xfer (t : storpu_ftl_task) : ST nvme rc :=
  k ← get_link;
  match st_type t with
  | FTL_TYPE_HOST_READ =>
      let '(r, l, k) := pcie_dma_read (st_addr t) (st_count t) k in
      set_link (smem_store (st_buf_phys t) l k) ≫= λ _, mret r
  | FTL_TYPE_HOST_WRITE =>
      let '(r, k) := pcie_dma_write (st_addr t) (smem k <$> seqZ (st_buf_phys t) (st_count t)) k in
      set_link k ≫= λ _, mret r
  | _ => mret (Err EINVAL)
  end.
Definition process_storpu_task (t : storpu_ftl_task) : ST nvme rc :=
  match st_type t with
  | FTL_TYPE_FLASH_READ | FTL_TYPE_FLASH_WRITE | FTL_TYPE_FLUSH | FTL_TYPE_FLUSH_DATA | FTL_TYPE_SYNC => process_storpu_flash_task t
  | FTL_TYPE_HOST_READ | FTL_TYPE_HOST_WRITE => process_storpu_host_xfer t
  | FTL_TYPE_OTHER => mret (Err EINVAL)
  end.

(** ** The body of the worker loop for a command *)
(** What is written to the two halves of the result register: the upper half is
    not written when it is zero. *)
Definition result_words (result : Z) : Z * option Z :=
  (u32 result, if Z.shiftr result 32 =? 0 then None else Some (u32 (Z.shiftr result 32))).
Definition nvme_pcie_post_cqe (sqid status cmdid result : Z) : ST nvme unit :=
  modify (λ s, Nvme _ _ _ (nv_ftl s) (nv_spu s) (nv_cqs s) (nv_sqs s)
    (nv_cqes s ++ [(sqid, u16 status, u16 cmdid, result_words result)])).
Definition run_command (qid : Z) (sqe : nvme_command) : ST nvme unit :=
  '(status, result) ← (if qid =? 0 then process_admin_command sqe else process_io_command sqe);
  nvme_pcie_post_cqe qid status (c_command_id sqe) result.
Definition nvme_do_shutdown : ST nvme unit := lift (ftl_shutdown turns).
End ops.
