(* ===== verification/NvmeTheorems.v ===== *)
(** The properties of the NVMe command layer: PRP transfers, the I/O commands as
    a block device, the identify data, and defects of the admin commands. *)
From S2P Require Import Prelude Bitmap Avl Flash Machine Sim BlockManager BlockMaps BlockRestart Amu AmuFacts AmuSpec AmuWrite AmuDispatch AmuFlush AmuAttach DataCache DataCacheFacts DataCacheSpec DataCacheWrite DataCacheStore DataCacheRead DataCacheFetch DataCacheFlush AmuTheorems DataCacheTheorems Ftl FtlSegment FtlRefine FtlFlush FtlNamespaces FtlRestart Prp PrpFacts Nvme.
#[local] Open Scope Z_scope.

#[local] Unset Default Proof Using.
(** * Fields of a page *)
Lemma length_le_bytes n v : length (le_bytes n v) = n.
Proof. revert v. induction n as [|n IH]; intros v; [done|]. cbn [le_bytes length]. by rewrite IH. Qed.
Lemma le_value_bytes n v : le_value (le_bytes n v) = v mod 256 ^ Z.of_nat n.
Proof.
  revert v. induction n as [|n IH]; intros v; [by rewrite Z.mod_1_r|]. cbn [le_bytes le_value].
  rewrite IH, Nat2Z.inj_succ, Z.pow_succ_r, (Z.rem_mul_r v 256) by lia. lia.
Qed.
Lemma length_put_le off w v l : (off + w ≤ length l)%nat → length (put_le off w v l) = length l.
Proof. intros Hl. unfold put_le. rewrite !length_app, length_take, length_drop, length_le_bytes. lia. Qed.
Lemma get_put_le off w v l : (off + w ≤ length l)%nat → get_le off w (put_le off w v l) = v mod 256 ^ Z.of_nat w.
Proof.
  intros Hl. unfold get_le, put_le. rewrite drop_app_length' by (rewrite length_take; lia).
  rewrite take_app_length' by (by rewrite length_le_bytes). apply le_value_bytes.
Qed.
Lemma get_put_le_ne off w off' w' v l : (off' + w' ≤ length l)%nat → (off + w ≤ off' ∨ off' + w' ≤ off)%nat →
  get_le off w (put_le off' w' v l) = get_le off w l.
Proof.
  intros Hl Hd. unfold get_le. f_equal. apply list_eq. intros i. destruct (decide (i < w)%nat) as [Hi|Hi].
  - rewrite !lookup_take_lt, !lookup_drop by done. unfold put_le. destruct Hd.
    + rewrite lookup_app_l by (rewrite length_take; lia). by rewrite lookup_take_lt by lia.
    + rewrite app_assoc, lookup_app_r by (rewrite length_app, length_take, length_le_bytes; lia).
      rewrite length_app, length_take, length_le_bytes, lookup_drop. f_equal. lia.
  - by rewrite !lookup_take_ge by lia.
Qed.
(** Appending to the part of a page that is in use. *)
Lemma put_le_append w v (l : list Z) n : (w ≤ n)%nat → put_le (length l) w v (l ++ replicate n 0) = (l ++ le_bytes w v) ++ replicate (n - w) 0.
Proof.
  intros Hn. unfold put_le. rewrite take_app_length, drop_app_ge by lia. rewrite drop_replicate, <-app_assoc. do 3 f_equal. lia.
Qed.

Section transfers.
Context `{PO : PcieOk}.

(** C4: PRP transfers, on a working link.  For PRP fields that describe a buffer
    of the right size, directly or through any chain of lists, writing sectors
    to it stores their bytes at the addresses described, in order, and no
    others, and reading it back delivers the same sectors. *)
Theorem prp_transfers_correct (PL : PcieLive) k prp1 prp2 xs l es :
  prps_ok k prp1 prp2 (length xs) l es → NoDup (addrs l) → Forall sector_ok xs →
  ∃ k', dma_out (prp1, prp2, 0) xs k = Some (R0, k') ∧
    hmem k' <$> addrs l = concat (sector_bytes <$> xs) ∧ (∀ a, a ∉ addrs l → hmem k' a = hmem k a) ∧
    dma_in (prp1, prp2, 0) (length xs) k' = Some (R0, xs, k').
Proof.
  intros Hp Hnd Hxs. destruct (dma_out_described k prp1 prp2 xs l es Hp Hxs) as (r & k' & Eo & Ho & Hr).
  specialize (Ho PL) as ->. destruct (Hr eq_refl) as [Hout Hin]. exists k'. split; [done|]. split; [by apply Hin|]. split; [done|].
  destruct (dma_in_described k' prp1 prp2 (length xs) l es) as (r & ys & k2 & -> & Hl & Hr2); [by eapply prps_ok_ext|].
  specialize (Hl PL) as ->. destruct (Hr2 eq_refl) as [-> ->]. rewrite Hin by done.
  by rewrite <-(app_nil_r (concat _)), sectors_of_bytes.
Qed.
End transfers.

Section io.
Context {PL : Platform} {PO : @PlatformOk PL} {EL : @EccLive PL} {AL : @AllocLive PL} {RL : @ReadLive PL}.
Context {WL : @WriteLive PL} {DL : @DmaLive PL}.
Context {PC : Pcie} {PCO : @PcieOk PC} {SP : Storpu}.
Context (r0 : rc) (turns : list Z).

(** A read or write command of an I/O queue. *)
Definition io_command (qc : Z * nvme_command) : Prop :=
  qc.1 ≠ 0 ∧ (c_opcode qc.2 = nvme_cmd_read ∨ c_opcode qc.2 = nvme_cmd_write).
Definition io_completion (qc : Z * nvme_command) : Z * Z * Z * (Z * option Z) :=
  (qc.1, NVME_SC_SUCCESS, u16 (c_command_id qc.2), (0, None)).
Definition run_commands (qcs : list (Z * nvme_command)) : ST nvme unit := for_each qcs (λ '(qid, c), run_command r0 turns qid c).

Lemma run_io_command qid c s f' : io_command (qid, c) → ftl_process_request r0 turns (ftl_request c) (nv_ftl s) = Some (R0, f') →
  run_command r0 turns qid c s =
    Some (tt, Nvme _ _ _ f' (nv_spu s) (nv_cqs s) (nv_sqs s) (nv_cqes s ++ [io_completion (qid, c)])).
Proof.
  intros [Hq Ho] E. cbn [fst snd] in *. unfold run_command, nvme_pcie_post_cqe, process_io_command.
  rewrite (proj2 (Z.eqb_neq _ _) Hq). assert ((c_opcode c =? nvme_cmd_read) || (c_opcode c =? nvme_cmd_write) || (c_opcode c =? nvme_cmd_flush) = true) as ->.
  { destruct Ho as [->| ->]; done. }
  unfold process_ftl_command, lift, mbind, ST_bind. cbn [lget nvme_ftl_lens]. rewrite E. done.
Qed.

(** C2: refinement.  Read and write commands implement the abstract block device
    whose transfers follow the PRPs: the commands that the device completes are
    completed in order, each with one entry of the completion queue, under its
    own identifier and with status 0, and with the same effect on the stored
    sectors and on the memory of the host. *)
Theorem nvme_io_refines P nsid ptr u0 fl nblocks cap qcs k b b' s :
  nblocks < 2 ^ 63 → Forall io_command qcs → Forall (req_ok nsid cap) (ftl_request <$> qcs.*2) →
  bd_run nblocks (ftl_request <$> qcs.*2) b = Some b' →
  ftl_sim P nsid ptr u0 fl nblocks cap (sum_list (req_pages <$> (ftl_request <$> qcs.*2)) + k) b (nv_ftl s) →
  ∃ s', run_commands qcs s = Some (tt, s') ∧ nv_cqes s' = nv_cqes s ++ (io_completion <$> qcs) ∧
    ftl_sim P nsid ptr u0 fl nblocks cap k b' (nv_ftl s').
Proof.
  intros Hnb Hq. revert b s. induction Hq as [|[qid c] qcs Hc Hqs IH]; intros b s Hok Hx Hs.
  { injection Hx as <-. exists s. split; [done|]. split; [by rewrite app_nil_r|done]. }
  rewrite !fmap_cons in *. apply Forall_cons in Hok as [Hok1 Hok]. cbn [snd] in *.
  cbn [bd_run] in Hx. destruct (bd_exec nblocks (ftl_request c) b) as [b1|] eqn:E1; [|done]. simpl in Hx.
  change (sum_list (?x :: ?xs)) with (x + sum_list xs)%nat in Hs. rewrite <-Nat.add_assoc in Hs.
  assert (result_assigned nsid r0 (ftl_request c) (nv_ftl s) = true) as Hra.
  { unfold result_assigned. rewrite bool_decide_eq_false_2; [done|]. destruct Hc as [_ Ho]. cbn [snd] in Ho.
    unfold ftl_request. cbn [rq_req_type]. destruct Ho as [->| ->]; done. }
  pose proof (wp_exec P nsid ptr u0 fl nblocks cap r0 turns _ _ _ _ _ Hnb E1 Hok1 Hra Hs) as Hw.
  apply wp_run in Hw as (r & f1 & Ef & -> & Hs1).
  unfold run_commands. cbn [for_each]. unfold mbind at 1, ST_bind at 1. rewrite (run_io_command qid c s f1 Hc Ef).
  destruct (IH b1 (Nvme _ _ _ f1 (nv_spu s) (nv_cqs s) (nv_sqs s) (nv_cqes s ++ [io_completion (qid, c)])) Hok Hx Hs1) as (s' & E & Eq & Hs').
  exists s'. split; [exact E|]. split; [|done]. rewrite Eq. cbn [nv_cqes]. by rewrite <-app_assoc.
Qed.
End io.

(** * Identify *)
Definition active_nsids (m : manifest) : list Z :=
  filter (λ nsid, GET_BIT (allocated_namespace m) (NSID2IDX nsid) && GET_BIT (active_namespace m) (NSID2IDX nsid) = true) (seqZ 1 NAMESPACE_MAX).
Section identify.
Context {PL : Platform} {PC : Pcie}.

Lemma active_list_eq s l : ns_wf (ft_manifest s) → Forall (λ i, 1 ≤ i ≤ NAMESPACE_MAX) l → ∀ done n, (4 * length l ≤ n)%nat →
  active_list_loop l (length done) (concat (le_bytes 4 <$> done) ++ replicate n 0) s =
    let act := filter (λ nsid, GET_BIT (allocated_namespace (ft_manifest s)) (NSID2IDX nsid) && GET_BIT (active_namespace (ft_manifest s)) (NSID2IDX nsid) = true) l in
    Some (concat (le_bytes 4 <$> done ++ act) ++ replicate (n - 4 * length act) 0, s).
Proof.
  intros [Hm _]. induction 1 as [|nsid l Hi _ IH]; intros dn n Hn; cbn [active_list_loop].
  { cbv zeta. rewrite filter_nil, app_nil_r. cbn [length]. by replace (n - 4 * 0)%nat with n by lia. }
  unfold mbind, ST_bind. rewrite get_namespace_eq by done. rewrite filter_cons.
  destruct (lookup_lt_is_Some_2 (namespaces (ft_manifest s)) (Z.to_nat (NSID2IDX nsid))) as [x Hx].
  { rewrite (mo_namespaces _ Hm). unfold NSID2IDX, NAMESPACE_MAX in *. lia. }
  cbn [length] in Hn. destruct (GET_BIT (allocated_namespace _) _) eqn:Ea; cbn [andb].
  - rewrite Hx. cbn [ni_active]. destruct (GET_BIT (active_namespace _) _) eqn:Eb; cbn [andb].
    + rewrite decide_True by done. assert (length (concat (le_bytes 4 <$> dn)) = 4 * length dn)%nat as Hl.
      { rewrite (length_concat_const 4), length_fmap; [done|]. apply Forall_fmap, Forall_true. done. }
      rewrite <-Hl, put_le_append by lia. replace (S (length dn)) with (length (dn ++ [nsid])) by (rewrite length_app; simpl; lia).
      replace (concat (le_bytes 4 <$> dn) ++ le_bytes 4 nsid) with (concat (le_bytes 4 <$> dn ++ [nsid])) by (by rewrite fmap_app, concat_app).
      rewrite IH by lia. cbv zeta. rewrite <-app_assoc. cbn [app length]. do 4 f_equal. lia.
    + rewrite decide_False by done. by rewrite IH by lia.
  - rewrite decide_False by done. by rewrite IH by lia.
Qed.

(** C18: identify.  The active namespace list holds exactly the ids of the active
    namespaces, ascending, then zeroes; the data of an allocated namespace
    carries its size, capacity, utilisation and block size; of the others it is
    zero, with status "invalid namespace". *)
Theorem identify_correct nsid s : ns_wf (ft_manifest s) → 1 ≤ nsid ≤ NAMESPACE_MAX →
  let m := ft_manifest s in
  let act := active_nsids m in
  nvme_identify_ns_active_list s = Some (concat (le_bytes 4 <$> act) ++ replicate (4096 - 4 * length act) 0, s) ∧
  ∃ status data, nvme_identify_namespace nsid s = Some ((status, data), s) ∧ length data = 4096%nat ∧
    if GET_BIT (allocated_namespace m) (NSID2IDX nsid) then
      ∃ x, namespaces m !! Z.to_nat (NSID2IDX nsid) = Some x ∧ status = NVME_SC_SUCCESS ∧ get_le 0 8 data = u64 (size_blocks x) ∧
        get_le 8 8 data = u64 (capacity_blocks x) ∧ get_le 16 8 data = u64 (util_blocks x) ∧ get_le 130 1 data = SECTOR_SHIFT
    else status = NVME_SC_INVALID_NS ∧ data = zero_page.
Proof.
  intros Hw Hi m act. pose proof Hw as [Hm _]. split.
  - unfold nvme_identify_ns_active_list, zero_page.
    change (replicate 4096 0) with (concat (le_bytes 4 <$> []) ++ replicate 4096 0). change 0%nat with (length (@nil Z)) at 1.
    rewrite active_list_eq; [done|done| |by vm_compute; lia]. apply Forall_forall. intros i Hin%elem_of_seqZ. lia.
  - unfold nvme_identify_namespace. rewrite (proj2 (Z.eqb_neq nsid NSID_ALL)) by (unfold NSID_ALL, NAMESPACE_MAX in *; lia).
    unfold mbind, ST_bind. rewrite get_namespace_eq by done. fold m. assert (length zero_page = 4096%nat) as Hz by done.
    destruct (lookup_lt_is_Some_2 (namespaces m) (Z.to_nat (NSID2IDX nsid))) as [x Hx].
    { pose proof (mo_namespaces _ Hm) as Hln. fold m in Hln. rewrite Hln. unfold NSID2IDX, NAMESPACE_MAX in *. lia. }
    rewrite Hx. destruct (GET_BIT (allocated_namespace m) (NSID2IDX nsid)); cbn [mret ST_ret Z.eqb NVME_SC_SUCCESS NVME_SC_INVALID_NS Pos.eqb].
    + do 2 eexists. split; [done|]. cbn [size_blocks capacity_blocks util_blocks ni_size_blocks ni_capacity_blocks ni_util_blocks].
      set (p1 := put_le 0 8 _ _). assert (length p1 = 4096%nat) as L1 by (unfold p1; rewrite length_put_le; lia).
      set (p2 := put_le 8 8 _ p1). assert (length p2 = 4096%nat) as L2 by (unfold p2; rewrite length_put_le; lia).
      set (p3 := put_le 16 8 _ p2). assert (length p3 = 4096%nat) as L3 by (unfold p3; rewrite length_put_le; lia).
      set (p4 := put_le 128 2 _ p3). assert (length p4 = 4096%nat) as L4 by (unfold p4; rewrite length_put_le; lia).
      set (p5 := put_le 130 1 _ p4). assert (length p5 = 4096%nat) as L5 by (unfold p5; rewrite length_put_le; lia).
      split; [rewrite length_put_le; lia|]. exists x. split; [done|]. split; [done|].
      assert (∀ off, (off + 8 ≤ 128)%nat → get_le off 8 (put_le 131 1 2 p5) = get_le off 8 p3) as Hlow.
      { intros off Ho. rewrite get_put_le_ne by lia. unfold p5. rewrite get_put_le_ne by lia. unfold p4. by rewrite get_put_le_ne by lia. }
      rewrite !Hlow by lia. rewrite (get_put_le_ne 130 1 131) by lia. split_and!.
      * unfold p3. rewrite get_put_le_ne by lia. unfold p2. rewrite get_put_le_ne by lia. unfold p1. by rewrite get_put_le by lia.
      * unfold p3. rewrite get_put_le_ne by lia. unfold p2. by rewrite get_put_le by lia.
      * unfold p3. by rewrite get_put_le by lia.
      * unfold p5. by rewrite get_put_le by lia.
    + do 2 eexists. split; [done|]. split; [done|]. done.
Qed.
End identify.

(** * Admin commands *)
Section admin.
Context {PL : Platform} {PO : @PlatformOk PL} {AL : @AllocLive PL} {PC : Pcie} {PCO : @PcieOk PC} {PLv : @PcieLive PC} {SP : Storpu}.
Definition nv_link (s : nvme) : link := dc_host (ft_dc (nv_ftl s)).
Definition page_at (prp1 : Z) : Prop := 0 ≤ prp1 ∧ prp1 mod NVME_PAGE_SIZE = 0 ∧ prp1 + NVME_PAGE_SIZE < 2 ^ 64.

Lemma one_page prp1 prp2 k : page_at prp1 → prps_ok k prp1 prp2 1 [(prp1, NVME_PAGE_SIZE)] [].
Proof.
  intros (H1 & H2 & H3). split; [done|done| | |].
  - change (Z.of_nat 1 * SECTOR_SIZE) with NVME_PAGE_SIZE. constructor. rewrite H2. done.
  - constructor; [|done]. simpl. lia.
  - intros e b He. by apply not_elem_of_nil in He.
Qed.
Lemma wp_write_page prp1 prp2 data (Q : rc → nvme → Prop) s : page_at prp1 → length data = 4096%nat →
  (∀ k : link, hmem k <$> seqZ prp1 4096 = data → Q R0 (Nvme _ _ _ (Ftl _ prp_host (Dc _ prp_host (dc_amu (ft_dc (nv_ftl s))) (g_cache (ft_dc (nv_ftl s)))
     (dc_flushers (ft_dc (nv_ftl s))) k) (ft_manifest (nv_ftl s)) (ft_samples (nv_ftl s))) (nv_spu s) (nv_cqs s) (nv_sqs s) (nv_cqes s))) →
  wp (write_page prp1 prp2 data) Q s.
Proof.
  intros Hp Hd HQ. unfold write_page, get_link, set_link. wp_step. wp_step. wp_step. apply wp_deref.
  pose proof (one_page prp1 prp2 (nv_link s) Hp) as [_ _ Hpd Hsp Hsf].
  assert (wp (write_prp_data prp1 prp2 0x1000 0x1000) (λ r x, r = R0 ∧ moved true (nv_link s) data (addrs [(prp1, NVME_PAGE_SIZE)]) x) (Xfer (nv_link s) data)) as Hw.
  { eapply (wp_transfer_prp true _ data prp1 prp2 0x1000); [apply Hp|exact Hpd|done|done|done|intros _; rewrite Hd; lia|].
    intros r x HL Hr. rewrite (HL PLv) in *. split; [done|]. by apply Hr. }
  apply wp_run in Hw as (r & x & E & -> & _ & Hm). exists (R0, x). split; [exact E|]. cbn beta iota. wp_step. wp_step. wp_step. apply HQ.
  assert (addrs [(prp1, NVME_PAGE_SIZE)] = seqZ prp1 4096) as Ea by (unfold addrs, range_addrs; cbn [mbind list_bind]; by rewrite app_nil_r).
  rewrite Ea in Hm. apply list_eq. intros j. rewrite list_lookup_fmap. destruct (seqZ prp1 4096 !! j) as [a|] eqn:Ej; simpl.
  - destruct (lookup_lt_is_Some_2 data j) as [b Hb]; [rewrite Hd; apply lookup_lt_Some in Ej; by rewrite length_seqZ in Ej|].
    rewrite Hb, Hm. f_equal. eapply zip_fst_lookup; [done..|]. apply NoDup_seqZ.
  - symmetry. apply lookup_ge_None in Ej. rewrite length_seqZ in Ej. apply lookup_ge_None. lia.
Qed.

Lemma wp_alloc_page (Q : list Z → nvme → Prop) s : 0 < m_next (lget s : mach) →
  (∀ m' : mach, Q (sector_bytes (junk_words (m_next (lget s : mach)) 1024)) (lset m' s)) → wp alloc_page Q s.
Proof.
  intros Hn HQ. unfold alloc_page. wp_step. apply wp_lift, wp_run. unfold alloc_words. rewrite alloc_live.
  eexists _, _. split; [done|]. cbn beta iota. wp_step. wp_step; [lia|]. wp_step. apply HQ.
Qed.

(** Defect.  An Identify command for data this controller does not have is
    not refused: the host receives an uninitialised page of the controller's
    memory, with status 0. *)
Theorem identify_unknown_leaks cmd s : identify_cns cmd ∉ [NVME_ID_CNS_NS; NVME_ID_CNS_CTRL; NVME_ID_CNS_NS_ACTIVE_LIST; NVME_ID_CNS_CS_CTRL] →
  page_at (c_prp1 cmd) → 0 < m_next (lget s : mach) →
  ∃ s', process_identify_command cmd s = Some ((NVME_SC_SUCCESS, 0), s') ∧
    hmem (nv_link s') <$> seqZ (c_prp1 cmd) 4096 = sector_bytes (junk_words (m_next (lget s : mach)) 1024).
Proof.
  intros Hc Hp Hn. set (id := m_next (lget s : mach)) in *.
  enough (wp (process_identify_command cmd) (λ r s', r = (NVME_SC_SUCCESS, 0) ∧ hmem (nv_link s') <$> seqZ (c_prp1 cmd) 4096 = sector_bytes (junk_words id 1024)) s) as Hw.
  { apply wp_run in Hw as (r & s' & E & -> & ?). by exists s'. }
  rewrite !not_elem_of_cons in Hc. destruct Hc as (C1 & C2 & C3 & C4 & _).
  unfold process_identify_command. wp_step. apply wp_alloc_page; [done|]. intros m'. fold id. wp_step.
  rewrite !(proj2 (Z.eqb_neq _ _)) by done. wp_step. cbn beta iota. wp_step.
  apply wp_write_page; [done| |].
  - rewrite sector_bytes_length, junk_words_len. done.
  - intros k Hk. wp_step. by split.
Qed.
End admin.

Section refused.
Context {PL : Platform} {PC : Pcie} {SP : Storpu}.
(** Defect.  Write Zeroes is announced in the controller data (bit 3 of
    ONCS), and [process_ftl_command] handles it, but every such command is
    completed with "invalid opcode". *)
Theorem write_zeroes_refused r0 turns cid nsid prp1 prp2 d10 d11 d12 d13 d14 d15 s :
  Z.testbit (get_le 520 2 nvme_identify_controller) 3 = true ∧
  process_io_command r0 turns (Cmd nvme_cmd_write_zeroes cid nsid prp1 prp2 d10 d11 d12 d13 d14 d15) s = Some ((NVME_SC_INVALID_OPCODE, 0), s).
Proof. split; [by vm_compute|done]. Qed.
End refused.

(** * Examples *)
(** A link that never fails; the memories are functions.  No in-storage
    processor. *)
Definition mem_write (a : Z) (l : list Z) (m : Z → Z) : Z → Z := λ x,
  if decide (a ≤ x < a + Z.of_nat (length l)) then default 0 (l !! Z.to_nat (x - a)) else m x.
#[export] Instance sim_pcie : Pcie := {|
  link := (Z → Z) * (Z → Z);
  hmem := fst;
  smem := snd;
  pcie_dma_read a n k := (R0, fst k <$> seqZ a n, k);
  pcie_dma_write a l k := (R0, (mem_write a l k.1, k.2));
  zdma_from_phys a n k := (n, snd k <$> seqZ a n, k);
  zdma_to_phys a l k := (Z.of_nat (length l), (k.1, mem_write a l k.2));
  smem_store a l k := (k.1, mem_write a l k.2);
  stale n _ := [];
|}.
#[export] Instance sim_pcie_ok : PcieOk.
Proof.
  split; cbn.
  - intros a n k r l k' [= _ <- _]. by rewrite length_fmap, length_seqZ.
  - by intros a n k l k' [= <- <-].
  - by intros a l k k' [= <-] x.
  - done.
  - by intros a n k l k' [= _ <-].
Qed.
#[export] Instance sim_pcie_live : PcieLive.
Proof. split; cbn; [by intros a n k r l k' [= <- _ _]|by intros a l k r k' [= <- _]]. Qed.
#[export] Instance sim_storpu : Storpu := {| spu := unit; map_scratchpad a := a; submit_storpu_task _ k := (Err ENOSYS, 0, k) |}.

(** Three sectors in pages 1, 5 and 9, the last two named by a list in page 2. *)
Definition ex_words : list (list Z) := [replicate 1024 7; replicate 1024 (2 ^ 32 - 1); seqZ 0 1024].
Definition ex_link : @link sim_pcie := (mem_write 0x2000 (le_bytes 8 0x5000 ++ le_bytes 8 0x9000) (λ _, 0), λ _, 0).
Definition ex_ranges : list (Z * Z) := [(0x1000, 0x1000); (0x5000, 0x1000); (0x9000, 0x1000)].
Lemma ex_entries : prp_entry (hmem ex_link) 0x2000 = 0x5000 ∧ prp_entry (hmem ex_link) 0x2008 = 0x9000.
Proof. split; by vm_compute. Qed.
Lemma ex_addrs : addrs ex_ranges = seqZ 0x1000 0x1000 ++ seqZ 0x5000 0x1000 ++ seqZ 0x9000 0x1000.
Proof. unfold ex_ranges, addrs, range_addrs. rewrite !bind_cons. cbn [mbind list_bind]. by rewrite app_nil_r. Qed.
Lemma ex_prps : prps_ok ex_link 0x1000 0x2000 3 ex_ranges [0x2000; 0x2008].
Proof.
  destruct ex_entries as [E1 E2]. split; [done|done| | |].
  - apply (pd_list _ _ _ _ 0x1000); [done|done|done|]. rewrite <-E1, <-E2. apply pl_page; [done|done|by rewrite E1|].
    apply pl_last; [done|]. by rewrite E2.
  - unfold in_space, ex_ranges. repeat constructor; simpl; lia.
  - intros e b He Hb. rewrite ex_addrs, !elem_of_app, !elem_of_seqZ.
    apply elem_of_cons in He as [->|[->|He%not_elem_of_nil]%elem_of_cons]; [lia|lia|done].
Qed.
Theorem prp_transfers_correct_witness : ∃ k', dma_out (0x1000, 0x2000, 0) ex_words ex_link = Some (R0, k') ∧
  dma_in (0x1000, 0x2000, 0) 3 k' = Some (R0, ex_words, k').
Proof.
  destruct (prp_transfers_correct sim_pcie_live ex_link 0x1000 0x2000 ex_words ex_ranges [0x2000; 0x2008]) as (k' & E1 & _ & _ & E2).
  - exact ex_prps.
  - rewrite ex_addrs, !NoDup_app. split; [apply NoDup_seqZ|]. split.
    + intros x. rewrite elem_of_app, !elem_of_seqZ. lia.
    + split; [apply NoDup_seqZ|]. split; [|apply NoDup_seqZ]. intros x. rewrite !elem_of_seqZ. lia.
  - assert (∀ w, word_ok w → sector_ok (replicate 1024 w)) as Hr.
    { intros w Hw. split; [apply length_replicate|]. by apply Forall_replicate. }
    constructor; [apply Hr; unfold word_ok; lia|]. constructor; [apply Hr; unfold word_ok; lia|]. constructor; [|constructor].
    split; [reflexivity|]. apply Forall_forall. intros x Hx%elem_of_seqZ. unfold word_ok. lia.
  - exists k'. split; [exact E1|exact E2].
Defined.

(** The namespace of FtlTheorems.v behind this link. *)
Definition ex_nvme : nvme := Nvme sim sim_pcie sim_storpu (Ftl sim prp_host (@mk sim prp_host 9 ex_u ex_s (ex_dc0 8) idle ex_link) (Manifest 0 0 0 [] [] []) []) tt ∅ ∅ [].
Definition ex_cmds : list (Z * nvme_command) :=
  [(1, Cmd nvme_cmd_write 7 1 0x1000 0 20 0 0 0 0 0); (1, Cmd nvme_cmd_read 8 1 0x3000 0 20 0 0 0 0 0)].
Theorem nvme_io_refines_witness : ∃ s', run_commands R0 [] ex_cmds ex_nvme = Some (tt, s') ∧ nv_cqes s' = [(1, 0, 7, (0, None)); (1, 0, 8, (0, None))].
Proof.
  assert (match bd_run 32768 (ftl_request <$> ex_cmds.*2) (@Bdev prp_host ∅ ex_link) with Some _ => true | None => false end = true) as Hrun
    by (vm_compute; reflexivity).
  destruct (bd_run 32768 (ftl_request <$> ex_cmds.*2) (@Bdev prp_host ∅ ex_link)) as [b'|] eqn:E; [|discriminate Hrun].
  destruct (nvme_io_refines R0 [] ex_P 1 9 ex_u idle 32768 8 ex_cmds 0 (@Bdev prp_host ∅ ex_link) b' ex_nvme) as (s' & E1 & E2 & _).
  - lia.
  - repeat constructor; cbn; try lia; by (left + right).
  - repeat constructor; cbn; try lia; vm_compute; discriminate.
  - exact E.
  - exists ex_s, (ex_dc0 8), (Manifest 0 0 0 [] [] []), []. split; [reflexivity|].
    split; [exact (ex_dci0 8)|done|done|apply ex_room; vm_compute; lia|]. intros lba x Hx. cbn [bd_disk] in Hx. discriminate Hx.
  - exists s'. split; [exact E1|exact E2].
Defined.

(** Namespaces 1 and 3 allocated, 3 active; the page at 0x1000 of the host holds
    a controller list. *)
Definition ex_manifest : manifest := Manifest MANIFEST_MAGIC MANIFEST_VERSION NAMESPACE_MAX [5] [4]
  (NsMeta 8 8 8 :: NsMeta 0 0 0 :: NsMeta 32768 32768 100 :: replicate 29 (NsMeta 0 0 0)).
Definition ex_admin : nvme := Nvme sim sim_pcie sim_storpu
  (Ftl sim prp_host (@mk sim prp_host 9 ex_u ex_s (ex_dc0 8) idle (mem_write 0x1000 [9] (λ _, 0), λ _, 0)) ex_manifest []) tt ∅ ∅ [].
Lemma ex_manifest_wf : ns_wf ex_manifest.
Proof.
  split; [split; try done; split; try done; repeat constructor; lia|].
  intros i Hi. assert (Forall (λ i, GET_BIT [4] i = true → GET_BIT [5] i = true) (seqZ 0 NAMESPACE_MAX)) as Hf
    by (apply (bool_decide_unpack _); by vm_compute).
  rewrite Forall_forall in Hf. apply Hf, elem_of_seqZ. lia.
Qed.
Theorem identify_correct_witness : nvme_identify_ns_active_list (nv_ftl ex_admin) = Some ([3; 0; 0; 0] ++ replicate 4092 0, nv_ftl ex_admin).
Proof.
  destruct (identify_correct 3 (nv_ftl ex_admin)) as [E _].
  - exact ex_manifest_wf.
  - unfold NAMESPACE_MAX. lia.
  - assert (active_nsids (ft_manifest (nv_ftl ex_admin)) = [3]) as Ea by (vm_compute; reflexivity). rewrite Ea in E. exact E.
Defined.
Theorem identify_unknown_leaks_witness : ∃ s', process_identify_command (Cmd nvme_admin_identify 1 0 0x1000 0 0x10 0 0 0 0 0) ex_admin =
  Some ((NVME_SC_SUCCESS, 0), s').
Proof.
  destruct (identify_unknown_leaks (Cmd nvme_admin_identify 1 0 0x1000 0 0x10 0 0 0 0 0) ex_admin) as (s' & E & _).
  - apply (bool_decide_unpack _). vm_compute. exact I.
  - unfold page_at. cbn [c_prp1]. unfold NVME_PAGE_SIZE. split; [lia|]. split; [reflexivity|lia].
  - vm_compute. reflexivity.
  - exists s'. exact E.
Defined.

(** Defect.  Attaching a namespace that does not exist fails with ESRCH in
    [ftl_attach_namespace], but the command is completed with status 0: the
    status code of every error but "already attached" is dropped. *)
Theorem ns_attach_error_lost :
  fst <$> (r ← lift (ftl_attach_namespace 2);
    '(status, _) ← process_ns_attach_command (Cmd nvme_admin_ns_attach 1 2 0x1000 0 NVME_NS_ATTACH_SEL_CTRL_ATTACH 0 0 0 0 0);
    mret (r, status)) ex_admin = Some (Err ESRCH, NVME_SC_SUCCESS).
Proof. by vm_compute. Qed.
