(* ===== verification/NvmeQueue.v ===== *)
(** Distribution of commands to the worker threads: the command slots of
    hostif/nvme.c, the polling of main.c and the wake-ups of worker.c.

    Threads are coroutines: one runs until it waits.  The only preemption is
    that of the interrupt handlers, which a worker allows between any two
    statements of [nvme_worker_get_work]; what the handlers do here is
    [nvme_request_shutdown] and the arrival of work.  A run is a list of events;
    an event whose thread is not at that point, or that would preempt a
    coroutine, does nothing. *)
From S2P Require Import Prelude Bitmap Nvme.
#[local] Open Scope Z_scope.

Definition NR_WORKER_THREADS : Z := 16.
Definition SHUTDOWN_THREAD : Z := 0.

#[export] Instance nvme_command_eq_dec : EqDecision nvme_command.
Proof. solve_decision. Defined.
#[export] Instance storpu_ftl_type_eq_dec : EqDecision storpu_ftl_type.
Proof. solve_decision. Defined.
#[export] Instance storpu_ftl_task_eq_dec : EqDecision storpu_ftl_task.
Proof. solve_decision. Defined.

(** What a worker is given: a submission queue entry or a task of the StorPU. *)
Inductive work :=
  | NvmeWork (qid : Z) (sqe : nvme_command)
  | StorpuWork (task : storpu_ftl_task).
#[export] Instance work_eq_dec : EqDecision work.
Proof. solve_decision. Defined.

Record nvme_command_slot := Slot {
  sl_qid : Z; sl_sqe : nvme_command; sl_storpu_task : option storpu_ftl_task; sl_valid : bool;
}.

(** Where a worker is: not started; in the loop head of [nvme_worker_main]; in
    [nvme_worker_get_work] with its idle bit set and before [worker_suspend];
    blocked on [WT_BLOCKED_ON_NVME_SQ]; signalled; returned from
    [nvme_worker_get_work]; in [nvme_do_shutdown]; executing its work; returned
    from [nvme_worker_main]. *)
Inductive thread_state :=
  | Created | AtLoop | Suspending | Waiting | Woken
  | Returned (found : option work) | Stopping (found : option work)
  | Busy (w : work) | Exited.

Record wq := Wq {
  cmd_slot_empty : list Z;
  worker_idle : list Z;
  slots : list nvme_command_slot;
  nvme_shutdown_req : bool;
  sq_fifo : list (Z * nvme_command);
  ftl_avail_queue : list storpu_ftl_task;
  threads : list thread_state;
  (** ghost: what the workers executed, and how often the FTL was shut down *)
  executed : list (Z * work);
  shutdowns : nat;
}.

Definition set_empty x s := Wq x (worker_idle s) (slots s) (nvme_shutdown_req s) (sq_fifo s) (ftl_avail_queue s) (threads s) (executed s) (shutdowns s).
Definition set_idle x s := Wq (cmd_slot_empty s) x (slots s) (nvme_shutdown_req s) (sq_fifo s) (ftl_avail_queue s) (threads s) (executed s) (shutdowns s).
Definition set_slots x s := Wq (cmd_slot_empty s) (worker_idle s) x (nvme_shutdown_req s) (sq_fifo s) (ftl_avail_queue s) (threads s) (executed s) (shutdowns s).
Definition set_req x s := Wq (cmd_slot_empty s) (worker_idle s) (slots s) x (sq_fifo s) (ftl_avail_queue s) (threads s) (executed s) (shutdowns s).
Definition set_fifo x s := Wq (cmd_slot_empty s) (worker_idle s) (slots s) (nvme_shutdown_req s) x (ftl_avail_queue s) (threads s) (executed s) (shutdowns s).
Definition set_queue x s := Wq (cmd_slot_empty s) (worker_idle s) (slots s) (nvme_shutdown_req s) (sq_fifo s) x (threads s) (executed s) (shutdowns s).
Definition set_threads x s := Wq (cmd_slot_empty s) (worker_idle s) (slots s) (nvme_shutdown_req s) (sq_fifo s) (ftl_avail_queue s) x (executed s) (shutdowns s).
Definition set_executed x s := Wq (cmd_slot_empty s) (worker_idle s) (slots s) (nvme_shutdown_req s) (sq_fifo s) (ftl_avail_queue s) (threads s) x (shutdowns s).
Definition set_shutdowns x s := Wq (cmd_slot_empty s) (worker_idle s) (slots s) (nvme_shutdown_req s) (sq_fifo s) (ftl_avail_queue s) (threads s) (executed s) x.

Definition no_command : nvme_command := Cmd 0 0 0 0 0 0 0 0 0 0 0.
Definition wq_init : wq :=
  Wq (bitmap_zero NR_WORKER_THREADS) (bitmap_zero NR_WORKER_THREADS)
     (replicate 16 (Slot 0 no_command None false)) false [] [] (replicate 16 Created) [] 0%nat.

(** * The command slots *)
Section ops.

Definition get_slot (worker : Z) : ST wq nvme_command_slot :=
  gets slots ≫= λ l, deref (l !! Z.to_nat worker).
Definition put_slot (worker : Z) (cmd_slot : nvme_command_slot) : ST wq unit :=
  modify (λ s, set_slots (<[Z.to_nat worker := cmd_slot]> (slots s)) s).
Definition put_thread (tid : Z) (t : thread_state) : ST wq unit :=
  modify (λ s, set_threads (<[Z.to_nat tid := t]> (threads s)) s).

Definition wake (t : thread_state) : thread_state := match t with Waiting => Woken | _ => t end.
(** [worker_wake(worker_get(tid), WT_BLOCKED_ON_NVME_SQ)]: nothing if the worker
    is not blocked on that, and signalling a signalled worker has no effect. *)
Definition worker_wake (tid : Z) : ST wq unit :=
  modify (λ s, set_threads (alter wake (Z.to_nat tid) (threads s)) s).

(** An idle worker with an empty slot, else the first with an empty slot, else
    [NR_WORKER_THREADS] or more. *)
Definition pick_worker : ST wq Z :=
  gets (λ s,
    let worker := find_next_and_bit (worker_idle s) (cmd_slot_empty s) NR_WORKER_THREADS 0 in
    if NR_WORKER_THREADS <=? worker then find_first_bit (cmd_slot_empty s) NR_WORKER_THREADS else worker).

Definition nvme_worker_dispatch (qid : Z) (sqe : nvme_command) : ST wq bool :=
  worker ← pick_worker;
  if NR_WORKER_THREADS <=? worker then mret false
  else
    cmd_slot ← get_slot worker;
    assert (negb (sl_valid cmd_slot)) ;;
    put_slot worker (Slot qid sqe None true) ;;
    modify (λ s, set_empty (UNSET_BIT (cmd_slot_empty s) worker) s) ;;
    worker_wake worker ;;
    mret true.

Definition nvme_worker_dispatch_storpu (task : storpu_ftl_task) : ST wq bool :=
  worker ← pick_worker;
  if NR_WORKER_THREADS <=? worker then mret false
  else
    cmd_slot ← get_slot worker;
    assert (negb (sl_valid cmd_slot)) ;;
    put_slot worker (Slot (sl_qid cmd_slot) (sl_sqe cmd_slot) (Some task) true) ;;
    modify (λ s, set_empty (UNSET_BIT (cmd_slot_empty s) worker) s) ;;
    worker_wake worker ;;
    mret true.

(** [llist_add], [llist_del_first] *)
Definition enqueue_storpu_ftl_task (task : storpu_ftl_task) : ST wq unit :=
  modify (λ s, set_queue (task :: ftl_avail_queue s) s).
Definition dequeue_storpu_ftl_task : ST wq (option storpu_ftl_task) :=
  q ← gets ftl_avail_queue;
  match q with [] => mret None | t :: q' => modify (set_queue q') ;; mret (Some t) end.
Definition nvme_pcie_get_sqe : ST wq (option (Z * nvme_command)) := gets (λ s, head (sq_fifo s)).
Definition nvme_pcie_pop_sqe : ST wq unit := modify (λ s, set_fifo (tail (sq_fifo s)) s).

(** * Polling in main() *)
Fixpoint poll_nvme_fifo (fuel : nat) : ST wq unit :=
  match fuel with
  | O => mret tt
  | S fuel =>
      sqe ← nvme_pcie_get_sqe;
      match sqe with
      | None => mret tt
      | Some (qid, sqe) =>
          ok ← nvme_worker_dispatch qid sqe;
          if ok : bool then nvme_pcie_pop_sqe ;; poll_nvme_fifo fuel else mret tt
      end
  end.
Fixpoint poll_storpu_tasks (fuel : nat) : ST wq unit :=
  match fuel with
  | O => mret tt
  | S fuel =>
      ftl_task ← dequeue_storpu_ftl_task;
      match ftl_task with
      | None => mret tt
      | Some t =>
          ok ← nvme_worker_dispatch_storpu t;
          if ok : bool then poll_storpu_tasks fuel else enqueue_storpu_ftl_task t
      end
  end.
(** Each iteration that continues takes one element off. *)
Definition main_poll : ST wq unit :=
  n ← gets (λ s, length (sq_fifo s));
  poll_nvme_fifo n ;;
  m ← gets (λ s, length (ftl_avail_queue s));
  poll_storpu_tasks m.

(** * nvme_worker_get_work *)
Definition slot_work (cmd_slot : nvme_command_slot) : work :=
  match sl_storpu_task cmd_slot with
  | Some task => StorpuWork task
  | None => NvmeWork (sl_qid cmd_slot) (sl_sqe cmd_slot)
  end.
Definition shutdown_due (tid : Z) : ST wq bool := gets (λ s, nvme_shutdown_req s && (tid =? SHUTDOWN_THREAD)).
(** [SET_BIT(cmd_slot_empty, self->tid); cmd_slot->valid = FALSE;] *)
Definition release_slot (tid : Z) (cmd_slot : nvme_command_slot) : ST wq unit :=
  modify (λ s, set_empty (SET_BIT (cmd_slot_empty s) tid) s) ;;
  put_slot tid (Slot (sl_qid cmd_slot) (sl_sqe cmd_slot) (sl_storpu_task cmd_slot) false).

(** Up to [worker_wait]; [None]: it is called. *)
Definition nvme_worker_get_work (tid : Z) : ST wq (option (option work)) :=
  due ← shutdown_due tid;
  if due : bool then mret (Some None)
  else
    cmd_slot ← get_slot tid;
    if sl_valid cmd_slot then
      (gets (λ s, GET_BIT (cmd_slot_empty s) tid) ≫= λ b, assert (negb b)) ;;
      release_slot tid cmd_slot ;;
      mret (Some (Some (slot_work cmd_slot)))
    else
      (gets (λ s, GET_BIT (cmd_slot_empty s) tid) ≫= assert) ;;
      sqe ← nvme_pcie_get_sqe;
      match sqe with
      | Some (qid, sqe) => nvme_pcie_pop_sqe ;; mret (Some (Some (NvmeWork qid sqe)))
      | None =>
          task ← dequeue_storpu_ftl_task;
          match task with
          | Some task => mret (Some (Some (StorpuWork task)))
          | None => modify (λ s, set_idle (SET_BIT (worker_idle s) tid) s) ;; mret None
          end
      end.
(** From the return of [worker_wait]. *)
Definition nvme_worker_got_work (tid : Z) : ST wq (option work) :=
  modify (λ s, set_idle (UNSET_BIT (worker_idle s) tid) s) ;;
  due ← shutdown_due tid;
  if due : bool then mret None
  else
    cmd_slot ← get_slot tid;
    if sl_valid cmd_slot then release_slot tid cmd_slot ;; mret (Some (slot_work cmd_slot))
    else mret None.

(** * nvme_worker_main *)
Definition nvme_worker_start (tid : Z) : ST wq unit :=
  modify (λ s, set_empty (SET_BIT (cmd_slot_empty s) tid) s) ;;
  put_thread tid AtLoop.
Definition start_work (tid : Z) (found : option work) : ST wq unit :=
  match found with
  | Some w => modify (λ s, set_executed (executed s ++ [(tid, w)]) s) ;; put_thread tid (Busy w)
  | None => put_thread tid AtLoop
  end.
(** The loop condition and the test for a shutdown that follows it. *)
Definition nvme_worker_loop (tid : Z) (found : option work) : ST wq unit :=
  due ← shutdown_due tid;
  if due : bool then put_thread tid (Stopping found)
  else match found with
       | None => put_thread tid Exited
       | Some w => start_work tid found
       end.
(** After [nvme_do_shutdown(FALSE)]. *)
Definition nvme_worker_stopped (tid : Z) (found : option work) : ST wq unit :=
  modify (λ s, set_shutdowns (S (shutdowns s)) (set_req false s)) ;;
  start_work tid found.

Definition nvme_request_shutdown : ST wq unit :=
  modify (set_req true) ;; worker_wake SHUTDOWN_THREAD.
End ops.

(** * Events *)
Inductive event :=
  | ESqe (qid : Z) (sqe : nvme_command)   (* the controller receives a command *)
  | ETask (task : storpu_ftl_task)        (* a StorPU core enqueues a task *)
  | EShutdown                             (* the host asks for a shutdown *)
  | EMain                                 (* the main loop polls *)
  | EStart (tid : Z)                      (* a worker enters nvme_worker_main *)
  | EGetWork (tid : Z)                    (* calls nvme_worker_get_work *)
  | EBlock (tid : Z)                      (* blocks in worker_wait *)
  | EResume (tid : Z)                     (* returns from worker_wait *)
  | ELoop (tid : Z)                       (* enters the body of the loop *)
  | EStopped (tid : Z)                    (* returns from nvme_do_shutdown *)
  | EDone (tid : Z).                      (* completes its work *)

Definition state_of (s : wq) (tid : Z) : option thread_state :=
  if (0 <=? tid) && (tid <? NR_WORKER_THREADS) then threads s !! Z.to_nat tid else None.
(** A worker is inside [nvme_worker_get_work] or on its way from it, so the main
    loop and the other workers do not run. *)
Definition on_cpu (t : thread_state) : bool :=
  match t with Suspending | Returned _ => true | _ => false end.
Definition cpu_free (s : wq) : bool := forallb (λ t, negb (on_cpu t)) (threads s).

Definition exec (e : event) (s : wq) : option wq :=
  let run (m : ST wq unit) := match m s with Some (_, s') => Some s' | None => None end in
  match e with
  | ESqe qid sqe => run (modify (λ s, set_fifo (sq_fifo s ++ [(qid, sqe)]) s))
  | ETask task => run (enqueue_storpu_ftl_task task)
  | EShutdown => run nvme_request_shutdown
  | EMain => if cpu_free s then run main_poll else Some s
  | EStart tid =>
      match state_of s tid with
      | Some Created => if cpu_free s then run (nvme_worker_start tid) else Some s
      | _ => Some s
      end
  | EGetWork tid =>
      match state_of s tid with
      | Some AtLoop =>
          if cpu_free s then
            run (nvme_worker_get_work tid ≫= λ r,
                 put_thread tid (match r with Some found => Returned found | None => Suspending end))
          else Some s
      | _ => Some s
      end
  | EBlock tid =>
      match state_of s tid with Some Suspending => run (put_thread tid Waiting) | _ => Some s end
  | EResume tid =>
      match state_of s tid with
      | Some Woken =>
          if cpu_free s then run (nvme_worker_got_work tid ≫= λ found, put_thread tid (Returned found)) else Some s
      | _ => Some s
      end
  | ELoop tid =>
      match state_of s tid with Some (Returned found) => run (nvme_worker_loop tid found) | _ => Some s end
  | EStopped tid =>
      match state_of s tid with
      | Some (Stopping found) => if cpu_free s then run (nvme_worker_stopped tid found) else Some s
      | _ => Some s
      end
  | EDone tid =>
      match state_of s tid with
      | Some (Busy _) => if cpu_free s then run (put_thread tid AtLoop) else Some s
      | _ => Some s
      end
  end.
Fixpoint run_events (es : list event) (s : wq) : option wq :=
  match es with [] => Some s | e :: es' => match exec e s with Some s' => run_events es' s' | None => None end end.

(** * Specification vocabulary *)
Definition in_slot (sl : nvme_command_slot) : list work := if sl_valid sl then [slot_work sl] else [].
Definition in_hand (t : thread_state) : list work :=
  match t with Returned (Some w) | Stopping (Some w) => [w] | _ => [] end.
Definition of_sqe (x : Z * nvme_command) : work := NvmeWork x.1 x.2.
(** Work accepted and not yet executed, and all work there is. *)
Definition pending (s : wq) : list work :=
  concat (in_slot <$> slots s) ++ concat (in_hand <$> threads s) ++
  (of_sqe <$> sq_fifo s) ++ (StorpuWork <$> ftl_avail_queue s).
Definition works (s : wq) : list work := (executed s).*2 ++ pending s.
Definition arrival (e : event) : list work :=
  match e with ESqe qid sqe => [NvmeWork qid sqe] | ETask t => [StorpuWork t] | _ => [] end.
Definition arrived (es : list event) : list work := concat (arrival <$> es).

Definition is_worker (w : Z) : Prop := 0 ≤ w < NR_WORKER_THREADS.
Definition asleep (t : thread_state) : bool :=
  match t with Suspending | Waiting | Woken => true | _ => false end.
(** Worker [w] with its bits [e] and [i], its slot and its state. *)
Definition worker_ok (req : bool) (w : Z) (e i : bool) (sl : nvme_command_slot) (t : thread_state) : Prop :=
  e = (match t with Created => false | _ => negb (sl_valid sl) end) ∧
  i = asleep t ∧
  match t with
  | Created | Suspending | Waiting => sl_valid sl = false
  | Woken => sl_valid sl = true ∨ (w = SHUTDOWN_THREAD ∧ req = true)
  | Returned None => w = SHUTDOWN_THREAD ∧ req = true
  | Stopping _ => w = SHUTDOWN_THREAD
  | Exited => False
  | _ => True
  end.
Record wq_inv (s : wq) : Prop := {
  inv_slots : length (slots s) = 16%nat;
  inv_threads : length (threads s) = 16%nat;
  inv_empty : length (cmd_slot_empty s) = 1%nat ∧ bm_wf (cmd_slot_empty s);
  inv_idle : length (worker_idle s) = 1%nat ∧ bm_wf (worker_idle s);
  inv_workers : ∀ w sl t, is_worker w → slots s !! Z.to_nat w = Some sl → threads s !! Z.to_nat w = Some t →
    worker_ok (nvme_shutdown_req s) w (bit (cmd_slot_empty s) w) (bit (worker_idle s) w) sl t;
}.
(** No empty slot is left. *)
Definition slots_full (s : wq) : Prop := ∀ w, is_worker w → bit (cmd_slot_empty s) w = false.
(** Occurrences of a piece of work. *)
Definition occ (x : work) (l : list work) : nat := count_occ work_eq_dec l x.

(** * Lemmas on lists and bitmaps *)
Lemma occ_app x l1 l2 : occ x (l1 ++ l2) = (occ x l1 + occ x l2)%nat.
Proof. apply count_occ_app. Qed.
Lemma occ_insert {A} (f : A → list work) x l i a b : l !! i = Some a →
  (occ x (concat (f <$> <[i:=b]> l)) + occ x (f a) = occ x (concat (f <$> l)) + occ x (f b))%nat.
Proof.
  intros E. rewrite (insert_take_drop _ _ _ (lookup_lt_Some _ _ _ E)).
  rewrite <-(take_drop_middle l i a E) at 3. rewrite !fmap_app, !fmap_cons, !concat_app. simpl.
  rewrite !occ_app. lia.
Qed.
Lemma occ_perm l1 l2 : (∀ x, occ x l1 = occ x l2) → l1 ≡ₚ l2.
Proof. apply Permutation_count_occ. Qed.
Lemma occ_works x s : occ x (works s) =
  (occ x (executed s).*2 + occ x (concat (in_slot <$> slots s)) + occ x (concat (in_hand <$> threads s)) +
   occ x (of_sqe <$> sq_fifo s) + occ x (StorpuWork <$> ftl_avail_queue s))%nat.
Proof. unfold works, pending. rewrite !occ_app. lia. Qed.
Lemma in_slot_valid sl : sl_valid sl = true → in_slot sl = [slot_work sl].
Proof. unfold in_slot. by intros ->. Qed.
Lemma in_slot_empty sl : sl_valid sl = false → in_slot sl = [].
Proof. unfold in_slot. by intros ->. Qed.
Lemma occ_cons x w l : occ x (w :: l) = (occ x [w] + occ x l)%nat.
Proof. apply (occ_app x [w]). Qed.
Lemma occ_nil x : occ x [] = 0%nat.
Proof. done. Qed.
Lemma occ_one x w : occ x [w] = (if decide (w = x) then 1 else 0)%nat.
Proof. unfold occ. simpl. destruct (work_eq_dec w x), (decide (w = x)); done. Qed.

Lemma alter_insert {A} (f : A → A) (l : list A) (i : nat) a : l !! i = Some a → alter f i l = <[i := f a]> l.
Proof.
  intros E. apply list_eq. intros j. rewrite list_lookup_alter. destruct (decide (i = j)) as [->|].
  - rewrite E. by rewrite list_lookup_insert_eq by (by eapply lookup_lt_Some).
  - by rewrite list_lookup_insert_ne.
Qed.

(** [m'] is [m] but for bit [w]. *)
Definition bit_updated (m m' : list Z) (w : Z) : Prop :=
  length m' = length m ∧ (bm_wf m → bm_wf m') ∧ ∀ j, 0 ≤ j → j ≠ w → bit m' j = bit m j.
Lemma bit_updated_refl m w : bit_updated m m w.
Proof. done. Qed.
Lemma bit_updated_SET m w : is_worker w → length m = 1%nat → bit_updated m (SET_BIT m w) w.
Proof.
  intros Hw Hl. unfold is_worker, NR_WORKER_THREADS in Hw. repeat split; intros.
  - apply length_insert.
  - by apply bm_wf_SET; [lia|].
  - rewrite bit_SET_BIT; [|lia|rewrite Hl; dlia|lia]. by rewrite bool_decide_eq_false_2.
Qed.
Lemma bit_updated_UNSET m w : is_worker w → length m = 1%nat → bit_updated m (UNSET_BIT m w) w.
Proof.
  intros Hw Hl. unfold is_worker, NR_WORKER_THREADS in Hw. repeat split; intros.
  - apply length_insert.
  - by apply bm_wf_UNSET.
  - rewrite bit_UNSET_BIT; [|lia|rewrite Hl; dlia|lia]. by rewrite bool_decide_eq_false_2.
Qed.
Lemma bit_set m w : is_worker w → length m = 1%nat → bit (SET_BIT m w) w = true.
Proof.
  intros Hw Hl. unfold is_worker, NR_WORKER_THREADS in Hw.
  rewrite bit_SET_BIT; [|lia|rewrite Hl; dlia|lia]. by rewrite bool_decide_eq_true_2.
Qed.
Lemma bit_unset m w : is_worker w → length m = 1%nat → bit (UNSET_BIT m w) w = false.
Proof.
  intros Hw Hl. unfold is_worker, NR_WORKER_THREADS in Hw.
  rewrite bit_UNSET_BIT; [|lia|rewrite Hl; dlia|lia]. by rewrite bool_decide_eq_true_2.
Qed.
#[export] Hint Resolve bit_updated_refl bit_updated_SET bit_updated_UNSET : wq.

(** * The invariant *)
Lemma wq_init_inv : wq_inv wq_init.
Proof.
  split; [done..| | |].
  - split; [done|apply bm_wf_zero].
  - split; [done|apply bm_wf_zero].
  - intros w sl t Hw Hsl Ht. apply lookup_replicate in Hsl as [-> _], Ht as [-> _].
    unfold wq_init; cbn [cmd_slot_empty worker_idle]. by rewrite bit_zero.
Qed.

Lemma worker_ok_req req req' w e i sl t : w ≠ SHUTDOWN_THREAD →
  worker_ok req w e i sl t → worker_ok req' w e i sl t.
Proof. intros Hw (-> & -> & H). repeat split. destruct t as [| | | | |[]| | |]; naive_solver. Qed.

Lemma is_worker_nat w : is_worker w → (Z.to_nat w < 16)%nat.
Proof. unfold is_worker, NR_WORKER_THREADS. lia. Qed.
#[export] Hint Resolve is_worker_nat : wq.

(** A step that concerns worker [w] alone. *)
Lemma inv_update s s' w sl t :
  wq_inv s → is_worker w →
  slots s' = <[Z.to_nat w := sl]> (slots s) →
  threads s' = <[Z.to_nat w := t]> (threads s) →
  bit_updated (cmd_slot_empty s) (cmd_slot_empty s') w →
  bit_updated (worker_idle s) (worker_idle s') w →
  nvme_shutdown_req s' = nvme_shutdown_req s ∨ w = SHUTDOWN_THREAD →
  worker_ok (nvme_shutdown_req s') w (bit (cmd_slot_empty s') w) (bit (worker_idle s') w) sl t →
  wq_inv s'.
Proof.
  intros [H1 H2 [H3 H3'] [H4 H4'] H5] Hw Es Et (L1 & W1 & B1) (L2 & W2 & B2) Hreq Hok. split.
  - by rewrite Es, length_insert.
  - by rewrite Et, length_insert.
  - split; [congruence|auto].
  - split; [congruence|auto].
  - intros j sl' t' Hj. rewrite Es, Et. pose proof (is_worker_nat _ Hj). pose proof (is_worker_nat _ Hw).
    destruct (decide (j = w)) as [->|Hne].
    + rewrite !list_lookup_insert_eq by lia. intros [= <-] [= <-]. done.
    + unfold is_worker, NR_WORKER_THREADS in Hj, Hw. rewrite !list_lookup_insert_ne by lia. intros Hsl Ht.
      rewrite B1, B2 by lia. specialize (H5 _ _ _ Hj Hsl Ht).
      destruct Hreq as [-> | ->]; [done|by eapply worker_ok_req].
Qed.

Lemma worker_lookup s w : wq_inv s → is_worker w →
  ∃ sl t, slots s !! Z.to_nat w = Some sl ∧ threads s !! Z.to_nat w = Some t ∧
    worker_ok (nvme_shutdown_req s) w (bit (cmd_slot_empty s) w) (bit (worker_idle s) w) sl t.
Proof.
  intros I Hw. pose proof (is_worker_nat _ Hw) as Hn.
  destruct (lookup_lt_is_Some_2 (slots s) (Z.to_nat w)) as [sl Hsl]; [rewrite inv_slots; done|].
  destruct (lookup_lt_is_Some_2 (threads s) (Z.to_nat w)) as [t Ht]; [rewrite inv_threads; done|].
  exists sl, t. split; [done|]. split; [done|]. by apply I.
Qed.

Lemma cpu_free_lookup s i t : cpu_free s = true → threads s !! i = Some t → on_cpu t = false.
Proof.
  unfold cpu_free. rewrite forallb_forall. intros H E. apply negb_true_iff, H, list_elem_of_In.
  by apply list_elem_of_lookup_2 in E.
Qed.
Lemma cpu_free_insert s s' i t : cpu_free s = true → threads s' = <[i := t]> (threads s) → on_cpu t = false →
  cpu_free s' = true.
Proof.
  unfold cpu_free. intros H -> Ht. rewrite forallb_forall in *. intros x Hx.
  apply list_elem_of_In, list_elem_of_lookup_1 in Hx as [j Hj].
  apply list_lookup_insert_Some in Hj as [(_ & <- & _)|[_ Hj]]; [by rewrite Ht|].
  apply H, list_elem_of_In. by eapply list_elem_of_lookup_2.
Qed.

(** * Dispatch *)
Lemma pick_worker_spec s : wq_inv s →
  wp pick_worker (λ w s', s' = s ∧
    ((is_worker w ∧ bit (cmd_slot_empty s) w = true) ∨ (NR_WORKER_THREADS ≤ w ∧ slots_full s))) s.
Proof.
  intros I. apply wp_gets. split; [done|]. destruct (inv_empty _ I) as [_ We], (inv_idle _ I) as [_ Wi].
  destruct (find_next_and_bit_small_first (worker_idle s) (cmd_slot_empty s) NR_WORKER_THREADS) as [H1 H1'];
    [done|done|unfold NR_WORKER_THREADS; lia|].
  destruct (find_next_bit_first (cmd_slot_empty s) We NR_WORKER_THREADS 0) as [H2 H2'];
    [unfold NR_WORKER_THREADS; lia..|].
  set (a := find_next_and_bit _ _ _ _) in *. unfold find_first_bit. set (b := find_next_bit _ _ _) in *.
  destruct (Z.leb_spec NR_WORKER_THREADS a).
  - destruct H2 as [E|[Hb Pb]].
    + right. split; [lia|]. intros w Hw. unfold is_worker in Hw. apply H2'. lia.
    + left. done.
  - destruct H1 as [E|[Ha Pa]]; [lia|]. left. split; [done|]. by apply andb_true_iff in Pa as [_ Pa].
Qed.

(** Workers with a full slot are left alone. *)
Definition frozen (s s' : wq) : Prop := ∀ w, is_worker w → bit (cmd_slot_empty s) w = false →
  bit (cmd_slot_empty s') w = false ∧
  slots s' !! Z.to_nat w = slots s !! Z.to_nat w ∧ threads s' !! Z.to_nat w = threads s !! Z.to_nat w.
Lemma frozen_refl s : frozen s s.
Proof. by intros w. Qed.
Lemma frozen_trans s1 s2 s3 : frozen s1 s2 → frozen s2 s3 → frozen s1 s3.
Proof.
  intros H1 H2 w Hw Hb. destruct (H1 w Hw Hb) as (Hb2 & <- & <-). by apply H2.
Qed.
Lemma frozen_full s s' : frozen s s' → slots_full s → slots_full s'.
Proof. intros H F w Hw. by apply H, F. Qed.

(** What both dispatch functions do with an empty slot. *)
Lemma dispatch_fill s w sl sl' x : wq_inv s → cpu_free s = true → is_worker w →
  bit (cmd_slot_empty s) w = true →
  slots s !! Z.to_nat w = Some sl → sl_valid sl' = true → slot_work sl' = x →
  sl_valid sl = false ∧
  wp (put_slot w sl' ;; modify (λ s, set_empty (UNSET_BIT (cmd_slot_empty s) w) s) ;; worker_wake w ;; mret true)
     (λ ok s', ok = true ∧ wq_inv s' ∧ cpu_free s' = true ∧ sq_fifo s' = sq_fifo s ∧
        ftl_avail_queue s' = ftl_avail_queue s ∧ frozen s s' ∧
        ∀ y, occ y (works s') = (occ y [x] + occ y (works s))%nat) s.
Proof.
  intros I C Hw Hb Hsl Hv Hx. destruct (worker_lookup s w I Hw) as (sl0 & t & Hsl0 & Ht & Hok).
  rewrite Hsl in Hsl0. injection Hsl0 as <-. destruct Hok as (He & Hi & Hs). rewrite Hb in He.
  assert (sl_valid sl = false) as Hinv by (destruct t, (sl_valid sl); done).
  split; [done|]. set (t' := wake t).
  pose proof (alter_insert wake _ _ _ Ht : alter _ _ _ = <[_ := t']> _) as Ealt.
  pose proof (cpu_free_lookup _ _ _ C Ht) as Hcpu. unfold put_slot, worker_wake. wp_steps.
  cbn [threads set_empty set_slots]. rewrite Ealt.
  assert (in_hand t' = in_hand t) as Ehand by (by destruct t). split; [done|]. split; [|split; [|split; [done|split; [done|split]]]].
  - apply (inv_update s _ w sl' t'); [done..| | |by left|].
    + apply bit_updated_UNSET; [done|apply (inv_empty _ I)].
    + apply bit_updated_refl.
    + cbn. rewrite bit_unset, Hi by (done || apply (inv_empty _ I)).
      split; [|split; [by destruct t|]]; unfold t'; destruct t as [| | | | |[]| | |]; cbn in *; rewrite ?Hv; auto; done.
  - eapply cpu_free_insert; [exact C|done|]. unfold t'. by destruct t.
  - intros j Hj Hbj. assert (j ≠ w) as Hne by (intros ->; congruence).
    cbn [cmd_slot_empty slots threads set_empty set_slots set_threads]. unfold is_worker in Hj, Hw.
    rewrite !list_lookup_insert_ne by lia. split; [|done].
    destruct (bit_updated_UNSET (cmd_slot_empty s) w) as (_ & _ & U); [done|apply (inv_empty _ I)|].
    by rewrite U by lia.
  - intros y. rewrite !occ_works. cbn [executed slots threads sq_fifo ftl_avail_queue set_empty set_slots set_threads].
    pose proof (occ_insert in_slot y (slots s) _ sl sl' Hsl) as O1.
    pose proof (occ_insert in_hand y (threads s) _ t t' Ht) as O2. rewrite Ehand in O2.
    rewrite (in_slot_valid sl'), (in_slot_empty sl), occ_nil, Hx in O1 by done. lia.
Qed.

Definition dispatched (x : work) (s : wq) (ok : bool) (s' : wq) : Prop :=
  wq_inv s' ∧ cpu_free s' = true ∧ frozen s s' ∧
  if ok then
    sq_fifo s' = sq_fifo s ∧ ftl_avail_queue s' = ftl_avail_queue s ∧
    ∀ y, occ y (works s') = (occ y [x] + occ y (works s))%nat
  else s' = s ∧ slots_full s.

Lemma dispatch_common s x fill : wq_inv s → cpu_free s = true →
  (∀ sl, slot_work (fill sl) = x ∧ sl_valid (fill sl) = true) →
  wp (worker ← pick_worker;
      if NR_WORKER_THREADS <=? worker then mret false
      else
        cmd_slot ← get_slot worker;
        assert (negb (sl_valid cmd_slot)) ;;
        put_slot worker (fill cmd_slot) ;;
        modify (λ s, set_empty (UNSET_BIT (cmd_slot_empty s) worker) s) ;;
        worker_wake worker ;;
        mret true) (dispatched x s) s.
Proof.
  intros I C Hfill. apply wp_bind. eapply wp_mono; [by apply pick_worker_spec|]. cbn beta.
  intros w ? [-> [[Hw Hb]|[Hw Hfull]]].
  - replace (NR_WORKER_THREADS <=? w) with false by (unfold is_worker in Hw; lia).
    destruct (worker_lookup s w I Hw) as (sl & _ & Hsl & _).
    destruct (dispatch_fill s w sl (fill sl) x) as [Hv Hwp]; [done..|apply Hfill|apply Hfill|].
    unfold get_slot. wp_steps. apply wp_deref. exists sl. split; [done|]. cbn beta. apply wp_bind, wp_assert.
    rewrite Hv. split; [done|]. eapply wp_mono; [exact Hwp|].
    intros ok s' (-> & I' & C' & E1 & E2 & F & O). split_and!; auto.
  - replace (NR_WORKER_THREADS <=? w) with true by lia. apply wp_ret. unfold dispatched. auto using frozen_refl.
Qed.
Lemma dispatch_sqe_spec s q e : wq_inv s → cpu_free s = true →
  wp (nvme_worker_dispatch q e) (dispatched (NvmeWork q e) s) s.
Proof. intros I C. by apply (dispatch_common s _ (λ _, Slot q e None true)). Qed.
Lemma dispatch_storpu_spec s t : wq_inv s → cpu_free s = true →
  wp (nvme_worker_dispatch_storpu t) (dispatched (StorpuWork t) s) s.
Proof. intros I C. by apply (dispatch_common s _ (λ sl, Slot (sl_qid sl) (sl_sqe sl) (Some t) true)). Qed.

(** * Polling *)

(** Steps that only move work between the queues and the ghost log. *)
Lemma inv_same s s' : wq_inv s → slots s' = slots s → threads s' = threads s →
  cmd_slot_empty s' = cmd_slot_empty s → worker_idle s' = worker_idle s →
  nvme_shutdown_req s' = nvme_shutdown_req s → wq_inv s'.
Proof. intros [] E1 E2 E3 E4 E5. by split; rewrite ?E1, ?E2, ?E3, ?E4, ?E5. Qed.

(** The work there is stays the same. *)
Definition keeps (s s' : wq) : Prop := ∀ y, occ y (works s') = occ y (works s).

Lemma poll_nvme_fifo_spec n s : wq_inv s → cpu_free s = true → (length (sq_fifo s) ≤ n)%nat →
  wp (poll_nvme_fifo n) (λ _ s', wq_inv s' ∧ cpu_free s' = true ∧ keeps s s' ∧ frozen s s' ∧
    (sq_fifo s' = [] ∨ slots_full s')) s.
Proof.
  revert s. induction n as [|n IH]; intros s I C Hn; simpl.
  { apply wp_ret. destruct (sq_fifo s) eqn:E; [|simpl in Hn; lia]. by split_and!; auto using frozen_refl. }
  unfold nvme_pcie_get_sqe. wp_steps. destruct (sq_fifo s) as [|[q e] fifo] eqn:E; simpl.
  { apply wp_ret. by split_and!; auto using frozen_refl. }
  apply wp_bind. eapply wp_mono; [by apply dispatch_sqe_spec|]. intros ok s1 (I1 & C1 & Z1 & H).
  destruct ok; cbn beta iota.
  - destruct H as (E1 & _ & O). unfold nvme_pcie_pop_sqe. wp_steps.
    eapply wp_mono; [apply IH|].
    + by eapply inv_same; [exact I1|..].
    + done.
    + cbn. rewrite E1, E. simpl in *. lia.
    + cbn beta. intros _ s' (I' & C' & K & Z' & F). split_and!; [done|done| |by eapply frozen_trans|done].
      intros y. rewrite K. specialize (O y). revert O. rewrite !occ_works.
      cbn [executed slots threads sq_fifo ftl_avail_queue set_fifo]. rewrite E1, E.
      rewrite fmap_cons. cbn [tail]. change (of_sqe (q, e)) with (NvmeWork q e).
      rewrite (occ_cons y (NvmeWork q e)). lia.
  - destruct H as [-> F]. apply wp_ret. by split_and!; auto using frozen_refl.
Qed.

Lemma poll_storpu_tasks_spec n s : wq_inv s → cpu_free s = true → (length (ftl_avail_queue s) ≤ n)%nat →
  wp (poll_storpu_tasks n) (λ _ s', wq_inv s' ∧ cpu_free s' = true ∧ keeps s s' ∧ frozen s s' ∧
    sq_fifo s' = sq_fifo s ∧ (ftl_avail_queue s' = [] ∨ slots_full s')) s.
Proof.
  revert s. induction n as [|n IH]; intros s I C Hn; simpl.
  { apply wp_ret. destruct (ftl_avail_queue s) eqn:E; [|simpl in Hn; lia]. by split_and!; auto using frozen_refl. }
  unfold dequeue_storpu_ftl_task. wp_steps. destruct (ftl_avail_queue s) as [|t q] eqn:E; cbn beta iota.
  { wp_steps. by split_and!; auto using frozen_refl. }
  wp_steps. set (s0 := set_queue q s).
  assert (wq_inv s0) as I0 by (by eapply inv_same; [exact I|..]).
  eapply wp_mono; [by apply dispatch_storpu_spec|]. intros ok s1 (I1 & C1 & Z1 & H).
  assert (∀ y, occ y (works s) = (occ y [StorpuWork t] + occ y (works s0))%nat) as O0.
  { intros y. rewrite !occ_works. cbn [executed slots threads sq_fifo ftl_avail_queue set_queue s0]. rewrite E, fmap_cons.
    rewrite (occ_cons y (StorpuWork t)). lia. }
  destruct ok; cbn beta iota.
  - destruct H as (E1 & E2 & O). eapply wp_mono; [apply IH|].
    + done.
    + done.
    + rewrite E2. simpl in *. lia.
    + cbn beta. intros _ s' (I' & C' & K & Z' & F & Q). split_and!; [done|done| |by eapply frozen_trans| |done].
      * intros y. by rewrite K, O, O0.
      * by rewrite F, E1.
  - destruct H as [-> F]. unfold enqueue_storpu_ftl_task. wp_steps. split_and!; [|done| |done|done|by right].
    + by eapply inv_same; [exact I0|..].
    + intros y. rewrite !occ_works. cbn [executed slots threads sq_fifo ftl_avail_queue set_queue s0]. by rewrite E.
Qed.

Lemma main_poll_spec s : wq_inv s → cpu_free s = true →
  wp main_poll (λ _ s', wq_inv s' ∧ cpu_free s' = true ∧ keeps s s' ∧ frozen s s' ∧
    ((sq_fifo s' = [] ∧ ftl_avail_queue s' = []) ∨ slots_full s')) s.
Proof.
  intros I C. unfold main_poll. wp_steps. eapply wp_mono; [by apply poll_nvme_fifo_spec|].
  cbn beta. intros _ s1 (I1 & C1 & K1 & Z1 & F1). wp_steps. eapply wp_mono; [by apply poll_storpu_tasks_spec|].
  cbn beta. intros _ s2 (I2 & C2 & K2 & Z2 & F2 & Q2). split_and!; [done|done| |by eapply frozen_trans|].
  - intros y. by rewrite K2, K1.
  - destruct F1 as [F1|F1]; [|by right; eapply frozen_full]. destruct Q2 as [Q2|Q2]; [|by auto]. left. by rewrite F2, F1.
Qed.

(** * The workers *)
Definition occ_rest (y : work) (s : wq) : nat :=
  (occ y (executed s).*2 + occ y (of_sqe <$> sq_fifo s) + occ y (StorpuWork <$> ftl_avail_queue s))%nat.

(** A step of worker [w] alone. *)
Definition stepped (w : Z) (s s' : wq) : Prop :=
  wq_inv s' ∧ keeps s s' ∧
  ∀ j, j ≠ Z.to_nat w → slots s' !! j = slots s !! j ∧ threads s' !! j = threads s !! j.
(** What a step of worker [w] alone has to establish. *)
Lemma worker_step s s' w sl t sl' t' : wq_inv s → is_worker w →
  slots s !! Z.to_nat w = Some sl → threads s !! Z.to_nat w = Some t →
  slots s' = <[Z.to_nat w := sl']> (slots s) →
  threads s' = <[Z.to_nat w := t']> (threads s) →
  bit_updated (cmd_slot_empty s) (cmd_slot_empty s') w →
  bit_updated (worker_idle s) (worker_idle s') w →
  nvme_shutdown_req s' = nvme_shutdown_req s ∨ w = SHUTDOWN_THREAD →
  worker_ok (nvme_shutdown_req s') w (bit (cmd_slot_empty s') w) (bit (worker_idle s') w) sl' t' →
  (∀ y, occ_rest y s' + occ y (in_slot sl') + occ y (in_hand t') =
        occ_rest y s + occ y (in_slot sl) + occ y (in_hand t))%nat →
  stepped w s s'.
Proof.
  intros I Hw Hsl Ht Es Et Ue Ui Hr Hok O. split; [by eapply inv_update|]. split.
  2:{ intros j Hj. by rewrite Es, Et, !list_lookup_insert_ne by done. }
  intros y. specialize (O y). unfold occ_rest in O. rewrite !occ_works, Es, Et.
  pose proof (occ_insert in_slot y _ _ _ sl' Hsl). pose proof (occ_insert in_hand y _ _ _ t' Ht). lia.
Qed.

Section worker.
Context (s : wq) (w : Z) (sl : nvme_command_slot) (t : thread_state).
Context (I : wq_inv s) (Hw : is_worker w).
Context (Hsl : slots s !! Z.to_nat w = Some sl) (Ht : threads s !! Z.to_nat w = Some t).

Lemma slot_id : slots s = <[Z.to_nat w := sl]> (slots s).
Proof using Hsl. by rewrite list_insert_id. Qed.
Lemma my_ok : worker_ok (nvme_shutdown_req s) w (bit (cmd_slot_empty s) w) (bit (worker_idle s) w) sl t.
Proof using I Hw Hsl Ht. by apply I. Qed.
Lemma len_empty : length (cmd_slot_empty s) = 1%nat.
Proof using I. apply (inv_empty _ I). Qed.
Lemma len_idle : length (worker_idle s) = 1%nat.
Proof using I. apply (inv_idle _ I). Qed.

(** Only the state of the thread changes. *)
Lemma put_thread_ok t' : in_hand t' = in_hand t →
  worker_ok (nvme_shutdown_req s) w (bit (cmd_slot_empty s) w) (bit (worker_idle s) w) sl t' →
  wp (put_thread w t') (λ _ s', stepped w s s') s.
Proof using All.
  intros Eh Hok. unfold put_thread. wp_steps.
  apply (worker_step s _ w sl t sl t'); auto using bit_updated_refl, slot_id.
  intros y. by rewrite Eh.
Qed.

Lemma shutdown_due_wp (Q : bool → wq → Prop) :
  Q (nvme_shutdown_req s && (w =? SHUTDOWN_THREAD)) s → wp (shutdown_due w) Q s.
Proof using Type. done. Qed.
Lemma get_slot_wp Q : Q sl s → wp (get_slot w) Q s.
Proof using Hsl. intros HQ. unfold get_slot. wp_steps. apply wp_deref. by eauto. Qed.

Lemma start_ok : t = Created → wp (nvme_worker_start w) (λ _ s', stepped w s s') s.
Proof using All.
  intros E. pose proof my_ok as (He & Hi & Hs). rewrite E in He, Hi, Hs. unfold nvme_worker_start, put_thread. wp_steps.
  apply (worker_step s _ w sl t sl AtLoop); auto using bit_updated_refl, slot_id.
  - apply bit_updated_SET; [done|apply len_empty].
  - unfold worker_ok; cbn. rewrite bit_set, Hi, Hs by (done || apply len_empty). done.
  - intros y. by rewrite E.
Qed.

Lemma get_work_ok : t = AtLoop →
  wp (nvme_worker_get_work w ≫= λ r, put_thread w (match r with Some found => Returned found | None => Suspending end))
     (λ _ s', stepped w s s') s.
Proof using All.
  intros E. pose proof my_ok as (He & Hi & _). rewrite E in He, Hi. cbn in Hi. unfold nvme_worker_get_work. wp_steps.
  apply shutdown_due_wp. destruct (_ && _) eqn:Edue; cbn beta iota.
  { apply andb_true_iff in Edue as [Hreq H0%Z.eqb_eq]. wp_steps. apply put_thread_ok; [by rewrite E|]. unfold worker_ok.
    by rewrite He, Hi. }
  wp_steps. apply get_slot_wp. destruct (sl_valid sl) eqn:Ev; cbn beta iota.
  - unfold release_slot, put_slot, put_thread. wp_steps.
    { by rewrite GET_BIT_bit, He. }
    wp_steps. eapply worker_step with (t' := Returned (Some (slot_work sl))); [done..| | | | |].
    + apply bit_updated_SET; [done|apply len_empty].
    + apply bit_updated_refl.
    + by left.
    + unfold worker_ok; cbn. rewrite bit_set, Hi by (done || apply len_empty). done.
    + intros y. rewrite E, (in_slot_valid sl), in_slot_empty by done. cbn [in_hand]. rewrite occ_nil.
      unfold occ_rest. cbn [executed sq_fifo ftl_avail_queue set_empty set_slots set_threads set_idle]. lia.
  - wp_steps; [by rewrite GET_BIT_bit, He|]. unfold nvme_pcie_get_sqe. wp_steps.
    assert (∀ s' found, slots s' = slots s → threads s' = <[Z.to_nat w := Returned (Some found)]> (threads s) →
      cmd_slot_empty s' = cmd_slot_empty s → worker_idle s' = worker_idle s →
      nvme_shutdown_req s' = nvme_shutdown_req s →
      (∀ y, occ_rest y s' + occ y [found] = occ_rest y s)%nat → stepped w s s') as Htake.
    { intros s' found E1 E2 E3 E4 E5 O. apply (worker_step s s' w sl t sl (Returned (Some found))); auto.
      - rewrite E1. apply slot_id.
      - rewrite E3. apply bit_updated_refl.
      - rewrite E4. apply bit_updated_refl.
      - unfold worker_ok. rewrite E3, E4, He, Hi, Ev. done.
      - intros y. specialize (O y). rewrite E. cbn [in_hand]. rewrite occ_nil. lia. }
    destruct (sq_fifo s) as [|[q e] fifo] eqn:Ef; cbn [head]; cbn beta iota.
    2:{ unfold nvme_pcie_pop_sqe, put_thread. wp_steps. apply (Htake _ (NvmeWork q e)); [done..|].
        intros y. unfold occ_rest. cbn [executed sq_fifo ftl_avail_queue set_fifo set_threads].
        rewrite Ef, fmap_cons, (occ_cons y (of_sqe _) (_ <$> _)). cbn [tail]. change (of_sqe (q, e)) with (NvmeWork q e). lia. }
    unfold dequeue_storpu_ftl_task. wp_steps. destruct (ftl_avail_queue s) as [|k q] eqn:Eq; cbn beta iota.
    2:{ unfold put_thread. wp_steps. apply (Htake _ (StorpuWork k)); [done..|].
        intros y. unfold occ_rest. cbn [executed sq_fifo ftl_avail_queue set_queue set_threads].
        rewrite Eq, fmap_cons, (occ_cons y (StorpuWork k) (_ <$> _)). lia. }
    unfold put_thread. wp_steps.
    eapply (worker_step s _ w sl t sl Suspending); [done..|apply slot_id|done|apply bit_updated_refl| |by left| |].
    + apply bit_updated_SET; [done|apply len_idle].
    + unfold worker_ok; cbn. rewrite bit_set, He, Ev by (done || apply len_idle). done.
    + intros y. rewrite E. done.
Qed.

Lemma got_work_ok : t = Woken →
  wp (nvme_worker_got_work w ≫= λ found, put_thread w (Returned found)) (λ _ s', stepped w s s') s.
Proof using All.
  intros E. pose proof my_ok as (He & Hi & Hs). rewrite E in He, Hi, Hs. unfold nvme_worker_got_work. wp_steps.
  set (s0 := set_idle _ s). unfold shutdown_due. wp_steps. cbn [s0 nvme_shutdown_req set_idle].
  assert (bit (worker_idle s0) w = false) as Hi0 by (apply bit_unset; [done|apply len_idle]).
  assert (bit_updated (worker_idle s) (worker_idle s0) w) as Ui by (apply bit_updated_UNSET; [done|apply len_idle]).
  destruct (_ && _) eqn:Edue; cbn beta iota; wp_steps.
  - apply andb_true_iff in Edue as [Hreq H0%Z.eqb_eq]. unfold put_thread. wp_steps.
    eapply (worker_step s _ w sl t sl (Returned None)); [done..|apply slot_id|done|apply bit_updated_refl|done|by left| |].
    + change (worker_ok (nvme_shutdown_req s) w (bit (cmd_slot_empty s) w) (bit (worker_idle s0) w) sl (Returned None)).
      unfold worker_ok. by rewrite Hi0, He.
    + intros y. by rewrite E.
  - unfold get_slot. wp_steps. apply wp_deref. exists sl. split; [done|]. cbn beta.
    assert (sl_valid sl = true) as Ev.
    { destruct Hs as [?|[-> Hreq]]; [done|]. by rewrite Hreq in Edue. }
    rewrite Ev. unfold release_slot, put_slot, put_thread. wp_steps.
    eapply worker_step with (t' := Returned (Some (slot_work sl))); [done..| |exact Ui|by left| |].
    + apply bit_updated_SET; [done|apply len_empty].
    + unfold worker_ok. cbn. rewrite bit_set by (done || apply len_empty). split_and!; [done|exact Hi0|done].
    + intros y. rewrite E, (in_slot_valid sl), in_slot_empty by done. cbn [in_hand]. rewrite occ_nil.
      unfold occ_rest. cbn [executed sq_fifo ftl_avail_queue set_empty set_slots set_threads set_idle s0]. lia.
Qed.

Lemma start_work_ok s1 t1 found : wq_inv s1 → threads s1 !! Z.to_nat w = Some t1 → slots s1 !! Z.to_nat w = Some sl →
  in_hand t1 = from_option (λ x, [x]) [] found → t1 ≠ Created → asleep t1 = false →
  wp (start_work w found) (λ _ s', stepped w s1 s') s1.
Proof using Hw.
  intros I1 Ht1 Hsl1 Eh Hc Hd. destruct (inv_workers _ I1 w sl t1 Hw Hsl1 Ht1) as (He & Hi & _). rewrite Hd in Hi.
  destruct found as [x|]; cbn [start_work]; unfold put_thread; wp_steps;
    (eapply worker_step; [done|done|exact Hsl1|exact Ht1| |done|apply bit_updated_refl|apply bit_updated_refl|by left| |]).
  - cbn. by rewrite list_insert_id.
  - unfold worker_ok; cbn. rewrite He, Hi. by destruct t1.
  - intros y. rewrite Eh. unfold occ_rest. cbn [executed sq_fifo ftl_avail_queue set_executed set_threads in_hand from_option].
    rewrite fmap_app, occ_app, occ_nil. cbn [fmap list_fmap]. cbn [snd].  lia.
  - cbn. by rewrite list_insert_id.
  - unfold worker_ok; cbn. rewrite He, Hi. by destruct t1.
  - intros y. by rewrite Eh.
Qed.

Lemma loop_ok found : t = Returned found → wp (nvme_worker_loop w found) (λ _ s', stepped w s s') s.
Proof using All.
  intros E. pose proof my_ok as (He & Hi & Hs). rewrite E in He, Hi, Hs. unfold nvme_worker_loop. wp_steps.
  apply shutdown_due_wp. destruct (_ && _) eqn:Edue; cbn beta iota.
  - apply andb_true_iff in Edue as [Hreq H0%Z.eqb_eq]. apply put_thread_ok; [by rewrite E|]. unfold worker_ok. rewrite He, Hi. done.
  - destruct found as [x|]; [|by destruct Hs as [-> Hreq]; rewrite Hreq in Edue].
    apply (start_work_ok s t); [done..| | |]; by rewrite E.
Qed.

Lemma stopped_ok found : t = Stopping found → wp (nvme_worker_stopped w found) (λ _ s', stepped w s s') s.
Proof using All.
  intros E. pose proof my_ok as (He & Hi & Hs). rewrite E in Hs. unfold nvme_worker_stopped. wp_steps.
  set (s1 := set_shutdowns _ _).
  assert (stepped w s s1) as (I1 & K1 & O1).
  { apply (worker_step s s1 w sl t sl t); auto using bit_updated_refl, slot_id.
    - cbn. by rewrite list_insert_id.
    - unfold worker_ok; cbn. rewrite He, Hi, E. split_and!; done. }
  eapply wp_mono; [apply (start_work_ok s1 t); [done..| | |]; by rewrite E|].
  cbn beta. intros _ s' (I' & K' & O'). split; [done|]. split; [intros y; by rewrite K', K1|].
  intros j Hj. destruct (O' j Hj) as [-> ->]. by apply O1.
Qed.
End worker.

(** * Runs *)
Lemma run_of_wp (m : ST wq unit) (Q : unit → wq → Prop) s : wp m Q s →
  ∃ s', match m s with Some (_, s') => Some s' | None => None end = Some s' ∧ Q tt s'.
Proof. intros (a & s' & E & HQ)%wp_run. exists s'. rewrite E. by destruct a. Qed.

Lemma run_keeps (m : ST wq unit) s : wp m (λ _ s', wq_inv s' ∧ keeps s s') s →
  ∃ s', match m s with Some (_, s') => Some s' | None => None end = Some s' ∧ wq_inv s' ∧
    ∀ y, occ y (works s') = (occ y (works s) + occ y [])%nat.
Proof.
  intros (s' & E & I & K)%run_of_wp. exists s'. split; [done|]. split; [done|].
  intros y. rewrite K, occ_nil. lia.
Qed.

Lemma run_stepped (m : ST wq unit) w s : wp m (λ _ s', stepped w s s') s →
  ∃ s', match m s with Some (_, s') => Some s' | None => None end = Some s' ∧ wq_inv s' ∧
    ∀ y, occ y (works s') = (occ y (works s) + occ y [])%nat.
Proof. intros H. apply run_keeps. eapply wp_mono; [exact H|]. by intros _ s' (? & ? & _). Qed.

Lemma shutdown_ok s : wq_inv s → wp nvme_request_shutdown (λ _ s', stepped SHUTDOWN_THREAD s s') s.
Proof.
  intros I. destruct (worker_lookup s SHUTDOWN_THREAD I) as (sl & t & Hsl & Ht & He & Hi & Hs); [done|].
  unfold nvme_request_shutdown, worker_wake. wp_steps.
  pose proof (alter_insert wake _ _ _ Ht) as Ealt. cbn [threads set_req]. rewrite Ealt.
  apply (worker_step s _ SHUTDOWN_THREAD sl t sl (wake t)); try done; [by apply (slot_id s)|by right| |].
  - unfold worker_ok. cbn [cmd_slot_empty worker_idle set_threads set_req nvme_shutdown_req]. rewrite He, Hi.
    split_and!; [by destruct t..|]. destruct t as [| | | | |[]| | |]; cbn; auto.
  - intros y. by destruct t.
Qed.

Lemma state_of_Some s w t : state_of s w = Some t → is_worker w ∧ threads s !! Z.to_nat w = Some t.
Proof. unfold state_of, is_worker. destruct (_ && _) eqn:E; [|done]. intros. split; [lia|done]. Qed.

Ltac idle_event := eexists; split; [reflexivity|]; split; [assumption|]; intros ?; rewrite occ_nil; lia.
Ltac worker_event L :=
  destruct (state_of _ _) as [[]|] eqn:Est; try idle_event;
  try (destruct (cpu_free _) eqn:Ecpu; [|idle_event]);
  apply state_of_Some in Est as [Hw Ht];
  lazymatch goal with I : wq_inv _ |- _ =>
    destruct (worker_lookup _ _ I Hw) as (sl & ? & Hsl & Ht' & Hok); simplify_eq;
    eapply run_stepped, L; try done
  end.

Lemma exec_ok e s : wq_inv s →
  ∃ s', exec e s = Some s' ∧ wq_inv s' ∧ ∀ y, occ y (works s') = (occ y (works s) + occ y (arrival e))%nat.
Proof.
  intros I. destruct e as [q e|t| | |w|w|w|w|w|w|w]; cbn [exec arrival].
  - eexists. split; [reflexivity|]. split; [by eapply inv_same|]. intros y. rewrite !occ_works.
    cbn [executed slots threads sq_fifo ftl_avail_queue set_fifo]. rewrite fmap_app, occ_app. cbn [arrival].
    change (of_sqe <$> [(q, e)]) with [NvmeWork q e]. lia.
  - eexists. split; [reflexivity|]. split; [by eapply inv_same|]. intros y. rewrite !occ_works.
    cbn [executed slots threads sq_fifo ftl_avail_queue set_queue]. rewrite fmap_cons, (occ_cons y _ (_ <$> _)). cbn [arrival]. lia.
  - by eapply run_stepped, shutdown_ok.
  - destruct (cpu_free s) eqn:Ecpu; [|idle_event].
    apply run_keeps. eapply wp_mono; [by apply main_poll_spec|]. by cbn; intros _ s' (? & _ & ? & _).
  - worker_event start_ok.
  - worker_event get_work_ok.
  - worker_event put_thread_ok.
  - worker_event got_work_ok.
  - worker_event loop_ok.
  - worker_event stopped_ok.
  - worker_event put_thread_ok.
Qed.

Lemma run_events_ok es s : wq_inv s →
  ∃ s', run_events es s = Some s' ∧ wq_inv s' ∧ ∀ y, occ y (works s') = (occ y (works s) + occ y (arrived es))%nat.
Proof.
  revert s. induction es as [|e es IH]; intros s I; simpl.
  - exists s. split; [done|]. split; [done|]. intros y. cbn. lia.
  - destruct (exec_ok e s I) as (s1 & -> & I1 & O1). destruct (IH s1 I1) as (s2 & -> & I2 & O2).
    exists s2. split; [done|]. split; [done|]. intros y. rewrite O2, O1. unfold arrived. cbn [fmap list_fmap concat].
    rewrite (occ_app y (arrival e)). unfold arrived, fmap. lia.
Qed.
Lemma run_events_inv es s s' : wq_inv s → run_events es s = Some s' → wq_inv s'.
Proof. intros I E. destruct (run_events_ok es s I) as (s2 & E2 & I2 & _). congruence. Qed.

(** A worker that executes something keeps what is in its slot. *)
Definition holds (s : wq) (w : Z) (sl : nvme_command_slot) (x : work) : Prop :=
  slots s !! Z.to_nat w = Some sl ∧ state_of s w = Some (Busy x).

Lemma state_of_worker s w : is_worker w → state_of s w = threads s !! Z.to_nat w.
Proof. intros Hw. unfold state_of, is_worker in *. by replace ((0 <=? w) && (w <? NR_WORKER_THREADS)) with true by lia. Qed.

Lemma stepped_holds s s' tid w sl x : stepped tid s s' → is_worker w → is_worker tid → tid ≠ w →
  holds s w sl x → holds s' w sl x.
Proof.
  intros (_ & _ & O) Hw Ht Hne [H1 H2]. unfold is_worker in Hw, Ht. destruct (O (Z.to_nat w)) as [E1 E2]; [lia|].
  split; [by rewrite E1|]. rewrite state_of_worker in * by done. by rewrite E2.
Qed.

Lemma wp_some {A} (m : ST wq A) (Q : A → wq → Prop) s a s' : m s = Some (a, s') → wp m Q s → Q a s'.
Proof. unfold wp. by intros ->. Qed.
Lemma wp_result (m : ST wq unit) (Q : unit → wq → Prop) s s' : wp m Q s →
  match m s with Some (_, s') => Some s' | None => None end = Some s' → Q tt s'.
Proof. intros (s2 & -> & HQ)%run_of_wp. by intros [= <-]. Qed.

(** The threads of a state other than [w] at the event [e]. *)
Ltac keeps_slot L :=
  destruct (state_of _ _) as [[]|] eqn:Est; try congruence;
  try (destruct (cpu_free _) eqn:Ecpu; [|congruence]);
  pose proof Est as [? Ht]%state_of_Some;
  lazymatch goal with I : wq_inv ?s, H : holds _ ?w _ _, Htid : is_worker ?u |- _ =>
    destruct (worker_lookup _ _ I Htid) as (sl1 & ? & Hsl1 & Ht1 & Hok1); simplify_eq;
    match goal with |- match ?r with _ => _ end = _ → _ => destruct r as [[[] s1]|] eqn:Em; [|done];
    intros [= <-]; apply (stepped_holds s _ u);
      [refine (wp_some _ (λ _, stepped u s) s _ _ Em _); eapply L; done|done|exact Htid| |done];
    intros ->; destruct H as [_ H]; congruence end
  end.

Lemma exec_holds e s s' w sl x : wq_inv s → is_worker w → sl_valid sl = true → e ≠ EDone w →
  holds s w sl x → exec e s = Some s' → holds s' w sl x.
Proof.
  intros I Hw Hv He H. pose proof H as [Hsl Hst]. rewrite state_of_worker in Hst by done.
  destruct e as [q e|t| | |u|u|u|u|u|u|u]; cbn [exec].
  - by intros [= <-].
  - by intros [= <-].
  - intros E. destruct (decide (w = SHUTDOWN_THREAD)) as [->|Hne].
    + unfold nvme_request_shutdown, worker_wake in E. cbn in E. injection E as <-. split; [done|].
      rewrite state_of_worker by done. cbn [threads set_threads]. by rewrite (alter_insert wake _ _ _ Hst),
        list_lookup_insert_eq by (by eapply lookup_lt_Some).
    + eapply (stepped_holds s _ SHUTDOWN_THREAD); [exact (wp_result _ _ _ _ (shutdown_ok s I) E)|done|done|congruence|done].
  - destruct (cpu_free s) eqn:Ecpu; [|by intros [= <-]]. intros E.
    destruct (wp_result _ _ _ _ (main_poll_spec s I Ecpu) E) as (_ & _ & _ & Z & _).
    destruct (inv_workers _ I w sl _ Hw Hsl Hst) as (Hb & _). rewrite Hv in Hb.
    destruct (Z w Hw Hb) as (_ & E1 & E2). split; [by rewrite E1|]. by rewrite state_of_worker, E2.
  - keeps_slot start_ok.
  - keeps_slot get_work_ok.
  - keeps_slot put_thread_ok.
  - keeps_slot got_work_ok.
  - keeps_slot loop_ok.
  - keeps_slot stopped_ok.
  - assert (u ≠ w) by congruence. keeps_slot put_thread_ok.
Qed.
