(* ===== verification/NvmeQueueTheorems.v ===== *)
(** What the distribution of work to the workers promises (NvmeQueue.v): every
    piece of work is executed once, no worker sleeps while there is work, work in
    a slot is executed in the next turn of its worker; and two defects, a
    shutdown request that nobody sees and work that waits behind its own
    worker. *)
From S2P Require Import Prelude Bitmap Nvme NvmeQueue.
#[local] Open Scope Z_scope.

(** * Turns of a worker *)
Definition others_free (s : wq) (w : Z) : Prop :=
  ∀ i t, i ≠ Z.to_nat w → threads s !! i = Some t → on_cpu t = false.
Lemma cpu_free_others s w t : threads s !! Z.to_nat w = Some t → others_free s w → on_cpu t = false → cpu_free s = true.
Proof.
  intros Ht O Hc. unfold cpu_free. apply forallb_forall. intros x Hx%list_elem_of_In.
  apply list_elem_of_lookup_1 in Hx as [i Hi]. apply negb_true_iff.
  destruct (decide (i = Z.to_nat w)) as [->|Hne]; [by simplify_eq|by eapply O].
Qed.

(** Worker [w] as an observer of its own slot sees it. *)
Record view (s : wq) (w : Z) (t : thread_state) (sl : nvme_command_slot) (req : bool) : Prop := {
  v_inv : wq_inv s;
  v_worker : is_worker w;
  v_slot : slots s !! Z.to_nat w = Some sl;
  v_thread : threads s !! Z.to_nat w = Some t;
  v_req : nvme_shutdown_req s = req;
  v_others : others_free s w;
}.
Definition due (req : bool) (w : Z) : bool := req && (w =? SHUTDOWN_THREAD).
Definition released (sl : nvme_command_slot) : nvme_command_slot :=
  Slot (sl_qid sl) (sl_sqe sl) (sl_storpu_task sl) false.

(** From [s] the event [e] leads to a state that looks like this to [w]. *)
Definition leads (e : event) (s : wq) (w : Z) (t : thread_state) (sl : nvme_command_slot) (req : bool)
    (l : list (Z * work)) : Prop :=
  ∃ s', exec e s = Some s' ∧ view s' w t sl req ∧ executed s' = executed s ++ l.

Section turn.
Context (s : wq) (w : Z) (t : thread_state) (sl : nvme_command_slot) (req : bool).
Context (V : view s w t sl req).

Lemma view_state : state_of s w = Some t.
Proof using V. rewrite state_of_worker by apply V. apply V. Qed.
Lemma view_free : on_cpu t = false → cpu_free s = true.
Proof using V. intros Hc. eapply cpu_free_others; [apply V|apply V|done]. Qed.
Lemma view_ok : worker_ok req w (bit (cmd_slot_empty s) w) (bit (worker_idle s) w) sl t.
Proof using V. destruct V as [I Hw Hs Ht <- O]. by apply I. Qed.

(** An event that changes [w] alone, with the state it leads to. *)
Lemma leads_intro e s' t' sl' req' l :
  exec e s = Some s' → threads s' = <[Z.to_nat w := t']> (threads s) →
  slots s' !! Z.to_nat w = Some sl' → nvme_shutdown_req s' = req' → executed s' = executed s ++ l →
  leads e s w t' sl' req' l.
Proof using V.
  intros E Et Es Er El. exists s'. split; [done|]. split; [|done]. destruct (exec_ok e s (v_inv _ _ _ _ _ V)) as (s2 & E2 & I2 & _).
  rewrite E in E2. injection E2 as <-. split; [done|apply V|done| |done|].
  - rewrite Et. apply list_lookup_insert_eq. eapply lookup_lt_Some, V.
  - intros i u Hi. rewrite Et, list_lookup_insert_ne by done. by apply V.
Qed.
Lemma leads_nothing e : exec e s = Some s → leads e s w t sl req [].
Proof using V. intros E. exists s. by rewrite app_nil_r. Qed.
End turn.

Lemma turn_stopped s w found sl req : view s w (Stopping found) sl req →
  leads (EStopped w) s w (match found with Some x => Busy x | None => AtLoop end) sl false
    (match found with Some x => [(w, x)] | None => [] end).
Proof.
  intros V. pose proof (view_free _ _ _ _ _ V eq_refl) as C.
  eapply (leads_intro _ _ _ _ _ V) with
    (s' := let s1 := set_shutdowns (S (shutdowns s)) (set_req false s) in
           match found with
           | Some x => set_threads (<[Z.to_nat w := Busy x]> (threads s)) (set_executed (executed s ++ [(w, x)]) s1)
           | None => set_threads (<[Z.to_nat w := AtLoop]> (threads s)) s1
           end).
  - cbn [exec]. rewrite (view_state _ _ _ _ _ V), C. unfold nvme_worker_stopped, start_work, put_thread. by destruct found.
  - by destruct found.
  - destruct found; apply V.
  - by destruct found.
  - destruct found; cbn; by rewrite ?app_nil_r.
Qed.
Lemma turn_done s w x sl req : view s w (Busy x) sl req → leads (EDone w) s w AtLoop sl req [].
Proof.
  intros V. pose proof (view_free _ _ _ _ _ V eq_refl) as C.
  eapply (leads_intro _ _ _ _ _ V); [cbn [exec]; by rewrite (view_state _ _ _ _ _ V), C|done|apply V|apply V|by rewrite app_nil_r].
Qed.
Lemma turn_get_work s w sl req : view s w AtLoop sl req → sl_valid sl = true →
  leads (EGetWork w) s w (Returned (if due req w then None else Some (slot_work sl)))
    (if due req w then sl else released sl) req [].
Proof.
  intros V Hv. pose proof (view_free _ _ _ _ _ V eq_refl) as C. pose proof (view_ok _ _ _ _ _ V) as (Hb & _). rewrite Hv in Hb.
  pose proof (is_worker_nat w (v_worker _ _ _ _ _ V)) as Hn. pose proof V as [I Hw Hs Ht Hr O].
  destruct (due req w) eqn:Ed; unfold due in Ed.
  - eapply (leads_intro _ _ _ _ _ V) with (s' := set_threads (<[Z.to_nat w := Returned None]> (threads s)) s);
      [|done|done|done|by rewrite app_nil_r].
    cbn [exec]. rewrite (view_state _ _ _ _ _ V), C. unfold nvme_worker_get_work, shutdown_due, mbind, ST_bind, gets.
    by rewrite Hr, Ed.
  - eapply (leads_intro _ _ _ _ _ V) with (s' := set_threads (<[Z.to_nat w := Returned (Some (slot_work sl))]> (threads s))
      (set_slots (<[Z.to_nat w := released sl]> (slots s)) (set_empty (SET_BIT (cmd_slot_empty s) w) s)));
      [|done| |done|by rewrite app_nil_r].
    + cbn [exec]. rewrite (view_state _ _ _ _ _ V), C. unfold nvme_worker_get_work, shutdown_due, get_slot, mbind, ST_bind, gets.
      rewrite Hr, Ed, Hs. cbn [deref mret ST_ret]. rewrite Hv, GET_BIT_bit, Hb. done.
    + cbn. apply list_lookup_insert_eq. rewrite inv_slots; [lia|done].
Qed.
Lemma turn_resume s w sl req : view s w Woken sl req → sl_valid sl = true →
  leads (EResume w) s w (Returned (if due req w then None else Some (slot_work sl)))
    (if due req w then sl else released sl) req [].
Proof.
  intros V Hv. pose proof (view_free _ _ _ _ _ V eq_refl) as C.
  pose proof (is_worker_nat w (v_worker _ _ _ _ _ V)) as Hn. pose proof V as [I Hw Hs Ht Hr O].
  destruct (due req w) eqn:Ed; unfold due in Ed.
  - eapply (leads_intro _ _ _ _ _ V) with (s' := set_threads (<[Z.to_nat w := Returned None]> (threads s))
      (set_idle (UNSET_BIT (worker_idle s) w) s)); [|done|done|done|by rewrite app_nil_r].
    cbn [exec]. rewrite (view_state _ _ _ _ _ V), C. unfold nvme_worker_got_work, shutdown_due, mbind, ST_bind, gets, modify.
    cbn [nvme_shutdown_req set_idle]. by rewrite Hr, Ed.
  - eapply (leads_intro _ _ _ _ _ V) with (s' := set_threads (<[Z.to_nat w := Returned (Some (slot_work sl))]> (threads s))
      (set_slots (<[Z.to_nat w := released sl]> (slots s))
        (set_empty (SET_BIT (cmd_slot_empty s) w) (set_idle (UNSET_BIT (worker_idle s) w) s))));
      [|done| |done|by rewrite app_nil_r].
    + cbn [exec]. rewrite (view_state _ _ _ _ _ V), C.
      unfold nvme_worker_got_work, shutdown_due, get_slot, mbind, ST_bind, gets, modify.
      cbn [nvme_shutdown_req set_idle slots]. rewrite Hr, Ed. cbn [slots set_idle]. rewrite Hs. cbn [deref mret ST_ret]. by rewrite Hv.
    + cbn. apply list_lookup_insert_eq. rewrite inv_slots; [lia|done].
Qed.
Lemma turn_loop s w found sl req : view s w (Returned found) sl req → found ≠ None ∨ due req w = true →
  leads (ELoop w) s w (if due req w then Stopping found else from_option Busy AtLoop found) sl req
    (if due req w then [] else from_option (λ x, [(w, x)]) [] found).
Proof.
  intros V Hf. pose proof V as [I Hw Hs Ht Hr O]. unfold due in *.
  destruct (req && (w =? SHUTDOWN_THREAD)) eqn:Ed; [|destruct found as [x|]; [|by destruct Hf]].
  - eapply (leads_intro _ _ _ _ _ V) with (s' := set_threads (<[Z.to_nat w := Stopping found]> (threads s)) s);
      [|done|done|done|by rewrite app_nil_r].
    cbn [exec]. rewrite (view_state _ _ _ _ _ V). unfold nvme_worker_loop, shutdown_due, mbind, ST_bind, gets.
    by rewrite Hr, Ed.
  - eapply (leads_intro _ _ _ _ _ V) with
      (s' := set_threads (<[Z.to_nat w := Busy x]> (threads s)) (set_executed (executed s ++ [(w, x)]) s)); [|done..].
    cbn [exec]. rewrite (view_state _ _ _ _ _ V). unfold nvme_worker_loop, shutdown_due, mbind, ST_bind, gets.
    by rewrite Hr, Ed.
Qed.

Lemma run_leads e es s w t sl req l (P : wq → Prop) :
  leads e s w t sl req l →
  (∀ s1, view s1 w t sl req → executed s1 = executed s ++ l → ∃ s', run_events es s1 = Some s' ∧ P s') →
  ∃ s', run_events (e :: es) s = Some s' ∧ P s'.
Proof. intros (s1 & E & V & X) H. cbn [run_events]. rewrite E. by apply H. Qed.

(** An event for another state of the thread. *)
Ltac skip_event :=
  eapply run_leads;
  [ match goal with V : view _ _ _ _ _ |- _ => apply (leads_nothing _ _ _ _ _ V); cbn [exec]; by rewrite (view_state _ _ _ _ _ V) end
  | let s1 := fresh "s" in let V1 := fresh "V" in let X1 := fresh "X" in
    match goal with V : view _ _ _ _ _ |- _ => clear V end;
    intros s1 V1 X1; rewrite app_nil_r in X1; cbn beta iota zeta in V1 ].
Ltac take_event L :=
  eapply run_leads;
  [ match goal with V : view _ _ _ _ _ |- _ => eapply L; first [exact V | assumption | auto] end
  | let s1 := fresh "s" in let V1 := fresh "V" in let X1 := fresh "X" in
    match goal with V : view _ _ _ _ _ |- _ => clear V end;
    intros s1 V1 X1; rewrite ?app_nil_r in X1; cbn beta iota zeta in V1 ].

(** What a worker does when its thread runs until it waits again. *)
Definition turn (w : Z) : list event :=
  [EStopped w; EDone w; EGetWork w; EResume w; ELoop w; EStopped w; EGetWork w; ELoop w].

Lemma turn_second s w sl : view s w AtLoop sl false → sl_valid sl = true →
  ∃ s', run_events [EGetWork w; ELoop w] s = Some s' ∧ executed s' = executed s ++ [(w, slot_work sl)].
Proof.
  intros V Hv. take_event turn_get_work. take_event turn_loop. cbn [run_events].
  eexists. split; [done|]. by rewrite X0, X.
Qed.
Lemma turn_rest s w t sl req : view s w t sl req → sl_valid sl = true → t = AtLoop ∨ t = Woken →
  ∃ s', run_events [EGetWork w; EResume w; ELoop w; EStopped w; EGetWork w; ELoop w] s = Some s' ∧
    executed s' = executed s ++ [(w, slot_work sl)].
Proof.
  intros V Hv Ht.
  assert (∀ s1, executed s1 = executed s →
    view s1 w (Returned (if due req w then None else Some (slot_work sl))) (if due req w then sl else released sl) req →
    ∃ s', run_events [ELoop w; EStopped w; EGetWork w; ELoop w] s1 = Some s' ∧
      executed s' = executed s ++ [(w, slot_work sl)]) as Hloop.
  { clear V. intros s1 E1 V. rewrite <-E1. destruct (due req w) eqn:Ed.
    - take_event turn_loop. rewrite Ed in *. cbn beta iota in *. take_event turn_stopped.
      destruct (turn_second _ _ _ V Hv) as (s' & E & X'). exists s'. split; [done|].
by rewrite X', X0, X, app_nil_r.
    - take_event turn_loop. rewrite Ed in *. cbn [from_option] in *. skip_event. skip_event. skip_event.
      cbn [run_events]. eexists. split; [done|]. by rewrite X2, X1, X0, X. }
  destruct Ht as [-> | ->].
  - take_event turn_get_work. skip_event. apply Hloop; [by rewrite X0|done].
  - skip_event. take_event turn_resume. apply Hloop; [by rewrite X0|done].
Qed.
Lemma turn_ok s w sl t req : view s w t sl req → on_cpu t = false → sl_valid sl = true →
  ∃ s' l, run_events (turn w) s = Some s' ∧ executed s' = executed s ++ l ++ [(w, slot_work sl)].
Proof.
  intros V Hc Hv.
  enough (∃ s', run_events (turn w) s = Some s' ∧ ∃ l, executed s' = executed s ++ l ++ [(w, slot_work sl)])
    as (s' & E & l & X) by eauto.
  pose proof (view_ok _ _ _ _ _ V) as (_ & _ & Hs).
  assert (∀ s1 l t1 req1, view s1 w t1 sl req1 → t1 = AtLoop ∨ t1 = Woken → executed s1 = executed s ++ l →
    ∃ s', run_events [EGetWork w; EResume w; ELoop w; EStopped w; EGetWork w; ELoop w] s1 = Some s' ∧
      ∃ l, executed s' = executed s ++ l ++ [(w, slot_work sl)]) as Hrest.
  { clear V. intros s1 l t1 req1 V Ht X. destruct (turn_rest _ _ _ _ _ V Hv Ht) as (s' & E & X').
    exists s'. split; [done|]. exists l. by rewrite X', X, (assoc_L (++)). }
  unfold turn. destruct t as [| | | | | |found|x|]; cbn in Hc; try done; try congruence.
  - skip_event. skip_event. eapply (Hrest _ []); [exact V|by left|]. by rewrite X0, X, app_nil_r.
  - skip_event. skip_event. eapply (Hrest _ []); [exact V|by right|]. by rewrite X0, X, app_nil_r.
  - take_event turn_stopped. destruct found as [x|].
    + take_event turn_done. eapply Hrest; [exact V|by left|]. by rewrite X0, X.
    + skip_event. eapply Hrest; [exact V|by left|]. by rewrite X0, X.
  - skip_event. take_event turn_done. eapply (Hrest _ []); [exact V|by left|]. by rewrite X0, X, app_nil_r.
Qed.

(** * Exactly once *)
(** C6: every sequence of events, from start-up, runs without a failed assertion;
    the commands and tasks that arrived are exactly, with their multiplicities,
    those executed and those still pending in a queue, in a slot or in the hands
    of a worker, and no worker leaves its loop. *)
Theorem work_exactly_once (es : list event) :
  ∃ s, run_events es wq_init = Some s ∧
    (executed s).*2 ++ pending s ≡ₚ arrived es ∧
    ∀ w, state_of s w ≠ Some Exited.
Proof.
  destruct (run_events_ok es wq_init wq_init_inv) as (s & E & I & O). exists s. split; [done|]. split.
  - apply occ_perm. intros y. exact (O y).
  - intros w [Hw Ht]%state_of_Some. destruct (worker_lookup s w I Hw) as (sl & t & _ & Ht' & _ & _ & Hs).
    by simplify_eq.
Qed.

(** * No lost wake-up *)
(** C7: in every reachable state a blocked worker has an empty slot and is marked
    idle and empty, so it is found by the next dispatch; a worker that is
    signalled has work or a shutdown to do; and once the main loop has polled,
    either both queues are empty or no worker is blocked. *)
Theorem no_lost_wakeup (es : list event) (s : wq) :
  run_events es wq_init = Some s →
  (∀ w, state_of s w = Some Waiting →
     GET_BIT (worker_idle s) w = true ∧ GET_BIT (cmd_slot_empty s) w = true ∧
     sl_valid <$> slots s !! Z.to_nat w = Some false) ∧
  (∀ w, state_of s w = Some Woken →
     sl_valid <$> slots s !! Z.to_nat w = Some true ∨ (w = SHUTDOWN_THREAD ∧ nvme_shutdown_req s = true)) ∧
  (cpu_free s = true → ∃ s', exec EMain s = Some s' ∧
     ((sq_fifo s' = [] ∧ ftl_avail_queue s' = []) ∨ ∀ w, state_of s' w ≠ Some Waiting)).
Proof.
  intros E. pose proof (run_events_inv _ _ _ wq_init_inv E) as I. split_and!.
  - intros w [Hw Ht]%state_of_Some. destruct (worker_lookup s w I Hw) as (sl & t & Hsl & Ht' & He & Hi & Hs).
    simplify_eq. rewrite !GET_BIT_bit, He, Hi, Hsl. cbn. by rewrite Hs.
  - intros w [Hw Ht]%state_of_Some. destruct (worker_lookup s w I Hw) as (sl & t & Hsl & Ht' & He & Hi & Hs).
    simplify_eq. rewrite Hsl. cbn. destruct Hs as [-> | ?]; [by left|by right].
  - intros C. cbn [exec]. rewrite C. destruct (run_of_wp _ _ _ (main_poll_spec s I C)) as (s' & E' & I' & _ & _ & _ & H).
    exists s'. split; [exact E'|]. destruct H as [H|F]; [by left|]. right. intros w [Hw Ht]%state_of_Some.
    destruct (worker_lookup s' w I' Hw) as (sl & t & Hsl & Ht' & He & _ & Hs). simplify_eq.
    pose proof (F w Hw) as B. rewrite He in B. cbn in B, Hs. by rewrite Hs in B.
Qed.

(** * Progress *)
(** C8: when the thread of a worker whose slot is full runs until it waits again,
    the worker executes the work in the slot, whether it was idle, in its loop,
    shutting down or executing something else. *)
Theorem slot_executed_in_turn (es : list event) (s : wq) (w : Z) (sl : nvme_command_slot) :
  run_events es wq_init = Some s → cpu_free s = true → is_worker w →
  slots s !! Z.to_nat w = Some sl → sl_valid sl = true →
  ∃ s' l, run_events (turn w) s = Some s' ∧ executed s' = executed s ++ l ++ [(w, slot_work sl)].
Proof.
  intros E C Hw Hsl Hv. pose proof (run_events_inv _ _ _ wq_init_inv E) as I.
  destruct (worker_lookup s w I Hw) as (sl1 & t & Hsl1 & Ht & _). simplify_eq.
  eapply turn_ok; [|by eapply cpu_free_lookup|done]. split; try done.
  intros i u _ Hu. by eapply cpu_free_lookup.
Qed.

(** * Work waits for its worker *)
Lemma run_holds es s s' w sl x : wq_inv s → is_worker w → sl_valid sl = true → holds s w sl x →
  EDone w ∉ es → run_events es s = Some s' → holds s' w sl x.
Proof.
  intros I Hw Hv. revert s I. induction es as [|e es IH]; intros s I H Hn; simpl.
  - by intros [= <-].
  - destruct (exec_ok e s I) as (s1 & Es & I1 & _). rewrite Es. apply not_elem_of_cons in Hn as [He Hn].
    apply IH; [done| |done]. eapply exec_holds; [exact I|done|done| |done|done]. congruence.
Qed.

(** As long as a worker executes something, the work in its slot stays there,
    however many workers are idle. *)
Theorem slot_waits_for_its_worker (es es' : list event) (s s' : wq) (w : Z) (sl : nvme_command_slot) (x : work) :
  run_events es wq_init = Some s → is_worker w → sl_valid sl = true → holds s w sl x →
  EDone w ∉ es' → run_events es' s = Some s' → holds s' w sl x.
Proof. intros E. apply run_holds. by eapply run_events_inv; [apply wq_init_inv|]. Qed.

(** * A shutdown request that nobody sees *)
Definition internal (e : event) : bool :=
  match e with ESqe _ _ | ETask _ | EShutdown => false | _ => true end.
Definition dormant (t : thread_state) : bool :=
  match t with Created | AtLoop | Suspending | Waiting => true | _ => false end.
Record unseen (s : wq) : Prop := {
  un_inv : wq_inv s;
  un_fifo : sq_fifo s = [];
  un_queue : ftl_avail_queue s = [];
  un_req : nvme_shutdown_req s = true;
  un_none : shutdowns s = 0%nat;
  un_asleep : threads s !! 0%nat = Some Waiting;
  un_slots : Forall (λ sl, sl_valid sl = false) (slots s);
  un_threads : Forall (λ t, dormant t = true) (threads s);
}.

Lemma unseen_thread s u t' : unseen s → is_worker u → u ≠ SHUTDOWN_THREAD → dormant t' = true →
  ∀ m e, wq_inv (set_threads (<[Z.to_nat u := t']> (threads s)) (set_idle m (set_empty e s))) →
  unseen (set_threads (<[Z.to_nat u := t']> (threads s)) (set_idle m (set_empty e s))).
Proof.
  intros [I H1 H2 H3 H4 H5 H6 H7] Hu Hne Ht m e I'. split; try done.
  - cbn. unfold is_worker, SHUTDOWN_THREAD in *. rewrite list_lookup_insert_ne by lia. done.
  - cbn. by apply Forall_insert.
Qed.

Lemma unseen_state s u t : unseen s → state_of s u = Some t →
  dormant t = true ∧ (t ≠ Waiting → u ≠ SHUTDOWN_THREAD) ∧ is_worker u ∧
  ∃ sl, slots s !! Z.to_nat u = Some sl ∧ sl_valid sl = false ∧ (t = AtLoop → GET_BIT (cmd_slot_empty s) u = true).
Proof.
  intros U [Hu Ht]%state_of_Some. pose proof (un_threads _ U) as F. rewrite Forall_lookup in F.
  destruct (worker_lookup s u (un_inv _ U) Hu) as (sl & t1 & Hsl & Ht1 & He & _). simplify_eq.
  pose proof (un_slots _ U) as G. rewrite Forall_lookup in G. specialize (G _ _ Hsl).
  split_and!; [by eapply F| |done|].
  - intros Hw ->. pose proof (un_asleep _ U) as A. change (Z.to_nat SHUTDOWN_THREAD) with 0%nat in Ht. congruence.
  - exists sl. split_and!; [done|done|]. intros ->. by rewrite GET_BIT_bit, He, G.
Qed.

Lemma main_poll_nothing s : sq_fifo s = [] → ftl_avail_queue s = [] → main_poll s = Some (tt, s).
Proof. destruct s. by cbn; intros -> ->. Qed.
Lemma no_work s : sq_fifo s = [] → ftl_avail_queue s = [] →
  nvme_pcie_get_sqe s = Some (None, s) ∧ dequeue_storpu_ftl_task s = Some (None, s).
Proof. destruct s. by cbn; intros -> ->. Qed.

Lemma unseen_exec e s : unseen s → internal e = true → ∃ s', exec e s = Some s' ∧ unseen s'.
Proof.
  intros U Hi. destruct (exec_ok e s (un_inv _ U)) as (s' & E & I' & _). exists s'. split; [done|].
  destruct e as [| | | |u|u|u|u|u|u|u]; try done; cbn [exec] in E.
  1:{ destruct (cpu_free s); [|congruence]. rewrite (main_poll_nothing s (un_fifo _ U) (un_queue _ U)) in E. congruence. }
  all: destruct (state_of s u) as [[]|] eqn:Est; try congruence;
    pose proof (unseen_state s u _ U Est) as (Hd & Hne & Hu & sl & Hsl & Hv & Hb); try discriminate Hd;
    try (destruct (cpu_free s); [|congruence]).
  - cbn in E. injection E as <-.
    apply (unseen_thread s u AtLoop U Hu (Hne ltac:(done)) eq_refl (worker_idle s)). exact I'.
  - unfold nvme_worker_get_work, shutdown_due, get_slot, mbind, ST_bind, gets in E.
    rewrite (proj2 (Z.eqb_neq _ _) (Hne ltac:(done))), andb_false_r, Hsl in E. cbn [deref mret ST_ret] in E.
    destruct (no_work s (un_fifo _ U) (un_queue _ U)) as [N1 N2].
    rewrite Hv, (Hb eq_refl) in E. cbn [assert mret ST_ret] in E. rewrite N1, N2 in E.
    injection E as <-.
    apply (unseen_thread s u Suspending U Hu (Hne ltac:(done)) eq_refl _ (cmd_slot_empty s)). exact I'.
  - cbn in E. injection E as <-.
    apply (unseen_thread s u Waiting U Hu (Hne ltac:(done)) eq_refl (worker_idle s) (cmd_slot_empty s)). exact I'.
Qed.

Lemma unseen_run es s : unseen s → forallb internal es = true → ∃ s', run_events es s = Some s' ∧ unseen s'.
Proof.
  revert s. induction es as [|e es IH]; intros s U; simpl; [by eauto|].
  intros [Hi Hr]%andb_true_iff. destruct (unseen_exec e s U Hi) as (s1 & -> & U1). by apply IH.
Qed.

(** The interrupt of the host arrives after worker 0 found nothing to do and
    before it blocks. *)
Definition missed_shutdown : list event := [EStart 0; EGetWork 0; EShutdown; EBlock 0].

Lemma missed_shutdown_unseen : ∃ s, run_events missed_shutdown wq_init = Some s ∧ unseen s.
Proof.
  destruct (run_events_ok missed_shutdown wq_init wq_init_inv) as (s & E & I & _). exists s. split; [done|].
  vm_compute in E. injection E as <-. split; [exact I|done..| |]; cbn; repeat constructor.
Qed.

(** C27: defect. a shutdown request that arrives between the test of
    nvme_shutdown_req and the point where worker 0 blocks is not carried out by
    any further step of the threads: the worker stays blocked, with the request
    pending, until another command or request arrives. *)
Theorem shutdown_request_missed :
  ∃ s, run_events missed_shutdown wq_init = Some s ∧
    ∀ es', forallb internal es' = true → ∃ s', run_events es' s = Some s' ∧
      nvme_shutdown_req s' = true ∧ shutdowns s' = 0%nat ∧ state_of s' SHUTDOWN_THREAD = Some Waiting.
Proof.
  destruct missed_shutdown_unseen as (s & E & U). exists s. split; [done|]. intros es' Hi.
  destruct (unseen_run es' s U Hi) as (s' & E' & U'). exists s'. split_and!; [done|apply U'|apply U'|apply U'].
Qed.

(** * A task behind its own invocation *)
Definition invoke_sqe : nvme_command := Cmd nvme_cmd_storpu_invoke 1 1 0 0 0 0 0 0 0 0.
Definition read_sqe : nvme_command := Cmd nvme_cmd_read 2 1 0 0 0 0 0 0 0 0.
Definition spu_read : storpu_ftl_task := SpuFtlTask FTL_TYPE_FLASH_READ 1 0 0 4096.
Definition all_workers : list Z := seqZ 0 16.
(** Sixteen commands, the first of which starts a program on the StorPU; while all
    workers execute, the program asks for a read of flash. *)
Definition busy_workers : list event :=
  (EStart <$> all_workers) ++ ESqe 1 invoke_sqe :: replicate 15 (ESqe 1 read_sqe) ++ [EMain] ++
  mjoin ((λ w, [EGetWork w; ELoop w]) <$> all_workers) ++ [ETask spu_read; EMain].

(** C28: defect. the task of a StorPU program is put in the slot of the worker that
    waits for the program to end, if that is the first empty slot, and no other
    worker takes it from there, even when all of them become idle: until the
    invocation times out neither makes progress. *)
Theorem storpu_task_behind_its_invoker :
  ∃ s sl, run_events busy_workers wq_init = Some s ∧
    sl_valid sl = true ∧ sl_storpu_task sl = Some spu_read ∧ holds s 0 sl (NvmeWork 1 invoke_sqe) ∧
    ∀ es', EDone 0 ∉ es' → ∃ s', run_events es' s = Some s' ∧ holds s' 0 sl (NvmeWork 1 invoke_sqe).
Proof.
  destruct (run_events_ok busy_workers wq_init wq_init_inv) as (s & E & I & _).
  exists s, (Slot 1 invoke_sqe (Some spu_read) true). split; [done|]. split; [done|]. split; [done|].
  assert (holds s 0 (Slot 1 invoke_sqe (Some spu_read) true) (NvmeWork 1 invoke_sqe)) as H.
  { vm_compute in E. injection E as <-. done. }
  split; [done|]. intros es' Hn. destruct (run_events_ok es' s I) as (s' & E' & _). exists s'. split; [done|].
  apply (run_holds es' s s' 0 _ _ I); [unfold is_worker, NR_WORKER_THREADS; lia|reflexivity|exact H|exact Hn|exact E'].
Qed.

(** * Witnesses *)
Definition example_run : list event :=
  [EStart 0; EStart 1; EGetWork 0; EBlock 0; EGetWork 1; EBlock 1; ESqe 1 read_sqe; ETask spu_read; EMain].
Definition example_state : wq := default wq_init (run_events example_run wq_init).

Lemma no_lost_wakeup_witness :
  run_events example_run wq_init = Some example_state ∧ state_of example_state 1 = Some Woken ∧
  (sl_valid <$> slots example_state !! 1%nat = Some true ∨ (1 = SHUTDOWN_THREAD ∧ nvme_shutdown_req example_state = true)).
Proof.
  assert (run_events example_run wq_init = Some example_state) as E by (vm_compute; reflexivity).
  assert (state_of example_state 1 = Some Woken) as S1 by (vm_compute; reflexivity).
  split; [exact E|]. split; [exact S1|]. exact (proj1 (proj2 (no_lost_wakeup example_run example_state E)) 1 S1).
Defined.

Lemma slot_executed_in_turn_witness :
  ∃ s' l, run_events (turn 1) example_state = Some s' ∧ executed s' = executed example_state ++ l ++ [(1, StorpuWork spu_read)].
Proof.
  apply (slot_executed_in_turn example_run example_state 1 (Slot 0 no_command (Some spu_read) true)).
  - vm_compute. reflexivity.
  - vm_compute. reflexivity.
  - unfold is_worker, NR_WORKER_THREADS. lia.
  - vm_compute. reflexivity.
  - reflexivity.
Defined.

Definition busy_state : wq := default wq_init (run_events busy_workers wq_init).
Definition others_done : list event := [EDone 1; EGetWork 1; EBlock 1; EMain].
Lemma slot_waits_for_its_worker_witness :
  holds (default wq_init (run_events others_done busy_state)) 0 (Slot 1 invoke_sqe (Some spu_read) true) (NvmeWork 1 invoke_sqe).
Proof.
  apply (slot_waits_for_its_worker busy_workers others_done busy_state _ 0).
  - vm_compute. reflexivity.
  - unfold is_worker, NR_WORKER_THREADS. lia.
  - reflexivity.
  - split; vm_compute; reflexivity.
  - unfold others_done. rewrite !not_elem_of_cons. split_and!; [discriminate..|apply not_elem_of_nil].
  - vm_compute. reflexivity.
Defined.
