(* ===== verification/Alloc.v ===== *)
(** The physical memory allocator: src/alloc.c.

    A zone keeps its free memory as a list of holes, whose table slots are
    limited, and each CPU keeps lists of freed runs of 1 to 12 pages per zone.
    Linked lists are lists; a table slot has no identity, only the number of
    unused ones counts.  The spin lock of a zone makes each operation atomic. *)
From S2P Require Import Prelude.
#[local] Open Scope Z_scope.

Definition MINPAGES : Z := 1.
Definition MAXPAGES : Z := 12.
Definition MAX_FREEPAGES : Z := 128.
Definition NR_HOLES : nat := 512.
Definition MEMZONE_MAX : Z := 3.
Definition NR_CPUS : Z := 4.
Definition ARCH_PG_SHIFT : Z := 12.
Definition ARCH_PG_SIZE : Z := 4096.
Definition freelist_index (nr_pages : Z) : Z := nr_pages - MINPAGES.

Record hole := Hole { h_base : Z; h_len : Z }.
Record freelist := FreeList { fl_list : list Z; fl_count : Z }.
Record zonedat := Zone {
  z_index : Z; z_base : Z; z_limit : Z;
  hole_head : list hole; free_slots : nat;
}.
Record memory := Memory {
  zones : list zonedat;
  freelists : gmap (Z * Z * Z) freelist;   (* by CPU, zone and size *)
}.

(** * Holes *)

(** The bytes skipped to reach a multiple of [alignment]. *)
Definition padding (alignment base : Z) : Z :=
  if base mod alignment =? 0 then 0 else alignment - base mod alignment.

(** The loop of [alloc_mem_zone]; [prev] holds the holes before [hp], the last
    one first.  The flag tells that the slot of the hole was deleted. *)
Fixpoint alloc_holes (memsize alignment : Z) (prev holes : list hole) : option (Z * list hole * bool) :=
  match holes with
  | [] => None
  | hp :: rest =>
      let offset := padding alignment (h_base hp) in
      if u64 (memsize + offset) <=? h_len hp then
        let old_base := u64 (h_base hp + offset) in
        let hp' := Hole (u64 (h_base hp + u64 (memsize + offset))) (h_len hp - u64 (memsize + offset)) in
        let prev' :=
          match prev with
          | p :: ps => if u64 (h_base p + h_len p) =? old_base then Hole (h_base p) (u64 (h_len p + offset)) :: ps else prev
          | [] => []
          end in
        Some (old_base, rev_append prev' (if h_len hp' =? 0 then rest else hp' :: rest), h_len hp' =? 0)
      else alloc_holes memsize alignment (hp :: prev) rest
  end.

Definition adjacent (hp next : hole) : bool := u64 (h_base hp + h_len hp) =? h_base next.
Definition merge (hp next : hole) : hole := Hole (h_base hp) (u64 (h_len hp + h_len next)).
(** One half of [merge_hole]: the first hole takes in the second.  The number is
    that of the slots deleted. *)
Definition merge_next (l : list hole) : list hole * nat :=
  match l with
  | hp :: next :: rest => if adjacent hp next then (merge hp next :: rest, 1%nat) else (l, 0%nat)
  | _ => (l, 0%nat)
  end.
Definition merge_hole (l : list hole) : list hole * nat :=
  match l with
  | hp :: next :: rest =>
      if adjacent hp next then
        let '(l, n) := merge_next (merge hp next :: rest) in (l, S n)
      else
        let '(l, n) := merge_next (next :: rest) in (hp :: l, n)
  | _ => (l, 0%nat)
  end.
(** The walk to the place of [new], which lies behind the first hole. *)
Fixpoint insert_after (new : hole) (holes : list hole) : list hole * nat :=
  match holes with
  | prev :: rest =>
      match rest with
      | hp :: _ =>
          if h_base hp <? h_base new then
            let '(l, n) := insert_after new rest in (prev :: l, n)
          else merge_hole (prev :: new :: rest)
      | [] => merge_hole [prev; new]
      end
  | [] => merge_hole [new]
  end.
Definition insert_hole (new : hole) (holes : list hole) : list hole * nat :=
  match holes with
  | hp :: _ => if h_base new <=? h_base hp then merge_hole (new :: holes) else insert_after new holes
  | [] => merge_hole [new]
  end.

(** * Operations *)
Definition get_zone (i : Z) : ST memory zonedat := gets zones ≫= λ l, deref (l !! Z.to_nat i).
Definition put_holes (i : Z) (zone : zonedat) (holes : list hole) (slots : nat) : ST memory unit :=
  modify (λ s, Memory (<[Z.to_nat i := Zone (z_index zone) (z_base zone) (z_limit zone) holes slots]> (zones s)) (freelists s)).
Definition get_freelist (cpu zone idx : Z) : ST memory freelist :=
  gets freelists ≫= λ m, deref (m !! (cpu, zone, idx)).
Definition put_freelist (cpu zone idx : Z) (f : freelist) : ST memory unit :=
  modify (λ s, Memory (zones s) (<[(cpu, zone, idx) := f]> (freelists s))).

Definition alloc_mem_zone (i memsize alignment : Z) : ST memory Z :=
  zone ← get_zone i;
  match alloc_holes memsize alignment [] (hole_head zone) with
  | Some (old_base, holes, deleted) =>
      put_holes i zone holes (if deleted : bool then S (free_slots zone) else free_slots zone) ≫= λ _,
      mret old_base
  | None => mret 0
  end.

(** The loops over the zones that [flags] admits. *)
Fixpoint try_zones (ids : list Z) (flags : Z) (f : Z → ST memory Z) : ST memory Z :=
  match ids with
  | [] => mret 0
  | i :: ids =>
      if Z.testbit flags i then
        addr ← f i;
        if negb (addr =? 0) then mret addr else try_zones ids flags f
      else try_zones ids flags f
  end.
Definition alloc_mem (memsize alignment flags : Z) : ST memory Z :=
  try_zones (seqZ 0 MEMZONE_MAX) flags (λ i, alloc_mem_zone i memsize alignment).

Definition freelist_alloc (cpu zone idx : Z) : ST memory Z :=
  f ← get_freelist cpu zone idx;
  if fl_count f =? 0 then mret 0
  else
    match fl_list f with
    | [] => stuck
    | next :: l => put_freelist cpu zone idx (FreeList l (fl_count f - 1)) ≫= λ _, mret next
    end.
(** [int nr_pages = length >> ARCH_PG_SHIFT] *)
Definition int_of (x : Z) : Z := let y := x mod 2 ^ 32 in if y <? 2 ^ 31 then y else y - 2 ^ 32.
Definition freelist_get (cpu zone base length : Z) : ST memory (option (Z * freelist)) :=
  if negb (base mod ARCH_PG_SIZE =? 0) || negb (length mod ARCH_PG_SIZE =? 0) then mret None
  else
    let nr_pages := int_of (Z.shiftr length ARCH_PG_SHIFT) in
    if (nr_pages <? MINPAGES) || (MAXPAGES <? nr_pages) then mret None
    else
      f ← get_freelist cpu zone (freelist_index nr_pages);
      if MAX_FREEPAGES <=? fl_count f then mret None else mret (Some (freelist_index nr_pages, f)).

Definition alloc_pages (cpu nr_pages flags : Z) : ST memory Z :=
  addr ← (if (MINPAGES <=? nr_pages) && (nr_pages <=? MAXPAGES) then
            try_zones (seqZ 0 MEMZONE_MAX) flags (λ i, freelist_alloc cpu i (freelist_index nr_pages))
          else mret 0);
  if negb (addr =? 0) then mret addr
  else alloc_mem (u64 (Z.shiftl nr_pages ARCH_PG_SHIFT)) ARCH_PG_SIZE flags.

Definition free_mem_zone (cpu i base len : Z) : ST memory unit :=
  if len =? 0 then mret tt
  else
    zone ← get_zone i;
    f ← freelist_get cpu (z_index zone) base len;
    match f with
    | Some (idx, f) => put_freelist cpu (z_index zone) idx (FreeList (base :: fl_list f) (fl_count f + 1))
    | None =>
        match free_slots zone with
        | O => stuck   (* panic: hole table full *)
        | S slots =>
            let '(holes, n) := insert_hole (Hole base len) (hole_head zone) in
            put_holes i zone holes (slots + n)
        end
    end.
Fixpoint free_in_zone (cpu base len : Z) (ids : list Z) : ST memory unit :=
  match ids with
  | [] => stuck   (* panic: freeing memory outside of any zone *)
  | i :: ids =>
      zone ← get_zone i;
      if (z_base zone <=? base) && (base <? z_limit zone) then free_mem_zone cpu i base len
      else free_in_zone cpu base len ids
  end.
Definition free_mem (cpu base len : Z) : ST memory unit := free_in_zone cpu base len (seqZ 0 MEMZONE_MAX).

(** [mem_init] clears the lists of all CPUs for all zones. *)
Definition all_freelists : list (Z * Z * Z) :=
  i ← seqZ 0 NR_CPUS; j ← seqZ 0 MEMZONE_MAX; k ← seqZ MINPAGES MAXPAGES; mret (i, j, freelist_index k).
Definition mem_init (cpu mem_zone mem_start free_mem_size : Z) : ST memory unit :=
  modify (λ s, Memory
    (<[Z.to_nat mem_zone := Zone mem_zone mem_start (mem_start + free_mem_size) [] NR_HOLES]> (zones s))
    (list_to_map ((λ k, (k, FreeList [] 0)) <$> all_freelists))) ≫= λ _,
  free_mem_zone cpu mem_zone mem_start free_mem_size.
Definition no_memory : memory := Memory (replicate 3 (Zone 0 0 0 [] 0)) ∅.
