(* ===== verification/AllocFacts.v ===== *)
(** Invariants of the physical memory allocator (Alloc.v): what holes, the
    per-CPU lists and the blocks in use cover, and that every operation keeps
    them apart. *)
From S2P Require Import Prelude Alloc.
#[local] Open Scope Z_scope.
#[local] Unset Default Proof Using.

(** * Addresses covered *)
Definition h_end (h : hole) : Z := h_base h + h_len h.
Definition span (h : hole) : list Z := seqZ (h_base h) (h_len h).
Definition spans (l : list hole) : list Z := l ≫= span.
(** Memory lies below 8 TB, so a number of pages fits an [int]. *)
Definition MAX_PHYS : Z := 2 ^ 43.
Definition hole_ok (h : hole) : Prop := 0 < h_base h ∧ 0 < h_len h ∧ h_end h ≤ MAX_PHYS.
(** Holes in ascending order, with a gap before each, the first one after [b]. *)
Fixpoint canon (b : Z) (l : list hole) : Prop :=
  match l with
  | [] => True
  | h :: l => b < h_base h ∧ hole_ok h ∧ canon (h_end h) l
  end.
(** The same without the first gap. *)
Definition canon_at (b : Z) (l : list hole) : Prop :=
  match l with [] => True | h :: l => b ≤ h_base h ∧ hole_ok h ∧ canon (h_end h) l end.

Lemma spans_cons h l : spans (h :: l) = span h ++ spans l.
Proof. done. Qed.
Lemma spans_app l1 l2 : spans (l1 ++ l2) = spans l1 ++ spans l2.
Proof. apply bind_app. Qed.
Lemma elem_of_span x h : x ∈ span h ↔ h_base h ≤ x < h_end h.
Proof. unfold span, h_end. by rewrite elem_of_seqZ. Qed.
Lemma elem_of_spans x l : x ∈ spans l ↔ ∃ h, h ∈ l ∧ h_base h ≤ x < h_end h.
Proof.
  unfold spans. rewrite list_elem_of_bind. split; intros (h & H1 & H2); exists h; [rewrite elem_of_span in H1|rewrite elem_of_span]; done.
Qed.
Lemma span_split b n m : 0 ≤ n → 0 ≤ m → seqZ b (n + m) = seqZ b n ++ seqZ (b + n) m.
Proof. intros. by apply seqZ_app. Qed.

Lemma canon_canon_at b l : canon b l → canon_at b l.
Proof. destruct l; [done|]. intros (? & ? & ?). split; [lia|done]. Qed.
Lemma canon_weaken b b' l : b' ≤ b → canon b l → canon b' l.
Proof. destruct l; [done|]. intros Hb (? & ? & ?). split; [lia|done]. Qed.
Lemma canon_ok b l : canon b l → Forall hole_ok l.
Proof. revert b. induction l as [|h l IH]; intros b; [by constructor|]. intros (_ & Hh & Hl). constructor; eauto. Qed.
Lemma canon_above b l h : canon b l → h ∈ l → b < h_base h.
Proof.
  revert b. induction l as [|h' l IH]; intros b; [by intros _ ?%not_elem_of_nil|].
  intros (Hb & (? & ? & ?) & Hl) [->|Hin]%elem_of_cons; [done|]. specialize (IH _ Hl Hin). unfold h_end in *. lia.
Qed.
Lemma canon_app b l1 l2 : canon b (l1 ++ l2) ↔ canon b l1 ∧ canon (from_option h_end b (last l1)) l2.
Proof.
  revert b. induction l1 as [|h l1 IH]; intros b; [cbn; tauto|]. rewrite last_cons. cbn [app canon]. rewrite IH.
  destruct (last l1); cbn; tauto.
Qed.
Lemma canon_NoDup b l : canon b l → NoDup (spans l).
Proof.
  revert b. induction l as [|h l IH]; intros b; [constructor|]. intros (Hb & Hh & Hl). rewrite spans_cons, NoDup_app.
  split; [apply NoDup_seqZ|]. split; [|by eapply IH]. intros x Hx%elem_of_span (h' & Hh' & Hx')%elem_of_spans.
  pose proof (canon_above _ _ _ Hl Hh'). lia.
Qed.

(** * Merging and insertion *)
Lemma u64_phys x : 0 ≤ x ≤ MAX_PHYS → u64 x = x.
Proof. intros H. apply u64_small. unfold MAX_PHYS in H. lia. Qed.
Lemma adjacent_spec hp next : hole_ok hp → adjacent hp next = true ↔ h_end hp = h_base next.
Proof. intros (H1 & H2 & H3). unfold adjacent, h_end in *. rewrite u64_phys by lia. apply Z.eqb_eq. Qed.
Lemma merge_ok hp next : hole_ok hp → hole_ok next → h_end hp = h_base next →
  hole_ok (merge hp next) ∧ h_end (merge hp next) = h_end next ∧ span (merge hp next) = span hp ++ span next.
Proof.
  intros (A1 & A2 & A3) (B1 & B2 & B3) E. unfold hole_ok, merge, h_end, span in *. cbn [h_base h_len].
  rewrite u64_phys by lia. split; [lia|]. split; [lia|]. rewrite span_split by lia. by rewrite E.
Qed.

(** The result of merging [l]: the same addresses, [n] holes fewer. *)
Definition merged (b : Z) (l : list hole) (r : list hole * nat) : Prop :=
  canon b r.1 ∧ spans r.1 = spans l ∧ (length r.1 + r.2 = length l)%nat.

Lemma merge_next_ok b x rest : b < h_base x → hole_ok x → canon_at (h_end x) rest → merged b (x :: rest) (merge_next (x :: rest)).
Proof.
  intros Hb Hx Hr. destruct rest as [|y rest]; cbn [merge_next]; [split; [by split|split; [done|simpl; lia]]|]. destruct Hr as (Hxy & Hy & Hr).
  destruct (adjacent x y) eqn:E.
  - apply adjacent_spec in E; [|done]. destruct (merge_ok x y Hx Hy E) as (M1 & M2 & M3). split; [|split].
    + cbn [fst canon]. by rewrite M2.
    + cbn [fst]. by rewrite !spans_cons, M3, app_assoc.
    + simpl. lia.
  - assert (h_end x ≠ h_base y) by (intros ?%adjacent_spec; congruence). split; [|split; [done|simpl; lia]].
    cbn [fst canon]. split; [done|]. split; [done|]. split; [lia|done].
Qed.
Lemma merge_hole_ok b x y rest : b < h_base x → hole_ok x → h_end x ≤ h_base y → hole_ok y → canon_at (h_end y) rest →
  merged b (x :: y :: rest) (merge_hole (x :: y :: rest)).
Proof.
  intros Hb Hx Hxy Hy Hr. cbn [merge_hole]. destruct (adjacent x y) eqn:E.
  - apply adjacent_spec in E; [|done]. destruct (merge_ok x y Hx Hy E) as (M1 & M2 & M3).
    destruct (merge_next_ok b (merge x y) rest) as (H1 & H2 & H3); [done|done|by rewrite M2|].
    destruct (merge_next _) as [l n]. cbn [fst snd] in *. split; [done|]. split; cbn [fst snd].
    + by rewrite H2, !spans_cons, M3, app_assoc.
    + cbn [length] in *. lia.
  - assert (h_end x ≠ h_base y) by (intros ?%adjacent_spec; congruence).
    destruct (merge_next_ok (h_end x) y rest) as (H1 & H2 & H3); [lia|done|done|].
    destruct (merge_next _) as [l n]. cbn [fst snd] in *. split; [done|]. split; cbn [fst snd].
    + by rewrite !spans_cons, H2.
    + cbn [length] in *. lia.
Qed.

Definition apart (h1 h2 : hole) : Prop := h_end h1 ≤ h_base h2 ∨ h_end h2 ≤ h_base h1.

Lemma merged_perm b l l' r : merged b l r → l ≡ₚ l' → canon b r.1 ∧ spans r.1 ≡ₚ spans l' ∧ (length r.1 + r.2 = length l')%nat.
Proof. intros (H1 & H2 & H3) P. split; [done|]. split; [by rewrite H2; apply bind_Permutation|by rewrite H3, P]. Qed.

Lemma insert_after_cons new prev hp rest : insert_after new (prev :: hp :: rest) =
  if h_base hp <? h_base new then (prev :: (insert_after new (hp :: rest)).1, (insert_after new (hp :: rest)).2)
  else merge_hole (prev :: new :: hp :: rest).
Proof. change (insert_after new (prev :: hp :: rest)) with (if h_base hp <? h_base new then
  let '(l, n) := insert_after new (hp :: rest) in (prev :: l, n) else merge_hole (prev :: new :: hp :: rest)).
  by destruct (insert_after new (hp :: rest)). Qed.
Lemma insert_after_ok b new l : canon b l → hole_ok new → Forall (apart new) l → l ≠ [] →
  (∀ h, head l = Some h → h_base h ≤ h_base new) →
  canon b (insert_after new l).1 ∧ spans (insert_after new l).1 ≡ₚ spans (new :: l) ∧
  (length (insert_after new l).1 + (insert_after new l).2 = S (length l))%nat.
Proof.
  intros Hc Hn Ha Hne Hh. revert b Hc Ha Hh. induction l as [|prev rest IH]; intros b Hc Ha Hh; [done|].
  specialize (Hh prev eq_refl). destruct Hc as (Hb & Hp & Hr). apply Forall_cons in Ha as [Hap Ha].
  assert (h_end prev ≤ h_base new) as Hpn. { destruct Hap; [|done]. destruct Hp, Hn. unfold h_end in *. lia. }
  destruct rest as [|hp rest].
  - eapply merged_perm; [by apply merge_hole_ok|apply Permutation_swap].
  - rewrite insert_after_cons. destruct (Z.ltb_spec (h_base hp) (h_base new)) as [Hlt|Hge].
    + destruct (IH ltac:(done) (h_end prev) Hr Ha) as (H1 & H2 & H3); [by intros ? [= <-]; lia|].
      destruct (insert_after new (hp :: rest)) as [l n]. cbn [fst snd length] in *. split; [by split|]. split; [|lia].
      rewrite spans_cons, H2, (spans_cons new (hp :: rest)), (spans_cons new (prev :: _)), (spans_cons prev (hp :: rest)), !app_assoc.
      by rewrite (Permutation_app_comm (span prev)).
    + apply Forall_cons in Ha as [Hah Ha]. eapply merged_perm; [|apply Permutation_swap]. apply merge_hole_ok; [done..|].
      destruct Hr as (Hb' & Hhp & Hr). split; [|done]. destruct Hah; [done|]. destruct Hhp, Hn. unfold h_end in *. lia.
Qed.

Lemma insert_hole_ok new l : canon 0 l → hole_ok new → Forall (apart new) l →
  canon 0 (insert_hole new l).1 ∧ spans (insert_hole new l).1 ≡ₚ spans (new :: l) ∧
  (length (insert_hole new l).1 + (insert_hole new l).2 = S (length l))%nat.
Proof.
  intros Hc Hn Ha. destruct l as [|hp rest]; cbn [insert_hole merge_hole].
  - split; [|done]. split; [apply Hn|done].
  - destruct (Z.leb_spec (h_base new) (h_base hp)) as [Hle|Hgt].
    + destruct Hc as (Hb & Hhp & Hr). apply Forall_cons in Ha as [Hah Ha].
      eapply merged_perm; [|done]. apply merge_hole_ok; [apply Hn|done| |done|by apply canon_canon_at].
      destruct Hah; [done|]. destruct Hhp, Hn. unfold h_end in *. lia.
    + apply insert_after_ok; [done..|]. intros ? [= <-]. lia.
Qed.

(** Canonical lists are determined by the addresses they cover. *)
Lemma canon_unique b l1 l2 : canon b l1 → canon b l2 → (∀ x, x ∈ spans l1 ↔ x ∈ spans l2) → l1 = l2.
Proof.
  revert b l2. induction l1 as [|h1 l1 IH]; intros b [|h2 l2] H1 H2 E; [done| | |].
  - destruct H2 as (_ & (? & ? & ?) & _). exfalso. apply (not_elem_of_nil (h_base h2)), E, elem_of_spans.
    exists h2. split; [left|]. unfold h_end. lia.
  - destruct H1 as (_ & (? & ? & ?) & _). exfalso. apply (not_elem_of_nil (h_base h1)), E, elem_of_spans.
    exists h1. split; [left|]. unfold h_end. lia.
  - destruct H1 as (B1 & O1 & C1), H2 as (B2 & O2 & C2). pose proof O1 as (? & ? & ?). pose proof O2 as (? & ? & ?).
    assert (∀ h l, canon (h_end h) l → ∀ x, x ∈ spans (h :: l) ↔ (h_base h ≤ x < h_end h) ∨ (h_end h < x ∧ x ∈ spans l)) as Hsplit.
    { intros h l C x. rewrite spans_cons, elem_of_app, elem_of_span. split; [|tauto]. intros [?|Hx]; [by left|right]. split; [|done].
      apply elem_of_spans in Hx as (h' & Hh' & Hx). pose proof (canon_above _ _ _ C Hh'). lia. }
    assert (h_base h1 = h_base h2) as Eb.
    { pose proof (E (h_base h1)) as E1. pose proof (E (h_base h2)) as E2. rewrite !Hsplit in E1, E2 by done. unfold h_end in *. lia. }
    assert (h_end h1 = h_end h2) as Ee.
    { pose proof (E (h_end h1)) as E1. pose proof (E (h_end h2)) as E2. rewrite !Hsplit in E1, E2 by done. unfold h_end in *. lia. }
    assert (h1 = h2) as <-. { destruct h1, h2. unfold h_end in Ee. simpl in *. subst. f_equal. lia. }
    f_equal. apply (IH (h_end h1)); [done..|]. intros x. specialize (E x). rewrite !Hsplit in E by done.
    split; intros Hx; (assert (h_end h1 < x) by (apply elem_of_spans in Hx as (h' & Hh' & ?);
      first [pose proof (canon_above _ _ _ C1 Hh')|pose proof (canon_above _ _ _ C2 Hh')]; lia)); unfold h_end in *; intuition lia.
Qed.

(** * Allocation from the holes *)
Definition fits (memsize alignment : Z) (h : hole) : Prop := memsize + padding alignment (h_base h) ≤ h_len h.
#[export] Instance fits_dec m a h : Decision (fits m a h).
Proof. unfold fits. apply _. Defined.
(** A request whose sums stay below 2^64. *)
Definition request_ok (memsize alignment : Z) : Prop := 0 < memsize ∧ 0 < alignment ∧ memsize + alignment < 2 ^ 64.

Lemma padding_bound alignment base : 0 < alignment → 0 ≤ padding alignment base < alignment.
Proof. intros Ha. unfold padding. pose proof (Z.mod_pos_bound base alignment Ha). destruct (Z.eqb_spec (base mod alignment) 0); lia. Qed.
Lemma padding_aligned alignment base : 0 < alignment → (alignment | base + padding alignment base).
Proof.
  intros Ha. unfold padding. destruct (Z.eqb_spec (base mod alignment) 0) as [E|E].
  - rewrite Z.add_0_r. by apply Z.mod_divide; [lia|].
  - exists (base / alignment + 1). rewrite (Z.div_mod base alignment) at 1 by lia. lia.
Qed.

(** What is left of a hole after [n] bytes at its front, if anything. *)
Definition rest_of (h : hole) (n : Z) : list hole := if h_len h - n =? 0 then [] else [Hole (h_base h + n) (h_len h - n)].
Lemma spans_rest h n : 0 ≤ n ≤ h_len h → span h = seqZ (h_base h) n ++ spans (rest_of h n).
Proof.
  intros Hn. unfold span, rest_of. replace (h_len h) with (n + (h_len h - n)) at 1 by lia. rewrite span_split by lia. f_equal.
  destruct (Z.eqb_spec (h_len h - n) 0) as [->|]; [done|]. cbn. by rewrite app_nil_r.
Qed.
Lemma rest_canon b h n post : 0 ≤ n ≤ h_len h → canon b (h :: post) → canon b (rest_of h n ++ post).
Proof.
  intros Hn (Hb & (H1 & H2 & H3) & Hp). unfold rest_of. destruct (Z.eqb_spec (h_len h - n) 0) as [E|E].
  - eapply canon_weaken; [|exact Hp]. unfold h_end. lia.
  - split; [cbn; lia|]. split; [unfold hole_ok, h_end in *; cbn; lia|].
    replace (h_end (Hole (h_base h + n) (h_len h - n))) with (h_end h) by (unfold h_end; cbn; lia). done.
Qed.

(** The first hole that fits is cut at its front; padding is lost. *)
Lemma alloc_holes_ok memsize alignment prev holes : request_ok memsize alignment → canon 0 (rev prev ++ holes) →
  match alloc_holes memsize alignment prev holes with
  | Some (a, l, deleted) => ∃ pre hp post,
      holes = pre ++ hp :: post ∧ Forall (λ h, ¬ fits memsize alignment h) pre ∧ fits memsize alignment hp ∧
      let pad := padding alignment (h_base hp) in
      a = h_base hp + pad ∧ l = rev prev ++ pre ++ rest_of hp (memsize + pad) ++ post ∧
      deleted = (h_len hp =? memsize + pad)
  | None => Forall (λ h, ¬ fits memsize alignment h) holes
  end.
Proof.
  intros (Hm & Ha & Hma). revert prev. induction holes as [|hp rest IH]; intros prev Hc; cbn [alloc_holes]; [done|].
  pose proof (padding_bound alignment (h_base hp) Ha) as Hpad. set (pad := padding alignment (h_base hp)) in *.
  pose proof Hc as [Hcp (Hbp & (H1 & H2 & H3) & Hcr)]%canon_app.
  rewrite (u64_small (memsize + pad)) by lia. destruct (Z.leb_spec (memsize + pad) (h_len hp)) as [Hf|Hf].
  - exists [], hp, rest. split; [done|]. split; [done|]. split; [exact Hf|]. cbn zeta. fold pad.
    unfold h_end in H3. rewrite (u64_phys (h_base hp + pad)), (u64_phys (h_base hp + (memsize + pad))) by lia.
    split; [done|]. split; [|cbn [h_len]; destruct (Z.eqb_spec (h_len hp - (memsize + pad)) 0), (Z.eqb_spec (h_len hp) (memsize + pad)); lia].
    assert (match prev with
      | p :: ps => if u64 (h_base p + h_len p) =? h_base hp + pad then Hole (h_base p) (u64 (h_len p + pad)) :: ps else prev
      | [] => [] end = prev) as ->.
    { destruct prev as [|p ps]; [done|]. cbn [rev] in Hbp, Hcp. rewrite last_snoc in Hbp. cbn in Hbp. unfold h_end in Hbp.
      apply canon_ok in Hcp. rewrite Forall_app, Forall_singleton in Hcp. destruct Hcp as [_ (P1 & P2 & P3)]. unfold h_end in P3.
      rewrite u64_phys by lia. destruct (Z.eqb_spec (h_base p + h_len p) (h_base hp + pad)); [lia|done]. }
    rewrite rev_append_rev. cbn [app h_len]. f_equal. unfold rest_of.
    by destruct (h_len hp - (memsize + pad) =? 0).
  - specialize (IH (hp :: prev)). cbn [rev] in IH. rewrite <-app_assoc in IH. specialize (IH Hc).
    assert (¬ fits memsize alignment hp) as Hnf by (unfold fits; fold pad; lia).
    destruct (alloc_holes memsize alignment (hp :: prev) rest) as [[[a l] d]|]; [|by constructor].
    destruct IH as (pre & hp' & post & -> & Hpre & Hfit & Ea & -> & Ed). exists (hp :: pre), hp', post.
    split; [done|]. split; [by constructor|]. split; [done|]. split; [done|]. split; [|done]. cbn [rev]. by rewrite <-!app_assoc.
Qed.

(** * The invariant *)
Definition page_block (idx a : Z) : hole := Hole a ((idx + MINPAGES) * ARCH_PG_SIZE).
Definition kept (idx : Z) (f : freelist) : list hole := page_block idx <$> fl_list f.
Definition kept_blocks (m : gmap (Z * Z * Z) freelist) : list hole := map_to_list m ≫= λ kf : Z * Z * Z * freelist, kept kf.1.2 kf.2.
Definition inside (z : zonedat) (h : hole) : Prop := z_base z ≤ h_base h ∧ h_end h ≤ z_limit z.
Definition in_zone (zs : list zonedat) (h : hole) : Prop := ∃ i z, zs !! i = Some z ∧ inside z h.
Record zone_ok (i : nat) (z : zonedat) : Prop := {
  zo_index : z_index z = Z.of_nat i;
  zo_range : 0 < z_base z ∧ z_limit z ≤ MAX_PHYS;
  zo_canon : canon 0 (hole_head z);
  zo_inside : Forall (inside z) (hole_head z);
  zo_slots : (length (hole_head z) + free_slots z = NR_HOLES)%nat;
}.
Definition zones_apart (zs : list zonedat) : Prop := ∀ i j z1 z2, i ≠ j → zs !! i = Some z1 → zs !! j = Some z2 →
  z_limit z1 ≤ z_base z2 ∨ z_limit z2 ≤ z_base z1.
Record list_ok (zs : list zonedat) (k : Z * Z * Z) (f : freelist) : Prop := {
  lo_count : fl_count f = Z.of_nat (length (fl_list f));
  lo_max : fl_count f ≤ MAX_FREEPAGES;
  lo_zone : 0 ≤ k.1.2 ∧ 0 ≤ k.2;
  lo_pages : Forall (λ a, a mod ARCH_PG_SIZE = 0 ∧ 0 < a ∧ ∃ z, zs !! Z.to_nat k.1.2 = Some z ∧ inside z (page_block k.2 a)) (fl_list f);
}.
(** Everything the allocator hands out or may hand out. *)
Definition holes_of (s : memory) : list hole := concat (hole_head <$> zones s).
Record mem_ok (s : memory) (live : list hole) : Prop := {
  mo_len : length (zones s) = 3%nat;
  mo_zone : ∀ i z, zones s !! i = Some z → zone_ok i z;
  mo_apart : zones_apart (zones s);
  mo_lists : ∀ k, k ∈ all_freelists → is_Some (freelists s !! k);
  mo_kept : ∀ k f, freelists s !! k = Some f → list_ok (zones s) k f;
  mo_live : Forall (λ h, hole_ok h ∧ in_zone (zones s) h) live;
  mo_disjoint : NoDup (spans (holes_of s) ++ spans (kept_blocks (freelists s)) ++ spans live);
}.

Ltac count_perm := apply (Permutation_count_occ Z.eq_dec); intros ?; rewrite ?count_occ_app; try lia.

Lemma holes_update s i z : zones s !! i = Some z → ∃ R, holes_of s ≡ₚ hole_head z ++ R ∧
  ∀ z' fl, holes_of (Memory (<[i := z']> (zones s)) fl) ≡ₚ hole_head z' ++ R.
Proof.
  intros E. pose proof (lookup_lt_Some _ _ _ E). exists (concat (hole_head <$> take i (zones s)) ++ concat (hole_head <$> drop (S i) (zones s))).
  assert (∀ z1, concat (hole_head <$> take i (zones s) ++ z1 :: drop (S i) (zones s)) ≡ₚ
    hole_head z1 ++ concat (hole_head <$> take i (zones s)) ++ concat (hole_head <$> drop (S i) (zones s))) as P.
  { intros z1. rewrite fmap_app, fmap_cons, concat_app. cbn [concat]. apply Permutation_app_swap_app. }
  split.
  - unfold holes_of. rewrite <-(take_drop_middle _ _ _ E) at 1. apply P.
  - intros z' fl. unfold holes_of. cbn [zones]. rewrite insert_take_drop by done. apply P.
Qed.
Lemma kept_update m k f : m !! k = Some f → ∃ R, kept_blocks m ≡ₚ kept k.2 f ++ R ∧
  ∀ f', kept_blocks (<[k := f']> m) ≡ₚ kept k.2 f' ++ R.
Proof.
  intros E. exists (kept_blocks (delete k m)). split.
  - unfold kept_blocks. rewrite <-(insert_delete_id m k f E) at 1. by rewrite map_to_list_insert by apply lookup_delete_eq.
  - intros f'. unfold kept_blocks. rewrite <-insert_delete_eq. by rewrite map_to_list_insert by apply lookup_delete_eq.
Qed.
Lemma spans_perm l1 l2 : l1 ≡ₚ l2 → spans l1 ≡ₚ spans l2.
Proof. apply bind_Permutation. Qed.
Lemma mem_ok_perm s l1 l2 : l1 ≡ₚ l2 → mem_ok s l1 → mem_ok s l2.
Proof. intros P [H1 H2 H3 H4 H5 H6 H7]. split; [done..| |]; [by rewrite <-P|]. by rewrite <-(spans_perm _ _ P). Qed.

(** Changing the holes of a zone moves no limit. *)
Definition geometry (z : zonedat) : Z * Z := (z_base z, z_limit z).
Definition same_zones (zs zs' : list zonedat) : Prop := geometry <$> zs' = geometry <$> zs.
Lemma same_zones_lookup zs zs' i z : same_zones zs zs' → zs !! i = Some z → ∃ z', zs' !! i = Some z' ∧ geometry z' = geometry z.
Proof.
  intros E Hz. assert ((geometry <$> zs') !! i = Some (geometry z)) as H by (by rewrite E, list_lookup_fmap, Hz).
  rewrite list_lookup_fmap in H. destruct (zs' !! i) as [z'|]; [|done]. injection H as Hb Hl. exists z'. split; [done|].
  unfold geometry. by rewrite Hb, Hl.
Qed.
Lemma same_zones_sym zs zs' : same_zones zs zs' → same_zones zs' zs.
Proof. by unfold same_zones. Qed.
Lemma same_zones_insert zs i z z' : zs !! i = Some z → geometry z' = geometry z → same_zones zs (<[i := z']> zs).
Proof.
  intros Hz Hg. unfold same_zones. rewrite list_fmap_insert, Hg. apply list_insert_id. by rewrite list_lookup_fmap, Hz.
Qed.
Lemma inside_geometry z z' h : geometry z' = geometry z → inside z h → inside z' h.
Proof. unfold geometry, inside. intros [= -> ->]. done. Qed.
Lemma in_zone_same zs zs' h : same_zones zs zs' → in_zone zs h → in_zone zs' h.
Proof.
  intros E (i & z & Hz & Hi). destruct (same_zones_lookup _ _ _ _ E Hz) as (z' & Hz' & Hg). exists i, z'.
  split; [done|by eapply inside_geometry].
Qed.
Lemma list_ok_same zs zs' k f : same_zones zs zs' → list_ok zs k f → list_ok zs' k f.
Proof.
  intros E [H1 H2 H3 H4]. split; [done..|]. eapply Forall_impl; [exact H4|]. intros a (Ha & Hp & z & Hz & Hi). split; [done|]. split; [done|].
  destruct (same_zones_lookup _ _ _ _ E Hz) as (z' & Hz' & Hg). exists z'. split; [done|by eapply inside_geometry].
Qed.
Lemma zones_apart_same zs zs' : same_zones zs zs' → zones_apart zs → zones_apart zs'.
Proof.
  intros E%same_zones_sym H i j z1 z2 Hne H1 H2. destruct (same_zones_lookup _ _ _ _ E H1) as (y1 & Y1 & [= G1 G1']).
  destruct (same_zones_lookup _ _ _ _ E H2) as (y2 & Y2 & [= G2 G2']). rewrite <-G1, <-G1', <-G2, <-G2'. by eapply H.
Qed.

(** Replacing the holes of zone [i], when the addresses add up. *)
Lemma mem_ok_holes s live live' i z holes slots : mem_ok s live → zones s !! i = Some z →
  canon 0 holes → Forall (inside z) holes → (length holes + slots = NR_HOLES)%nat →
  Forall (λ h, hole_ok h ∧ in_zone (zones s) h) live' →
  (∃ lost, lost ++ spans holes ++ spans live' ≡ₚ spans (hole_head z) ++ spans live) →
  mem_ok (Memory (<[i := Zone (z_index z) (z_base z) (z_limit z) holes slots]> (zones s)) (freelists s)) live'.
Proof.
  intros [H1 H2 H3 H4 H5 H6 H7] Hz Hc Hi Hs Hl (lost & P). set (z' := Zone _ _ _ holes slots).
  assert (same_zones (zones s) (<[i := z']> (zones s))) as E by (by eapply same_zones_insert).
  split; cbn [zones freelists].
  - by rewrite length_insert.
  - intros j y Hy. destruct (decide (i = j)) as [<-|Hne].
    + rewrite list_lookup_insert_eq in Hy by (by eapply lookup_lt_Some). injection Hy as <-. by destruct (H2 _ _ Hz).
    + rewrite list_lookup_insert_ne in Hy by done. by apply H2.
  - by eapply zones_apart_same.
  - done.
  - intros k f Hf. eapply list_ok_same; [exact E|by apply H5].
  - eapply Forall_impl; [exact Hl|]. intros h [? ?]. split; [done|by eapply in_zone_same].
  - destruct (holes_update s i z Hz) as (R & P1 & P2). specialize (P2 z' (freelists s)).
    apply spans_perm in P1, P2. rewrite spans_app in P1, P2. cbn [hole_head z'] in P2. fold z'.
    match goal with |- NoDup ?l => cut (NoDup (lost ++ l)) end; [by intros (_ & _ & ?)%NoDup_app|].
    match type of H7 with NoDup ?k => match goal with |- NoDup ?l => assert (l ≡ₚ k) as ->; [|exact H7] end end.
    rewrite P1, P2.
    apply (Permutation_count_occ Z.eq_dec). intros x. apply (Permutation_count_occ Z.eq_dec) with (x := x) in P.
    rewrite ?count_occ_app in *. lia.
Qed.

Lemma zone_lookup s live i : mem_ok s live → 0 ≤ i < MEMZONE_MAX → ∃ z, zones s !! Z.to_nat i = Some z ∧ zone_ok (Z.to_nat i) z.
Proof.
  intros M Hi. destruct (lookup_lt_is_Some_2 (zones s) (Z.to_nat i)) as [z Hz].
  { rewrite (mo_len _ _ M). unfold MEMZONE_MAX in Hi. lia. }
  exists z. split; [done|]. by eapply mo_zone.
Qed.

(** * Allocation *)
Definition block (a n : Z) : hole := Hole a n.
(** What an allocation of [n] bytes, a multiple of [al], answers. *)
Definition allocated (s : memory) (live : list hole) (al n a : Z) (s' : memory) : Prop :=
  (a = 0 ∧ s' = s) ∨ (0 < a ∧ (al | a) ∧ mem_ok s' (Hole a n :: live)).

Lemma alloc_mem_zone_ok s live i n al : mem_ok s live → 0 ≤ i < MEMZONE_MAX → request_ok n al →
  wp (alloc_mem_zone i n al) (λ a s', allocated s live al n a s' ∧
    (a = 0 → ∀ z, zones s !! Z.to_nat i = Some z → Forall (λ h, ¬ fits n al h) (hole_head z))) s.
Proof.
  intros M Hi Hr. destruct (zone_lookup s live i M Hi) as (z & Hz & Zo). unfold alloc_mem_zone, get_zone.
  wp_steps. apply wp_deref. exists z. split; [done|]. cbn beta.
  pose proof (alloc_holes_ok n al [] (hole_head z) Hr (zo_canon _ _ Zo)) as H. cbn [rev app] in H.
  destruct (alloc_holes n al [] (hole_head z)) as [[[a l] d]|]; cbn beta iota.
  2:{ wp_steps. split; [by left|]. intros _ z' Hz'. by simplify_eq. }
  destruct H as (pre & hp & post & El & _ & Hfit & -> & -> & ->). unfold fits in Hfit. destruct Hr as (Hn & Ha & Hna).
  pose proof (padding_bound al (h_base hp) Ha) as Hpad. set (pad := padding al (h_base hp)) in *.
  pose proof (zo_canon _ _ Zo) as Hc. rewrite El in Hc. pose proof Hc as [Hc1 Hc2]%canon_app.
  pose proof Hc2 as (_ & (P1 & P2 & P3) & _).
  assert (inside z hp) as [I1 I2]. { pose proof (zo_inside _ _ Zo) as F. rewrite El, Forall_app, Forall_cons in F. apply F. }
  unfold put_holes. wp_steps. split; [|intros; lia]. right. split; [lia|]. split; [by apply padding_aligned|].
  unfold h_end in *. eapply mem_ok_holes; [exact M|exact Hz| | | | |].
  - apply canon_app. split; [done|]. by apply rest_canon; [lia|].
  - pose proof (zo_inside _ _ Zo) as F. rewrite El, Forall_app, Forall_cons in F. destruct F as (F1 & _ & F2).
    rewrite !Forall_app. split; [done|]. split; [|done]. unfold rest_of. destruct (_ =? 0); repeat constructor; cbn; unfold h_end; cbn; lia.
  - pose proof (zo_slots _ _ Zo) as Hs. rewrite El in Hs. rewrite !length_app in *. cbn [length] in Hs. unfold rest_of.
    destruct (Z.eqb_spec (h_len hp) (n + pad)), (Z.eqb_spec (h_len hp - (n + pad)) 0); simpl; lia.
  - constructor; [|by apply M]. split; [unfold hole_ok, h_end; cbn; lia|]. exists (Z.to_nat i), z. split; [done|].
    split; unfold h_end; cbn; lia.
  - exists (seqZ (h_base hp) pad). rewrite El, !spans_app, !spans_cons. rewrite (spans_rest hp (n + pad)) by lia.
    rewrite (Z.add_comm n pad), span_split by lia. change (span (Hole (h_base hp + pad) n)) with (seqZ (h_base hp + pad) n).
    apply (Permutation_count_occ Z.eq_dec). intros x. rewrite ?count_occ_app. lia.
Qed.

(** Replacing one of the lists of free pages. *)
Lemma mem_ok_list s live live' k f f' : mem_ok s live → freelists s !! k = Some f → list_ok (zones s) k f' →
  Forall (λ h, hole_ok h ∧ in_zone (zones s) h) live' →
  spans (kept k.2 f') ++ spans live' ≡ₚ spans (kept k.2 f) ++ spans live →
  mem_ok (Memory (zones s) (<[k := f']> (freelists s))) live'.
Proof.
  intros [H1 H2 H3 H4 H5 H6 H7] Hf Hf' Hl P. split; cbn [zones freelists]; try done.
  - intros k' Hk'. destruct (decide (k = k')) as [<-|Hne]; [by rewrite lookup_insert_eq; eauto|].
    rewrite lookup_insert_ne by done. by apply H4.
  - intros k' f1. destruct (decide (k = k')) as [<-|Hne].
    + rewrite lookup_insert_eq. by intros [= <-].
    + rewrite lookup_insert_ne by done. apply H5.
  - destruct (kept_update (freelists s) k f Hf) as (R & P1 & P2). specialize (P2 f').
    apply spans_perm in P1, P2. rewrite spans_app in P1, P2.
    match type of H7 with NoDup ?k => match goal with |- NoDup ?l => assert (l ≡ₚ k) as ->; [|exact H7] end end.
    change (holes_of (Memory (zones s) (<[k:=f']> (freelists s)))) with (holes_of s). rewrite P1, P2.
    apply (Permutation_count_occ Z.eq_dec). intros x. apply (Permutation_count_occ Z.eq_dec) with (x := x) in P.
    rewrite ?count_occ_app in *. lia.
Qed.

Lemma freelist_alloc_ok s live cpu z idx : mem_ok s live → (cpu, z, idx) ∈ all_freelists →
  wp (freelist_alloc cpu z idx) (allocated s live ARCH_PG_SIZE ((idx + MINPAGES) * ARCH_PG_SIZE)) s.
Proof.
  intros M Hk. destruct (mo_lists _ _ M _ Hk) as [f Hf]. pose proof (mo_kept _ _ M _ _ Hf) as [L1 L2 L3 L4].
  unfold freelist_alloc, get_freelist. wp_steps. apply wp_deref. exists f. split; [done|]. cbn beta.
  destruct (Z.eqb_spec (fl_count f) 0) as [E|E]; [wp_steps; by left|].
  destruct (fl_list f) as [|a l] eqn:El; [by rewrite L1 in E|]. unfold put_freelist. wp_steps.
  apply Forall_cons in L4 as [(A1 & A2 & y & Hy & Hi) L4]. cbn [fst snd] in *. right. split; [done|].
  split; [by apply Z.mod_divide|]. eapply mem_ok_list; [exact M|exact Hf| | |].
  - split; cbn [fl_count fl_list]; [rewrite L1; simpl; lia|lia|done|done].
  - constructor; [|by apply M]. split; [|by exists (Z.to_nat z), y].
    assert (zone_ok (Z.to_nat z) y) as Zo by (by eapply mo_zone). destruct (zo_range _ _ Zo), Hi.
    unfold hole_ok, page_block, h_end, MINPAGES, ARCH_PG_SIZE in *. cbn [h_base h_len] in *. lia.
  - unfold kept. cbn [fl_list snd]. rewrite El, fmap_cons, !spans_cons.
    apply (Permutation_count_occ Z.eq_dec). intros x. rewrite ?count_occ_app. unfold page_block at 2. lia.
Qed.

Lemma try_zones_ok s live al n ids flags f : (∀ i, i ∈ ids → wp (f i) (allocated s live al n) s) →
  wp (try_zones ids flags f) (allocated s live al n) s.
Proof.
  induction ids as [|i ids IH]; intros H; cbn [try_zones]; [by left|].
  assert (wp (try_zones ids flags f) (allocated s live al n) s) as Hrest by (apply IH; intros j Hj; apply H; by right).
  destruct (Z.testbit flags i); [|done]. wp_step. eapply wp_mono; [apply H; left|]. cbn beta. intros a s' Ha.
  destruct (Z.eqb_spec a 0) as [->|Hne]; cbn [negb]; [|by wp_steps].
  destruct Ha as [[_ ->]|[? _]]; [done|lia].
Qed.
Lemma alloc_mem_ok s live n al flags : mem_ok s live → request_ok n al →
  wp (alloc_mem n al flags) (allocated s live al n) s.
Proof.
  intros M Hr. apply try_zones_ok. intros i Hi%elem_of_seqZ. eapply wp_mono; [apply alloc_mem_zone_ok; [done|lia|done]|]. by intros a s' [? _].
Qed.

Lemma all_freelists_elem cpu z k : (cpu, z, k) ∈ all_freelists ↔ 0 ≤ cpu < NR_CPUS ∧ 0 ≤ z < MEMZONE_MAX ∧ 0 ≤ k < MAXPAGES.
Proof.
  unfold all_freelists, freelist_index, MINPAGES. split.
  - intros (c & H1 & Hc)%list_elem_of_bind. apply list_elem_of_bind in H1 as (y & H1 & Hy).
    apply list_elem_of_bind in H1 as (j & H1 & Hj). apply list_elem_of_singleton in H1. injection H1 as -> -> ->.
    rewrite elem_of_seqZ in *. lia.
  - intros (Hc & Hz & Hk). apply list_elem_of_bind. exists cpu. rewrite elem_of_seqZ. split; [|lia].
    apply list_elem_of_bind. exists z. rewrite elem_of_seqZ. split; [|lia].
    apply list_elem_of_bind. exists (k + 1). rewrite elem_of_seqZ. split; [|lia]. apply list_elem_of_singleton. f_equal. lia.
Qed.
Lemma alloc_pages_ok s live cpu n flags : mem_ok s live → 0 ≤ cpu < NR_CPUS → 0 < n < 2 ^ 50 →
  wp (alloc_pages cpu n flags) (allocated s live ARCH_PG_SIZE (n * ARCH_PG_SIZE)) s.
Proof.
  intros M Hc Hn. unfold alloc_pages. wp_step.
  assert (wp (alloc_mem (u64 (Z.shiftl n ARCH_PG_SHIFT)) ARCH_PG_SIZE flags) (allocated s live ARCH_PG_SIZE (n * ARCH_PG_SIZE)) s) as Hm.
  { rewrite Z.shiftl_mul_pow2 by done. change (2 ^ ARCH_PG_SHIFT) with ARCH_PG_SIZE. rewrite u64_small by (unfold ARCH_PG_SIZE; lia).
    apply alloc_mem_ok; [done|]. unfold request_ok, ARCH_PG_SIZE. lia. }
  assert (∀ a s', allocated s live ARCH_PG_SIZE (n * ARCH_PG_SIZE) a s' →
    wp (if negb (a =? 0) then mret a else alloc_mem (u64 (Z.shiftl n ARCH_PG_SHIFT)) ARCH_PG_SIZE flags)
       (allocated s live ARCH_PG_SIZE (n * ARCH_PG_SIZE)) s') as Hk.
  { intros a s' Ha. destruct (Z.eqb_spec a 0) as [->|Hne]; cbn [negb]; [|by wp_steps]. destruct Ha as [[_ ->]|[? _]]; [done|lia]. }
  destruct (Z.leb_spec MINPAGES n), (Z.leb_spec n MAXPAGES); cbn [andb]; try (wp_steps; apply Hk; by left).
  eapply wp_mono; [|exact Hk]. apply try_zones_ok. intros i Hi%elem_of_seqZ.
  replace n with (freelist_index n + MINPAGES) at 2 by (unfold freelist_index; lia). apply freelist_alloc_ok; [done|].
  apply all_freelists_elem. unfold freelist_index, MINPAGES, MAXPAGES in *. lia.
Qed.

(** * Release *)
Lemma int_of_small x : 0 ≤ x < 2 ^ 31 → int_of x = x.
Proof. intros H. unfold int_of. rewrite Z.mod_small by lia. by replace (x <? 2 ^ 31) with true by lia. Qed.

(** Blocks of no whole number of pages, or of more than 12, go to the holes. *)
Definition not_kept (n : Z) : Prop := n mod ARCH_PG_SIZE ≠ 0 ∨ MAXPAGES * ARCH_PG_SIZE < n.
Lemma freelist_get_none cpu zone a n s : not_kept n → 0 ≤ n < MAX_PHYS → freelist_get cpu zone a n s = Some (None, s).
Proof.
  intros Hn Hb. unfold freelist_get. destruct (_ || _) eqn:E0; [done|]. destruct Hn as [Hn|Hn].
  { apply Z.eqb_neq in Hn. by rewrite Hn, orb_true_r in E0. }
  assert (n mod ARCH_PG_SIZE = 0) as Em by (destruct (Z.eqb_spec (n mod ARCH_PG_SIZE) 0); [done|]; by rewrite orb_true_r in E0).
  rewrite Z.shiftr_div_pow2 by done. change (2 ^ ARCH_PG_SHIFT) with ARCH_PG_SIZE. unfold MAX_PHYS, ARCH_PG_SIZE, MAXPAGES in *.
  rewrite int_of_small by (split; [apply Z.div_pos; lia|apply Z.div_lt_upper_bound; lia]).
  pose proof (Z.div_mod n 4096 ltac:(done)). by replace (12 <? n / 4096) with true by lia; rewrite orb_true_r.
Qed.

Lemma free_in_zone_eq s live cpu b ids j z : mem_ok s live → zones s !! j = Some z → inside z b → 0 < h_len b →
  Z.of_nat j ∈ ids → (∀ i, i ∈ ids → 0 ≤ i < MEMZONE_MAX) →
  free_in_zone cpu (h_base b) (h_len b) ids s = free_mem_zone cpu (Z.of_nat j) (h_base b) (h_len b) s.
Proof.
  intros M Hz [I1 I2] Hl Hin Hids. unfold h_end in I2. induction ids as [|i ids IH]; [by apply not_elem_of_nil in Hin|].
  cbn [free_in_zone]. unfold get_zone, mbind, ST_bind, gets. destruct (zone_lookup s live i M) as (y & Hy & _); [apply Hids; left|].
  rewrite Hy. cbn [deref mret ST_ret]. destruct (decide (i = Z.of_nat j)) as [->|Hne].
  - rewrite Nat2Z.id in Hy. rewrite Hz in Hy. injection Hy as <-. by replace ((z_base z <=? h_base b) && (h_base b <? z_limit z)) with true by lia.
  - assert (z_limit y ≤ z_base z ∨ z_limit z ≤ z_base y) as Ha.
    { eapply (mo_apart _ _ M (Z.to_nat i) j); [|done|done]. pose proof (Hids i ltac:(left)). lia. }
    replace ((z_base y <=? h_base b) && (h_base b <? z_limit y)) with false by lia.
    apply IH; [|intros; apply Hids; by right]. apply elem_of_cons in Hin as [E|?]; [congruence|done].
Qed.

Lemma live_apart s b live i z : mem_ok s (b :: live) → zones s !! i = Some z → Forall (apart b) (hole_head z).
Proof.
  intros M Hz. apply Forall_forall. intros h Hh. pose proof (mo_disjoint _ _ M) as N.
  destruct (holes_update s i z Hz) as (R & P & _). apply spans_perm in P. rewrite spans_app in P.
  rewrite P, spans_cons, !NoDup_app in N. destruct N as ((_ & _ & _) & N & _).
  pose proof (mo_live _ _ M) as [((B1 & B2 & _) & _) _]%Forall_cons.
  pose proof (canon_ok _ _ (zo_canon _ _ (mo_zone _ _ M _ _ Hz))) as F. rewrite Forall_forall in F. destruct (F h Hh) as (C1 & C2 & _).
  unfold apart. destruct (decide (h_end b ≤ h_base h)); [by left|]. destruct (decide (h_end h ≤ h_base b)); [by right|]. exfalso.
  apply (N (Z.max (h_base b) (h_base h))).
  - apply elem_of_app. left. apply elem_of_spans. exists h. split; [done|]. unfold h_end in *. lia.
  - apply elem_of_app. right. apply elem_of_app. left. apply elem_of_span. unfold h_end in *. lia.
Qed.

(** [free_mem] of a block in use. *)
Definition freed (s : memory) (b : hole) (live : list hole) (r : option (unit * memory)) : Prop :=
  match r with
  | Some (_, s') => mem_ok s' live
  | None => ∃ z, z ∈ zones s ∧ inside z b ∧ free_slots z = 0%nat
  end.

Lemma free_to_holes s b live j z : mem_ok s (b :: live) → zones s !! j = Some z → inside z b →
  freed s b live (match free_slots z with
    | O => stuck
    | S slots => let '(holes, n) := insert_hole (Hole (h_base b) (h_len b)) (hole_head z) in put_holes (Z.of_nat j) z holes (slots + n)
    end s).
Proof.
  intros M Hz Hi. destruct (free_slots z) as [|slots] eqn:Es; [exists z; split; [by eapply list_elem_of_lookup_2|done]|].
  replace (Hole (h_base b) (h_len b)) with b by (by destruct b).
  assert (zone_ok j z) as Zo by (by eapply mo_zone).
  pose proof (mo_live _ _ M) as [(Hb & _) Hl]%Forall_cons.
  destruct (insert_hole_ok b (hole_head z)) as (H1 & H2 & H3); [apply Zo|done|by eapply live_apart|].
  destruct (insert_hole b (hole_head z)) as [holes n]. cbn [fst snd] in *. unfold freed, put_holes, modify.
  rewrite Nat2Z.id. eapply mem_ok_holes; [exact M|exact Hz|done| | |done|].
  - apply Forall_forall. intros h Hh. assert (∀ x, x ∈ span h → z_base z ≤ x < z_limit z) as Hx.
    { intros x Hx. assert (x ∈ spans holes) as Hxs by (apply elem_of_spans; exists h; split; [done|by apply elem_of_span]).
      rewrite H2, spans_cons, elem_of_app in Hxs. destruct Hxs as [Hxs%elem_of_span|(h' & Hh' & Hxs)%elem_of_spans].
      - destruct Hi. lia.
      - pose proof (zo_inside _ _ Zo) as F. rewrite Forall_forall in F. destruct (F _ Hh'). lia. }
    pose proof (canon_ok _ _ H1) as F. rewrite Forall_forall in F. destruct (F h Hh) as (C1 & C2 & _).
    pose proof (Hx (h_base h)) as X1. pose proof (Hx (h_end h - 1)) as X2. rewrite !elem_of_span in X1, X2.
    unfold inside, h_end in *. lia.
  - pose proof (zo_slots _ _ Zo). lia.
  - exists []. cbn [app]. rewrite H2, !spans_cons. apply (Permutation_count_occ Z.eq_dec). intros x. rewrite ?count_occ_app. lia.
Qed.

Lemma free_mem_ok s b live cpu : mem_ok s (b :: live) → 0 ≤ cpu < NR_CPUS →
  freed s b live (free_mem cpu (h_base b) (h_len b) s).
Proof.
  intros M Hc. pose proof (mo_live _ _ M) as [((B1 & B2 & B3) & j & z & Hz & Hi) Hl]%Forall_cons.
  pose proof (lookup_lt_Some _ _ _ Hz) as Hj. rewrite (mo_len _ _ M) in Hj.
  assert (zone_ok j z) as Zo by (by eapply mo_zone).
  unfold free_mem. rewrite (free_in_zone_eq s (b :: live) cpu b _ j z); [|done|done|done|done| |].
  2:{ apply elem_of_seqZ. unfold MEMZONE_MAX. lia. }
  2:{ intros i Hin%elem_of_seqZ. lia. }
  pose proof (free_to_holes s b live j z M Hz Hi) as Hh.
  unfold free_mem_zone. replace (h_len b =? 0) with false by lia.
  unfold get_zone, mbind, ST_bind, gets. rewrite Nat2Z.id, Hz. cbn [deref mret ST_ret]. rewrite (zo_index _ _ Zo).
  unfold freelist_get. destruct (Z.eqb_spec (h_base b mod ARCH_PG_SIZE) 0) as [E1|E1]; [|exact Hh].
  destruct (Z.eqb_spec (h_len b mod ARCH_PG_SIZE) 0) as [E2|E2]; [|exact Hh]. cbn [negb orb].
  rewrite Z.shiftr_div_pow2 by done. change (2 ^ ARCH_PG_SHIFT) with ARCH_PG_SIZE.
  assert (h_len b = ARCH_PG_SIZE * (h_len b / ARCH_PG_SIZE)) as El.
  { rewrite (Z.div_mod (h_len b) ARCH_PG_SIZE) at 1 by done. lia. }
  set (n := h_len b / ARCH_PG_SIZE) in *. unfold h_end in B3.
  rewrite int_of_small by (unfold MAX_PHYS, ARCH_PG_SIZE in *; lia).
  destruct (Z.ltb_spec n MINPAGES) as [|Hn1]; [exact Hh|]. destruct (Z.ltb_spec MAXPAGES n) as [|Hn2]; [exact Hh|]. cbn [orb].
  unfold get_freelist, mbind, ST_bind, gets.
  destruct (mo_lists _ _ M (cpu, Z.of_nat j, freelist_index n)) as [f Hf].
  { apply all_freelists_elem. unfold freelist_index, MINPAGES, MAXPAGES, MEMZONE_MAX in *. lia. }
  rewrite Hf. cbn [deref mret ST_ret]. destruct (Z.leb_spec MAX_FREEPAGES (fl_count f)) as [|Hmax]; [exact Hh|].
  unfold put_freelist, modify. cbn [freed]. pose proof (mo_kept _ _ M _ _ Hf) as [L1 L2 L3 L4]. cbn [fst snd] in *.
  assert (page_block (freelist_index n) (h_base b) = b) as Eb.
  { destruct b as [base len]. unfold page_block, freelist_index. cbn [h_base h_len] in *. f_equal. unfold MINPAGES. lia. }
  eapply mem_ok_list; [exact M|exact Hf| |done|].
  - split; cbn [fl_count fl_list fst snd]; [rewrite L1; simpl; lia|lia|done|]. constructor; [|done]. split; [done|]. split; [done|].
    exists z. rewrite Nat2Z.id. split; [done|]. by rewrite Eb.
  - cbn [snd]. unfold kept. cbn [fl_list]. rewrite fmap_cons, Eb, !spans_cons.
    apply (Permutation_count_occ Z.eq_dec). intros x. rewrite ?count_occ_app. lia.
Qed.

(** * Start-up *)

(** [mem_init] of a zone that is not small enough for the lists of free pages. *)
Record init_range (start size : Z) : Prop := {
  ir_start : 0 < start;
  ir_size : MAXPAGES * ARCH_PG_SIZE < size;
  ir_end : start + size ≤ MAX_PHYS;
}.
Lemma mem_init_eq cpu i start size s : init_range start size → 0 ≤ i < MEMZONE_MAX → length (zones s) = 3%nat →
  mem_init cpu i start size s =
    Some (tt, Memory (<[Z.to_nat i := Zone i start (start + size) [Hole start size] (NR_HOLES - 1)]> (zones s))
                     (list_to_map ((λ k, (k, FreeList [] 0)) <$> all_freelists))).
Proof.
  intros [H1 H2 H3] Hi Hlen. unfold mem_init, free_mem_zone, mbind, ST_bind, modify, ARCH_PG_SIZE, MAXPAGES in *.
  replace (size =? 0) with false by lia. unfold get_zone, mbind, ST_bind, gets. cbn [zones].
  rewrite list_lookup_insert_eq by (rewrite Hlen; unfold MEMZONE_MAX in Hi; lia). cbn [deref mret ST_ret z_index].
  set (m := list_to_map _).
  rewrite (freelist_get_none cpu i start size) by (unfold not_kept, MAXPAGES, ARCH_PG_SIZE; lia).
  cbn [insert_hole merge_hole free_slots hole_head].
  destruct NR_HOLES as [|n] eqn:En; [discriminate En|]. unfold put_holes, modify. cbn [zones freelists z_index z_base z_limit].
  rewrite list_insert_insert_eq. do 3 f_equal. f_equal. f_equal. lia.
Qed.
