(* ===== verification/Fil.v ===== *)
(** The flash firmware of the real-time core: the transaction scheduling unit
    (r5poll/fil/tsu.c), the flash interface layer (r5poll/fil/fil.c), the task
    rings of r5poll/main.c and the answers of the controller (r5poll/fil/nfc.c).

    Tasks are named by their offset in the shared memory.  An intrusive list is
    the list of its members; that a member is on one list at a time is part of the
    invariant of FilFacts.v.  The arrays of channels, chips and dies are functions
    of their indices, which the code checks before it uses them. *)
From stdpp Require Import functions.
From S2P Require Import Prelude Avl Flash.
#[local] Open Scope Z_scope.

(** * Constants *)
Definition BCH_BLOCK_SIZE : Z := 512.
Definition BCH_CODE_SIZE : Z := 20.
Definition MAX_CMD_ADDRS : Z := 4.
Definition FLASH_READ_LATENCY_US : Z := 50.
Definition FLASH_PROGRAM_LATENCY_US : Z := 300.
Definition FLASH_ERASE_LATENCY_US : Z := 1200.
Definition FTS_OK : Z := 0.
Definition FTS_ERROR : Z := 1.
Definition SR_ALLRDY : Z := 0xE0.
Definition UINT64_MAX : Z := 2 ^ 64 - 1.
(** [max_batch_nr] without [ENABLE_MULTIPLANE]. *)
Definition max_batch_nr : Z := 1.

(** * Data *)
Inductive flash_command_code :=
  | FCMD_READ_PAGE | FCMD_READ_PAGE_MULTIPLANE | FCMD_PROGRAM_PAGE | FCMD_PROGRAM_PAGE_MULTIPLANE
  | FCMD_ERASE_BLOCK | FCMD_ERASE_BLOCK_MULTIPLANE.
#[export] Instance flash_command_code_eq_dec : EqDecision flash_command_code.
Proof. solve_decision. Defined.
(** [nr_addrs] is the length of the lists. *)
Record flash_command := Cmd { cmd_code : flash_command_code; addrs : list flash_address; metadata : list Z }.
Inductive bus_status := BUS_IDLE | BUS_BUSY.
#[export] Instance bus_status_eq_dec : EqDecision bus_status.
Proof. solve_decision. Defined.
Inductive chip_status :=
  | CS_IDLE | CS_CMD_DATA_IN | CS_WAIT_FOR_DATA_OUT | CS_DATA_OUT | CS_READING | CS_WRITING | CS_ERASING.
#[export] Instance chip_status_eq_dec : EqDecision chip_status.
Proof. solve_decision. Defined.

(** [struct fil_task] as the real-time core sees it. *)
Record task := Task {
  k_addr : flash_address; k_type : txn_type; k_source : txn_source; k_lpa : Z; k_data : Z; k_code_buf : Z;
  k_offset : Z; k_length : Z; k_code_length : Z; k_completed : bool; k_status : Z; k_xfer_us : Z;
  k_exec_us : Z; k_err_bitmap : Z;
}.
Definition set_lpa x s := Task (k_addr s) (k_type s) (k_source s) x (k_data s) (k_code_buf s) (k_offset s) (k_length s) (k_code_length s) (k_completed s) (k_status s) (k_xfer_us s) (k_exec_us s) (k_err_bitmap s).
Definition set_xfer_us x s := Task (k_addr s) (k_type s) (k_source s) (k_lpa s) (k_data s) (k_code_buf s) (k_offset s) (k_length s) (k_code_length s) (k_completed s) (k_status s) x (k_exec_us s) (k_err_bitmap s).
Definition set_exec_us x s := Task (k_addr s) (k_type s) (k_source s) (k_lpa s) (k_data s) (k_code_buf s) (k_offset s) (k_length s) (k_code_length s) (k_completed s) (k_status s) (k_xfer_us s) x (k_err_bitmap s).
Definition set_err_bitmap x s := Task (k_addr s) (k_type s) (k_source s) (k_lpa s) (k_data s) (k_code_buf s) (k_offset s) (k_length s) (k_code_length s) (k_completed s) (k_status s) (k_xfer_us s) (k_exec_us s) x.

(** [active_cmd] and [current_cmd] are NULL ([false]) or point to [cmd_buf]. *)
Record die_data := Die {
  active_txns : list Z; cmd_buf : flash_command; active_cmd : bool; current_cmd : bool; cmd_finish_time : Z;
  cmd_error : bool; active_xfer : option Z; exec_start_cycle : Z;
}.
Definition set_active_txns x s := Die x (cmd_buf s) (active_cmd s) (current_cmd s) (cmd_finish_time s) (cmd_error s) (active_xfer s) (exec_start_cycle s).
Definition set_cmd_buf x s := Die (active_txns s) x (active_cmd s) (current_cmd s) (cmd_finish_time s) (cmd_error s) (active_xfer s) (exec_start_cycle s).
Definition set_active_cmd x s := Die (active_txns s) (cmd_buf s) x (current_cmd s) (cmd_finish_time s) (cmd_error s) (active_xfer s) (exec_start_cycle s).
Definition set_current_cmd x s := Die (active_txns s) (cmd_buf s) (active_cmd s) x (cmd_finish_time s) (cmd_error s) (active_xfer s) (exec_start_cycle s).
Definition set_finish_time x s := Die (active_txns s) (cmd_buf s) (active_cmd s) (current_cmd s) x (cmd_error s) (active_xfer s) (exec_start_cycle s).
Definition set_cmd_error x s := Die (active_txns s) (cmd_buf s) (active_cmd s) (current_cmd s) (cmd_finish_time s) x (active_xfer s) (exec_start_cycle s).
Definition set_active_xfer x s := Die (active_txns s) (cmd_buf s) (active_cmd s) (current_cmd s) (cmd_finish_time s) (cmd_error s) x (exec_start_cycle s).
Definition set_exec_start x s := Die (active_txns s) (cmd_buf s) (active_cmd s) (current_cmd s) (cmd_finish_time s) (cmd_error s) (active_xfer s) x.

Record chip_data := Chip {
  c_status : chip_status; active_dies : Z; cmd_xfer_queue : list Z; current_xfer : option Z;
  nr_waiting_read_xfers : Z; last_xfer_start : Z;
}.
Definition set_status x s := Chip x (active_dies s) (cmd_xfer_queue s) (current_xfer s) (nr_waiting_read_xfers s) (last_xfer_start s).
Definition set_active_dies x s := Chip (c_status s) x (cmd_xfer_queue s) (current_xfer s) (nr_waiting_read_xfers s) (last_xfer_start s).
Definition set_xfer_queue x s := Chip (c_status s) (active_dies s) x (current_xfer s) (nr_waiting_read_xfers s) (last_xfer_start s).
Definition set_current_xfer x s := Chip (c_status s) (active_dies s) (cmd_xfer_queue s) x (nr_waiting_read_xfers s) (last_xfer_start s).
Definition set_nr_waiting x s := Chip (c_status s) (active_dies s) (cmd_xfer_queue s) (current_xfer s) x (last_xfer_start s).
Definition set_last_start x s := Chip (c_status s) (active_dies s) (cmd_xfer_queue s) (current_xfer s) (nr_waiting_read_xfers s) x.

(** An entry of [die_command_avl]: the die, and what [die_command_comp] compares,
    which does not change while the die is in the tree. *)
Record avl_die := AvlDie { ad_time : Z; ad_unique_id : Z; ad_die : Z * Z * Z }.
Definition ad_key (x : avl_die) : Z * Z := (ad_time x, ad_unique_id x).
Definition die_command_comp (r1 r2 : Z * Z) : Z :=
  if r1.1 <? r2.1 then -1 else if r2.1 <? r1.1 then 1
  else if r1.2 <? r2.2 then -1 else if r2.2 <? r1.2 then 1 else 0.
#[export] Instance die_command_key : OrdKey (Z * Z) := die_command_comp.

(** The queues of a chip. *)
Inductive queue_id :=
  | read_queue | write_queue | mapping_read_queue | mapping_write_queue
  | gc_read_queue | gc_write_queue | gc_erase_queue.
#[export] Instance queue_id_eq_dec : EqDecision queue_id.
Proof. solve_decision. Defined.

(** Commands given to the controller of a channel, and chip enable pins. *)
Inductive nfc_op :=
  | SelectVolume (c w : Z) (enable : bool)
  | ReadPageAddr (c d plane block page col : Z)
  | ReadPage (c : Z)
  | ReadTransfer (c d plane buf len code_buf : Z)
  | ProgramTransfer (c d plane block page col buf len : Z)
  | ProgramPage (c : Z)
  | EraseBlock (c d plane block : Z)
  | ReadStatus (c d plane : Z)
  | IpiTrigger.

(** A channel, chip or die is named by its indices; [clock] and [accesses] count
    the readings of the timer and of the registers of each controller. *)
Record fil := Fil {
  tasks : Z → task; chip_queues : Z * Z * queue_id → list Z; request_count : Z * Z → Z;
  enqueued_requests : Z * Z → Z; channel_rr_index : Z → Z; channel_status : Z → bus_status;
  waiting_read_xfer : Z → list Z; chips : Z * Z → chip_data; dies : Z * Z * Z → die_data;
  chip_in_transfer_list : list (Z * Z); die_command_avl : tree avl_die;
  chip_out_transfer_list : list (Z * Z * Z); used_ring : list Z; ipi_coalesce_counter : Z; clock : nat;
  accesses : Z → nat; nfc_log : list nfc_op;
}.
Definition set_tasks x s := Fil x (chip_queues s) (request_count s) (enqueued_requests s) (channel_rr_index s) (channel_status s) (waiting_read_xfer s) (chips s) (dies s) (chip_in_transfer_list s) (die_command_avl s) (chip_out_transfer_list s) (used_ring s) (ipi_coalesce_counter s) (clock s) (accesses s) (nfc_log s).
Definition set_queues x s := Fil (tasks s) x (request_count s) (enqueued_requests s) (channel_rr_index s) (channel_status s) (waiting_read_xfer s) (chips s) (dies s) (chip_in_transfer_list s) (die_command_avl s) (chip_out_transfer_list s) (used_ring s) (ipi_coalesce_counter s) (clock s) (accesses s) (nfc_log s).
Definition set_count x s := Fil (tasks s) (chip_queues s) x (enqueued_requests s) (channel_rr_index s) (channel_status s) (waiting_read_xfer s) (chips s) (dies s) (chip_in_transfer_list s) (die_command_avl s) (chip_out_transfer_list s) (used_ring s) (ipi_coalesce_counter s) (clock s) (accesses s) (nfc_log s).
Definition set_enqueued x s := Fil (tasks s) (chip_queues s) (request_count s) x (channel_rr_index s) (channel_status s) (waiting_read_xfer s) (chips s) (dies s) (chip_in_transfer_list s) (die_command_avl s) (chip_out_transfer_list s) (used_ring s) (ipi_coalesce_counter s) (clock s) (accesses s) (nfc_log s).
Definition set_rr x s := Fil (tasks s) (chip_queues s) (request_count s) (enqueued_requests s) x (channel_status s) (waiting_read_xfer s) (chips s) (dies s) (chip_in_transfer_list s) (die_command_avl s) (chip_out_transfer_list s) (used_ring s) (ipi_coalesce_counter s) (clock s) (accesses s) (nfc_log s).
Definition set_bus x s := Fil (tasks s) (chip_queues s) (request_count s) (enqueued_requests s) (channel_rr_index s) x (waiting_read_xfer s) (chips s) (dies s) (chip_in_transfer_list s) (die_command_avl s) (chip_out_transfer_list s) (used_ring s) (ipi_coalesce_counter s) (clock s) (accesses s) (nfc_log s).
Definition set_waiting x s := Fil (tasks s) (chip_queues s) (request_count s) (enqueued_requests s) (channel_rr_index s) (channel_status s) x (chips s) (dies s) (chip_in_transfer_list s) (die_command_avl s) (chip_out_transfer_list s) (used_ring s) (ipi_coalesce_counter s) (clock s) (accesses s) (nfc_log s).
Definition set_chips x s := Fil (tasks s) (chip_queues s) (request_count s) (enqueued_requests s) (channel_rr_index s) (channel_status s) (waiting_read_xfer s) x (dies s) (chip_in_transfer_list s) (die_command_avl s) (chip_out_transfer_list s) (used_ring s) (ipi_coalesce_counter s) (clock s) (accesses s) (nfc_log s).
Definition set_dies x s := Fil (tasks s) (chip_queues s) (request_count s) (enqueued_requests s) (channel_rr_index s) (channel_status s) (waiting_read_xfer s) (chips s) x (chip_in_transfer_list s) (die_command_avl s) (chip_out_transfer_list s) (used_ring s) (ipi_coalesce_counter s) (clock s) (accesses s) (nfc_log s).
Definition set_in_list x s := Fil (tasks s) (chip_queues s) (request_count s) (enqueued_requests s) (channel_rr_index s) (channel_status s) (waiting_read_xfer s) (chips s) (dies s) x (die_command_avl s) (chip_out_transfer_list s) (used_ring s) (ipi_coalesce_counter s) (clock s) (accesses s) (nfc_log s).
Definition set_avl x s := Fil (tasks s) (chip_queues s) (request_count s) (enqueued_requests s) (channel_rr_index s) (channel_status s) (waiting_read_xfer s) (chips s) (dies s) (chip_in_transfer_list s) x (chip_out_transfer_list s) (used_ring s) (ipi_coalesce_counter s) (clock s) (accesses s) (nfc_log s).
Definition set_out_list x s := Fil (tasks s) (chip_queues s) (request_count s) (enqueued_requests s) (channel_rr_index s) (channel_status s) (waiting_read_xfer s) (chips s) (dies s) (chip_in_transfer_list s) (die_command_avl s) x (used_ring s) (ipi_coalesce_counter s) (clock s) (accesses s) (nfc_log s).
Definition set_used x s := Fil (tasks s) (chip_queues s) (request_count s) (enqueued_requests s) (channel_rr_index s) (channel_status s) (waiting_read_xfer s) (chips s) (dies s) (chip_in_transfer_list s) (die_command_avl s) (chip_out_transfer_list s) x (ipi_coalesce_counter s) (clock s) (accesses s) (nfc_log s).
Definition set_ipi x s := Fil (tasks s) (chip_queues s) (request_count s) (enqueued_requests s) (channel_rr_index s) (channel_status s) (waiting_read_xfer s) (chips s) (dies s) (chip_in_transfer_list s) (die_command_avl s) (chip_out_transfer_list s) (used_ring s) x (clock s) (accesses s) (nfc_log s).
Definition set_clock x s := Fil (tasks s) (chip_queues s) (request_count s) (enqueued_requests s) (channel_rr_index s) (channel_status s) (waiting_read_xfer s) (chips s) (dies s) (chip_in_transfer_list s) (die_command_avl s) (chip_out_transfer_list s) (used_ring s) (ipi_coalesce_counter s) x (accesses s) (nfc_log s).
Definition set_accesses x s := Fil (tasks s) (chip_queues s) (request_count s) (enqueued_requests s) (channel_rr_index s) (channel_status s) (waiting_read_xfer s) (chips s) (dies s) (chip_in_transfer_list s) (die_command_avl s) (chip_out_transfer_list s) (used_ring s) (ipi_coalesce_counter s) (clock s) x (nfc_log s).
Definition set_log x s := Fil (tasks s) (chip_queues s) (request_count s) (enqueued_requests s) (channel_rr_index s) (channel_status s) (waiting_read_xfer s) (chips s) (dies s) (chip_in_transfer_list s) (die_command_avl s) (chip_out_transfer_list s) (used_ring s) (ipi_coalesce_counter s) (clock s) (accesses s) x.

(** * The hardware *)

(** What registers contain when they are read for the [n]-th time. *)
Class Nfc := {
  pulses_per_us : Z;
  timer : nat → Z;
  status_reg : Z → nat → Z;
  dma_idle : Z → nat → bool;
  err_bitmap_reg : Z → nat → Z;
  (** the status that [read_status_sync] returns *)
  sync_status : Z → nat → Z;
  (** how often a status is read before the controller is idle, at most *)
  patience : nat;
}.

Notation "m ;; k" := (m ≫= λ _, k) (at level 100, k at level 200, right associativity, only parsing).

Section device.
Context `{Nfc}.

Definition timer_get_cycles : ST fil Z :=
  n ← gets clock; modify (set_clock (S n)) ;; mret (timer n).
Definition timer_us_to_cycles (us : Z) : Z :=
  if (2 ^ 32 - 1) / pulses_per_us <=? us then 2 ^ 32 - 1 else u32 (us * pulses_per_us).
Definition timer_cycles_to_us (cycles : Z) : Z :=
  if cycles <? pulses_per_us then 1 else cycles / pulses_per_us.

Definition access (c : Z) : ST fil nat :=
  n ← gets (λ s, accesses s c); modify (λ s, set_accesses (<[c := S n]> (accesses s)) s) ;; mret n.
Definition emit (op : nfc_op) : ST fil unit := modify (λ s, set_log (nfc_log s ++ [op]) s).

(** [None] is [-EAGAIN]; else the result and [*error]. *)
Definition nfc_check_status (c : Z) : ST fil (option (bool * bool)) :=
  n ← access c;
  let status := status_reg c n in
  if negb (Z.testbit status 8) then mret None
  else if Z.testbit status 11 then mret (Some (true, true))
  else
    let status := Z.land status 0xff in
    mret (Some (status =? SR_ALLRDY, negb (Z.land status 3 =? 0))).
Definition nfc_transfer_done (c : Z) : ST fil bool :=
  n ← access c; mret (Z.testbit (status_reg c n) 8 && dma_idle c n).
(** The controller reports the last block first. *)
Fixpoint reverse_bitmap (blocks : Z) (bitmap : Z) (l : list Z) : Z :=
  match l with
  | [] => 0
  | i :: l =>
      let r := reverse_bitmap blocks bitmap l in
      if Z.testbit bitmap (blocks - 1 - i) then Z.lor r (Z.shiftl 1 i) else r
  end.
Definition nfc_complete_transfer (c len : Z) : ST fil Z :=
  n ← access c;
  let blocks := len / BCH_BLOCK_SIZE in
  mret (u64 (reverse_bitmap blocks (err_bitmap_reg c n) (seqZ 0 blocks))).
Definition nfc_cmd_read_transfer (c d plane buf len code_buf : Z) : ST fil unit :=
  n ← access c;
  assert (sync_status c n =? SR_ALLRDY) ;;
  emit (ReadTransfer c d plane buf len code_buf).

(** * Tasks and their completion *)
Definition get_task (t : Z) : ST fil task := gets (λ s, tasks s t).
Definition upd_task (t : Z) (f : task → task) : ST fil unit :=
  modify (λ s, set_tasks (<[t := f (tasks s t)]> (tasks s)) s).
Definition get_die (k : Z * Z * Z) : ST fil die_data := gets (λ s, dies s k).
Definition upd_die (k : Z * Z * Z) (f : die_data → die_data) : ST fil unit :=
  modify (λ s, set_dies (<[k := f (dies s k)]> (dies s)) s).
Definition get_chip (k : Z * Z) : ST fil chip_data := gets (λ s, chips s k).
Definition upd_chip (k : Z * Z) (f : chip_data → chip_data) : ST fil unit :=
  modify (λ s, set_chips (<[k := f (chips s k)]> (chips s)) s).
Definition get_queue (q : Z * Z * queue_id) : ST fil (list Z) := gets (λ s, chip_queues s q).
Definition put_queue (q : Z * Z * queue_id) (l : list Z) : ST fil unit :=
  modify (λ s, set_queues (<[q := l]> (chip_queues s)) s).
Definition set_channel_status (c : Z) (b : bus_status) : ST fil unit :=
  modify (λ s, set_bus (<[c := b]> (channel_status s)) s).

(** [ringq_add_used; ringq_write_used_tail] *)
Definition enqueue_response (t : Z) : ST fil unit :=
  k ← get_task t;
  assert (k_completed k) ;;
  modify (λ s, set_used (used_ring s ++ [t]) s) ;;
  modify (λ s, set_ipi (ipi_coalesce_counter s + 1) s).
Definition completed_task (error : bool) (k : task) : task :=
  Task (k_addr k) (k_type k) (k_source k) (k_lpa k) (k_data k) (k_code_buf k) (k_offset k) (k_length k)
    (k_code_length k) true (if error then FTS_ERROR else FTS_OK)
    (timer_cycles_to_us (k_xfer_us k)) (timer_cycles_to_us (k_exec_us k)) (k_err_bitmap k).
Definition notify_task_complete (t : Z) (error : bool) : ST fil unit :=
  upd_task t (completed_task error) ;; enqueue_response t.

(** * The state of the dies *)
Definition in_bounds (c w d : Z) : bool :=
  (0 <=? c) && (c <? NR_CHANNELS) && (0 <=? w) && (w <? CHIPS_PER_CHANNEL) && (0 <=? d) && (d <? DIES_PER_CHIP).
Definition is_read_cmd (c : flash_command_code) : bool :=
  match c with FCMD_READ_PAGE | FCMD_READ_PAGE_MULTIPLANE => true | _ => false end.
(** A command of this die that a program command must not be issued before. *)
Definition blocks_program (x : die_data) : bool :=
  active_cmd x && (is_read_cmd (cmd_code (cmd_buf x)) || negb (current_cmd x)).
Definition fil_is_die_busy (c w d : Z) (is_program : bool) : ST fil bool :=
  assert (in_bounds c w d) ;;
  s ← get;
  if is_program && existsb (λ i, blocks_program (dies s (c, w, i))) (seqZ 0 DIES_PER_CHIP) then mret true
  else mret (active_cmd (dies s (c, w, d))).
Definition fil_is_channel_busy (c : Z) : ST fil bool :=
  assert ((0 <=? c) && (c <? NR_CHANNELS)) ;;
  s ← get; mret (bool_decide (channel_status s c ≠ BUS_IDLE)).

Definition unique_id (k : Z * Z * Z) : Z :=
  let '(c, w, i) := k in (c * CHIPS_PER_CHANNEL + w) * DIES_PER_CHIP + i.
Definition get_command_latency_us (code : flash_command_code) : Z :=
  match code with
  | FCMD_READ_PAGE | FCMD_READ_PAGE_MULTIPLANE => FLASH_READ_LATENCY_US
  | FCMD_PROGRAM_PAGE | FCMD_PROGRAM_PAGE_MULTIPLANE => FLASH_PROGRAM_LATENCY_US
  | FCMD_ERASE_BLOCK | FCMD_ERASE_BLOCK_MULTIPLANE => FLASH_ERASE_LATENCY_US
  end.
(** [timer_get_cycles() - start] as [unsigned int] *)
Definition elapsed (timestamp start : Z) : Z := u32 (timestamp - start).

Definition start_die_command (ck : Z * Z) (die_nr : Z) : ST fil unit :=
  x ← get_die (ck, die_nr);
  a ← deref (head (addrs (cmd_buf x)));
  let k := (ck, die a) in
  now ← timer_get_cycles;
  let finish := u64 (now + timer_us_to_cycles (get_command_latency_us (cmd_code (cmd_buf x)))) in
  upd_die k (λ x, set_cmd_error false (set_current_cmd true (set_finish_time finish (set_exec_start now x)))) ;;
  match cmd_code (cmd_buf x) with
  | FCMD_READ_PAGE => emit (ReadPage ck.1)
  | FCMD_PROGRAM_PAGE => emit (ProgramPage ck.1)
  | _ => mret tt
  end ;;
  modify (λ s, set_avl (avl_insert ad_key (AvlDie finish (unique_id k) k) (die_command_avl s)) s) ;;
  upd_chip ck (λ x, set_active_dies (u32 (active_dies x + 1)) x).

Definition start_step (k : task) : Z := k_offset k / BCH_BLOCK_SIZE.
Definition nr_steps (k : task) : Z := u32 (k_length k + BCH_BLOCK_SIZE - 1) / BCH_BLOCK_SIZE.
(** The column of the first ECC block of a page. *)
Definition block_column (k : task) : Z := u32 (start_step k * (BCH_BLOCK_SIZE + BCH_CODE_SIZE)).

Definition start_data_out_transfer (c : Z) : ST fil unit :=
  s ← get;
  if bool_decide (channel_status s c ≠ BUS_IDLE) then mret tt
  else
    match waiting_read_xfer s c with
    | [] => mret tt
    | t :: rest =>
        modify (λ s, set_waiting (<[c := rest]> (waiting_read_xfer s)) s) ;;
        k ← get_task t;
        let ck := (c, chip (k_addr k)) in
        let dk := (ck, die (k_addr k)) in
        x ← get_die dk;
        assert (bool_decide (active_xfer x = None)) ;;
        upd_chip ck (set_status CS_DATA_OUT) ;;
        upd_die dk (set_active_xfer (Some t)) ;;
        set_channel_status c BUS_BUSY ;;
        assert (bool_decide (k_type k = TXN_READ)) ;;
        emit (SelectVolume c ck.2 true) ;;
        now ← timer_get_cycles;
        upd_chip ck (set_last_start now) ;;
        (if negb (k_code_length k =? 0) then
           nfc_cmd_read_transfer c (die (k_addr k)) (plane (k_addr k))
             (u64 (k_data k + start_step k * BCH_BLOCK_SIZE)) (u32 (nr_steps k * BCH_BLOCK_SIZE))
             (u64 (k_code_buf k + start_step k * BCH_CODE_SIZE))
         else
           nfc_cmd_read_transfer c (die (k_addr k)) (plane (k_addr k))
             (k_data k) (u32 (nr_steps k * BCH_BLOCK_SIZE)) 0) ;;
        modify (λ s, set_out_list (chip_out_transfer_list s ++ [dk]) s)
    end.

(** ** Transfers of commands, and what follows them

    [start_cmd_data_transfer], [complete_chip_transfer], [fil_dispatch] and the
    scheduler call each other: the end of a transfer makes the channel idle, which
    lets the scheduler dispatch the next command.  Each body takes the functions
    it calls as arguments; the knot is tied in [start_cmd_data_transfer]. *)
Section bodies.
Context (start_cmd : Z * Z → ST fil unit).   (* start_cmd_data_transfer *)
Context (notify_idle : Z → ST fil unit).      (* tsu_notify_channel_idle *)

Definition complete_chip_transfer_body (ck : Z * Z) (timestamp : Z) : ST fil unit :=
  y ← get_chip ck;
  i ← deref (current_xfer y);
  x ← get_die (ck, i);
  h ← deref (head (active_txns x));
  k ← get_task h;
  let xfer_time := elapsed timestamp (last_xfer_start y) in
  upd_chip ck (set_current_xfer None) ;;
  for_each (active_txns x) (λ t, upd_task t (λ k, set_xfer_us (u32 (k_xfer_us k + xfer_time)) k)) ;;
  start_die_command ck i ;;
  emit (SelectVolume ck.1 ck.2 false) ;;
  y ← get_chip ck;
  match cmd_xfer_queue y with
  | _ :: _ => start_cmd ck
  | [] =>
      match k_type k with
      | TXN_READ => upd_chip ck (set_status CS_READING)
      | TXN_WRITE => upd_chip ck (set_status CS_WRITING)
      | TXN_ERASE => upd_chip ck (set_status CS_ERASING)
      | TXN_DUMP => mret tt
      end ;;
      set_channel_status (channel (k_addr k)) BUS_IDLE ;;
      notify_idle (channel (k_addr k))
  end.

Definition start_cmd_data_transfer_body (complete : Z * Z → Z → ST fil unit) (ck : Z * Z) : ST fil unit :=
  now ← timer_get_cycles;
  y ← get_chip ck;
  assert (bool_decide (current_xfer y = None)) ;;
  match cmd_xfer_queue y with
  | [] => mret tt
  | i :: rest =>
      upd_chip ck (λ y, set_current_xfer (Some i) (set_status CS_CMD_DATA_IN (set_xfer_queue rest y))) ;;
      x ← get_die (ck, i);
      h ← deref (head (active_txns x));
      emit (SelectVolume ck.1 ck.2 true) ;;
      upd_chip ck (set_last_start now) ;;
      k ← get_task h;
      let a := k_addr k in
      completed ← (match cmd_code (cmd_buf x) with
        | FCMD_READ_PAGE =>
            emit (ReadPageAddr ck.1 (die a) (plane a) (block a) (page a)
                    (if 0 <? k_code_length k then block_column k else k_offset k)) ;; mret true
        | FCMD_PROGRAM_PAGE =>
            emit (ProgramTransfer ck.1 (die a) (plane a) (block a) (page a) (block_column k)
                    (u64 (k_data k + start_step k * BCH_BLOCK_SIZE)) (u32 (nr_steps k * BCH_BLOCK_SIZE))) ;; mret false
        | FCMD_ERASE_BLOCK => emit (EraseBlock ck.1 (die a) (plane a) (block a)) ;; mret true
        | _ => mret false   (* Unsupported flash command *)
        end);
      if completed : bool then complete ck now
      else modify (λ s, set_in_list (chip_in_transfer_list s ++ [ck]) s)
  end.

Definition command_code (type : txn_type) (txn_count : Z) (old : flash_command_code) : flash_command_code :=
  match type with
  | TXN_READ => if txn_count =? 1 then FCMD_READ_PAGE else FCMD_READ_PAGE_MULTIPLANE
  | TXN_WRITE => if txn_count =? 1 then FCMD_PROGRAM_PAGE else FCMD_PROGRAM_PAGE_MULTIPLANE
  | TXN_ERASE => if txn_count =? 1 then FCMD_ERASE_BLOCK else FCMD_ERASE_BLOCK_MULTIPLANE
  | TXN_DUMP => old
  end.

Definition fil_dispatch_body (txn_list : list Z) : ST fil unit :=
  match txn_list with
  | [] => mret tt
  | h :: _ =>
      s ← get;
      let a := k_addr (tasks s h) in
      let ck := (channel a, chip a) in
      let dk := (ck, die a) in
      let x := dies s dk in
      assert (negb (active_cmd x)) ;;
      assert (bool_decide (channel_status s (channel a) = BUS_IDLE) || bool_decide (current_xfer (chips s ck) ≠ None)) ;;
      assert (Z.of_nat (length txn_list) <=? MAX_CMD_ADDRS) ;;
      let code := command_code (k_type (tasks s h)) (Z.of_nat (length txn_list)) (cmd_code (cmd_buf x)) in
      upd_die dk (λ x, set_active_txns (txn_list ++ active_txns x)
        (set_cmd_buf (Cmd code ((λ t, k_addr (tasks s t)) <$> txn_list) ((λ t, k_lpa (tasks s t)) <$> txn_list))
          (set_active_cmd true x))) ;;
      set_channel_status (channel a) BUS_BUSY ;;
      upd_chip ck (λ y, set_xfer_queue (cmd_xfer_queue y ++ [die a]) y) ;;
      start_cmd ck
  end.
End bodies.

(** ** The scheduler *)
Section tsu.
Context (dispatch : list Z → ST fil unit).   (* fil_dispatch *)

(** One candidate for each die: the first loop of [dispatch_queue_request]. *)
Fixpoint select_candidates (l : list Z) (heads : Z → option Z) (die_bitmap : Z) : ST fil (Z → option Z) :=
  match l with
  | [] => mret heads
  | t :: l =>
      k ← get_task t;
      let a := k_addr k in
      let is_write := bool_decide (k_type k = TXN_WRITE) in
      if Z.testbit die_bitmap (die a) then select_candidates l heads die_bitmap
      else
        busy ← fil_is_die_busy (channel a) (chip a) (die a) is_write;
        let heads := if busy : bool then heads else <[die a := Some t]> heads in
        if negb busy && is_write then mret heads
        else
          let die_bitmap := Z.setbit die_bitmap (die a) in
          if die_bitmap =? Z.shiftl 1 DIES_PER_CHIP - 1 then mret heads
          else select_candidates l heads die_bitmap
  end.

(** The commands of a queue that can go into the batch of a die. *)
Fixpoint pack (q : Z * Z * queue_id) (l : list Z) (die_nr page_nr : Z) (batch : list Z) (plane_bitmap : Z) :
    ST fil (list Z * Z) :=
  match l with
  | [] => mret (batch, plane_bitmap)
  | t :: l =>
      k ← get_task t;
      let a := k_addr k in
      '(batch, plane_bitmap) ← (
        if (die a =? die_nr) && negb (Z.testbit plane_bitmap (plane a)) &&
           ((plane_bitmap =? 0) || (page a =? page_nr)) then
          ql ← get_queue q; put_queue q (list_del t ql) ;;
          mret (batch ++ [t], Z.setbit plane_bitmap (plane a))
        else mret (batch, plane_bitmap));
      if max_batch_nr <=? Z.of_nat (length batch) then mret (batch, plane_bitmap)
      else pack q l die_nr page_nr batch plane_bitmap
  end.

Definition make_batch (q_prim : Z * Z * queue_id) (q_sec : option (Z * Z * queue_id)) (die_nr page_nr : Z) : ST fil (list Z) :=
  l ← get_queue q_prim;
  '(batch, plane_bitmap) ← pack q_prim l die_nr page_nr [] 0;
  match q_sec with
  | Some q =>
      if Z.of_nat (length batch) <? max_batch_nr then
        l ← get_queue q;
        '(batch, _) ← pack q l die_nr page_nr batch plane_bitmap; mret batch
      else mret batch
  | None => mret batch
  end.

Fixpoint dispatch_dies (ds : list Z) (heads : Z → option Z) (q_prim : Z * Z * queue_id)
    (q_sec : option (Z * Z * queue_id)) (found : Z) : ST fil Z :=
  match ds with
  | [] => mret found
  | d :: ds =>
      match heads d with
      | None => dispatch_dies ds heads q_prim q_sec found
      | Some h =>
          k ← get_task h;
          busy ← fil_is_die_busy (channel (k_addr k)) (chip (k_addr k)) d (bool_decide (k_type k = TXN_WRITE));
          if busy : bool then dispatch_dies ds heads q_prim q_sec found
          else
            batch ← make_batch q_prim q_sec d (page (k_addr k));
            do_if (bool_decide (batch ≠ [])) (dispatch batch) ;;
            k ← get_task h;
            busy ← fil_is_channel_busy (channel (k_addr k));
            let found := found + Z.of_nat (length batch) in
            if busy : bool then mret found else dispatch_dies ds heads q_prim q_sec found
      end
  end.

Definition dispatch_queue_request (q_prim : Z * Z * queue_id) (q_sec : option (Z * Z * queue_id)) : ST fil Z :=
  l ← get_queue q_prim;
  heads ← select_candidates l (λ _, None) 0;
  dispatch_dies (seqZ 0 DIES_PER_CHIP) heads q_prim q_sec 0.

Definition nonempty (s : fil) (c w : Z) (q : queue_id) : bool := bool_decide (chip_queues s (c, w, q) ≠ []).
(** The first of two queues that holds a request. *)
Definition second_queue (s : fil) (c w : Z) (q1 q2 : queue_id) : option (Z * Z * queue_id) :=
  if nonempty s c w q1 then Some (c, w, q1) else if nonempty s c w q2 then Some (c, w, q2) else None.
Definition gc_queue (s : fil) (c w : Z) (q : queue_id) : option (Z * Z * queue_id) :=
  if nonempty s c w q then Some (c, w, q) else None.
Definition account_found (c w found : Z) : ST fil bool :=
  modify (λ s, set_count (<[(c, w) := request_count s (c, w) - found]> (request_count s)) s) ;;
  mret (0 <? found).

Definition dispatch_read_request (c w : Z) : ST fil bool :=
  s ← get;
  let go q_prim q_sec := dispatch_queue_request (c, w, q_prim) q_sec ≫= account_found c w in
  if nonempty s c w mapping_read_queue then go mapping_read_queue (second_queue s c w read_queue gc_read_queue)
  else if nonempty s c w read_queue then go read_queue (gc_queue s c w gc_read_queue)
  else if nonempty s c w write_queue then mret false
  else if nonempty s c w gc_read_queue then go gc_read_queue None
  else mret false.

Definition dispatch_write_request (c w : Z) : ST fil bool :=
  s ← get;
  let go q_prim q_sec := dispatch_queue_request (c, w, q_prim) q_sec ≫= account_found c w in
  if nonempty s c w mapping_write_queue then go mapping_write_queue (second_queue s c w write_queue gc_write_queue)
  else if nonempty s c w write_queue then go write_queue (gc_queue s c w gc_write_queue)
  else if nonempty s c w gc_write_queue then go gc_write_queue None
  else mret false.

Definition dispatch_erase_request (c w : Z) : ST fil bool :=
  s ← get;
  if nonempty s c w gc_erase_queue then dispatch_queue_request (c, w, gc_erase_queue) None ≫= account_found c w
  else mret false.

Definition dispatch_request (c w : Z) : ST fil unit :=
  r ← dispatch_read_request c w;
  if r : bool then mret tt
  else
    r ← dispatch_write_request c w;
    if r : bool then mret tt else dispatch_erase_request c w ;; mret tt.

(** The loop of [tsu_flush_channel]; [n] chips remain. *)
Fixpoint flush_chips (n : nat) (c : Z) : ST fil unit :=
  match n with
  | O => mret tt
  | S n =>
      s ← get;
      let chip_id := channel_rr_index s c in
      do_if (negb (request_count s (c, chip_id) =? 0)) (dispatch_request c chip_id) ;;
      modify (λ s, set_rr (<[c := (channel_rr_index s c + 1) mod CHIPS_ENABLED_PER_CHANNEL]> (channel_rr_index s)) s) ;;
      busy ← fil_is_channel_busy c;
      if busy : bool then mret tt else flush_chips n c
  end.
Definition flush_channel_body (c : Z) : ST fil unit := flush_chips (Z.to_nat CHIPS_ENABLED_PER_CHANNEL) c.
End tsu.

Fixpoint start_cmd_data_transfer (fuel : nat) (ck : Z * Z) : ST fil unit :=
  match fuel with
  | O => stuck
  | S fuel =>
      let start_cmd := start_cmd_data_transfer fuel in
      start_cmd_data_transfer_body
        (complete_chip_transfer_body start_cmd (flush_channel_body (fil_dispatch_body start_cmd))) ck
  end.

(** Every call between them takes a request from a queue. *)
Definition all_queues : list (Z * Z * queue_id) :=
  c ← seqZ 0 NR_CHANNELS; w ← seqZ 0 CHIPS_PER_CHANNEL;
  q ← [read_queue; write_queue; mapping_read_queue; mapping_write_queue; gc_read_queue; gc_write_queue; gc_erase_queue];
  mret (c, w, q).
Definition queued (s : fil) : list Z := q ← all_queues; chip_queues s q.
Definition with_fuel (f : nat → ST fil unit) : ST fil unit := λ s, f (S (length (queued s))) s.

Definition tsu_flush_channel (c : Z) : ST fil unit :=
  with_fuel (λ n, flush_channel_body (fil_dispatch_body (start_cmd_data_transfer n)) c).
Definition tsu_notify_channel_idle (c : Z) : ST fil unit := tsu_flush_channel c.
Definition tsu_notify_chip_idle (c w : Z) : ST fil unit :=
  busy ← fil_is_channel_busy c;
  if busy : bool then mret tt
  else with_fuel (λ n, dispatch_request (fil_dispatch_body (start_cmd_data_transfer n)) c w).
Definition complete_chip_transfer (ck : Z * Z) (timestamp : Z) : ST fil unit :=
  with_fuel (λ n, complete_chip_transfer_body (start_cmd_data_transfer n)
    (flush_channel_body (fil_dispatch_body (start_cmd_data_transfer n))) ck timestamp).

Definition tsu_flush_queues : ST fil unit :=
  for_each (seqZ 0 NR_CHANNELS) (λ c,
    busy ← fil_is_channel_busy c;
    if busy : bool then mret tt else tsu_flush_channel c).

(** The queue of a task; [None] is the failed assertion. *)
Definition task_queue (type : txn_type) (source : txn_source) : option queue_id :=
  match type, source with
  | TXN_READ, TS_USER_IO => Some read_queue
  | TXN_READ, TS_MAPPING => Some mapping_read_queue
  | TXN_READ, TS_GC => Some gc_read_queue
  | TXN_WRITE, TS_USER_IO => Some write_queue
  | TXN_WRITE, TS_MAPPING => Some mapping_write_queue
  | TXN_WRITE, TS_GC => Some gc_write_queue
  | TXN_ERASE, _ => Some gc_erase_queue
  | TXN_DUMP, _ => None
  end.
Definition addr_in_range (a : flash_address) : bool :=
  (0 <=? channel a) && (channel a <? NR_CHANNELS) && (0 <=? chip a) && (chip a <? CHIPS_ENABLED_PER_CHANNEL).
Definition tsu_process_task (t : Z) : ST fil unit :=
  k ← get_task t;
  let a := k_addr k in
  if negb (addr_in_range a) then notify_task_complete t true
  else
    q ← deref (task_queue (k_type k) (k_source k));
    l ← get_queue (channel a, chip a, q);
    put_queue (channel a, chip a, q) (list_add_tail t l) ;;
    modify (λ s, set_count (<[(channel a, chip a) := request_count s (channel a, chip a) + 1]> (request_count s)) s) ;;
    modify (λ s, set_enqueued (<[(channel a, chip a) := u32 (enqueued_requests s (channel a, chip a) + 1)]> (enqueued_requests s)) s).

(** ** Completions *)
Definition complete_die_command (dk : Z * Z * Z) (error : bool) (timestamp : Z) : ST fil unit :=
  let ck := dk.1 in
  let c := ck.1 in
  x ← get_die dk;
  let exec_cycles := elapsed timestamp (exec_start_cycle x) in
  upd_chip ck (λ y, set_active_dies (u32 (active_dies y - 1)) y) ;;
  upd_die dk (λ x, set_finish_time UINT64_MAX (set_current_cmd false x)) ;;
  txn_completed ← (
    if is_read_cmd (cmd_code (cmd_buf x)) && negb error then
      y ← get_chip ck;
      do_if (active_dies y =? 0) (upd_chip ck (set_status CS_WAIT_FOR_DATA_OUT)) ;;
      for_each (active_txns x) (λ t,
        upd_task t (λ k, set_exec_us (u32 (k_exec_us k + exec_cycles)) k) ;;
        upd_chip ck (λ y, set_nr_waiting (u32 (nr_waiting_read_xfers y + 1)) y) ;;
        modify (λ s, set_waiting (<[c := waiting_read_xfer s c ++ [t]]> (waiting_read_xfer s)) s)) ;;
      start_data_out_transfer c ;;
      mret false
    else mret true);
  (if txn_completed : bool then
     for_each (active_txns x) (λ t,
       upd_task t (λ k, set_exec_us (u32 (k_exec_us k + exec_cycles)) k) ;;
       notify_task_complete t error) ;;
     upd_die dk (λ x, set_active_cmd false (set_active_txns [] x)) ;;
     y ← get_chip ck;
     do_if (active_dies y =? 0) (upd_chip ck (set_status CS_IDLE))
   else mret tt) ;;
  s ← get;
  do_if (bool_decide (channel_status s c = BUS_IDLE)) (tsu_notify_channel_idle c) ;;
  y ← get_chip ck;
  do_if (bool_decide (c_status y = CS_IDLE)) (tsu_notify_chip_idle c ck.2).

(** The logical address recorded for a plane by the last entry of the command. *)
Definition metadata_of (cmd : flash_command) (plane_nr old : Z) : Z :=
  foldl (λ lpa p, if plane p.1 =? plane_nr then p.2 else lpa) old (zip (addrs cmd) (metadata cmd)).

Definition complete_data_out_transfer (dk : Z * Z * Z) (timestamp : Z) : ST fil unit :=
  let ck := dk.1 in
  let c := ck.1 in
  x ← get_die dk;
  t ← deref (active_xfer x);
  k ← get_task t;
  bitmap ← nfc_complete_transfer c (k_length k);
  emit (SelectVolume c ck.2 false) ;;
  y ← get_chip ck;
  upd_task t (λ k, set_lpa (metadata_of (cmd_buf x) (plane (k_addr k)) (k_lpa k))
    (set_err_bitmap (u64 (Z.shiftl bitmap (start_step k)))
      (set_xfer_us (u32 (k_xfer_us k + elapsed timestamp (last_xfer_start y))) k))) ;;
  upd_die dk (set_active_xfer None) ;;
  upd_die dk (λ x, set_active_txns (list_del t (active_txns x)) x) ;;
  notify_task_complete t false ;;
  x ← get_die dk;
  do_if (bool_decide (active_txns x = [])) (upd_die dk (set_active_cmd false)) ;;
  y ← get_chip ck;
  do_if (active_dies y =? 0) (
    upd_chip ck (λ y, set_nr_waiting (u32 (nr_waiting_read_xfers y - 1)) y) ;;
    y ← get_chip ck;
    upd_chip ck (set_status (if nr_waiting_read_xfers y =? 0 then CS_IDLE else CS_WAIT_FOR_DATA_OUT))) ;;
  set_channel_status c BUS_IDLE ;;
  tsu_notify_channel_idle c.

(** ** Polling the dies *)

(** [status_busy] and the lists of dies to poll, by channel. *)
Definition polls : Type := Z * (Z → list (Z * Z * Z)).

Definition read_status_of (dk : Z * Z * Z) : ST fil unit :=
  x ← get_die dk;
  a ← deref (head (addrs (cmd_buf x)));
  emit (SelectVolume dk.1.1 dk.1.2 true) ;;
  emit (ReadStatus dk.1.1 dk.2 (plane a)).

(** The loop over the tree, in the order of the finish times. *)
Fixpoint collect_due (fuel : nat) (it : avl_iter avl_die) (now : Z) (p : polls) : ST fil polls :=
  match avl_get_iter it with
  | None => mret p
  | Some x =>
      match fuel with
      | O => stuck
      | S fuel =>
          let dk := ad_die x in
          let c := dk.1.1 in
          y ← get_die dk;
          if now <? cmd_finish_time y then mret p
          else
            s ← get;
            if bool_decide (channel_status s c ≠ BUS_IDLE) then collect_due fuel (avl_inc_iter it) now p
            else
              '(status_busy, lists) ← (
                if Z.testbit p.1 c then mret p
                else read_status_of dk ;; mret (Z.setbit p.1 c, <[c := []]> p.2));
              collect_due fuel (avl_inc_iter it) now (status_busy, <[c := lists c ++ [dk]]> lists)
      end
  end.

(** One channel in the body of the polling loop. *)
Definition poll_channel (c : Z) (pl : polls * list (Z * Z * Z)) : ST fil (polls * list (Z * Z * Z)) :=
  let '((status_busy, lists), ready_list) := pl in
  if negb (Z.testbit status_busy c) then mret pl
  else
    dk ← deref (head (lists c));
    r ← nfc_check_status c;
    match r with
    | None => mret pl
    | Some (ready, error) =>
        emit (SelectVolume dk.1.1 dk.1.2 false) ;;
        let rest := tail (lists c) in
        x ← get_die dk;
        let error := if is_read_cmd (cmd_code (cmd_buf x)) then false else error in
        ready_list ← (
          if ready || error then
            upd_die dk (set_cmd_error error) ;; mret (ready_list ++ [dk])
          else mret ready_list);
        let lists := <[c := rest]> lists in
        match rest with
        | dk' :: _ => read_status_of dk' ;; mret ((status_busy, lists), ready_list)
        | [] => mret ((Z.clearbit status_busy c, lists), ready_list)
        end
    end.
Fixpoint poll_channels (cs : list Z) (pl : polls * list (Z * Z * Z)) : ST fil (polls * list (Z * Z * Z)) :=
  match cs with [] => mret pl | c :: cs => pl ← poll_channel c pl; poll_channels cs pl end.
Fixpoint poll_loop (fuel : nat) (pl : polls * list (Z * Z * Z)) : ST fil (list (Z * Z * Z)) :=
  if pl.1.1 =? 0 then mret pl.2
  else
    match fuel with
    | O => stuck
    | S fuel => pl ← poll_channels (seqZ 0 NR_CHANNELS) pl; poll_loop fuel pl
    end.

Definition die_command_get_completion (now : Z) : ST fil (list (Z * Z * Z)) :=
  root ← gets die_command_avl;
  let n := length (inorder root) in
  p ← collect_due n (avl_start_iter ad_key root (0, 0) AVL_GREATER) now (0, λ _, []);
  poll_loop (S patience * S n) (p, []).

(** [list_for_each_entry_safe]: the successor is read before the body runs, and
    a node that was deleted is its own successor. *)
Fixpoint next_in {A} `{EqDecision A} (x : A) (l : list A) : option (option A) :=
  match l with [] => None | y :: l => if decide (x = y) then Some (head l) else next_in x l end.
Fixpoint for_each_safe {A} `{EqDecision A} (fuel : nat) (members : fil → list A) (body : A → ST fil unit)
    (pos : option A) : ST fil unit :=
  match pos with
  | None => mret tt
  | Some x =>
      match fuel with
      | O => stuck
      | S fuel =>
          s ← get;
          n ← deref (next_in x (members s));
          body x ;; for_each_safe fuel members body n
      end
  end.

Definition finish_in_transfer (now : Z) (ck : Z * Z) : ST fil unit :=
  done ← nfc_transfer_done ck.1;
  do_if done (
    modify (λ s, set_in_list (list_del ck (chip_in_transfer_list s)) s) ;;
    complete_chip_transfer ck now).
Definition finish_die_command (now : Z) (dk : Z * Z * Z) : ST fil unit :=
  x ← get_die dk;
  modify (λ s, set_avl (avl_erase ad_key (AvlDie (cmd_finish_time x) (unique_id dk) dk) (die_command_avl s)) s) ;;
  complete_die_command dk (cmd_error x) now.
Definition finish_out_transfer (now : Z) (dk : Z * Z * Z) : ST fil unit :=
  done ← nfc_transfer_done dk.1.1;
  do_if done (
    modify (λ s, set_out_list (list_del dk (chip_out_transfer_list s)) s) ;;
    complete_data_out_transfer dk now).
Definition serve_channel (c : Z) : ST fil unit :=
  start_data_out_transfer c ;;
  s ← get;
  do_if (bool_decide (channel_status s c = BUS_IDLE)) (tsu_notify_channel_idle c).

Definition check_completion : ST fil unit :=
  now ← timer_get_cycles;
  s ← get;
  for_each_safe (length (chip_in_transfer_list s) + length (queued s)) chip_in_transfer_list
    (finish_in_transfer now) (head (chip_in_transfer_list s)) ;;
  ready ← die_command_get_completion now;
  for_each ready (finish_die_command now) ;;
  s ← get;
  for_each_safe (length (chip_out_transfer_list s)) chip_out_transfer_list
    (finish_out_transfer now) (head (chip_out_transfer_list s)) ;;
  for_each (seqZ 0 NR_CHANNELS) serve_channel.
Definition fil_tick : ST fil unit := check_completion.

(** * The main loop *)
Definition dequeue_request (t : Z) : ST fil unit :=
  k ← get_task t;
  if bool_decide (k_type k = TXN_DUMP) then notify_task_complete t false else tsu_process_task t.
(** The tasks that the FTL core put on the ring, each written before it is
    enqueued. *)
Definition arrive (new : list (Z * task)) : ST fil unit :=
  for_each new (λ tk, upd_task tk.1 (λ _, tk.2)).
Definition signal_ftl : ST fil unit :=
  n ← gets ipi_coalesce_counter;
  do_if (1 <=? n) (emit IpiTrigger ;; modify (set_ipi 0)).
Definition main_loop (new : list (Z * task)) : ST fil unit :=
  arrive new ;;
  for_each new.*1 dequeue_request ;;
  do_if (bool_decide (new ≠ [])) tsu_flush_queues ;;
  fil_tick ;;
  signal_ftl.
End device.

(** * Start-up *)
Definition no_address : flash_address := Addr 0 0 0 0 0 0.
Definition no_task : task := Task no_address TXN_READ TS_USER_IO 0 0 0 0 0 0 false 0 0 0 0.
Definition die_init : die_data := Die [] (Cmd FCMD_READ_PAGE [] []) false false 0 false None 0.
Definition chip_init : chip_data := Chip CS_IDLE 0 [] None 0 0.
(** After [tsu_init] and [fil_init]. *)
Definition fil_init : fil :=
  Fil (λ _, no_task) (λ _, []) (λ _, 0) (λ _, 0) (λ _, 0) (λ _, BUS_IDLE) (λ _, []) (λ _, chip_init) (λ _, die_init)
    [] Leaf [] [] 0 0%nat (λ _, 0%nat) [].
Fixpoint run_loop `{Nfc} (iterations : list (list (Z * task))) (s : fil) : option fil :=
  match iterations with
  | [] => Some s
  | new :: l => match main_loop new s with Some (_, s') => run_loop l s' | None => None end
  end.
