(* ===== verification/FilFacts.v ===== *)
(** The invariant of the flash firmware (Fil.v): every task is in one queue or on
    one die, every die is in one phase of its command, and each list, the tree of
    running commands and the bus state agree with the phases. *)
From stdpp Require Import functions.
From S2P Require Import Prelude Avl Flash Fil.
#[local] Open Scope Z_scope.
#[local] Unset Default Proof Using.

(** * Phases of a die *)
Notation die_id := (Z * Z * Z)%type.
Notation chip_id := (Z * Z)%type.

(** Idle; its command is being transferred to the chip; the array operation
    runs; read, and waiting for the bus; its data is being transferred. *)
Inductive phase := PIdle | PIn (t : Z) | PExec (t : Z) | PWait (t : Z) | POut (t : Z).
#[export] Instance phase_eq_dec : EqDecision phase.
Proof. solve_decision. Defined.
Definition is_in (p : phase) : bool := match p with PIn _ => true | _ => false end.
Definition is_exec (p : phase) : bool := match p with PExec _ => true | _ => false end.
Definition is_out (p : phase) : bool := match p with POut _ => true | _ => false end.
Definition on_bus (p : phase) : bool := is_in p || is_out p.
Definition task_of (p : phase) : option Z :=
  match p with PIdle => None | PIn t | PExec t | PWait t | POut t => Some t end.

Definition valid (dk : die_id) : Prop := in_bounds dk.1.1 dk.1.2 dk.2 = true.
Definition die_of (a : flash_address) : die_id := (channel a, chip a, die a).
Definition code_of (type : txn_type) : flash_command_code := command_code type 1 FCMD_READ_PAGE.
(** What the firmware reads of a task and never changes. *)
Definition static (k : task) : flash_address * txn_type * txn_source * Z * (Z * Z * Z * Z) :=
  (k_addr k, k_type k, k_source k, k_lpa k, (k_data k, k_offset k, k_length k, k_code_length k)).

(** ** The commands that a log gives to the chips *)

(** The command that a task asks for, and the chip it is for. *)
Definition command_of (k : task) : Z * nfc_op :=
  let a := k_addr k in
  (chip a, match k_type k with
    | TXN_READ => ReadPageAddr (channel a) (die a) (plane a) (block a) (page a)
                    (if 0 <? k_code_length k then block_column k else k_offset k)
    | TXN_WRITE => ProgramTransfer (channel a) (die a) (plane a) (block a) (page a) (block_column k)
                    (u64 (k_data k + start_step k * BCH_BLOCK_SIZE)) (u32 (nr_steps k * BCH_BLOCK_SIZE))
    | TXN_ERASE => EraseBlock (channel a) (die a) (plane a) (block a)
    | TXN_DUMP => IpiTrigger
    end).
Definition is_command (op : nfc_op) : bool :=
  match op with ReadPageAddr _ _ _ _ _ _ | ProgramTransfer _ _ _ _ _ _ _ _ | EraseBlock _ _ _ _ => true | _ => false end.
Definition op_channel (op : nfc_op) : Z :=
  match op with
  | SelectVolume c _ _ | ReadPageAddr c _ _ _ _ _ | ReadPage c | ReadTransfer c _ _ _ _ _ | ProgramTransfer c _ _ _ _ _ _ _
  | ProgramPage c | EraseBlock c _ _ _ | ReadStatus c _ _ => c
  | IpiTrigger => 0
  end.
(** A command goes to the chip that was enabled last on its channel. *)
Definition issue (st : (Z → Z) * list (Z * nfc_op)) (op : nfc_op) : (Z → Z) * list (Z * nfc_op) :=
  match op with
  | SelectVolume c w true => (<[c := w]> st.1, st.2)
  | _ => if is_command op then (st.1, st.2 ++ [(st.1 (op_channel op), op)]) else st
  end.
Definition issued (log : list nfc_op) : list (Z * nfc_op) := (foldl issue (λ _, 0, []) log).2.

(** Task [t] is the only one on die [dk]. *)
Record on_die (s : fil) (dk : die_id) (t : Z) (cur : bool) (xf : option Z) : Prop := {
  od_active : active_cmd (dies s dk) = true;
  od_current : current_cmd (dies s dk) = cur;
  od_txns : active_txns (dies s dk) = [t];
  od_xfer : active_xfer (dies s dk) = xf;
  od_addr : die_of (k_addr (tasks s t)) = dk;
  od_type : k_type (tasks s t) ≠ TXN_DUMP;
  od_cmd : cmd_buf (dies s dk) = Cmd (code_of (k_type (tasks s t))) [k_addr (tasks s t)] [k_lpa (tasks s t)];
}.
Definition die_ok (s : fil) (p : phase) (dk : die_id) : Prop :=
  match p with
  | PIdle => active_cmd (dies s dk) = false ∧ current_cmd (dies s dk) = false ∧
      active_txns (dies s dk) = [] ∧ active_xfer (dies s dk) = None
  | PIn t => on_die s dk t false None ∧ k_type (tasks s t) = TXN_WRITE
  | PExec t => on_die s dk t true None ∧ 0 < cmd_finish_time (dies s dk)
  | PWait t => on_die s dk t false None ∧ k_type (tasks s t) = TXN_READ
  | POut t => on_die s dk t false (Some t) ∧ k_type (tasks s t) = TXN_READ
  end.

Definition entry (s : fil) (dk : die_id) : avl_die := AvlDie (cmd_finish_time (dies s dk)) (unique_id dk) dk.
(** A task in its queue. *)
Definition queued_ok (k : task) (q : chip_id * queue_id) : Prop :=
  (channel (k_addr k), chip (k_addr k)) = q.1 ∧ task_queue (k_type k) (k_source k) = Some q.2 ∧ valid (die_of (k_addr k)).
Definition queue_ids : list queue_id :=
  [read_queue; write_queue; mapping_read_queue; mapping_write_queue; gc_read_queue; gc_write_queue; gc_erase_queue].
Definition chip_queued (s : fil) (ck : chip_id) : list Z := q ← queue_ids; chip_queues s (ck, q).
(** Distinct members, described by [P]. *)
Definition lists {A} (l : list A) (P : A → Prop) : Prop := NoDup l ∧ ∀ x, x ∈ l ↔ P x.

(** [X] counts requests that were taken from the queues of a chip and not yet
    subtracted from its counter; [u] is the die that uses the bus of a channel. *)
Record inv (X : chip_id → Z) (ph : die_id → phase) (u : Z → option die_id) (s : fil) : Prop := {
  i_valid : ∀ dk, ph dk ≠ PIdle → valid dk;
  i_die : ∀ dk, die_ok s (ph dk) dk;
  i_user : ∀ dk, on_bus (ph dk) = true ↔ u dk.1.1 = Some dk;
  i_chan : ∀ c dk, u c = Some dk → dk.1.1 = c;
  i_bus : ∀ c, channel_status s c = match u c with Some _ => BUS_BUSY | None => BUS_IDLE end;
  i_xferq : ∀ ck, cmd_xfer_queue (chips s ck) = [];
  i_cur : ∀ ck i, current_xfer (chips s ck) = Some i ↔ is_in (ph (ck, i)) = true;
  i_in : lists (chip_in_transfer_list s) (λ ck, ∃ i, is_in (ph (ck, i)) = true);
  i_out : lists (chip_out_transfer_list s) (λ dk, is_out (ph dk) = true);
  i_wait : ∀ c, lists (waiting_read_xfer s c) (λ t, ∃ dk, dk.1.1 = c ∧ ph dk = PWait t);
  i_avl : avl_ok ad_key (die_command_avl s) ∧
    ∀ x, x ∈ inorder (die_command_avl s) ↔ is_exec (ph (ad_die x)) = true ∧ x = entry s (ad_die x);
  i_queue : ∀ q, NoDup (chip_queues s q) ∧
    ∀ t, t ∈ chip_queues s q → queued_ok (tasks s t) q ∧ ∀ dk, task_of (ph dk) ≠ Some t;
  i_count : ∀ ck, request_count s ck = Z.of_nat (length (chip_queued s ck)) + X ck;
  i_rr : ∀ c, 0 ≤ channel_rr_index s c < CHIPS_PER_CHANNEL;
  i_lun : ∀ ck i, is_in (ph (ck, i)) = true → ∀ d, d ≠ i → blocks_program (dies s (ck, d)) = false;
}.

(** * Basic facts *)
#[export] Instance die_command_key_ok : OrdKeyOk (Z * Z).
Proof.
  split; unfold kcmp, die_command_key, die_command_comp.
  - intros. repeat case_match; lia.
  - intros [a1 a2] [b1 b2]. simpl. split; [|intros [= -> ->]]; repeat case_match; try lia.
    intros _. f_equal; lia.
  - intros. repeat case_match; lia.
  - intros. repeat case_match; lia.
Qed.

Lemma valid_bounds c w i : valid (c, w, i) ↔ 0 ≤ c < NR_CHANNELS ∧ 0 ≤ w < CHIPS_PER_CHANNEL ∧ 0 ≤ i < DIES_PER_CHIP.
Proof. unfold valid, in_bounds. cbn [fst snd]. lia. Qed.
Lemma unique_id_inj dk1 dk2 : valid dk1 → valid dk2 → unique_id dk1 = unique_id dk2 → dk1 = dk2.
Proof.
  destruct dk1 as [[c1 w1] i1], dk2 as [[c2 w2] i2]. rewrite !valid_bounds.
  unfold unique_id, NR_CHANNELS, CHIPS_PER_CHANNEL, DIES_PER_CHIP. intros H1 H2 E. repeat f_equal; lia.
Qed.
Lemma static_addr k k' : static k = static k' → k_addr k = k_addr k' ∧ k_type k = k_type k' ∧ k_source k = k_source k' ∧ k_lpa k = k_lpa k'.
Proof. unfold static. by intros [= -> -> -> ->]. Qed.
Lemma static_command k k' : static k = static k' → command_of k = command_of k'.
Proof.
  unfold static. intros [= Ea Et _ _ Ed Eo El Ec]. unfold command_of, block_column, nr_steps, start_step.
  by rewrite Ea, Et, Ed, Eo, El, Ec.
Qed.
Lemma issued_other log op : is_command op = false → issued (log ++ [op]) = issued log.
Proof. intros E. unfold issued. rewrite foldl_app. cbn. destruct (foldl _ _ log). by destruct op as [? ? []| | | | | | | |]. Qed.
Lemma issued_command log c w op : is_command op = true → op_channel op = c →
  issued ((log ++ [SelectVolume c w true]) ++ [op]) = issued log ++ [(w, op)].
Proof.
  intros E <-. unfold issued. rewrite !foldl_app. destruct (foldl _ _ log) as [f l].
  destruct op; try done; cbn; by rewrite fn_lookup_insert.
Qed.

Lemma die_ok_ext s s' p dk : dies s' dk = dies s dk → (∀ t, task_of p = Some t → static (tasks s' t) = static (tasks s t)) →
  die_ok s p dk → die_ok s' p dk.
Proof.
  intros Ed Et. assert (∀ t cur xf, task_of p = Some t → on_die s dk t cur xf → on_die s' dk t cur xf) as H.
  { intros t cur xf Hp []. destruct (static_addr _ _ (Et t Hp)) as (Ea & Ety & _ & El).
    split; rewrite ?Ed, ?Ea, ?Ety, ?El; done. }
  unfold die_ok. destruct p as [|t|t|t|t]; rewrite ?Ed; try done; intros [? ?];
    destruct (static_addr _ _ (Et t eq_refl)) as (_ & Ety & _ & _); rewrite ?Ety; split; try done; by apply H.
Qed.

Section lists.
Context {A : Type}.
Implicit Types (l : list A) (P Q : A → Prop) (x : A).
Lemma lists_ext l P Q : (∀ x, P x ↔ Q x) → lists l P → lists l Q.
Proof. intros E [H1 H2]. split; [done|]. intros x. by rewrite H2, E. Qed.
Lemma lists_snoc l P Q x : lists l P → ¬ P x → (∀ y, Q y ↔ P y ∨ y = x) → lists (l ++ [x]) Q.
Proof.
  intros [H1 H2] Hx E. split.
  - apply NoDup_app. split; [done|]. split; [|apply NoDup_singleton]. intros y Hy%H2 Hy'%list_elem_of_singleton. by subst.
  - intros y. rewrite elem_of_app, list_elem_of_singleton, H2, E. done.
Qed.
Lemma lists_del `{EqDecision A} l P Q x : lists l P → (∀ y, Q y ↔ P y ∧ y ≠ x) → lists (list_del x l) Q.
Proof.
  intros [H1 H2] E. split; [by apply NoDup_list_del|]. intros y. rewrite elem_of_list_del, H2, E. tauto.
Qed.
Lemma lists_tail x l P Q : lists (x :: l) P → (∀ y, Q y ↔ P y ∧ y ≠ x) → lists l Q.
Proof.
  intros [[Hx H1]%NoDup_cons H2] E. split; [done|]. intros y. rewrite E, <-H2, elem_of_cons.
  split; [intros Hy; split; [by right|by intros ->]|by intros [[->|?] ?]].
Qed.
End lists.

(** ** The effect of a step on one die

    [s'] differs from [s] in die [dk], now in phase [p], and in what must follow. *)
Definition upd_user (ph : die_id → phase) (u : Z → option die_id) (dk : die_id) (p : phase) : Z → option die_id :=
  <[dk.1.1 := if on_bus p then Some dk else if on_bus (ph dk) then None else u dk.1.1]> u.
Definition upd_member {A} `{EqDecision A} (old new : bool) (x : A) (l : list A) : list A :=
  if new then if old then l else l ++ [x] else if old then list_del x l else l.
Record changed (ph : die_id → phase) (u : Z → option die_id) (s : fil) (dk : die_id) (p : phase) (s' : fil) : Prop := {
  ch_valid : valid dk;
  ch_tasks : ∀ t, static (tasks s' t) = static (tasks s t);
  ch_dies : ∀ dk', dk' ≠ dk → dies s' dk' = dies s dk';
  ch_ok : die_ok s' p dk;
  ch_free : on_bus p = true → on_bus (ph dk) = true ∨ u dk.1.1 = None;
  ch_bus : ∀ c, channel_status s' c = match upd_user ph u dk p c with Some _ => BUS_BUSY | None => BUS_IDLE end;
  ch_xferq : ∀ ck, cmd_xfer_queue (chips s' ck) = [];
  ch_cur : ∀ ck, current_xfer (chips s' ck) =
    if decide (ck = dk.1) then
      if is_in p then Some dk.2 else if is_in (ph dk) then None else current_xfer (chips s ck)
    else current_xfer (chips s ck);
  ch_in : chip_in_transfer_list s' = upd_member (is_in (ph dk)) (is_in p) dk.1 (chip_in_transfer_list s);
  ch_out : chip_out_transfer_list s' = upd_member (is_out (ph dk)) (is_out p) dk (chip_out_transfer_list s);
  ch_wait : ∀ c, lists (waiting_read_xfer s' c) (λ t, ∃ dk', dk'.1.1 = c ∧ <[dk := p]> ph dk' = PWait t);
  ch_avl : avl_ok ad_key (die_command_avl s') ∧ ∀ x, x ∈ inorder (die_command_avl s') ↔
    (x ∈ inorder (die_command_avl s) ∧ ad_die x ≠ dk) ∨ (is_exec p = true ∧ x = entry s' dk);
  ch_queues : ∀ q, chip_queues s' q = chip_queues s q;
  ch_new : ∀ t q, task_of p = Some t → task_of (ph dk) = Some t ∨ t ∉ chip_queues s q;
  ch_count : ∀ ck, request_count s' ck = request_count s ck;
  ch_rr : ∀ c, channel_rr_index s' c = channel_rr_index s c;
  ch_lun : is_in p = true → ∀ d, d ≠ dk.2 → blocks_program (dies s (dk.1, d)) = false;
  ch_blocks : blocks_program (dies s' dk) = true → blocks_program (dies s dk) = true ∨ u dk.1.1 = None ∨ u dk.1.1 = Some dk;
}.

Section update.
Context (X : chip_id → Z) (ph : die_id → phase) (u : Z → option die_id) (s : fil) (I : inv X ph u s).
Context (dk : die_id) (p : phase) (s' : fil) (C : changed ph u s dk p s').

Lemma changed_phase dk' : <[dk := p]> ph dk' = if decide (dk' = dk) then p else ph dk'.
Proof using Type. unfold insert, fn_insert. destruct (decide (dk = dk')), (decide (dk' = dk)); congruence. Qed.
(** No other die of the chip is on the bus when [dk] is, or takes it. *)
Lemma changed_alone dk' : on_bus p = true ∨ on_bus (ph dk) = true → dk' ≠ dk → dk'.1.1 = dk.1.1 → on_bus (ph dk') = false.
Proof using All.
  intros Hp Hne Ec. destruct (on_bus (ph dk')) eqn:E; [|done]. apply (i_user _ _ _ _ I) in E. rewrite Ec in E.
  assert (on_bus (ph dk) = true ∨ u dk.1.1 = None) as [H|H] by (destruct Hp; [by apply C|by left]).
  - apply (i_user _ _ _ _ I) in H. congruence.
  - congruence.
Qed.
Lemma changed_user dk' : on_bus (<[dk := p]> ph dk') = true ↔ upd_user ph u dk p dk'.1.1 = Some dk'.
Proof using All.
  unfold upd_user. rewrite changed_phase. unfold insert, fn_insert. destruct (decide (dk' = dk)) as [->|Hne].
  - rewrite decide_True by done. destruct (on_bus p); [done|]. destruct (on_bus (ph dk)) eqn:E; [done|].
    rewrite <-(i_user _ _ _ _ I), E. done.
  - destruct (decide (dk.1.1 = dk'.1.1)) as [Ec|Hc]; [|apply I].
    destruct (on_bus p) eqn:Ep.
    + rewrite (changed_alone dk') by auto. split; [done|congruence].
    + destruct (on_bus (ph dk)) eqn:E; [rewrite (changed_alone dk') by auto; done|]. rewrite Ec. apply I.
Qed.
Lemma changed_in ck : (∃ i, is_in (<[dk := p]> ph (ck, i)) = true) ↔
  (if is_in p then ck = dk.1 ∨ ∃ i, is_in (ph (ck, i)) = true
   else if is_in (ph dk) then (∃ i, is_in (ph (ck, i)) = true) ∧ ck ≠ dk.1 else ∃ i, is_in (ph (ck, i)) = true).
Proof using All.
  assert (∀ i, is_in (ph dk) = true ∨ is_in p = true → is_in (ph (dk.1, i)) = true → i = dk.2) as Hu.
  { intros i Ho Hi. destruct (decide ((dk.1, i) = dk)) as [<-|Hne]; [done|].
    pose proof (changed_alone (dk.1, i)) as Ha. unfold on_bus in Ha. cbn [fst] in Ha. rewrite Hi in Ha.
    destruct Ho as [Ho|Ho]; rewrite Ho in Ha; specialize (Ha ltac:(auto) Hne eq_refl); done. }
  destruct dk as [dck di] eqn:Edk. cbn [fst snd] in *. rewrite <-Edk in *.
  assert (∀ i, <[dk := p]> ph (ck, i) = if decide (ck = dck ∧ i = di) then p else ph (ck, i)) as Hc.
  { intros i. rewrite changed_phase. subst dk. destruct (decide (ck = dck ∧ i = di)), (decide ((ck, i) = (dck, di))); try done; naive_solver. }
  destruct (is_in p) eqn:Ep; [|destruct (is_in (ph dk)) eqn:Eo].
  - split.
    + intros [i Hi]. rewrite Hc in Hi. destruct (decide (ck = dck ∧ i = di)) as [Hd|Hd]; [left; apply Hd|right; eauto].
    + intros [->|[i Hi]]; [exists di; rewrite Hc, decide_True by done; done|]. exists i. rewrite Hc. destruct (decide (ck = dck ∧ i = di)); [apply Ep|apply Hi].
  - split.
    + intros [i Hi]. rewrite Hc in Hi. destruct (decide (ck = dck ∧ i = di)) as [Hd|Hd]; [congruence|]. split; [eauto|]. intros ->. apply Hd. split; [done|]. auto.
    + intros [[i Hi] Hne]. exists i. rewrite Hc, decide_False by naive_solver. done.
  - split; intros [i Hi]; exists i; rewrite Hc in *; destruct (decide (ck = dck ∧ i = di)) as [Hd|Hd]; try done; try congruence.
    destruct Hd as [-> ->]. subst dk. congruence.
Qed.

Lemma changed_cur ck i : current_xfer (chips s' ck) = Some i ↔ is_in (<[dk := p]> ph (ck, i)) = true.
Proof using All.
  rewrite (ch_cur _ _ _ _ _ _ C), changed_phase.
  destruct (decide (ck = dk.1)) as [->|Hck].
  - destruct (decide ((dk.1, i) = dk)) as [E|Hne].
    + assert (i = dk.2) as -> by (destruct dk as [? ?]; cbn in *; congruence).
      replace (dk.1, dk.2) with dk in * by by destruct dk. destruct (is_in p) eqn:Ep; [done|].
      destruct (is_in (ph dk)) eqn:Eo; [done|]. split; [|done]. intros H.
      pose proof (proj1 (i_cur _ _ _ _ I dk.1 dk.2) H) as H'. replace (dk.1, dk.2) with dk in H' by by destruct dk. congruence.
    + assert (i ≠ dk.2) as Hi by (intros ->; by destruct dk).
      destruct (is_in p) eqn:Ep; [|destruct (is_in (ph dk)) eqn:Eo; [|apply I]].
      * split; [congruence|]. intros H. pose proof (changed_alone (dk.1, i)) as Ha. unfold on_bus in Ha. rewrite H, Ep in Ha.
         specialize (Ha ltac:(auto) Hne eq_refl). done.
      * split; [done|]. intros H. pose proof (changed_alone (dk.1, i)) as Ha. unfold on_bus in Ha. rewrite H, Eo in Ha.
         specialize (Ha ltac:(auto) Hne eq_refl). done.
  - rewrite decide_False by (intros <-; done). apply I.
Qed.
Lemma changed_in_list : lists (chip_in_transfer_list s') (λ ck, ∃ i, is_in (<[dk := p]> ph (ck, i)) = true).
Proof using All.
  pose proof changed_in as Hin.
  rewrite (ch_in _ _ _ _ _ _ C). unfold upd_member. pose proof (i_in _ _ _ _ I) as Hl.
  destruct (is_in p) eqn:Ep; [destruct (is_in (ph dk)) eqn:Eo|destruct (is_in (ph dk)) eqn:Eo].
  - eapply lists_ext; [|exact Hl]. intros ck. rewrite Hin. split; [by right|]. intros [->|?]; [|done].
    exists dk.2. by destruct dk.
  - eapply lists_snoc; [exact Hl| |]; cbn beta.
    + intros [i Hi]. destruct (decide ((dk.1, i) = dk)) as [E|Hne]; [congruence|].
      pose proof (changed_alone (dk.1, i)) as Ha. unfold on_bus in Ha. rewrite Hi, Ep in Ha. specialize (Ha ltac:(auto) Hne eq_refl). done.
    + intros ck. rewrite Hin. tauto.
  - eapply lists_del; [exact Hl|]. intros ck. cbn beta. by rewrite Hin.
  - eapply lists_ext; [|exact Hl]. intros ck. by rewrite Hin.
Qed.
Lemma changed_out_list : lists (chip_out_transfer_list s') (λ dk', is_out (<[dk := p]> ph dk') = true).
Proof using All.
  rewrite (ch_out _ _ _ _ _ _ C). unfold upd_member. pose proof (i_out _ _ _ _ I) as Hl.
  destruct (is_out p) eqn:Ep, (is_out (ph dk)) eqn:Eo.
  - eapply lists_ext; [|exact Hl]. intros y. rewrite changed_phase. case_decide as Hy; [|done]. rewrite Hy, Ep, Eo. done.
  - eapply lists_snoc; [exact Hl|cbn beta; by rewrite Eo|]. intros y. cbn beta. rewrite changed_phase. case_decide as Hy; [rewrite Ep; tauto|tauto].
  - eapply lists_del; [exact Hl|]. intros y. cbn beta. rewrite changed_phase. case_decide as Hy; [rewrite Ep; naive_solver|tauto].
  - eapply lists_ext; [|exact Hl]. intros y. rewrite changed_phase. case_decide as Hy; [|done]. rewrite Hy, Ep, Eo. done.
Qed.
Lemma changed_avl : avl_ok ad_key (die_command_avl s') ∧
  ∀ x, x ∈ inorder (die_command_avl s') ↔ is_exec (<[dk := p]> ph (ad_die x)) = true ∧ x = entry s' (ad_die x).
Proof using All.
  destruct (ch_avl _ _ _ _ _ _ C) as [H1 H2]. split; [done|]. intros x. rewrite H2, changed_phase.
  rewrite (proj2 (i_avl _ _ _ _ I)). split.
  - intros [[[H3 H4] Hne]|[H3 ->]].
    + rewrite decide_False by done. split; [done|]. rewrite H4. cbn [ad_die entry]. unfold entry. by rewrite (ch_dies _ _ _ _ _ _ C).
    + cbn [ad_die entry]. by rewrite decide_True.
  - case_decide as E; [subst; by right|]. intros [H3 H4]. left. split; [split; [done|]|done].
    rewrite H4. cbn [ad_die entry]. unfold entry. by rewrite (ch_dies _ _ _ _ _ _ C).
Qed.
Lemma changed_lun ck i : is_in (<[dk := p]> ph (ck, i)) = true → ∀ d, d ≠ i → blocks_program (dies s' (ck, d)) = false.
Proof using All.
  intros Hi d Hd. rewrite changed_phase in Hi. case_decide as E.
  - assert (ck = dk.1 ∧ i = dk.2) as [-> ->] by by subst dk.
    rewrite (ch_dies _ _ _ _ _ _ C); [by apply C|]. intros E'. apply Hd. by rewrite <-E'.
  - destruct (decide ((ck, d) = dk)) as [Ed|Hne].
    + destruct (blocks_program (dies s' (ck, d))) eqn:Eb; [|done]. exfalso. rewrite Ed in Eb.
      assert (u dk.1.1 = Some (ck, i)) as Eu by (rewrite <-Ed; apply (i_user _ _ _ _ I (ck, i)); unfold on_bus; by rewrite Hi).
      destruct (ch_blocks _ _ _ _ _ _ C Eb) as [H|[H|H]]; [|congruence|congruence].
      rewrite <-Ed in H. rewrite (i_lun _ _ _ _ I ck i Hi d Hd) in H. done.
    + rewrite (ch_dies _ _ _ _ _ _ C) by done. by apply (i_lun _ _ _ _ I ck i).
Qed.

Lemma inv_changed : inv X (<[dk := p]> ph) (upd_user ph u dk p) s'.
Proof using All.
  split.
  - intros dk'. rewrite changed_phase. case_decide as E; [subst; intros _; apply C|apply I].
  - intros dk'. rewrite changed_phase. case_decide as E; [subst; apply C|].
    apply (die_ok_ext s); [by apply C|intros; apply C|apply I].
  - exact changed_user.
  - intros c dk'. unfold upd_user, insert, fn_insert. case_decide as E; [|apply I]. subst c.
    destruct (on_bus p); [congruence|]. destruct (on_bus (ph dk)); [done|]. apply I.
  - apply C.
  - apply C.
  - exact changed_cur.
  - exact changed_in_list.
  - exact changed_out_list.
  - apply C.
  - exact changed_avl.
  - intros q. rewrite (ch_queues _ _ _ _ _ _ C). destruct (i_queue _ _ _ _ I q) as [H1 H2]. split; [done|].
    intros t Ht. destruct (H2 t Ht) as [H3 H4]. split.
    + unfold queued_ok. by destruct (static_addr _ _ (ch_tasks _ _ _ _ _ _ C t)) as (-> & -> & -> & _).
    + intros dk'. rewrite changed_phase. case_decide as E; [subst|apply H4]. intros Hp.
      destruct (ch_new _ _ _ _ _ _ C t q Hp) as [?|?]; [by eapply H4|done].
  - intros ck. rewrite (ch_count _ _ _ _ _ _ C), (i_count _ _ _ _ I). do 3 f_equal. unfold chip_queued.
    apply list_bind_ext; [|done]. intros q. by rewrite (ch_queues _ _ _ _ _ _ C).
  - intros c. rewrite (ch_rr _ _ _ _ _ _ C). apply I.
  - exact changed_lun.
Qed.
End update.
