(* ===== verification/FilSched.v ===== *)
(** What is pending and which commands were issued, what the scheduler may do to a
    channel ([steps]), the hardware the driver relies on ([NfcOk]), and the start
    of a dispatched request on its die. *)
From stdpp Require Import functions.
From S2P Require Import Prelude Avl Flash Fil FilFacts.
#[local] Open Scope Z_scope.
#[local] Unset Default Proof Using.

(** * Work *)
Definition all_dies : list die_id :=
  c ← seqZ 0 NR_CHANNELS; w ← seqZ 0 CHIPS_PER_CHANNEL; i ← seqZ 0 DIES_PER_CHIP; mret (c, w, i).
Definition in_flight (s : fil) : list Z := dk ← all_dies; active_txns (dies s dk).
Definition pending (s : fil) : list Z := queued s ++ in_flight s.
(** The commands that were issued, and those of the tasks in the queues. *)
Definition commands_of (s : fil) (l : list Z) : list (Z * nfc_op) := (λ t, command_of (tasks s t)) <$> l.
Definition commands (s : fil) : list (Z * nfc_op) := issued (nfc_log s) ++ commands_of s (queued s).

Lemma all_dies_NoDup : NoDup all_dies.
Proof. apply (bool_decide_unpack _). vm_compute. exact I. Qed.
Lemma all_queues_NoDup : NoDup all_queues.
Proof. apply (bool_decide_unpack _). vm_compute. exact I. Qed.
Lemma all_dies_valid dk : dk ∈ all_dies ↔ valid dk.
Proof.
  destruct dk as [[c w] i]. rewrite valid_bounds. unfold all_dies.
  rewrite list_elem_of_bind. setoid_rewrite list_elem_of_bind. setoid_rewrite list_elem_of_bind.
  setoid_rewrite list_elem_of_singleton. setoid_rewrite elem_of_seqZ. split.
  - intros (? & (? & (? & [= -> -> ->] & ?) & ?) & ?). lia.
  - intros (? & ? & ?). exists c. split; [|lia]. exists w. split; [|lia]. exists i. split; [done|lia].
Qed.
Lemma all_queues_valid c w q i : valid (c, w, i) → (c, w, q) ∈ all_queues.
Proof.
  rewrite valid_bounds. intros (? & ? & ?). unfold all_queues. apply list_elem_of_bind. exists c. split; [|apply elem_of_seqZ; lia].
  apply list_elem_of_bind. exists w. split; [|apply elem_of_seqZ; lia].
  apply list_elem_of_bind. exists q. split; [by apply list_elem_of_singleton|]. destruct q; set_solver.
Qed.

(** The members of a family of lists, one of which changes. *)
Lemma bind_update {K A} `{EqDecision K} (keys : list K) (f g : K → list A) (k : K) :
  NoDup keys → k ∈ keys → (∀ k', k' ≠ k → g k' = f k') →
  ∃ rest, (keys ≫= f) ≡ₚ f k ++ rest ∧ (keys ≫= g) ≡ₚ g k ++ rest.
Proof.
  intros Hn Hk E. induction Hn as [|k' keys Hk' Hn IH]; [by apply not_elem_of_nil in Hk|].
  apply elem_of_cons in Hk as [->|Hk].
  - exists (keys ≫= f). split; [done|]. cbn [mbind list_bind]. f_equiv.
    assert (keys ≫= g = keys ≫= f) as ->; [|done]. clear -E Hk'. induction keys as [|k keys IH]; [done|].
    cbn [mbind list_bind] in *. rewrite E by set_solver. f_equal. apply IH. set_solver.
  - destruct (IH Hk) as (rest & E1 & E2). exists (f k' ++ rest). cbn [mbind list_bind].
    rewrite (E k') by (intros ->; done). split.
    + etrans; [apply Permutation_app_head, E1|]. rewrite !app_assoc. f_equiv. apply Permutation_app_comm.
    + etrans; [apply Permutation_app_head, E2|]. rewrite !app_assoc. f_equiv. apply Permutation_app_comm.
Qed.
Lemma commands_of_static s s' l : (∀ t, static (tasks s' t) = static (tasks s t)) → commands_of s' l = commands_of s l.
Proof. intros E. unfold commands_of. apply list_fmap_ext. intros i t _. by apply static_command. Qed.
Lemma queued_same s s' : (∀ q, chip_queues s' q = chip_queues s q) → queued s' = queued s.
Proof. intros E. unfold queued. by apply list_bind_ext. Qed.
Lemma in_flight_update s s' dk : valid dk → (∀ dk', dk' ≠ dk → dies s' dk' = dies s dk') →
  ∃ rest, in_flight s ≡ₚ active_txns (dies s dk) ++ rest ∧ in_flight s' ≡ₚ active_txns (dies s' dk) ++ rest.
Proof.
  intros Hv E. apply (bind_update all_dies (λ dk, active_txns (dies s dk)) (λ dk, active_txns (dies s' dk)) dk).
  - apply all_dies_NoDup.
  - by apply all_dies_valid.
  - intros dk' Hne. by rewrite E.
Qed.
Lemma in_flight_same s s' : (∀ dk, active_txns (dies s' dk) = active_txns (dies s dk)) → in_flight s' = in_flight s.
Proof. intros E. unfold in_flight. by apply list_bind_ext. Qed.

Lemma commands_same s s' : (∀ q, chip_queues s' q = chip_queues s q) → (∀ t, static (tasks s' t) = static (tasks s t)) →
  issued (nfc_log s') = issued (nfc_log s) → commands s' = commands s.
Proof. intros Eq Et El. unfold commands. by rewrite El, (queued_same s s'), (commands_of_static s s'). Qed.
Lemma commands_issue s s' t : (∀ q, chip_queues s' q = chip_queues s q) → (∀ t, static (tasks s' t) = static (tasks s t)) →
  issued (nfc_log s') = issued (nfc_log s) ++ [command_of (tasks s t)] → commands s' ≡ₚ commands_of s [t] ++ commands s.
Proof.
  intros Eq Et El. unfold commands. rewrite El, (queued_same s s'), (commands_of_static s s') by done.
  rewrite <-app_assoc. cbn [app commands_of fmap list_fmap]. by rewrite <-Permutation_middle.
Qed.

(** * What the scheduler may do to channel [c] *)
Record steps (c : Z) (new : list Z) (ph : die_id → phase) (s : fil) (ph' : die_id → phase) (s' : fil) : Prop := {
  st_pending : pending s' ≡ₚ new ++ pending s;
  st_used : used_ring s' = used_ring s;
  st_ipi : ipi_coalesce_counter s' = ipi_coalesce_counter s;
  st_static : ∀ t, static (tasks s' t) = static (tasks s t);
  st_done : ∀ t, k_completed (tasks s' t) = k_completed (tasks s t) ∧ k_status (tasks s' t) = k_status (tasks s t);
  st_grow : ∀ dk, ph' dk = ph dk ∨ (ph dk = PIdle ∧ dk.1.1 = c ∧ ∃ t, ph' dk = PIn t ∨ ph' dk = PExec t);
  st_in : ∃ l, chip_in_transfer_list s' = chip_in_transfer_list s ++ l ∧
    (length l + length (queued s') ≤ length (queued s) + length new)%nat;
  st_out : chip_out_transfer_list s' = chip_out_transfer_list s;
  st_wait : ∀ c, waiting_read_xfer s' c = waiting_read_xfer s c;
  st_dies : ∀ dk, ph dk ≠ PIdle → dies s' dk = dies s dk;
  st_queues : ∀ q t, t ∈ chip_queues s' q → t ∈ chip_queues s q;
  st_bus : ∀ c', c' ≠ c → channel_status s' c' = channel_status s c';
  st_commands : commands s' ≡ₚ commands_of s new ++ commands s;
}.
Lemma steps_refl c ph s : steps c [] ph s ph s.
Proof. split; try done; [by left|]. exists []. rewrite app_nil_r. split; [done|]. cbn. lia. Qed.
Lemma steps_trans c n1 n2 ph1 s1 ph2 s2 ph3 s3 :
  steps c n1 ph1 s1 ph2 s2 → steps c n2 ph2 s2 ph3 s3 → steps c (n1 ++ n2) ph1 s1 ph3 s3.
Proof.
  intros A B. split.
  - rewrite (st_pending _ _ _ _ _ _ B), (st_pending _ _ _ _ _ _ A), !app_assoc. f_equiv. apply Permutation_app_comm.
  - by rewrite (st_used _ _ _ _ _ _ B), (st_used _ _ _ _ _ _ A).
  - by rewrite (st_ipi _ _ _ _ _ _ B), (st_ipi _ _ _ _ _ _ A).
  - intros t. by rewrite (st_static _ _ _ _ _ _ B), (st_static _ _ _ _ _ _ A).
  - intros t. destruct (st_done _ _ _ _ _ _ B t) as [-> ->]. apply A.
  - intros dk. destruct (st_grow _ _ _ _ _ _ A dk) as [E|(E & Ec & t & Ht)], (st_grow _ _ _ _ _ _ B dk) as [E'|(E' & Ec' & t' & Ht')].
    + left. congruence.
    + right. rewrite <-E. eauto.
    + right. split; [done|]. split; [done|]. exists t. by rewrite E'.
    + destruct Ht; congruence.
  - destruct (st_in _ _ _ _ _ _ A) as (l1 & E1 & L1), (st_in _ _ _ _ _ _ B) as (l2 & E2 & L2).
    exists (l1 ++ l2). rewrite E2, E1, app_assoc. split; [done|]. rewrite !length_app. lia.
  - by rewrite (st_out _ _ _ _ _ _ B), (st_out _ _ _ _ _ _ A).
  - intros c'. by rewrite (st_wait _ _ _ _ _ _ B), (st_wait _ _ _ _ _ _ A).
  - intros dk Hp. rewrite (st_dies _ _ _ _ _ _ B); [by apply A|].
    destruct (st_grow _ _ _ _ _ _ A dk) as [->|(? & _)]; done.
  - intros q t Ht. by eapply A, B.
  - intros c' Hc. by rewrite (st_bus _ _ _ _ _ _ B), (st_bus _ _ _ _ _ _ A).
  - rewrite (st_commands _ _ _ _ _ _ B), (st_commands _ _ _ _ _ _ A), (commands_of_static s1 s2) by apply A.
    unfold commands_of. rewrite fmap_app, !app_assoc. f_equiv. apply Permutation_app_comm.
Qed.
Lemma steps_queued c new ph s ph' s' : steps c new ph s ph' s' → (length (queued s') ≤ length (queued s) + length new)%nat.
Proof. intros S. destruct (st_in _ _ _ _ _ _ S) as (l & _ & L). lia. Qed.
(** A die that is active stays so. *)
Lemma steps_active c new ph s ph' s' dk : steps c new ph s ph' s' → ph dk ≠ PIdle → ph' dk ≠ PIdle.
Proof. intros S Hp. destruct (st_grow _ _ _ _ _ _ S dk) as [->|(? & _)]; done. Qed.

(** No request of the chip waits without a command running on the chip. *)
Definition chip_served (ph : die_id → phase) (s : fil) (ck : chip_id) : Prop :=
  (∀ q, chip_queues s (ck, q) = []) ∨ ∃ i, ph (ck, i) ≠ PIdle.
Lemma served_steps c new ph s ph' s' ck : steps c new ph s ph' s' → chip_served ph s ck → chip_served ph' s' ck.
Proof.
  intros S [H|[i Hi]]; [left|right; exists i; by eapply steps_active].
  intros q. destruct (chip_queues s' (ck, q)) as [|t l] eqn:E; [done|]. exfalso.
  apply (not_elem_of_nil t). rewrite <-(H q). eapply S. rewrite E. by left.
Qed.

(** * Running straight-line code *)
Ltac fcbn := cbn [tasks chip_queues request_count enqueued_requests channel_rr_index channel_status waiting_read_xfer chips dies
  chip_in_transfer_list die_command_avl chip_out_transfer_list used_ring ipi_coalesce_counter clock accesses nfc_log
  set_tasks set_queues set_count set_enqueued set_rr set_bus set_waiting set_chips set_dies set_in_list set_avl set_out_list
  set_used set_ipi set_clock set_accesses set_log
  c_status active_dies cmd_xfer_queue current_xfer nr_waiting_read_xfers last_xfer_start
  set_status set_active_dies set_xfer_queue set_current_xfer set_nr_waiting set_last_start
  active_txns cmd_buf active_cmd current_cmd cmd_finish_time cmd_error active_xfer exec_start_cycle
  set_active_txns set_cmd_buf set_active_cmd set_current_cmd set_finish_time set_cmd_error set_active_xfer set_exec_start
  k_addr k_type k_source k_lpa k_data k_code_buf k_offset k_length k_code_length k_completed k_status k_xfer_us k_exec_us k_err_bitmap
  set_lpa set_xfer_us set_exec_us set_err_bitmap cmd_code addrs metadata fst snd].
Ltac frun_with tac := repeat first
  [ wp_step
  | progress unfold get_task, upd_task, get_die, upd_die, get_chip, upd_chip, get_queue, put_queue, set_channel_status, emit,
      timer_get_cycles, access
  | progress fcbn
  | progress cbn beta iota zeta
  | rewrite fn_lookup_insert
  | progress tac ].
(** Pointwise facts about updated arrays. *)
Ltac fins := unfold insert, fn_insert; repeat case_decide; simplify_eq; fcbn.

(** What the driver relies on: a clock of 64 bits does not wrap, a die is ready
    for the transfer of what it has read, and a controller becomes idle. *)
Class NfcOk `{Nfc} : Prop := {
  pulses_pos : 0 < pulses_per_us;
  timer_range : ∀ n, 0 ≤ timer n < 2 ^ 63;
  sync_ready : ∀ c n, sync_status c n = SR_ALLRDY;
  status_answers : ∀ c n, ∃ k, (k < patience)%nat ∧ Z.testbit (status_reg c (n + k)%nat) 8 = true;
}.

Section start.
Context `{NfcOk}.

Lemma latency_pos code : 0 < get_command_latency_us code.
Proof using Type. by destruct code. Qed.
Lemma cycles_range us : 0 < us → 0 < timer_us_to_cycles us < 2 ^ 32.
Proof using All.
  intros Hus. unfold timer_us_to_cycles. pose proof pulses_pos as Hp.
  destruct (Z.leb_spec ((2 ^ 32 - 1) / pulses_per_us) us) as [E|E]; [by split|].
  assert (us * pulses_per_us < 2 ^ 32 - 1).
  { pose proof (Z.mul_div_le (2 ^ 32 - 1) pulses_per_us Hp). nia. }
  rewrite u32_small by nia. nia.
Qed.
Lemma finish_pos n code : 0 < u64 (timer n + timer_us_to_cycles (get_command_latency_us code)).
Proof using All.
  pose proof (timer_range n). pose proof (cycles_range _ (latency_pos code)). rewrite u64_small by lia. lia.
Qed.

(** A request taken from its queue, for a die that may start it. *)
Definition free_task (ph : die_id → phase) (s : fil) (t : Z) : Prop :=
  (∀ q, t ∉ chip_queues s q) ∧ ∀ dk, task_of (ph dk) ≠ Some t.
Record can_start (X : chip_id → Z) (ph : die_id → phase) (u : Z → option die_id) (s : fil) (t : Z) (dk : die_id) : Prop := {
  cs_inv : inv X ph u s;
  cs_free : free_task ph s t;
  cs_addr : die_of (k_addr (tasks s t)) = dk;
  cs_valid : valid dk;
  cs_type : k_type (tasks s t) ≠ TXN_DUMP;
  cs_idle : ph dk = PIdle;
  cs_bus : u dk.1.1 = None;
  cs_lun : k_type (tasks s t) = TXN_WRITE → ∀ d, d ≠ dk.2 → blocks_program (dies s (dk.1, d)) = false;
}.

Lemma command_code_one type old : type ≠ TXN_DUMP → command_code type (Z.of_nat 1) old = code_of type.
Proof using Type. by destruct type. Qed.
Lemma no_xfer X ph u s c w : inv X ph u s → u c = None → current_xfer (chips s (c, w)) = None.
Proof using Type.
  intros I Hb. destruct (current_xfer (chips s (c, w))) as [j|] eqn:E; [|done]. apply (i_cur _ _ _ _ I) in E.
  assert (u c = Some (c, w, j)); [|congruence]. apply (i_user _ _ _ _ I (c, w, j)). unfold on_bus. by rewrite E.
Qed.
Lemma pending_start s s' dk t : valid dk → active_txns (dies s dk) = [] → active_txns (dies s' dk) = [t] →
  (∀ dk', dk' ≠ dk → dies s' dk' = dies s dk') → (∀ q, chip_queues s' q = chip_queues s q) → pending s' ≡ₚ [t] ++ pending s.
Proof using Type.
  intros V E E' Ed Eq. unfold pending. rewrite (queued_same s s' Eq).
  destruct (in_flight_update s s' dk V Ed) as (rest & -> & ->). rewrite E, E'. cbn [app].
  by rewrite <-Permutation_middle.
Qed.

(** The end of the transfer of a command, up to the call of the scheduler. *)
Record started (s : fil) (dk : die_id) (s' : fil) : Prop := {
  sd_tasks : ∀ t, static (tasks s' t) = static (tasks s t);
  sd_done : ∀ t, k_completed (tasks s' t) = k_completed (tasks s t) ∧ k_status (tasks s' t) = k_status (tasks s t);
  sd_dies : ∀ dk', dk' ≠ dk → dies s' dk' = dies s dk';
  sd_die : active_txns (dies s' dk) = active_txns (dies s dk) ∧ cmd_buf (dies s' dk) = cmd_buf (dies s dk) ∧
    active_cmd (dies s' dk) = active_cmd (dies s dk) ∧ active_xfer (dies s' dk) = active_xfer (dies s dk) ∧
    current_cmd (dies s' dk) = true ∧ 0 < cmd_finish_time (dies s' dk);
  sd_xferq : ∀ ck, cmd_xfer_queue (chips s' ck) = cmd_xfer_queue (chips s ck);
  sd_cur : ∀ ck, current_xfer (chips s' ck) = if decide (ck = dk.1) then None else current_xfer (chips s ck);
  sd_bus : ∀ c, channel_status s' c = if decide (c = dk.1.1) then BUS_IDLE else channel_status s c;
  sd_avl : die_command_avl s' = avl_insert ad_key (entry s' dk) (die_command_avl s);
  sd_in : chip_in_transfer_list s' = chip_in_transfer_list s;
  sd_out : chip_out_transfer_list s' = chip_out_transfer_list s;
  sd_wait : ∀ c, waiting_read_xfer s' c = waiting_read_xfer s c;
  sd_queues : ∀ q, chip_queues s' q = chip_queues s q;
  sd_count : ∀ ck, request_count s' ck = request_count s ck;
  sd_rr : ∀ c, channel_rr_index s' c = channel_rr_index s c;
  sd_used : used_ring s' = used_ring s ∧ ipi_coalesce_counter s' = ipi_coalesce_counter s;
  sd_log : issued (nfc_log s') = issued (nfc_log s);
}.
Lemma wp_start_op code c (Q : unit → fil → Prop) s : (∀ l, issued l = issued (nfc_log s) → Q tt (set_log l s)) →
  wp (match code with FCMD_READ_PAGE => emit (ReadPage c) | FCMD_PROGRAM_PAGE => emit (ProgramPage c) | _ => mret tt end) Q s.
Proof using Type.
  intros HQ. destruct code; unfold emit; wp_steps; try (apply HQ; by rewrite issued_other).
  all: specialize (HQ (nfc_log s) eq_refl); destruct s; exact HQ.
Qed.
Lemma wp_running_status type ck (Q : unit → fil → Prop) s : type ≠ TXN_DUMP →
  (∀ st, Q tt (set_chips (<[ck := set_status st (chips s ck)]> (chips s)) s)) →
  wp (match type with
      | TXN_READ => upd_chip ck (set_status CS_READING)
      | TXN_WRITE => upd_chip ck (set_status CS_WRITING)
      | TXN_ERASE => upd_chip ck (set_status CS_ERASING)
      | TXN_DUMP => mret tt
      end) Q s.
Proof using Type. intros Hty HQ. destruct type; try done; apply HQ. Qed.

Lemma complete_transfer (start_cmd : chip_id → ST fil unit) (notify : Z → ST fil unit) (Q : unit → fil → Prop) s c w i t now :
  current_xfer (chips s (c, w)) = Some i → cmd_xfer_queue (chips s (c, w)) = [] →
  active_txns (dies s (c, w, i)) = [t] → die_of (k_addr (tasks s t)) = (c, w, i) → k_type (tasks s t) ≠ TXN_DUMP →
  addrs (cmd_buf (dies s (c, w, i))) = [k_addr (tasks s t)] →
  (∀ s', started s (c, w, i) s' → wp (notify c) Q s') →
  wp (complete_chip_transfer_body start_cmd notify (c, w) now) Q s.
Proof using All.
  intros Cx Xq Tx Ea Ty Ad HQ. assert (channel (k_addr (tasks s t)) = c ∧ die (k_addr (tasks s t)) = i) as (Ec & Ei) by by injection Ea.
  unfold complete_chip_transfer_body, start_die_command.
  frun_with ltac:(rewrite ?Ec, ?Ei, ?Cx, ?Xq, ?Tx, ?Ad; cbn [deref head for_each]).
  apply wp_start_op. fcbn. intros l Hl.
  frun_with ltac:(rewrite ?Ec, ?Ei, ?Cx, ?Xq, ?Tx, ?Ad; cbn [deref head for_each]).
  apply wp_running_status; [done|]. intros st. cbn beta.
  frun_with ltac:(rewrite ?Ec, ?Ei, ?Cx, ?Xq, ?Tx, ?Ad; cbn [deref head for_each]).
  apply HQ; split; fcbn; try done.
  - intros t'. fins; done.
  - intros t'. fins; done.
  - intros dk' Hne. by rewrite fn_lookup_insert_ne.
  - rewrite fn_lookup_insert. fcbn. split_and!; try done. apply finish_pos.
  - intros ck. fins; done.
  - intros ck. fins; try done; by rewrite decide_False by congruence.
  - intros c'. fins; try done; by rewrite decide_False by congruence.
  - unfold entry. fcbn. by rewrite fn_lookup_insert.
  - by rewrite issued_other.
Qed.

(** A state in which the command of [dk] has been given to the chip. *)
Record given (ph : die_id → phase) (u : Z → option die_id) (s : fil) (dk : die_id) (t : Z) (s1 : fil) : Prop := {
  gv_valid : valid dk;
  gv_phase : ph dk = PIdle ∨ ph dk = PIn t;
  gv_user : u dk.1.1 = None ∨ on_bus (ph dk) = true;
  gv_free : ∀ q, t ∉ chip_queues s q;
  gv_tasks : ∀ t, static (tasks s1 t) = static (tasks s t);
  gv_done : ∀ t, k_completed (tasks s1 t) = k_completed (tasks s t) ∧ k_status (tasks s1 t) = k_status (tasks s t);
  gv_dies : ∀ dk', dk' ≠ dk → dies s1 dk' = dies s dk';
  gv_die : on_die s1 dk t false None;
  gv_xferq : ∀ ck, cmd_xfer_queue (chips s1 ck) = [];
  gv_cur : ∀ ck, ck ≠ dk.1 → current_xfer (chips s1 ck) = current_xfer (chips s ck);
  gv_bus : ∀ c, c ≠ dk.1.1 → channel_status s1 c = channel_status s c;
  gv_avl : die_command_avl s1 = die_command_avl s;
  gv_in : chip_in_transfer_list s1 = upd_member (is_in (ph dk)) false dk.1 (chip_in_transfer_list s);
  gv_out : chip_out_transfer_list s1 = chip_out_transfer_list s;
  gv_wait : ∀ c, waiting_read_xfer s1 c = waiting_read_xfer s c;
  gv_queues : ∀ q, chip_queues s1 q = chip_queues s q;
  gv_count : ∀ ck, request_count s1 ck = request_count s ck;
  gv_rr : ∀ c, channel_rr_index s1 c = channel_rr_index s c;
  gv_used : used_ring s1 = used_ring s ∧ ipi_coalesce_counter s1 = ipi_coalesce_counter s;
  gv_log : issued (nfc_log s1) = issued (nfc_log s) ++ (if decide (ph dk = PIdle) then [command_of (tasks s t)] else []);
}.
Lemma started_avl X ph u s dk s' : inv X ph u s → valid dk → is_exec (ph dk) = false →
  die_command_avl s' = avl_insert ad_key (entry s' dk) (die_command_avl s) →
  avl_ok ad_key (die_command_avl s') ∧ ∀ x, x ∈ inorder (die_command_avl s') ↔
    (x ∈ inorder (die_command_avl s) ∧ ad_die x ≠ dk) ∨ (true = true ∧ x = entry s' dk).
Proof using Type.
  intros I V Hx ->. pose proof (i_avl _ _ _ _ I) as [A1 A2].
  assert (∀ y, y ∈ inorder (die_command_avl s) → ad_die y ≠ dk ∧ ad_key y ≠ ad_key (entry s' dk)) as Hy.
  { intros y [H1 H2]%A2. assert (ad_die y ≠ dk) as Hne by (intros E; rewrite E in H1; congruence). split; [done|].
    intros [= _ E]. rewrite H2 in E. cbn in E. apply Hne, unique_id_inj; [|done|done].
    apply (i_valid _ _ _ _ I). intros E'. rewrite E' in H1. done. }
  destruct (avl_ok_insert ad_key (entry s' dk) (die_command_avl s) A1) as [A3 A4]; [intros y ?%Hy; tauto|].
  split; [done|]. intros x. rewrite A4, elem_of_cons. split; [intros [->|Hx']; [by right|]|intros [[? _]|[_ ->]]; [by right|by left]].
  left. split; [done|]. by apply Hy.
Qed.
Lemma started_changed X ph u s dk t s1 s' : inv X ph u s → given ph u s dk t s1 → started s1 dk s' →
  changed ph u s dk (PExec t) s'.
Proof using Type.
  intros I [V Hp Hu Hf G1 G2 G3 G4 G5 G6 G7 G8 G9 G10 G11 G12 G13 G14 _ _] [S1 S2 S3 S4 S5 S6 S7 S8 S9 S10 S11 S12 S13 S14 _ _].
  destruct S4 as (E1 & E2 & E3 & E4 & E5 & E6).
  split; try done.
  - intros t'. by rewrite S1.
  - intros dk' Hne. by rewrite S3, G3.
  - split; [|done]. destruct G4. destruct (static_addr _ _ (S1 t)) as (Ea & Et & _ & El).
    split; rewrite ?E1, ?E2, ?E3, ?E4, ?Ea, ?Et, ?El; done.
  - intros c. rewrite S7. unfold upd_user, insert, fn_insert. cbn [on_bus is_in is_out orb].
    destruct (decide (c = dk.1.1)) as [->|Hne].
    + rewrite decide_True by done. destruct (on_bus (ph dk)) eqn:E; [done|]. by destruct Hu as [->|?].
    + rewrite decide_False by done. rewrite G7 by done. apply I.
  - intros ck. by rewrite S5.
  - intros ck. rewrite S6. cbn [is_in]. destruct (decide (ck = dk.1)) as [->|Hne]; [|by apply G6].
    destruct (is_in (ph dk)) eqn:E; [done|]. destruct (current_xfer (chips s dk.1)) as [j|] eqn:Ej; [|done].
    apply (i_cur _ _ _ _ I) in Ej. assert (u dk.1.1 = Some (dk.1, j)) as Eu.
    { apply (i_user _ _ _ _ I (dk.1, j)). unfold on_bus. by rewrite Ej. }
    destruct Hu as [Hu|Hu]; [congruence|]. unfold on_bus in Hu. rewrite E in Hu. by destruct Hp as [Hp|Hp]; rewrite Hp in Hu, E.
  - rewrite S9, G9. done.
  - rewrite S10, G10. by destruct Hp as [-> | ->].
  - intros c. rewrite S11, G11. eapply lists_ext; [|apply I]. intros t'. cbn beta.
    split; intros (dk' & Hc & Hw); exists dk'; (split; [done|]); revert Hw; unfold insert, fn_insert; case_decide; subst; try done.
    destruct Hp; congruence.
  - cbn [is_exec]. eapply started_avl; [done|done| |by rewrite S8, G8]. by destruct Hp as [-> | ->].
  - intros q. by rewrite S12.
  - intros t' q [= <-]. by right.
  - intros ck. by rewrite S13.
  - intros c. by rewrite S14.
  - intros _. right. destruct Hu as [Hu|Hu]; [by left|]. right. by apply I.
Qed.

Lemma given_steps X ph u s dk t s1 s' : inv X ph u s → ph dk = PIdle → given ph u s dk t s1 → started s1 dk s' →
  steps dk.1.1 [t] ph s (<[dk := PExec t]> ph) s'.
Proof using Type.
  intros I Hi [V _ _ Hf G1 G2 G3 G4 G5 G6 G7 G8 G9 G10 G11 G12 G13 G14 [G15 G16] G17] [S1 S2 S3 S4 S5 S6 S7 S8 S9 S10 S11 S12 S13 S14 [S15 S16] S17].
  pose proof (i_die _ _ _ _ I dk) as D. rewrite Hi in D. destruct D as (_ & _ & D3 & _).
  split.
  - apply (pending_start s s' dk); [done|done| | |].
    + destruct S4 as (-> & _). apply G4.
    + intros dk' Hne. by rewrite S3, G3.
    + intros q. by rewrite S12.
  - congruence.
  - congruence.
  - intros t'. by rewrite S1.
  - intros t'. destruct (S2 t') as [-> ->]. apply G2.
  - intros dk'. unfold insert, fn_insert. destruct (decide (dk = dk')) as [<-|]; [right; eauto|by left].
  - exists []. rewrite S9, G9, Hi, app_nil_r. split; [done|]. rewrite (queued_same s s'); [cbn; lia|].
    intros q. by rewrite S12.
  - congruence.
  - intros c. by rewrite S11.
  - intros dk' Hp. assert (dk' ≠ dk) by congruence. by rewrite S3, G3.
  - intros q t'. by rewrite S12, G12.
  - intros c Hc. rewrite S7, decide_False by done. by apply G7.
  - apply commands_issue; [intros q; by rewrite S12|intros t'; by rewrite S1|]. by rewrite S17, G17, decide_True by done.
Qed.

Context (X : chip_id → Z) (ph : die_id → phase) (u : Z → option die_id) (s : fil) (t c w i : Z).
Context (CS : can_start X ph u s t (c, w, i)).

Lemma start_facts :
  (channel (k_addr (tasks s t)) = c ∧ chip (k_addr (tasks s t)) = w ∧ die (k_addr (tasks s t)) = i) ∧
  (active_cmd (dies s (c, w, i)) = false ∧ current_cmd (dies s (c, w, i)) = false ∧
   active_txns (dies s (c, w, i)) = [] ∧ active_xfer (dies s (c, w, i)) = None) ∧
  channel_status s c = BUS_IDLE ∧ current_xfer (chips s (c, w)) = None ∧ cmd_xfer_queue (chips s (c, w)) = [].
Proof using CS.
  destruct CS as [I F Ea V Ty Hi Hb Hl]. cbn [fst snd] in Hb, Hl. split; [by injection Ea|]. split.
  - pose proof (i_die _ _ _ _ I (c, w, i)) as D. rewrite Hi in D. exact D.
  - split; [rewrite (i_bus _ _ _ _ I), Hb; done|]. split; [by eapply no_xfer|apply I].
Qed.

Lemma dispatch_write (complete : chip_id → Z → ST fil unit) (Q : unit → fil → Prop) :
  k_type (tasks s t) = TXN_WRITE →
  (∀ s', changed ph u s (c, w, i) (PIn t) s' → steps c [t] ph s (<[(c, w, i) := PIn t]> ph) s' → Q tt s') →
  wp (fil_dispatch_body (start_cmd_data_transfer_body complete) [t]) Q s.
Proof using CS.
  intros Tw HQ. pose proof start_facts as ((Ec & Ew & Ei) & (D1 & D2 & D3 & D4) & Bi & Cx & Xq).
  destruct CS as [I F Ea V Ty Hi Hb Hl]. cbn [fst snd] in Hb, Hl. unfold fil_dispatch_body.
  frun_with ltac:(rewrite ?Ec, ?Ew, ?Ei, ?D1, ?Bi, ?Cx, ?Xq, ?D3, ?Tw; cbn [negb app head deref fmap list_fmap length]; try done).
  unfold start_cmd_data_transfer_body.
  frun_with ltac:(rewrite ?Ec, ?Ew, ?Ei, ?D1, ?Bi, ?Cx, ?Xq, ?D3, ?Tw; cbn [negb app head deref fmap list_fmap length]; try done).
  change (command_code TXN_WRITE (Z.of_nat 1) _) with (code_of TXN_WRITE). cbn [code_of command_code].
  frun_with ltac:(idtac). apply HQ.
  - split; fcbn.
    + done.
    + done.
    + intros dk' Hne. by rewrite fn_lookup_insert_ne.
    + split; [|done]. split; fcbn; rewrite ?fn_lookup_insert; fcbn; try done. by rewrite Tw.
    + intros _. by right.
    + intros c'. unfold upd_user. fins; first [done|apply I].
    + intros ck'. fins; first [done|apply I].
    + intros ck'. fins; try done.
    + by rewrite Hi.
    + by rewrite Hi.
    + intros c'. eapply lists_ext; [|apply I]. intros t'. cbn beta. split; intros (dk' & Hc & Hp); exists dk'; split; try done; revert Hp; fins; congruence.
    + pose proof (i_avl _ _ _ _ I) as [A1 A2]. split; [done|]. intros x. rewrite A2. split; [|intros [[? _]|[? _]]; done].
      intros [Hx ?]. left. split; [done|]. intros E. rewrite E in Hx. by rewrite Hi in Hx.
    + done.
    + intros t' q [= <-]. right. apply F.
    + done.
    + done.
    + intros _. by apply Hl.
    + intros _. by right; left.
  - split; fcbn.
    + apply (pending_start s _ (c, w, i) t V D3); fcbn; rewrite ?fn_lookup_insert; try done. intros dk' Hne. by rewrite fn_lookup_insert_ne.
    + done.
    + done.
    + done.
    + done.
    + intros dk'. fins; [right|by left]. eauto.
    + exists [(c, w)]. split; [done|]. rewrite (queued_same s) by done. cbn. lia.
    + done.
    + done.
    + intros dk' Hp. rewrite fn_lookup_insert_ne; [done|]. intros <-. done.
    + done.
    + intros c' Hne. by rewrite fn_lookup_insert_ne.
    + apply commands_issue; [done|done|]. fcbn. rewrite issued_command by done. unfold command_of. by rewrite Tw, Ec, Ew, Ei.
Qed.

(** Requests that read or erase start at once; the scheduler runs again. *)
Lemma dispatch_exec (start_cmd : chip_id → ST fil unit) (notify : Z → ST fil unit) (Q : unit → fil → Prop) :
  k_type (tasks s t) ≠ TXN_WRITE →
  (∀ s', changed ph u s (c, w, i) (PExec t) s' → steps c [t] ph s (<[(c, w, i) := PExec t]> ph) s' → wp (notify c) Q s') →
  wp (fil_dispatch_body (start_cmd_data_transfer_body (complete_chip_transfer_body start_cmd notify)) [t]) Q s.
Proof using CS H0.
  intros Tw HQ. pose proof start_facts as ((Ec & Ew & Ei) & (D1 & D2 & D3 & D4) & Bi & Cx & Xq).
  destruct CS as [I F Ea V Ty Hi Hb Hl]. cbn [fst snd] in Hb, Hl. unfold fil_dispatch_body.
  frun_with ltac:(rewrite ?Ec, ?Ew, ?Ei, ?D1, ?Bi, ?Cx, ?Xq, ?D3; cbn [negb app head deref fmap list_fmap length]; try done).
  unfold start_cmd_data_transfer_body.
  frun_with ltac:(rewrite ?Ec, ?Ew, ?Ei, ?D1, ?Bi, ?Cx, ?Xq, ?D3; cbn [negb app head deref fmap list_fmap length]; try done).
  rewrite command_code_one by done.
  assert (∀ s1, given ph u s (c, w, i) t s1 → current_xfer (chips s1 (c, w)) = Some i →
     wp (complete_chip_transfer_body start_cmd notify (c, w) (timer (clock s))) Q s1) as HR.
  { intros s1 G Hcur. pose proof G as G'. destruct G as [_ _ _ _ G1 _ _ G4 G5 _ _ _ _ _ _ _ _ _ _ _].
    destruct G4 as [O1 O2 O3 O4 O5 O6 O7]. apply (complete_transfer _ _ _ s1 c w i t); try done.
    - by rewrite O7.
    - intros s' S. apply HQ; [by eapply started_changed|exact (given_steps X ph u s (c, w, i) t s1 s' I Hi G' S)]. }
  set (s1 := set_chips _ _).
  assert (∀ l, issued l = issued (nfc_log s) ++ [command_of (tasks s t)] →
    given ph u s (c, w, i) t (set_log l s1) ∧ current_xfer (chips (set_log l s1) (c, w)) = Some i) as G.
  { intros l El. subst s1. split; [|fcbn; by rewrite fn_lookup_insert]. split; fcbn; try done.
    - by left.
    - by left.
    - apply F.
    - intros dk' Hne. by rewrite fn_lookup_insert_ne.
    - split; fcbn; rewrite ?fn_lookup_insert; fcbn; done.
    - intros ck'. fins; first [done|apply I].
    - intros ck' Hne. by rewrite !fn_lookup_insert_ne.
    - intros c' Hne. by rewrite fn_lookup_insert_ne.
    - by rewrite Hi.
    - by rewrite decide_True by done. }
  assert (nfc_log s1 = nfc_log s ++ [SelectVolume c w true]) as El by done. clearbody s1. unfold command_of in G.
  rewrite Ec, Ew, Ei in G. destruct (k_type (tasks s t)); try done; cbn [code_of command_code Z.eqb Pos.eqb];
    frun_with ltac:(idtac); apply HR; apply G; rewrite El; by apply issued_command.
Qed.
End start.
