(* ===== verification/FilQueue.v ===== *)
(** Requests in the queues: taking one out, the first request of a die, and the
    batch that is made of it. *)
From stdpp Require Import functions.
From S2P Require Import Prelude Avl Flash Fil FilFacts FilSched.
#[local] Open Scope Z_scope.
#[local] Unset Default Proof Using.

(** * Queues *)
Definition is_write_queue (q : queue_id) : bool :=
  match q with write_queue | mapping_write_queue | gc_write_queue => true | _ => false end.
Definition is_write (k : task) : bool := bool_decide (k_type k = TXN_WRITE).
Lemma queued_write k q : queued_ok k q → is_write k = is_write_queue q.2.
Proof. intros (_ & E & _). unfold is_write. destruct (k_type k), (k_source k); try done; injection E as <-; done. Qed.
Lemma queued_type k q : queued_ok k q → k_type k ≠ TXN_DUMP.
Proof. intros (_ & E & _) Ht. by rewrite Ht in E. Qed.
Lemma queued_unique k q q' : queued_ok k q → queued_ok k q' → q = q'.
Proof. intros (E1 & E2 & _) (E3 & E4 & _). destruct q, q'. cbn in *. congruence. Qed.
Lemma queued_in k q : queued_ok k q → q ∈ all_queues.
Proof. intros (E & _ & V). destruct q as [[c w] q]. cbn in E. injection E as <- <-. by eapply all_queues_valid. Qed.
Lemma queued_die k q : queued_ok k q → die_of (k_addr k) = (q.1, die (k_addr k)).
Proof. intros (<- & _). done. Qed.

Definition bump (ck : chip_id) (n : Z) (X : chip_id → Z) : chip_id → Z := <[ck := X ck + n]> X.
Lemma inv_extra X X' ph u s : (∀ ck, X ck = X' ck) → inv X ph u s → inv X' ph u s.
Proof. intros E I. destruct I. split; try done. intros ck. by rewrite <-E. Qed.
Lemma bump_bump ck n m X ck' : bump ck n (bump ck m X) ck' = bump ck (m + n) X ck'.
Proof. unfold bump. fins; lia. Qed.
Lemma bump_0 ck X ck' : bump ck 0 X ck' = X ck'.
Proof. unfold bump. fins; lia. Qed.
Lemma bump_pos ck n X : 0 ≤ n → (∀ ck, 0 ≤ X ck) → ∀ ck', 0 ≤ bump ck n X ck'.
Proof. intros Hn HX ck'. unfold bump. pose proof (HX ck). fins; [lia|done]. Qed.

(** [s] with a request taken from its queue. *)
Definition taken (q : chip_id * queue_id) (t : Z) (s : fil) : fil :=
  set_queues (<[q := list_del t (chip_queues s q)]> (chip_queues s)) s.
Lemma list_del_perm (t : Z) l : NoDup l → t ∈ l → l ≡ₚ t :: list_del t l.
Proof.
  intros Hn Ht. apply NoDup_Permutation; [done| |].
  - constructor; [rewrite elem_of_list_del; tauto|by apply NoDup_list_del].
  - intros x. rewrite elem_of_cons, elem_of_list_del. destruct (decide (x = t)); naive_solver.
Qed.
Lemma chip_queued_update s s' ck q : (∀ q', q' ≠ (ck, q) → chip_queues s' q' = chip_queues s q') →
  (∀ ck', ck' ≠ ck → chip_queued s' ck' = chip_queued s ck') ∧
  ∃ rest, chip_queued s ck ≡ₚ chip_queues s (ck, q) ++ rest ∧ chip_queued s' ck ≡ₚ chip_queues s' (ck, q) ++ rest.
Proof.
  intros E. split.
  - intros ck' Hne. unfold chip_queued. apply list_bind_ext; [|done]. intros q'. apply E. congruence.
  - apply (bind_update queue_ids (λ q, chip_queues s (ck, q)) (λ q, chip_queues s' (ck, q)) q).
    + apply (bool_decide_unpack _). vm_compute. exact I.
    + destruct q; set_solver.
    + intros q' Hne. apply E. congruence.
Qed.
Lemma queued_update s s' q : q ∈ all_queues → (∀ q', q' ≠ q → chip_queues s' q' = chip_queues s q') →
  ∃ rest, queued s ≡ₚ chip_queues s q ++ rest ∧ queued s' ≡ₚ chip_queues s' q ++ rest.
Proof. intros Hq E. apply (bind_update all_queues (chip_queues s) (chip_queues s') q); [apply all_queues_NoDup|done|done]. Qed.

Section taken.
Context (X : chip_id → Z) (ph : die_id → phase) (u : Z → option die_id) (s : fil) (q : chip_id * queue_id) (t : Z).
Context (I : inv X ph u s) (Ht : t ∈ chip_queues s q).
Lemma taken_ok : queued_ok (tasks s t) q.
Proof using All. by apply (i_queue _ _ _ _ I q). Qed.
Lemma taken_queue q' : chip_queues (taken q t s) q' = if decide (q' = q) then list_del t (chip_queues s q) else chip_queues s q'.
Proof using Type. unfold taken. fcbn. unfold insert, fn_insert. destruct (decide (q = q')), (decide (q' = q)); congruence. Qed.
Lemma taken_perm : queued s ≡ₚ t :: queued (taken q t s).
Proof using All.
  destruct (queued_update s (taken q t s) q) as (rest & -> & ->).
  - eapply queued_in, taken_ok.
  - intros q' Hne. rewrite taken_queue. by rewrite decide_False.
  - rewrite taken_queue, decide_True by done. rewrite (list_del_perm t (chip_queues s q)) at 1; [done| |done]. apply I.
Qed.
Lemma taken_inv : inv (bump q.1 1 X) ph u (taken q t s).
Proof using All.
  pose proof (chip_queued_update s (taken q t s) q.1 q.2) as [H1 (rest & H2 & H3)].
  { intros q' Hne. rewrite taken_queue, decide_False; [done|]. intros ->. apply Hne. by destruct q. }
  replace (q.1, q.2) with q in * by by destruct q.
  destruct I. split; try done.
  - intros dk. by apply (die_ok_ext s).
  - intros q'. rewrite taken_queue. destruct (decide (q' = q)) as [->|Hne]; [|apply i_queue].
    destruct (i_queue q) as [N1 N2]. split; [by apply NoDup_list_del|]. intros t' [_ H']%elem_of_list_del. by apply N2.
  - intros ck. unfold taken at 1. fcbn. rewrite i_count. unfold bump, insert, fn_insert.
    destruct (decide (q.1 = ck)) as [<-|Hne]; [|by rewrite H1].
    rewrite H2, H3, !length_app, taken_queue, decide_True by done.
    pose proof (length_list_del t (chip_queues s q) (proj1 (i_queue q)) Ht). lia.
Qed.
Lemma taken_free : free_task ph (taken q t s) t.
Proof using All.
  split.
  - intros q'. rewrite taken_queue. destruct (decide (q' = q)) as [->|Hne]; [rewrite elem_of_list_del; tauto|].
    intros H'. apply Hne. eapply queued_unique; [|apply taken_ok]. by apply (i_queue _ _ _ _ I q').
  - by apply (i_queue _ _ _ _ I q).
Qed.
Lemma taken_length : length (queued s) = S (length (queued (taken q t s))).
Proof using All. by rewrite taken_perm. Qed.
Lemma taken_commands : commands s ≡ₚ commands_of s [t] ++ commands (taken q t s).
Proof using All.
  unfold commands. change (nfc_log (taken q t s)) with (nfc_log s). rewrite (commands_of_static s (taken q t s)) by done.
  unfold commands_of at 1. rewrite taken_perm. cbn [commands_of fmap list_fmap app]. by rewrite <-Permutation_middle.
Qed.
(** A step from the state without the request is a step from the state with it. *)
Lemma taken_steps c ph' s' : steps c [t] ph (taken q t s) ph' s' → steps c [] ph s ph' s'.
Proof using All.
  intros S. destruct S. split; try done.
  - rewrite st_pending. unfold pending. rewrite taken_perm. done.
  - destruct st_in as (l & E & L). exists l. split; [done|]. rewrite taken_length. cbn [length] in *. lia.
  - intros q' t' H'. apply st_queues in H'. rewrite taken_queue in H'. case_decide; [subst|done]. by apply elem_of_list_del in H' as [_ ?].
  - rewrite st_commands, taken_commands, (commands_of_static s (taken q t s)) by done. done.
Qed.
End taken.

(** * The choice of requests *)
Definition first_on (s : fil) (l : list Z) (d : Z) : option Z := head (filter (λ t, die (k_addr (tasks s t)) = d) l).
Lemma first_on_elem s l d t : first_on s l d = Some t → t ∈ l ∧ die (k_addr (tasks s t)) = d.
Proof.
  unfold first_on. intros E. assert (t ∈ filter (λ t, die (k_addr (tasks s t)) = d) l) as Hf.
  { destruct (filter _ l); [done|]. injection E as ->. by left. }
  apply list_elem_of_filter in Hf. tauto.
Qed.
Lemma first_on_none s l d t : first_on s l d = None → t ∈ l → die (k_addr (tasks s t)) ≠ d.
Proof.
  unfold first_on. intros E Ht Hd. assert (t ∈ filter (λ t, die (k_addr (tasks s t)) = d) l) as Hf by by apply list_elem_of_filter.
  destruct (filter _ l); [by apply not_elem_of_nil in Hf|done].
Qed.

Section choice.
Context `{Nfc}.
Lemma wp_pack q l d pg (Q : list Z * Z → fil → Prop) s :
  match first_on s l d with Some t => ∀ pb, Q ([t], pb) (taken q t s) | None => Q ([], 0) s end →
  wp (pack q l d pg [] 0) Q s.
Proof using Type.
  unfold first_on. induction l as [|t l IH]; intros HQ; cbn [pack]; [done|].
  unfold get_task. wp_steps. rewrite Z.testbit_0_l. cbn [negb andb orb Z.eqb]. rewrite andb_true_r, andb_true_r.
  rewrite filter_cons in HQ. destruct (decide (die (k_addr (tasks s t)) = d)) as [->|Hne].
  - rewrite Z.eqb_refl. unfold get_queue, put_queue. wp_steps. cbn [app]. unfold max_batch_nr. cbn [length Z.of_nat Z.leb Z.compare Pos.compare Pos.compare_cont].
    apply HQ.
  - rewrite (proj2 (Z.eqb_neq _ _) Hne). wp_steps. by apply IH.
Qed.
Lemma wp_make_batch q_prim q_sec d pg (Q : list Z → fil → Prop) s :
  (match first_on s (chip_queues s q_prim) d with
   | Some t => Q [t] (taken q_prim t s)
   | None =>
       match q_sec with
       | Some q => match first_on s (chip_queues s q) d with Some t => Q [t] (taken q t s) | None => Q [] s end
       | None => Q [] s
       end
   end) → wp (make_batch q_prim q_sec d pg) Q s.
Proof using Type.
  intros HQ. unfold make_batch, get_queue. wp_steps. apply wp_pack. destruct (first_on s (chip_queues s q_prim) d) as [t|].
  - intros pb. by destruct q_sec.
  - destruct q_sec as [q|]; [|done]. change (Z.of_nat (length (@nil Z)) <? max_batch_nr) with true. cbv iota. wp_steps. apply wp_pack. destruct (first_on s (chip_queues s q) d); [|done]. intros pb. done.
Qed.
End choice.
