(* ===== verification/FilDispatch.v ===== *)
(** The scheduler on one chip: candidates for the dies, dispatching from a pair of
    queues, and the choice of the queues. *)
From stdpp Require Import functions.
From S2P Require Import Prelude Avl Flash Fil FilFacts FilSched FilQueue.
#[local] Open Scope Z_scope.
#[local] Unset Default Proof Using.

(** * What a call of the scheduler on channel [c] leaves *)
Definition rr_kept (c : Z) (u : Z → option die_id) (s s' : fil) : Prop :=
  u c ≠ None ∨ channel_rr_index s' c = channel_rr_index s c.
Record advanced (X : chip_id → Z) (c : Z) (new : list Z) (ph : die_id → phase) (s : fil)
    (ph' : die_id → phase) (u' : Z → option die_id) (s' : fil) : Prop := {
  ad_inv : inv X ph' u' s';
  ad_steps : steps c new ph s ph' s';
  ad_rr : rr_kept c u' s s';
}.
Definition in_range (c w : Z) : Prop := 0 ≤ c < NR_CHANNELS ∧ 0 ≤ w < CHIPS_PER_CHANNEL.
Definition chip_busy (ph : die_id → phase) (ck : chip_id) : Prop := ∃ i, ph (ck, i) ≠ PIdle.

(** [dispatch] starts a request with less than [n] requests queued. *)
Definition dispatches (n : nat) (dispatch : list Z → ST fil unit) : Prop :=
  ∀ X ph u s t dk, can_start X ph u s t dk → (∀ ck, 0 ≤ X ck) → (length (queued s) < n)%nat →
  wp (dispatch [t]) (λ _ s', ∃ ph' u', advanced X dk.1.1 [t] ph s ph' u' s' ∧ ph' dk ≠ PIdle) s.
Definition flushes (n : nat) (flush : Z → ST fil unit) : Prop :=
  ∀ X ph u s c, inv X ph u s → (∀ ck, 0 ≤ X ck) → 0 ≤ c < NR_CHANNELS → u c = None → (length (queued s) ≤ n)%nat →
  wp (flush c) (λ _ s', ∃ ph' u', advanced X c [] ph s ph' u' s' ∧
    (u' c = None → ∀ w, 0 ≤ w < CHIPS_PER_CHANNEL → chip_served ph' s' (c, w))) s.

Lemma inv_idle X ph u s dk : inv X ph u s → active_cmd (dies s dk) = false → ph dk = PIdle.
Proof.
  intros I Ha. pose proof (i_die _ _ _ _ I dk) as D.
  destruct (ph dk); [done|..]; destruct D as [[] _]; congruence.
Qed.
Lemma inv_active X ph u s dk : inv X ph u s → active_cmd (dies s dk) = true → ph dk ≠ PIdle.
Proof. intros I Ha E. pose proof (i_die _ _ _ _ I dk) as D. rewrite E in D. destruct D as (? & _). congruence. Qed.
Lemma blocks_active x : blocks_program x = true → active_cmd x = true.
Proof. unfold blocks_program. by destruct (active_cmd x). Qed.
Lemma advanced_refl X c ph u s : inv X ph u s → advanced X c [] ph s ph u s.
Proof. intros I. split; [done|apply steps_refl|by right]. Qed.
Lemma bus_idle X ph u s c : inv X ph u s → channel_status s c = BUS_IDLE ↔ u c = None.
Proof. intros I. rewrite (i_bus _ _ _ _ I). by destruct (u c). Qed.
Lemma bus_busy X ph u s c : inv X ph u s → bool_decide (channel_status s c ≠ BUS_IDLE) = bool_decide (u c ≠ None).
Proof. intros I. apply bool_decide_ext. by rewrite (bus_idle _ _ _ _ _ I). Qed.

Lemma chip_busy_em X ph u s ck : inv X ph u s → chip_busy ph ck ∨ ¬ chip_busy ph ck.
Proof.
  intros I. destruct (decide (Exists (λ i, ph (ck, i) ≠ PIdle) (seqZ 0 DIES_PER_CHIP))) as [E|E]; [left|right].
  - apply Exists_exists in E as (i & _ & Hi). by exists i.
  - intros [i Hi]. apply E, Exists_exists. exists i. split; [|done].
    pose proof (i_valid _ _ _ _ I _ Hi) as V. destruct ck. apply valid_bounds in V as (_ & _ & ?). apply elem_of_seqZ. lia.
Qed.

Section busy.
Context `{Nfc}.
Lemma wp_die_busy X ph u s c w d iw (Q : bool → fil → Prop) : inv X ph u s → valid (c, w, d) →
  (∀ b, (b = false → ph (c, w, d) = PIdle ∧ (iw = true → ∀ d, blocks_program (dies s (c, w, d)) = false)) →
    (b = true → chip_busy ph (c, w)) → Q b s) →
  wp (fil_is_die_busy c w d iw) Q s.
Proof using Type.
  intros I V HQ. unfold fil_is_die_busy. wp_steps; [exact V|].
  assert (∀ d', active_cmd (dies s (c, w, d')) = true → chip_busy ph (c, w)) as Hb.
  { intros d' Ha. exists d'. by eapply inv_active. }
  destruct (iw && existsb _ _) eqn:E; wp_steps.
  - apply HQ; [done|]. intros _. apply andb_true_iff in E as [_ (d' & _ & Hd)%existsb_exists]. by eapply Hb, blocks_active.
  - apply HQ; [|by apply Hb]. intros Ha. split; [by eapply inv_idle|]. intros -> d'. cbn [andb] in E.
    destruct (blocks_program (dies s (c, w, d'))) eqn:Eb; [|done].
    assert (valid (c, w, d')) as V' by (eapply i_valid; [done|]; eapply inv_active; [done|]; by apply blocks_active).
    apply valid_bounds in V' as (_ & _ & V'). rewrite <-E. symmetry. apply existsb_exists. exists d'. split; [|done].
    apply list_elem_of_In, elem_of_seqZ. lia.
Qed.
Lemma wp_channel_busy c (Q : bool → fil → Prop) s : 0 ≤ c < NR_CHANNELS →
  Q (bool_decide (channel_status s c ≠ BUS_IDLE)) s → wp (fil_is_channel_busy c) Q s.
Proof using Type. intros Hc HQ. unfold fil_is_channel_busy. wp_steps; [lia|done]. Qed.
End busy.

Lemma advanced_trans X c n1 n2 ph1 s1 ph2 u2 s2 ph3 u3 s3 X1 :
  advanced X1 c n1 ph1 s1 ph2 u2 s2 → u2 c = None → advanced X c n2 ph2 s2 ph3 u3 s3 →
  advanced X c (n1 ++ n2) ph1 s1 ph3 u3 s3.
Proof.
  intros [I1 S1 R1] Hu [I2 S2 R2]. split; [done|by eapply steps_trans|].
  destruct R2 as [R2|R2]; [by left|right]. destruct R1; [done|congruence].
Qed.
Lemma busy_steps c new ph s ph' s' ck : steps c new ph s ph' s' → chip_busy ph ck → chip_busy ph' ck.
Proof. intros S [i Hi]. exists i. by eapply steps_active. Qed.

(** * Dispatching from a pair of queues *)
Section dispatch.
Context `{NfcOk} (n : nat) (dispatch : list Z → ST fil unit) (HD : dispatches n dispatch).
Context (c w : Z) (HR : in_range c w).
Let ck : chip_id := (c, w).

(** The candidates of [dispatch_dies] and the queues it takes requests from. *)
Definition kind_ok (iw : bool) (q_prim : chip_id * queue_id) (q_sec : option (chip_id * queue_id)) : Prop :=
  q_prim.1 = ck ∧ is_write_queue q_prim.2 = iw ∧
  match q_sec with Some q => q.1 = ck ∧ is_write_queue q.2 = iw | None => True end.
Definition heads_ok (iw : bool) (heads : Z → option Z) (s : fil) : Prop :=
  ∀ d h, heads d = Some h → die_of (k_addr (tasks s h)) = (ck, d) ∧ valid (ck, d) ∧ is_write (tasks s h) = iw.
Lemma heads_ok_static iw heads s s' : (∀ t, static (tasks s' t) = static (tasks s t)) → heads_ok iw heads s → heads_ok iw heads s'.
Proof using Type.
  intros E H' d h Hh. unfold is_write. destruct (static_addr _ _ (E h)) as (-> & -> & _). by apply H'.
Qed.

(** The end of an iteration of [dispatch_dies]. *)
Definition after_batch (ds : list Z) heads q_prim q_sec (h found : Z) : ST fil Z :=
  k ← gets (λ s : fil, tasks s h);
  busy ← fil_is_channel_busy (channel (k_addr k));
  if busy : bool then mret found else dispatch_dies dispatch ds heads q_prim q_sec found.
Record dispatched (X : chip_id → Z) (ph : die_id → phase) (u : Z → option die_id) (s : fil) (k : Z)
    (ph' : die_id → phase) (u' : Z → option die_id) (s' : fil) : Prop := {
  di_adv : advanced (bump ck k X) c [] ph s ph' u' s';
  di_pos : 0 ≤ k;
  di_none : k = 0 → s' = s ∧ ph' = ph ∧ u' = u;
  di_some : 0 < k → chip_busy ph' ck;
}.
Lemma dispatched_refl X ph u s : inv X ph u s → dispatched X ph u s 0 ph u s.
Proof using Type.
  intros I. split; [|done|done|done]. apply advanced_refl. eapply inv_extra; [|exact I]. intros ck'. by rewrite bump_0.
Qed.

(** One batch. *)
Lemma dispatch_one X ph u s q t d : inv X ph u s → (∀ ck, 0 ≤ X ck) → u c = None → (length (queued s) ≤ n)%nat →
  t ∈ chip_queues s q → q.1 = ck → die (k_addr (tasks s t)) = d → ph (ck, d) = PIdle →
  (is_write_queue q.2 = true → ∀ d, blocks_program (dies s (ck, d)) = false) →
  wp (dispatch [t]) (λ _ s', ∃ ph' u', advanced (bump ck 1 X) c [] ph s ph' u' s' ∧ chip_busy ph' ck) (taken q t s).
Proof using HD.
  intros I HX Hu Hn Ht Hq Hd Hi Hb. pose proof (taken_ok _ _ _ _ _ _ I Ht) as Tk.
  eapply wp_mono.
  - apply (HD (bump ck 1 X) ph u (taken q t s) t (ck, d)).
    + split; try done.
      * rewrite <-Hq. by apply taken_inv.
      * by eapply taken_free.
      * change (tasks (taken q t s)) with (tasks s). rewrite (queued_die _ _ Tk), Hq, Hd. done.
      * destruct Tk as (E1 & _ & V). unfold die_of in V. rewrite Hd in V. rewrite <-Hq, <-E1. exact V.
      * by eapply queued_type.
      * intros Hw d' _. apply Hb. rewrite <-(queued_write _ _ Tk). unfold is_write. by apply bool_decide_eq_true.
    + by apply bump_pos.
    + rewrite (taken_length _ _ _ _ _ _ I Ht) in Hn. lia.
  - intros [] s' (ph' & u' & [I' S' R'] & Hp). exists ph', u'. split; [|by exists d]. split; [done| |done].
    by eapply taken_steps.
Qed.

Lemma cons_case (P : Prop) (heads : Z → option Z) (M : Z → Prop) d ds :
  (∀ d' h, d' ∈ ds → heads d' = Some h → M h → P) → (∀ h, heads d = Some h → M h → P) →
  ∀ d' h, d' ∈ d :: ds → heads d' = Some h → M h → P.
Proof using Type. intros P1 P2 d' h [->|Hd']%elem_of_cons; [apply P2|by apply P1]. Qed.

(** What a round over the dies [ds] achieves: requests are taken and started, or
    the chip is busy if a candidate of the first queue was left. *)
Definition dies_post (X : chip_id → Z) (ph : die_id → phase) u (s : fil) (ds : list Z) (heads : Z → option Z)
    (q_prim : chip_id * queue_id) (found r : Z) (s' : fil) : Prop :=
  ∃ ph' u', dispatched X ph u s (r - found) ph' u' s' ∧
    (r = found → ∀ d h, d ∈ ds → heads d = Some h → h ∈ chip_queues s q_prim → chip_busy ph ck).
Definition dies_ok (ds : list Z) : Prop := ∀ X ph u s heads q_prim q_sec iw found,
  inv X ph u s → (∀ ck, 0 ≤ X ck) → u c = None → (length (queued s) ≤ n)%nat → kind_ok iw q_prim q_sec → heads_ok iw heads s →
  wp (dispatch_dies dispatch ds heads q_prim q_sec found) (dies_post X ph u s ds heads q_prim found) s.
Lemma dies_post_cons X ph u s d ds heads q_prim found r s' : dies_post X ph u s ds heads q_prim found r s' →
  (r = found → ∀ h, heads d = Some h → h ∈ chip_queues s q_prim → chip_busy ph ck) →
  dies_post X ph u s (d :: ds) heads q_prim found r s'.
Proof using Type.
  intros (ph' & u' & D & P) Hd. exists ph', u'. split; [done|]. intros Hr. apply cons_case; [by apply P|by apply Hd].
Qed.

Section die.
Context (d : Z) (ds : list Z) (IH : dies_ok ds) (X : chip_id → Z) (ph : die_id → phase) (u : Z → option die_id) (s : fil).
Context (I : inv X ph u s) (HX : ∀ ck, 0 ≤ X ck) (Hu : u c = None) (Hn : (length (queued s) ≤ n)%nat).
Context (heads : Z → option Z) (q_prim : chip_id * queue_id) (q_sec : option (chip_id * queue_id)) (iw : bool).
Context (HK : kind_ok iw q_prim q_sec) (HH : heads_ok iw heads s) (found h : Z) (Eh : heads d = Some h).

(** The end of the iteration, after a batch of [k]. *)
Lemma wp_after_batch s1 k ph1 u1 : dispatched X ph u s k ph1 u1 s1 →
  (k = 0 → ∀ h, heads d = Some h → h ∈ chip_queues s q_prim → chip_busy ph ck) →
  wp (after_batch ds heads q_prim q_sec h (found + k)) (dies_post X ph u s (d :: ds) heads q_prim found) s1.
Proof using All.
  intros D Hk. destruct (HH d h Eh) as (Ha & V & Hw). destruct D as [[I1 S1 R1] Hpos Hnone Hsome]. unfold after_batch. wp_steps.
  destruct (static_addr _ _ (st_static _ _ _ _ _ _ S1 h)) as (-> & _).
  assert (channel (k_addr (tasks s h)) = c) as -> by by injection Ha.
  apply wp_channel_busy; [apply HR|]. rewrite (bus_busy _ _ _ _ _ I1).
  destruct (decide (k = 0)) as [->|Hk0].
  - destruct (Hnone eq_refl) as (-> & -> & ->). rewrite bool_decide_false by (by intros ?). rewrite Z.add_0_r.
    eapply wp_mono; [by apply (IH X ph u s heads q_prim q_sec iw found)|]. intros r s' P. apply dies_post_cons; [done|]. intros _. by apply Hk.
  - destruct (bool_decide_reflect (u1 c ≠ None)) as [Hu1|Hu1]; wp_steps.
    + exists ph1, u1. replace (found + k - found) with k by lia. split; [done|lia].
    + assert (u1 c = None) as Hu1' by (destruct (u1 c); [exfalso; by apply Hu1|done]).
      eapply wp_mono.
      * apply (IH (bump ck k X) ph1 u1 s1 heads q_prim q_sec iw (found + k)); [done|by apply bump_pos|done| |done|].
        -- pose proof (steps_queued _ _ _ _ _ _ S1). cbn [length] in *. lia.
        -- eapply heads_ok_static; [|done]. apply S1.
      * intros r s' (ph' & u' & [A' Hpos' _ Hsome'] & _). exists ph', u'. split; [|lia]. split; [|lia|lia|].
        -- change (@nil Z) with (@nil Z ++ []). destruct A' as [I2 S2 R2].
           eapply advanced_trans; [split; [exact I1|exact S1|exact R1]|done|]. split; [|done|done].
           eapply inv_extra; [|exact I2]. intros ck'. rewrite bump_bump. f_equal. lia.
        -- intros _. apply (busy_steps _ _ _ _ _ _ _ (ad_steps _ _ _ _ _ _ _ _ A')). apply Hsome. lia.
Qed.
(** A batch of one request that was found. *)
Lemma wp_batch_one q t : t ∈ chip_queues s q → q.1 = ck → is_write_queue q.2 = iw → die (k_addr (tasks s t)) = d →
  ph (ck, d) = PIdle → (iw = true → ∀ d, blocks_program (dies s (ck, d)) = false) →
  wp (do_if (bool_decide ([t] ≠ [])) (dispatch [t])) (λ _ s', wp (after_batch ds heads q_prim q_sec h (found + 1))
    (dies_post X ph u s (d :: ds) heads q_prim found) s') (taken q t s).
Proof using All.
  intros Ht Hq Hqw Hd Hidle Hlun. cbn [do_if bool_decide]. wp_steps. rewrite bool_decide_true by done.
  eapply wp_mono; [eapply dispatch_one; try done|].
  - intros Hqt. apply Hlun. congruence.
  - intros [] s1 (ph1 & u1 & A1 & B1). apply (wp_after_batch s1 1 ph1 u1); [|done]. by split.
Qed.
(** No request was found. *)
Lemma wp_batch_none : first_on s (chip_queues s q_prim) d = None →
  wp (do_if (bool_decide (@nil Z ≠ [])) (dispatch [])) (λ _ s', wp (after_batch ds heads q_prim q_sec h (found + 0))
    (dies_post X ph u s (d :: ds) heads q_prim found) s') s.
Proof using All.
  intros E1. rewrite bool_decide_false by (by intros ?). wp_steps. cbn [do_if].
  apply (wp_after_batch s 0 ph u); [by apply dispatched_refl|]. intros _ h' Eh' Hin. exfalso.
  destruct (HH d h' Eh') as (Ha' & _). eapply first_on_none; [done|exact Hin|]. by injection Ha'.
Qed.
End die.

Lemma wp_dispatch_dies ds : dies_ok ds.
Proof using All.
  induction ds as [|d ds IH]; intros X ph u s heads q_prim q_sec iw found I HX Hu Hn HK HH; cbn [dispatch_dies]; wp_steps.
  { exists ph, u. rewrite Z.sub_diag. split; [by apply dispatched_refl|]. intros _ d h Hd. by apply not_elem_of_nil in Hd. }
  destruct (heads d) as [h|] eqn:Eh.
  2:{ eapply wp_mono; [by eapply IH|]. intros r s' P. apply dies_post_cons; [done|]. intros _ h'. by rewrite Eh. }
  destruct (HH d h Eh) as (Ha & V & Hw). unfold get_task. wp_steps.
  assert (channel (k_addr (tasks s h)) = c ∧ chip (k_addr (tasks s h)) = w) as [-> ->] by by injection Ha.
  change (bool_decide (k_type (tasks s h) = TXN_WRITE)) with (is_write (tasks s h)). rewrite Hw.
  eapply wp_die_busy; [done|done|]. intros b Hfree Hbusy. destruct b.
  { eapply wp_mono; [by eapply IH|]. intros r s' P. apply dies_post_cons; [done|]. intros; by apply Hbusy. }
  destruct (Hfree eq_refl) as [Hidle Hlun]. clear Hfree Hbusy. wp_steps. pose proof HK as (K1 & K2 & K3). apply wp_make_batch.
  destruct (first_on s (chip_queues s q_prim) d) as [t|] eqn:E1.
  { apply first_on_elem in E1 as [Ht Hd]. wp_steps. cbn [length Z.of_nat Pos.of_succ_nat]. by eapply wp_batch_one. }
  destruct q_sec as [q|]; [|wp_steps; by eapply wp_batch_none].
  destruct (first_on s (chip_queues s q) d) as [t|] eqn:E2; [|wp_steps; by eapply wp_batch_none].
  apply first_on_elem in E2 as [Ht Hd]. wp_steps. cbn [length Z.of_nat Pos.of_succ_nat]. destruct K3. by eapply wp_batch_one.
Qed.

(** ** Candidates *)
Lemma wp_select iw l heads bm X ph u s (Q : (Z → option Z) → fil → Prop) : inv X ph u s → heads_ok iw heads s →
  (∀ t, t ∈ l → die_of (k_addr (tasks s t)) = (ck, die (k_addr (tasks s t))) ∧ valid (die_of (k_addr (tasks s t))) ∧ is_write (tasks s t) = iw) →
  (∀ heads', heads_ok iw heads' s → (∀ d, Z.testbit bm d = true → heads' d = heads d) →
    (∀ t l', l = t :: l' → bm = 0 → ¬ chip_busy ph ck → heads' (die (k_addr (tasks s t))) = Some t) → Q heads' s) →
  wp (select_candidates l heads bm) Q s.
Proof using All.
  intros I. revert heads bm Q. induction l as [|t l IH]; intros heads bm Q HH Hl HQ; cbn [select_candidates]; wp_steps.
  { apply HQ; [done|done|]. intros t l' [=]. }
  unfold get_task. wp_steps. destruct (Hl t ltac:(by left)) as (Ha & V & Hw).
  assert (channel (k_addr (tasks s t)) = c ∧ chip (k_addr (tasks s t)) = w) as [Ec Ew] by by injection Ha.
  change (bool_decide (k_type (tasks s t) = TXN_WRITE)) with (is_write (tasks s t)).
  destruct (Z.testbit bm (die (k_addr (tasks s t)))) eqn:Eb.
  { apply IH; [done|set_solver|]. intros heads' H1 H2 H3. apply HQ; [done|done|]. intros t' l' [= <- <-] ->.
    by rewrite Z.testbit_0_l in Eb. }
  rewrite Ec, Ew. wp_steps. rewrite Ha in V. eapply wp_die_busy; [done|exact V|]. intros b _ Hbusy.
  set (heads1 := if b then heads else <[die (k_addr (tasks s t)) := Some t]> heads).
  assert (heads_ok iw heads1 s) as HH1.
  { subst heads1. destruct b; [done|]. intros d h. unfold insert, fn_insert. case_decide; [|apply HH].
    intros [= <-]. subst d. rewrite Ha. done. }
  assert (∀ d, Z.testbit bm d = true → heads1 d = heads d) as Hkeep.
  { intros d Hd. subst heads1. destruct b; [done|]. rewrite fn_lookup_insert_ne; [done|]. intros E. congruence. }
  assert (¬ chip_busy ph ck → heads1 (die (k_addr (tasks s t))) = Some t) as Hfirst.
  { intros Hn. subst heads1. destruct b; [exfalso; by apply Hn, Hbusy|]. by rewrite fn_lookup_insert. }
  destruct (negb b && _) eqn:Ebr.
  { wp_steps. apply HQ; [done|done|]. intros t' l' [= <- <-] _. done. }
  destruct (Z.setbit _ _ =? _).
  { wp_steps. apply HQ; [done|done|]. intros t' l' [= <- <-] _. done. }
  assert (0 ≤ die (k_addr (tasks s t))) as Hpos by (apply valid_bounds in V; lia).
  apply IH; [done|set_solver|]. intros heads' H1 H2 H3. apply HQ; [done| |].
  - intros d Hd. rewrite H2; [by apply Hkeep|]. rewrite Z.setbit_eqb by done. by rewrite Hd, orb_true_r.
  - intros t' l' [= <- <-] _ Hn. rewrite H2; [by apply Hfirst|]. by rewrite Z.setbit_eq.
Qed.

Lemma wp_dispatch_queue_request X ph u s q_prim q_sec iw : inv X ph u s → (∀ ck, 0 ≤ X ck) → u c = None →
  (length (queued s) ≤ n)%nat → kind_ok iw q_prim q_sec →
  wp (dispatch_queue_request dispatch q_prim q_sec) (λ r s', ∃ ph' u',
    dispatched X ph u s r ph' u' s' ∧ (r = 0 → chip_queues s q_prim ≠ [] → chip_busy ph ck)) s.
Proof using All.
  intros I HX Hu Hn HK. unfold dispatch_queue_request, get_queue. wp_steps.
  assert (∀ t, t ∈ chip_queues s q_prim → queued_ok (tasks s t) q_prim) as Hq by (intros t Ht; by apply (i_queue _ _ _ _ I q_prim)).
  destruct HK as (K1 & K2 & K3). apply (wp_select iw _ _ _ X ph u); [done|done| |].
  { intros t Ht. pose proof (Hq t Ht) as Tk. rewrite (queued_die _ _ Tk), K1, <-K1, <-(queued_die _ _ Tk). split; [done|].
    split; [apply Tk|]. rewrite (queued_write _ _ Tk). done. }
  intros heads HH _ Hfirst. eapply wp_mono; [by apply (wp_dispatch_dies _ X ph u s heads q_prim q_sec iw 0)|].
  intros r s' (ph' & u' & D & P). exists ph', u'. rewrite Z.sub_0_r in D. split; [done|]. intros Hr Hne.
  destruct (chip_queues s q_prim) as [|t l] eqn:E; [done|]. pose proof (Hq t ltac:(by left)) as Tk.
  destruct (chip_busy_em _ _ _ _ ck I) as [?|Hidle]; [done|].
  apply (P Hr (die (k_addr (tasks s t))) t).
  - destruct Tk as (_ & _ & V). apply valid_bounds in V as (_ & _ & ?). apply elem_of_seqZ. lia.
  - by apply (Hfirst t l).
  - by left.
Qed.

(** ** The choice of the queues *)
Record attempted (X : chip_id → Z) (ph : die_id → phase) (u : Z → option die_id) (s : fil) (b : bool) (fail : Prop)
    (ph' : die_id → phase) (u' : Z → option die_id) (s' : fil) : Prop := {
  at_adv : advanced X c [] ph s ph' u' s';
  at_none : b = false → chip_queues s' = chip_queues s ∧ ph' = ph ∧ u' = u ∧ (chip_busy ph ck ∨ fail);
  at_some : b = true → chip_busy ph' ck;
}.
Lemma wp_go X ph u s q_prim q_sec iw (fail : Prop) : inv X ph u s → (∀ ck, 0 ≤ X ck) → u c = None →
  (length (queued s) ≤ n)%nat → kind_ok iw q_prim q_sec → chip_queues s q_prim ≠ [] →
  wp (dispatch_queue_request dispatch q_prim q_sec ≫= account_found c w) (λ b s', ∃ ph' u', attempted X ph u s b fail ph' u' s') s.
Proof using All.
  intros I HX Hu Hn HK Hne. wp_steps. eapply wp_mono; [by eapply wp_dispatch_queue_request|].
  intros r s' (ph' & u' & [[I' S' R'] Hpos Hnone Hsome] & P). unfold account_found. wp_steps. exists ph', u'. split.
  - split; [|by destruct S'|done]. destruct I'. split; try done.
    + intros dk. by apply (die_ok_ext s').
    + intros ck'. pose proof (i_count ck') as Hc. change (chip_queued (set_count _ s') ck') with (chip_queued s' ck').
      unfold bump, insert, fn_insert in *. fcbn. unfold ck in Hc. destruct (decide ((c, w) = ck')) as [<-|E]; lia.
  - intros Hb. assert (r = 0) as -> by lia. destruct (Hnone eq_refl) as (-> & -> & ->). split; [done|]. split; [done|]. split; [done|].
    left. by apply P.
  - intros Hb. apply Hsome. lia.
Qed.
Lemma attempted_none X ph u s (fail : Prop) : inv X ph u s → fail → ∃ ph' u', attempted X ph u s false fail ph' u' s.
Proof using Type. intros I Hf. exists ph, u. split; [by apply advanced_refl|auto|done]. Qed.

Lemma nonempty_spec s q : nonempty s c w q = true ↔ chip_queues s (ck, q) ≠ [].
Proof using Type. unfold nonempty. by rewrite bool_decide_eq_true. Qed.
Lemma nonempty_false s q : nonempty s c w q = false → chip_queues s (ck, q) = [].
Proof using Type. unfold nonempty. intros E%bool_decide_eq_false. destruct (chip_queues s _) eqn:E'; [done|]. exfalso. apply E. congruence. Qed.
Lemma second_kind iw s q1 q2 q : is_write_queue q = iw → is_write_queue q1 = iw → is_write_queue q2 = iw →
  kind_ok iw (ck, q) (second_queue s c w q1 q2).
Proof using Type. intros. split; [done|]. split; [done|]. unfold second_queue. destruct (nonempty s c w q1), (nonempty s c w q2); by split_and?. Qed.
Lemma gc_kind iw s q1 q : is_write_queue q = iw → is_write_queue q1 = iw → kind_ok iw (ck, q) (gc_queue s c w q1).
Proof using Type. intros. split; [done|]. split; [done|]. unfold gc_queue. destruct (nonempty s c w q1); by split_and?. Qed.

Definition empty (s : fil) (q : queue_id) : Prop := chip_queues s (ck, q) = [].
Section attempts.
Context (X : chip_id → Z) (ph : die_id → phase) (u : Z → option die_id) (s : fil).
Context (I : inv X ph u s) (HX : ∀ ck, 0 ≤ X ck) (Hu : u c = None) (Hn : (length (queued s) ≤ n)%nat).
Lemma wp_tsu_read : wp (dispatch_read_request dispatch c w) (λ b s', ∃ ph' u', attempted X ph u s b
  (empty s mapping_read_queue ∧ empty s read_queue ∧ (¬ empty s write_queue ∨ empty s gc_read_queue)) ph' u' s') s.
Proof using All.
  unfold dispatch_read_request. wp_steps.
  destruct (nonempty s c w mapping_read_queue) eqn:E1.
  { eapply wp_go; [done..|by apply (second_kind false)|by apply nonempty_spec]. }
  destruct (nonempty s c w read_queue) eqn:E2.
  { eapply wp_go; [done..|by apply (gc_kind false)|by apply nonempty_spec]. }
  destruct (nonempty s c w write_queue) eqn:E3.
  { wp_steps. apply attempted_none; [done|]. split; [by apply nonempty_false|]. split; [by apply nonempty_false|]. left. by apply nonempty_spec. }
  destruct (nonempty s c w gc_read_queue) eqn:E4.
  { eapply wp_go; [done..|by split_and!|by apply nonempty_spec]. }
  wp_steps. apply attempted_none; [done|]. split_and!; try by apply nonempty_false. right. by apply nonempty_false.
Qed.
Lemma wp_tsu_write : wp (dispatch_write_request dispatch c w) (λ b s', ∃ ph' u', attempted X ph u s b
  (empty s mapping_write_queue ∧ empty s write_queue ∧ empty s gc_write_queue) ph' u' s') s.
Proof using All.
  unfold dispatch_write_request. wp_steps.
  destruct (nonempty s c w mapping_write_queue) eqn:E1.
  { eapply wp_go; [done..|by apply (second_kind true)|by apply nonempty_spec]. }
  destruct (nonempty s c w write_queue) eqn:E2.
  { eapply wp_go; [done..|by apply (gc_kind true)|by apply nonempty_spec]. }
  destruct (nonempty s c w gc_write_queue) eqn:E3.
  { eapply wp_go; [done..|by split_and!|by apply nonempty_spec]. }
  wp_steps. apply attempted_none; [done|]. split_and!; by apply nonempty_false.
Qed.
Lemma wp_tsu_erase : wp (dispatch_erase_request dispatch c w) (λ b s', ∃ ph' u', attempted X ph u s b
  (empty s gc_erase_queue) ph' u' s') s.
Proof using All.
  unfold dispatch_erase_request. wp_steps.
  destruct (nonempty s c w gc_erase_queue) eqn:E1.
  { eapply wp_go; [done..|by split_and!|by apply nonempty_spec]. }
  wp_steps. apply attempted_none; [done|]. by apply nonempty_false.
Qed.
End attempts.
End dispatch.
