(* ===== verification/FilRound.v ===== *)
(** The round over the chips of a channel, and the knot between the scheduler and
    the driver: each dispatch has one request less in the queues. *)
From stdpp Require Import functions.
From S2P Require Import Prelude Avl Flash Fil FilFacts FilSched FilQueue FilDispatch.
#[local] Open Scope Z_scope.
#[local] Unset Default Proof Using.

Section request.
Context `{NfcOk} (n : nat) (dispatch : list Z → ST fil unit) (HD : dispatches n dispatch).
Context (c w : Z) (HR : in_range c w).

Definition round_ok (X : chip_id → Z) ph s ph' u' s' : Prop :=
  advanced X c [] ph s ph' u' s' ∧ chip_served ph' s' (c, w).

Lemma attempted_done X ph u s fail ph' u' s' : attempted c w X ph u s true fail ph' u' s' → round_ok X ph s ph' u' s'.
Proof using Type. intros [A _ S]. split; [done|]. right. by apply S. Qed.

Lemma wp_dispatch_request X ph u s : inv X ph u s → (∀ ck, 0 ≤ X ck) → u c = None → (length (queued s) ≤ n)%nat →
  wp (dispatch_request dispatch c w) (λ _ s', ∃ ph' u', round_ok X ph s ph' u' s') s.
Proof using All.
  intros I HX Hu Hn. unfold dispatch_request. wp_steps. eapply wp_mono; [by eapply wp_tsu_read|].
  intros b s1 (ph1 & u1 & A1). destruct b; wp_steps; [exists ph1, u1; by eapply attempted_done|].
  destruct A1 as [A1 N1 _]. destruct (N1 eq_refl) as (Q1 & -> & -> & F1).
  assert (length (queued s1) ≤ n)%nat as Hn1 by (pose proof (steps_queued _ _ _ _ _ _ (ad_steps _ _ _ _ _ _ _ _ A1)); cbn [length] in *; lia).
  pose proof (ad_inv _ _ _ _ _ _ _ _ A1) as I1.
  eapply wp_mono; [by eapply wp_tsu_write|].
  intros b s2 (ph2 & u2 & A2). destruct b; wp_steps.
  { exists ph2, u2. apply attempted_done in A2 as [A2 S2]. split; [|done]. by eapply (advanced_trans _ _ [] []). }
  destruct A2 as [A2 N2 _]. destruct (N2 eq_refl) as (Q2 & -> & -> & F2).
  assert (length (queued s2) ≤ n)%nat as Hn2 by (pose proof (steps_queued _ _ _ _ _ _ (ad_steps _ _ _ _ _ _ _ _ A2)); cbn [length] in *; lia).
  pose proof (ad_inv _ _ _ _ _ _ _ _ A2) as I2. pose proof (advanced_trans _ _ [] [] _ _ _ _ _ _ _ _ _ A1 Hu A2) as A12.
  eapply wp_mono; [by eapply wp_tsu_erase|].
  intros b s3 (ph3 & u3 & A3). wp_steps. exists ph3, u3. destruct b.
  { apply attempted_done in A3 as [A3 S3]. split; [|done]. by eapply (advanced_trans _ _ [] []). }
  destruct A3 as [A3 N3 _]. destruct (N3 eq_refl) as (Q3 & -> & -> & F3).
  split; [by eapply (advanced_trans _ _ [] [])|]. unfold empty in *. rewrite Q2, Q1 in F3. rewrite Q1 in F2.
  destruct F1 as [F1|(E1 & E2 & E3)]; [by right|]. destruct F2 as [F2|(E4 & E5 & E6)]; [by right|].
  destruct F3 as [F3|E7]; [by right|]. left. rewrite Q3, Q2, Q1. destruct E3 as [E3|E3]; [done|]. by intros [].
Qed.
End request.

Section round.
Context `{NfcOk} (n : nat) (dispatch : list Z → ST fil unit) (HD : dispatches n dispatch).
Context (c : Z) (HR : 0 ≤ c < NR_CHANNELS).

(** The chip that is [k] turns away. *)
Definition turn (s : fil) (k : Z) : Z := (channel_rr_index s c + k) mod CHIPS_PER_CHANNEL.
Lemma turn_range s k : 0 ≤ turn s k < CHIPS_PER_CHANNEL.
Proof using Type. apply Z.mod_pos_bound. done. Qed.

Lemma no_requests X ph u s ck : inv X ph u s → (∀ ck, 0 ≤ X ck) → request_count s ck = 0 → ∀ q, chip_queues s (ck, q) = [].
Proof using Type.
  intros I HX E q. rewrite (i_count _ _ _ _ I) in E. pose proof (HX ck). assert (chip_queued s ck = []) as E'.
  { apply length_zero_iff_nil. lia. }
  destruct (chip_queues s (ck, q)) as [|t l] eqn:Eq; [done|]. exfalso. apply (not_elem_of_nil t). rewrite <-E'.
  apply list_elem_of_bind. exists q. split; [rewrite Eq; by left|]. clear. destruct q; cbn; repeat first [by left | right].
Qed.
Definition next_turn (s : fil) : fil :=
  set_rr (<[c := (channel_rr_index s c + 1) mod CHIPS_ENABLED_PER_CHANNEL]> (channel_rr_index s)) s.
Lemma next_turn_inv X ph u s : inv X ph u s → inv X ph u (next_turn s).
Proof using Type.
  intros I. destruct I. split; try done.
  - intros dk. by apply (die_ok_ext s).
  - intros c'. unfold next_turn. fcbn. unfold insert, fn_insert. destruct (decide (c = c')); [by apply Z.mod_pos_bound|done].
Qed.
Lemma next_turn_steps new ph s ph' s' : steps c new ph (next_turn s) ph' s' → steps c new ph s ph' s'.
Proof using Type. intros S. by destruct S. Qed.
Lemma next_turn_turn s k : turn (next_turn s) k = turn s (k + 1).
Proof using Type.
  unfold turn, next_turn. fcbn. rewrite fn_lookup_insert. unfold CHIPS_ENABLED_PER_CHANNEL.
  rewrite Z.add_mod_idemp_l by done. f_equal. lia.
Qed.

Lemma wp_flush_chips m X ph u s : inv X ph u s → (∀ ck, 0 ≤ X ck) → u c = None → (length (queued s) ≤ n)%nat →
  wp (flush_chips dispatch m c) (λ _ s', ∃ ph' u', inv X ph' u' s' ∧ steps c [] ph s ph' s' ∧
    (u' c = None → channel_rr_index s' c = turn s (Z.of_nat m) ∧ ∀ k, 0 ≤ k < Z.of_nat m → chip_served ph' s' (c, turn s k))) s.
Proof using All.
  revert X ph u s. induction m as [|m IH]; intros X ph u s I HX Hu Hn; cbn [flush_chips].
  { wp_steps. exists ph, u. split; [done|]. split; [apply steps_refl|]. intros _. split; [|lia]. unfold turn. rewrite Z.add_0_r, Z.mod_small; [done|apply I]. }
  set (w := channel_rr_index s c). assert (in_range c w) as HRw by (split; [done|apply I]).
  assert (∀ b, b = negb (request_count s (c, w) =? 0) →
    wp (do_if b (dispatch_request dispatch c w)) (λ _ s', ∃ ph' u', round_ok c w X ph s ph' u' s') s) as Hdisp.
  { intros b Eb. apply wp_do_if. destruct b.
    - by eapply wp_dispatch_request.
    - exists ph, u. split; [by apply advanced_refl|]. left. eapply no_requests; [done|done|]. lia. }
  apply wp_bind, wp_get. cbn beta zeta. apply wp_bind. eapply wp_mono; [by apply Hdisp|]. clear Hdisp. intros [] s1 (ph1 & u1 & [I1 S1 R1] & V1).
  wp_steps. apply wp_channel_busy; [done|]. fold (next_turn s1). change (channel_status (next_turn s1) c) with (channel_status s1 c).
  rewrite (bus_busy _ _ _ _ _ I1). pose proof (next_turn_inv _ _ _ _ I1) as I1'.
  destruct (bool_decide_reflect (u1 c ≠ None)) as [Hu1|Hu1]; wp_steps.
  { exists ph1, u1. split; [done|]. split; [by destruct S1|]. intros E. by rewrite E in Hu1. }
  assert (u1 c = None) as Hu1' by (destruct (u1 c); [exfalso; by apply Hu1|done]).
  assert (channel_rr_index s1 c = w) as Ew by by destruct R1.
  assert (∀ k, turn (next_turn s1) k = turn s (k + 1)) as Et by (intros k; rewrite next_turn_turn; unfold turn; by rewrite Ew).
  eapply wp_mono; [eapply IH; try done|].
  { pose proof (steps_queued _ _ _ _ _ _ S1). change (queued (next_turn s1)) with (queued s1). cbn [length] in *. lia. }
  intros [] s2 (ph2 & u2 & I2 & S2 & D2). apply next_turn_steps in S2. exists ph2, u2. split; [done|].
  split; [by eapply (steps_trans _ [] [])|]. intros Hu2. destruct (D2 Hu2) as [D3 D4]. split; [rewrite D3, Et; f_equal; lia|].
  intros k Hk. destruct (decide (k = 0)) as [->|Hk0].
  - replace (turn s 0) with w; [by eapply served_steps|]. unfold turn. rewrite Z.add_0_r, Z.mod_small; [done|apply I].
  - replace (turn s k) with (turn (next_turn s1) (k - 1)); [apply D4; lia|]. rewrite Et. f_equal. lia.
Qed.

Lemma turn_all s w : 0 ≤ channel_rr_index s c < CHIPS_PER_CHANNEL → 0 ≤ w < CHIPS_PER_CHANNEL →
  ∃ k, 0 ≤ k < CHIPS_PER_CHANNEL ∧ turn s k = w.
Proof using Type.
  intros Hr Hw. exists ((w - channel_rr_index s c) mod CHIPS_PER_CHANNEL). split; [by apply Z.mod_pos_bound|].
  unfold turn. rewrite Z.add_mod_idemp_r by done. rewrite Z.mod_small; lia.
Qed.
End round.

Section knot.
Context `{NfcOk}.

Lemma flushes_of n dispatch : dispatches n dispatch → flushes n (flush_channel_body dispatch).
Proof using All.
  intros HD X ph u s c I HX Hc Hu Hn. unfold flush_channel_body. eapply wp_mono; [exact (wp_flush_chips n dispatch HD c Hc _ X ph u s I HX Hu Hn)|].
  intros [] s' (ph' & u' & I' & S' & D). exists ph', u'. pose proof (i_rr _ _ _ _ I c) as Hr. split.
  - split; [done|done|]. destruct (u' c) eqn:E; [by left; rewrite E|]. right. destruct (D eq_refl) as [-> _].
    unfold turn. replace (Z.of_nat (Z.to_nat CHIPS_ENABLED_PER_CHANNEL)) with (1 * CHIPS_PER_CHANNEL) by done.
    rewrite Z_mod_plus_full. by apply Z.mod_small.
  - intros Hu' w Hw. destruct (D Hu') as [_ D2]. destruct (turn_all c s w Hr Hw) as (k & Hk & <-). by apply D2.
Qed.
Lemma dispatches_of n start flush : flushes n flush →
  dispatches (S n) (fil_dispatch_body (start_cmd_data_transfer_body (complete_chip_transfer_body start flush))).
Proof using All.
  intros HF X ph u s t [[c w] i] CS HX Hn. pose proof CS as [I _ _ V _ Hi Hb _]. cbn [fst snd] in *.
  pose proof (proj1 (valid_bounds _ _ _) V) as (Hc & _ & _).
  destruct (decide (k_type (tasks s t) = TXN_WRITE)) as [Ty|Ty].
  - eapply dispatch_write; [done|done|]. intros s' C S. exists (<[(c, w, i) := PIn t]> ph), (upd_user ph u (c, w, i) (PIn t)). split.
    + split; [by eapply inv_changed|done|]. left. unfold upd_user. cbn. by rewrite fn_lookup_insert.
    + by rewrite fn_lookup_insert.
  - eapply dispatch_exec; [done|done|]. intros s' C S.
    assert (upd_user ph u (c, w, i) (PExec t) c = None) as Hu.
    { unfold upd_user. cbn. rewrite fn_lookup_insert, Hi. done. }
    eapply wp_mono; [eapply HF; [by eapply inv_changed|done..|]|].
    { rewrite (queued_same s s'); [lia|]. apply C. }
    intros [] s2 (ph2 & u2 & A2 & _). exists ph2, u2. split.
    + destruct A2 as [I2 S2 R2]. split; [done|by eapply (steps_trans _ [t] [])|]. destruct R2 as [R2|R2]; [by left|right].
      rewrite R2. apply C.
    + eapply steps_active; [apply A2|]. by rewrite fn_lookup_insert.
Qed.
Lemma dispatch_ok n : dispatches n (fil_dispatch_body (start_cmd_data_transfer n)).
Proof using All.
  induction n as [|n IH]; [intros X ph u s t dk _ _ Hn; lia|]. apply dispatches_of. by apply flushes_of.
Qed.

(** The fuel taken from the state is enough. *)
Lemma wp_with_fuel (f : nat → ST fil unit) (Q : unit → fil → Prop) s :
  (∀ n, (length (queued s) < n)%nat → wp (f n) Q s) → wp (with_fuel f) Q s.
Proof using Type. intros Hf. exact (Hf _ (Nat.lt_succ_diag_r _)). Qed.
Lemma wp_flush_channel X ph u s c : inv X ph u s → (∀ ck, 0 ≤ X ck) → 0 ≤ c < NR_CHANNELS → u c = None →
  wp (tsu_flush_channel c) (λ _ s', ∃ ph' u', advanced X c [] ph s ph' u' s' ∧
    (u' c = None → ∀ w, 0 ≤ w < CHIPS_PER_CHANNEL → chip_served ph' s' (c, w))) s.
Proof using All.
  intros I HX Hc Hu. apply wp_with_fuel. intros n Hn. eapply flushes_of; [apply dispatch_ok|done..|lia].
Qed.
Lemma wp_notify_chip_idle X ph u s c w : inv X ph u s → (∀ ck, 0 ≤ X ck) → in_range c w →
  wp (tsu_notify_chip_idle c w) (λ _ s', ∃ ph' u', inv X ph' u' s' ∧ steps c [] ph s ph' s') s.
Proof using All.
  intros I HX HR. unfold tsu_notify_chip_idle. wp_steps. apply wp_channel_busy; [apply HR|]. rewrite (bus_busy _ _ _ _ _ I).
  destruct (bool_decide_reflect (u c ≠ None)) as [Hu|Hu]; wp_steps; [exists ph, u; split; [done|apply steps_refl]|].
  assert (u c = None) as Hu' by (destruct (u c); [exfalso; by apply Hu|done]).
  apply wp_with_fuel. intros n Hn. eapply wp_mono; [eapply (wp_dispatch_request n); [apply dispatch_ok|done..|lia]|].
  intros [] s' (ph' & u' & [I' S' R'] & _). by exists ph', u'.
Qed.
End knot.
