(* ===== verification/FilMoves.v ===== *)
(** Completions in the flash firmware: what they do to the tasks and how far they
    bring them, and the states that differ only in what polling changes. *)
From stdpp Require Import functions.
From S2P Require Import Prelude Avl Flash Fil FilFacts FilSched FilQueue FilDispatch FilRound.
#[local] Open Scope Z_scope.
#[local] Unset Default Proof Using.

(** * Progress

    A task goes through the phases of its die in order, and is then answered. *)
Definition stage (p : phase) : nat :=
  match p with PIdle => 0 | PIn _ => 1 | PExec _ => 2 | PWait _ => 3 | POut _ => 4 end.
Definition progress (ph : die_id → phase) : nat := sum_list ((λ dk, stage (ph dk)) <$> all_dies).

Lemma progress_mono ph ph' : (∀ dk, (stage (ph dk) ≤ stage (ph' dk))%nat) → (progress ph ≤ progress ph')%nat.
Proof. intros E. unfold progress. induction all_dies as [|dk l IH]; [done|]. cbn. specialize (E dk). lia. Qed.
Lemma progress_update ph dk p : valid dk → (progress (<[dk := p]> ph) + stage (ph dk) = progress ph + stage p)%nat.
Proof.
  intros V%all_dies_valid. unfold progress. pose proof all_dies_NoDup as Hn. revert V Hn.
  induction all_dies as [|dk' l IH]; intros V Hn; [by apply not_elem_of_nil in V|].
  apply NoDup_cons in Hn as [Hx Hn]. cbn. apply elem_of_cons in V as [->|V].
  - rewrite fn_lookup_insert. assert ((λ dk, stage (<[dk' := p]> ph dk)) <$> l = (λ dk, stage (ph dk)) <$> l) as ->; [|lia].
    apply list_fmap_ext. intros i y Hy%list_elem_of_lookup_2. rewrite fn_lookup_insert_ne; [done|]. by intros ->.
  - specialize (IH V Hn). rewrite (fn_lookup_insert_ne _ dk dk') by (intros ->; done). lia.
Qed.

(** The tasks [l] were answered; progress is at least [k]. *)
Record moves (l : list Z) (k : nat) (ph : die_id → phase) (s : fil) (ph' : die_id → phase) (s' : fil) : Prop := {
  mv_used : used_ring s' = used_ring s ++ l;
  mv_pending : pending s ≡ₚ l ++ pending s';
  mv_static : ∀ t, static (tasks s' t) = static (tasks s t);
  mv_done : ∀ t, t ∈ l ∨ k_completed (tasks s t) = true → k_completed (tasks s' t) = true;
  mv_commands : commands s' ≡ₚ commands s;
  mv_progress : (progress ph + k ≤ progress ph' + 5 * length l)%nat;
}.
Lemma moves_refl ph s : moves [] 0 ph s ph s.
Proof. split; [by rewrite app_nil_r|done|done|by intros t [?%not_elem_of_nil|?]|done|cbn; lia]. Qed.
Lemma moves_trans l1 l2 k1 k2 k ph1 s1 ph2 s2 ph3 s3 : moves l1 k1 ph1 s1 ph2 s2 → moves l2 k2 ph2 s2 ph3 s3 →
  (k ≤ k1 + k2)%nat → moves (l1 ++ l2) k ph1 s1 ph3 s3.
Proof.
  intros A B Hk. split.
  - by rewrite (mv_used _ _ _ _ _ _ B), (mv_used _ _ _ _ _ _ A), app_assoc.
  - by rewrite (mv_pending _ _ _ _ _ _ A), (mv_pending _ _ _ _ _ _ B), app_assoc.
  - intros t. by rewrite (mv_static _ _ _ _ _ _ B), (mv_static _ _ _ _ _ _ A).
  - intros t. rewrite elem_of_app. intros [[?|?]|?]; apply (mv_done _ _ _ _ _ _ B); [right; apply A; by left|by left|right; apply A; by right].
  - by rewrite (mv_commands _ _ _ _ _ _ B), (mv_commands _ _ _ _ _ _ A).
  - pose proof (mv_progress _ _ _ _ _ _ A). pose proof (mv_progress _ _ _ _ _ _ B). rewrite length_app. lia.
Qed.
Lemma moves_weaken l k k' ph s ph' s' : moves l k ph s ph' s' → (k' ≤ k)%nat → moves l k' ph s ph' s'.
Proof. intros [] ?. split; try done. lia. Qed.
Lemma moves_steps c ph s ph' s' : steps c [] ph s ph' s' → moves [] 0 ph s ph' s'.
Proof.
  intros S. split.
  - rewrite app_nil_r. apply S.
  - symmetry. apply S.
  - apply S.
  - intros t [?%not_elem_of_nil|Ht]; [done|]. by rewrite (proj1 (st_done _ _ _ _ _ _ S t)).
  - apply S.
  - cbn. assert (progress ph ≤ progress ph')%nat; [|lia]. apply progress_mono. intros dk.
    destruct (st_grow _ _ _ _ _ _ S dk) as [->|(-> & _)]; [done|cbn; lia].
Qed.

(** * States that differ in what looking at the controllers changes *)
Record quiet (s s' : fil) : Prop := {
  qt_dies : ∀ dk, ∃ e, dies s' dk = set_cmd_error e (dies s dk);
  qt_rest : tasks s' = tasks s ∧ chip_queues s' = chip_queues s ∧ request_count s' = request_count s ∧
    channel_rr_index s' = channel_rr_index s ∧ channel_status s' = channel_status s ∧
    waiting_read_xfer s' = waiting_read_xfer s ∧ chips s' = chips s;
  qt_lists : chip_in_transfer_list s' = chip_in_transfer_list s ∧ die_command_avl s' = die_command_avl s ∧
    chip_out_transfer_list s' = chip_out_transfer_list s ∧ used_ring s' = used_ring s;
  qt_log : issued (nfc_log s') = issued (nfc_log s);
}.
Lemma quiet_same s s' : dies s' = dies s →
  (tasks s' = tasks s ∧ chip_queues s' = chip_queues s ∧ request_count s' = request_count s ∧
   channel_rr_index s' = channel_rr_index s ∧ channel_status s' = channel_status s ∧
   waiting_read_xfer s' = waiting_read_xfer s ∧ chips s' = chips s) →
  (chip_in_transfer_list s' = chip_in_transfer_list s ∧ die_command_avl s' = die_command_avl s ∧
   chip_out_transfer_list s' = chip_out_transfer_list s ∧ used_ring s' = used_ring s) →
  issued (nfc_log s') = issued (nfc_log s) → quiet s s'.
Proof. intros E ? ? ?. split; try done. intros dk. exists (cmd_error (dies s dk)). rewrite E. by destruct (dies s dk). Qed.
Ltac quiet := apply quiet_same; fcbn; rewrite ?issued_other by done; done.
Lemma quiet_refl s : quiet s s.
Proof. by apply quiet_same. Qed.
Lemma quiet_chain s1 s2 s3 : quiet s1 s2 → quiet s2 s3 → quiet s1 s3.
Proof.
  intros [D1 R1 L1 G1] [D2 R2 L2 G2]. split; [|intuition congruence..].
  intros dk. destruct (D1 dk) as [e1 E1], (D2 dk) as [e2 E2]. exists e2. by rewrite E2, E1.
Qed.
Lemma quiet_die_ok s s' p dk : quiet s s' → die_ok s p dk → die_ok s' p dk.
Proof.
  intros [D (Et & _) _ _] Hd. destruct (D dk) as [e E]. unfold die_ok in *.
  destruct p; rewrite ?E, ?Et; try done; destruct Hd as [[] ?]; (split; [split|]); rewrite ?E, ?Et; done.
Qed.
Lemma quiet_entry s s' dk : quiet s s' → entry s' dk = entry s dk.
Proof. intros [D _ _ _]. unfold entry. by destruct (D dk) as [e ->]. Qed.
Lemma quiet_queued s s' : quiet s s' → queued s' = queued s.
Proof. intros [_ (_ & E & _) _ _]. apply queued_same. by rewrite E. Qed.
Lemma quiet_in_flight s s' : quiet s s' → in_flight s' = in_flight s.
Proof. intros [D _ _ _]. apply in_flight_same. intros dk. by destruct (D dk) as [e ->]. Qed.
Lemma quiet_moves ph s s' : quiet s s' → moves [] 0 ph s ph s'.
Proof.
  intros Q. split.
  - rewrite app_nil_r. apply Q.
  - unfold pending. by rewrite (quiet_queued _ _ Q), (quiet_in_flight _ _ Q).
  - intros t. by destruct Q as [_ (-> & _) _ _].
  - intros t [?%not_elem_of_nil|?]; [done|]. by destruct Q as [_ (-> & _) _ _].
  - rewrite (commands_same s s'); [done| | |apply Q]; by destruct Q as [_ (E1 & E2 & _) _ _]; intros; rewrite ?E1, ?E2.
  - cbn. lia.
Qed.
Lemma inv_quiet X ph u s s' : quiet s s' → inv X ph u s → inv X ph u s'.
Proof.
  intros Q I. pose proof Q as [D (E1 & E2 & E3 & E4 & E5 & E6 & E7) (L1 & L2 & L3 & L4) _].
  destruct I. split; unfold chip_queued in *; rewrite ?E1, ?E2, ?E3, ?E4, ?E5, ?E6, ?E7, ?L1, ?L2, ?L3; try done.
  - intros dk. by eapply quiet_die_ok.
  - destruct i_avl as [A1 A2]. split; [done|]. intros x. by rewrite A2, (quiet_entry _ _ _ Q).
  - intros ck i Hi d Hd. specialize (i_lun ck i Hi d Hd). destruct (D (ck, d)) as [e ->]. exact i_lun.
Qed.
Lemma quiet_out l s s' : quiet s s' → quiet (set_out_list l s) (set_out_list l s').
Proof. intros [D R (L1 & L2 & L3 & L4) G]. by split. Qed.
