(* ===== verification/FilDone.v ===== *)
(** The completions of the driver: a command that has been transferred, an array
    operation that has ended, and data that has been transferred. *)
From stdpp Require Import functions.
From S2P Require Import Prelude Avl Flash Fil FilFacts FilSched FilQueue FilDispatch FilRound FilMoves.
#[local] Open Scope Z_scope.
#[local] Unset Default Proof Using.

(** * The lists of waiting reads *)
Lemma fn_insert_decide {K V} `{EqDecision K} (f : K → V) k v k' : <[k := v]> f k' = if decide (k' = k) then v else f k'.
Proof. unfold insert, fn_insert. destruct (decide (k = k')), (decide (k' = k)); congruence. Qed.
Section waiting.
Context (X : chip_id → Z) (ph : die_id → phase) (u : Z → option die_id) (s : fil) (I : inv X ph u s).
Context (dk : die_id) (p : phase).
Lemma wait_other t dk' : dk' ≠ dk → ph dk' = PWait t → <[dk := p]> ph dk' = PWait t.
Proof using Type. intros Hne E. by rewrite fn_lookup_insert_ne. Qed.
Lemma wait_keep : (∀ t, ph dk ≠ PWait t) → (∀ t, p ≠ PWait t) →
  ∀ c, lists (waiting_read_xfer s c) (λ t, ∃ dk', dk'.1.1 = c ∧ <[dk := p]> ph dk' = PWait t).
Proof using I.
  intros Ho Hn c. eapply lists_ext; [|apply I]. intros t. cbn beta.
  split; intros (dk' & Hc & Hp); exists dk'; (split; [done|]); revert Hp; unfold insert, fn_insert; case_decide; subst; done || (intros E; by (apply Ho in E || apply Hn in E)).
Qed.
Lemma wait_add t : p = PWait t → (∀ t, ph dk ≠ PWait t) → (∀ dk', ph dk' ≠ PWait t) →
  ∀ c, lists (if decide (c = dk.1.1) then waiting_read_xfer s c ++ [t] else waiting_read_xfer s c)
    (λ t, ∃ dk', dk'.1.1 = c ∧ <[dk := p]> ph dk' = PWait t).
Proof using I.
  intros -> Ho Hn c. pose proof (i_wait _ _ _ _ I c) as L.
  assert (∀ t', (∃ dk', dk'.1.1 = c ∧ <[dk := PWait t]> ph dk' = PWait t') ↔
    (∃ dk', dk'.1.1 = c ∧ ph dk' = PWait t') ∨ c = dk.1.1 ∧ t' = t) as E.
  { intros t'. split.
    - intros (dk' & Hc & Hp). destruct (decide (dk' = dk)) as [->|Hne].
      + rewrite fn_lookup_insert in Hp. right. split; [done|congruence].
      + rewrite fn_lookup_insert_ne in Hp by done. left. eauto.
    - intros [(dk' & Hc & Hp)|[-> ->]]; [|exists dk; by rewrite fn_lookup_insert].
      exists dk'. rewrite fn_lookup_insert_ne; [done|]. intros <-. by apply Ho in Hp. }
  destruct (decide (c = dk.1.1)) as [->|Hne].
  - eapply lists_snoc; [exact L| |]; cbn beta.
    + intros (dk' & _ & Hp). by apply Hn in Hp.
    + intros t'. rewrite E. tauto.
  - eapply lists_ext; [|exact L]. intros t'. cbn beta. rewrite E. tauto.
Qed.
Lemma wait_del t rest : ph dk = PWait t → (∀ t, p ≠ PWait t) → (∀ dk', ph dk' = PWait t → dk' = dk) →
  waiting_read_xfer s dk.1.1 = t :: rest →
  ∀ c, lists (if decide (c = dk.1.1) then rest else waiting_read_xfer s c) (λ t, ∃ dk', dk'.1.1 = c ∧ <[dk := p]> ph dk' = PWait t).
Proof using I.
  intros Ho Hn Hu Ew c. pose proof (i_wait _ _ _ _ I c) as L.
  assert (∀ t', (∃ dk', dk'.1.1 = c ∧ <[dk := p]> ph dk' = PWait t') ↔
    (∃ dk', dk'.1.1 = c ∧ ph dk' = PWait t') ∧ t' ≠ t) as E.
  { intros t'. split.
    - intros (dk' & Hc & Hp). destruct (decide (dk' = dk)) as [->|Hne].
      + rewrite fn_lookup_insert in Hp. by apply Hn in Hp.
      + rewrite fn_lookup_insert_ne in Hp by done. split; [eauto|]. intros ->. by apply Hne, Hu.
    - intros [(dk' & Hc & Hp) Ht]. exists dk'. rewrite fn_lookup_insert_ne; [done|]. intros <-. congruence. }
  destruct (decide (c = dk.1.1)) as [->|Hne].
  - rewrite Ew in L. eapply lists_tail; [exact L|]. intros t'. cbn beta. by rewrite E.
  - eapply lists_ext; [|exact L]. intros t'. cbn beta. rewrite E. split; [intros H; split; [done|]|by intros [? _]].
    destruct H as (dk' & Hc & Hp). intros ->. apply Hu in Hp. congruence.
Qed.
End waiting.

(** * Facts about one die *)
Section die.
Context (X : chip_id → Z) (ph : die_id → phase) (u : Z → option die_id) (s : fil) (I : inv X ph u s).
Lemma on_die_of dk t : task_of (ph dk) = Some t → ∃ cur xf, on_die s dk t cur xf.
Proof using I.
  intros E. pose proof (i_die _ _ _ _ I dk) as D. destruct (ph dk); try done; injection E as ->; destruct D as [D _]; eauto.
Qed.
Lemma task_unique dk dk' t : task_of (ph dk) = Some t → task_of (ph dk') = Some t → dk = dk'.
Proof using I.
  intros (c1 & x1 & D1)%on_die_of (c2 & x2 & D2)%on_die_of. by rewrite <-(od_addr _ _ _ _ _ D1), <-(od_addr _ _ _ _ _ D2).
Qed.
Lemma not_queued dk t q : task_of (ph dk) = Some t → t ∉ chip_queues s q.
Proof using I. intros E Hq. by eapply (i_queue _ _ _ _ I q) in E. Qed.
Lemma phase_valid dk t : task_of (ph dk) = Some t → valid dk.
Proof using I. intros E. apply (i_valid _ _ _ _ I). intros E'. by rewrite E' in E. Qed.
(** The die that uses the bus. *)
Lemma user_of dk : on_bus (ph dk) = true → u dk.1.1 = Some dk.
Proof using I. apply I. Qed.
Lemma pending_on dk t : task_of (ph dk) = Some t → t ∈ pending s.
Proof using I.
  intros E. destruct (on_die_of dk t E) as (cur & xf & D). unfold pending, in_flight. rewrite elem_of_app. right.
  apply list_elem_of_bind. exists dk. rewrite (od_txns _ _ _ _ _ D). split; [by left|]. eapply all_dies_valid, phase_valid; eauto.
Qed.
Lemma waiting_head c t rest : waiting_read_xfer s c = t :: rest → ∃ dk, dk.1.1 = c ∧ ph dk = PWait t.
Proof using I. intros E. apply (proj2 (i_wait _ _ _ _ I c)). rewrite E. by left. Qed.
End die.

(** * The end of the transfer of a command *)

Lemma started_moves X ph u s dk t s1 s' : inv X ph u s → ph dk = PIn t → given ph u s dk t s1 → started s1 dk s' →
  moves [] 1 ph s (<[dk := PExec t]> ph) s' ∧ queued s' = queued s.
Proof.
  intros I Hp G S. assert (queued s' = queued s) as Eq.
  { apply queued_same. intros q. by rewrite (sd_queues _ _ _ S), (gv_queues _ _ _ _ _ _ G). }
  split; [|done]. pose proof (i_die _ _ _ _ I dk) as D. rewrite Hp in D. destruct D as [D _].
  split.
  - rewrite app_nil_r, (proj1 (sd_used _ _ _ S)). apply G.
  - cbn [app]. unfold pending. rewrite Eq, (in_flight_same s s'); [done|]. intros dk'. destruct (decide (dk' = dk)) as [->|Hne].
    + rewrite (proj1 (sd_die _ _ _ S)), (od_txns _ _ _ _ _ (gv_die _ _ _ _ _ _ G)). symmetry. apply D.
    + by rewrite (sd_dies _ _ _ S), (gv_dies _ _ _ _ _ _ G).
  - intros t'. by rewrite (sd_tasks _ _ _ S), (gv_tasks _ _ _ _ _ _ G).
  - intros t' [?%not_elem_of_nil|Ht]; [done|]. by rewrite (proj1 (sd_done _ _ _ S t')), (proj1 (gv_done _ _ _ _ _ _ G t')).
  - rewrite (commands_same s s'); [done| | |].
    + intros q. by rewrite (sd_queues _ _ _ S), (gv_queues _ _ _ _ _ _ G).
    + intros t'. by rewrite (sd_tasks _ _ _ S), (gv_tasks _ _ _ _ _ _ G).
    + rewrite (sd_log _ _ _ S), (gv_log _ _ _ _ _ _ G), decide_False, app_nil_r by congruence. done.
  - pose proof (progress_update ph dk (PExec t)) as Hu. rewrite Hp in Hu. cbn [stage length] in *.
    specialize (Hu (gv_valid _ _ _ _ _ _ G)). lia.
Qed.

(** A controller that has done what it was told whenever it is looked at. *)
Definition responsive `{Nfc} : Prop := ∀ c n, Z.testbit (status_reg c n) 8 = true ∧ dma_idle c n = true ∧
  (Z.testbit (status_reg c n) 11 = true ∨ Z.land (status_reg c n) 0xff = SR_ALLRDY).

Section completions.
Context `{NfcOk} (gain : nat) (HG : gain = 0%nat ∨ gain = 1%nat ∧ responsive).

Lemma wp_transfer_done c (Q : bool → fil → Prop) s :
  (∀ b s', quiet s s' → (gain = 1%nat → b = true) → Q b s') → wp (nfc_transfer_done c) Q s.
Proof using HG H.
  intros HQ. unfold nfc_transfer_done. frun_with ltac:(idtac). apply HQ; [quiet|].
  intros Hg. destruct HG as [|[_ HR]]; [congruence|]. by destruct (HR c (accesses s c)) as (-> & -> & _).
Qed.

Lemma wp_finish_in X ph u s now ck : inv X ph u s → (∀ ck, 0 ≤ X ck) → ck ∈ chip_in_transfer_list s →
  wp (finish_in_transfer now ck) (λ _ s', ∃ ph' u', inv X ph' u' s' ∧ moves [] gain ph s ph' s' ∧
    ∃ l ext, chip_in_transfer_list s' = l ++ ext ∧ (l = chip_in_transfer_list s ∨ l = list_del ck (chip_in_transfer_list s)) ∧
      (length ext + length (queued s') ≤ length (queued s))%nat) s.
Proof using All.
  intros I HX [i Hi]%(i_in _ _ _ _ I). destruct (ph (ck, i)) as [|t|t|t|t] eqn:Hp; try done.
  unfold finish_in_transfer. apply wp_bind, wp_transfer_done. intros b s1 Q Hb. wp_steps. destruct b.
  2:{ exists ph, u. split; [by eapply inv_quiet|]. split; [eapply moves_weaken; [by apply quiet_moves|]; destruct HG as [|[? _]]; [lia|by apply Hb in H1]|].
      exists (chip_in_transfer_list s), []. rewrite app_nil_r, (quiet_queued _ _ Q). split_and!; [apply Q|by left|done]. }
  clear Hb. pose proof (inv_quiet _ _ _ _ _ Q I) as I1. destruct ck as [c w]. wp_steps. fcbn.
  pose proof (i_die _ _ _ _ I1 (c, w, i)) as D. rewrite Hp in D. destruct D as [D Ty].
  pose proof (phase_valid _ _ _ _ I1 (c, w, i) t) as V. rewrite Hp in V. specialize (V eq_refl).
  set (s2 := set_in_list _ s1). apply wp_with_fuel. intros n Hn.
  assert (given ph u s1 (c, w, i) t s2) as G.
  { split; try done; [by right|right; by rewrite Hp| |split; try apply D|apply I1|by rewrite Hp|].
    - intros q. eapply not_queued; [exact I1|by rewrite Hp].
    - rewrite decide_False, app_nil_r by congruence. done. }
  apply (complete_transfer _ _ _ s2 c w i t); try apply D; try done.
  { apply (i_cur _ _ _ _ I1 (c, w)). by rewrite Hp. }
  { apply I1. }
  { change (tasks s2) with (tasks s1). change (dies s2) with (dies s1). rewrite (od_cmd _ _ _ _ _ D). done. }
  intros s3 S. pose proof (started_changed _ _ _ _ _ _ _ _ I1 G S) as C. destruct (started_moves _ _ _ _ _ _ _ _ I1 Hp G S) as [M Eq].
  pose proof (inv_changed _ _ _ _ I1 _ _ _ C) as I3.
  eapply wp_mono; [eapply (flushes_of n); [apply dispatch_ok|exact I3|done|apply valid_bounds in V; lia| |]|].
  - unfold upd_user. cbn. by rewrite fn_lookup_insert, Hp.
  - rewrite Eq. change (queued s2) with (queued s1) in Hn. lia.
  - intros [] s' (ph' & u' & [I' S' _] & _). exists ph', u'. split; [done|]. split.
    + eapply (moves_trans [] [] 1 0); [|by eapply moves_steps|destruct HG as [|[? _]]; lia].
      eapply (moves_trans [] [] 0 1); [by apply quiet_moves|exact M|lia].
    + destruct (st_in _ _ _ _ _ _ S') as (ext & E & L). exists (list_del (c, w) (chip_in_transfer_list s)), ext.
      rewrite E, (ch_in _ _ _ _ _ _ C), Hp. cbn [upd_member is_in fst]. rewrite Eq, (quiet_queued _ _ Q) in L. cbn [length] in L.
      split_and!; [|by right|lia]. f_equal. f_equal. apply Q.
Qed.
End completions.
