(* ===== verification/FilServe.v ===== *)
(** Serving a channel: the next transfer of data that has been read, then the
    scheduler.  An idle channel that has been served has nothing left to start. *)
From stdpp Require Import functions.
From S2P Require Import Prelude Avl Flash Fil FilFacts FilSched FilQueue FilDispatch FilRound FilMoves FilDone.
#[local] Open Scope Z_scope.
#[local] Unset Default Proof Using.

(** * What happens on one channel *)
Record local (c : Z) (ph : die_id → phase) (s : fil) (ph' : die_id → phase) (s' : fil) : Prop := {
  lc_phase : ∀ dk, dk.1.1 ≠ c → ph' dk = ph dk;
  lc_exec : ∀ dk t, ph dk = PExec t → ph' dk = PExec t;
  lc_active : ∀ dk, ph dk ≠ PIdle → ph' dk ≠ PIdle;
  lc_wait : ∀ c', c' ≠ c → waiting_read_xfer s' c' = waiting_read_xfer s c';
  lc_queues : ∀ q t, t ∈ chip_queues s' q → t ∈ chip_queues s q;
}.
Lemma local_refl c ph s : local c ph s ph s.
Proof. by split. Qed.
Lemma local_trans c ph1 s1 ph2 s2 ph3 s3 : local c ph1 s1 ph2 s2 → local c ph2 s2 ph3 s3 → local c ph1 s1 ph3 s3.
Proof.
  intros A B. split.
  - intros dk Hd. by rewrite (lc_phase _ _ _ _ _ B), (lc_phase _ _ _ _ _ A).
  - intros dk t Hd. by apply B, A.
  - intros dk Hd. by apply B, A.
  - intros c' Hc. by rewrite (lc_wait _ _ _ _ _ B), (lc_wait _ _ _ _ _ A).
  - intros q t Ht. by apply A, B.
Qed.
Lemma local_steps c new ph s ph' s' : steps c new ph s ph' s' → local c ph s ph' s'.
Proof.
  intros S. split.
  - intros dk Hd. by destruct (st_grow _ _ _ _ _ _ S dk) as [?|(_ & ? & _)].
  - intros dk t Hd. by destruct (st_grow _ _ _ _ _ _ S dk) as [->|(? & _)]; [|congruence].
  - intros dk Hd. by eapply steps_active.
  - intros c' _. apply S.
  - apply S.
Qed.

(** Nothing that could be started is left on channel [c] if its bus is idle. *)
Definition settled (c : Z) (ph : die_id → phase) (u : Z → option die_id) (s : fil) : Prop :=
  u c = None → waiting_read_xfer s c = [] ∧ ∀ w, 0 ≤ w < CHIPS_PER_CHANNEL → chip_served ph s (c, w).
Lemma served_local c ph s ph' s' ck : local c ph s ph' s' → chip_served ph s ck → chip_served ph' s' ck.
Proof.
  intros L [E|[i Hi]]; [left|right; exists i; by apply L]. intros q. destruct (chip_queues s' (ck, q)) as [|t l] eqn:Eq; [done|].
  exfalso. apply (not_elem_of_nil t). rewrite <-(E q). apply L. rewrite Eq. by left.
Qed.
Lemma settled_local X c c' ph u s ph' u' s' : inv X ph u s → inv X ph' u' s' → local c ph s ph' s' → c' ≠ c →
  settled c' ph u s → settled c' ph' u' s'.
Proof.
  intros I I' L Hc Hs Hu. assert (u c' = None) as E.
  { destruct (u c') as [dk|] eqn:Ed; [|done]. pose proof (i_chan _ _ _ _ I _ _ Ed) as Edk.
    assert (on_bus (ph dk) = true) as Hb by (apply (i_user _ _ _ _ I); by rewrite Edk).
    rewrite <-(lc_phase _ _ _ _ _ L dk) in Hb by congruence. apply (i_user _ _ _ _ I') in Hb. congruence. }
  destruct (Hs E) as [Hw Hv]. rewrite (lc_wait _ _ _ _ _ L) by done. split; [done|]. intros w Hr. eapply served_local; eauto.
Qed.

(** * The next transfer of data *)
Section serve.
Context `{NfcOk}.

Lemma wp_read_transfer c d pl buf len cb (Q : unit → fil → Prop) s :
  (∀ s', quiet s s' → Q tt s') → wp (nfc_cmd_read_transfer c d pl buf len cb) Q s.
Proof using All.
  intros HQ. unfold nfc_cmd_read_transfer. frun_with ltac:(idtac). { by rewrite sync_ready. }
  frun_with ltac:(idtac). apply HQ. quiet.
Qed.

(** What starting the next transfer of a channel leaves. *)
Definition out_post (X : chip_id → Z) (ph : die_id → phase) (s : fil) (c : Z) (s' : fil) : Prop :=
  ∃ ph' u', inv X ph' u' s' ∧ moves [] 0 ph s ph' s' ∧ local c ph s ph' s' ∧
    (u' c = None → waiting_read_xfer s' c = []) ∧ chip_in_transfer_list s' = chip_in_transfer_list s.
Lemma out_post_none X ph u s c : inv X ph u s → (u c = None → waiting_read_xfer s c = []) → out_post X ph s c s.
Proof using Type. intros I Hw. exists ph, u. split_and!; [done|apply moves_refl|apply local_refl|done|done]. Qed.
Lemma out_post_quiet X ph s c s1 s2 : out_post X ph s c s1 → quiet s1 s2 → out_post X ph s c s2.
Proof using Type.
  intros (ph' & u' & I & M & L & W & E) Q. exists ph', u'.
  pose proof Q as [_ (_ & E1 & _ & _ & _ & E2 & _) (E3 & _) _]. split_and!.
  - by eapply inv_quiet.
  - eapply (moves_trans [] [] 0 0); [exact M|by apply quiet_moves|done].
  - eapply local_trans; [exact L|]. split; rewrite ?E1, ?E2; done.
  - by rewrite E2.
  - by rewrite E3.
Qed.

(** Die [dk] sends the data of task [t]; [rest] keeps waiting. *)
Record sends (s : fil) (dk : die_id) (t : Z) (rest : list Z) (s' : fil) : Prop := {
  sn_die : dies s' = <[dk := set_active_xfer (Some t) (dies s dk)]> (dies s);
  sn_bus : channel_status s' = <[dk.1.1 := BUS_BUSY]> (channel_status s);
  sn_chips : ∀ ck, current_xfer (chips s' ck) = current_xfer (chips s ck) ∧ cmd_xfer_queue (chips s' ck) = cmd_xfer_queue (chips s ck);
  sn_wait : waiting_read_xfer s' = <[dk.1.1 := rest]> (waiting_read_xfer s);
  sn_out : chip_out_transfer_list s' = chip_out_transfer_list s ++ [dk];
  sn_rest : tasks s' = tasks s ∧ chip_queues s' = chip_queues s ∧ request_count s' = request_count s ∧
    channel_rr_index s' = channel_rr_index s ∧ chip_in_transfer_list s' = chip_in_transfer_list s ∧
    die_command_avl s' = die_command_avl s ∧ used_ring s' = used_ring s;
  sn_log : issued (nfc_log s') = issued (nfc_log s);
}.
Section sends.
Context (X : chip_id → Z) (ph : die_id → phase) (u : Z → option die_id) (s : fil) (I : inv X ph u s).
Context (dk : die_id) (t : Z) (rest : list Z) (Hp : ph dk = PWait t) (Hu : u dk.1.1 = None).
Context (Ew : waiting_read_xfer s dk.1.1 = t :: rest) (s' : fil) (N : sends s dk t rest s').
Lemma sends_changed : changed ph u s dk (POut t) s'.
Proof using All.
  pose proof (i_die _ _ _ _ I dk) as D. rewrite Hp in D. destruct D as [D Ty].
  destruct (sn_rest _ _ _ _ _ N) as (E1 & E2 & E3 & E4 & E5 & E6 & E7). pose proof (sn_die _ _ _ _ _ N) as Ed.
  split; rewrite ?E1, ?E2, ?E3, ?E4, ?E5, ?E6, ?Ed; rewrite ?Hp; try done.
  - apply (phase_valid _ _ _ _ I dk t). by rewrite Hp.
  - intros dk' Hne. by rewrite fn_lookup_insert_ne.
  - split; [|by rewrite E1]. split; rewrite ?Ed, ?fn_lookup_insert, ?E1; fcbn; try done; apply D.
  - by right.
  - intros c. rewrite (sn_bus _ _ _ _ _ N). unfold upd_user. cbn [on_bus is_in is_out orb]. rewrite !fn_insert_decide.
    destruct (decide _); [done|apply I].
  - intros ck. rewrite (proj2 (sn_chips _ _ _ _ _ N ck)). apply I.
  - intros ck. rewrite (proj1 (sn_chips _ _ _ _ _ N ck)). by destruct (decide _).
  - by rewrite (sn_out _ _ _ _ _ N).
  - intros c. rewrite (sn_wait _ _ _ _ _ N), fn_insert_decide. apply (wait_del _ _ _ _ I dk (POut t) t rest); try done.
    intros dk' E. eapply (task_unique _ _ _ _ I); [by rewrite E|by rewrite Hp].
  - pose proof (i_avl _ _ _ _ I) as [A1 A2]. split; [done|]. intros x. rewrite A2. split; [|intros [[? _]|[? _]]; done].
    intros [Hx ?]. left. split; [done|]. intros E. rewrite E in Hx. by rewrite Hp in Hx.
  - intros t' q [= <-]. by left.
  - rewrite fn_lookup_insert. auto.
Qed.
Lemma sends_moves : moves [] 0 ph s (<[dk := POut t]> ph) s'.
Proof using All.
  destruct (sn_rest _ _ _ _ _ N) as (E1 & E2 & E3 & E4 & E5 & E6 & E7).
  assert (valid dk) as V by (apply (phase_valid _ _ _ _ I dk t); by rewrite Hp).
  pose proof (progress_update ph dk (POut t) V) as Hg. rewrite Hp in Hg. cbn [stage] in Hg. split.
  - by rewrite E7, app_nil_r.
  - cbn [app]. unfold pending. rewrite (queued_same s s'), (in_flight_same s s'); [done| |by rewrite E2].
    intros dk'. rewrite (sn_die _ _ _ _ _ N), fn_insert_decide. by destruct (decide _) as [->|].
  - by rewrite E1.
  - rewrite E1. by intros t' [?%not_elem_of_nil|?].
  - rewrite (commands_same s s'); [done|by rewrite E2|by rewrite E1|apply N].
  - cbn [length]. lia.
Qed.
Lemma sends_post : out_post X ph s dk.1.1 s'.
Proof using All.
  destruct (sn_rest _ _ _ _ _ N) as (E1 & E2 & E3 & E4 & E5 & E6 & E7).
  exists (<[dk := POut t]> ph), (upd_user ph u dk (POut t)). split_and!.
  - eapply inv_changed; [exact I|apply sends_changed].
  - apply sends_moves.
  - split.
    + intros dk' Hne. rewrite fn_lookup_insert_ne; [done|]. by intros <-.
    + intros dk' t' E. rewrite fn_lookup_insert_ne; [done|]. intros <-. congruence.
    + intros dk' E. by rewrite fn_insert_decide; destruct (decide _).
    + intros c' Hne. by rewrite (sn_wait _ _ _ _ _ N), fn_lookup_insert_ne.
    + by rewrite E2.
  - unfold upd_user. cbn. by rewrite fn_lookup_insert.
  - done.
Qed.
End sends.

Lemma wp_start_out X ph u s c : inv X ph u s → 0 ≤ c < NR_CHANNELS → wp (start_data_out_transfer c) (λ _ s', out_post X ph s c s') s.
Proof using All.
  intros I Hc. unfold start_data_out_transfer. wp_steps. rewrite (bus_busy _ _ _ _ _ I).
  destruct (bool_decide_reflect (u c ≠ None)) as [Hu|Hu]; wp_steps.
  { eapply out_post_none; [done|]. intros E. by rewrite E in Hu. }
  assert (u c = None) as Hu' by (destruct (u c); [exfalso; by apply Hu|done]). clear Hu.
  destruct (waiting_read_xfer s c) as [|t rest] eqn:Ew; wp_steps; [by eapply out_post_none|].
  destruct (waiting_head _ _ _ _ I _ _ _ Ew) as ([[c' w] i] & <- & Hp). cbn [fst snd] in *. rename c' into c.
  pose proof (i_die _ _ _ _ I (c, w, i)) as D. rewrite Hp in D. destruct D as [D Ty].
  pose proof (od_addr _ _ _ _ _ D) as Ea. assert (chip (k_addr (tasks s t)) = w ∧ die (k_addr (tasks s t)) = i) as [Ec Ei] by by injection Ea.
  frun_with ltac:(rewrite ?Ec, ?Ei, ?(od_xfer _ _ _ _ _ D), ?Ty; try done).
  set (s1 := set_chips _ _). assert (sends s (c, w, i) t rest (set_out_list (chip_out_transfer_list s ++ [(c, w, i)]) s1)) as N.
  { unfold s1. split; fcbn; try done; [|by rewrite issued_other]. intros ck. rewrite !fn_insert_decide.
    destruct (decide (ck = (c, w))) as [->|]; [by rewrite ?decide_True by done|done]. }
  assert (∀ s', quiet s1 s' → out_post X ph s c (set_out_list (chip_out_transfer_list s' ++ [(c, w, i)]) s')) as Hend.
  { intros s' Q. assert (chip_out_transfer_list s' = chip_out_transfer_list s) as -> by apply Q.
    eapply out_post_quiet; [|by apply quiet_out]. by apply (sends_post X ph u s I (c, w, i) t rest). }
  destruct (negb (k_code_length (tasks s t) =? 0)); apply wp_read_transfer; intros s' Q; wp_steps; by apply Hend.
Qed.

(** [if (get_channel_status(channel) == BUS_IDLE) tsu_notify_channel_idle(...)] *)
Lemma wp_if_idle X ph u s c : inv X ph u s → (∀ ck, 0 ≤ X ck) → 0 ≤ c < NR_CHANNELS →
  wp (do_if (bool_decide (channel_status s c = BUS_IDLE)) (tsu_notify_channel_idle c))
    (λ _ s', ∃ ph' u', inv X ph' u' s' ∧ steps c [] ph s ph' s' ∧
      (u' c = None → ∀ w, 0 ≤ w < CHIPS_PER_CHANNEL → chip_served ph' s' (c, w))) s.
Proof using All.
  intros I HX Hc. wp_steps. destruct (bool_decide_reflect (channel_status s c = BUS_IDLE)) as [E|E].
  - eapply wp_mono; [apply (wp_flush_channel X ph u s c); try done; by apply (bus_idle _ _ _ _ _ I)|].
    intros [] s' (ph' & u' & [I' S' _] & Hs). eauto.
  - exists ph, u. split; [done|]. split; [apply steps_refl|]. intros Hu. by apply (bus_idle _ _ _ _ _ I) in Hu.
Qed.

Lemma wp_serve_channel X ph u s c : inv X ph u s → (∀ ck, 0 ≤ X ck) → 0 ≤ c < NR_CHANNELS →
  wp (serve_channel c) (λ _ s', ∃ ph' u', inv X ph' u' s' ∧ moves [] 0 ph s ph' s' ∧ local c ph s ph' s' ∧ settled c ph' u' s') s.
Proof using All.
  intros I HX Hc. unfold serve_channel. wp_steps. eapply wp_mono; [by apply (wp_start_out X ph u)|].
  intros [] s1 (ph1 & u1 & I1 & M1 & L1 & W1 & _). apply wp_bind, wp_get. cbn beta.
  eapply wp_mono; [by apply (wp_if_idle X ph1 u1)|]. intros [] s2 (ph2 & u2 & I2 & S2 & V2). exists ph2, u2.
  split; [done|]. split; [eapply (moves_trans [] [] 0 0); [exact M1|by eapply moves_steps|done]|].
  split; [eapply local_trans; [exact L1|by eapply local_steps]|]. intros Hu2. split; [|by apply V2].
  rewrite (st_wait _ _ _ _ _ _ S2). apply W1. destruct (u1 c) as [dk|] eqn:E; [|done].
  pose proof (i_chan _ _ _ _ I1 _ _ E) as Ec. assert (on_bus (ph1 dk) = true) as Hb by (apply (i_user _ _ _ _ I1); by rewrite Ec).
  assert (ph2 dk = ph1 dk) as E2 by (destruct (st_grow _ _ _ _ _ _ S2 dk) as [?|(E2 & _)]; [done|by rewrite E2 in Hb]).
  rewrite <-E2 in Hb. apply (i_user _ _ _ _ I2) in Hb. congruence.
Qed.
End serve.
