(* ===== verification/FilFinish.v ===== *)
(** The end of an array operation and the end of a transfer of data. *)
From stdpp Require Import functions.
From S2P Require Import Prelude Avl Flash Fil FilFacts FilSched FilQueue FilDispatch FilRound FilMoves FilDone FilServe.
#[local] Open Scope Z_scope.
#[local] Unset Default Proof Using.

Section chips.
(** The status of a chip and its counters do not matter to the invariant. *)
Definition chips_like (f g : chip_id → chip_data) : Prop :=
  ∀ ck, current_xfer (g ck) = current_xfer (f ck) ∧ cmd_xfer_queue (g ck) = cmd_xfer_queue (f ck).
Lemma chips_like_trans f g h : chips_like f g → chips_like g h → chips_like f h.
Proof using Type. intros A B ck. destruct (A ck) as [<- <-]. apply B. Qed.
Lemma wp_upd_chip ck f (Q : unit → fil → Prop) s :
  (∀ y, current_xfer (f y) = current_xfer y ∧ cmd_xfer_queue (f y) = cmd_xfer_queue y) →
  (∀ g, chips_like (chips s) g → Q tt (set_chips g s)) → wp (upd_chip ck f) Q s.
Proof using Type.
  intros Hf HQ. unfold upd_chip. wp_steps. apply HQ. intros ck'. rewrite fn_insert_decide.
  destruct (decide _) as [->|]; [apply Hf|done].
Qed.
Lemma wp_if_chip b ck f (Q : unit → fil → Prop) s :
  (∀ y, current_xfer (f y) = current_xfer y ∧ cmd_xfer_queue (f y) = cmd_xfer_queue y) →
  (∀ g, chips_like (chips s) g → Q tt (set_chips g s)) → wp (do_if b (upd_chip ck f)) Q s.
Proof using Type.
  intros Hf HQ. wp_steps. destruct b; [by apply wp_upd_chip|].
  specialize (HQ (chips s)). destruct s. by apply HQ.
Qed.
End chips.

(** One operation; the changes of a chip are kept abstract. *)
Ltac fop := lazymatch goal with
  | |- wp (_ ≫= _) _ _ => apply wp_bind
  | |- wp (mret _) _ _ => apply wp_ret
  | |- wp get _ _ => apply wp_get
  | |- wp (gets _) _ _ => apply wp_gets
  | |- wp (get_task _) _ _ => apply wp_gets
  | |- wp (get_die _) _ _ => apply wp_gets
  | |- wp (get_chip _) _ _ => apply wp_gets
  | |- wp (modify _) _ _ => apply wp_modify
  | |- wp (upd_task _ _) _ _ => apply wp_modify
  | |- wp (upd_die _ _) _ _ => apply wp_modify
  | |- wp (set_channel_status _ _) _ _ => apply wp_modify
  | |- wp (emit _) _ _ => apply wp_modify
  | |- wp (upd_chip _ _) _ _ => apply wp_upd_chip; [by intros; split|]; intros ?; fcbn; intros ?
  | |- wp (do_if _ (upd_chip _ _)) _ _ => apply wp_if_chip; [by intros; split|]; intros ?; fcbn; intros ?
  end; cbn beta iota.
Ltac fops := repeat fop.

Section finish.
Context `{NfcOk}.

Lemma exec_ended X ph u s dk : inv X ph u s → is_exec (ph dk) = true →
  avl_ok ad_key (avl_erase ad_key (entry s dk) (die_command_avl s)) ∧
  ∀ x, x ∈ inorder (avl_erase ad_key (entry s dk) (die_command_avl s)) ↔ x ∈ inorder (die_command_avl s) ∧ ad_die x ≠ dk.
Proof using Type.
  intros I Hx. pose proof (i_avl _ _ _ _ I) as [A1 A2]. destruct (avl_ok_erase ad_key (entry s dk) _ A1) as [A3 A4].
  split; [done|]. intros x. rewrite A4. split; intros [Hi Hk]; (split; [done|]).
  - intros E. apply Hk. apply A2 in Hi as [_ ->]. by rewrite E.
  - apply A2 in Hi as [Hp E]. intros Ek. apply Hk. rewrite E in Ek. injection Ek as _ Ek.
    apply unique_id_inj; [| |done]; apply (i_valid _ _ _ _ I); intros E'; by rewrite E' in *.
Qed.

(** ** After a completion *)
Lemma wp_after X ph u s c w (Q : unit → fil → Prop) : inv X ph u s → (∀ ck, 0 ≤ X ck) → in_range c w →
  (∀ s' ph' u', inv X ph' u' s' → steps c [] ph s ph' s' → Q tt s') →
  wp (do_if (bool_decide (channel_status s c = BUS_IDLE)) (tsu_notify_channel_idle c)) (λ _,
    wp (y ← get_chip (c, w); do_if (bool_decide (c_status y = CS_IDLE)) (tsu_notify_chip_idle c w)) Q) s.
Proof using All.
  intros I HX HR HQ. eapply wp_mono; [apply (wp_if_idle X ph u); try done; apply HR|].
  intros [] s1 (ph1 & u1 & I1 & S1 & _). unfold get_chip. wp_steps.
  destruct (bool_decide _); [|by eapply HQ].
  eapply wp_mono; [by apply (wp_notify_chip_idle X ph1 u1)|]. intros [] s2 (ph2 & u2 & I2 & S2).
  eapply HQ; [done|]. by eapply (steps_trans _ [] []).
Qed.

(** A die that leaves the array or the bus for a phase that uses neither. *)
Record leaves (s : fil) (dk : die_id) (s' : fil) : Prop := {
  lv_tasks : ∀ t, static (tasks s' t) = static (tasks s t) ∧
    (k_completed (tasks s t) = true → k_completed (tasks s' t) = true);
  lv_dies : ∀ dk', dk' ≠ dk → dies s' dk' = dies s dk';
  lv_chips : chips_like (chips s) (chips s');
  lv_in : chip_in_transfer_list s' = chip_in_transfer_list s;
  lv_queues : chip_queues s' = chip_queues s;
  lv_count : request_count s' = request_count s;
  lv_rr : channel_rr_index s' = channel_rr_index s;
  lv_log : issued (nfc_log s') = issued (nfc_log s);
}.
Section leaving.
Context (X : chip_id → Z) (ph : die_id → phase) (u : Z → option die_id) (s : fil) (I : inv X ph u s).
Context (dk : die_id) (p : phase) (s' : fil) (L : leaves s dk s').
Context (t : Z) (Ht : task_of (ph dk) = Some t).
Lemma changed_leaves : is_in (ph dk) = false → on_bus p = false → is_exec p = false → (∀ t, task_of p = Some t → task_of (ph dk) = Some t) →
  die_ok s' p dk →
  (∀ c, channel_status s' c = if decide (c = dk.1.1) then if on_bus (ph dk) then BUS_IDLE else channel_status s c else channel_status s c) →
  chip_out_transfer_list s' = upd_member (is_out (ph dk)) (is_out p) dk (chip_out_transfer_list s) →
  (∀ c, lists (waiting_read_xfer s' c) (λ t, ∃ dk', dk'.1.1 = c ∧ <[dk := p]> ph dk' = PWait t)) →
  (avl_ok ad_key (die_command_avl s') ∧ ∀ x, x ∈ inorder (die_command_avl s') ↔ x ∈ inorder (die_command_avl s) ∧ ad_die x ≠ dk) →
  (blocks_program (dies s' dk) = true → blocks_program (dies s dk) = true) →
  changed ph u s dk p s'.
Proof using I L Ht.
  intros Hi Hb Hx Htp Hok Hbus Hout Hw [A1 A2] Hbl. assert (is_in p = false) as Hip by by destruct p.
  split; rewrite ?Hip, ?Hi; try done.
  - by eapply phase_valid.
  - apply L.
  - apply L.
  - by rewrite Hb.
  - intros c. rewrite Hbus. unfold upd_user. rewrite Hb, fn_insert_decide. destruct (decide _) as [->|]; [|apply I].
    destruct (on_bus (ph dk)); [done|apply I].
  - intros ck. rewrite (proj2 (lv_chips _ _ _ L ck)). apply I.
  - intros ck. rewrite (proj1 (lv_chips _ _ _ L ck)). by destruct (decide _).
  - apply L.
  - split; [done|]. intros x. rewrite A2, Hx. naive_solver.
  - intros q. by rewrite (lv_queues _ _ _ L).
  - intros t' q ?%Htp. by left.
  - intros ck. by rewrite (lv_count _ _ _ L).
  - intros c. by rewrite (lv_rr _ _ _ L).
  - auto.
Qed.
Lemma leaves_in_flight : active_txns (dies s' dk) = [t] → pending s' = pending s.
Proof using I L Ht.
  intros E. destruct (on_die_of _ _ _ _ I _ _ Ht) as (cur & xf & D). unfold pending.
  rewrite (queued_same s s'), (in_flight_same s s'); [done| |by intros; rewrite (lv_queues _ _ _ L)].
  intros dk'. destruct (decide (dk' = dk)) as [->|Hne]; [|by rewrite (lv_dies _ _ _ L)]. rewrite E. symmetry. apply D.
Qed.
Lemma leaves_commands : commands s' ≡ₚ commands s.
Proof using L.
  rewrite (commands_same s s'); [done| | |apply L]; [intros q; by rewrite (lv_queues _ _ _ L)|intros t'; apply L].
Qed.
Lemma leaves_on : active_txns (dies s' dk) = [t] → used_ring s' = used_ring s → (stage (ph dk) < stage p)%nat →
  moves [] 1 ph s (<[dk := p]> ph) s'.
Proof using I L Ht.
  intros E Eu Hs. split.
  - by rewrite Eu, app_nil_r.
  - cbn [app]. by rewrite leaves_in_flight.
  - intros t'. apply L.
  - intros t' [?%not_elem_of_nil|?]; [done|by apply L].
  - apply leaves_commands.
  - pose proof (progress_update ph dk p (phase_valid _ _ _ _ I _ _ Ht)). cbn [length]. lia.
Qed.
Lemma leaves_answered : active_txns (dies s' dk) = [] → used_ring s' = used_ring s ++ [t] →
  k_completed (tasks s' t) = true → moves [t] 1 ph s (<[dk := PIdle]> ph) s'.
Proof using I L Ht.
  intros E Eu Ec. pose proof (phase_valid _ _ _ _ I _ _ Ht) as V. split.
  - done.
  - destruct (on_die_of _ _ _ _ I _ _ Ht) as (cur & xf & D). unfold pending.
    rewrite (queued_same s s') by (intros; by rewrite (lv_queues _ _ _ L)).
    destruct (in_flight_update s s' dk V (lv_dies _ _ _ L)) as (rest & -> & ->).
    rewrite E, (od_txns _ _ _ _ _ D). cbn [app]. by rewrite <-Permutation_middle.
  - intros t'. apply L.
  - intros t' [->%list_elem_of_singleton|?]; [done|by apply L].
  - apply leaves_commands.
  - pose proof (progress_update ph dk PIdle V). assert (stage (ph dk) ≤ 4)%nat by (destruct (ph dk); cbn; lia). cbn [length stage] in *. lia.
Qed.
End leaving.

(** ** The end of an array operation *)
Definition kept (dk : die_id) (ph ph' : die_id → phase) : Prop := ∀ dk' t, dk' ≠ dk → ph dk' = PExec t → ph' dk' = PExec t.
Section exec.
Context (X : chip_id → Z) (ph : die_id → phase) (u : Z → option die_id) (s : fil) (I : inv X ph u s).
Context (dk : die_id) (t : Z) (Hp : ph dk = PExec t) (s' : fil) (L : leaves s dk s').
Context (Hb : channel_status s' = channel_status s) (Ho : chip_out_transfer_list s' = chip_out_transfer_list s).
Context (Ha : die_command_avl s' = avl_erase ad_key (entry s dk) (die_command_avl s)).
Lemma exec_task : task_of (ph dk) = Some t.
Proof using Hp. by rewrite Hp. Qed.

Lemma exec_waits : k_type (tasks s t) = TXN_READ → on_die s' dk t false None → used_ring s' = used_ring s →
  waiting_read_xfer s' = <[dk.1.1 := waiting_read_xfer s dk.1.1 ++ [t]]> (waiting_read_xfer s) →
  changed ph u s dk (PWait t) s' ∧ moves [] 1 ph s (<[dk := PWait t]> ph) s'.
Proof using All.
  intros Ty D Hu Hw. pose proof (i_die _ _ _ _ I dk) as D0. rewrite Hp in D0. destruct D0 as [D0 _]. split.
  - eapply (changed_leaves X ph u); rewrite ?Hp; try done.
    + split; [done|]. destruct (static_addr _ _ (proj1 (lv_tasks _ _ _ L t))) as (_ & -> & _). done.
    + intros c. rewrite Hb. by destruct (decide _).
    + intros c. rewrite Hw, fn_insert_decide.
      assert (∀ dk', ph dk' ≠ PWait t) as Hno.
      { intros dk' E. assert (dk = dk') as <- by (eapply (task_unique _ _ _ _ I); [apply exec_task|by rewrite E]). congruence. }
      pose proof (wait_add X ph u s I dk (PWait t) t eq_refl ltac:(by rewrite Hp) Hno c) as W.
      by destruct (decide (c = dk.1.1)) as [->|].
    + rewrite Ha. eapply (exec_ended X ph u); [done|by rewrite Hp].
    + intros _. unfold blocks_program. by rewrite (od_cmd _ _ _ _ _ D0), (od_active _ _ _ _ _ D0), Ty.
  - eapply (leaves_on X ph u); rewrite ?Hp; try done; [apply D|cbn; lia].
Qed.
Lemma exec_answered : die_ok s' PIdle dk → waiting_read_xfer s' = waiting_read_xfer s → used_ring s' = used_ring s ++ [t] →
  k_completed (tasks s' t) = true → changed ph u s dk PIdle s' ∧ moves [t] 1 ph s (<[dk := PIdle]> ph) s'.
Proof using All.
  intros D Hw Hu Hc. split.
  - eapply (changed_leaves X ph u); rewrite ?Hp; try done.
    + intros c. rewrite Hb. by destruct (decide _).
    + rewrite Hw. eapply (wait_keep X ph u); [done|by rewrite Hp|done].
    + rewrite Ha. eapply (exec_ended X ph u); [done|by rewrite Hp].
    + unfold blocks_program. destruct D as (-> & _). done.
  - eapply (leaves_answered X ph u); try done; [apply exec_task|apply D].
Qed.
End exec.

Lemma wp_notify t e (Q : unit → fil → Prop) s :
  Q tt (set_ipi (ipi_coalesce_counter s + 1) (set_used (used_ring s ++ [t]) (set_tasks (<[t := completed_task e (tasks s t)]> (tasks s)) s))) →
  wp (notify_task_complete t e) Q s.
Proof using Type.
  intros HQ. unfold notify_task_complete, enqueue_response. fops. apply wp_assert. fcbn. rewrite fn_lookup_insert.
  split; [done|]. fops. exact HQ.
Qed.

Lemma wp_finish_die X ph u s now dk t : inv X ph u s → (∀ ck, 0 ≤ X ck) → ph dk = PExec t →
  wp (finish_die_command now dk) (λ _ s', ∃ ph' u' l, inv X ph' u' s' ∧ moves l 1 ph s ph' s' ∧ kept dk ph ph') s.
Proof using All.
  intros I HX Hp. destruct dk as [[c w] i].
  pose proof (i_die _ _ _ _ I (c, w, i)) as D. rewrite Hp in D. destruct D as [D _].
  pose proof (phase_valid _ _ _ _ I (c, w, i) t) as V. rewrite Hp in V. specialize (V eq_refl).
  pose proof (proj1 (valid_bounds _ _ _) V) as (Hc & Hw & _).
  destruct (exec_ended _ _ _ _ _ I ltac:(by rewrite Hp)) as [A1 A2].
  unfold finish_die_command. fops. fold (entry s (c, w, i)). set (s0 := set_avl _ s).
  unfold complete_die_command. cbn [fst snd]. fops.
  change (dies s0) with (dies s). rewrite (od_cmd _ _ _ _ _ D), (od_txns _ _ _ _ _ D). cbn [cmd_code for_each].
  destruct (is_read_cmd (code_of (k_type (tasks s t))) && negb (cmd_error (dies s (c, w, i)))) eqn:Er.
  - fops. assert (chips_like (chips s) g1) as Hg by eauto using chips_like_trans. clear H1 H2 H3.
    match goal with |- wp _ _ ?s' => set (s1 := s') end.
    assert (k_type (tasks s t) = TXN_READ) as Ty by (pose proof (od_type _ _ _ _ _ D); revert Er; by destruct (k_type (tasks s t))).
    destruct (exec_waits X ph u s I (c, w, i) t Hp s1) as [C M]; try done.
    { split; try done; unfold s1, s0; fcbn.
      - intros t'. fins; done.
      - intros dk' Hne. by rewrite fn_lookup_insert_ne. }
    { split; unfold s1, s0; fcbn; rewrite ?fn_lookup_insert; fcbn; first [done|apply D]. }
    eapply wp_mono; [eapply (wp_start_out X); [by eapply inv_changed|done]|]. clearbody s1.
    intros [] s2 (ph2 & u2 & I2 & M2 & L2 & _). fops. apply (wp_after X ph2 u2); try done.
    intros s3 ph3 u3 I3 S3. exists ph3, u3, []. split; [done|]. split.
    + eapply (moves_trans [] [] 1 0); [exact M| |done]. eapply (moves_trans [] [] 0 0); [exact M2|by eapply moves_steps|done].
    + intros dk' t' Hne E. eapply (lc_exec _ _ _ _ _ (local_steps _ _ _ _ _ _ S3)), L2. by rewrite fn_lookup_insert_ne.
  - fops. apply wp_notify. fops. match goal with |- wp _ _ ?s' => set (s1 := s') end.
    destruct (exec_answered X ph u s I (c, w, i) t Hp s1) as [C M]; try done.
    { split; try done; unfold s1, s0; fcbn.
      - intros t'. fins; done.
      - intros dk' Hne. by rewrite !fn_lookup_insert_ne.
      - eauto using chips_like_trans. }
    { unfold s1, s0, die_ok. fcbn. rewrite !fn_lookup_insert. fcbn. split_and!; try done. apply D. }
    { unfold s1, s0. fcbn. by rewrite !fn_lookup_insert. }
    eapply (wp_after X); [by eapply inv_changed|done|done|]. clearbody s1.
    intros s3 ph3 u3 I3 S3. exists ph3, u3, [t]. split; [done|]. split.
    + eapply (moves_trans [t] [] 1 0); [exact M|by eapply moves_steps|done].
    + intros dk' t' Hne E. eapply (lc_exec _ _ _ _ _ (local_steps _ _ _ _ _ _ S3)). by rewrite fn_lookup_insert_ne.
Qed.

(** ** The end of a transfer of data *)
Section out.
Context (X : chip_id → Z) (ph : die_id → phase) (u : Z → option die_id) (s : fil) (I : inv X ph u s).
Context (dk : die_id) (t : Z) (Hp : ph dk = POut t) (s' : fil) (L : leaves s dk s').
Lemma out_answered : channel_status s' = <[dk.1.1 := BUS_IDLE]> (channel_status s) →
  chip_out_transfer_list s' = list_del dk (chip_out_transfer_list s) → die_command_avl s' = die_command_avl s →
  die_ok s' PIdle dk → waiting_read_xfer s' = waiting_read_xfer s → used_ring s' = used_ring s ++ [t] →
  k_completed (tasks s' t) = true → changed ph u s dk PIdle s' ∧ moves [t] 1 ph s (<[dk := PIdle]> ph) s'.
Proof using All.
  intros Hb Ho Ha D Hw Hu Hc. split.
  - eapply (changed_leaves X ph u); rewrite ?Hp; try done.
    + intros c. by rewrite Hb, fn_insert_decide.
    + rewrite Hw. eapply (wait_keep X ph u); [done|by rewrite Hp|done].
    + rewrite Ha. pose proof (i_avl _ _ _ _ I) as [A1 A2]. split; [done|]. intros x. split; [|by intros [? _]].
      intros Hx. split; [done|]. intros E. apply A2 in Hx as [Hx _]. by rewrite E, Hp in Hx.
    + unfold blocks_program. destruct D as (-> & _). done.
  - eapply (leaves_answered X ph u); try done; [by rewrite Hp|apply D].
Qed.
End out.

Lemma wp_waiting_chip b ck f k (Q : unit → fil → Prop) s :
  (∀ y, current_xfer (f y) = current_xfer y ∧ cmd_xfer_queue (f y) = cmd_xfer_queue y) →
  (∀ z y, current_xfer (k z y) = current_xfer y ∧ cmd_xfer_queue (k z y) = cmd_xfer_queue y) →
  (∀ g, chips_like (chips s) g → Q tt (set_chips g s)) →
  wp (do_if b (upd_chip ck f ;; y ← get_chip ck; upd_chip ck (k y))) Q s.
Proof using Type.
  intros Hf Hk HQ. wp_steps. destruct b; [|specialize (HQ (chips s)); destruct s; by apply HQ].
  fop. apply wp_upd_chip; [done|]. intros g1 ?. fops. apply wp_upd_chip; [done|]. fcbn. intros g2 ?.
  eapply HQ. by eapply chips_like_trans.
Qed.
Lemma wp_bitmap c len (Q : Z → fil → Prop) s : (∀ b a, Q b (set_accesses a s)) → wp (nfc_complete_transfer c len) Q s.
Proof using Type. intros HQ. unfold nfc_complete_transfer, access. fops. apply HQ. Qed.
Lemma metadata_same a l old : metadata_of (Cmd FCMD_READ_PAGE [a] [l]) (plane a) old = l.
Proof using Type. unfold metadata_of. cbn. by rewrite Z.eqb_refl. Qed.

Lemma wp_complete_out X ph u s now dk t : inv X ph u s → (∀ ck, 0 ≤ X ck) → ph dk = POut t →
  wp (complete_data_out_transfer dk now) (λ _ s', ∃ ph' u', inv X ph' u' s' ∧ moves [t] 1 ph s ph' s' ∧
    chip_out_transfer_list s' = list_del dk (chip_out_transfer_list s)) (set_out_list (list_del dk (chip_out_transfer_list s)) s).
Proof using All.
  intros I HX Hp. destruct dk as [[c w] i].
  pose proof (i_die _ _ _ _ I (c, w, i)) as D. rewrite Hp in D. destruct D as [D Ty].
  pose proof (phase_valid _ _ _ _ I (c, w, i) t) as V. rewrite Hp in V. specialize (V eq_refl).
  pose proof (proj1 (valid_bounds _ _ _) V) as (Hc & Hw & _).
  set (s0 := set_out_list _ s). unfold complete_data_out_transfer. cbn [fst snd]. fops.
  change (dies s0) with (dies s). rewrite (od_xfer _ _ _ _ _ D). apply wp_deref. eexists. split; [done|]. fops.
  apply wp_bitmap. intros bm acc. fops. apply wp_notify. fops. unfold s0. fcbn. rewrite !fn_lookup_insert. fcbn.
  rewrite (od_txns _ _ _ _ _ D), list_del_head by apply not_elem_of_nil. rewrite bool_decide_true by done. cbn [do_if]. fops.
  apply wp_waiting_chip; [by intros; split|by intros; split|]. fcbn. intros g Hg. fops.
  match goal with |- wp _ _ ?s' => set (s1 := s') end.
  assert (metadata_of (cmd_buf (dies s (c, w, i))) (plane (k_addr (tasks s t))) (k_lpa (tasks s t)) = k_lpa (tasks s t)) as El.
  { rewrite (od_cmd _ _ _ _ _ D), Ty. apply metadata_same. }
  destruct (out_answered X ph u s I (c, w, i) t Hp s1) as [C M]; try done.
  { split; try done; unfold s1; fcbn; rewrite ?El.
    - intros t'. fins; done.
    - intros dk' Hne. by rewrite !fn_lookup_insert_ne.
    - by rewrite issued_other. }
  { unfold s1, die_ok. fcbn. rewrite !fn_lookup_insert. fcbn. split_and!; try done. apply D. }
  { unfold s1. fcbn. by rewrite fn_lookup_insert. }
  eapply wp_mono; [eapply (wp_flush_channel X); [by eapply inv_changed|done|done|]|].
  { unfold upd_user. cbn. by rewrite fn_lookup_insert, Hp. }
  intros [] s2 (ph2 & u2 & [I2 S2 _] & _). exists ph2, u2. split; [done|]. split.
  - eapply (moves_trans [t] [] 1 0); [exact M|by eapply moves_steps|done].
  - by rewrite (st_out _ _ _ _ _ _ S2).
Qed.
End finish.
