(* ===== verification/FilPoll.v ===== *)
(** Polling the dies: which dies are due, and the loop that reads their status. *)
From stdpp Require Import functions.
From S2P Require Import Prelude Avl Flash Fil FilFacts FilSched FilQueue FilDispatch FilRound FilMoves FilDone FilServe FilFinish.
#[local] Open Scope Z_scope.
#[local] Unset Default Proof Using.

(** * The tree of running commands *)
Section tree.
Context {A K : Type} `{OrdKeyOk K} (key : A → K).
Lemma start_loop_neq k target t d it : (∀ x, x ∈ inorder t → key x ≠ k) →
  avl_start_loop key k false target t d it = avl_start_loop key k true target t d it.
Proof using All.
  revert d it. induction t as [|l IHl x h r IHr]; intros d it Hn; [done|]. cbn [avl_start_loop inorder] in *.
  assert ((kcmp k (key x) =? 0) = false) as ->.
  { apply Z.eqb_neq. intros E. apply (proj1 (kcmp_eq k (key x))) in E. apply (Hn x); [|by symmetry].
    rewrite elem_of_app. right. by left. }
  cbn [andb]. rewrite IHl, IHr; [done|..]; intros y Hy; apply Hn; rewrite elem_of_app, elem_of_cons; auto.
Qed.
Lemma height_elems (t : tree A) : height t ≤ Z.of_nat (length (inorder t)).
Proof using Type.
  induction t as [|l IHl x h r IHr]; [done|]. cbn [height inorder]. rewrite length_app. cbn [length]. lia.
Qed.
Lemma greater_elems k t : keys_sorted key (inorder t) → Z.of_nat (length (inorder t)) ≤ Z.of_nat AVL_MAX_DEPTH →
  (∀ x, x ∈ inorder t → klt k (key x)) →
  it_elems (avl_start_iter key t k AVL_GREATER) = inorder t ∧ it_ok (avl_start_iter key t k AVL_GREATER).
Proof using All.
  intros Hs Hl Hk. pose proof (height_elems t) as Hh.
  destruct (start_iter_elems key k t Hs ltac:(lia)) as [E O].
  change (avl_start_iter key t k AVL_GREATER) with
    (avl_start_loop key k false (-1) t 0 (AvlIter t None 0 (replicate AVL_MAX_DEPTH Leaf))).
  rewrite start_loop_neq by (intros x Hx E'; specialize (Hk x Hx); rewrite E' in Hk; by apply klt_irrefl in Hk).
  split; [|exact O]. etrans; [exact E|]. apply filter_kge_all. by apply Forall_forall.
Qed.
End tree.

Lemma all_dies_length : length all_dies = 32%nat.
Proof. by vm_compute. Qed.
Lemma NoDup_incl_length {A} (l k : list A) : NoDup l → (∀ x, x ∈ l → x ∈ k) → (length l ≤ length k)%nat.
Proof. intros Hn Hi. by apply submseteq_length, NoDup_submseteq. Qed.

Section running.
Context (X : chip_id → Z) (ph : die_id → phase) (u : Z → option die_id) (s : fil) (I : inv X ph u s).
Lemma running_elem x : x ∈ inorder (die_command_avl s) → is_exec (ph (ad_die x)) = true ∧ x = entry s (ad_die x).
Proof using I. apply (i_avl _ _ _ _ I). Qed.
Lemma exec_die dk : is_exec (ph dk) = true → ∃ t, ph dk = PExec t ∧ on_die s dk t true None ∧ 0 < cmd_finish_time (dies s dk).
Proof using I.
  intros Hx. pose proof (i_die _ _ _ _ I dk) as D. destruct (ph dk) as [|t|t|t|t]; try done. exists t. by destruct D.
Qed.
Lemma running_NoDup : NoDup (ad_die <$> inorder (die_command_avl s)).
Proof using I.
  pose proof (i_avl _ _ _ _ I) as [[Hs _] _]. apply NoDup_fmap_2_strong.
  - intros x y Hx Hy E. apply running_elem in Hx as [_ ->], Hy as [_ ->]. cbn. by rewrite E.
  - clear -Hs. induction Hs as [|x l Hs IH Hf]; [constructor|]. constructor; [|done]. intros Hx.
    rewrite Forall_forall in Hf. specialize (Hf x Hx). by apply klt_irrefl in Hf.
Qed.
Lemma running_length : (length (inorder (die_command_avl s)) ≤ 32)%nat.
Proof using I.
  rewrite <-all_dies_length, <-(length_fmap ad_die). apply NoDup_incl_length; [apply running_NoDup|].
  intros dk (x & -> & Hx)%list_elem_of_fmap. apply running_elem in Hx as [Hx _]. apply all_dies_valid, (i_valid _ _ _ _ I).
  intros E. by rewrite E in Hx.
Qed.
Lemma running_iter : it_elems (avl_start_iter ad_key (die_command_avl s) (0, 0) AVL_GREATER) = inorder (die_command_avl s) ∧
  it_ok (avl_start_iter ad_key (die_command_avl s) (0, 0) AVL_GREATER).
Proof using I.
  apply greater_elems.
  - apply (i_avl _ _ _ _ I).
  - pose proof running_length. unfold AVL_MAX_DEPTH. lia.
  - intros x [Hx E]%running_elem. destruct (exec_die _ Hx) as (t & _ & _ & Hpos). rewrite E. unfold klt, kcmp, die_command_key, die_command_comp.
    cbn [ad_key entry ad_time ad_unique_id fst snd]. by rewrite (proj2 (Z.ltb_lt _ _) Hpos).
Qed.
End running.

(** * Collecting the dies that are due *)
Record polls_ok (ph : die_id → phase) (p : polls) (ready : list die_id) : Prop := {
  po_bit : ∀ c, Z.testbit p.1 c = true ↔ p.2 c ≠ [];
  po_elem : ∀ c dk, dk ∈ p.2 c → dk.1.1 = c ∧ is_exec (ph dk) = true ∧ dk ∉ ready;
  po_nodup : ∀ c, NoDup (p.2 c);
  po_ready : NoDup ready ∧ ∀ dk, dk ∈ ready → is_exec (ph dk) = true;
}.

Section poll.
Context `{NfcOk}.
Context (X : chip_id → Z) (ph : die_id → phase) (u : Z → option die_id).

Lemma wp_read_status dk (Q : unit → fil → Prop) s : inv X ph u s → is_exec (ph dk) = true →
  (∀ s', quiet s s' → accesses s' = accesses s → Q tt s') → wp (read_status_of dk) Q s.
Proof using Type.
  intros I Hx HQ. destruct (exec_die _ _ _ _ I _ Hx) as (t & _ & D & _). unfold read_status_of. fops.
  rewrite (od_cmd _ _ _ _ _ D). apply wp_deref. eexists. split; [done|]. fops. apply HQ; [quiet|done].
Qed.

(** [p'] is [p] with [dk] at the end of the list of its channel. *)
Record added (p : polls) (dk : die_id) (p' : polls) : Prop := {
  pa_bit : ∀ c, Z.testbit p'.1 c = bool_decide (c = dk.1.1) || Z.testbit p.1 c;
  pa_list : ∀ c, p'.2 c = if decide (c = dk.1.1) then p.2 c ++ [dk] else p.2 c;
}.
Lemma polls_add p dk p' : polls_ok ph p [] → is_exec (ph dk) = true → dk ∉ p.2 dk.1.1 → added p dk p' → polls_ok ph p' [].
Proof using Type.
  intros [P1 P2 P3 P4] Hx Hn [B L]. split.
  - intros c. rewrite B, L. destruct (decide (c = dk.1.1)) as [->|Hne].
    + rewrite bool_decide_true by done. cbn [orb]. split; [|done]. intros _ E. by apply app_nil in E as [_ ?].
    + rewrite bool_decide_false by done. apply P1.
  - intros c dk'. rewrite L. destruct (decide (c = dk.1.1)) as [->|]; [|apply P2].
    rewrite elem_of_app, list_elem_of_singleton. intros [?| ->]; [by apply P2|]. split_and!; [done|done|apply not_elem_of_nil].
  - intros c. rewrite L. destruct (decide (c = dk.1.1)) as [->|]; [|apply P3].
    apply NoDup_app. split; [apply P3|]. split; [|apply NoDup_singleton]. by intros y Hy ->%list_elem_of_singleton.
  - done.
Qed.
Lemma wp_add dk p (k : polls → ST fil polls) (Q : polls → fil → Prop) s :
  inv X ph u s → is_exec (ph dk) = true → polls_ok ph p [] →
  (∀ p' s', quiet s s' → added p dk p' → wp (k p') Q s') →
  wp ('(status_busy, lists) ← (if Z.testbit p.1 dk.1.1 then mret p
        else read_status_of dk ;; mret (Z.setbit p.1 dk.1.1, <[dk.1.1 := []]> p.2));
      k (status_busy, <[dk.1.1 := lists dk.1.1 ++ [dk]]> lists)) Q s.
Proof using Type.
  intros I Hx P HQ. destruct (exec_die _ _ _ _ I _ Hx) as (t & Hp & _).
  assert (0 ≤ dk.1.1) as Hc.
  { pose proof (phase_valid _ _ _ _ I dk t) as V. rewrite Hp in V. specialize (V eq_refl). destruct dk as [[c w] i].
    apply valid_bounds in V. cbn. lia. }
  fops. destruct p as [st ls]. cbn [fst snd] in *. destruct (Z.testbit st dk.1.1) eqn:Et; fops.
  - apply HQ; [apply quiet_refl|]. split; cbn [fst snd]; intros c.
    + case_bool_decide; [by subst|done].
    + rewrite fn_insert_decide. by destruct (decide _) as [->|].
  - apply (wp_read_status dk); [done|done|]. intros s' Qs _. fops. apply HQ; [done|]. split; cbn [fst snd]; intros c.
    + rewrite Z.setbit_eqb by done. f_equal. apply eq_true_iff_eq. rewrite bool_decide_eq_true, Z.eqb_eq. done.
    + rewrite !fn_insert_decide. destruct (decide (c = dk.1.1)) as [->|]; [|done]. rewrite decide_True by done.
      pose proof (po_bit _ _ _ P dk.1.1) as Hb. cbn [fst snd] in Hb. rewrite Et in Hb. destruct (ls dk.1.1); [done|].
      exfalso. by assert (false = true) by by apply Hb.
Qed.

(** Everything that is due on an idle channel is collected. *)
Lemma wp_collect fuel it now p s : inv X ph u s → it_ok it → (length (it_elems it) ≤ fuel)%nat →
  (∀ x, x ∈ it_elems it → is_exec (ph (ad_die x)) = true) → NoDup (ad_die <$> it_elems it) →
  polls_ok ph p [] → (∀ x c, x ∈ it_elems it → ad_die x ∉ p.2 c) →
  wp (collect_due fuel it now p) (λ p' s', quiet s s' ∧ polls_ok ph p' [] ∧
    (∀ c dk, dk ∈ p.2 c → dk ∈ p'.2 c) ∧
    ((∀ x, x ∈ it_elems it → cmd_finish_time (dies s (ad_die x)) ≤ now) →
      ∀ x, x ∈ it_elems it → u (ad_die x).1.1 = None → ad_die x ∈ p'.2 (ad_die x).1.1)) s.
Proof using Type.
  revert it p s. induction fuel as [|fuel IH]; intros it p s I Ho Hl Hx Hn P Hd; cbn [collect_due];
    rewrite (get_iter_elems it Ho); destruct (it_elems it) as [|x l] eqn:El; cbn [head].
  1,3: fops; split_and!; [apply quiet_refl|done|done|intros _ x ?%not_elem_of_nil; done].
  { cbn [length] in Hl. lia. }
  destruct (inc_iter_elems it Ho) as [E' O']. rewrite El in E'. cbn [tail] in E'. specialize (IH (avl_inc_iter it)).
  rewrite E' in IH. rewrite fmap_cons in Hn. apply NoDup_cons in Hn as [Hnx Hn]. cbn [length] in Hl.
  assert (∀ y, y ∈ l → ad_die y ≠ ad_die x) as Hne.
  { intros y Hy E. apply Hnx. rewrite <-E. by apply list_elem_of_fmap_2. }
  assert (∀ y, y ∈ l → is_exec (ph (ad_die y)) = true) as Hx' by (intros; apply Hx; by right).
  assert (∀ y c, y ∈ l → ad_die y ∉ p.2 c) as Hd' by (intros; apply Hd; by right).
  fops. destruct (Z.ltb_spec now (cmd_finish_time (dies s (ad_die x)))) as [Hlt|Hle].
  { fops. split_and!; [apply quiet_refl|done|done|]. intros Hdue. specialize (Hdue x ltac:(by left)). lia. }
  fops. rewrite (bus_busy _ _ _ _ _ I). destruct (bool_decide_reflect (u (ad_die x).1.1 ≠ None)) as [Hu|Hu].
  { eapply wp_mono; [apply IH; try done; lia|].
    intros p' s' (Q & P' & K & C). split_and!; try done. intros Hdue y Hy Huy.
    apply elem_of_cons in Hy as [->|Hy]; [done|]. apply C; [|done|done]. intros z Hz. apply Hdue. by right. }
  pose proof (Hx x ltac:(by left)) as Hxx.
  apply (wp_add (ad_die x) p (λ p, collect_due fuel (avl_inc_iter it) now p)); [done|done|done|].
  intros p1 s1 Q1 A1. pose proof (pa_list _ _ _ A1) as L1.
  eapply wp_mono; [apply IH; try done|].
  - by eapply inv_quiet.
  - lia.
  - eapply polls_add; [done|done| |done]. apply Hd. by left.
  - intros y c Hy. rewrite L1. destruct (decide _); [|by apply Hd']. rewrite elem_of_app, list_elem_of_singleton.
    intros [?|?]; [by eapply Hd'|by eapply Hne].
  - intros p' s' (Q & P' & K & C). split_and!; [by eapply quiet_chain|done| |].
    + intros c dk Hk. apply K. rewrite L1. destruct (decide _); [|done]. rewrite elem_of_app. by left.
    + intros Hdue y Hy Huy. apply elem_of_cons in Hy as [->|Hy].
      * apply K. rewrite L1, decide_True by done. rewrite elem_of_app. right. by left.
      * apply C; [|done|done]. intros z Hz. destruct (qt_dies _ _ Q1 (ad_die z)) as [e ->]. apply Hdue. by right.
Qed.

(** * Reading the status of the dies *)
Context (gain : nat) (HG : gain = 0%nat ∨ gain = 1%nat ∧ responsive).

(** The dies of channel [c] have been handled after [f] more rounds. *)
Definition within (f : nat) (st : polls) (s : fil) (c : Z) : Prop := Z.testbit st.1 c = true →
  ∃ k, Z.testbit (status_reg c (accesses s c + k)) 8 = true ∧ (k + 1 + patience * (length (st.2 c) - 1) ≤ f)%nat.
Lemma within_start p s c n : (length (p.2 c) ≤ n)%nat → within (S patience * S n) p s c.
Proof using All.
  intros Hn _. destruct (status_answers c (accesses s c)) as (k & Hk & E). exists k. split; [done|]. nia.
Qed.

Record polled (c : Z) (pl : polls * list die_id) (s : fil) (pl' : polls * list die_id) (s' : fil) : Prop := {
  pd_quiet : quiet s s';
  pd_ok : polls_ok ph pl'.1 pl'.2;
  pd_other : ∀ c', c' ≠ c → Z.testbit pl'.1.1 c' = Z.testbit pl.1.1 c' ∧ pl'.1.2 c' = pl.1.2 c' ∧ accesses s' c' = accesses s c';
  pd_ready : ∀ dk, dk ∈ pl.2 → dk ∈ pl'.2;
  pd_lists : gain = 1%nat → ∀ c dk, dk ∈ pl.1.2 c → dk ∈ pl'.1.2 c ∨ dk ∈ pl'.2;
  pd_within : ∀ f, within (S f) pl.1 s c → within f pl'.1 s' c;
}.
(** Handling the first die of a channel. *)
Lemma polls_pop st ls ready c dk rest st' ready' : polls_ok ph (st, ls) ready → ls c = dk :: rest →
  (∀ c', Z.testbit st' c' = if decide (c' = c) then bool_decide (rest ≠ []) else Z.testbit st c') →
  ready' = ready ∨ ready' = ready ++ [dk] → polls_ok ph (st', <[c := rest]> ls) ready'.
Proof using Type.
  intros [P1 P2 P3 [P4 P5]] El Eb Hr. cbn [fst snd] in *.
  pose proof (P3 c) as N. rewrite El in N. apply NoDup_cons in N as [Hdk N]. destruct (P2 c dk) as (Ec & Hx & Hnr); [rewrite El; by left|].
  assert (∀ c' dk', dk' ∈ (<[c := rest]> ls : Z → list die_id) c' → dk' ∈ ls c' ∧ dk' ≠ dk) as Hin.
  { intros c' dk'. rewrite fn_insert_decide. destruct (decide (c' = c)) as [->|Hne].
    - intros Hd. rewrite El. split; [by right|]. by intros ->.
    - intros Hd. split; [done|]. intros ->. destruct (P2 c' dk Hd) as [? _]. congruence. }
  assert (∀ y, y ∈ ready' → y ∈ ready ∨ y = dk) as Hr'.
  { intros y. destruct Hr as [-> | ->]; [by left|]. by rewrite elem_of_app, list_elem_of_singleton. }
  split; cbn [fst snd].
  - intros c'. rewrite Eb, fn_insert_decide. destruct (decide (c' = c)) as [->|]; [|apply P1]. by rewrite bool_decide_eq_true.
  - intros c' dk' [Hd Hne]%Hin. destruct (P2 c' dk' Hd) as (? & ? & ?). split_and!; [done|done|]. intros [?|?]%Hr'; done.
  - intros c'. rewrite fn_insert_decide. by destruct (decide _).
  - split; [|intros y [?| ->]%Hr'; [by apply P5|done]]. destruct Hr as [-> | ->]; [done|].
    apply NoDup_app. split; [done|]. split; [|apply NoDup_singleton]. by intros y Hy ->%list_elem_of_singleton.
Qed.

Lemma wp_check_status c (Q : option (bool * bool) → fil → Prop) s :
  (∀ r s', quiet s s' → accesses s' = <[c := S (accesses s c)]> (accesses s) →
    (r = None → Z.testbit (status_reg c (accesses s c)) 8 = false ∧ gain = 0%nat) →
    (gain = 1%nat → ∃ e, r = Some (true, e)) → Q r s') → wp (nfc_check_status c) Q s.
Proof using HG.
  intros HQ. unfold nfc_check_status, access. fops.
  assert (∀ r, (r = None → Z.testbit (status_reg c (accesses s c)) 8 = false ∧ gain = 0%nat) →
    (gain = 1%nat → ∃ e, r = Some (true, e)) → Q r (set_accesses (<[c := S (accesses s c)]> (accesses s)) s)) as HQ'.
  { intros r H1 H2. apply HQ; [quiet|done|done|done]. }
  destruct (Z.testbit (status_reg c (accesses s c)) 8) eqn:E8; cbn [negb].
  - destruct (Z.testbit (status_reg c (accesses s c)) 11) eqn:E11; fops; apply HQ'; try done; [eauto|].
    intros Hg. destruct HG as [|[_ HR]]; [congruence|]. destruct (HR c (accesses s c)) as (_ & _ & [?|Es]); [congruence|].
    rewrite Es. eauto.
  - fops. apply HQ'.
    + intros _. split; [done|]. destruct HG as [|[_ HR]]; [done|]. destruct (HR c (accesses s c)). congruence.
    + intros Hg. destruct HG as [|[_ HR]]; [congruence|]. destruct (HR c (accesses s c)). congruence.
Qed.
Lemma within_pop f st ls st' c dk rest s s' : Z.testbit st c = true → ls c = dk :: rest → (Z.testbit st' c = true → rest ≠ []) →
  within (S f) (st, ls) s c → within f (st', <[c := rest]> ls) s' c.
Proof using All.
  intros Eb El Hr Hw. intros Eb'. cbn [fst snd] in *. destruct (Hw Eb) as (k & _ & Hk). cbn [snd] in Hk. rewrite El in Hk.
  rewrite fn_lookup_insert. destruct (status_answers c (accesses s' c)) as (k' & Hk' & E). exists k'. split; [done|].
  specialize (Hr Eb'). destruct rest as [|dk' rest]; [done|]. cbn [length] in *. nia.
Qed.

Lemma polled_skip c st ready s : polls_ok ph st ready → Z.testbit st.1 c = false → polled c (st, ready) s (st, ready) s.
Proof using All.
  intros P Eb. split; cbn [fst snd]; try done; [apply quiet_refl|by left|]. intros f _ Eb'. congruence.
Qed.
(** The controller has not answered. *)
Lemma polled_wait c st ready s s' : polls_ok ph st ready → quiet s s' → accesses s' = <[c := S (accesses s c)]> (accesses s) →
  Z.testbit (status_reg c (accesses s c)) 8 = false → polled c (st, ready) s (st, ready) s'.
Proof using All.
  intros P Q Ea E8. split; cbn [fst snd]; try done; [|by left|].
  - intros c' Hne. rewrite Ea, fn_lookup_insert_ne; [done|]. by intros <-.
  - intros f Hw Eb. destruct (Hw Eb) as (k & E & Hk). destruct k as [|k]; [rewrite Nat.add_0_r in E; congruence|].
    exists k. rewrite Ea, fn_lookup_insert. split; [|lia]. by rewrite Nat.add_succ_comm.
Qed.
(** It has, for die [dk]. *)
Lemma polled_answer c st ls st' ready ready' dk rest s s' : polls_ok ph (st, ls) ready → Z.testbit st c = true →
  ls c = dk :: rest → quiet s s' → accesses s' = <[c := S (accesses s c)]> (accesses s) →
  (∀ c', Z.testbit st' c' = if decide (c' = c) then bool_decide (rest ≠ []) else Z.testbit st c') →
  ready' = ready ∨ ready' = ready ++ [dk] → (gain = 1%nat → ready' = ready ++ [dk]) →
  polled c ((st, ls), ready) s ((st', <[c := rest]> ls), ready') s'.
Proof using All.
  intros P Eb El Q Ea Eb' Hr Hg. split; cbn [fst snd].
  - done.
  - by eapply polls_pop.
  - intros c' Hne. rewrite Eb', decide_False by done. rewrite fn_lookup_insert_ne by done. split; [done|]. split; [done|].
    rewrite Ea, fn_lookup_insert_ne; [done|]. by intros <-.
  - intros dk' Hd. destruct Hr as [-> | ->]; [done|]. rewrite elem_of_app. by left.
  - intros G c' dk' Hd. rewrite (Hg G), fn_insert_decide, elem_of_app, list_elem_of_singleton.
    destruct (decide (c' = c)) as [->|]; [|by left]. rewrite El in Hd. apply elem_of_cons in Hd as [->|?]; auto.
  - intros f Hw. eapply within_pop; [done|done| |done]. rewrite Eb', decide_True by done. by rewrite bool_decide_eq_true.
Qed.

Lemma wp_poll_channel c st ready s : inv X ph u s → polls_ok ph st ready → 0 ≤ c →
  wp (poll_channel c (st, ready)) (λ pl' s', polled c (st, ready) s pl' s') s.
Proof using All.
  intros I P Hc. unfold poll_channel. destruct st as [st ls]. destruct (Z.testbit st c) eqn:Eb; cbn [negb]; fops; [|by apply polled_skip].
  pose proof (po_bit _ _ _ P c) as Hb. cbn [fst snd] in Hb. apply Hb in Eb as Hne. destruct (ls c) as [|dk rest] eqn:El; [done|].
  destruct (po_elem _ _ _ P c dk) as (Edk & Hx & _); [cbn [snd]; rewrite El; by left|].
  apply wp_deref. exists dk. split; [done|]. fops. apply wp_check_status. intros r s1 Q1 Ea Hnone Hg.
  destruct r as [[rd er]|]; [|fops; apply polled_wait; [done|done|done|by apply Hnone]].
  fops. cbn [tail head]. set (er' := if is_read_cmd _ then false else er).
  assert (∀ b s2, b = rd || er' → quiet s s2 → accesses s2 = <[c := S (accesses s c)]> (accesses s) → 
    wp (match rest with
        | dk' :: _ => read_status_of dk' ;; mret ((st, <[c := rest]> ls), if b then ready ++ [dk] else ready)
        | [] => mret ((Z.clearbit st c, <[c := rest]> ls), if b then ready ++ [dk] else ready)
        end) (λ pl' s', polled c (st, ls, ready) s pl' s') s2) as Hend.
  { intros b s2 -> Q2 Ea2.
    assert (gain = 1%nat → (if rd || er' then ready ++ [dk] else ready) = ready ++ [dk]) as Hg'.
    { intros [e [= -> ->]]%Hg. done. }
    destruct rest as [|dk' rest'].
    - fops. eapply polled_answer; try done; [|destruct (rd || er'); auto].
      intros c'. rewrite Z.clearbit_eqb by done. destruct (Z.eqb_spec c c') as [->|Hc'].
      + rewrite decide_True by done. by rewrite andb_false_r.
      + rewrite decide_False by congruence. by rewrite andb_true_r.
    - destruct (po_elem _ _ _ P c dk') as (_ & Hx' & _); [cbn [snd]; rewrite El; right; by left|].
      fops. apply (wp_read_status dk'); [by eapply inv_quiet|done|]. intros s3 Q3 Ea3. fops.
      eapply polled_answer; try done; [by eapply quiet_chain|congruence| |destruct (rd || er'); auto].
      intros c'. by destruct (decide _) as [->|]. }
  specialize (Hend (rd || er')). destruct (rd || er').
  - fops. apply Hend; [done| |done]. eapply quiet_chain; [exact Q1|]. split; [|done|done|fcbn; by rewrite issued_other]. intros dk'. fcbn. rewrite fn_insert_decide.
    destruct (decide _) as [->|]; [by exists er'|]. exists (cmd_error (dies s1 dk')). by destruct (dies s1 dk').
  - fops. apply Hend; [done| |done]. eapply quiet_chain; [exact Q1|]. quiet.
Qed.

(** One round over the channels [cs]. *)
Lemma wp_poll_channels cs st ready s f : inv X ph u s → polls_ok ph st ready → Forall (λ c, 0 ≤ c) cs → NoDup cs →
  (∀ c, c ∈ cs → within (S f) st s c) →
  wp (poll_channels cs (st, ready)) (λ pl' s', quiet s s' ∧ polls_ok ph pl'.1 pl'.2 ∧
    (∀ c, c ∈ cs → within f pl'.1 s' c) ∧
    (∀ c, c ∉ cs → Z.testbit pl'.1.1 c = Z.testbit st.1 c ∧ pl'.1.2 c = st.2 c ∧ accesses s' c = accesses s c) ∧
    (∀ dk, dk ∈ ready → dk ∈ pl'.2) ∧ (gain = 1%nat → ∀ c dk, dk ∈ st.2 c → dk ∈ pl'.1.2 c ∨ dk ∈ pl'.2)) s.
Proof using All.
  revert st ready s. induction cs as [|c cs IH]; intros st ready s I P Hpos Hn Hw; cbn [poll_channels]; fops.
  { split_and!; [apply quiet_refl|done|intros c ?%not_elem_of_nil; done|done|done|by left]. }
  apply Forall_cons in Hpos as [Hc Hpos]. apply NoDup_cons in Hn as [Hnc Hn].
  eapply wp_mono; [by apply wp_poll_channel|]. intros [st1 ready1] s1 D1. cbn [fst snd].
  eapply wp_mono; [apply IH; try done|].
  - eapply inv_quiet; [apply D1|done].
  - apply D1.
  - intros c' Hc'. assert (c' ≠ c) as Hne by (by intros ->). destruct (pd_other _ _ _ _ _ D1 c' Hne) as (E1 & E2 & E3). cbn [fst snd] in *.
    unfold within. rewrite E1, E2, E3. apply Hw. by right.
  - intros [st2 ready2] s2 (Q2 & P2 & W2 & B2 & R2 & L2). cbn [fst snd] in *. split_and!; try done.
    + eapply quiet_chain; [apply D1|done].
    + intros c' [->|Hc']%elem_of_cons; [|by apply W2].
      destruct (B2 c Hnc) as (E1 & E2 & E3). unfold within. rewrite E1, E2, E3. apply (pd_within _ _ _ _ _ D1), Hw. by left.
    + intros c' [Hne Hc']%not_elem_of_cons. destruct (B2 c' Hc') as (-> & -> & ->). by apply (pd_other _ _ _ _ _ D1).
    + intros dk Hd. apply R2. by apply (pd_ready _ _ _ _ _ D1).
    + intros G c' dk Hd. destruct (pd_lists _ _ _ _ _ D1 G c' dk Hd) as [Hd'|Hd']; [by apply L2|right; by apply R2].
Qed.

(** A channel with a bit is a channel. *)
Lemma polls_channel st ready s c : inv X ph u s → polls_ok ph st ready → Z.testbit st.1 c = true → c ∈ seqZ 0 NR_CHANNELS.
Proof using All.
  intros I P Hb. apply P in Hb. destruct (st.2 c) as [|dk l] eqn:E; [done|]. destruct (po_elem _ _ _ P c dk) as (<- & Hx & _); [rewrite E; by left|].
  pose proof (i_valid _ _ _ _ I dk) as V. destruct dk as [[c w] i]. apply elem_of_seqZ. cbn.
  assert (valid (c, w, i)) as V' by (apply V; intros E'; by rewrite E' in Hx). apply valid_bounds in V'. lia.
Qed.
Lemma wp_poll_loop fuel st ready s : inv X ph u s → polls_ok ph st ready → (∀ c, within fuel st s c) →
  wp (poll_loop fuel (st, ready)) (λ ready' s', quiet s s' ∧ NoDup ready' ∧ (∀ dk, dk ∈ ready' → is_exec (ph dk) = true) ∧
    (∀ dk, dk ∈ ready → dk ∈ ready') ∧ (gain = 1%nat → ∀ c dk, dk ∈ st.2 c → dk ∈ ready')) s.
Proof using All.
  revert st ready s. induction fuel as [|fuel IH]; intros st ready s I P Hw; cbn [poll_loop fst snd];
    destruct (Z.eqb_spec st.1 0) as [E0|E0].
  1,3: fops; split_and!; [apply quiet_refl|apply P|apply P|done|]; intros _ c dk Hd; exfalso;
    assert (Z.testbit st.1 c = true) as Hb by (apply P; intros E; rewrite E in Hd; by apply not_elem_of_nil in Hd);
    by rewrite E0, Z.testbit_0_l in Hb.
  - exfalso. apply E0, Z.bits_inj'. intros c _. rewrite Z.testbit_0_l. destruct (Z.testbit st.1 c) eqn:Eb; [|done].
    destruct (Hw c Eb) as (k & _ & Hk). revert Hk. generalize (patience * (length (st.2 c) - 1))%nat. lia.
  - fops. eapply wp_mono; [apply (wp_poll_channels _ st ready s fuel); try done|].
    + apply Forall_forall. intros c Hc%elem_of_seqZ. lia.
    + apply NoDup_seqZ.
    + intros [st1 ready1] s1 (Q1 & P1 & W1 & _ & R1 & L1). cbn [fst snd] in *.
      eapply wp_mono; [apply IH; [by eapply inv_quiet|done|]|].
      * intros c Eb. apply W1; [|done]. eapply (polls_channel st1 ready1 s1); [by eapply inv_quiet|done|done].
      * intros ready2 s2 (Q2 & N2 & X2 & R2 & L2). split_and!; [by eapply quiet_chain|done|done|auto|].
        intros G c dk Hd. destruct (L1 G c dk Hd) as [Hd'|Hd']; [by eapply L2|by apply R2].
Qed.

(** The dies whose operation has ended, among those that are due. *)
Lemma wp_get_completion now s : inv X ph u s →
  wp (die_command_get_completion now) (λ ready s', quiet s s' ∧ NoDup ready ∧ (∀ dk, dk ∈ ready → is_exec (ph dk) = true) ∧
    (gain = 1%nat → (∀ dk, is_exec (ph dk) = true → cmd_finish_time (dies s dk) ≤ now) →
      ∀ dk, is_exec (ph dk) = true → u dk.1.1 = None → dk ∈ ready)) s.
Proof using All.
  intros I. unfold die_command_get_completion. fops. destruct (running_iter _ _ _ _ I) as [El O].
  pose proof (running_elem _ _ _ _ I) as Hr. set (n := length (inorder (die_command_avl s))).
  eapply wp_mono; [apply wp_collect; rewrite ?El; try done|].
  - intros x Hx. by apply Hr.
  - by eapply running_NoDup.
  - split; cbn; try done; [intros c; by rewrite Z.testbit_0_l|intros c dk ?%not_elem_of_nil; done|intros; constructor|].
    split; [constructor|intros dk ?%not_elem_of_nil; done].
  - intros x c _. apply not_elem_of_nil.
  - intros p s1 (Q1 & P1 & _ & C1). rewrite El in C1. eapply wp_mono; [apply wp_poll_loop; [by eapply inv_quiet|done|]|].
    + intros c. apply within_start. unfold n. rewrite <-(length_fmap ad_die). apply NoDup_incl_length; [apply P1|].
      intros dk (_ & Hx & _)%(po_elem _ _ _ P1). apply list_elem_of_fmap. exists (entry s dk). split; [done|].
      apply (i_avl _ _ _ _ I). done.
    + intros ready s2 (Q2 & N2 & X2 & _ & L2). split_and!; [by eapply quiet_chain|done|done|].
      intros G Hdue dk Hx Hu. apply (L2 G dk.1.1).
      assert (entry s dk ∈ inorder (die_command_avl s)) as Hin by (apply (i_avl _ _ _ _ I); done).
      change dk with (ad_die (entry s dk)). apply C1; [|done|done]. intros y Hy. apply Hdue. by apply Hr.
Qed.
End poll.
