(* ===== verification/FilTick.v ===== *)
(** One iteration of [fil_tick]: it never stops, keeps the invariant, leaves no
    idle channel with something to start, and makes progress. *)
From stdpp Require Import functions.
From S2P Require Import Prelude Avl Flash Fil FilFacts FilSched FilQueue FilDispatch FilRound FilMoves FilDone FilServe FilFinish FilPoll.
#[local] Open Scope Z_scope.
#[local] Unset Default Proof Using.

(** * Lists that change while they are traversed *)
Section safe.
Context {A : Type} `{EqDecision A}.
Lemma next_in_middle (pre post : list A) x : x ∉ pre → next_in x (pre ++ x :: post) = Some (head post).
Proof using Type.
  induction pre as [|y pre IH]; intros Hx; cbn [app next_in]; [by rewrite decide_True|].
  apply not_elem_of_cons in Hx as [Hne Hx]. rewrite decide_False by done. by apply IH.
Qed.
Lemma list_del_middle (pre post : list A) x : NoDup (pre ++ x :: post) → list_del x (pre ++ x :: post) = pre ++ post.
Proof using Type.
  intros (_ & Hd & [Hp _]%NoDup_cons)%NoDup_app. unfold list_del. rewrite filter_app, filter_cons_False by auto.
  change (list_del x pre ++ list_del x post = pre ++ post). rewrite !list_del_not_in; [done|done|].
  intros Hx. apply (Hd x Hx). by left.
Qed.

(** [J n] holds after [n] iterations; elements are added at the end, at most as
    many as a measure [μ] goes down. *)
Context (members : fil → list A) (body : A → ST fil unit) (J : nat → fil → Prop) (μ : fil → nat).
Lemma wp_for_each_safe : (∀ n s, J n s → NoDup (members s)) →
  (∀ n s pre x post, J n s → members s = pre ++ x :: post → wp (body x) (λ _ s', J (S n) s' ∧
     ∃ pre' ext, members s' = pre' ++ post ++ ext ∧ (length ext + μ s' ≤ μ s)%nat) s) →
  ∀ fuel n s pre post, J n s → members s = pre ++ post → (length post + μ s ≤ fuel)%nat →
  wp (for_each_safe fuel members body (head post)) (λ _ s', if decide (post = []) then s' = s else ∃ m, J (S m) s') s.
Proof using Type.
  intros Hn Hb. induction fuel as [|fuel IH]; intros n s pre post HJ E Hf; destruct post as [|x post]; cbn [head for_each_safe];
    [by apply wp_ret|cbn [length] in Hf; lia|by apply wp_ret|].
  destruct (decide (x :: post = [])) as [|_]; [done|]. apply wp_bind, wp_get. apply wp_bind. rewrite E, next_in_middle.
  2:{ pose proof (Hn _ _ HJ) as Hd. rewrite E in Hd. apply NoDup_app in Hd as (_ & Hd & _). intros Hx. apply (Hd x Hx). by left. }
  apply wp_deref. eexists. split; [done|]. apply wp_bind. eapply wp_mono; [by eapply Hb|].
  intros [] s' (HJ' & pre' & ext & E' & L). destruct post as [|y post].
  - destruct fuel; cbn [head for_each_safe]; apply wp_ret; eauto.
  - cbn [length] in Hf. eapply wp_mono; [apply (IH (S n) s' pre' ((y :: post) ++ ext)); [done|done|]|].
    + rewrite length_app. cbn [length]. lia.
    + intros [] s2. by rewrite decide_False by done.
Qed.
End safe.

(** * When nothing happens *)
Definition all_settled (ph : die_id → phase) (u : Z → option die_id) (s : fil) : Prop :=
  ∀ c, 0 ≤ c < NR_CHANNELS → settled c ph u s.
Section stalled.
Context (X : chip_id → Z) (ph : die_id → phase) (u : Z → option die_id) (s : fil) (I : inv X ph u s).
Context (Hin : chip_in_transfer_list s = []) (Hout : chip_out_transfer_list s = []).
Lemma stalled_bus dk : on_bus (ph dk) = false.
Proof using All.
  destruct (on_bus (ph dk)) eqn:E; [|done]. exfalso. destruct dk as [ck i]. apply orb_true_iff in E as [E|E].
  - apply (not_elem_of_nil ck). rewrite <-Hin. apply (i_in _ _ _ _ I). by exists i.
  - apply (not_elem_of_nil (ck, i)). rewrite <-Hout. by apply (i_out _ _ _ _ I).
Qed.
Lemma stalled_idle c : u c = None.
Proof using All.
  destruct (u c) as [dk|] eqn:E; [|done]. pose proof (i_chan _ _ _ _ I _ _ E) as Ec.
  assert (on_bus (ph dk) = true) as Hb by (apply (i_user _ _ _ _ I); by rewrite Ec). by rewrite stalled_bus in Hb.
Qed.
(** Nothing is left when no transfer and no command that is due is found. *)
Lemma stalled_done : all_settled ph u s → (∀ dk, is_exec (ph dk) = true → False) → pending s = [].
Proof using All.
  intros Hs Hx. assert (∀ dk, ph dk = PIdle) as Hidle.
  { intros dk. pose proof (stalled_bus dk) as Hb. pose proof (Hx dk) as Hxx. destruct (ph dk) as [|t|t|t|t] eqn:Hp; try done.
    exfalso. assert (valid dk) as V by (apply (phase_valid _ _ _ _ I dk t); by rewrite Hp). destruct dk as [[c w] i].
    apply valid_bounds in V as (Hc & _). destruct (Hs c Hc (stalled_idle c)) as [Hw _]. apply (not_elem_of_nil t). rewrite <-Hw.
    apply (i_wait _ _ _ _ I). by exists (c, w, i). }
  unfold pending. apply app_nil. split.
  - unfold queued. destruct (all_queues ≫= chip_queues s) as [|t l] eqn:E; [done|]. exfalso.
    assert (t ∈ all_queues ≫= chip_queues s) as Ht by (rewrite E; by left).
    apply list_elem_of_bind in Ht as ([ck q] & Ht & Hq). destruct ck as [c w].
    destruct (i_queue _ _ _ _ I (c, w, q)) as [_ HQ]. destruct (HQ t Ht) as [(Ea & _ & V) _]. injection Ea as <- <-.
    apply valid_bounds in V as (Hc & Hw & _). destruct (Hs _ Hc (stalled_idle _)) as [_ Hv].
    destruct (Hv _ Hw) as [E'|[i Hi]]; [rewrite E' in Ht; by apply not_elem_of_nil in Ht|by rewrite Hidle in Hi].
  - unfold in_flight. destruct (all_dies ≫= λ dk, active_txns (dies s dk)) as [|t l] eqn:E; [done|]. exfalso.
    assert (t ∈ all_dies ≫= λ dk, active_txns (dies s dk)) as Ht by (rewrite E; by left).
    apply list_elem_of_bind in Ht as (dk & Ht & _). pose proof (i_die _ _ _ _ I dk) as D. rewrite Hidle in D.
    destruct D as (_ & _ & D & _). rewrite D in Ht. by apply not_elem_of_nil in Ht.
Qed.
End stalled.

Section due.
Context `{Nfc}.
Definition commands_due (s : fil) : bool :=
  forallb (λ dk, negb (current_cmd (dies s dk)) || (cmd_finish_time (dies s dk) <=? timer (clock s))) all_dies.

Lemma due_exec X ph u s dk : inv X ph u s → commands_due s = true → is_exec (ph dk) = true → cmd_finish_time (dies s dk) ≤ timer (clock s).
Proof using Type.
  intros I Hdue Hx. destruct (exec_die _ _ _ _ I dk Hx) as (t & Hp & D & _).
  assert (valid dk) as V%all_dies_valid by (apply (phase_valid _ _ _ _ I dk t); by rewrite Hp).
  unfold commands_due in Hdue. rewrite forallb_forall in Hdue. specialize (Hdue dk ltac:(by apply list_elem_of_In)).
  rewrite (od_current _ _ _ _ _ D) in Hdue. cbn [negb orb] in Hdue. lia.
Qed.
End due.

Section tick.
Context `{NfcOk} (gain : nat) (HG : gain = 0%nat ∨ gain = 1%nat ∧ responsive).
Context (X : chip_id → Z) (HX : ∀ ck, 0 ≤ X ck).

(** From [ph0] and [s0], with progress at least [k]. *)
Definition reached (k : nat) (ph0 : die_id → phase) (s0 s : fil) : Prop :=
  ∃ ph u l, inv X ph u s ∧ moves l k ph0 s0 ph s.
Lemma reached_trans k1 k2 ph1 s1 s3 : reached k1 ph1 s1 s3 → ∀ l0 ph0 s0, moves l0 k2 ph0 s0 ph1 s1 → reached (k2 + k1) ph0 s0 s3.
Proof using Type.
  intros (ph & u & l & I & M) l0 ph0 s0 M0. exists ph, u, (l0 ++ l). split; [done|]. by eapply moves_trans.
Qed.

Lemma wp_in_loop ph u s now : inv X ph u s →
  wp (for_each_safe (length (chip_in_transfer_list s) + length (queued s)) chip_in_transfer_list (finish_in_transfer now)
        (head (chip_in_transfer_list s)))
    (λ _ s', if decide (chip_in_transfer_list s = []) then s' = s else reached gain ph s s') s.
Proof using All.
  intros I. eapply wp_mono; [eapply (wp_for_each_safe _ _ (λ n s', reached (n * gain) ph s s') (λ s, length (queued s)))
    with (n := 0%nat) (pre := []); [| |by exists ph, u, []; split; [|apply moves_refl]|done|done]|].
  - intros n s' (ph' & u' & _ & I' & _). apply I'.
  - intros n s' pre ck post (ph' & u' & l & I' & M') E. eapply wp_mono; [apply (wp_finish_in gain HG X ph' u' s'); [done|done|]|].
    { rewrite E, elem_of_app. right. by left. }
    intros [] s2 (ph2 & u2 & I2 & M2 & l2 & ext & E2 & Hl & L2). split.
    + exists ph2, u2, (l ++ []). split; [done|]. eapply moves_trans; [exact M'|exact M2|cbn; lia].
    + destruct Hl as [-> | ->].
      * exists (pre ++ [ck]), ext. rewrite E2, E, <-!app_assoc. done.
      * exists pre, ext. rewrite E2, E, list_del_middle; [by rewrite <-app_assoc|]. rewrite <-E. apply I'.
  - intros [] s'. destruct (decide (chip_in_transfer_list s = [])); [done|]. intros (m & ph' & u' & l & I' & M').
    exists ph', u', l. split; [done|]. eapply moves_weaken; [exact M'|]. cbn. lia.
Qed.

Lemma wp_finish_dies now ready ph u s : inv X ph u s → NoDup ready → (∀ dk, dk ∈ ready → is_exec (ph dk) = true) →
  wp (for_each ready (finish_die_command now)) (λ _ s', if decide (ready = []) then s' = s else reached 1 ph s s') s.
Proof using All.
  intros I Hn Hx. cut (wp (for_each ready (finish_die_command now)) (λ _ s', reached (length ready) ph s s') s).
  { destruct ready as [|dk ready]; [intros _; by apply wp_ret|]. intros Hwp. eapply wp_mono; [exact Hwp|]. intros [] s' (ph' & u' & l & I' & M').
    rewrite decide_False by done. exists ph', u', l. split; [done|]. eapply moves_weaken; [exact M'|]. cbn. lia. }
  revert ph u s I Hx. induction ready as [|dk ready IH]; intros ph u s I Hx; cbn [for_each].
  { apply wp_ret. exists ph, u, []. split; [done|apply moves_refl]. }
  apply NoDup_cons in Hn as [Hnd Hn]. destruct (exec_die _ _ _ _ I dk ltac:(apply Hx; by left)) as (t & Hp & _).
  apply wp_bind. eapply wp_mono; [by eapply (wp_finish_die X ph u)|]. intros [] s1 (ph1 & u1 & l1 & I1 & M1 & K1).
  eapply wp_mono; [apply (IH Hn ph1 u1 s1); [done|]|].
  - intros dk' Hd. destruct (exec_die _ _ _ _ I dk' ltac:(apply Hx; by right)) as (t' & Hp' & _). rewrite (K1 dk' t'); [done| |done]. by intros ->.
  - intros [] s2 R2. cbn [length]. by eapply (reached_trans _ 1).
Qed.

Lemma wp_finish_out ph u s now dk : inv X ph u s → dk ∈ chip_out_transfer_list s →
  wp (finish_out_transfer now dk) (λ _ s', reached gain ph s s' ∧
    (chip_out_transfer_list s' = chip_out_transfer_list s ∨ chip_out_transfer_list s' = list_del dk (chip_out_transfer_list s))) s.
Proof using All.
  intros I Hd. apply (i_out _ _ _ _ I) in Hd. destruct (ph dk) as [|t|t|t|t] eqn:Hp; try done.
  unfold finish_out_transfer. apply wp_bind. apply (wp_transfer_done gain HG). intros b s1 Q Hb. wp_steps.
  pose proof (inv_quiet _ _ _ _ _ Q I) as I1. assert (chip_out_transfer_list s1 = chip_out_transfer_list s) as El by apply Q. destruct b.
  - wp_steps. eapply wp_mono; [by apply (wp_complete_out X ph u s1 now dk t)|]. intros [] s2 (ph2 & u2 & I2 & M2 & E2).
    rewrite E2, El. split; [|by right]. exists ph2, u2, [t]. split; [done|].
    eapply (moves_trans [] [t] 0 1); [by apply quiet_moves|exact M2|]. destruct HG as [->|[-> _]]; lia.
  - split; [|by left]. exists ph, u, []. split; [done|]. eapply moves_weaken; [by apply quiet_moves|].
    destruct HG as [->|[E _]]; [done|]. by apply Hb in E.
Qed.
Lemma wp_out_loop ph u s now : inv X ph u s →
  wp (for_each_safe (length (chip_out_transfer_list s)) chip_out_transfer_list (finish_out_transfer now) (head (chip_out_transfer_list s)))
    (λ _ s', if decide (chip_out_transfer_list s = []) then s' = s else reached gain ph s s') s.
Proof using All.
  intros I. eapply wp_mono; [eapply (wp_for_each_safe _ _ (λ n s', reached (n * gain) ph s s') (λ _, 0%nat))
    with (n := 0%nat) (pre := []); [| |by exists ph, u, []; split; [|apply moves_refl]|done|lia]|].
  - intros n s' (ph' & u' & _ & I' & _). apply I'.
  - intros n s' pre dk post (ph' & u' & l & I' & M') E. eapply wp_mono; [apply (wp_finish_out ph' u' s'); [done|]|].
    { rewrite E, elem_of_app. right. by left. }
    intros [] s2 [R2 Hl]. split.
    + eapply (reached_trans _ (n * gain)) in M'; [|exact R2]. by rewrite Nat.add_comm in M'.
    + destruct Hl as [-> | ->].
      * exists (pre ++ [dk]), []. rewrite E, app_nil_r, <-!app_assoc. done.
      * exists pre, []. rewrite E, list_del_middle, app_nil_r; [done|]. rewrite <-E. apply I'.
  - intros [] s'. destruct (decide (chip_out_transfer_list s = [])); [done|]. intros (m & ph' & u' & l & I' & M').
    exists ph', u', l. split; [done|]. eapply moves_weaken; [exact M'|]. cbn. lia.
Qed.

Lemma wp_serve_all cs ph u s : inv X ph u s → Forall (λ c, 0 ≤ c < NR_CHANNELS) cs →
  wp (for_each cs serve_channel) (λ _ s', ∃ ph' u', inv X ph' u' s' ∧ moves [] 0 ph s ph' s' ∧
    ∀ c, c ∈ cs ∨ settled c ph u s → settled c ph' u' s') s.
Proof using All.
  revert ph u s. induction cs as [|c cs IH]; intros ph u s I Hc; cbn [for_each].
  { apply wp_ret. exists ph, u. split; [done|]. split; [apply moves_refl|]. by intros c [?%not_elem_of_nil|?]. }
  apply Forall_cons in Hc as [Hc Hcs]. apply wp_bind. eapply wp_mono; [by apply (wp_serve_channel X ph u)|].
  intros [] s1 (ph1 & u1 & I1 & M1 & L1 & S1). eapply wp_mono; [by apply (IH ph1 u1)|].
  intros [] s2 (ph2 & u2 & I2 & M2 & S2). exists ph2, u2. split; [done|]. split; [by eapply (moves_trans [] [] 0 0)|].
  intros c' Hc'. apply S2. destruct (decide (c' = c)) as [->|Hne]; [by right|].
  destruct Hc' as [[?|?]%elem_of_cons|Hs]; [done|by left|]. right. exact (settled_local X c c' _ _ _ _ _ _ I I1 L1 Hne Hs).
Qed.

(** ** A whole iteration *)
(** The progress of the three loops. *)
Lemma reached_if (P : Prop) `{!Decision P} k ph u s s' : inv X ph u s → (if decide P then s' = s else reached k ph s s') →
  ∃ ph' u' l j, inv X ph' u' s' ∧ moves l j ph s ph' s' ∧ (P → s' = s ∧ ph' = ph ∧ u' = u) ∧ (¬ P → j = k).
Proof using All.
  intros I. destruct (decide P) as [HP|HP]; [intros ->|intros (ph' & u' & l & I' & M')].
  - exists ph, u, [], 0%nat. split; [done|]. split; [apply moves_refl|done].
  - by exists ph', u', l, k.
Qed.
Lemma wp_fil_tick ph u s : inv X ph u s → (gain = 1%nat → all_settled ph u s ∧ commands_due s = true) →
  wp fil_tick (λ _ s', ∃ ph' u' l, inv X ph' u' s' ∧ all_settled ph' u' s' ∧
    moves l (if decide (pending s = []) then 0 else gain) ph s ph' s') s.
Proof using All.
  intros I Hdue. unfold fil_tick, check_completion, timer_get_cycles. fops. set (s0 := set_clock _ s).
  assert (quiet s s0) as Q0 by quiet. pose proof (inv_quiet _ _ _ _ _ Q0 I) as I0.
  eapply wp_mono; [by apply (wp_in_loop ph u)|]. intros [] s1 (ph1 & u1 & l1 & j1 & I1 & M1 & N1 & J1)%(reached_if _ _ _ _ _ _ I0). fops.
  eapply wp_mono; [apply (wp_get_completion X ph1 u1 gain HG (timer (clock s)) s1 I1)|]. intros ready s2 (Q2 & Nr & Xr & Hr).
  pose proof (inv_quiet _ _ _ _ _ Q2 I1) as I2. fops.
  eapply wp_mono; [by apply (wp_finish_dies _ ready ph1 u1 s2)|]. intros [] s3 (ph3 & u3 & l3 & j3 & I3 & M3 & N3 & J3)%(reached_if _ _ _ _ _ _ I2). fops.
  eapply wp_mono; [by apply (wp_out_loop ph3 u3)|]. intros [] s4 (ph4 & u4 & l4 & j4 & I4 & M4 & N4 & J4)%(reached_if _ _ _ _ _ _ I3).
  eapply wp_mono; [apply (wp_serve_all _ ph4 u4); [done|]|]; [apply Forall_forall; intros c Hc%elem_of_seqZ; lia|].
  intros [] s5 (ph5 & u5 & I5 & M5 & S5). exists ph5, u5, (l1 ++ l3 ++ l4 ++ []). split; [done|]. split.
  { intros c Hc. apply S5. left. apply elem_of_seqZ. lia. }
  assert ((if decide (pending s = []) then 0 else gain) ≤ j1 + (0 + (j3 + (j4 + 0))))%nat as Hj.
  { destruct (decide (pending s = [])) as [|Hp]; [lia|]. destruct HG as [->|[Eg _]]; [lia|]. rewrite Eg in *. destruct (Hdue eq_refl) as [Hs Hd].
    destruct (decide (chip_in_transfer_list s0 = [])) as [E1|E1]; [|rewrite (J1 E1); lia]. destruct (N1 E1) as (-> & -> & ->).
    destruct (decide (ready = [])) as [E3|E3]; [|rewrite (J3 E3); lia]. destruct (N3 E3) as (-> & -> & ->).
    destruct (decide (chip_out_transfer_list s2 = [])) as [E4|E4]; [|rewrite (J4 E4); lia]. exfalso. apply Hp.
    assert (chip_out_transfer_list s2 = chip_out_transfer_list s0) as E4' by apply Q2. rewrite E4' in E4.
    eapply (stalled_done X ph u s0 I0 E1 E4); [exact Hs|]. intros dk Hx. apply (not_elem_of_nil dk). rewrite <-E3. apply Hr; [done| |done|].
    - intros dk' Hx'. by apply (due_exec X ph u s dk' I Hd).
    - by eapply (stalled_idle X ph u s0 I0). }
  eapply moves_weaken; [|exact Hj].
  eapply (moves_trans [] (l1 ++ l3 ++ l4 ++ []) 0 (j1 + (0 + (j3 + (j4 + 0))))); [by apply (quiet_moves ph s s0)| |done].
  eapply moves_trans; [exact M1| |reflexivity].
  eapply (moves_trans [] (l3 ++ l4 ++ []) 0 (j3 + (j4 + 0))); [by apply (quiet_moves ph1 s1 s2)| |done].
  eapply moves_trans; [exact M3| |reflexivity]. eapply moves_trans; [exact M4|exact M5|done].
Qed.
End tick.
