(* ===== verification/FilLoop.v ===== *)
(** The main loop: requests from the ring, and the states it reaches. *)
From stdpp Require Import functions.
From S2P Require Import Prelude Avl Flash Fil FilFacts FilSched FilQueue FilDispatch FilRound FilMoves FilDone FilServe FilFinish FilPoll FilTick.
#[local] Open Scope Z_scope.
#[local] Unset Default Proof Using.

(** * What the FTL core puts on the ring *)

(** A descriptor that is not in use, with a die of the chip. *)
Definition task_ok (k : task) : bool :=
  bool_decide (k_type k = TXN_DUMP) || negb (addr_in_range (k_addr k)) || ((0 <=? die (k_addr k)) && (die (k_addr k) <? DIES_PER_CHIP)).
(** A task that is scheduled, not answered at once. *)
Definition schedulable (k : task) : bool := negb (bool_decide (k_type k = TXN_DUMP)) && addr_in_range (k_addr k).
Definition acceptable (new : list (Z * task)) (s : fil) : Prop :=
  NoDup new.*1 ∧ Forall (λ tk, tk.1 ∉ pending s ∧ task_ok tk.2 = true) new.

Section arrivals.
Context (X : chip_id → Z) (ph : die_id → phase) (u : Z → option die_id) (s : fil) (I : inv X ph u s).
Lemma pending_queued t q : t ∈ chip_queues s q → t ∈ pending s.
Proof using I.
  intros Ht. unfold pending. rewrite elem_of_app. left. unfold queued. apply list_elem_of_bind. exists q. split; [done|].
  eapply queued_in. by apply (i_queue _ _ _ _ I q).
Qed.
(** Descriptors of tasks that are not pending may change. *)
Lemma inv_tasks f : (∀ t, t ∈ pending s → f t = tasks s t) → inv X ph u (set_tasks f s).
Proof using I.
  intros Hf. pose proof pending_queued as HQ. pose proof (pending_on _ _ _ _ I) as HD. destruct I. split; try done.
  - intros dk. apply (die_ok_ext s); [done| |done]. intros t Ht. fcbn. by rewrite Hf by by eapply HD.
  - intros q. destruct (i_queue q) as [N Hq]. split; [done|]. intros t Ht. fcbn. rewrite Hf by by eapply HQ. by apply Hq.
Qed.
Lemma commands_tasks f : (∀ t, t ∈ pending s → f t = tasks s t) → commands (set_tasks f s) = commands s.
Proof using Type.
  intros Hf. unfold commands. f_equal. unfold commands_of. apply list_fmap_ext. intros i t Ht%list_elem_of_lookup_2. fcbn.
  rewrite Hf; [done|]. unfold pending. rewrite elem_of_app. by left.
Qed.
End arrivals.

Definition requested (s : fil) (ts : list Z) : list (Z * nfc_op) := commands_of s (filter (λ t, schedulable (tasks s t) = true) ts).
Lemma requested_static s s' ts : (∀ t, static (tasks s' t) = static (tasks s t)) → requested s' ts = requested s ts.
Proof.
  intros E. unfold requested. rewrite (commands_of_static s s') by done. f_equal. apply list_filter_iff. intros t.
  unfold schedulable. by destruct (static_addr _ _ (E t)) as (-> & -> & _).
Qed.

(** * Taking requests from the ring *)
Section loop.
Context `{NfcOk}.
Definition none_extra : chip_id → Z := λ _, 0.
Lemma none_extra_pos ck : 0 ≤ none_extra ck.
Proof using Type. done. Qed.
#[local] Hint Resolve none_extra_pos : core.

(** [l] was answered and [ts] taken from the ring. *)
Record accepted (ts l : list Z) (s s' : fil) : Prop := {
  ac_used : used_ring s' = used_ring s ++ l;
  ac_pending : pending s ++ ts ≡ₚ l ++ pending s';
  ac_static : ∀ t, static (tasks s' t) = static (tasks s t);
  ac_done : ∀ t, t ∈ l ∨ k_completed (tasks s t) = true → k_completed (tasks s' t) = true;
  ac_commands : commands s' ≡ₚ requested s ts ++ commands s;
}.
Lemma accepted_refl s : accepted [] [] s s.
Proof using Type. split; [by rewrite app_nil_r|by rewrite app_nil_r|done|by intros t [?%not_elem_of_nil|?]|done]. Qed.
Lemma accepted_trans ts1 l1 ts2 l2 s1 s2 s3 : accepted ts1 l1 s1 s2 → accepted ts2 l2 s2 s3 → accepted (ts1 ++ ts2) (l1 ++ l2) s1 s3.
Proof using Type.
  intros A B. split.
  - by rewrite (ac_used _ _ _ _ B), (ac_used _ _ _ _ A), app_assoc.
  - rewrite app_assoc, (ac_pending _ _ _ _ A), <-!app_assoc, (ac_pending _ _ _ _ B). done.
  - intros t. by rewrite (ac_static _ _ _ _ B), (ac_static _ _ _ _ A).
  - intros t. rewrite elem_of_app. intros [[?|?]|?]; apply (ac_done _ _ _ _ B); [right; apply A; by left|by left|right; apply A; by right].
  - rewrite (ac_commands _ _ _ _ B), (ac_commands _ _ _ _ A), (requested_static s1 s2) by apply A.
    unfold requested, commands_of. rewrite filter_app, fmap_app, !app_assoc. f_equiv. apply Permutation_app_comm.
Qed.
Lemma accepted_moves l k ph s ph' s' : moves l k ph s ph' s' → accepted [] l s s'.
Proof using Type. intros M. split; try apply M. rewrite app_nil_r. apply M. Qed.

(** Answered without being scheduled. *)
Lemma wp_refuse ph u s t e : inv none_extra ph u s → t ∉ pending s → schedulable (tasks s t) = false →
  wp (notify_task_complete t e) (λ _ s', inv none_extra ph u s' ∧ accepted [t] [t] s s' ∧ pending s' = pending s) s.
Proof using Type.
  intros I Ht Hns. apply wp_notify. set (f := <[t := completed_task e (tasks s t)]> (tasks s)).
  assert (∀ t', t' ∈ pending s → f t' = tasks s t') as Hf.
  { intros t' Ht'. unfold f. rewrite fn_lookup_insert_ne; [done|]. by intros ->. }
  split; [|split; [|done]].
  - pose proof (inv_tasks _ _ _ _ I f Hf) as I2.
    destruct I2. split; try done. intros dk. by apply (die_ok_ext (set_tasks f s)).
  - split; [done| | | |].
    + fcbn. change (pending _) with (pending s) at 2. by rewrite Permutation_app_comm.
    + intros t'. unfold f. fcbn. rewrite fn_insert_decide. by destruct (decide _) as [->|].
    + intros t' Ht'. unfold f. fcbn. rewrite fn_insert_decide. destruct (decide _) as [->|Hne]; [done|].
      by destruct Ht' as [->%list_elem_of_singleton|?].
    + unfold requested. rewrite filter_cons_False by by rewrite Hns. cbn [filter list_filter commands_of fmap list_fmap app].
      pose proof (commands_tasks s f Hf) as Ec. unfold commands in Ec |- *. fcbn. exact (reflexive_eq _ _ Ec).
Qed.

(** Put at the end of its queue. *)
Lemma enqueue_inv ph u s t q : inv none_extra ph u s → t ∉ pending s → queued_ok (tasks s t) q → schedulable (tasks s t) = true →
  let s' := set_enqueued (<[q.1 := u32 (enqueued_requests s q.1 + 1)]> (enqueued_requests s))
    (set_count (<[q.1 := request_count s q.1 + 1]> (request_count s)) (set_queues (<[q := list_add_tail t (chip_queues s q)]> (chip_queues s)) s)) in
  inv none_extra ph u s' ∧ accepted [t] [] s s' ∧ pending s' ≡ₚ t :: pending s.
Proof using Type.
  intros I Ht Hq Hsch s'. assert (t ∉ chip_queues s q) as Hn by (intros Hin; by eapply Ht, (pending_queued none_extra ph u)).
  assert (∀ q', chip_queues s' q' = if decide (q' = q) then chip_queues s q ++ [t] else chip_queues s q') as Eq.
  { intros q'. unfold s'. fcbn. by rewrite fn_insert_decide. }
  assert (pending s' ≡ₚ t :: pending s) as Ep.
  { unfold pending. destruct (queued_update s s' q) as (rest & E1 & E2); [by eapply queued_in| |].
    - intros q' Hne. by rewrite Eq, decide_False.
    - change (in_flight s') with (in_flight s). rewrite E1, E2, Eq, decide_True by done. rewrite <-!app_assoc. cbn [app].
      by rewrite <-Permutation_middle. }
  split; [|split; [split|done]].
  - pose proof (chip_queued_update s s' q.1 q.2) as [C1 (rest & C2 & C3)].
    { intros q' Hne. rewrite Eq, decide_False; [done|]. intros ->. apply Hne. by destruct q. }
    replace (q.1, q.2) with q in * by by destruct q.
    assert (∀ dk, task_of (ph dk) ≠ Some t) as Hd by (intros dk E; by eapply Ht, (pending_on none_extra ph u)).
    destruct I. split; try done.
    + intros dk. by apply (die_ok_ext s).
    + intros q'. rewrite Eq. destruct (decide (q' = q)) as [->|]; [|apply i_queue]. destruct (i_queue q) as [N1 N2]. split.
      * apply NoDup_app. split; [done|]. split; [|apply NoDup_singleton]. by intros y Hy ->%list_elem_of_singleton.
      * intros t'. rewrite elem_of_app, list_elem_of_singleton. intros [?| ->]; [by apply N2|done].
    + intros ck. unfold s' at 1. fcbn. rewrite fn_insert_decide. destruct (decide (ck = q.1)) as [->|Hne].
      * rewrite i_count. rewrite C2, C3, !length_app, Eq, decide_True, length_app by done. cbn [length]. unfold none_extra. lia.
      * rewrite C1 by done. apply i_count.
  - unfold s'. fcbn. by rewrite app_nil_r.
  - rewrite Ep. cbn [app]. by rewrite <-Permutation_cons_append.
  - done.
  - by intros t' [?%not_elem_of_nil|?].
  - unfold requested. rewrite filter_cons_True by done. cbn [filter list_filter]. unfold commands.
    destruct (queued_update s s' q) as (rest & E1 & E2); [by eapply queued_in| |].
    { intros q' Hne. by rewrite Eq, decide_False. }
    change (issued (nfc_log s')) with (issued (nfc_log s)). rewrite (commands_of_static s s') by done. unfold commands_of at 1 3.
    rewrite E1, E2, Eq, decide_True, <-app_assoc by done. cbn [app].
    rewrite <-(Permutation_middle (chip_queues s q)). cbn [fmap list_fmap commands_of app]. by rewrite <-Permutation_middle.
Qed.

Definition taken_in (t : Z) (s s' : fil) : Prop := ∀ t', t' ∈ pending s' → t' = t ∨ t' ∈ pending s.
Lemma wp_dequeue ph u s t : inv none_extra ph u s → t ∉ pending s → task_ok (tasks s t) = true →
  wp (dequeue_request t) (λ _ s', ∃ l, inv none_extra ph u s' ∧ accepted [t] l s s' ∧ taken_in t s s') s.
Proof using Type.
  intros I Ht Hok. unfold dequeue_request. fops. case_bool_decide as Hd.
  { eapply wp_mono; [apply (wp_refuse ph u); [done|done|]; unfold schedulable; by rewrite bool_decide_true|]. intros [] s' (I' & A' & E). exists [t]. split_and!; [done|done|]. intros t'. rewrite E. by right. }
  unfold tsu_process_task. fops. destruct (addr_in_range (k_addr (tasks s t))) eqn:Ea; cbn [negb].
  2:{ eapply wp_mono; [apply (wp_refuse ph u); [done|done|]; unfold schedulable; by rewrite Ea, andb_false_r|]. intros [] s' (I' & A' & E). exists [t]. split_and!; [done|done|]. intros t'. rewrite E. by right. }
  assert (is_Some (task_queue (k_type (tasks s t)) (k_source (tasks s t)))) as [q Eq].
  { destruct (k_type (tasks s t)), (k_source (tasks s t)); cbn; eauto; done. }
  fops. rewrite Eq. apply wp_deref. exists q. split; [done|]. unfold get_queue, put_queue. fops.
  destruct (enqueue_inv ph u s t (channel (k_addr (tasks s t)), chip (k_addr (tasks s t)), q) I Ht) as (I' & A' & E).
  - split; [done|]. split; [done|]. apply valid_bounds. unfold task_ok in Hok. rewrite bool_decide_false, Ea in Hok by done.
    unfold addr_in_range, CHIPS_ENABLED_PER_CHANNEL in Ea. cbn [negb orb] in Hok. lia.
  - unfold schedulable. by rewrite bool_decide_false, Ea.
  - exists []. split; [exact I'|]. split; [exact A'|]. intros t' Ht'.
    assert (t' ∈ t :: pending s) as Hin by (rewrite <-E; exact Ht'). by apply elem_of_cons in Hin.
Qed.

Lemma wp_dequeue_all ts ph u s : inv none_extra ph u s → NoDup ts → (∀ t, t ∈ ts → t ∉ pending s ∧ task_ok (tasks s t) = true) →
  wp (for_each ts dequeue_request) (λ _ s', ∃ l, inv none_extra ph u s' ∧ accepted ts l s s') s.
Proof using Type.
  revert s. induction ts as [|t ts IH]; intros s I Hn Ht; cbn [for_each].
  { apply wp_ret. exists []. split; [done|apply accepted_refl]. }
  apply NoDup_cons in Hn as [Hnt Hn]. apply wp_bind. destruct (Ht t ltac:(by left)) as [Hp Hok].
  eapply wp_mono; [by apply (wp_dequeue ph u)|]. intros [] s1 (l1 & I1 & A1 & T1).
  eapply wp_mono; [apply (IH s1); [done|done|]|].
  - intros t' Ht'. destruct (Ht t' ltac:(by right)) as [Hp' Hok']. split.
    + intros [->|?]%T1; done.
    + unfold task_ok in *. by destruct (static_addr _ _ (ac_static _ _ _ _ A1 t')) as (-> & -> & _).
  - intros [] s2 (l2 & I2 & A2). exists (l1 ++ l2). split; [done|]. by eapply (accepted_trans [t] l1 ts l2).
Qed.

Lemma wp_flush_queues ph u s : inv none_extra ph u s →
  wp tsu_flush_queues (λ _ s', ∃ ph' u', inv none_extra ph' u' s' ∧ moves [] 0 ph s ph' s') s.
Proof using All.
  intros I. unfold tsu_flush_queues. assert (Forall (λ c, 0 ≤ c < NR_CHANNELS) (seqZ 0 NR_CHANNELS)) as Hc.
  { apply Forall_forall. intros c Hc%elem_of_seqZ. lia. }
  revert ph u s I. induction Hc as [|c cs Hc _ IH]; intros ph u s I; cbn [for_each].
  { apply wp_ret. exists ph, u. split; [done|apply moves_refl]. }
  wp_steps. apply wp_channel_busy; [done|]. rewrite (bus_busy _ _ _ _ _ I).
  destruct (bool_decide_reflect (u c ≠ None)) as [Hu|Hu]; [wp_steps; by apply (IH ph u)|].
  eapply wp_mono; [apply (wp_flush_channel none_extra ph u s c); [done|done|done|]|].
  - destruct (u c); [exfalso; by apply Hu|done].
  - intros [] s1 (ph1 & u1 & [I1 S1 _] & _). eapply wp_mono; [by apply (IH ph1 u1)|]. intros [] s2 (ph2 & u2 & I2 & M2).
    exists ph2, u2. split; [done|]. eapply (moves_trans [] [] 0 0); [by eapply moves_steps|exact M2|done].
Qed.

Lemma wp_arrive new s (Q : unit → fil → Prop) : NoDup new.*1 →
  (∀ f, (∀ t k, (t, k) ∈ new → f t = k) → (∀ t, t ∉ new.*1 → f t = tasks s t) → Q tt (set_tasks f s)) → wp (arrive new) Q s.
Proof using Type.
  unfold arrive. revert s Q. induction new as [|[t k] new IH]; intros s Q Hn HQ; cbn [for_each].
  { apply wp_ret. specialize (HQ (tasks s)). destruct s. apply HQ; [by intros ? ? ?%not_elem_of_nil|done]. }
  rewrite fmap_cons in Hn. apply NoDup_cons in Hn as [Hnt Hn]. cbn [fst snd] in *. fops. apply IH; [done|].
  intros f Hf1 Hf2. fcbn. assert (f t = k) as Et by (rewrite Hf2 by done; fcbn; by rewrite fn_lookup_insert).
  apply (HQ f).
  - intros t' k' [[= -> ->]|H']%elem_of_cons; [done|by apply Hf1].
  - intros t'. rewrite fmap_cons, not_elem_of_cons. intros [Hne Ht']. rewrite Hf2 by done. fcbn. by rewrite fn_lookup_insert_ne.
Qed.

Lemma wp_signal s (Q : unit → fil → Prop) : (∀ s', quiet s s' → Q tt s') → wp signal_ftl Q s.
Proof using Type.
  intros HQ. unfold signal_ftl. fops. apply wp_do_if. destruct (1 <=? _); fops; apply HQ; [quiet|apply quiet_refl].
Qed.

Lemma settled_quiet ph u s s' : quiet s s' → all_settled ph u s → all_settled ph u s'.
Proof using Type.
  intros [_ (_ & Eq & _ & _ & _ & Ew & _) _ _] Hs c Hc Hu. destruct (Hs c Hc Hu) as [H1 H2]. rewrite Ew. split; [done|].
  intros w Hw. destruct (H2 w Hw) as [H3|H3]; [left|by right]. intros q. by rewrite Eq.
Qed.

Definition wanted (ks : list task) : list (Z * nfc_op) := command_of <$> filter (λ k, schedulable k = true) ks.
Lemma requested_new f s new : (∀ t k, (t, k) ∈ new → f t = k) → requested (set_tasks f s) new.*1 = wanted new.*2.
Proof using Type.
  unfold requested, wanted. fcbn. induction new as [|[t k] new IH]; intros Hf; [done|]. rewrite !fmap_cons. cbn [fst snd].
  assert (f t = k) as Et by (apply Hf; by left). assert (∀ t k, (t, k) ∈ new → f t = k) as Hf' by (intros; apply Hf; by right).
  rewrite !filter_cons. fcbn. rewrite Et. destruct (decide _); [|by apply IH]. cbn [commands_of fmap list_fmap]. fcbn. rewrite Et. f_equal. by apply IH.
Qed.

(** An iteration with new requests. *)
Lemma wp_main_loop new ph u s : inv none_extra ph u s → acceptable new s →
  wp (main_loop new) (λ _ s', ∃ ph' u' l, inv none_extra ph' u' s' ∧ all_settled ph' u' s' ∧
    used_ring s' = used_ring s ++ l ∧ pending s ++ new.*1 ≡ₚ l ++ pending s' ∧
    (∀ t, t ∈ l → k_completed (tasks s' t) = true) ∧ commands s' ≡ₚ wanted new.*2 ++ commands s) s.
Proof using All.
  intros I [Hn Ha]. rewrite Forall_forall in Ha. unfold main_loop. apply wp_bind, wp_arrive; [done|]. intros f Hf1 Hf2.
  assert (∀ t, t ∈ new.*1 → t ∉ pending s ∧ task_ok (f t) = true) as Ht.
  { intros t ([t' k] & -> & Hk)%list_elem_of_fmap. cbn [fst]. rewrite (Hf1 t' k) by done. by apply (Ha (t', k)). }
  assert (∀ t, t ∈ pending s → f t = tasks s t) as Hf by (intros t Hp; apply Hf2; by intros [? _]%Ht).
  assert (inv none_extra ph u (set_tasks f s)) as I0 by by eapply inv_tasks.
  apply wp_bind. eapply wp_mono; [apply (wp_dequeue_all _ ph u (set_tasks f s)); done|]. intros [] s1 (l1 & I1 & A1).
  assert (∀ Q : unit → fil → Prop, (∀ s2 ph2 u2, inv none_extra ph2 u2 s2 → accepted [] [] s1 s2 → Q tt s2) →
    wp (do_if (bool_decide (new ≠ [])) tsu_flush_queues) Q s1) as Hflush.
  { intros Q HQ. apply wp_do_if. destruct (bool_decide _); [|by eapply HQ, accepted_refl].
    eapply wp_mono; [by apply (wp_flush_queues ph u)|]. intros [] s2 (ph2 & u2 & I2 & M2). eapply HQ; [done|]. by eapply accepted_moves. }
  apply wp_bind, Hflush. intros s2 ph2 u2 I2 A2. apply wp_bind.
  eapply wp_mono; [apply (wp_fil_tick 0 ltac:(by left) none_extra none_extra_pos ph2 u2 s2 I2); done|].
  intros [] s3 (ph3 & u3 & l3 & I3 & S3 & M3). apply wp_signal. intros s4 Q4. exists ph3, u3, (l1 ++ [] ++ l3 ++ []).
  split; [by eapply inv_quiet|]. split; [by eapply settled_quiet|].
  assert (accepted (new.*1 ++ [] ++ [] ++ []) (l1 ++ [] ++ l3 ++ []) (set_tasks f s) s4) as A.
  { eapply accepted_trans; [exact A1|]. eapply accepted_trans; [exact A2|].
    eapply accepted_trans; [by eapply accepted_moves|]. eapply accepted_moves, (quiet_moves ph3), Q4. }
  split; [apply A|]. split; [|split; [intros t Hl; apply A; by left|]].
  - rewrite <-(ac_pending _ _ _ _ A), !app_nil_r. done.
  - rewrite (ac_commands _ _ _ _ A), !app_nil_r, (requested_new f), commands_tasks by done. done.
Qed.
(** An iteration without. *)
Lemma wp_main_idle gain ph u s : gain = 0%nat ∨ gain = 1%nat ∧ responsive → inv none_extra ph u s →
  (gain = 1%nat → all_settled ph u s ∧ commands_due s = true) →
  wp (main_loop []) (λ _ s', ∃ ph' u' l, inv none_extra ph' u' s' ∧ all_settled ph' u' s' ∧
    moves l (if decide (pending s = []) then 0 else gain) ph s ph' s') s.
Proof using All.
  intros HG I Hd. unfold main_loop, arrive. cbn [for_each fmap list_fmap bool_decide]. fops. rewrite bool_decide_false by (by intros ?).
  apply wp_do_if, wp_bind. eapply wp_mono; [by apply (wp_fil_tick gain HG none_extra none_extra_pos ph u s I)|].
  intros [] s3 (ph3 & u3 & l3 & I3 & S3 & M3). apply wp_signal. intros s4 Q4. exists ph3, u3, (l3 ++ []).
  split; [by eapply inv_quiet|]. split; [by eapply settled_quiet|].
  eapply moves_trans; [exact M3|by apply (quiet_moves ph3)|lia].
Qed.
End loop.
