(* ===== verification/FilTheorems.v ===== *)
(** What the flash firmware guarantees: every task that arrives is answered once,
    an idle channel never has work left, one die uses a bus, and with controllers
    that answer everything is finished after a bounded number of iterations. *)
From stdpp Require Import functions.
From S2P Require Import Prelude Avl Flash Fil FilFacts FilSched FilQueue FilDispatch FilRound FilMoves FilDone FilServe FilFinish FilPoll FilTick FilLoop.
#[local] Open Scope Z_scope.
#[local] Unset Default Proof Using.

Section reachable.
Context `{NfcOk}.

(** The states between iterations of the main loop, with the tasks that have
    arrived. *)
Inductive reaches : list (Z * task) → fil → Prop :=
  | reaches_init : reaches [] fil_init
  | reaches_loop ts s new s' : reaches ts s → acceptable new s → main_loop new s = Some (tt, s') →
      reaches (ts ++ new) s'.

Lemma init_inv : inv none_extra (λ _, PIdle) (λ _, None) fil_init.
Proof using Type.
  split; cbn; try done.
  - split; [constructor|]. intros ck. split; [by intros ?%not_elem_of_nil|by intros [i ?]].
  - split; [constructor|]. intros ck. split; [by intros ?%not_elem_of_nil|done].
  - intros c. split; [constructor|]. intros t. split; [by intros ?%not_elem_of_nil|by intros (dk & _ & ?)].
  - split; [apply avl_ok_leaf|]. intros x. split; [by intros ?%not_elem_of_nil|by intros [? _]].
  - intros q. split; [constructor|]. by intros t ?%not_elem_of_nil.
Qed.
Lemma reaches_inv ts s : reaches ts s →
  ∃ ph u, inv none_extra ph u s ∧ all_settled ph u s ∧ ts.*1 ≡ₚ used_ring s ++ pending s ∧ commands s ≡ₚ wanted ts.*2.
Proof using All.
  induction 1 as [|ts s new s' Hr (ph & u & I & S & P & W) Ha E].
  - exists (λ _, PIdle), (λ _, None). split; [apply init_inv|]. split; [|by vm_compute].
    intros c Hc _. split; [done|]. intros w Hw. by left.
  - pose proof (wp_main_loop new ph u s I Ha) as Hwp. unfold wp in Hwp. rewrite E in Hwp.
    destruct Hwp as (ph' & u' & l & I' & S' & Eu & Ep & _ & Ew). exists ph', u'. split; [done|]. split; [done|]. split.
    + rewrite fmap_app, Eu, <-(assoc app), <-Ep, P, <-(assoc app). done.
    + rewrite Ew, W, fmap_app. unfold wanted. by rewrite filter_app, fmap_app, Permutation_app_comm.
Qed.

Definition next_state (new : list (Z * task)) (s : fil) : fil :=
  match main_loop new s with Some (_, s') => s' | None => s end.
Lemma reaches_next ts s new : reaches ts s → acceptable new s → reaches (ts ++ new) (next_state new s).
Proof using All.
  intros R Ha. pose proof R as (ph & u & I & _)%reaches_inv.
  pose proof (wp_main_loop new ph u s I Ha) as Hwp. unfold wp in Hwp. unfold next_state.
  destruct (main_loop new s) as [[[] s']|] eqn:E; [|done]. by eapply reaches_loop.
Qed.

(** C9: safety of the firmware.  From every reachable state the next iteration
    of the main loop runs to its end - no assertion fails, no loop is endless -
    and every task that has arrived is answered exactly once or still in a queue
    or on a die; a task is marked completed when it is answered. *)
Theorem fil_answers_once ts s : reaches ts s →
  ts.*1 ≡ₚ used_ring s ++ pending s ∧
  ∀ new, acceptable new s → ∃ s' l, main_loop new s = Some (tt, s') ∧ used_ring s' = used_ring s ++ l ∧
    pending s ++ new.*1 ≡ₚ l ++ pending s' ∧ ∀ t, t ∈ l → k_completed (tasks s' t) = true.
Proof using All.
  intros (ph & u & I & S & P & _)%reaches_inv. split; [done|]. intros new Ha.
  apply (wp_main_loop new ph u s I), wp_run in Ha as ([] & s' & E & ph' & u' & l & _ & _ & Eu & Ep & Hc & _). by exists s', l.
Qed.

(** C10: commands.  The commands that the controllers got, each with the chip
    that was enabled for it, and those that the queued tasks ask for, are together
    exactly the commands that the scheduled tasks asked for: with the block, page,
    column and buffer of the task, each once.  When nothing is pending all of them
    have been issued. *)
Theorem fil_commands_once ts s : reaches ts s →
  issued (nfc_log s) ++ ((λ t, command_of (tasks s t)) <$> queued s) ≡ₚ
    command_of <$> filter (λ k, schedulable k = true) ts.*2 ∧
  (pending s = [] → issued (nfc_log s) ≡ₚ command_of <$> filter (λ k, schedulable k = true) ts.*2).
Proof using All.
  intros (ph & u & I & S & P & W)%reaches_inv. split; [exact W|]. intros [E _]%app_nil. unfold commands in W.
  by rewrite E, app_nil_r in W.
Qed.

(** C12: no stall.  Between iterations, a channel whose bus is idle has no read
    waiting for the bus, and each of its chips has no request left in its queues
    or a command on one of its dies. *)
Theorem fil_no_stall ts s c w : reaches ts s → 0 ≤ c < NR_CHANNELS → 0 ≤ w < CHIPS_PER_CHANNEL → channel_status s c = BUS_IDLE →
  waiting_read_xfer s c = [] ∧
  ((∀ q, chip_queues s (c, w, q) = []) ∨ ∃ i, 0 ≤ i < DIES_PER_CHIP ∧ active_cmd (dies s (c, w, i)) = true).
Proof using All.
  intros (ph & u & I & S & _)%reaches_inv Hc Hw Hb. apply (bus_idle _ _ _ _ _ I) in Hb.
  destruct (S c Hc Hb) as [H1 H2]. split; [done|]. destruct (H2 w Hw) as [H3|[i Hi]]; [by left|right]. exists i. split.
  - apply (i_valid _ _ _ _ I) in Hi. apply valid_bounds in Hi. lia.
  - pose proof (i_die _ _ _ _ I (c, w, i)) as D. destruct (ph (c, w, i)); [done|..]; destruct D as [D _]; apply D.
Qed.

(** A die whose command or data is being transferred. *)
Definition transferring (s : fil) (dk : die_id) : Prop :=
  current_xfer (chips s dk.1) = Some dk.2 ∨ active_xfer (dies s dk) ≠ None.
Lemma transferring_bus X ph u s dk : inv X ph u s → transferring s dk ↔ on_bus (ph dk) = true.
Proof using Type.
  intros I. unfold transferring, on_bus. rewrite orb_true_iff. destruct dk as [ck i]. rewrite (i_cur _ _ _ _ I ck i). f_equiv.
  pose proof (i_die _ _ _ _ I (ck, i)) as D. destruct (ph (ck, i)); cbn [die_ok] in D.
  - destruct D as (_ & _ & _ & ->). by split.
  - destruct D as [D _]. rewrite (od_xfer _ _ _ _ _ D). by split.
  - destruct D as [D _]. rewrite (od_xfer _ _ _ _ _ D). by split.
  - destruct D as [D _]. rewrite (od_xfer _ _ _ _ _ D). by split.
  - destruct D as [D _]. rewrite (od_xfer _ _ _ _ _ D). by split.
Qed.

(** C13: use of the hardware.  A channel is busy exactly when one of its dies is
    transferring, and then only that one; a die works on one task at a time, which
    is addressed to it; data to program goes to a chip only while no other die of
    it reads or has a command that has not started (the multi-LUN rule). *)
Theorem fil_bus_exclusive ts s : reaches ts s →
  (∀ c, channel_status s c = BUS_BUSY ↔ ∃ dk, dk.1.1 = c ∧ transferring s dk) ∧
  (∀ dk dk', transferring s dk → transferring s dk' → dk.1.1 = dk'.1.1 → dk = dk') ∧
  (∀ dk t, t ∈ active_txns (dies s dk) → active_txns (dies s dk) = [t] ∧ die_of (k_addr (tasks s t)) = dk) ∧
  (∀ ck i d, current_xfer (chips s ck) = Some i → d ≠ i → blocks_program (dies s (ck, d)) = false).
Proof using All.
  intros (ph & u & I & _ & _)%reaches_inv. pose proof (λ dk, transferring_bus _ _ _ _ dk I) as T. split_and!.
  - intros c. rewrite (i_bus _ _ _ _ I). setoid_rewrite T. split.
    + destruct (u c) as [dk|] eqn:E; [|done]. intros _. pose proof (i_chan _ _ _ _ I _ _ E) as Ec. exists dk. split; [done|].
      apply (i_user _ _ _ _ I). by rewrite Ec.
    + intros (dk & <- & Hb). apply (i_user _ _ _ _ I) in Hb. by rewrite Hb.
  - intros dk dk' Hd%T Hd'%T Ec. apply (i_user _ _ _ _ I) in Hd, Hd'. congruence.
  - intros dk t Ht. pose proof (i_die _ _ _ _ I dk) as D. destruct (ph dk) as [|t'|t'|t'|t'].
    1: destruct D as (_ & _ & E & _); rewrite E in Ht; by apply not_elem_of_nil in Ht.
    all: destruct D as [D _]; rewrite (od_txns _ _ _ _ _ D) in *; apply list_elem_of_singleton in Ht as ->; split; [done|apply D].
  - intros ck i d Hc. apply (i_lun _ _ _ _ I). by apply (i_cur _ _ _ _ I).
Qed.

(** * Everything is finished *)
Lemma progress_le X ph u s : inv X ph u s → (progress ph ≤ 4 * length (in_flight s))%nat.
Proof using Type.
  intros I. unfold progress, in_flight. induction all_dies as [|dk l IH]; [done|]. cbn [fmap list_fmap sum_list mbind list_bind].
  rewrite length_app. assert (stage (ph dk) ≤ 4 * length (active_txns (dies s dk)))%nat; [|cbn in *; lia].
  pose proof (i_die _ _ _ _ I dk) as D. destruct (ph dk); cbn [stage]; try lia; destruct D as [D _]; rewrite (od_txns _ _ _ _ _ D); cbn; lia.
Qed.
(** Every iteration starts when all commands that run are due. *)
Fixpoint due_run (n : nat) (s : fil) : bool :=
  match n with
  | O => true
  | S n => commands_due s && match main_loop [] s with Some (_, s') => due_run n s' | None => true end
  end.
Lemma run_idle n ph u s : responsive → inv none_extra ph u s → all_settled ph u s → due_run n s = true →
  ∃ s' ph' u' l, run_loop (replicate n []) s = Some s' ∧ inv none_extra ph' u' s' ∧ used_ring s' = used_ring s ++ l ∧
    pending s ≡ₚ l ++ pending s' ∧ (pending s' ≠ [] → (progress ph + n ≤ progress ph' + 5 * length l)%nat).
Proof using All.
  intros HR. revert ph u s. induction n as [|n IH]; intros ph u s I S Hd.
  { exists s, ph, u, []. rewrite app_nil_r. split_and!; done || (intros _; cbn; lia). }
  cbn [due_run] in Hd. apply andb_true_iff in Hd as [Hd1 Hd2].
  pose proof (wp_main_idle 1 ph u s ltac:(by right) I ltac:(done)) as ([] & s1 & E1 & ph1 & u1 & l1 & I1 & S1 & M1)%wp_run.
  rewrite E1 in Hd2. destruct (IH ph1 u1 s1 I1 S1 Hd2) as (s2 & ph2 & u2 & l2 & E2 & I2 & Eu2 & P2 & G2).
  exists s2, ph2, u2, (l1 ++ l2). split_and!; [cbn [replicate run_loop]; by rewrite E1|done| | |].
  - by rewrite Eu2, (mv_used _ _ _ _ _ _ M1), app_assoc.
  - by rewrite (mv_pending _ _ _ _ _ _ M1), P2, app_assoc.
  - intros Hp. specialize (G2 Hp). pose proof (mv_progress _ _ _ _ _ _ M1) as G1. rewrite decide_False in G1.
    + rewrite length_app. lia.
    + intros E. apply Hp. pose proof (mv_pending _ _ _ _ _ _ M1) as P1. rewrite E in P1.
      apply Permutation_nil_l in P1. symmetry in P1. apply app_nil in P1 as [_ P1]. rewrite P1 in P2.
      apply Permutation_nil_l in P2. symmetry in P2. by apply app_nil in P2 as [_ ?].
Qed.

(** C11: liveness.  When the controllers have finished whenever they are looked
    at and the running commands are due, five iterations for each task that is
    pending are enough to answer all of them. *)
Theorem fil_all_answered ts s n : reaches ts s → responsive → due_run n s = true → (5 * length (pending s) ≤ n)%nat →
  ∃ s', run_loop (replicate n []) s = Some s' ∧ pending s' = [] ∧ used_ring s' ≡ₚ ts.*1.
Proof using All.
  intros (ph & u & I & S & P & _)%reaches_inv HR Hd Hn. destruct (run_idle n ph u s HR I S Hd) as (s' & ph' & u' & l & E & I' & Eu & Ep & G).
  exists s'. split; [done|]. assert (pending s' = []) as Hp.
  { destruct (decide (pending s' = [])) as [|Hp]; [done|exfalso]. specialize (G Hp). pose proof (progress_le _ _ _ _ I') as G2.
    apply Permutation_length in Ep. rewrite length_app in Ep. assert (length (in_flight s') ≤ length (pending s'))%nat by (unfold pending; rewrite length_app; lia).
    assert (length (pending s') ≠ 0%nat) by by destruct (pending s'). lia. }
  split; [done|]. rewrite Eu, P, Ep, Hp, app_nil_r. done.
Qed.
End reachable.

(** * Examples *)

(** Controllers that are always ready, and a clock that advances by [step] cycles
    from one reading to the next. *)
Definition ready_device (step : Z) : Nfc :=
  {| pulses_per_us := 1; timer n := Z.min (Z.of_nat n * step) (2 ^ 62); status_reg _ _ := 0x1E0; dma_idle _ _ := true;
     err_bitmap_reg _ _ := 0; sync_status _ _ := 0xE0; patience := 1%nat |}.
Lemma ready_device_ok step : 0 ≤ step → NfcOk (H := ready_device step).
Proof.
  intros Hs. split; cbn; try done.
  - intros n. split; [nia|]. apply Z.le_lt_trans with (2 ^ 62); [lia|done].
  - intros c n. exists 0%nat. split; [lia|done].
Qed.
Lemma ready_device_responsive step : responsive (H := ready_device step).
Proof. intros c n. split; [done|]. split; [done|]. by right. Qed.

Definition task_at (c w d : Z) (type : txn_type) (source : txn_source) : task :=
  Task (Addr c w d 0 3 4) type source 77 0x1000 0x2000 512 1024 20 false 0 0 0 0.
(** Two tasks of one die, others of the channel, and one with a wrong address. *)
Definition demo_tasks : list (Z * task) :=
  [(1, task_at 0 0 0 TXN_READ TS_USER_IO); (2, task_at 0 0 0 TXN_READ TS_MAPPING); (3, task_at 0 0 1 TXN_WRITE TS_USER_IO);
   (4, task_at 0 1 1 TXN_ERASE TS_GC); (5, task_at 9 0 0 TXN_READ TS_USER_IO); (6, task_at 0 1 1 TXN_WRITE TS_GC)].
Definition demo_state : fil := next_state (H := ready_device 2000) demo_tasks fil_init.
Lemma demo_acceptable : acceptable demo_tasks fil_init.
Proof. split; apply (bool_decide_unpack _); vm_compute; exact I. Qed.
Lemma demo_reaches : reaches (H := ready_device 2000) demo_tasks demo_state.
Proof. exact (reaches_next (H0 := ready_device_ok 2000 ltac:(lia)) [] fil_init demo_tasks reaches_init demo_acceptable). Qed.
(** One more request, for a die that works. *)
Definition demo_more : list (Z * task) := [(7, task_at 0 0 0 TXN_READ TS_USER_IO)].
Lemma demo_more_acceptable : acceptable demo_more demo_state.
Proof. split; apply (bool_decide_unpack _); vm_compute; exact I. Qed.

Lemma fil_answers_once_witness :
  [1; 2; 3; 4; 5; 6] ≡ₚ used_ring demo_state ++ pending demo_state ∧
  ∃ s' l, main_loop (H := ready_device 2000) demo_more demo_state = Some (tt, s') ∧ used_ring s' = used_ring demo_state ++ l ∧
    pending demo_state ++ [7] ≡ₚ l ++ pending s' ∧ ∀ t, t ∈ l → k_completed (tasks s' t) = true.
Proof.
  destruct (fil_answers_once (H := ready_device 2000) (H0 := ready_device_ok 2000 ltac:(lia)) demo_tasks demo_state demo_reaches) as [P Hn].
  split; [exact P|]. exact (Hn demo_more demo_more_acceptable).
Defined.
Lemma fil_commands_once_witness : length (queued demo_state) = 2%nat ∧
  issued (nfc_log demo_state) ++ ((λ t, command_of (tasks demo_state t)) <$> queued demo_state) ≡ₚ
    [(0, ReadPageAddr 0 0 0 3 4 532); (0, ReadPageAddr 0 0 0 3 4 532); (0, ProgramTransfer 0 1 0 3 4 532 4608 1024);
     (1, EraseBlock 0 1 0 3); (1, ProgramTransfer 0 1 0 3 4 532 4608 1024)].
Proof.
  destruct (fil_commands_once (H := ready_device 2000) (H0 := ready_device_ok 2000 ltac:(lia)) demo_tasks demo_state demo_reaches) as [P _].
  split; [vm_compute; reflexivity|]. exact P.
Defined.
Lemma fil_no_stall_witness : channel_status demo_state 3 = BUS_IDLE ∧ waiting_read_xfer demo_state 3 = [] ∧
  ((∀ q, chip_queues demo_state (3, 1, q) = []) ∨ ∃ i, 0 ≤ i < DIES_PER_CHIP ∧ active_cmd (dies demo_state (3, 1, i)) = true).
Proof.
  assert (0 ≤ 3 < NR_CHANNELS) as Hc by done. assert (0 ≤ 1 < CHIPS_PER_CHANNEL) as Hw by done.
  assert (channel_status demo_state 3 = BUS_IDLE) as E by (vm_compute; reflexivity). split; [exact E|].
  exact (fil_no_stall (H := ready_device 2000) (H0 := ready_device_ok 2000 ltac:(lia)) demo_tasks demo_state 3 1 demo_reaches Hc Hw E).
Defined.
(** With a DMA engine that takes long, the first data to program is still on its
    way after the iteration. *)
Definition slow_device : Nfc :=
  {| pulses_per_us := 1; timer n := Z.min (Z.of_nat n) (2 ^ 62); status_reg _ _ := 0x1E0; dma_idle _ _ := false;
     err_bitmap_reg _ _ := 0; sync_status _ _ := 0xE0; patience := 1%nat |}.
Lemma slow_device_ok : NfcOk (H := slow_device).
Proof.
  split; cbn; try done.
  - intros n. split; [lia|]. apply Z.le_lt_trans with (2 ^ 62); [lia|done].
  - intros c n. exists 0%nat. split; [lia|done].
Qed.
Definition slow_state : fil := next_state (H := slow_device) demo_tasks fil_init.
Lemma slow_reaches : reaches (H := slow_device) demo_tasks slow_state.
Proof. exact (reaches_next (H0 := slow_device_ok) [] fil_init demo_tasks reaches_init demo_acceptable). Qed.
Lemma fil_bus_exclusive_witness : channel_status slow_state 0 = BUS_BUSY ∧
  (∃ dk, dk.1.1 = 0 ∧ transferring slow_state dk) ∧
  (∀ dk dk', transferring slow_state dk → transferring slow_state dk' → dk.1.1 = dk'.1.1 → dk = dk').
Proof.
  assert (channel_status slow_state 0 = BUS_BUSY) as E by (vm_compute; reflexivity).
  destruct (fil_bus_exclusive (H := slow_device) (H0 := slow_device_ok) demo_tasks slow_state slow_reaches) as (B & P & _).
  split; [exact E|]. split; [exact (proj1 (B 0) E)|exact P].
Defined.
Lemma fil_all_answered_witness : pending demo_state ≠ [] ∧
  ∃ s', run_loop (H := ready_device 2000) (replicate 20 []) demo_state = Some s' ∧ pending s' = [] ∧ used_ring s' ≡ₚ [1; 2; 3; 4; 5; 6].
Proof.
  assert (due_run (H := ready_device 2000) 20 demo_state = true) as Hd by (vm_compute; reflexivity).
  assert (5 * length (pending demo_state) ≤ 20)%nat as Hn by (apply (bool_decide_unpack _); vm_compute; exact I).
  split; [by vm_compute|].
  destruct (fil_all_answered (H := ready_device 2000) (H0 := ready_device_ok 2000 ltac:(lia)) demo_tasks demo_state 20
    demo_reaches (ready_device_responsive 2000) Hd Hn) as (s' & E & Ep & Eu).
  exists s'. split; [exact E|]. split; [exact Ep|exact Eu].
Defined.

(** * Defects *)

(** C29: defect, a task for a die that does not exist.  The scheduler checks the
    channel and the chip of a task but not its die; a task for die 2 to 31 of an
    existing chip is queued, and the assertion of [fil_is_die_busy] then stops the
    firmware instead of the task being answered with an error. *)
Theorem fil_unknown_die_stops `{Nfc} (k : task) :
  addr_in_range (k_addr k) = true → DIES_PER_CHIP ≤ die (k_addr k) < 32 → k_type k ≠ TXN_DUMP →
  main_loop [(1, k)] fil_init = None.
Proof.
  destruct k as [[c w d pl b pg] ty so lpa da cb off len cl co st xu eu eb]. unfold addr_in_range. cbn [k_addr channel chip die k_type].
  intros Ha Hd Ht.
  assert (forallb (λ c, forallb (λ w, forallb (λ d, match main_loop
    [(1, Task (Addr c w d pl b pg) ty so lpa da cb off len cl co st xu eu eb)] fil_init with None => true | Some _ => false end)
    (seqZ 2 30)) (seqZ 0 2)) (seqZ 0 8) = true) as E.
  { destruct ty; try done; destruct so; vm_compute; reflexivity. }
  rewrite forallb_forall in E. specialize (E c). rewrite forallb_forall in E. specialize (E ltac:(apply list_elem_of_In, elem_of_seqZ; unfold NR_CHANNELS in *; lia) w).
  rewrite forallb_forall in E. specialize (E ltac:(apply list_elem_of_In, elem_of_seqZ; unfold CHIPS_ENABLED_PER_CHANNEL, CHIPS_PER_CHANNEL in *; lia) d).
  specialize (E ltac:(apply list_elem_of_In, elem_of_seqZ; unfold DIES_PER_CHIP in *; lia)).
  destruct (main_loop _ fil_init); done.
Qed.
Lemma fil_unknown_die_stops_witness :
  main_loop (H := ready_device 2000) [(1, task_at 3 1 2 TXN_READ TS_USER_IO)] fil_init = None.
Proof. apply (fil_unknown_die_stops (H := ready_device 2000)); done. Defined.

(** Defect, the status of an idle chip.  The count of reads that wait for
    the bus is only decremented when no die of the chip is active.  A read whose
    data is transferred while the other die erases is never subtracted: after the
    next read everything is answered, but the chip stays recorded as waiting to
    send data. *)
Theorem fil_chip_status_stale :
  match run_loop (H := ready_device 60)
      ([[(1, task_at 0 0 0 TXN_READ TS_USER_IO); (2, task_at 0 0 1 TXN_ERASE TS_GC)]] ++ replicate 30 [] ++
       [[(3, task_at 0 0 0 TXN_READ TS_USER_IO)]] ++ replicate 30 []) fil_init with
  | Some s => used_ring s = [1; 2; 3] ∧ pending s = [] ∧ active_dies (chips s (0, 0)) = 0 ∧
      nr_waiting_read_xfers (chips s (0, 0)) = 1 ∧ c_status (chips s (0, 0)) = CS_WAIT_FOR_DATA_OUT
  | None => False
  end.
Proof. vm_compute. by split_and!. Qed.
